(* ===== verification/_CoqProject ===== *)
-Q . S2P
Prelude.v
GoStrings.v
Stream.v
Messages.v
Protocol.v
Udp.v
Pattern.v
Router.v
Sniff.v
Limiter.v
ProxyProto.v
Challenge.v
CertStore.v
Session.v
Config.v
Server.v
Semver.v
Update.v
Stats.v
Relay.v
Listeners.v
Client.v
Flows.v
Schema.v
Dns.v
Storage.v
Accounts.v
Cert.v
Http01.v
Orders.v
Migrate.v
Scheduler.v
Url.v
Http.v
Clock.v
CloudApi.v
Cloudflare.v
Huawei.v
Dnspod.v
Aliyun.v
West.v
Namesilo.v
PowerDns.v
Providers.v
Records.v
Lmo.v
Po.v
Ssh.v
Detect.v
Deploy.v
CfTunnel.v
Transport.v
Commands.v
