(* ===== verification/Prelude.v ===== *)
(** * OpenFrp: a verification development

    OpenFrp publishes services that sit behind a NAT.  A client ([internal/tunnel/client])
    keeps one control connection to a server ([internal/tunnel/server]), asks it to publish
    tunnels, and supplies work connections on which the server relays its visitors.  Virtual
    hosts share the server's HTTP and HTTPS ports: the server reads the head of a visitor's
    connection, finds the host name, looks it up in a routing table and relays.  Around the two
    the program keeps accounts, certificates and their renewal, DNS records at seven services,
    a form for every configuration, updates of itself, a deployment of the server over ssh, and
    a second way to publish, through a Cloudflare tunnel.

    ** Files

    The definitions are functions translated from the Go source under [src/]; every one keeps
    the name it has there where Rocq allows it.  In dependency order:

    - [Prelude]: results ([res]: a value or an error), machine integers with their wrap-around
      ([i64], [u32]), big-endian integers, [time.Time.Sub], shared tactics and hints.
    - [GoStrings]: the functions of [strings], [bytes] and [strconv] the code calls, on byte lists.
    - [Stream]: what an [io.Reader] still holds and what an [io.Writer] was given.
    - [Messages], [Protocol]: [protocol/message.go], [codec.go], [preamble.go], [handshake.go]:
      frames, the greeting, authentication.  [Udp]: [protocol/udp.go].
    - [Pattern], [Router]: [vhost/pattern.go], [trie.go], [router.go].  [Router.Spec] is what
      routing promises, by the claims alone; [Router.router_ok] ties the published table to them.
    - [Sniff]: [vhost/sniff.go], [sniff_http.go], [sniff_tls.go], on a connection whose [Read]
      calls return arbitrary pieces.
    - [Limiter]: [pkg/netutil/limit.go] and the copy loop of [splice.go].
    - [ProxyProto]: [pkg/netutil/proxyproto.go].
    - [Challenge], [CertStore]: [server/challenge.go], [certstore.go], each against a
      specification that reads the history of its operations.
    - [Session]: [server/session.go], [limits.go] and the proxies of [server/proxy].
    - [Config]: [internal/config].
    - [Server]: [server/server.go], [registry.go], [control.go], [vhost.go]: the state of the
      whole server and its handlers, composed of all of the above.
    - [Semver], [Update]: [internal/update]: versions, the choice of a release, checksums,
      unpacking, installing and rolling back, on a disk ([Update.Disk]) any call of which may fail.
    - [Stats]: [internal/stats], the history of the client and the daily table.
    - [Relay], [Listeners]: a visitor served to its end with what is counted of it; the sockets
      of the server and its proxies as a step relation, and who closes them.
    - [Client]: [internal/tunnel/client], up to the supervisor of several servers; its theorems
      compose it with [Server] over the bytes of the wire.  [Flows]: the UDP flows of both ends.
    - [Schema]: [pkg/schema].  [Scheduler]: [internal/scheduler].
    - [Storage], [Migrate]: [internal/storage]; [Accounts], [Orders], [Http01]: [internal/manage];
      [Cert]: [internal/cert].  Every statement on the database may fail.
    - [Dns]: [internal/dns], the challenge solver over any provider (class [Provider]).
    - [Url], [Http], [Clock], [CloudApi]: the parts of [net/url], [net/http] and [time] that
      signing depends on, [internal/dns/httpclient.go], and [pkg/cloudapi].
    - [Cloudflare], [Huawei], [Dnspod], [Aliyun], [West], [Namesilo], [PowerDns], [Providers]:
      [internal/dns/providers] and their registration.
    - [Records]: the calls of [internal/manage/dns.go] that use a provider, over an account with
      any of the seven, and the [dns] command ([cmd/openfrpc/cmd/dns.go]).
    - [Lmo], [Po]: [tools/luci-i18n]: compiled catalogues, and the texts of the pages on their
      way into them.
    - [Ssh], [Detect], [Deploy]: [internal/deploy]: a session on a remote host that keeps a log
      of all that was done, the inspection of the host, and a deployment.
    - [CfTunnel]: [internal/cloudflare] and [cmd/openfrpc/cmd/cftunnel.go].
    - [Transport]: [internal/tunnel/transport] and the socket options of [pkg/netutil], on a
      system whose calls may fail.
    - [Commands]: [cmd/openfrpc/cmd]: the registry, [cert], [deploy], [update] and [run].

    ** How the code is modelled

    A Go function that returns an error returns [res]; one that mutates its receiver takes and
    returns it; one that talks to a service, a host or a disk works in a state monad over it
    ([Http.prov], [Ssh.ses], [Update.fs], [Transport.sys]).  A panic is [None] or a constructor of its own.  A
    mutex makes an operation one step.  Where a mutex is released in the middle (waiting for a
    work connection, a session's teardown after its control loop) the operation is split at
    that point, and what the rest of the program does meanwhile is an argument or a separate
    step.  Sessions are shared, so the server holds them in a heap ([Server.sessions]) and the
    registry maps a run id to an identity.  The overflow carriers of a session are a Go slice
    with its array, because the code aliases it.

    What the network, the clock and the kernel answer is an argument.  Third-party code and the
    parts of the standard library with tables of their own are classes: [Protocol.JsonCodec],
    [Http.JsonText], [Protocol.Hmac], [Update.Sha256], [CloudApi.Hashes], [GoStrings.Unicode],
    [Http.UnicodeUpper], [Pattern.Idna], [ProxyProto.NetText], [Flows.NetipText],
    [CertStore.X509], [Cert.CertText], [CfTunnel.CertFile], [Schema.Regexp], [Update.Archive],
    [Migrate.Sql], [Namesilo.XmlReply], and lego as [Cert.Acme].  What stands outside the
    program is a class too: [Http.Service] (an HTTP service with a state), [Ssh.Remote] and
    [Ssh.SshClient] (a host), [Deploy.Here] (the machine that deploys), [Detect.Runner],
    [CfTunnel.Cloudflared], [Http01.Resolver], [Http01.Announcer], [Orders.Outside],
    [Cert.Renewal], [Transport.Machine] and [Transport.Network].  Their laws are documented behaviour (what JSON writes, it reads back;
    [Cloudflare.CloudflareDocs], [PowerDns.PdnsDocs] and [CfTunnel.TunnelDocs] are what the
    services document of the requests the code makes, [Transport.ProcDocs] the form of a file in
    [/proc]), and each is instantiated by a concrete
    function where a theorem is applied to an example.  The rules by which Aliyun checks a
    signature, the words a POSIX shell makes of a command and the meaning of a condition are
    written out as definitions, from their documents and not from the code.

    Error messages are kept where the code looks at them; the values that [%q] prints into a
    message are left out of it.

    Loops that are not structural carry fuel, given by the caller from the size of its input:
    the head reader gets the number of bytes and reads left in the connection, the header and
    extension loops the bytes left to parse, the copy loop the length of the source's script,
    the scanner of the pages one step a byte.  That it is enough is a theorem where it matters
    ([Sniff.sniffing_loses_nothing] for all the loops of the sniffer,
    [Limiter.copyStream_faithful] for the copy loop, [GoStrings.TrimSpace_trimmed]).

    ** What the theorems show

    - The wire: messages and datagrams survive the stream and resynchronise, a cut frame is an
      error, the two datagram readers agree, authentication accepts exactly fresh keys.
    - Routing: the trie is the routing contract; publishing is all or nothing and withdrawing is
      exact in every router reachable by patterns that read back as themselves; a visitor is only
      routed to a pattern that covers it.
    - Identification: sniffing ends, loses no byte and finds the name, however the network cuts
      the stream.
    - Relaying: the bucket's bound while no product leaves [int64], the copy that carries all or
      all up to a write that fails ([Limiter.accepted]), the PROXY headers read back, a visitor
      served to its end and counted once, no listening socket leaked and a closed proxy's [Run]
      brought to its end, its visitors too, no local socket of a flow lost.
    - Sessions: connections are conserved, the pool's invariant, quotas to the byte, closing
      releases everything.
    - The server and the client: a login does what it must and both ends agree on it over the
      bytes of the wire, a replaced session cannot hurt its replacement, the control loop answers
      everything in order, a visitor's connection goes only where it belongs, a name that is
      taken is asked for until it is free or nine times, certificates are kept in step.
    - Configuration and forms: every enabled tunnel of a usable server is served once; what loads
      is well formed; a condition is decided as it reads ([Schema.condition_ok] says which).
    - Certificates: orders keep their invariant whatever statements fail, and their material or
      what the authority answered to the order itself; the renewer tries exactly what is due and
      saves every outcome; obtaining retries a bounded number of times.
    - Updates: nothing unverified is installed, nothing is written outside the places allowed,
      a failed update is taken back.
    - Signing and providers: the canonical forms are injective and decode, the services, by rules
      written down apart from the client ([CloudApi.rpc_accepts],
      [CloudApi.expected_authorization]), compute the signatures that are sent, a record that is
      added is stored as asked for ([Records.asked_field]) and can be deleted again, and the [dns]
      command changes a zone only as its action says.
    - Translations: a text found in a page is found in the catalogue compiled from its
      translated template.
    - Deployment: a deployment looks before it touches, success means a server that answered
      with its token, with the unit and the binary for what was found there, a download is moved
      into place only after its hash was right, values reach the remote shell as the words they
      are in each of the commands that carry one.
    - Connections: dialling gives a socket as it was asked for or leaves none, the group it is
      of, what an accepted connection has, and no stream is lost when a context ends.
    - Cloudflare tunnels: the most specific rule serves, the configuration reads back, only
      records into a tunnel for names no longer published are withdrawn, a program that runs is
      not lost.

    Some theorems show behaviour the code probably does not intend; their comments say so:
    [Router.unstable_pattern_freezes_table], [Session.overflow_skips_healthy_carrier],
    [Session.late_connection_left_open], [Session.late_proxy_left_open],
    [Server.reconnect_race_loses_routes], [Limiter.Limiter_idle_overflow],
    [Protocol.VerifyAuth_far_future_accepted], [Config.port_clash_missed],
    [Update.half_backup_destroys], [Update.MkdirAllMode_parents_masked],
    [Client.announced_withdrawal_ignored], [Flows.late_pump_closes_new_socket],
    [Schema.literal_operator_misread], [Cert.bound_account_never_renewed],
    [Cert.http_certificate_never_renewed], [Orders.failed_query_forgets_account],
    [Orders.deleted_account_is_not_named], [Orders.second_zone_challenge_misplaced],
    [Dnspod.action_is_lost], [Namesilo.xml_is_rejected],
    [PowerDns.second_challenge_replaces_first], [Huawei.value_deletes_whole_set],
    [Cloudflare.suffix_name_misplaced], [Lmo.dump_check_wraps], [Detect.inactive_ufw_active],
    [Deploy.stopped_service_taken_for_running], [CfTunnel.failed_withdrawal_forgotten],
    [CfTunnel.respelled_name_withdrawn], [Listeners.udp_run_gives_up], [Transport.open_group], [Transport.accepted_as_asked].

    ** What is not modelled

    TLS, yamux and splice(2) are input and output: a handshake succeeds or fails, a connection
    gives its bytes in pieces with pauses and errors, and takes all that is written or fails after
    some of it ([Limiter.sink]).  [pkg/log],
    package [flag], what [validate] and [version] print and [cmd/openfrps/main.go] are left out,
    and so is the JSON reporter of a deployment, which only prints.  The snapshot file of the
    client's counters, the file of the update check and the opening of the database are file
    access.  The OpenWrt package is JavaScript, ucode and shell.  What happens inside a service,
    a browser, [cloudflared] or a remote host is theirs: the classes above say what is relied
    on. *)
From stdpp Require Export prelude gmap strings list sorting.
From Stdlib Require Export Strings.Byte ZArith Lia.

#[export] Set Default Goal Selector "!".

(** ** Results: a Go function returning [(T, error)] *)

Inductive res (E A : Type) : Type :=
  | Ok (a : A)
  | Err (e : E).
Arguments Ok {_ _} _.
Arguments Err {_ _} _.

#[export] Instance res_ret {E} : MRet (res E) := fun A a => Ok a.
#[export] Instance res_bind {E} : MBind (res E) := fun A B f m =>
  match m with Ok a => f a | Err e => Err e end.
#[export] Instance res_fmap {E} : FMap (res E) := fun A B f m =>
  match m with Ok a => Ok (f a) | Err e => Err e end.

#[export] Instance res_eq_dec {E A} `{EqDecision E} `{EqDecision A} :
  EqDecision (res E A).
Proof. solve_decision. Defined.

#[export] Instance Ok_inj {E A} : Inj (=) (=) (@Ok E A).
Proof. congruence. Qed.

Definition is_ok {E A} (r : res E A) : bool :=
  match r with Ok _ => true | Err _ => false end.

Definition map_err {E F A} (f : E -> F) (r : res E A) : res F A :=
  match r with Ok a => Ok a | Err e => Err (f e) end.

(** [for _, x := range xs { if err := check(x); err != nil { return err } }]. *)
Fixpoint first_err {E A} (check : A -> res E unit) (xs : list A) : res E unit :=
  match xs with
  | [] => Ok tt
  | x :: xs => match check x with Ok _ => first_err check xs | Err e => Err e end
  end.

Lemma first_err_ok {E A} (check : A -> res E unit) xs :
  first_err check xs = Ok tt <-> Forall (fun x => check x = Ok tt) xs.
Proof.
  induction xs as [|x xs IH]; simpl; [by split; auto|].
  destruct (check x) as [[]|e] eqn:Hx.
  - rewrite IH. split; [by constructor|by inversion 1].
  - split; [done|]. inversion 1; congruence.
Qed.

(** [mapM]: convert every element, failing with the first error. *)
Fixpoint map_res {E A B} (f : A -> res E B) (xs : list A) : res E (list B) :=
  match xs with
  | [] => Ok []
  | x :: xs => y ← f x; ys ← map_res f xs; Ok (y :: ys)
  end.

Lemma map_res_ok {E A B} (f : A -> res E B) xs ys :
  map_res f xs = Ok ys <-> Forall2 (fun x y => f x = Ok y) xs ys.
Proof.
  revert ys; induction xs as [|x xs IH]; intros ys; simpl.
  - split; [by intros [= <-]|by inversion 1].
  - destruct (f x) as [y|e] eqn:Hf; simpl.
    + destruct (map_res f xs) as [ys'|e] eqn:Hm; simpl.
      * split.
        -- intros [= <-]. constructor; [done|]. by apply IH.
        -- inversion 1 as [|? y' ? ys'' Hy Hys]; subst. apply IH in Hys. congruence.
      * split; [done|]. inversion 1 as [|? y' ? ys'' Hy Hys]; subst.
        apply IH in Hys. congruence.
    + split; [done|]. inversion 1; congruence.
Qed.

(** ** Lists *)

Lemma filter_none {A} (P : A -> Prop) `{forall x, Decision (P x)} (l : list A) :
  (forall x, x ∈ l -> ~ P x) -> filter P l = [].
Proof.
  induction l as [|x l IH]; intros Hl; [done|]. rewrite filter_cons, decide_False by (apply Hl; by left).
  apply IH. intros y Hy. apply Hl. by right.
Qed.

Lemma filter_fmap {A B} (P : B -> Prop) `{forall x, Decision (P x)} (f : A -> B) (l : list A) :
  filter P (f <$> l) = f <$> filter (fun x => P (f x)) l.
Proof.
  induction l as [|x l IH]; [done|]. cbn [fmap list_fmap]. rewrite !filter_cons, IH. by case_decide.
Qed.

Lemma fmap_concat {A B} (f : A -> B) (ls : list (list A)) :
  f <$> concat ls =@{list B} concat ((fun l : list A => f <$> l) <$> ls).
Proof. induction ls as [|l ls IH]; [done|]. cbn [concat fmap list_fmap]. by rewrite fmap_app, IH. Qed.

(** ** Machine integers *)

Open Scope Z_scope.

(** [uint8], [uint16], [uint32] conversions reduce modulo [2^w]. *)
Definition wrapu (w z : Z) : Z := z mod 2 ^ w.
Definition u32 (z : Z) : Z := wrapu 32 z.

(** [int64] arithmetic wraps around in two's complement. *)
Definition i64 (z : Z) : Z := (z + 2 ^ 63) mod 2 ^ 64 - 2 ^ 63.
Definition min_i64 : Z := - 2 ^ 63.
Definition max_i64 : Z := 2 ^ 63 - 1.
Definition in_i64 (z : Z) : Prop := min_i64 <= z <= max_i64.

Lemma i64_range z : in_i64 (i64 z).
Proof.
  unfold in_i64, i64, min_i64, max_i64.
  pose proof (Z.mod_pos_bound (z + 2 ^ 63) (2 ^ 64) ltac:(lia)). lia.
Qed.

Lemma i64_id z : in_i64 z -> i64 z = z.
Proof.
  unfold in_i64, i64, min_i64, max_i64. intros H.
  rewrite Z.mod_small; lia.
Qed.

Lemma i64_plus_l a b : i64 (i64 a + b) = i64 (a + b).
Proof.
  unfold i64 at 1 3. f_equal. unfold i64.
  rewrite (Z.mod_eq (a + 2 ^ 63) (2 ^ 64)) by lia.
  replace (a + 2 ^ 63 - 2 ^ 64 * ((a + 2 ^ 63) / 2 ^ 64) - 2 ^ 63 + b + 2 ^ 63)
    with (a + b + 2 ^ 63 + (- ((a + 2 ^ 63) / 2 ^ 64)) * 2 ^ 64) by lia.
  by rewrite Z.mod_add by lia.
Qed.

Lemma u32_range z : 0 <= u32 z < 2 ^ 32.
Proof. apply Z.mod_pos_bound. lia. Qed.

Lemma u32_id z : 0 <= z < 2 ^ 32 -> u32 z = z.
Proof. apply Z.mod_small. Qed.

(** Go's integer division truncates toward zero. *)
Definition godiv (a b : Z) : Z := Z.quot a b.

(** ** Bytes *)

Abbreviation bytes := (list byte).

#[export] Instance byte_eq_decision : EqDecision byte := byte_eq_dec.
#[export] Instance byte_countable : Countable byte :=
  inj_countable Byte.to_N Byte.of_N Byte.of_to_N.
#[export] Instance byte_inhabited : Inhabited byte := populate x00.

Definition b2z (b : byte) : Z := Z.of_N (Byte.to_N b).
Definition z2b (z : Z) : byte := default x00 (Byte.of_N (Z.to_N (z mod 256))).

Lemma b2z_range b : 0 <= b2z b < 256.
Proof. unfold b2z. pose proof (Byte.to_N_bounded b). lia. Qed.

Lemma b2z_z2b z : b2z (z2b z) = z mod 256.
Proof.
  unfold b2z, z2b.
  pose proof (Z.mod_pos_bound z 256 ltac:(lia)) as Hb.
  destruct (Byte.of_N (Z.to_N (z mod 256))) as [b|] eqn:Hb'; simpl.
  - apply Byte.to_of_N in Hb'. rewrite Hb'. lia.
  - apply Byte.of_N_None_iff in Hb'. lia.
Qed.

Lemma b2z_inj b c : b2z b = b2z c -> b = c.
Proof.
  unfold b2z. intros H%N2Z.inj.
  pose proof (Byte.of_to_N b) as Hb. rewrite H, Byte.of_to_N in Hb. congruence.
Qed.

Lemma z2b_b2z b : z2b (b2z b) = b.
Proof.
  apply b2z_inj. rewrite b2z_z2b. apply Z.mod_small, b2z_range.
Qed.

(** Big-endian integers: [binary.BigEndian]. *)
Fixpoint be_put (n : nat) (z : Z) : bytes :=
  match n with
  | O => []
  | S n => be_put n (z / 256) ++ [z2b z]
  end.

Definition be_get (bs : bytes) : Z := foldl (fun acc b => acc * 256 + b2z b) 0 bs.

Lemma length_be_put n z : length (be_put n z) = n.
Proof.
  revert z; induction n as [|n IH]; intros z; simpl; [done|].
  rewrite length_app, IH. simpl. lia.
Qed.

Lemma be_get_snoc bs b : be_get (bs ++ [b]) = be_get bs * 256 + b2z b.
Proof. unfold be_get. by rewrite foldl_app. Qed.

Lemma be_get_nonneg bs : 0 <= be_get bs.
Proof.
  induction bs as [|b bs IH] using rev_ind; [done|].
  rewrite be_get_snoc. pose proof (b2z_range b). lia.
Qed.

Lemma be_get_bound bs : be_get bs < 256 ^ Z.of_nat (length bs).
Proof.
  induction bs as [|b bs IH] using rev_ind; [done|].
  rewrite be_get_snoc, length_app, Nat2Z.inj_add. simpl (Z.of_nat (length [b])).
  rewrite Z.pow_add_r by lia. pose proof (b2z_range b). lia.
Qed.

Lemma be_get_put n z : be_get (be_put n z) = z mod 256 ^ Z.of_nat n.
Proof.
  revert z; induction n as [|n IH]; intros z.
  - simpl. by rewrite Z.mod_1_r.
  - cbn [be_put]. rewrite be_get_snoc, IH, b2z_z2b.
    rewrite Nat2Z.inj_succ, Z.pow_succ_r by lia.
    rewrite Z.rem_mul_r by lia. lia.
Qed.

Lemma be_get_put_small n z :
  0 <= z < 256 ^ Z.of_nat n -> be_get (be_put n z) = z.
Proof. intros H. rewrite be_get_put. by apply Z.mod_small. Qed.

Lemma be_put_get bs : be_put (length bs) (be_get bs) = bs.
Proof.
  induction bs as [|b bs IH] using rev_ind; [done|].
  rewrite length_app, Nat.add_comm, be_get_snoc.
  change (length [b] + length bs)%nat with (S (length bs)). cbn [be_put].
  pose proof (b2z_range b).
  rewrite Z.div_add_l, (Z.div_small (b2z b)), Z.add_0_r, IH by lia.
  f_equal. f_equal. apply b2z_inj. rewrite b2z_z2b.
  rewrite Z.add_comm, Z.mod_add, Z.mod_small by lia. done.
Qed.

Arguments be_put : simpl never.
Arguments be_get : simpl never.

(** ** Time and durations (nanoseconds) *)
Definition Millisecond : Z := 1000000.
Definition Second : Z := 1000 * Millisecond.
Definition Minute : Z := 60 * Second.
Definition Hour : Z := 60 * Minute.

(** [Time.Sub] saturates at the ends of [time.Duration]. *)
Definition time_Sub (t u : Z) : Z := Z.max min_i64 (Z.min max_i64 (t - u)).

Lemma time_Sub_id t u : in_i64 (t - u) -> time_Sub t u = t - u.
Proof. unfold in_i64, time_Sub, min_i64, max_i64. lia. Qed.

(** ** Automation shared by the components *)

(** Case analysis on the innermost [match]/[if] of the goal or a hypothesis. *)
Ltac case_step :=
  match goal with
  | |- context [match ?x with _ => _ end] =>
      lazymatch x with context [match _ with _ => _ end] => fail | _ => idtac end;
      let H := fresh "Hcase" in destruct x eqn:H
  | H0 : context [match ?x with _ => _ end] |- _ =>
      lazymatch x with context [match _ with _ => _ end] => fail | _ => idtac end;
      let H := fresh "Hcase" in destruct x eqn:H
  end.
Ltac case_all := repeat (case_step; simplify_eq/=).

(** Turns boolean tests of the code into propositions. *)
Ltac bool_facts :=
  repeat match goal with
  | H : (_ && _)%bool = true |- _ => apply andb_true_iff in H as [? ?]
  | H : (_ && _)%bool = false |- _ => apply andb_false_iff in H
  | H : (_ || _)%bool = true |- _ => apply orb_true_iff in H
  | H : (_ || _)%bool = false |- _ => apply orb_false_iff in H as [? ?]
  | H : negb _ = true |- _ => apply negb_true_iff in H
  | H : negb _ = false |- _ => apply negb_false_iff in H
  | H : (_ =? _) = true |- _ => apply Z.eqb_eq in H
  | H : (_ =? _) = false |- _ => apply Z.eqb_neq in H
  | H : (_ <=? _) = true |- _ => apply Z.leb_le in H
  | H : (_ <=? _) = false |- _ => apply Z.leb_gt in H
  | H : (_ <? _) = true |- _ => apply Z.ltb_lt in H
  | H : (_ <? _) = false |- _ => apply Z.ltb_ge in H
  | H : bool_decide _ = true |- _ => apply bool_decide_eq_true in H
  | H : bool_decide _ = false |- _ => apply bool_decide_eq_false in H
  end.

Create HintDb frp.
Create Rewrite HintDb frp.
#[export] Hint Resolve b2z_range i64_range u32_range be_get_nonneg : frp.
#[export] Hint Rewrite length_be_put b2z_z2b z2b_b2z : frp.
