(* ===== verification/GoStrings.v ===== *)
(** Go strings and byte slices.

    A Go [string] and a [[]byte] are both a [list byte] here.  This file holds
    the functions of the packages [strings], [bytes] and [strconv] that the
    modelled code calls, with the lemmas the components share.  Unicode case
    mapping, whose tables are not part of the repository, is the class
    [Unicode]: the code reaches it only for a string that is not ASCII. *)
From S2P Require Import Prelude.
From Stdlib Require Import DecimalString DecimalPos DecimalN DecimalFacts.

(** Byte literals: [go "tcp"]. *)
Definition go (s : string) : bytes := String.list_byte_of_string s.

(** ** Prefixes, suffixes, searching *)

Definition HasPrefix (s p : bytes) : bool := bool_decide (p `prefix_of` s).
Definition HasSuffix (s p : bytes) : bool := bool_decide (p `suffix_of` s).

Lemma HasPrefix_length s p : HasPrefix s p = true -> (length p <= length s)%nat.
Proof. intros H%bool_decide_eq_true. by apply prefix_length. Qed.
Lemma HasSuffix_length s p : HasSuffix s p = true -> (length p <= length s)%nat.
Proof. intros H%bool_decide_eq_true. by apply suffix_length. Qed.

Definition TrimPrefix (s p : bytes) : bytes :=
  if HasPrefix s p then drop (length p) s else s.
Definition TrimSuffix (s p : bytes) : bytes :=
  if HasSuffix s p then take (length s - length p) s else s.

(** [strings.CutPrefix]. *)
Definition CutPrefix (s p : bytes) : bytes * bool :=
  if HasPrefix s p then (drop (length p) s, true) else (s, false).

(** [strings.Index]: the first occurrence. *)
Fixpoint Index (s sep : bytes) : option nat :=
  if HasPrefix s sep then Some 0%nat
  else match s with [] => None | _ :: s => S <$> Index s sep end.

Fixpoint IndexByte (s : bytes) (c : byte) : option nat :=
  match s with
  | [] => None
  | b :: s => if decide (b = c) then Some 0%nat else S <$> IndexByte s c
  end.

Fixpoint LastIndexByte (s : bytes) (c : byte) : option nat :=
  match s with
  | [] => None
  | b :: s => match LastIndexByte s c with
              | Some i => Some (S i)
              | None => if decide (b = c) then Some 0%nat else None
              end
  end.

(** [strings.IndexAny] and [strings.ContainsAny] for a set of ASCII bytes. *)
Fixpoint IndexAny (s chars : bytes) : option nat :=
  match s with
  | [] => None
  | b :: s => if decide (b ∈ chars) then Some 0%nat else S <$> IndexAny s chars
  end.
Definition ContainsAny (s chars : bytes) : bool := bool_decide (is_Some (IndexAny s chars)).

Definition Contains (s sep : bytes) : bool := bool_decide (is_Some (Index s sep)).
Definition ContainsByte (s : bytes) (c : byte) : bool := bool_decide (c ∈ s).

(** [strings.Cut]. *)
Definition Cut (s sep : bytes) : bytes * bytes * bool :=
  match Index s sep with
  | Some i => (take i s, drop (i + length sep) s, true)
  | None => (s, [], false)
  end.

(** [strings.Split] with a one-byte separator. *)
Fixpoint Split (s : bytes) (c : byte) : list bytes :=
  match s with
  | [] => [[]]
  | b :: s =>
      if decide (b = c) then [] :: Split s c
      else match Split s c with
           | p :: ps => (b :: p) :: ps
           | [] => [[b]]
           end
  end.

Fixpoint Join (ps : list bytes) (sep : bytes) : bytes :=
  match ps with
  | [] => []
  | [p] => p
  | p :: ps => p ++ sep ++ Join ps sep
  end.

(** [strings.ReplaceAll] of one byte by another. *)
Definition ReplaceByte (s : bytes) (a b : byte) : bytes :=
  (fun c => if decide (c = a) then b else c) <$> s.

(** ** Ordering: Go compares strings byte by byte *)

Fixpoint bytes_ltb (s t : bytes) : bool :=
  match s, t with
  | _, [] => false
  | [], _ :: _ => true
  | a :: s, b :: t =>
      if (b2z a <? b2z b) then true
      else if (b2z b <? b2z a) then false
      else bytes_ltb s t
  end.
Definition bytes_le (s t : bytes) : Prop := bytes_ltb t s = false.

#[export] Instance bytes_le_dec s t : Decision (bytes_le s t).
Proof. unfold bytes_le. apply _. Defined.

Lemma bytes_ltb_irrefl s : bytes_ltb s s = false.
Proof. induction s as [|a s IH]; simpl; [done|]. by rewrite Z.ltb_irrefl. Qed.

Lemma bytes_ltb_trans s t u :
  bytes_ltb s t = true -> bytes_ltb t u = true -> bytes_ltb s u = true.
Proof.
  revert t u; induction s as [|a s IH]; intros [|b t] [|c u]; simpl; try done.
  intros H1 H2. case_all; bool_facts; try lia; try done. by eapply IH.
Qed.

Lemma bytes_ltb_total s t : bytes_ltb s t = false -> bytes_ltb t s = false -> s = t.
Proof.
  revert t; induction s as [|a s IH]; intros [|b t]; simpl; try done.
  intros H1 H2. case_all; bool_facts; try lia.
  f_equal; [apply b2z_inj; lia|by apply IH].
Qed.

Lemma bytes_ltb_asym s t : bytes_ltb s t = true -> bytes_ltb t s = false.
Proof.
  intros H. destruct (bytes_ltb t s) eqn:E; [|done].
  pose proof (bytes_ltb_trans _ _ _ H E) as C. by rewrite bytes_ltb_irrefl in C.
Qed.

#[export] Instance bytes_le_total : Total bytes_le.
Proof.
  intros s t. unfold bytes_le.
  destruct (bytes_ltb t s) eqn:E; [right; by apply bytes_ltb_asym|by left].
Qed.

#[export] Instance bytes_le_trans : Transitive bytes_le.
Proof.
  unfold bytes_le. intros s t u H1 H2.
  destruct (bytes_ltb u s) eqn:E; [|done].
  destruct (bytes_ltb t u) eqn:E2.
  - pose proof (bytes_ltb_trans _ _ _ E2 E). congruence.
  - assert (t = u) as -> by by apply bytes_ltb_total. congruence.
Qed.

#[export] Instance bytes_le_antisym : AntiSymm (=) bytes_le.
Proof. intros s t H1 H2. by apply bytes_ltb_total. Qed.

(** [sort.Strings]. *)
Definition SortStrings (l : list bytes) : list bytes := merge_sort bytes_le l.

Lemma SortStrings_perm l : SortStrings l ≡ₚ l.
Proof. apply merge_sort_Permutation. Qed.

(** ** White space *)

(** The runes of [unicode.IsSpace], in UTF-8. *)
Definition space_runes : list bytes :=
  [[x20]; [x09]; [x0a]; [x0b]; [x0c]; [x0d]; [xc2; x85]; [xc2; xa0];
   [xe1; x9a; x80]; [xe2; x80; x80]; [xe2; x80; x81]; [xe2; x80; x82];
   [xe2; x80; x83]; [xe2; x80; x84]; [xe2; x80; x85]; [xe2; x80; x86];
   [xe2; x80; x87]; [xe2; x80; x88]; [xe2; x80; x89]; [xe2; x80; x8a];
   [xe2; x80; xa8]; [xe2; x80; xa9]; [xe2; x80; xaf]; [xe2; x81; x9f];
   [xe3; x80; x80]].

Definition leading_space (s : bytes) : option bytes := find (HasPrefix s) space_runes.
Definition trailing_space (s : bytes) : option bytes := find (HasSuffix s) space_runes.

Fixpoint trim_left (fuel : nat) (s : bytes) : bytes :=
  match fuel with
  | O => s
  | S fuel => match leading_space s with
              | Some r => trim_left fuel (drop (length r) s)
              | None => s
              end
  end.
Fixpoint trim_right (fuel : nat) (s : bytes) : bytes :=
  match fuel with
  | O => s
  | S fuel => match trailing_space s with
              | Some r => trim_right fuel (take (length s - length r) s)
              | None => s
              end
  end.

(** [strings.TrimSpace]; every round removes at least a byte, so the length is
    fuel enough ([TrimSpace_trimmed]). *)
Definition TrimSpace (s : bytes) : bytes :=
  let s := trim_left (length s) s in trim_right (length s) s.

Lemma leading_space_length s r :
  leading_space s = Some r -> (0 < length r <= length s)%nat.
Proof.
  intros [Hin Hp]%find_some. apply HasPrefix_length in Hp. split; [|done].
  rewrite <- list_elem_of_In in Hin.
  assert (Hf : Forall (fun r => (0 < length r)%nat) space_runes) by (repeat constructor).
  by rewrite Forall_forall in Hf; apply Hf.
Qed.

Lemma trailing_space_length s r :
  trailing_space s = Some r -> (0 < length r <= length s)%nat.
Proof.
  intros [Hin Hp]%find_some. apply HasSuffix_length in Hp. split; [|done].
  rewrite <- list_elem_of_In in Hin.
  assert (Hf : Forall (fun r => (0 < length r)%nat) space_runes) by (repeat constructor).
  by rewrite Forall_forall in Hf; apply Hf.
Qed.

Lemma trim_right_trimmed fuel s :
  (length s <= fuel)%nat -> trailing_space (trim_right fuel s) = None.
Proof.
  revert s; induction fuel as [|fuel IH]; intros s Hl; simpl.
  - by destruct s; simpl in *; [|lia].
  - destruct (trailing_space s) as [r|] eqn:E; [|done].
    apply trailing_space_length in E. apply IH. rewrite length_take. lia.
Qed.

Lemma trim_left_trimmed fuel s :
  (length s <= fuel)%nat -> leading_space (trim_left fuel s) = None.
Proof.
  revert s; induction fuel as [|fuel IH]; intros s Hl; simpl.
  - by destruct s; simpl in *; [|lia].
  - destruct (leading_space s) as [r|] eqn:E; [|done].
    apply leading_space_length in E. apply IH. rewrite length_drop. lia.
Qed.

(** Nothing is left to trim at the end: the fuel sufficed. *)
Lemma TrimSpace_trimmed s : trailing_space (TrimSpace s) = None.
Proof. by apply trim_right_trimmed. Qed.

(** ** Case *)

Definition is_ascii (s : bytes) : bool := forallb (fun b => b2z b <? 128) s.

Definition lower_byte (b : byte) : byte :=
  if (65 <=? b2z b) && (b2z b <=? 90) then z2b (b2z b + 32) else b.

(** Unicode case mapping: the tables of the package [unicode]. *)
Class Unicode := { unicode_lower : bytes -> bytes }.

(** ASCII strings never reach the Unicode tables. *)
Definition no_unicode : Unicode := {| unicode_lower s := s |}.

(** [strings.ToLower]: ASCII strings take the byte-wise path. *)
Definition ToLower `{Unicode} (s : bytes) : bytes :=
  if is_ascii s then lower_byte <$> s else unicode_lower s.

(** ** Numbers *)

Definition utoa (n : N) : bytes := go (NilZero.string_of_uint (N.to_uint n)).
(** [strconv.Itoa], [strconv.FormatInt(_, 10)] and the verb [%d]. *)
Definition Itoa (z : Z) : bytes :=
  if z <? 0 then x2d :: utoa (Z.to_N (- z)) else utoa (Z.to_N z).

(** A non-empty run of decimal digits. *)
Definition parse_uint (s : bytes) : option N :=
  N.of_uint <$> NilZero.uint_of_string (String.string_of_list_byte s).

(** [strconv.Atoi]: an optional sign, digits, and the range of [int] (64 bits). *)
Definition Atoi (s : bytes) : option Z :=
  v ← match s with
      | x2b :: r => Z.of_N <$> parse_uint r
      | x2d :: r => (fun n => - Z.of_N n) <$> parse_uint r
      | _ => Z.of_N <$> parse_uint s
      end;
  if (min_i64 <=? v) && (v <=? max_i64) then Some v else None.

(** ** Lemmas: prefixes and suffixes *)

Lemma HasPrefix_app p s : HasPrefix (p ++ s) p = true.
Proof. apply bool_decide_eq_true. by exists s. Qed.

Lemma HasPrefix_true s p : HasPrefix s p = true <-> exists k, s = p ++ k.
Proof. unfold HasPrefix. rewrite bool_decide_eq_true. done. Qed.

Lemma HasSuffix_app p s : HasSuffix (s ++ p) p = true.
Proof. apply bool_decide_eq_true. by exists s. Qed.

Lemma HasSuffix_true s p : HasSuffix s p = true <-> exists k, s = k ++ p.
Proof. unfold HasSuffix. rewrite bool_decide_eq_true. done. Qed.

Lemma HasPrefix_cons_ne a b s p : a <> b -> HasPrefix (a :: s) (b :: p) = false.
Proof.
  intros H. apply bool_decide_eq_false. intros [k Hk]. simpl in Hk. congruence.
Qed.

Lemma TrimPrefix_app p s : TrimPrefix (p ++ s) p = s.
Proof. unfold TrimPrefix. by rewrite HasPrefix_app, drop_app_length. Qed.

Lemma TrimSuffix_app s p : TrimSuffix (s ++ p) p = s.
Proof.
  unfold TrimSuffix. rewrite HasSuffix_app, length_app.
  rewrite Nat.add_sub. by rewrite take_app_length.
Qed.

Lemma TrimSuffix_none s p : HasSuffix s p = false -> TrimSuffix s p = s.
Proof. unfold TrimSuffix. by intros ->. Qed.

Lemma TrimPrefix_none s p : HasPrefix s p = false -> TrimPrefix s p = s.
Proof. unfold TrimPrefix. by intros ->. Qed.

(** ** Lemmas: searching *)

Lemma IndexAny_None s chars : IndexAny s chars = None <-> Forall (fun b => b ∉ chars) s.
Proof.
  induction s as [|b s IH]; simpl; [by split; auto|].
  case_decide as Hb.
  - split; [done|]. inversion 1; done.
  - rewrite Forall_cons, <- IH, fmap_None. tauto.
Qed.

Lemma IndexByte_None s c : IndexByte s c = None <-> c ∉ s.
Proof.
  induction s as [|b s IH]; simpl; [split; [set_solver|done]|].
  case_decide; [split; [done|set_solver]|].
  rewrite fmap_None, IH. set_solver.
Qed.

Lemma IndexByte_Some s c i :
  IndexByte s c = Some i <-> exists r, s = take i s ++ c :: r /\ c ∉ take i s /\ i = length (take i s).
Proof.
  revert i; induction s as [|b s IH]; intros i; simpl.
  - split; [done|]. intros (r & Hr & _). destruct i; discriminate.
  - case_decide; subst.
    + split; [intros [= <-]; exists s; simpl; repeat split; set_solver|].
      intros (r & Hr & Hn & Hi). destruct i as [|i]; [done|].
      simpl in *. set_solver.
    + rewrite fmap_Some. split.
      * intros (j & Hj & ->). apply IH in Hj as (r & Hr & Hn & Hl).
        exists r. cbn [take app length]. split; [by rewrite <- Hr|].
        split; [set_solver|lia].
      * intros (r & Hr & Hn & Hi). destruct i as [|i]; simpl in *; [congruence|].
        exists i. split; [|done]. apply IH. exists r.
        split; [congruence|]. split; [set_solver|lia].
Qed.

Lemma IndexByte_app s c r : c ∉ s -> IndexByte (s ++ c :: r) c = Some (length s).
Proof.
  induction s as [|b s IH]; simpl; intros H.
  - by rewrite decide_True.
  - rewrite decide_False by set_solver. rewrite IH by set_solver. done.
Qed.

Lemma Index_bound s sep i : Index s sep = Some i -> (i + length sep <= length s)%nat.
Proof.
  revert i; induction s as [|b s IH]; intros i; simpl.
  - destruct (HasPrefix [] sep) eqn:E; [|done]. intros [= <-].
    apply HasPrefix_true in E as [k Hk]. destruct sep; [done|discriminate].
  - destruct (HasPrefix (b :: s) sep) eqn:E.
    + intros [= <-]. apply HasPrefix_true in E as [k Hk].
      apply (f_equal length) in Hk. rewrite length_app in Hk. simpl in *. lia.
    + intros (j & Hj & ->)%fmap_Some. apply IH in Hj. lia.
Qed.

Lemma Index_Some_split s sep i :
  Index s sep = Some i -> s = take i s ++ sep ++ drop (i + length sep) s.
Proof.
  revert i; induction s as [|b s IH]; intros i.
  - simpl. destruct (HasPrefix [] sep) eqn:E; [|done]. intros [= <-].
    apply HasPrefix_true in E as [k Hk]. destruct sep; [done|discriminate].
  - simpl. destruct (HasPrefix (b :: s) sep) eqn:E.
    + intros [= <-]. apply HasPrefix_true in E as [k Hk].
      rewrite Hk. simpl. by rewrite drop_app_length.
    + intros (j & Hj & ->)%fmap_Some. apply IH in Hj. simpl. by f_equal.
Qed.

Lemma Index_here p s : Index (p ++ s) p = Some 0%nat.
Proof.
  pose proof (HasPrefix_app p s) as H. destruct (p ++ s); cbn [Index]; by rewrite H.
Qed.

Lemma HasPrefix_nil s : HasPrefix s [] = true.
Proof. apply (HasPrefix_app [] s). Qed.

(** What [Index] finds in a prefix it finds in the whole, and conversely when
    the occurrence lies within the prefix. *)
Lemma HasPrefix_app_l s t p : (length p <= length s)%nat -> HasPrefix (s ++ t) p = HasPrefix s p.
Proof.
  intros Hl. apply eq_true_iff_eq. rewrite !HasPrefix_true. split.
  - intros [k Hk]. exists (drop (length p) s).
    apply (f_equal (take (length p))) in Hk. rewrite take_app_le, take_app_length in Hk by lia.
    by rewrite <- Hk at 1; rewrite take_drop.
  - intros [k ->]. exists (k ++ t). by rewrite app_assoc.
Qed.

Lemma Index_app_l s t sep i : Index s sep = Some i -> Index (s ++ t) sep = Some i.
Proof.
  revert i; induction s as [|b s IH]; intros i.
  - simpl. destruct (HasPrefix [] sep) eqn:E; [|done]. intros [= <-].
    apply HasPrefix_true in E as [k Hk]. destruct sep; [|discriminate].
    by destruct t.
  - simpl. destruct (HasPrefix (b :: s) sep) eqn:E.
    + intros [= <-]. apply HasPrefix_true in E as [k Hk].
      change (b :: s ++ t) with ((b :: s) ++ t). by rewrite Hk, <- app_assoc, HasPrefix_app.
    + intros Hi. pose proof Hi as (j & Hj & ->)%fmap_Some.
      pose proof (Index_bound _ _ _ Hj).
      change (b :: s ++ t) with ((b :: s) ++ t). rewrite HasPrefix_app_l by (simpl; lia).
      by rewrite E, (IH _ Hj).
Qed.

Lemma Index_prefix s t sep i :
  Index (s ++ t) sep = Some i -> (i + length sep <= length s)%nat -> Index s sep = Some i.
Proof.
  revert i; induction s as [|b s IH]; intros i Hi Hl.
  - destruct i; [|simpl in Hl; lia]. destruct sep; [|simpl in Hl; lia].
    done.
  - simpl in *. change (b :: s ++ t) with ((b :: s) ++ t) in Hi.
    destruct (HasPrefix ((b :: s) ++ t) sep) eqn:E.
    + injection Hi as <-. rewrite HasPrefix_app_l in E by (simpl; lia). by rewrite E.
    + pose proof Hi as (j & Hj & ->)%fmap_Some.
      rewrite HasPrefix_app_l in E by (simpl; lia). by rewrite E, (IH j) by (done || lia).
Qed.

(** A separator of one byte is found where [IndexByte] finds it. *)
Lemma Index_single s c : Index s [c] = IndexByte s c.
Proof.
  induction s as [|b s IH]; simpl.
  - done.
  - case_decide; subst.
    + by rewrite (HasPrefix_app [c] s : HasPrefix (c :: s) [c] = true).
    + rewrite HasPrefix_cons_ne by done. by rewrite IH.
Qed.

Lemma Cut_app s c r : c ∉ s -> Cut (s ++ c :: r) [c] = (s, r, true).
Proof.
  intros H. unfold Cut. rewrite Index_single, IndexByte_app by done.
  rewrite take_app_length. simpl. f_equal. f_equal.
  rewrite drop_app_ge by lia.
  by replace (length s + 1 - length s)%nat with 1%nat by lia.
Qed.

Lemma Cut_none s c : c ∉ s -> Cut s [c] = (s, [], false).
Proof.
  intros H. unfold Cut. rewrite Index_single.
  by rewrite (proj2 (IndexByte_None s c) H).
Qed.

(** ** Lemmas: splitting and joining *)

Lemma Split_not_nil s c : Split s c <> [].
Proof. destruct s as [|b s]; simpl; [done|]. case_decide; [done|]. by case_match. Qed.

Lemma Split_none s c : c ∉ s -> Split s c = [s].
Proof.
  induction s as [|b s IH]; simpl; [done|]. intros H.
  rewrite decide_False by set_solver. rewrite IH by set_solver. done.
Qed.

Lemma Split_app p c s : c ∉ p -> Split (p ++ c :: s) c = p :: Split s c.
Proof.
  induction p as [|b p IH]; simpl; intros H.
  - by rewrite decide_True.
  - rewrite decide_False by set_solver. by rewrite IH by set_solver.
Qed.

Lemma Split_no_sep s c : Forall (fun p => c ∉ p) (Split s c).
Proof.
  induction s as [|b s IH]; simpl; [constructor; [set_solver|done]|].
  case_decide; [constructor; [set_solver|done]|].
  destruct (Split s c) as [|p ps]; [constructor; [set_solver|done]|].
  inversion IH; subst. constructor; [set_solver|done].
Qed.

Lemma Join_Split s c : Join (Split s c) [c] = s.
Proof.
  induction s as [|b s IH]; simpl; [done|].
  case_decide; subst.
  - pose proof (Split_not_nil s c). destruct (Split s c) eqn:E; [done|].
    simpl in *. by rewrite IH.
  - pose proof (Split_not_nil s c). destruct (Split s c) as [|p [|q ps]] eqn:E; [done| |].
    + simpl in *. by subst.
    + simpl in *. by rewrite IH.
Qed.

Lemma Split_Join ps c : ps <> [] -> Forall (fun p => c ∉ p) ps -> Split (Join ps [c]) c = ps.
Proof.
  intros Hne H. induction H as [|p ps Hp Hps IH]; [done|].
  destruct ps as [|q ps]; [by apply Split_none|].
  change (Join (p :: q :: ps) [c]) with (p ++ c :: Join (q :: ps) [c]).
  rewrite Split_app by done. f_equal. by apply IH.
Qed.

Lemma Split_inj s t c : Split s c = Split t c -> s = t.
Proof. intros H. by rewrite <- (Join_Split s c), <- (Join_Split t c), H. Qed.

(** ** Lemmas: white space *)

(** A byte of no space rune stops trimming from either side. *)
Definition no_space (c : byte) : Prop := Forall (fun r => c ∉ r) space_runes.

#[export] Instance no_space_dec c : Decision (no_space c).
Proof. unfold no_space. apply _. Defined.

Lemma find_space_None (test : bytes -> bool) :
  find test space_runes = None <-> forall r, r ∈ space_runes -> test r = false.
Proof.
  split.
  - intros H r Hr. apply (find_none _ _ H). by apply list_elem_of_In.
  - intros H. destruct (find test space_runes) as [r|] eqn:E; [|done].
    apply find_some in E as [Hin Ht]. rewrite H in Ht; [done|by apply list_elem_of_In].
Qed.

Lemma leading_space_cons c s : no_space c -> leading_space (c :: s) = None.
Proof.
  intros Hc. destruct (leading_space (c :: s)) as [r|] eqn:E; [|done].
  pose proof (leading_space_length _ _ E) as Hl. apply find_some in E as [Hin Hp].
  apply list_elem_of_In in Hin. unfold no_space in Hc. rewrite Forall_forall in Hc.
  apply HasPrefix_true in Hp as [k Hk]. destruct r as [|b r]; [simpl in Hl; lia|].
  injection Hk as -> _. destruct (Hc _ Hin). constructor.
Qed.

Lemma trailing_space_app l c p :
  no_space c -> trailing_space p = None -> trailing_space (l ++ c :: p) = None.
Proof.
  unfold no_space, trailing_space. intros Hc Hp. rewrite Forall_forall in Hc.
  rewrite find_space_None in *. intros r Hr. apply not_true_is_false. intros [k Hk]%HasSuffix_true.
  specialize (Hc r Hr). specialize (Hp r Hr).
  apply app_eq_inv in Hk as [(k' & -> & ->)|(k' & -> & Hk)].
  - destruct Hc. set_solver.
  - destruct k' as [|b k']; simpl in Hk; [subst r; destruct Hc; constructor|].
    injection Hk as -> ->. by rewrite HasSuffix_app in Hp.
Qed.

(** What starts and ends with no space is not trimmed. *)
Lemma TrimSpace_id s : leading_space s = None -> trailing_space s = None -> TrimSpace s = s.
Proof.
  intros Hl Ht. unfold TrimSpace.
  assert (trim_left (length s) s = s) as ->.
  { destruct (length s); simpl; [done|by rewrite Hl]. }
  destruct (length s); simpl; [done|by rewrite Ht].
Qed.

(** ** Lemmas: decimal numbers *)

Lemma parse_uint_utoa n : parse_uint (utoa n) = Some n.
Proof.
  unfold parse_uint, utoa, go. rewrite String.string_of_list_byte_of_string.
  rewrite NilZero.usu; [|by destruct n; [done|apply DecimalPos.Unsigned.to_uint_nonnil]].
  simpl. by rewrite Unsigned.of_to.
Qed.

Definition is_digit (b : byte) : Prop := 48 <= b2z b <= 57.

Lemma utoa_digits n : Forall is_digit (utoa n).
Proof.
  unfold utoa. generalize (N.to_uint n). intros d.
  assert (H : forall d, Forall is_digit (go (NilEmpty.string_of_uint d))).
  { clear. intros d. unfold go.
    induction d; cbn -[is_digit]; constructor; try done; vm_compute; split; congruence. }
  destruct d; try apply H. constructor; [vm_compute; split; congruence|constructor].
Qed.

Lemma utoa_not_nil n : utoa n <> [].
Proof.
  intros H. pose proof (parse_uint_utoa n) as P. rewrite H in P. discriminate.
Qed.

Lemma not_digit_sign b : is_digit b -> b <> x2b /\ b <> x2d.
Proof. unfold is_digit. split; intros ->; vm_compute in H; intuition congruence. Qed.

Lemma i64_check z : in_i64 z -> (min_i64 <=? z) && (z <=? max_i64) = true.
Proof. unfold in_i64. intros H. apply andb_true_iff. split; apply Z.leb_le; lia. Qed.

(** A numeral that starts with a digit is read as unsigned. *)
Lemma Atoi_unsigned b r n :
  is_digit b -> parse_uint (b :: r) = Some n -> in_i64 (Z.of_N n) ->
  Atoi (b :: r) = Some (Z.of_N n).
Proof.
  intros Hb Hp Hr. apply not_digit_sign in Hb as [H1 H2].
  assert (Atoi (b :: r) = v ← Z.of_N <$> parse_uint (b :: r);
    if (min_i64 <=? v) && (v <=? max_i64) then Some v else None) as ->.
  { unfold Atoi. destruct b; done. }
  rewrite Hp. simpl. by rewrite i64_check.
Qed.

Lemma Atoi_Itoa z : in_i64 z -> Atoi (Itoa z) = Some z.
Proof.
  intros Hz. unfold Itoa.
  destruct (z <? 0) eqn:Hneg; bool_facts.
  - unfold Atoi. rewrite parse_uint_utoa. simpl.
    rewrite Z2N.id, Z.opp_involutive by lia. by rewrite i64_check.
  - pose proof (utoa_digits (Z.to_N z)) as Hd.
    pose proof (parse_uint_utoa (Z.to_N z)) as Hp.
    pose proof (utoa_not_nil (Z.to_N z)).
    destruct (utoa (Z.to_N z)) as [|b r] eqn:E; [done|].
    inversion Hd as [|? ? Hb _]; subst.
    rewrite (Atoi_unsigned _ _ _ Hb Hp); rewrite Z2N.id by lia; done.
Qed.

Lemma Itoa_inj z w : in_i64 z -> in_i64 w -> Itoa z = Itoa w -> z = w.
Proof.
  intros Hz Hw H. apply (f_equal Atoi) in H.
  rewrite !Atoi_Itoa in H by done. congruence.
Qed.
