(* ===== verification/Stream.v ===== *)
(** Byte streams: the [io.Reader] and [io.Writer] the protocol code runs on.

    A reader is the bytes still to arrive and the error the connection ends
    with; [ReadFull] is [io.ReadFull], [Discard] is [io.CopyN(io.Discard, r, n)].
    A writer is the list of the byte slices handed to [Write], one per call,
    and the error it has started to fail with, if any. *)
From S2P Require Import Prelude.

Inductive ioerr : Type :=
  | EOF
  | UnexpectedEOF
  | NetErr (what : bytes).

#[export] Instance ioerr_eq_dec : EqDecision ioerr.
Proof. solve_decision. Defined.

Record stream := Stream { data : bytes; fin : ioerr }.

(** [io.ReadFull]: all [n] bytes, or [EOF] if none came, or
    [UnexpectedEOF] if the stream ended after some of them. *)
Definition ReadFull (n : nat) (r : stream) : res ioerr bytes * stream :=
  if decide (n <= length (data r))%nat
  then (Ok (take n (data r)), Stream (drop n (data r)) (fin r))
  else let e := match fin r, data r with
                | EOF, [] => EOF
                | EOF, _ => UnexpectedEOF
                | e, _ => e
                end in
       (Err e, Stream [] (fin r)).

(** [io.CopyN(io.Discard, r, n)]. *)
Definition Discard (n : nat) (r : stream) : res ioerr unit * stream :=
  if decide (n <= length (data r))%nat
  then (Ok tt, Stream (drop n (data r)) (fin r))
  else (Err (fin r), Stream [] (fin r)).

Record writer := Writer { written : list bytes; werr : option ioerr }.

Definition Write (b : bytes) (w : writer) : res ioerr unit * writer :=
  match werr w with
  | None => (Ok tt, Writer (written w ++ [b]) None)
  | Some e => (Err e, w)
  end.

(** What the peer receives: the concatenation of the successful writes. *)
Definition output (w : writer) : bytes := concat (written w).

Lemma ReadFull_app n b rest e :
  length b = n -> ReadFull n (Stream (b ++ rest) e) = (Ok b, Stream rest e).
Proof.
  intros <-. unfold ReadFull. simpl. rewrite decide_True by (rewrite length_app; lia).
  by rewrite take_app_length, drop_app_length.
Qed.

Lemma ReadFull_short n r :
  (length (data r) < n)%nat -> exists e, ReadFull n r = (Err e, Stream [] (fin r)).
Proof. intros H. unfold ReadFull. rewrite decide_False by lia. eauto. Qed.

Lemma ReadFull_ok n r b r' :
  ReadFull n r = (Ok b, r') -> data r = b ++ data r' /\ length b = n /\ fin r' = fin r.
Proof.
  unfold ReadFull. case_decide; [|done]. intros [= <- <-]. simpl.
  split; [by rewrite take_drop|]. rewrite length_take. split; [lia|done].
Qed.

Lemma ReadFull_nil_EOF n : (0 < n)%nat -> ReadFull n (Stream [] EOF) = (Err EOF, Stream [] EOF).
Proof. intros H. unfold ReadFull. rewrite decide_False by (simpl; lia). done. Qed.

Lemma Discard_app n b rest e :
  length b = n -> Discard n (Stream (b ++ rest) e) = (Ok tt, Stream rest e).
Proof.
  intros <-. unfold Discard. simpl. rewrite decide_True by (rewrite length_app; lia).
  by rewrite drop_app_length.
Qed.

(** A reader only ever consumes from the front. *)
Definition consumes (r r' : stream) : Prop :=
  exists b, data r = b ++ data r' /\ fin r' = fin r.

#[export] Instance consumes_preorder : PreOrder consumes.
Proof.
  split.
  - intros r. by exists [].
  - intros r1 r2 r3 (a & Ha & Ea) (b & Hb & Eb).
    exists (a ++ b). rewrite <- app_assoc, <- Hb. split; congruence.
Qed.

Lemma ReadFull_consumes n r : consumes r (ReadFull n r).2.
Proof.
  unfold ReadFull. case_decide; simpl.
  - exists (take n (data r)). simpl. by rewrite take_drop.
  - exists (data r). simpl. by rewrite app_nil_r.
Qed.

Lemma Discard_consumes n r : consumes r (Discard n r).2.
Proof.
  unfold Discard. case_decide; simpl.
  - exists (take n (data r)). simpl. by rewrite take_drop.
  - exists (data r). simpl. by rewrite app_nil_r.
Qed.
