(* ===== verification/Messages.v ===== *)
(** The control protocol's messages: [internal/tunnel/protocol/message.go]. *)
From S2P Require Import Prelude GoStrings.

Definition Version : Z := 1.

(** [type Type uint8], with the values [iota] gives. *)
Definition TypeLogin : Z := 1.
Definition TypeLoginResp : Z := 2.
Definition TypeNewProxy : Z := 3.
Definition TypeNewProxyResp : Z := 4.
Definition TypeCloseProxy : Z := 5.
Definition TypeReqWorkConn : Z := 6.
Definition TypeNewWorkConn : Z := 7.
Definition TypeStartWorkConn : Z := 8.
Definition TypePing : Z := 9.
Definition TypePong : Z := 10.
Definition TypeCertPush : Z := 11.
Definition TypeCertPushResp : Z := 12.
Definition TypeHTTPChallenge : Z := 13.
Definition TypeHTTPChallengeResp : Z := 14.
Definition TypeNewMuxConn : Z := 15.

Definition typeNames : list (Z * bytes) :=
  [(TypeLogin, go "Login"); (TypeLoginResp, go "LoginResp");
   (TypeNewProxy, go "NewProxy"); (TypeNewProxyResp, go "NewProxyResp");
   (TypeCloseProxy, go "CloseProxy"); (TypeReqWorkConn, go "ReqWorkConn");
   (TypeNewWorkConn, go "NewWorkConn"); (TypeStartWorkConn, go "StartWorkConn");
   (TypePing, go "Ping"); (TypePong, go "Pong");
   (TypeCertPush, go "CertPush"); (TypeCertPushResp, go "CertPushResp");
   (TypeHTTPChallenge, go "HTTPChallenge");
   (TypeHTTPChallengeResp, go "HTTPChallengeResp");
   (TypeNewMuxConn, go "NewMuxConn")].

(** [func (t Type) String]. *)
Definition Type_String (t : Z) : bytes :=
  match List.find (fun p => p.1 =? t) typeNames with
  | Some (_, name) => name
  | None => go "Type(" ++ Itoa t ++ go ")"
  end.

Record Login := MkLogin {
  login_Version : Z; ClientName : bytes; Hostname : bytes; OS : bytes; Arch : bytes;
  login_Timestamp : Z; login_AuthKey : bytes; PoolCount : Z; login_RunID : bytes }.

Record LoginResp := MkLoginResp {
  ObservedAddr : bytes; lr_Version : Z; lr_RunID : bytes; ServerVersion : bytes;
  lr_Error : bytes }.

Record ProxySpec := MkProxySpec {
  spec_Name : bytes; Kind : bytes; RemotePort : Z; Domains : list bytes;
  TLSMode : bytes; DownRate : Z; UpRate : Z; Quota : Z }.

Record NewProxyResp := MkNewProxyResp {
  npr_Name : bytes; npr_RemotePort : Z; npr_Error : bytes }.

Record NewWorkConn := MkNewWorkConn {
  nwc_RunID : bytes; nwc_Timestamp : Z; nwc_AuthKey : bytes }.

Record StartWorkConn := MkStartWorkConn {
  ProxyName : bytes; SourceAddr : bytes; swc_Error : bytes }.

Record CertPush := MkCertPush {
  cp_Domains : list bytes; FullchainPEM : bytes; PrivateKeyPEM : bytes; cp_NotAfter : Z }.

Record HTTPChallenge := MkHTTPChallenge {
  hc_Domain : bytes; Token : bytes; KeyAuth : bytes; hc_Remove : bool }.

(** The interface [Message] and the types that implement it. *)
Inductive Message : Type :=
  | MLogin (m : Login)
  | MLoginResp (m : LoginResp)
  | MNewProxy (spec : ProxySpec)
  | MNewProxyResp (m : NewProxyResp)
  | MCloseProxy (name : bytes)
  | MReqWorkConn (count : Z)
  | MNewWorkConn (m : NewWorkConn)
  | MNewMuxConn (m : NewWorkConn)
  | MStartWorkConn (m : StartWorkConn)
  | MPing (timestamp : Z)
  | MPong (timestamp : Z) (error : bytes)
  | MCertPush (m : CertPush)
  | MCertPushResp (error : bytes)
  | MHTTPChallenge (m : HTTPChallenge)
  | MHTTPChallengeResp (error : bytes).

(** The method [Type] of each message type. *)
Definition Type_ (m : Message) : Z :=
  match m with
  | MLogin _ => TypeLogin
  | MLoginResp _ => TypeLoginResp
  | MNewProxy _ => TypeNewProxy
  | MNewProxyResp _ => TypeNewProxyResp
  | MCloseProxy _ => TypeCloseProxy
  | MReqWorkConn _ => TypeReqWorkConn
  | MNewWorkConn _ => TypeNewWorkConn
  | MNewMuxConn _ => TypeNewMuxConn
  | MStartWorkConn _ => TypeStartWorkConn
  | MPing _ => TypePing
  | MPong _ _ => TypePong
  | MCertPush _ => TypeCertPush
  | MCertPushResp _ => TypeCertPushResp
  | MHTTPChallenge _ => TypeHTTPChallenge
  | MHTTPChallengeResp _ => TypeHTTPChallengeResp
  end.

(** The keys of the map [factories]. *)
Definition factories : list Z :=
  [TypeLogin; TypeLoginResp; TypeNewProxy; TypeNewProxyResp; TypeCloseProxy;
   TypeReqWorkConn; TypeNewWorkConn; TypeStartWorkConn; TypePing; TypePong;
   TypeCertPush; TypeCertPushResp; TypeHTTPChallenge; TypeHTTPChallengeResp;
   TypeNewMuxConn].

Definition known_type (t : Z) : bool := bool_decide (t ∈ factories).

Lemma known_Type m : known_type (Type_ m) = true.
Proof. by destruct m. Qed.

Lemma Type_range m : 0 <= Type_ m < 256.
Proof. destruct m; vm_compute; split; congruence. Qed.

#[export] Hint Resolve known_Type Type_range : frp.
