(* ===== verification/Protocol.v ===== *)
(** The wire protocol: [internal/tunnel/protocol] (codec.go, preamble.go,
    handshake.go).

    JSON ([encoding/json]) and HMAC-SHA256 ([crypto/hmac]) are the classes
    [JsonCodec] and [Hmac]; the framing, the preamble and the authentication
    check around them are translated. *)
From S2P Require Import Prelude GoStrings Stream Messages.

(** [json.Marshal] of a message, and [json.Unmarshal] into a fresh message of
    the type the factory built: [unmarshal_typed] is Go's static typing. *)
Class JsonCodec := {
  Marshal : Message -> option bytes;
  Unmarshal : Z -> bytes -> option Message;
  unmarshal_typed t p m : Unmarshal t p = Some m -> Type_ m = t }.

(** The errors of errors.go and of the functions below. *)
Inductive perr : Type :=
  | ErrUnknownType (t : Z)
  | ErrMessageTooLarge (len : Z)
  | ErrVersionMismatch (peer : Z)
  | ErrAuthFailed
  | ErrUnexpectedMessage (got want : Z)
  | ErrEOF
  | ErrIO (what : bytes) (e : ioerr)
  | ErrJson (t : Z)
  | ErrBadMagic (m : Z)
  | ErrUnknownMode (m : Z)
  | ErrUDP (what : bytes) (len : Z)
  | ErrPanic. (* a slice expression out of range *)

#[export] Instance perr_eq_dec : EqDecision perr.
Proof. solve_decision. Defined.

(** [errors.Is(err, io.EOF)]: the bare EOF and every error that wraps it. *)
Definition IsEOF (e : perr) : bool :=
  match e with ErrEOF => true | ErrIO _ EOF => true | _ => false end.
Definition IsUnknownType (e : perr) : bool :=
  match e with ErrUnknownType _ => true | _ => false end.

(** ** Framing *)

Definition headerSize : nat := 5.
Definition MaxMessageSize : Z := Z.shiftl 256 10.

(** [frame[0] = type; binary.BigEndian.PutUint32(frame[1:], length)]. *)
Definition frame_header (t len : Z) : bytes := z2b t :: be_put 4 (u32 len).
Arguments frame_header : simpl never.

Section codec.
Context `{J : JsonCodec}.

Definition encode (m : Message) : res perr bytes :=
  match Marshal m with
  | None => Err (ErrJson (Type_ m))
  | Some payload =>
      if MaxMessageSize <? Z.of_nat (length payload)
      then Err (ErrMessageTooLarge (Z.of_nat (length payload)))
      else Ok (frame_header (Type_ m) (Z.of_nat (length payload)) ++ payload)
  end.

Definition WriteMessage (m : Message) (w : writer) : res perr unit * writer :=
  match encode m with
  | Err e => (Err e, w)
  | Ok frame =>
      match Write frame w with
      | (Err e, w) => (Err (ErrIO (go "write") e), w)
      | (Ok _, w) => (Ok tt, w)
      end
  end.

Definition decodeBody (hdr : bytes) (r : stream) : res perr Message * stream :=
  let msgType := b2z (default x00 (hdr !! 0%nat)) in
  let length := be_get (take 4 (drop 1 hdr)) in
  if MaxMessageSize <? length then (Err (ErrMessageTooLarge length), r)
  else if negb (known_type msgType) then
    match Discard (Z.to_nat length) r with
    | (Err e, r) => (Err (ErrIO (go "discard unknown") e), r)
    | (Ok _, r) => (Err (ErrUnknownType msgType), r)
    end
  else
    match ReadFull (Z.to_nat length) r with
    | (Err e, r) => (Err (ErrIO (go "read payload") e), r)
    | (Ok payload, r) =>
        match Unmarshal msgType payload with
        | None => (Err (ErrJson msgType), r)
        | Some msg => (Ok msg, r)
        end
    end.

Definition ReadMessage (r : stream) : res perr Message * stream :=
  match ReadFull headerSize r with
  | (Err EOF, r) => (Err ErrEOF, r)
  | (Err e, r) => (Err (ErrIO (go "read header") e), r)
  | (Ok hdr, r) => decodeBody hdr r
  end.

Definition ReadMessageExpect (want : Z) (r : stream) : res perr Message * stream :=
  match ReadMessage r with
  | (Err e, r) => (Err e, r)
  | (Ok msg, r) =>
      if Type_ msg =? want then (Ok msg, r)
      else (Err (ErrUnexpectedMessage (Type_ msg) want), r)
  end.
End codec.

(** ** The preamble *)

Definition Magic : bytes := go "OFRP".
Definition ModePlain : Z := 1.
Definition ModeMux : Z := 2.
Definition modeNames : list (Z * bytes) := [(ModePlain, go "plain"); (ModeMux, go "mux")].

Definition Mode_Valid (m : Z) : bool := existsb (fun p => p.1 =? m) modeNames.

Definition Mode_String (m : Z) : bytes :=
  match List.find (fun p => p.1 =? m) modeNames with
  | Some (_, name) => name
  | None => go "Mode(" ++ Itoa m ++ go ")"
  end.

Definition preambleSize : nat := length Magic + 2.

Record Preamble := MkPreamble { p_Version : Z; p_Mode : Z }.

Definition CheckVersion (peer : Z) : res perr unit :=
  if peer =? Version then Ok tt else Err (ErrVersionMismatch peer).

Definition preamble_bytes (p : Preamble) : bytes :=
  Magic ++ [z2b (p_Version p); z2b (p_Mode p)].

Definition WritePreamble (p : Preamble) (w : writer) : res perr unit * writer :=
  match Write (preamble_bytes p) w with
  | (Err e, w) => (Err (ErrIO (go "write preamble") e), w)
  | (Ok _, w) => (Ok tt, w)
  end.

Definition WriteGreeting `{JsonCodec} (p : Preamble) (m : Message) (w : writer)
  : res perr unit * writer :=
  match encode m with
  | Err e => (Err e, w)
  | Ok frame =>
      match Write (preamble_bytes p ++ frame) w with
      | (Err e, w) => (Err (ErrIO (go "write greeting") e), w)
      | (Ok _, w) => (Ok tt, w)
      end
  end.

Definition ReadPreamble (r : stream) : res perr Preamble * stream :=
  match ReadFull preambleSize r with
  | (Err e, r) => (Err (ErrIO (go "read preamble") e), r)
  | (Ok buf, r) =>
      if negb (bool_decide (take 4 buf = Magic)) then (Err (ErrBadMagic (be_get (take 4 buf))), r)
      else
        let p := MkPreamble (b2z (default x00 (buf !! 4%nat))) (b2z (default x00 (buf !! 5%nat))) in
        match CheckVersion (p_Version p) with
        | Err e => (Err e, r)
        | Ok _ => if Mode_Valid (p_Mode p) then (Ok p, r) else (Err (ErrUnknownMode (p_Mode p)), r)
        end
  end.

(** ** Authentication *)

(** HMAC-SHA256 of a message under a key. *)
Class Hmac := { hmac_sha256 : bytes -> bytes -> bytes }.

Definition hex_digit (z : Z) : byte := if z <? 10 then z2b (48 + z) else z2b (87 + z).
Definition hex_encode (bs : bytes) : bytes :=
  concat ((fun b => [hex_digit (b2z b / 16); hex_digit (b2z b mod 16)]) <$> bs).

(** Instants are nanoseconds since January 1 of year 1, where [time.Time]
    counts its seconds from; the seconds of [time.Unix] are an [int64]. *)
Definition unixToInternal : Z := 62135596800.
Definition time_Unix (sec : Z) : Z := i64 (sec + unixToInternal) * Second.

Definition DefaultAuthSkew : Z := 15 * Minute.

Definition AuthKey `{Hmac} (token : bytes) (timestamp : Z) : bytes :=
  hex_encode (hmac_sha256 token (Itoa timestamp)).

Definition VerifyAuth `{Hmac} (token presented : bytes) (timestamp now skew : Z)
  : res perr unit :=
  if bool_decide (token = []) then Ok tt
  else
    let skew := if skew <=? 0 then DefaultAuthSkew else skew in
    let drift := time_Sub now (time_Unix timestamp) in
    let drift := if drift <? 0 then i64 (- drift) else drift in
    if skew <? drift then Err ErrAuthFailed
    else if negb (bool_decide (AuthKey token timestamp = presented)) then Err ErrAuthFailed
    else Ok tt.

(** ** Lemmas *)

Lemma MaxMessageSize_val : MaxMessageSize = 262144.
Proof. reflexivity. Qed.

Lemma length_frame_header t n : length (frame_header t n) = headerSize.
Proof. reflexivity. Qed.

Lemma frame_header_fields t n :
  0 <= t < 256 -> 0 <= n <= MaxMessageSize ->
  b2z (default x00 (frame_header t n !! 0%nat)) = t
  /\ be_get (take 4 (drop 1 (frame_header t n))) = n.
Proof.
  rewrite MaxMessageSize_val. unfold frame_header. intros Ht Hn. split.
  - simpl. rewrite b2z_z2b. by apply Z.mod_small.
  - rewrite skipn_cons, drop_0.
    rewrite take_ge by (rewrite length_be_put; lia).
    rewrite u32_id by lia. apply be_get_put_small. simpl. lia.
Qed.

(** A well-formed header in front of [body] hands [decodeBody] the whole rest. *)
Lemma ReadMessage_header `{JsonCodec} t n body e :
  ReadMessage (Stream (frame_header t n ++ body) e)
  = decodeBody (frame_header t n) (Stream body e).
Proof. unfold ReadMessage. by rewrite ReadFull_app. Qed.

(** On a header of a known type, [decodeBody] reads and decodes the payload. *)
Lemma decodeBody_known `{JsonCodec} m n r :
  0 <= n <= MaxMessageSize ->
  decodeBody (frame_header (Type_ m) n) r
  = match ReadFull (Z.to_nat n) r with
    | (Err e, r) => (Err (ErrIO (go "read payload") e), r)
    | (Ok payload, r) =>
        match Unmarshal (Type_ m) payload with
        | None => (Err (ErrJson (Type_ m)), r)
        | Some msg => (Ok msg, r)
        end
    end.
Proof.
  intros Hn. destruct (frame_header_fields (Type_ m) n) as [Ht Hl]; [auto with frp|lia|].
  unfold decodeBody. rewrite Ht, Hl, known_Type.
  by rewrite (proj2 (Z.ltb_ge _ _)) by lia.
Qed.

Section framing.
Context `{J : JsonCodec}.

(** A message JSON can carry and the frame has room for. *)
Definition transmissible (m : Message) : Prop :=
  exists p, Marshal m = Some p /\ Z.of_nat (length p) <= MaxMessageSize
            /\ Unmarshal (Type_ m) p = Some m.

Lemma encode_ok m p :
  Marshal m = Some p -> Z.of_nat (length p) <= MaxMessageSize ->
  encode m = Ok (frame_header (Type_ m) (Z.of_nat (length p)) ++ p).
Proof.
  intros Hm Hl. unfold encode. rewrite Hm.
  by rewrite (proj2 (Z.ltb_ge _ _)) by lia.
Qed.

Lemma encode_inv m frame :
  encode m = Ok frame ->
  exists p, Marshal m = Some p /\ Z.of_nat (length p) <= MaxMessageSize
    /\ frame = frame_header (Type_ m) (Z.of_nat (length p)) ++ p.
Proof.
  unfold encode. destruct (Marshal m) as [p|]; [|done].
  destruct (MaxMessageSize <? _) eqn:E; [done|]. bool_facts.
  intros Hf. exists p. split; [done|]. split; [done|congruence].
Qed.

Lemma ReadMessage_encode m rest e :
  transmissible m ->
  exists frame, encode m = Ok frame
    /\ ReadMessage (Stream (frame ++ rest) e) = (Ok m, Stream rest e).
Proof.
  intros (p & Hm & Hl & Hu). eexists. split; [by apply encode_ok|].
  rewrite <- app_assoc, ReadMessage_header, decodeBody_known by lia.
  rewrite ReadFull_app by lia. by rewrite Hu.
Qed.

Fixpoint WriteAll (ms : list Message) (w : writer) : res perr unit * writer :=
  match ms with
  | [] => (Ok tt, w)
  | m :: ms => match WriteMessage m w with
               | (Ok _, w) => WriteAll ms w
               | (Err e, w) => (Err e, w)
               end
  end.

Fixpoint ReadAll (n : nat) (r : stream) : res perr (list Message) * stream :=
  match n with
  | O => (Ok [], r)
  | S n => match ReadMessage r with
           | (Err e, r) => (Err e, r)
           | (Ok m, r) => match ReadAll n r with
                          | (Ok ms, r) => (Ok (m :: ms), r)
                          | (Err e, r) => (Err e, r)
                          end
           end
  end.

Lemma WriteAll_output ms w :
  Forall transmissible ms -> werr w = None ->
  exists w' bs, WriteAll ms w = (Ok tt, w') /\ output w' = output w ++ bs
    /\ forall rest e, ReadAll (length ms) (Stream (bs ++ rest) e) = (Ok ms, Stream rest e).
Proof.
  intros Hms. revert w. induction Hms as [|m ms Hm Hms IH]; intros w Hw; simpl.
  - exists w, []. by rewrite app_nil_r.
  - destruct (ReadMessage_encode m [] EOF Hm) as (frame & Hf & _).
    unfold WriteMessage, Write. rewrite Hf, Hw. simpl.
    destruct (IH (Writer (written w ++ [frame]) None) eq_refl) as (w' & bs & Ha & Ho & Hr).
    exists w', (frame ++ bs). split; [done|]. split.
    + rewrite Ho. unfold output. cbn [written]. rewrite concat_app. simpl.
      by rewrite app_nil_r, <- app_assoc.
    + intros rest e.
      destruct (ReadMessage_encode m (bs ++ rest) e Hm) as (frame' & Hf' & Hrd).
      rewrite <- app_assoc. assert (frame' = frame) as -> by congruence.
      by rewrite Hrd, Hr.
Qed.
End framing.

(** ** Properties *)

(** C11: frames are self-delimiting: whatever list of messages is written with
    [WriteMessage] on a working connection is read back by as many calls of
    [ReadMessage], in order, and the reader is left exactly after the last. *)
Theorem messages_roundtrip `{JsonCodec} ms rest e :
  Forall transmissible ms ->
  exists w bs, WriteAll ms (Writer [] None) = (Ok tt, w) /\ output w = bs
    /\ ReadAll (length ms) (Stream (bs ++ rest) e) = (Ok ms, Stream rest e).
Proof.
  intros Hms. destruct (WriteAll_output ms (Writer [] None) Hms eq_refl)
    as (w & bs & Hw & Ho & Hr).
  exists w, bs. by rewrite Ho.
Qed.

(** A frame cut short anywhere is an error, never a message: no strict
    prefix of an encoded message decodes. *)
Theorem truncated_frame_rejected `{JsonCodec} m frame k e :
  encode m = Ok frame -> (k < length frame)%nat ->
  exists err, (ReadMessage (Stream (take k frame) e)).1 = Err err.
Proof.
  intros (p & Hm & Hl & ->)%encode_inv. rewrite length_app, length_frame_header. intros Hk.
  destruct (decide (k < headerSize)%nat) as [Hlt|Hge].
  - destruct (ReadFull_short headerSize
      (Stream (take k (frame_header (Type_ m) (Z.of_nat (length p)) ++ p)) e)) as [err Herr].
    + cbn [data]. rewrite length_take. lia.
    + unfold ReadMessage. rewrite Herr. destruct err; simpl; eauto.
  - rewrite take_app_ge by (rewrite length_frame_header; lia).
    rewrite length_frame_header, ReadMessage_header, decodeBody_known by lia.
    destruct (ReadFull_short (Z.to_nat (Z.of_nat (length p)))
      (Stream (take (k - headerSize) p) e)) as [err Herr].
    + cbn [data]. rewrite length_take. lia.
    + rewrite Herr. simpl. eauto.
Qed.

(** A message of a type this build does not know is skipped whole: the
    error is [ErrUnknownType], and the next read starts at the next frame, so
    the control loop can go on. *)
Theorem unknown_type_resynchronises `{JsonCodec} t body rest e :
  0 <= t < 256 -> known_type t = false -> Z.of_nat (length body) <= MaxMessageSize ->
  ReadMessage (Stream (frame_header t (Z.of_nat (length body)) ++ body ++ rest) e)
  = (Err (ErrUnknownType t), Stream rest e).
Proof.
  intros Ht Hk Hl. rewrite ReadMessage_header.
  destruct (frame_header_fields t (Z.of_nat (length body))) as [Ht' Hn]; [done|lia|].
  unfold decodeBody. rewrite Ht', Hn, Hk.
  rewrite (proj2 (Z.ltb_ge _ _)) by lia. cbn [negb].
  by rewrite Discard_app by lia.
Qed.

(** No read allocates more than [MaxMessageSize]: a header announcing more
    is refused before a byte of the body is read, and [encode] never produces
    one. *)
Theorem message_size_bounded `{JsonCodec} :
  (forall m frame, encode m = Ok frame ->
     Z.of_nat (length frame) <= Z.of_nat headerSize + MaxMessageSize)
  /\ (forall hdr r, length hdr = headerSize ->
     MaxMessageSize < be_get (drop 1 hdr) ->
     ReadMessage (Stream (hdr ++ data r) (fin r))
     = (Err (ErrMessageTooLarge (be_get (drop 1 hdr))), r)).
Proof.
  split.
  - intros m frame (p & _ & Hl & ->)%encode_inv.
    rewrite length_app, length_frame_header. lia.
  - intros hdr [d f] Hh Hlen. unfold ReadMessage. rewrite ReadFull_app by done.
    unfold decodeBody. cbn [data fin].
    rewrite take_ge by (rewrite length_drop, Hh; simpl; lia).
    by rewrite (proj2 (Z.ltb_lt _ _) Hlen).
Qed.

Lemma ReadPreamble_spec r r' p :
  ReadPreamble r = (Ok p, r') <->
  p_Version p = Version /\ (p_Mode p = ModePlain \/ p_Mode p = ModeMux)
  /\ data r = preamble_bytes p ++ data r' /\ fin r' = fin r.
Proof.
  split.
  - unfold ReadPreamble. destruct (ReadFull preambleSize r) as [[buf|err] r1] eqn:Hr; [|done].
    apply ReadFull_ok in Hr as (Hd & Hl & Hf).
    destruct buf as [|b0 [|b1 [|b2 [|b3 [|v [|m [|]]]]]]]; try discriminate.
    case_bool_decide as Hm; cbn [negb]; [|done]. simpl in Hm.
    unfold CheckVersion. simpl.
    destruct (b2z v =? Version) eqn:Hv; [|done]. bool_facts.
    destruct (Mode_Valid (b2z m)) eqn:Hmode; [|done].
    intros [= <- <-]. simpl. split; [done|]. split.
    + apply existsb_exists in Hmode as ([k n] & Hin & Hk). apply Z.eqb_eq in Hk as <-.
      destruct Hin as [[= <- <-]|[[= <- <-]|[]]]; auto.
    + rewrite Hd. split; [|done]. unfold preamble_bytes. simpl. rewrite !z2b_b2z.
      by injection Hm as -> -> -> ->.
  - destruct p as [v m], r as [d f], r' as [d' f']; cbn [p_Version p_Mode data fin].
    intros (-> & Hm & -> & ->). unfold ReadPreamble.
    rewrite ReadFull_app by done.
    destruct Hm as [->| ->]; vm_compute; reflexivity.
Qed.

(** [ReadPreamble] accepts exactly the magic, this build's version and one
    of the two modes, consuming those six bytes and nothing else. *)
Theorem ReadPreamble_accepts r r' p :
  ReadPreamble r = (Ok p, r') <->
  p_Version p = Version /\ (p_Mode p = ModePlain \/ p_Mode p = ModeMux)
  /\ data r = preamble_bytes p ++ data r' /\ fin r' = fin r.
Proof. apply ReadPreamble_spec. Qed.

(** The opening of a connection: one [WriteGreeting] is a single write,
    from which the server reads back the preamble and the first message and
    keeps the rest of the stream. *)
Theorem greeting_roundtrip `{JsonCodec} p m rest e :
  p_Version p = Version -> p_Mode p = ModePlain \/ p_Mode p = ModeMux ->
  transmissible m ->
  exists bs, WriteGreeting p m (Writer [] None) = (Ok tt, Writer [bs] None)
    /\ exists r, ReadPreamble (Stream (bs ++ rest) e) = (Ok p, r)
                 /\ ReadMessage r = (Ok m, Stream rest e).
Proof.
  intros Hv Hmode Hm. destruct (ReadMessage_encode m rest e Hm) as (frame & Hf & Hr).
  exists (preamble_bytes p ++ frame). unfold WriteGreeting. rewrite Hf. split; [done|].
  exists (Stream (frame ++ rest) e). split; [|done].
  apply ReadPreamble_spec. rewrite <- app_assoc. auto.
Qed.

(** *** Authentication *)

Lemma time_Unix_id ts : in_i64 (ts + unixToInternal) -> time_Unix ts = (ts + unixToInternal) * Second.
Proof. intros H. unfold time_Unix. by rewrite i64_id. Qed.

(** With a token configured, and clocks within 292 years of each other,
    [VerifyAuth] succeeds exactly when the timestamp is within the skew and the
    presented key is the HMAC of that timestamp under the token. *)
Theorem VerifyAuth_accepts `{Hmac} token presented ts now skew :
  token <> [] -> 0 < skew ->
  in_i64 (ts + unixToInternal) -> Z.abs (now - time_Unix ts) <= max_i64 ->
  VerifyAuth token presented ts now skew = Ok tt <->
  Z.abs (now - (ts + unixToInternal) * Second) <= skew /\ presented = AuthKey token ts.
Proof.
  intros Htok Hskew Hts Hnear. unfold VerifyAuth.
  rewrite bool_decide_eq_false_2 by done.
  rewrite (proj2 (Z.leb_gt skew 0)) by lia. cbn zeta.
  rewrite time_Sub_id by (unfold in_i64, min_i64, max_i64 in *; lia).
  rewrite <- (time_Unix_id ts) by done.
  set (d := now - time_Unix ts) in *.
  assert ((if d <? 0 then i64 (- d) else d) = Z.abs d) as ->.
  { destruct (d <? 0) eqn:E; bool_facts; [|lia].
    rewrite i64_id by (unfold in_i64, min_i64, max_i64 in *; lia). lia. }
  destruct (skew <? Z.abs d) eqn:E; bool_facts.
  - split; [done|]. intros [? _]. lia.
  - case_bool_decide; cbn [negb]; split; try done.
    intros [_ ->]. done.
Qed.

(** Without the 292-year bound the skew check does not hold: the drift to a
    timestamp further in the future saturates at the least [Duration], whose
    negation is itself, so such a key is accepted whatever the skew. *)
Theorem VerifyAuth_far_future_accepted `{Hmac} token ts now skew :
  token <> [] -> 0 < skew ->
  in_i64 (ts + unixToInternal) -> now - time_Unix ts <= min_i64 ->
  VerifyAuth token (AuthKey token ts) ts now skew = Ok tt.
Proof.
  intros Htok Hskew Hts Hfar. unfold VerifyAuth.
  rewrite bool_decide_eq_false_2 by done.
  rewrite (proj2 (Z.leb_gt skew 0)) by lia. cbn zeta.
  assert (time_Sub now (time_Unix ts) = min_i64) as ->.
  { unfold time_Sub. unfold min_i64, max_i64 in *. lia. }
  change (i64 (- min_i64)) with min_i64. cbn [Z.ltb].
  change (min_i64 <? 0) with true. cbn match.
  rewrite (proj2 (Z.ltb_ge skew min_i64)) by (unfold min_i64; lia).
  by rewrite bool_decide_eq_true_2.
Qed.

(** ** Witnesses *)

(** The JSON of a [Ping], with no other message encodable. *)
Definition ping_open : bytes := [x7b; x22] ++ go "timestamp" ++ [x22; x3a].
Definition ping_close : bytes := [x7d].

Definition ping_marshal (m : Message) : option bytes :=
  match m with
  | MPing t => Some (ping_open ++ Itoa t ++ ping_close)
  | _ => None
  end.

Definition ping_unmarshal (t : Z) (p : bytes) : option Message :=
  if t =? TypePing
  then MPing <$> Atoi (TrimSuffix (TrimPrefix p ping_open) ping_close)
  else None.

Lemma ping_typed t p m : ping_unmarshal t p = Some m -> Type_ m = t.
Proof.
  unfold ping_unmarshal. destruct (t =? TypePing) eqn:E; [|done]. bool_facts.
  intros (z & _ & ->)%fmap_Some. done.
Qed.

Definition ping_json : JsonCodec :=
  {| Marshal := ping_marshal; Unmarshal := ping_unmarshal; unmarshal_typed := ping_typed |}.

Lemma ping_transmissible t : in_i64 t -> Z.of_nat (length (Itoa t)) < 1000 ->
  @transmissible ping_json (MPing t).
Proof.
  intros Ht Hl. exists (ping_open ++ Itoa t ++ ping_close). split; [done|]. split.
  - rewrite !length_app, MaxMessageSize_val. simpl. lia.
  - change (MPing <$> Atoi (TrimSuffix (TrimPrefix (ping_open ++ Itoa t ++ ping_close)
      ping_open) ping_close) = Some (MPing t)).
    by rewrite TrimPrefix_app, TrimSuffix_app, Atoi_Itoa.
Qed.

Lemma ping_transmissible_42 : @transmissible ping_json (MPing 42).
Proof. apply ping_transmissible; vm_compute; intuition congruence. Qed.

Lemma messages_roundtrip_witness :
  Forall (@transmissible ping_json) [MPing 42; MPing 42] /\
  exists w bs, @WriteAll ping_json [MPing 42; MPing 42] (Writer [] None) = (Ok tt, w) /\ output w = bs
    /\ @ReadAll ping_json 2 (Stream (bs ++ [x00]) EOF) = (Ok [MPing 42; MPing 42], Stream [x00] EOF).
Proof.
  assert (H : Forall (@transmissible ping_json) [MPing 42; MPing 42]).
  { repeat constructor; apply ping_transmissible_42. }
  split; [exact H|]. exact (@messages_roundtrip ping_json [MPing 42; MPing 42] [x00] EOF H).
Defined.

Lemma truncated_frame_rejected_witness :
  exists frame, @encode ping_json (MPing 42) = Ok frame /\ (7 < length frame)%nat
  /\ exists err, (@ReadMessage ping_json (Stream (take 7 frame) EOF)).1 = Err err.
Proof.
  eexists. split; [reflexivity|]. split; [vm_compute; lia|].
  apply (@truncated_frame_rejected ping_json (MPing 42)); [reflexivity|vm_compute; lia].
Defined.

Lemma unknown_type_resynchronises_witness :
  known_type 99 = false /\
  @ReadMessage ping_json (Stream (frame_header 99 3 ++ go "abc" ++ go "rest") EOF)
  = (Err (ErrUnknownType 99), Stream (go "rest") EOF).
Proof.
  split; [reflexivity|].
  apply (@unknown_type_resynchronises ping_json 99 (go "abc") (go "rest") EOF);
    [lia|reflexivity|vm_compute; congruence].
Defined.

Lemma greeting_roundtrip_witness :
  @transmissible ping_json (MPing 42) /\
  exists bs, @WriteGreeting ping_json (MkPreamble 1 2) (MPing 42) (Writer [] None)
             = (Ok tt, Writer [bs] None)
    /\ exists r, ReadPreamble (Stream (bs ++ []) EOF) = (Ok (MkPreamble 1 2), r)
                 /\ @ReadMessage ping_json r = (Ok (MPing 42), Stream [] EOF).
Proof.
  split; [exact ping_transmissible_42|].
  apply (@greeting_roundtrip ping_json (MkPreamble 1 2) (MPing 42) [] EOF);
    [reflexivity|by right|exact ping_transmissible_42].
Defined.

(** A keyed function in place of HMAC: the key followed by the message. *)
Definition toy_hmac : Hmac := {| hmac_sha256 k m := k ++ m |}.

Lemma VerifyAuth_accepts_witness :
  @VerifyAuth toy_hmac (go "tok") (@AuthKey toy_hmac (go "tok") 1700000000) 1700000000
    (time_Unix 1700000060) DefaultAuthSkew = Ok tt.
Proof.
  apply (@VerifyAuth_accepts toy_hmac); [done|done|vm_compute; intuition congruence|
    vm_compute; congruence|].
  split; [vm_compute; congruence|reflexivity].
Defined.

Lemma VerifyAuth_far_future_witness :
  @VerifyAuth toy_hmac (go "tok") (@AuthKey toy_hmac (go "tok") 99999999999) 99999999999
    (time_Unix 1700000000) DefaultAuthSkew = Ok tt.
Proof.
  apply (@VerifyAuth_far_future_accepted toy_hmac); [done|done|
    vm_compute; intuition congruence|vm_compute; congruence].
Defined.
