(* ===== verification/Udp.v ===== *)
(** Datagrams on a stream: [internal/tunnel/protocol/udp.go]. *)
From S2P Require Import Prelude GoStrings Stream Messages Protocol.

Definition udpHeaderSize : nat := 3.
Definition MaxUDPPayload : Z := 65507.
Definition maxUDPAddr : Z := 255.
Definition MaxUDPFrame : Z := Z.of_nat udpHeaderSize + maxUDPAddr + MaxUDPPayload.

Record UDPPacket := MkUDPPacket { Addr : bytes; Payload : bytes }.

(** [binary.BigEndian.PutUint16(header[0:2], len(payload)); header[2] = len(addr)]. *)
Definition udp_header (addrLen payloadLen : Z) : bytes :=
  be_put 2 (wrapu 16 payloadLen) ++ [z2b addrLen].
Arguments udp_header : simpl never.

Definition AppendUDPPacket (dst addr payload : bytes) : res perr bytes :=
  if MaxUDPPayload <? Z.of_nat (length payload)
  then Err (ErrUDP (go "payload") (Z.of_nat (length payload)))
  else if maxUDPAddr <? Z.of_nat (length addr)
  then Err (ErrUDP (go "address") (Z.of_nat (length addr)))
  else Ok (dst ++ udp_header (Z.of_nat (length addr)) (Z.of_nat (length payload))
               ++ addr ++ payload).

Definition WriteUDPPacket (p : UDPPacket) (w : writer) : res perr unit * writer :=
  match AppendUDPPacket [] (Addr p) (Payload p) with
  | Err e => (Err e, w)
  | Ok frame =>
      match Write frame w with
      | (Err e, w) => (Err (ErrIO (go "write udp packet") e), w)
      | (Ok _, w) => (Ok tt, w)
      end
  end.

Definition header_error (e : ioerr) : perr :=
  match e with EOF => ErrEOF | e => ErrIO (go "read udp header") e end.

Definition udp_payload_len (h : bytes) : Z := be_get (take 2 h).
Definition udp_addr_len (h : bytes) : Z := b2z (default x00 (h !! 2%nat)).

(** The scratch buffer is its length: its old contents are never returned. *)
Definition ReadUDPPacketInto (scratch : nat) (r : stream) : res perr (bytes * bytes) * stream :=
  if Z.of_nat scratch <? MaxUDPFrame
  then (Err (ErrUDP (go "scratch") (Z.of_nat scratch)), r)
  else
    match ReadFull udpHeaderSize r with
    | (Err e, r) => (Err (header_error e), r)
    | (Ok header, r) =>
        let payloadLen := udp_payload_len header in
        let addrLen := udp_addr_len header in
        if MaxUDPPayload <? payloadLen then (Err (ErrUDP (go "claims") payloadLen), r)
        else
          let hi := (udpHeaderSize + Z.to_nat (addrLen + payloadLen))%nat in
          if negb (bool_decide (hi <= scratch)%nat) then (Err ErrPanic, r)
          else
            match ReadFull (Z.to_nat (addrLen + payloadLen)) r with
            | (Err e, r) => (Err (ErrIO (go "read udp frame body") e), r)
            | (Ok body, r) => (Ok (take (Z.to_nat addrLen) body, drop (Z.to_nat addrLen) body), r)
            end
    end.

Definition ReadUDPPacket (r : stream) : res perr UDPPacket * stream :=
  match ReadFull udpHeaderSize r with
  | (Err e, r) => (Err (header_error e), r)
  | (Ok header, r) =>
      let payloadLen := udp_payload_len header in
      let addrLen := udp_addr_len header in
      if MaxUDPPayload <? payloadLen then (Err (ErrUDP (go "claims") payloadLen), r)
      else
        let '(addr, r) :=
          if 0 <? addrLen then ReadFull (Z.to_nat addrLen) r else (Ok [], r) in
        match addr with
        | Err e => (Err (ErrIO (go "read udp source address") e), r)
        | Ok addr =>
            let '(payload, r) :=
              if 0 <? payloadLen then ReadFull (Z.to_nat payloadLen) r else (Ok [], r) in
            match payload with
            | Err e => (Err (ErrIO (go "read udp payload") e), r)
            | Ok payload => (Ok (MkUDPPacket addr payload), r)
            end
        end
  end.

(** ** Lemmas *)

Lemma length_udp_header a p : length (udp_header a p) = udpHeaderSize.
Proof. reflexivity. Qed.

Lemma udp_header_fields a p :
  0 <= a <= maxUDPAddr -> 0 <= p <= MaxUDPPayload ->
  udp_addr_len (udp_header a p) = a /\ udp_payload_len (udp_header a p) = p.
Proof.
  unfold maxUDPAddr, MaxUDPPayload. intros Ha Hp.
  unfold udp_addr_len, udp_payload_len, udp_header. split.
  - rewrite lookup_app_r by (rewrite length_be_put; lia). rewrite length_be_put. simpl.
    rewrite b2z_z2b. apply Z.mod_small. lia.
  - rewrite take_app_le by (rewrite length_be_put; lia).
    rewrite take_ge by (rewrite length_be_put; lia).
    unfold wrapu. rewrite (Z.mod_small p) by lia. apply be_get_put_small. simpl. lia.
Qed.

Lemma udp_addr_len_range h : 0 <= udp_addr_len h <= maxUDPAddr.
Proof. unfold udp_addr_len, maxUDPAddr. pose proof (b2z_range (default x00 (h !! 2%nat))). lia. Qed.

Lemma udp_payload_len_range h : 0 <= udp_payload_len h < 65536.
Proof.
  unfold udp_payload_len. pose proof (be_get_nonneg (take 2 h)).
  pose proof (be_get_bound (take 2 h)).
  assert (256 ^ Z.of_nat (length (take 2 h)) <= 256 ^ 2).
  { apply Z.pow_le_mono_r; [lia|]. rewrite length_take. lia. }
  lia.
Qed.

(** [io.ReadFull] of zero bytes is the branch the code skips. *)
Lemma ReadFull_guard n r :
  (if 0 <? n then ReadFull (Z.to_nat n) r else (Ok [], r)) = ReadFull (Z.to_nat n) r.
Proof.
  destruct (0 <? n) eqn:E; [done|]. bool_facts.
  replace (Z.to_nat n) with 0%nat by lia. unfold ReadFull.
  case_decide; [by destruct r|lia].
Qed.

(** Two reads in a row succeed exactly when one read of both does. *)
Lemma ReadFull_split a b r :
  match ReadFull (a + b) r with
  | (Ok body, r') =>
      ReadFull a r = (Ok (take a body), Stream (drop a (data r)) (fin r))
      /\ ReadFull b (Stream (drop a (data r)) (fin r)) = (Ok (drop a body), r')
  | (Err _, r') =>
      r' = Stream [] (fin r) /\
      ((exists e, ReadFull a r = (Err e, r')) \/
       (exists x r1 e, ReadFull a r = (Ok x, r1) /\ ReadFull b r1 = (Err e, r')))
  end.
Proof.
  unfold ReadFull at 1. case_decide as H.
  - unfold ReadFull. cbn [data fin].
    rewrite decide_True by lia. rewrite decide_True by (rewrite length_drop; lia).
    split.
    + by rewrite take_take, Nat.min_l by lia.
    + rewrite drop_drop, take_drop_commute. done.
  - split; [done|]. destruct (decide (a <= length (data r))%nat) as [Ha|Ha].
    + right. exists (take a (data r)), (Stream (drop a (data r)) (fin r)).
      destruct (ReadFull_short b (Stream (drop a (data r)) (fin r))) as [e He].
      { cbn [data]. rewrite length_drop. lia. }
      exists e. split; [|done]. unfold ReadFull. by rewrite decide_True by done.
    + left. unfold ReadFull. rewrite decide_False by done. eauto.
Qed.

(** The allocation-free reader on a frame in front of anything. *)
Lemma ReadUDPPacketInto_append scratch addr payload frame rest e :
  MaxUDPFrame <= Z.of_nat scratch -> AppendUDPPacket [] addr payload = Ok frame ->
  ReadUDPPacketInto scratch (Stream (frame ++ rest) e) = (Ok (addr, payload), Stream rest e).
Proof.
  unfold AppendUDPPacket. intros Hs.
  destruct (MaxUDPPayload <? _) eqn:Hp; [done|]. destruct (maxUDPAddr <? _) eqn:Ha; [done|].
  bool_facts. intros <-%(inj Ok). unfold ReadUDPPacketInto. rewrite (proj2 (Z.ltb_ge _ _)) by done.
  rewrite app_nil_l, <- app_assoc, ReadFull_app by done.
  destruct (udp_header_fields (Z.of_nat (length addr)) (Z.of_nat (length payload))) as [-> ->]; [lia|lia|].
  rewrite (proj2 (Z.ltb_ge _ _)) by done. unfold MaxUDPFrame in Hs.
  rewrite bool_decide_eq_true_2 by lia. cbn [negb].
  rewrite ReadFull_app by (rewrite length_app; lia).
  by rewrite Nat2Z.id, take_app_length, drop_app_length.
Qed.

(** ** Properties *)

(** Datagrams survive the stream: what [AppendUDPPacket] accepts is appended
    to [dst] as one frame, which [ReadUDPPacket] reads back whatever follows. *)
Theorem udp_roundtrip dst addr payload frame rest e :
  AppendUDPPacket dst addr payload = Ok frame ->
  exists f, frame = dst ++ f /\ Z.of_nat (length f) <= MaxUDPFrame
    /\ ReadUDPPacket (Stream (f ++ rest) e) = (Ok (MkUDPPacket addr payload), Stream rest e).
Proof.
  unfold AppendUDPPacket.
  destruct (MaxUDPPayload <? _) eqn:Hp; [done|].
  destruct (maxUDPAddr <? _) eqn:Ha; [done|]. bool_facts. intros <-%(inj Ok).
  eexists. split; [done|]. split.
  { rewrite !length_app, length_udp_header. unfold MaxUDPFrame. lia. }
  unfold ReadUDPPacket. rewrite <- app_assoc, ReadFull_app by done.
  destruct (udp_header_fields (Z.of_nat (length addr)) (Z.of_nat (length payload)))
    as [-> ->]; [lia|lia|].
  rewrite (proj2 (Z.ltb_ge _ _)) by done.
  rewrite ReadFull_guard, <- app_assoc, ReadFull_app by lia.
  rewrite ReadFull_guard, ReadFull_app by lia. done.
Qed.

(** The allocation-free reader is the reference reader: with a scratch buffer
    of at least a maximum frame, [ReadUDPPacketInto] returns the same packet and
    leaves the same stream as [ReadUDPPacket], fails exactly when it fails, and
    its slice of the scratch buffer is never out of range. *)
Theorem ReadUDPPacketInto_refines scratch r :
  MaxUDPFrame <= Z.of_nat scratch ->
  match ReadUDPPacketInto scratch r, ReadUDPPacket r with
  | (Ok (addr, payload), r1), (Ok p, r2) => p = MkUDPPacket addr payload /\ r1 = r2
  | (Err e, r1), (Err _, r2) => e <> ErrPanic /\ r1 = r2
  | _, _ => False
  end.
Proof.
  intros Hs. unfold ReadUDPPacketInto, ReadUDPPacket.
  rewrite (proj2 (Z.ltb_ge _ _)) by done.
  destruct (ReadFull udpHeaderSize r) as [[h|e] r1]; [|by destruct e].
  pose proof (udp_addr_len_range h). pose proof (udp_payload_len_range h).
  destruct (MaxUDPPayload <? udp_payload_len h) eqn:E; [done|]. bool_facts.
  unfold MaxUDPFrame in Hs.
  rewrite bool_decide_eq_true_2 by lia. cbn [negb].
  rewrite !ReadFull_guard, Z2Nat.inj_add by lia.
  pose proof (ReadFull_split (Z.to_nat (udp_addr_len h)) (Z.to_nat (udp_payload_len h)) r1) as Hsp.
  destruct (ReadFull _ r1) as [[body|e] r2].
  - destruct Hsp as [-> Hb]. rewrite ReadFull_guard, Hb. done.
  - destruct Hsp as [-> [[e1 ->]|(x & r3 & e1 & -> & Hb)]]; [done|].
    rewrite ReadFull_guard, Hb. done.
Qed.

(** ** Witnesses *)

Lemma udp_roundtrip_witness :
  exists frame, AppendUDPPacket [] (go "1.2.3.4:5") (go "hello") = Ok frame /\
  exists f, frame = [] ++ f /\ Z.of_nat (length f) <= MaxUDPFrame
    /\ ReadUDPPacket (Stream (f ++ [x01]) EOF)
       = (Ok (MkUDPPacket (go "1.2.3.4:5") (go "hello")), Stream [x01] EOF).
Proof.
  eexists. split; [reflexivity|]. apply udp_roundtrip. reflexivity.
Defined.

Lemma ReadUDPPacketInto_refines_witness :
  MaxUDPFrame <= Z.of_nat (Z.to_nat MaxUDPFrame) /\
  match ReadUDPPacketInto (Z.to_nat MaxUDPFrame) (Stream (go "xyz") EOF),
        ReadUDPPacket (Stream (go "xyz") EOF) with
  | (Ok (addr, payload), r1), (Ok p, r2) => p = MkUDPPacket addr payload /\ r1 = r2
  | (Err e, r1), (Err _, r2) => e <> ErrPanic /\ r1 = r2
  | _, _ => False
  end.
Proof.
  assert (H : MaxUDPFrame <= Z.of_nat (Z.to_nat MaxUDPFrame)).
  { rewrite Z2Nat.id; [reflexivity|vm_compute; congruence]. }
  split; [exact H|exact (ReadUDPPacketInto_refines _ (Stream (go "xyz") EOF) H)].
Defined.
