(* ===== verification/Pattern.v ===== *)
(** Host names and domain patterns: [internal/tunnel/vhost/pattern.go].

    [golang.org/x/net/idna] is third-party code: the class [Idna] holds the two
    functions the package calls. *)
From S2P Require Import Prelude GoStrings.

Class Idna := {
  lookup_toASCII : bytes -> option bytes;   (* idna.Lookup.ToASCII *)
  toASCII : bytes -> option bytes }.        (* idna.ToASCII *)

Definition Wildcard : bytes := go "*".
Definition CatchAll : bytes := go "*".
Definition star : byte := x2a.
Definition dot : byte := x2e.
Definition colon : byte := x3a.

(** The errors of the package [vhost], with the values they print. *)
Inductive verr : Type :=
  | ErrEmptyHost
  | ErrEmptyAfterNormalisation
  | ErrNotUsable (s : bytes)
  | ErrTooFewLabels (s : bytes)
  | ErrEmptyLabel (s : bytes)
  | ErrWildcardNotLeftmost (s : bytes)
  | ErrWildcardPartOfLabel (s : bytes)
  | ErrTooBroad (s : bytes)
  | ErrIsPattern (host : bytes)
  | ErrNoDomains (proxy : bytes)
  | ErrAlreadyRouted (pattern proxy runID : bytes)
  | ErrRebuilding (e : verr).

#[export] Instance verr_eq_dec : EqDecision verr.
Proof. solve_decision. Defined.

Record Pattern := MkPattern { raw : bytes; labels : list bytes; catchAll : bool }.

Section pattern.
Context `{Unicode} `{Idna}.

Fixpoint convert_parts (parts : list bytes) : option (list bytes) :=
  match parts with
  | [] => Some []
  | label :: parts =>
      label ← (if decide (label = Wildcard \/ label = []) then Some label
               else toASCII label);
      parts ← convert_parts parts;
      Some (label :: parts)
  end.

Definition convertLabels (s : bytes) : option bytes :=
  (fun ps => Join ps [dot]) <$> convert_parts (Split s dot).

(** The port suffix, unless what follows the last colon holds a dot or the
    host is bracketed. *)
Definition strip_port (s : bytes) : bytes :=
  if HasPrefix s (go "[") then s
  else match LastIndexByte s colon with
       | None => s
       | Some idx =>
           let rest := drop (idx + 1) s in
           if negb (Contains rest [colon]) && negb (Contains rest [dot])
           then take idx s else s
       end.

Definition normalise (s : bytes) : res verr bytes :=
  let s := TrimSpace s in
  if bool_decide (s = []) then Err ErrEmptyHost
  else
    let s := TrimSuffix (ToLower (strip_port s)) [dot] in
    if bool_decide (s = []) then Err ErrEmptyAfterNormalisation
    else if bool_decide (s = CatchAll) then Ok CatchAll
    else match lookup_toASCII (ReplaceByte s star x00) with
         | Some converted => Ok (ReplaceByte converted x00 star)
         | None => match convertLabels s with
                   | Some converted => Ok converted
                   | None => Err (ErrNotUsable s)
                   end
         end.

Definition NormaliseHost (host : bytes) : res verr bytes := normalise host.

(** The loop over the labels, from index [i]. *)
Fixpoint check_labels (s : bytes) (i : nat) (parts : list bytes) : res verr unit :=
  match parts with
  | [] => Ok tt
  | label :: parts =>
      if bool_decide (label = []) then Err (ErrEmptyLabel s)
      else if bool_decide (label = Wildcard) then
        if (i =? 0)%nat then check_labels s (S i) parts
        else Err (ErrWildcardNotLeftmost s)
      else if Contains label Wildcard then Err (ErrWildcardPartOfLabel s)
      else check_labels s (S i) parts
  end.

Definition ParsePattern (s : bytes) : res verr Pattern :=
  normalised ← normalise s;
  if bool_decide (normalised = CatchAll) then Ok (MkPattern CatchAll [] true)
  else
    let parts := Split normalised dot in
    if (length parts <? 2)%nat then Err (ErrTooFewLabels s)
    else
      _ ← check_labels s 0 parts;
      if bool_decide (head parts = Some Wildcard) && (length parts <? 3)%nat
      then Err (ErrTooBroad s)
      else Ok (MkPattern normalised (rev parts) false).

Definition splitHostLabels (host : bytes) : res verr (list bytes) :=
  normalised ← normalise host;
  if bool_decide (normalised = CatchAll) then Err (ErrIsPattern host)
  else Ok (rev (Split normalised dot)).
End pattern.

(** ** Lemmas *)

Section lemmas.
Context `{Unicode} `{Idna}.

(** What [ParsePattern] guarantees of the labels it returns. *)
Definition labels_ok (ls : list bytes) : Prop :=
  match ls with
  | [] => False
  | l :: ls =>
      l <> [] /\ (l = Wildcard \/ Contains l Wildcard = false)
      /\ Forall (fun x => x <> [] /\ x <> Wildcard /\ Contains x Wildcard = false) ls
      /\ ls <> [] /\ (l = Wildcard -> (2 <= length ls)%nat)
  end.

Lemma check_labels_ok s i ls :
  (0 < i)%nat -> check_labels s i ls = Ok tt ->
  Forall (fun x => x <> [] /\ x <> Wildcard /\ Contains x Wildcard = false) ls.
Proof.
  revert i; induction ls as [|l ls IH]; intros i Hi; simpl; [constructor|].
  case_bool_decide; [done|]. case_bool_decide.
  { destruct i; [lia|done]. }
  destruct (Contains l Wildcard) eqn:E; [done|].
  intros Hc. constructor; [done|]. apply (IH (S i)); [lia|done].
Qed.

Lemma ParsePattern_ok s p :
  ParsePattern s = Ok p ->
  normalise s = Ok (raw p)
  /\ (if catchAll p then raw p = CatchAll /\ labels p = []
      else raw p <> CatchAll /\ labels p = rev (Split (raw p) dot)
           /\ labels_ok (Split (raw p) dot)).
Proof.
  unfold ParsePattern. destruct (normalise s) as [n|e] eqn:Hn; simpl; [|done].
  case_bool_decide as Hc; [intros [= <-]; simpl; subst; auto|].
  destruct (Split n dot) as [|l ls] eqn:Hs; [by pose proof (Split_not_nil n dot)|].
  destruct (length (l :: ls) <? 2)%nat eqn:Hl; [done|]. apply Nat.ltb_ge in Hl.
  destruct (check_labels s 0 (l :: ls)) as [[]|e] eqn:Hk;
    cbn [mbind res_bind head]; [|done].
  case_bool_decide as Hw; cbn [andb].
  - destruct (length (l :: ls) <? 3)%nat eqn:Hl3; [done|]. apply Nat.ltb_ge in Hl3.
    simpl in Hl3.
    intros [= <-]. simpl. split; [done|]. split; [done|].
    injection Hw as ->. rewrite Hs. split; [done|]. simpl in Hk.
    apply check_labels_ok in Hk; [|lia].
    split; [done|]. split; [by left|]. split; [done|].
    split; [destruct ls; simpl in *; [lia|done]|lia].
  - intros [= <-]. simpl. split; [done|]. split; [done|]. rewrite Hs. split; [done|].
    simpl in Hk. case_bool_decide as He; [done|].
    case_bool_decide as Hw'; [congruence|].
    destruct (Contains l Wildcard) eqn:E; [done|].
    apply check_labels_ok in Hk; [|lia].
    split; [done|]. split; [by right|]. split; [done|].
    split; [destruct ls; simpl in *; [lia|done]|done].
Qed.

(** A stored pattern is read again each time the table is rebuilt; this says
    that reading it again gives the same pattern. *)
Definition stable (p : Pattern) : Prop := ParsePattern (raw p) = Ok p.

Lemma ParsePattern_stable k p :
  ParsePattern k = Ok p -> raw p = k -> stable p.
Proof. intros Hp Hk. unfold stable. by rewrite Hk. Qed.

Lemma splitHostLabels_ok host ls :
  splitHostLabels host = Ok ls ->
  exists h, normalise host = Ok h /\ h <> CatchAll /\ ls = rev (Split h dot).
Proof.
  unfold splitHostLabels. destruct (normalise host) as [h|e]; simpl; [|done].
  case_bool_decide; [done|]. intros [= <-]. eauto.
Qed.
End lemmas.

(** ** A concrete IDNA for ASCII names *)

(** On a name of lower-case letters, digits, hyphens, underscores and dots the
    lookup profile is the identity; it refuses any other ASCII byte.  The
    Punycode profile returns ASCII labels unchanged. *)
Definition ldh_byte (b : byte) : bool :=
  ((97 <=? b2z b) && (b2z b <=? 122)) || ((48 <=? b2z b) && (b2z b <=? 57))
  || (b2z b =? 45) || (b2z b =? 46).

Definition ascii_idna : Idna := {|
  lookup_toASCII s := if forallb ldh_byte s then Some s else None;
  toASCII s := if is_ascii s then Some s else None |}.
