(* ===== verification/Router.v ===== *)
(** The virtual-host router: [internal/tunnel/vhost] (trie.go, router.go).

    [Module Trie] is the label trie, [Module Spec] what routing promises, and
    the rest the [Router]: a map of claimed patterns and the table rebuilt from
    it, which lookups read.  The mutex makes each operation one step; a lookup
    reads one whole table through the atomic pointer. *)
From S2P Require Import Prelude GoStrings Pattern.

(** [type Scheme string]. *)
Definition SchemeHTTP : bytes := go "http".
Definition SchemeHTTPS : bytes := go "https".

Record Route := MkRoute {
  r_Pattern : bytes; RunID : bytes; r_ProxyName : bytes; r_TLSMode : bytes }.

#[export] Instance Route_eq_dec : EqDecision Route.
Proof. solve_decision. Defined.

Definition already_routed (pattern : bytes) (existing : Route) : verr :=
  ErrAlreadyRouted pattern (r_ProxyName existing) (RunID existing).

(** ** The trie *)

Module Trie.
Inductive node : Type :=
  Node (children : gmap bytes node) (wildcard : option node) (route : option Route).

Definition children (n : node) : gmap bytes node := let 'Node c _ _ := n in c.
Definition wildcard (n : node) : option node := let 'Node _ w _ := n in w.
Definition route (n : node) : option Route := let 'Node _ _ r := n in r.

Definition newNode : node := Node ∅ None None.

Fixpoint insert (n : node) (labels : list bytes) (r : Route) : res verr node :=
  let 'Node c w rt := n in
  match labels with
  | [] => match rt with
          | Some existing => Err (already_routed (r_Pattern r) existing)
          | None => Ok (Node c w (Some r))
          end
  | label :: labels =>
      if bool_decide (label = Wildcard) then
        (fun w => Node c (Some w) rt) <$> insert (default newNode w) labels r
      else
        (fun child => Node (<[label := child]> c) w rt)
          <$> insert (default newNode (c !! label)) labels r
  end.

Fixpoint lookup (n : node) (labels : list bytes) : option Route :=
  let 'Node c w rt := n in
  match labels with
  | [] => rt
  | head :: rest =>
      match (match c !! head with Some child => lookup child rest | None => None end) with
      | Some r => Some r
      | None => match w with Some wild => lookup wild rest | None => None end
      end
  end.

(** The routes [walk] visits; Go's map order is left open, the caller sorts. *)
Fixpoint walk (n : node) : list Route :=
  let 'Node c w rt := n in
  option_list rt
  ++ map_fold (fun _ child acc => walk child ++ acc) [] c
  ++ match w with Some wild => walk wild | None => [] end.

(** *** The trie as a function on label paths *)

(** The route stored at a path, following [*] as the wildcard edge. *)
Fixpoint find (n : node) (labels : list bytes) : option Route :=
  match labels with
  | [] => route n
  | label :: labels =>
      if bool_decide (label = Wildcard)
      then match wildcard n with Some w => find w labels | None => None end
      else match children n !! label with Some c => find c labels | None => None end
  end.

Lemma find_newNode ls : find newNode ls = None.
Proof. destruct ls as [|l ls]; simpl; [done|]. case_bool_decide; [done|]. by rewrite lookup_empty. Qed.

Lemma find_default_wild n ls :
  find (default newNode (wildcard n)) ls
  = match wildcard n with Some w => find w ls | None => None end.
Proof. destruct (wildcard n); simpl; [done|]. apply find_newNode. Qed.

Lemma find_default_child n l ls :
  find (default newNode (children n !! l)) ls
  = match children n !! l with Some c => find c ls | None => None end.
Proof. destruct (children n !! l); simpl; [done|]. apply find_newNode. Qed.

(** Inserting succeeds exactly on a free path, and changes that path only. *)
Lemma insert_find n ls r :
  match find n ls with
  | Some existing => insert n ls r = Err (already_routed (r_Pattern r) existing)
  | None => exists n', insert n ls r = Ok n' /\
              forall ls', find n' ls' = if decide (ls' = ls) then Some r else find n ls'
  end.
Proof.
  revert n; induction ls as [|l ls IH]; intros [c w rt]; simpl.
  - destruct rt as [e|]; [done|]. eexists. split; [done|].
    by intros [|l ls'].
  - case_bool_decide as Hl.
    + specialize (IH (default newNode w)).
      rewrite (find_default_wild (Node c w rt)) in IH. simpl in IH.
      destruct (match w with Some w => find w ls | None => None end) as [e|] eqn:Hf.
      * by rewrite IH.
      * destruct IH as (w' & Hi & Hall). rewrite Hi. eexists. split; [done|].
        intros [|l' ls']; simpl; [done|].
        destruct (decide (l' :: ls' = l :: ls)) as [[= -> ->]|Hne].
        { rewrite bool_decide_eq_true_2 by done. rewrite Hall. by rewrite decide_True. }
        case_bool_decide as Hl'; [|done]. rewrite Hall.
        rewrite decide_False by congruence.
        by rewrite (find_default_wild (Node c w rt)).
    + specialize (IH (default newNode (c !! l))).
      rewrite (find_default_child (Node c w rt)) in IH. simpl in IH.
      destruct (match c !! l with Some c => find c ls | None => None end) as [e|] eqn:Hf.
      * by rewrite IH.
      * destruct IH as (c' & Hi & Hall). rewrite Hi. eexists. split; [done|].
        intros [|l' ls']; simpl; [done|].
        destruct (decide (l' :: ls' = l :: ls)) as [[= -> ->]|Hne].
        { rewrite bool_decide_eq_false_2 by done.
          rewrite lookup_insert_eq, Hall. by rewrite decide_True. }
        case_bool_decide as Hl'; [done|].
        destruct (decide (l = l')) as [<-|Hll].
        { rewrite lookup_insert_eq, Hall. rewrite decide_False by congruence.
          by rewrite (find_default_child (Node c w rt)). }
        by rewrite lookup_insert_ne.
Qed.

(** A literal [*] is never a child label. *)
Inductive clean : node -> Prop :=
  clean_node c w rt :
    c !! Wildcard = None ->
    (forall l child, c !! l = Some child -> clean child) ->
    (forall wild, w = Some wild -> clean wild) ->
    clean (Node c w rt).

Lemma clean_newNode : clean newNode.
Proof.
  constructor; [by rewrite lookup_empty| |done].
  intros l c. by rewrite lookup_empty.
Qed.

Lemma clean_insert n ls r n' : clean n -> insert n ls r = Ok n' -> clean n'.
Proof.
  revert n n'; induction ls as [|l ls IH]; intros [c w rt] n' Hc; simpl.
  - destruct rt; [done|]. intros [= <-]. inversion Hc; subst. by constructor.
  - inversion Hc as [? ? ? H1 H2 H3]; subst. case_bool_decide as Hl.
    + destruct (insert _ ls r) as [w'|e] eqn:Hi; simpl; [|done]. intros [= <-].
      constructor; [done..|]. intros ? [= <-]. eapply IH; [|done].
      destruct w; simpl; [by apply H3|apply clean_newNode].
    + destruct (insert _ ls r) as [c'|e] eqn:Hi; simpl; [|done]. intros [= <-].
      constructor; [by rewrite lookup_insert_ne| |done].
      intros l' child. destruct (decide (l = l')) as [<-|Hne].
      * rewrite lookup_insert_eq. intros [= <-]. eapply IH; [|done].
        destruct (c !! l) eqn:E; simpl; [by eapply H2|apply clean_newNode].
      * rewrite lookup_insert_ne by done. apply H2.
Qed.

(** Wildcards end the paths: [*] is the leftmost label of its pattern. *)
Definition wild_last (n : node) : Prop :=
  forall pre post r, find n (pre ++ Wildcard :: post) = Some r -> post = [].

(** The two candidates of a host: itself, and with its last label starred. *)
Definition starred (ls : list bytes) : option (list bytes) :=
  match ls with [] => None | _ => Some (take (length ls - 1) ls ++ [Wildcard]) end.

Arguments starred : simpl never.

Lemma starred_cons l x ls :
  starred (l :: x :: ls) = (fun s => l :: s) <$> starred (x :: ls).
Proof. unfold starred. simpl. by rewrite Nat.sub_0_r. Qed.

Lemma starred_not_nil ls s : starred ls = Some s -> s <> [].
Proof. destruct ls; unfold starred; simpl; [done|]. intros [= <-]. by destruct (take _ _). Qed.

(** The backtracking lookup finds the exact path, else the starred one. *)
Lemma lookup_find n ls :
  clean n -> wild_last n ->
  lookup n ls = match find n ls with
                | Some r => Some r
                | None => starred ls ≫= find n
                end.
Proof.
  revert n; induction ls as [|l ls IH]; intros [c w rt] Hc Hw;
    cbn [lookup find children wildcard].
  { by destruct rt. }
  inversion Hc as [? ? ? H1 H2 H3]; subst.
  destruct ls as [|x ls].
  - simpl. case_bool_decide; subst; [rewrite H1|];
      repeat case_match; simplify_eq/=; done.
  - (* below a wildcard nothing longer is stored *)
    assert (Hwild : match w with Some wild => lookup wild (x :: ls) | None => None end = None).
    { destruct w as [wild|]; [|done].
      assert (Hnil : forall post r, find wild post = Some r -> post = []).
      { intros post r Hf. by apply (Hw [] post r). }
      rewrite IH; [|by apply H3|].
      - destruct (find wild (x :: ls)) eqn:E; [by apply Hnil in E|].
        destruct (starred (x :: ls)) as [s|] eqn:Es; [|done]. simpl.
        destruct (find wild s) eqn:E2; [|done].
        apply Hnil in E2. by apply starred_not_nil in Es.
      - intros pre post r Hf. by apply Hnil, app_eq_nil in Hf as [_ ?]. }
    rewrite Hwild, starred_cons.
    assert (Hs : forall s, s <> [] -> match w with Some w => find w s | None => None end = None).
    { intros s Hne. destruct w as [wild|]; [|done].
      destruct (find wild s) as [r|] eqn:E; [|done]. by apply (Hw [] s r) in E. }
    destruct (decide (l = Wildcard)) as [->|Hl].
    + rewrite H1. rewrite bool_decide_eq_true_2 by done. rewrite Hs by done.
      destruct (starred (x :: ls)) as [s|] eqn:Es; [|done]. cbn.
      by rewrite Hs by by eapply starred_not_nil.
    + rewrite bool_decide_eq_false_2 by done.
      assert (Hbind : ((fun s => l :: s) <$> starred (x :: ls)) ≫= find (Node c w rt)
        = match c !! l with Some child => starred (x :: ls) ≫= find child | None => None end).
      { destruct (starred (x :: ls)) as [s|]; simpl;
          [rewrite bool_decide_eq_false_2 by done; done|by destruct (c !! l)]. }
      rewrite Hbind. destruct (c !! l) as [child|] eqn:Hchild; [|done].
      rewrite IH; [|by eapply H2|].
      * by destruct (find child (x :: ls)), (starred (x :: ls) ≫= find child).
      * intros pre post r Hf. apply (Hw (l :: pre) post r). simpl.
        rewrite bool_decide_eq_false_2 by done. by rewrite Hchild.
Qed.
End Trie.

(** ** The router *)

Record table := MkTable { root : Trie.node; t_catchAll : option Route; count : nat }.

Definition newTable : table := MkTable Trie.newNode None 0.

Record Router := MkRouter { current : table; routes : gmap bytes Route }.

Definition NewRouter : Router := MkRouter newTable ∅.

Section router.
Context `{Unicode} `{Idna}.

(** One round of the loop of [rebuildLocked]. *)
Definition rebuild_one (rs : gmap bytes Route) (next : table) (pattern : bytes)
  : res verr table :=
  match rs !! pattern with
  | None => Ok next (* the loop runs over the keys of [rs] *)
  | Some route =>
      match ParsePattern pattern with
      | Err e => Err (ErrRebuilding e)
      | Ok parsed =>
          if catchAll parsed
          then Ok (MkTable (root next) (Some route) (S (count next)))
          else root' ← Trie.insert (root next) (labels parsed) route;
               Ok (MkTable root' (t_catchAll next) (S (count next)))
      end
  end.

Fixpoint rebuild_loop (rs : gmap bytes Route) (next : table) (patterns : list bytes)
  : res verr table :=
  match patterns with
  | [] => Ok next
  | pattern :: patterns =>
      next ← rebuild_one rs next pattern; rebuild_loop rs next patterns
  end.

Definition rebuildLocked (r : Router) : res verr unit * Router :=
  let patterns := SortStrings (map_to_list (routes r)).*1 in
  match rebuild_loop (routes r) newTable patterns with
  | Err e => (Err e, r)
  | Ok next => (Ok tt, MkRouter next (routes r))
  end.

(** The check that no pattern is taken, then the claims. *)
Definition check_free (rs : gmap bytes Route) (p : Pattern) : res verr unit :=
  match rs !! raw p with
  | Some existing => Err (already_routed (raw p) existing)
  | None => Ok tt
  end.

Definition claim (route : Route) (rs : gmap bytes Route) (p : Pattern) : gmap bytes Route :=
  <[raw p := MkRoute (raw p) (RunID route) (r_ProxyName route) (r_TLSMode route)]> rs.

Definition Add (patterns : list bytes) (route : Route) (r : Router)
  : res verr unit * Router :=
  match patterns with
  | [] => (Err (ErrNoDomains (r_ProxyName route)), r)
  | _ =>
      match map_res ParsePattern patterns with
      | Err e => (Err e, r)
      | Ok parsed =>
          match first_err (check_free (routes r)) parsed with
          | Err e => (Err e, r)
          | Ok _ => rebuildLocked (MkRouter (current r) (foldl (claim route) (routes r) parsed))
          end
      end
  end.

Definition Remove (runID proxyName : bytes) (r : Router) : Router :=
  (rebuildLocked (MkRouter (current r)
     (filter (fun kv => ~ (RunID kv.2 = runID /\ r_ProxyName kv.2 = proxyName)) (routes r)))).2.

Definition RemoveClient (runID : bytes) (r : Router) : Router :=
  (rebuildLocked (MkRouter (current r)
     (filter (fun kv => RunID kv.2 <> runID) (routes r)))).2.

Definition Lookup (host : bytes) (r : Router) : option Route :=
  match splitHostLabels host with
  | Err _ => t_catchAll (current r)
  | Ok labels =>
      match Trie.lookup (root (current r)) labels with
      | Some route => Some route
      | None => t_catchAll (current r)
      end
  end.

Definition Len (r : Router) : nat := count (current r).

Definition route_le (a b : Route) : Prop := bytes_le (r_Pattern a) (r_Pattern b).

Definition Routes (r : Router) : list Route :=
  merge_sort route_le (Trie.walk (root (current r)) ++ option_list (t_catchAll (current r))).
End router.

(** ** The specification: what a set of claimed patterns routes *)

Module Spec.
(** The pattern that covers every name one label under the parent of [h]. *)
Definition one_level_wildcard (h : bytes) : option bytes :=
  match Split h dot with
  | _ :: (_ :: _) as rest => Some (Join (Wildcard :: rest) [dot])
  | _ => None
  end.

(** An exact name wins over its one-level wildcard, which wins over [*]. *)
Definition route_of `{Unicode} `{Idna} (rs : gmap bytes Route) (host : bytes)
  : option Route :=
  match normalise host with
  | Err _ => rs !! CatchAll
  | Ok h =>
      if bool_decide (h = CatchAll) then rs !! CatchAll
      else match rs !! h with
           | Some r => Some r
           | None =>
               match one_level_wildcard h ≫= (fun w => rs !! w) with
               | Some r => Some r
               | None => rs !! CatchAll
               end
           end
  end.
End Spec.

(** ** Invariant *)

Section invariant.
Context `{Unicode} `{Idna}.

(** Every claimed pattern reads back as itself. *)
Definition keys_stable (rs : gmap bytes Route) : Prop :=
  forall k r, rs !! k = Some r -> exists p, ParsePattern k = Ok p /\ raw p = k.

(** The published table routes exactly the claims [rs] restricted to [ks]. *)
Definition table_of (rs : gmap bytes Route) (ks : bytes -> Prop) (t : table) : Prop :=
  Trie.clean (root t)
  /\ (forall ls r, Trie.find (root t) ls = Some r <->
        exists k p, ks k /\ rs !! k = Some r /\ ParsePattern k = Ok p
                    /\ catchAll p = false /\ labels p = ls)
  /\ (forall r, t_catchAll t = Some r <-> ks CatchAll /\ rs !! CatchAll = Some r).

Definition patterns_recorded (rs : gmap bytes Route) : Prop :=
  forall k r, rs !! k = Some r -> r_Pattern r = k.

Definition router_ok (r : Router) : Prop :=
  keys_stable (routes r) /\ patterns_recorded (routes r)
  /\ table_of (routes r) (fun k => is_Some (routes r !! k)) (current r)
  /\ count (current r) = size (routes r).

Lemma key_pattern rs k r :
  keys_stable rs -> rs !! k = Some r ->
  exists p, ParsePattern k = Ok p /\ raw p = k
    /\ (if catchAll p then k = CatchAll
        else k <> CatchAll /\ labels p = rev (Split k dot) /\ labels_ok (Split k dot)).
Proof.
  intros Hs Hk. destruct (Hs k r Hk) as (p & Hp & Hr). exists p. split; [done|].
  split; [done|]. apply ParsePattern_ok in Hp as [_ Hp]. rewrite Hr in Hp.
  destruct (catchAll p); tauto.
Qed.

Lemma rev_Split_inj k k' : rev (Split k dot) = rev (Split k' dot) -> k = k'.
Proof.
  intros E. apply (f_equal (@rev _)) in E. rewrite !rev_involutive in E.
  by apply Split_inj in E.
Qed.

(** Adding one more key keeps the table exact, and never conflicts. *)
Lemma rebuild_one_ok rs ks t k :
  keys_stable rs -> is_Some (rs !! k) -> ~ ks k -> table_of rs ks t ->
  exists t', rebuild_one rs t k = Ok t' /\ table_of rs (fun x => ks x \/ x = k) t'
             /\ count t' = S (count t).
Proof.
  intros Hs [r Hr] Hnew (Hclean & Hfind & Hca). unfold rebuild_one. rewrite Hr.
  destruct (key_pattern rs k r Hs Hr) as (p & Hp & Hraw & Hc). rewrite Hp.
  destruct (catchAll p) eqn:Hcp.
  - eexists. split; [done|]. split; [|done]. split; [done|]. cbn [root t_catchAll]. split.
    + intros ls r'. rewrite Hfind. split.
      * intros (k' & p' & ? & ?). exists k', p'. intuition.
      * intros (k' & p' & [?|Hkk] & Hk & Hp' & Hc' & ?); [by eauto 10|]. congruence.
    + intros r'. rewrite <- Hc, Hr. split; [intros [= ->]; auto|].
      intros [_ ?]. congruence.
  - destruct Hc as (Hne & Hl & _).
    pose proof (Trie.insert_find (root t) (labels p) r) as Hi.
    destruct (Trie.find (root t) (labels p)) as [e|] eqn:Hf.
    { apply Hfind in Hf as (k' & p' & Hks & Hk' & Hp' & Hc' & Hl').
      destruct (key_pattern rs k' e Hs Hk') as (q & Hq & _ & Hq').
      assert (q = p') as -> by congruence. rewrite Hc' in Hq'.
      destruct Hq' as (_ & Hq' & _).
      assert (k' = k) as -> by (apply rev_Split_inj; congruence). done. }
    destruct Hi as (root' & Hi & Hall). rewrite Hi. cbn [mbind res_bind].
    eexists. split; [done|]. split; [|done]. split; [|split]; cbn [root t_catchAll].
    + by eapply Trie.clean_insert.
    + intros ls r'. rewrite Hall. case_decide as Heq; [subst ls|].
      * split; [intros [= <-]; exists k, p; auto 10|].
        intros (k' & p' & _ & Hk' & Hp' & Hc' & Hl').
        destruct (key_pattern rs k' r' Hs Hk') as (q & Hq & _ & Hq').
        assert (q = p') as -> by congruence. rewrite Hc' in Hq'.
        destruct Hq' as (_ & Hq' & _).
        assert (k' = k) as -> by (apply rev_Split_inj; congruence). congruence.
      * rewrite Hfind. split; [intros (k' & p' & ? & ?); exists k', p'; intuition|].
        intros (k' & p' & [?| ->] & ?); [exists k', p'; intuition|].
        destruct H1 as (_ & ? & _ & ?). congruence.
    + intros r'. rewrite Hca. split; [intuition|].
      intros [[?| Hk] ?]; [done|congruence].
Qed.

Lemma table_of_proper rs P Q t :
  (forall k, P k <-> Q k) -> table_of rs P t -> table_of rs Q t.
Proof.
  intros HPQ (Hc & Hf & Hca). split; [done|]. split.
  - intros ls r. rewrite Hf. by setoid_rewrite HPQ.
  - intros r. by rewrite Hca, HPQ.
Qed.

Lemma rebuild_loop_ok rs P t ks :
  keys_stable rs -> NoDup ks -> Forall (fun k => is_Some (rs !! k)) ks ->
  (forall k, k ∈ ks -> ~ P k) -> table_of rs P t ->
  exists t', rebuild_loop rs t ks = Ok t' /\ table_of rs (fun x => P x \/ x ∈ ks) t'
             /\ count t' = (count t + length ks)%nat.
Proof.
  intros Hs Hnd. revert P t. induction Hnd as [|k ks Hk Hnd IH]; intros P t Hin Hnew Ht.
  - exists t. cbn. split; [done|]. split; [|lia].
    eapply table_of_proper; [|done]. set_solver.
  - inversion Hin as [|? ? Hin1 Hin2]; subst.
    destruct (rebuild_one_ok rs P t k Hs Hin1 ltac:(apply Hnew; set_solver) Ht)
      as (t1 & H1 & Ht1 & Hc1).
    destruct (IH (fun x => P x \/ x = k) t1 Hin2) as (t' & H2 & Ht2 & Hc2); [|done|].
    + set_solver.
    + exists t'. cbn [rebuild_loop]. rewrite H1. cbn [mbind res_bind].
      split; [done|]. split; [|cbn [length]; lia].
      eapply table_of_proper; [|done]. set_solver.
Qed.

Lemma newTable_ok rs : table_of rs (fun _ => False) newTable.
Proof.
  split; [apply Trie.clean_newNode|]. split; cbn.
  - intros ls r. rewrite Trie.find_newNode. split; [done|]. by intros (? & ? & [] & _).
  - intros r. split; [done|]. by intros [[] _].
Qed.

Lemma rebuildLocked_ok r :
  keys_stable (routes r) -> patterns_recorded (routes r) ->
  exists t, rebuildLocked r = (Ok tt, MkRouter t (routes r))
            /\ router_ok (MkRouter t (routes r)).
Proof.
  intros Hs Hp. unfold rebuildLocked.
  set (ks := SortStrings (map_to_list (routes r)).*1).
  assert (Hks : forall k, k ∈ ks <-> is_Some (routes r !! k)).
  { intros k. unfold ks. rewrite SortStrings_perm, list_elem_of_fmap. split.
    - intros ([k' v] & -> & Hin). apply elem_of_map_to_list in Hin. eauto.
    - intros [v Hv]. exists (k, v). split; [done|]. by apply elem_of_map_to_list. }
  destruct (rebuild_loop_ok (routes r) (fun _ => False) newTable ks Hs)
    as (t & Ht & Hok & Hc); [| |tauto|apply newTable_ok|].
  - unfold ks. rewrite SortStrings_perm. apply NoDup_fst_map_to_list.
  - apply Forall_forall. intros k. apply Hks.
  - rewrite Ht. exists t. split; [done|]. split; [done|]. split; [done|]. split.
    + eapply table_of_proper; [|done]. intros k. cbn beta. rewrite Hks. naive_solver.
    + cbn [current routes] in *. rewrite Hc. unfold ks.
      by rewrite SortStrings_perm, length_fmap, length_map_to_list.
Qed.

Lemma NewRouter_ok : router_ok NewRouter.
Proof.
  split; [intros k r Hk; cbn [NewRouter routes] in Hk; by rewrite lookup_empty in Hk|].
  split; [intros k r Hk; cbn [NewRouter routes] in Hk; by rewrite lookup_empty in Hk|].
  split; [|done].
  eapply table_of_proper; [|apply newTable_ok].
  intros k. cbn [NewRouter routes]. split; [done|].
  intros [? Hk]. by rewrite lookup_empty in Hk.
Qed.

(** A lookup of labels in the published trie, through the claims. *)
Lemma find_route r h :
  router_ok r -> h <> CatchAll ->
  Trie.find (root (current r)) (rev (Split h dot)) = routes r !! h.
Proof.
  intros (Hs & _ & (_ & Hf & _) & _) Hh. apply option_eq. intros rt. rewrite Hf. split.
  - intros (k & p & _ & Hk & Hp & Hc & Hl).
    destruct (key_pattern (routes r) k rt Hs Hk) as (q & Hq & _ & Hq').
    assert (q = p) as -> by congruence. rewrite Hc in Hq'. destruct Hq' as (_ & Hq' & _).
    assert (k = h) as -> by (apply rev_Split_inj; congruence). done.
  - intros Hk. destruct (key_pattern (routes r) h rt Hs Hk) as (p & Hp & _ & Hc).
    destruct (catchAll p) eqn:E; [done|]. exists h, p. intuition eauto.
Qed.

Lemma wild_last_ok r : router_ok r -> Trie.wild_last (root (current r)).
Proof.
  intros (Hs & _ & (_ & Hf & _) & _) pre post rt Hpath.
  apply Hf in Hpath as (k & p & _ & Hk & Hp & Hc & Hl).
  destruct (key_pattern (routes r) k rt Hs Hk) as (q & Hq & _ & Hq').
  assert (q = p) as -> by congruence. rewrite Hc in Hq'. destruct Hq' as (_ & Hq' & Hok).
  rewrite Hl in Hq'. apply (f_equal (@rev _)) in Hq'. rewrite rev_involutive in Hq'.
  rewrite <- Hq', rev_app_distr in Hok. cbn [rev] in Hok.
  destruct post as [|x post]; [done|]. exfalso.
  destruct (rev (x :: post)) as [|y ys] eqn:E.
  { apply (f_equal length) in E. rewrite length_rev in E. done. }
  cbn [app labels_ok] in Hok. destruct Hok as (_ & _ & Hall & _).
  rewrite Forall_forall in Hall. destruct (Hall Wildcard) as (_ & ? & _); [|done].
  set_solver.
Qed.

Lemma dot_not_Wildcard : dot ∉ Wildcard.
Proof. by apply (bool_decide_unpack (dot ∉ Wildcard)). Qed.

(** Starring the last label of the path of [h] is the one-level wildcard. *)
Lemma starred_wildcard r h :
  router_ok r ->
  Trie.starred (rev (Split h dot)) ≫= Trie.find (root (current r))
  = Spec.one_level_wildcard h ≫= (fun w => routes r !! w).
Proof.
  intros Hok. unfold Spec.one_level_wildcard.
  pose proof (Split_no_sep h dot) as Hdots.
  destruct (Split h dot) as [|l [|m rest]] eqn:E; [done| |].
  - (* a single label: the path is [*] alone, which no pattern has *)
    cbn [rev app Trie.starred length Nat.sub take mbind option_bind].
    destruct (Trie.find (root (current r)) [Wildcard]) as [rt|] eqn:Hf; [|done].
    destruct Hok as (Hs & _ & (_ & Hfind & _) & _).
    apply Hfind in Hf as (k & p & _ & Hk & Hp & Hc & Hl).
    destruct (key_pattern (routes r) k rt Hs Hk) as (q & Hq & _ & Hq').
    assert (q = p) as -> by congruence. rewrite Hc in Hq'. destruct Hq' as (_ & Hq' & Hlok).
    rewrite Hl in Hq'. apply (f_equal (@rev _)) in Hq'. rewrite rev_involutive in Hq'.
    rewrite <- Hq' in Hlok. cbn [rev app labels_ok] in Hlok. by destruct Hlok as (_ & _ & _ & ? & _).
  - assert (Hstar : Trie.starred (rev (l :: m :: rest)) = Some (rev (Wildcard :: m :: rest))).
    { unfold Trie.starred. destruct (rev (l :: m :: rest)) eqn:Er.
      - apply (f_equal length) in Er. rewrite length_rev in Er. done.
      - rewrite <- Er. f_equal. cbn [rev]. rewrite length_app. cbn [length].
        rewrite Nat.add_sub. by rewrite take_app_length. }
    rewrite Hstar. cbn [mbind option_bind].
    set (w := Join (Wildcard :: m :: rest) [dot]).
    assert (Hsplit : Split w dot = Wildcard :: m :: rest).
    { apply Split_Join; [done|]. inversion Hdots; subst. constructor; [|done].
      exact dot_not_Wildcard. }
    rewrite <- Hsplit. apply find_route; [done|].
    intros Hw. rewrite Hw in Hsplit. discriminate.
Qed.
End invariant.

(** ** Operations preserve the invariant *)

Section operations.
Context `{Unicode} `{Idna}.

(** The patterns of a request read back as themselves once normalised. *)
Definition request_stable (patterns : list bytes) : Prop :=
  Forall (fun s => forall p, ParsePattern s = Ok p -> stable p) patterns.

Definition claimed (route : Route) (k : bytes) : Route :=
  MkRoute k (RunID route) (r_ProxyName route) (r_TLSMode route).

Lemma lookup_claims route rs ps k :
  foldl (claim route) rs ps !! k
  = if decide (k ∈ raw <$> ps) then Some (claimed route k) else rs !! k.
Proof.
  induction ps as [|p ps IH] using rev_ind; [done|].
  rewrite foldl_app, fmap_app. cbn [foldl fmap list_fmap].
  destruct (decide (raw p = k)) as [<-|Hne].
  - unfold claim at 1. rewrite lookup_insert_eq. by rewrite decide_True by set_solver.
  - unfold claim at 1. rewrite lookup_insert_ne, IH by done.
    destruct (decide (k ∈ raw <$> ps)); [rewrite decide_True|rewrite decide_False];
      set_solver.
Qed.

Lemma parsed_stable patterns ps :
  request_stable patterns -> map_res ParsePattern patterns = Ok ps -> Forall stable ps.
Proof.
  intros Hs Hps%map_res_ok. induction Hps; inversion Hs; subst; constructor; auto.
Qed.

(** *** What [Add] does *)

Definition add_accepts (patterns : list bytes) (r : Router) (ps : list Pattern) : Prop :=
  patterns <> [] /\ map_res ParsePattern patterns = Ok ps
  /\ Forall (fun p => routes r !! raw p = None) ps.

Lemma Add_accepted patterns route r ps :
  router_ok r -> request_stable patterns -> add_accepts patterns r ps ->
  exists r', Add patterns route r = (Ok tt, r') /\ router_ok r'
    /\ routes r' = foldl (claim route) (routes r) ps.
Proof.
  intros (Hs & Hp & _) Hreq (Hne & Hps & Hfree). unfold Add.
  destruct patterns as [|s patterns]; [done|]. rewrite Hps.
  assert (Hfirst : first_err (check_free (routes r)) ps = Ok tt).
  { apply first_err_ok. eapply Forall_impl; [exact Hfree|].
    intros p Hnone. unfold check_free. by rewrite Hnone. }
  rewrite Hfirst.
  assert (Hstable := parsed_stable _ _ Hreq Hps).
  assert (Hk : keys_stable (foldl (claim route) (routes r) ps)).
  { intros k rt. rewrite lookup_claims. case_decide as Hin; [|apply Hs].
    intros _. apply list_elem_of_fmap in Hin as (p & -> & Hin).
    rewrite Forall_forall in Hstable. exists p. split; [by apply Hstable|done]. }
  assert (Hrec : patterns_recorded (foldl (claim route) (routes r) ps)).
  { intros k rt. rewrite lookup_claims. case_decide; [by intros [= <-]|apply Hp]. }
  destruct (rebuildLocked_ok (MkRouter (current r) (foldl (claim route) (routes r) ps)))
    as (t & -> & Hok); [done|done|]. eauto.
Qed.

Lemma Add_rejected patterns route r :
  ~ (exists ps, add_accepts patterns r ps) ->
  exists e, Add patterns route r = (Err e, r).
Proof.
  intros Hno. unfold Add. destruct patterns as [|s patterns]; [eauto|].
  destruct (map_res ParsePattern (s :: patterns)) as [ps|e] eqn:Hps; [|eauto].
  destruct (first_err (check_free (routes r)) ps) as [[]|e] eqn:Hf; [|eauto].
  exfalso. apply Hno. exists ps. split; [done|]. split; [done|].
  apply first_err_ok in Hf. eapply Forall_impl; [exact Hf|].
  intros p. unfold check_free. by destruct (routes r !! raw p).
Qed.

Lemma rebuild_filtered_ok P `{forall kv, Decision (P kv)} r :
  router_ok r ->
  router_ok (rebuildLocked (MkRouter (current r) (filter P (routes r)))).2
  /\ routes (rebuildLocked (MkRouter (current r) (filter P (routes r)))).2
     = filter P (routes r).
Proof.
  intros (Hs & Hp & _).
  destruct (rebuildLocked_ok (MkRouter (current r) (filter P (routes r))))
    as (t & -> & Hok).
  - intros k rt [Hk _]%map_lookup_filter_Some. by apply (Hs k rt).
  - intros k rt [Hk _]%map_lookup_filter_Some. by apply (Hp k rt).
  - done.
Qed.

(** *** Sequences of operations *)

Inductive op : Type :=
  | OpAdd (patterns : list bytes) (route : Route)
  | OpRemove (runID proxyName : bytes)
  | OpRemoveClient (runID : bytes).

Definition apply_op (r : Router) (o : op) : Router :=
  match o with
  | OpAdd patterns route => (Add patterns route r).2
  | OpRemove runID proxyName => Remove runID proxyName r
  | OpRemoveClient runID => RemoveClient runID r
  end.

Definition op_stable (o : op) : Prop :=
  match o with OpAdd patterns _ => request_stable patterns | _ => True end.

#[export] Instance add_accepts_dec patterns r :
  Decision (exists ps, add_accepts patterns r ps).
Proof.
  destruct patterns as [|s patterns]; [right; by intros (? & ? & _)|].
  destruct (map_res ParsePattern (s :: patterns)) as [ps|e] eqn:E;
    [|right; intros (ps & _ & ? & _); congruence].
  destruct (decide (Forall (fun p => routes r !! raw p = None) ps)) as [Hf|Hf].
  - left. exists ps. by repeat split.
  - right. intros (ps' & _ & E' & Hf'). congruence.
Defined.

Lemma apply_op_ok r o : router_ok r -> op_stable o -> router_ok (apply_op r o).
Proof.
  intros Hr. destruct o as [patterns route|run name|run]; cbn [op_stable apply_op]; intros Ho.
  - destruct (decide (exists ps, add_accepts patterns r ps)) as [[ps Hps]|Hno].
    + by destruct (Add_accepted patterns route r ps Hr Ho Hps) as (r' & -> & Hok & _).
    + by destruct (Add_rejected patterns route r Hno) as [e ->].
  - by apply rebuild_filtered_ok.
  - by apply rebuild_filtered_ok.
Qed.
End operations.

(** ** Properties *)

Lemma Lookup_spec `{Unicode} `{Idna} r host :
  router_ok r -> Lookup host r = Spec.route_of (routes r) host.
Proof.
  intros Hok. unfold Lookup, Spec.route_of.
  assert (Hca : t_catchAll (current r) = routes r !! CatchAll).
  { apply option_eq. intros rt. destruct Hok as (_ & _ & (_ & _ & Hca) & _).
    rewrite Hca. split; [by intros [_ ?]|eauto]. }
  unfold splitHostLabels. destruct (normalise host) as [h|e]; cbn [mbind res_bind]; [|done].
  case_bool_decide as Hh; [done|].
  rewrite Trie.lookup_find; [|apply Hok|by apply wild_last_ok].
  rewrite find_route, starred_wildcard by done. rewrite Hca.
  destruct (routes r !! h); [done|]. by case_match.
Qed.

(** C5: the trie implements the routing contract: on every router whose claims
    read back as themselves, [Lookup] is the specification, exact name first,
    then the wildcard one level up, then the catch-all. *)
Theorem Lookup_refines `{Unicode} `{Idna} r host :
  router_ok r -> Lookup host r = Spec.route_of (routes r) host.
Proof. apply Lookup_spec. Qed.

(** C8: every router a server can reach, by any sequence of publishing and
    withdrawing tunnels and clients, satisfies the invariant: the published
    table routes exactly the claims, and counts them.  The published patterns
    must read back as themselves ([op_stable]); one with two ports behind its
    name does not, and freezes the table ([unstable_pattern_freezes_table]). *)
Theorem router_invariant `{Unicode} `{Idna} ops :
  Forall op_stable ops -> router_ok (foldl apply_op NewRouter ops).
Proof.
  intros Hops. generalize NewRouter_ok. generalize NewRouter.
  induction Hops as [|o ops Ho Hops IH]; intros r Hr; [done|].
  apply IH. by apply apply_op_ok.
Qed.

(** Publishing is all or nothing: [Add] succeeds exactly when every pattern
    parses and none is taken, and then adds just those claims under the
    publishing tunnel; otherwise it returns an error and changes nothing. *)
Theorem Add_all_or_nothing `{Unicode} `{Idna} patterns route r :
  router_ok r -> request_stable patterns ->
  (exists ps r', add_accepts patterns r ps /\ Add patterns route r = (Ok tt, r')
     /\ forall k, routes r' !! k = if decide (k ∈ raw <$> ps)
                                   then Some (claimed route k) else routes r !! k)
  \/ (~ (exists ps, add_accepts patterns r ps) /\ exists e, Add patterns route r = (Err e, r)).
Proof.
  intros Hr Hreq.
  destruct (decide (exists ps, add_accepts patterns r ps)) as [[ps Hps]|Hno].
  - left. destruct (Add_accepted patterns route r ps Hr Hreq Hps) as (r' & Ha & _ & Hro).
    exists ps, r'. split; [done|]. split; [done|]. intros k. rewrite Hro. apply lookup_claims.
  - right. split; [done|]. by apply Add_rejected.
Qed.

(** Withdrawing a tunnel frees its names and touches no other tunnel's, and
    withdrawing a client frees exactly that client's. *)
Theorem Remove_exact `{Unicode} `{Idna} runID proxyName r :
  router_ok r ->
  (forall k rt, routes (Remove runID proxyName r) !! k = Some rt <->
     routes r !! k = Some rt /\ ~ (RunID rt = runID /\ r_ProxyName rt = proxyName))
  /\ (forall k rt, routes (RemoveClient runID r) !! k = Some rt <->
     routes r !! k = Some rt /\ RunID rt <> runID).
Proof.
  intros Hr. unfold Remove, RemoveClient. split; intros k rt.
  - rewrite (proj2 (rebuild_filtered_ok _ r Hr)). by rewrite map_lookup_filter_Some.
  - rewrite (proj2 (rebuild_filtered_ok _ r Hr)). by rewrite map_lookup_filter_Some.
Qed.

(** What the README promises of a pattern: itself, or with a star for exactly
    one label. *)
Definition covers (pattern h : bytes) : Prop :=
  pattern = CatchAll \/ pattern = h
  \/ exists label zone, dot ∉ label /\ h = label ++ dot :: zone
                        /\ pattern = Wildcard ++ dot :: zone.

(** A visitor is only ever routed to a tunnel whose pattern covers the name
    asked for, where a star stands for exactly one level. *)
Theorem routed_pattern_covers `{Unicode} `{Idna} r host rt :
  router_ok r -> Lookup host r = Some rt ->
  routes r !! r_Pattern rt = Some rt
  /\ (r_Pattern rt = CatchAll \/ exists h, normalise host = Ok h /\ covers (r_Pattern rt) h).
Proof.
  intros Hr Hl. rewrite Lookup_spec in Hl by done.
  assert (Hrec : forall k, routes r !! k = Some rt -> r_Pattern rt = k).
  { intros k Hk. destruct Hr as (_ & Hrec & _). by apply Hrec. }
  unfold Spec.route_of in Hl.
  destruct (normalise host) as [h|e] eqn:Hn; [|rewrite (Hrec _ Hl); auto].
  case_bool_decide; [rewrite (Hrec _ Hl); auto|].
  destruct (routes r !! h) as [r1|] eqn:Hexact.
  { injection Hl as ->. rewrite (Hrec _ Hexact). split; [done|]. right. exists h.
    split; [done|]. right. by left. }
  destruct (Spec.one_level_wildcard h ≫= (fun w => routes r !! w)) as [r2|] eqn:H2;
    [|rewrite (Hrec _ Hl); auto].
  injection Hl as ->. apply bind_Some in H2 as (w & Hw & Hk).
  rewrite (Hrec _ Hk). split; [done|]. right. exists h. split; [done|]. right. right.
  unfold Spec.one_level_wildcard in Hw. pose proof (Split_no_sep h dot) as Hd.
  pose proof (Join_Split h dot) as Hj.
  destruct (Split h dot) as [|l [|m rest]]; [done|done|].
  inversion Hd; subst. injection Hw as <-.
  exists l, (Join (m :: rest) [dot]). by split.
Qed.

(** ** A client can freeze the routing table *)

(** Two pattern strings, and what a second client then asks for. *)
Definition poison : bytes := go "a.b:80:443".
Definition victim : bytes := go "a.b".
Definition later : bytes := go "c.d".

Definition poison_route : Route := MkRoute [] (go "run1") (go "t1") (go "none").
Definition victim_route : Route := MkRoute [] (go "run2") (go "t2") (go "none").
Definition later_route : Route := MkRoute [] (go "run3") (go "t3") (go "none").

Definition poisoned : Router :=
  (@Add no_unicode ascii_idna [victim] victim_route
     (@Add no_unicode ascii_idna [poison] poison_route NewRouter).2).2.

(** Without stability the invariant is lost: [normalise] strips one port, so
    [a.b:80:443] is claimed as [a.b:80], which reads back as [a.b].  A later claim
    of [a.b] fails while the table is rebuilt, after it was recorded, and from
    then on every other publication fails and stays unrouted, though recorded,
    whichever client it comes from. *)
Theorem unstable_pattern_freezes_table :
  let r := (@Add no_unicode ascii_idna [later] later_route poisoned).2 in
  (exists p, @ParsePattern no_unicode ascii_idna poison = Ok p
             /\ ~ @stable no_unicode ascii_idna p)
  /\ is_ok (@Add no_unicode ascii_idna [later] later_route poisoned).1 = false
  /\ routes r !! later = Some (claimed later_route later)
  /\ @Lookup no_unicode ascii_idna later r = None
  /\ is_ok (@Add no_unicode ascii_idna [later] later_route NewRouter).1 = true.
Proof.
  cbv zeta. repeat split; [|vm_compute; reflexivity..].
  eexists. split; [vm_compute; reflexivity|]. vm_compute. discriminate.
Qed.

(** ** Witnesses *)

Definition nas : bytes := go "nas.example.com".
Definition wild_example : bytes := go "*.example.com".
Definition nas_route : Route := MkRoute [] (go "run1") (go "nas") (go "none").
Definition www_route : Route := MkRoute [] (go "run2") (go "www") (go "none").
Definition demo_ops : list op := [OpAdd [nas] nas_route; OpAdd [wild_example] www_route].

#[local] Existing Instances no_unicode ascii_idna.

Lemma demo_request_stable : request_stable [nas] /\ request_stable [wild_example].
Proof.
  split; (constructor; [|constructor]); intros p Hp; vm_compute in Hp;
    injection Hp as <-; vm_compute; reflexivity.
Qed.

Lemma demo_stable : Forall op_stable demo_ops.
Proof. destruct demo_request_stable. by constructor; [|constructor; [|constructor]]. Qed.

Lemma demo_router_ok : router_ok (foldl apply_op NewRouter demo_ops).
Proof.
  destruct demo_request_stable as [H1 H2]. cbn [foldl demo_ops].
  apply apply_op_ok; [apply apply_op_ok; [apply NewRouter_ok|exact H1]|exact H2].
Qed.

Definition demo_router : Router := foldl apply_op NewRouter demo_ops.

Lemma Lookup_refines_witness :
  router_ok demo_router
  /\ Lookup (go "WWW.example.com:8080") demo_router
     = Spec.route_of (routes demo_router) (go "WWW.example.com:8080")
  /\ Lookup (go "WWW.example.com:8080") demo_router = Some (claimed www_route wild_example)
  /\ Lookup nas demo_router = Some (claimed nas_route nas)
  /\ Lookup (go "x.y.example.com") demo_router = None.
Proof.
  split; [exact demo_router_ok|].
  split; [exact (Lookup_refines demo_router _ demo_router_ok)|].
  repeat split; vm_compute; reflexivity.
Defined.

Lemma router_invariant_witness : Forall op_stable demo_ops /\ router_ok demo_router.
Proof. split; [exact demo_stable|exact (router_invariant demo_ops demo_stable)]. Defined.

Lemma Add_all_or_nothing_witness :
  is_ok (Add [nas] www_route demo_router).1 = false /\
  ((exists ps r', add_accepts [nas] demo_router ps
     /\ Add [nas] www_route demo_router = (Ok tt, r')
     /\ forall k, routes r' !! k = if decide (k ∈ raw <$> ps)
                                   then Some (claimed www_route k) else routes demo_router !! k)
  \/ (~ (exists ps, add_accepts [nas] demo_router ps)
      /\ exists e, Add [nas] www_route demo_router = (Err e, demo_router))).
Proof.
  split; [vm_compute; reflexivity|].
  exact (Add_all_or_nothing [nas] www_route demo_router demo_router_ok (proj1 demo_request_stable)).
Defined.

Lemma Remove_exact_witness :
  routes (Remove (go "run1") (go "nas") demo_router) !! nas = None
  /\ forall k rt, routes (RemoveClient (go "run1") demo_router) !! k = Some rt <->
       routes demo_router !! k = Some rt /\ RunID rt <> go "run1".
Proof.
  split; [vm_compute; reflexivity|].
  exact (proj2 (Remove_exact (go "run1") (go "nas") demo_router demo_router_ok)).
Defined.

Lemma routed_pattern_covers_witness :
  Lookup (go "www.example.com") demo_router = Some (claimed www_route wild_example)
  /\ covers wild_example (go "www.example.com").
Proof.
  assert (H : Lookup (go "www.example.com") demo_router = Some (claimed www_route wild_example))
    by (vm_compute; reflexivity).
  split; [exact H|].
  destruct (routed_pattern_covers demo_router _ _ demo_router_ok H) as [_ [Hc|(h & Hh & Hc)]].
  - vm_compute in Hc. discriminate.
  - vm_compute in Hh. injection Hh as <-. exact Hc.
Defined.
