(* ===== verification/Sniff.v ===== *)
(** Identifying a visitor before a tunnel is chosen: [internal/tunnel/vhost]
    (sniff.go, sniff_http.go, sniff_tls.go).

    The connection is a script of what its [Read] calls find: chunks of bytes,
    each perhaps with an error, cut to the room the caller offers.  A head
    reader is its buffer, the buffer's capacity and the limit; the capacity of
    a buffer taken from the pool is a parameter. *)
From S2P Require Import Prelude GoStrings Stream Pattern.

(** ** The connection *)

Abbreviation conn := (list (bytes * option ioerr)).

(** [c.Read(p)] with [len(p) = k]. *)
Definition Read (k : nat) (c : conn) : bytes * option ioerr * conn :=
  match c with
  | [] => ([], Some EOF, [])
  | (b, e) :: c' =>
      if decide (length b <= k)%nat
      then match e with
           | None => (b, None, c')
           | Some _ => (b, e, ([], e) :: c')
           end
      else (take k b, None, (drop k b, e) :: c')
  end.

(** Everything the peer sends, up to the first error. *)
Fixpoint sent (c : conn) : bytes :=
  match c with
  | [] => []
  | (b, None) :: c => b ++ sent c
  | (b, Some _) :: _ => b
  end.

(** ** The head reader *)

Definition MaxHTTPHead : nat := Z.to_nat (Z.shiftl 16 10).
Definition MaxTLSHead : nat := Z.to_nat (Z.shiftl 16 10 + 5).
Definition headBufSize : nat := Z.to_nat 4096.

Inductive serr : Type :=
  | ErrHeadTooLarge (wanted : nat)
  | ErrNoProgress
  | ErrRead (e : ioerr)
  | ErrSniff (what : bytes)       (* the messages without data of interest *)
  | ErrRecordType (b : byte)
  | ErrHost (e : verr)
  | ErrNoHost
  | ErrFuel.                      (* the model ran out of fuel: never returned *)

Record headReader := MkHead { hbuf : bytes; hcap : nat; hmax : nat }.

(** [newHeadReader] on a pooled buffer of capacity [cap]. *)
Definition newHeadReader (cap max : nat) : headReader := MkHead [] cap max.

(** [h.buf = append(h.buf, what h.r.Read(h.buf[len:cap]) returned)]. *)
Definition fill (h : headReader) (c : conn) : headReader * nat * option ioerr * conn :=
  let '(b, e, c) := Read (hcap h - length (hbuf h)) c in
  (MkHead (hbuf h ++ b) (hcap h) (hmax h), length b, e, c).

Fixpoint ensure_loop (fuel n : nat) (h : headReader) (c : conn)
  : option serr * headReader * conn :=
  if decide (n <= length (hbuf h))%nat then (None, h, c)
  else match fuel with
       | O => (Some ErrFuel, h, c)
       | S fuel =>
           let h := if decide (hcap h < n)%nat
                    then MkHead (hbuf h) (Nat.max n (hcap h * 2)) (hmax h) else h in
           let '(h, _, e, c) := fill h c in
           match e with
           | Some e =>
               if bool_decide (e = EOF) && bool_decide (n <= length (hbuf h))%nat
               then (None, h, c) else (Some (ErrRead e), h, c)
           | None => ensure_loop fuel n h c
           end
       end.

(** Fuel: a [Read] either ends a chunk or takes a byte of one. *)
Definition conn_fuel (c : conn) : nat := S (length c + length (concat (map fst c))).

Definition ensure (n : nat) (h : headReader) (c : conn) : option serr * headReader * conn :=
  if decide (hmax h < n)%nat then (Some (ErrHeadTooLarge n), h, c)
  else ensure_loop (conn_fuel c) n h c.

Definition readMore (h : headReader) (c : conn) : option serr * headReader * conn :=
  if decide (hmax h <= length (hbuf h))%nat
  then (Some (ErrHeadTooLarge (length (hbuf h))), h, c)
  else
    let h := if decide (length (hbuf h) = hcap h)
             then MkHead (hbuf h) (Nat.min (Nat.max (hcap h * 2) 1024) (hmax h)) (hmax h)
             else h in
    let '(h, n, e, c) := fill h c in
    match e with
    | Some e => (Some (ErrRead e), h, c)
    | None => if (n =? 0)%nat then (Some ErrNoProgress, h, c) else (None, h, c)
    end.

(** ** HTTP *)

Definition CRLF : bytes := [x0d; x0a].
Definition CRLF2 : bytes := [x0d; x0a; x0d; x0a].
Definition h2cPreface : bytes := go "PRI * HTTP/2.0" ++ CRLF.

Record HTTPInfo := MkHTTPInfo { Host : bytes; Method : bytes; Path : bytes; Consumed : bytes }.

Definition cutCRLF (b : bytes) : bytes * bytes :=
  match Index b CRLF with
  | Some idx => (take idx b, drop (idx + 2) b)
  | None => (b, [])
  end.

Definition asciiEqualFold (b want : bytes) : bool :=
  (length b =? length want)%nat && bool_decide (lower_byte <$> b = want).

(** The loop that reads until the blank line: where the head ends. *)
Fixpoint http_head (fuel : nat) (h : headReader) (c : conn)
  : res serr nat * headReader * conn :=
  match fuel with
  | O => (Err ErrFuel, h, c)
  | S fuel =>
      match readMore h c with
      | (Some e, h, c) =>
          match Index (hbuf h) CRLF2 with
          | Some idx => (Ok (idx + 4)%nat, h, c)
          | None => (Err e, h, c)
          end
      | (None, h, c) =>
          match Index (hbuf h) CRLF2 with
          | Some idx => (Ok (idx + 4)%nat, h, c)
          | None => http_head fuel h c
          end
      end
  end.

Section sniff.
Context `{Unicode} `{Idna}.

(** The header lines after the request line. *)
Fixpoint header_loop (fuel : nat) (info : HTTPInfo) (rest : bytes)
  : HTTPInfo * option serr :=
  match rest with
  | [] => (info, Some ErrNoHost)
  | _ =>
      match fuel with
      | O => (info, Some ErrFuel)
      | S fuel =>
          let '(line, rest) := cutCRLF rest in
          let '(name, value, found) := Cut line [colon] in
          if negb found then header_loop fuel info rest
          else if negb (asciiEqualFold (TrimSpace name) (go "host"))
          then header_loop fuel info rest
          else match NormaliseHost (TrimSpace value) with
               | Err e => (info, Some (ErrHost e))
               | Ok host =>
                   (MkHTTPInfo host (Method info) (Path info) (Consumed info), None)
               end
      end
  end.

(** What follows the reading: everything is computed from the head. *)
Definition parse_http (raw : bytes) (headerEnd : nat) : HTTPInfo * option serr :=
  let info := MkHTTPInfo [] [] [] raw in
  if HasPrefix raw h2cPreface then (info, Some (ErrSniff (go "h2c")))
  else
    let '(line, rest) := cutCRLF (take headerEnd raw) in
    if bool_decide (line = []) then (info, Some (ErrSniff (go "empty request line")))
    else
      let '(method, afterMethod, ok) := Cut line [x20] in
      let '(path, _, ok2) := Cut afterMethod [x20] in
      if negb ok || negb ok2 || bool_decide (method = []) || bool_decide (path = [])
      then (info, Some (ErrSniff (go "malformed request line")))
      else header_loop (length rest) (MkHTTPInfo [] method path raw) rest.

Definition SniffHTTP (cap : nat) (c : conn) : HTTPInfo * option serr * conn :=
  match http_head (conn_fuel c) (newHeadReader cap MaxHTTPHead) c with
  | (Err e, h, c) => (MkHTTPInfo [] [] [] (hbuf h), Some e, c)
  | (Ok headerEnd, h, c) => (parse_http (hbuf h) headerEnd, c)
  end.
End sniff.

(** ** TLS *)

(** A [byteReader] is what remains of its buffer. *)
Definition skip (n : nat) (r : bytes) : option (bytes * bytes) :=
  if decide (n <= length r)%nat then Some (take n r, drop n r) else None.
Definition u8 (r : bytes) : option (Z * bytes) :=
  '(b, r) ← skip 1 r; Some (be_get b, r).
Definition u16 (r : bytes) : option (Z * bytes) :=
  '(b, r) ← skip 2 r; Some (be_get b, r).
Definition u24 (r : bytes) : option (Z * bytes) :=
  '(b, r) ← skip 3 r; Some (be_get b, r).
Definition vector8 (r : bytes) : option (bytes * bytes) :=
  '(n, r) ← u8 r; skip (Z.to_nat n) r.
Definition vector16 (r : bytes) : option (bytes * bytes) :=
  '(n, r) ← u16 r; skip (Z.to_nat n) r.

Definition recordTypeHandshake : Z := 22.
Definition handshakeClientHello : Z := 1.
Definition extensionServerName : Z := 0.
Definition sniTypeHostName : Z := 0.
Definition tlsRecordHeaderSize : nat := 5.
Definition tlsRandomSize : nat := 32.

(** [if x, ok := f(); !ok { return error }]. *)
Definition need {A} (what : bytes) (o : option A) : res serr A :=
  match o with Some a => Ok a | None => Err (ErrSniff what) end.

(** The entries of the server name list. *)
Fixpoint name_loop (fuel : nat) (entries : bytes) : res serr bytes :=
  match entries with
  | [] => Ok []
  | _ =>
      match fuel with
      | O => Err ErrFuel
      | S fuel =>
          '(nameType, entries) ← need (go "truncated server name type") (u8 entries);
          '(value, entries) ← need (go "truncated server name") (vector16 entries);
          if nameType =? sniTypeHostName then Ok value else name_loop fuel entries
      end
  end.

Fixpoint ext_loop (fuel : nat) (ext : bytes) : res serr bytes :=
  match ext with
  | [] => Ok []
  | _ =>
      match fuel with
      | O => Err ErrFuel
      | S fuel =>
          '(extType, ext) ← need (go "truncated extension type") (u16 ext);
          '(extData, ext) ← need (go "truncated extension body") (vector16 ext);
          if negb (extType =? extensionServerName) then ext_loop fuel ext
          else
            '(names, _) ← need (go "truncated server name list") (vector16 extData);
            name_loop (length names) names
      end
  end.

Definition parseClientHello (body : bytes) : res serr bytes :=
  match u8 body with
  | None => Err (ErrSniff (go "expected ClientHello"))
  | Some (msgType, r) =>
      if negb (msgType =? handshakeClientHello) then Err (ErrSniff (go "expected ClientHello"))
      else
        '(_, r) ← need (go "truncated ClientHello length") (u24 r);
        '(_, r) ← need (go "truncated ClientHello version") (skip 2 r);
        '(_, r) ← need (go "truncated ClientHello random") (skip tlsRandomSize r);
        '(_, r) ← need (go "truncated session id") (vector8 r);
        '(_, r) ← need (go "truncated cipher suites") (vector16 r);
        '(_, r) ← need (go "truncated compression methods") (vector8 r);
        match vector16 r with
        | None => Ok []
        | Some (extensions, _) => ext_loop (length extensions) extensions
        end
  end.

Record TLSInfo := MkTLSInfo { ServerName : bytes; t_Consumed : bytes }.

Section tls.
Context `{Unicode} `{Idna}.

(** The record once it has arrived whole. *)
Definition parse_tls (raw : bytes) (total : nat) : TLSInfo * option serr :=
  match parseClientHello (drop tlsRecordHeaderSize (take total raw)) with
  | Err e => (MkTLSInfo [] raw, Some e)
  | Ok name =>
      if bool_decide (name = []) then (MkTLSInfo [] raw, None)
      else match NormaliseHost name with
           | Err e => (MkTLSInfo [] raw, Some (ErrHost e))
           | Ok normalised => (MkTLSInfo normalised raw, None)
           end
  end.

Definition SniffTLS (cap : nat) (c : conn) : TLSInfo * option serr * conn :=
  match ensure tlsRecordHeaderSize (newHeadReader cap MaxTLSHead) c with
  | (Some e, h, c) => (MkTLSInfo [] (hbuf h), Some e, c)
  | (None, h, c) =>
      let raw := hbuf h in
      let b0 := default x00 (raw !! 0%nat) in
      if negb (b2z b0 =? recordTypeHandshake)
      then (MkTLSInfo [] raw, Some (ErrRecordType b0), c)
      else
        let recordLen := Z.to_nat (be_get (take 2 (drop 3 raw))) in
        if (recordLen =? 0)%nat then (MkTLSInfo [] raw, Some (ErrSniff (go "empty TLS record")), c)
        else
          let total := (tlsRecordHeaderSize + recordLen)%nat in
          match ensure total h c with
          | (Some e, h, c) => (MkTLSInfo [] (hbuf h), Some e, c)
          | (None, h, c) => (parse_tls (hbuf h) total, c)
          end
  end.
End tls.

(** ** Lemmas: reading never loses a byte *)

Lemma Read_sent k c :
  let '(b, _, c') := Read k c in sent c = b ++ sent c'.
Proof.
  destruct c as [|[b e] c]; simpl; [done|].
  case_decide; destruct e; simpl; rewrite ?app_nil_r, ?app_assoc, ?take_drop; done.
Qed.

(** What has been read and what is still to come. *)
Definition all_bytes (h : headReader) (c : conn) : bytes := hbuf h ++ sent c.

(** The shape every head reader keeps: the buffer fits its capacity, and the
    limit does not change. *)
Definition capB : nat := Z.to_nat 32776.
Definition head_ok (max : nat) (h : headReader) : Prop :=
  hmax h = max /\ (length (hbuf h) <= hcap h)%nat /\ (hcap h <= capB)%nat.

Lemma fill_spec max h c :
  head_ok max h ->
  let '(h', n, e, c') := fill h c in
  all_bytes h' c' = all_bytes h c /\ head_ok max h' /\ (length (hbuf h') = length (hbuf h) + n)%nat.
Proof.
  intros (Hm & Hl & Hc). unfold fill.
  pose proof (Read_sent (hcap h - length (hbuf h)) c) as Hs.
  assert (Hb : (length (Read (hcap h - length (hbuf h)) c).1.1 <= hcap h - length (hbuf h))%nat).
  { destruct c as [|[b e] c]; simpl; [lia|]. case_decide; [destruct e; simpl; lia|].
    simpl. rewrite length_take. lia. }
  destruct (Read _ c) as [[b e] c']. cbn [fst] in Hb. unfold all_bytes, head_ok.
  cbn [hbuf hcap hmax]. rewrite Hs, app_assoc, length_app. repeat split; try done; lia.
Qed.

(** The measure that bounds the number of reads. *)
Definition conn_size (c : conn) : nat := length c + length (concat (map fst c)).

Lemma Read_decreases k c b c' :
  (0 < k)%nat -> Read k c = (b, None, c') -> (conn_size c' < conn_size c)%nat.
Proof.
  intros Hk. unfold conn_size. destruct c as [|[b' e] c]; simpl; [done|].
  case_decide; [destruct e; [done|]|]; intros [= <- <-]; simpl; rewrite ?length_app; [lia|].
  rewrite length_drop. lia.
Qed.

Lemma grow_ok max h cap :
  head_ok max h -> (length (hbuf h) <= cap)%nat -> (cap <= capB)%nat ->
  head_ok max (MkHead (hbuf h) cap (hmax h)).
Proof. intros (Hm & _ & _) ? ?. by repeat split. Qed.

Lemma fill_decreases h c :
  (length (hbuf h) < hcap h)%nat ->
  let '(_, _, e, c') := fill h c in e = None -> (conn_size c' < conn_size c)%nat.
Proof.
  intros H. unfold fill. destruct (Read _ c) as [[b e] c'] eqn:HR. intros ->.
  eapply Read_decreases; [|done]. lia.
Qed.

(** [Read] hands over what a caller with no room cannot take, and an error only
    ever comes alone. *)
Definition well_behaved (c : conn) : Prop :=
  Forall (fun p => match p.2 with None => p.1 <> [] | Some _ => p.1 = [] end) c.

Lemma Read_well_behaved k c b e c' :
  (0 < k)%nat -> well_behaved c -> Read k c = (b, e, c') ->
  well_behaved c' /\ match e with None => b <> [] | Some _ => b = [] /\ sent c = [] end.
Proof.
  intros Hk Hw. destruct c as [|[b' e'] c]; simpl.
  { intros [= <- <- <-]. done. }
  inversion Hw as [|? ? Hb Hc]; subst; simpl in Hb.
  case_decide as Hlen; [destruct e'|]; intros [= <- <- <-].
  - subst. split; [|done]. by constructor.
  - done.
  - destruct e'; [by subst; simpl in Hlen; lia|]. split.
    + constructor; [|done]. simpl. intros E. apply (f_equal length) in E.
      rewrite length_drop in E. simpl in E. lia.
    + intros E. apply (f_equal length) in E. rewrite length_take in E. simpl in E.
      destruct k; [lia|]. destruct b'; simpl in *; [done|lia].
Qed.

Lemma fill_well_behaved h c :
  (length (hbuf h) < hcap h)%nat -> well_behaved c ->
  let '(h', n, e, c') := fill h c in
  well_behaved c' /\ match e with
                     | None => (0 < n)%nat
                     | Some _ => n = 0%nat /\ sent c = [] /\ hbuf h' = hbuf h
                     end.
Proof.
  intros H Hw. unfold fill.
  destruct (Read (hcap h - length (hbuf h)) c) as [[b e] c'] eqn:HR. simpl.
  eapply Read_well_behaved in HR as [Hw' Hb]; [|lia|done]. split; [done|].
  destruct e; [destruct Hb as [-> ?]; by rewrite app_nil_r|].
  destruct b; simpl; [done|lia].
Qed.

(** *** ensure *)

Lemma ensure_loop_spec fuel max n h c :
  head_ok max h -> (n <= max)%nat -> (max <= MaxTLSHead)%nat -> (conn_size c < fuel)%nat ->
  let '(e, h', c') := ensure_loop fuel n h c in
  all_bytes h' c' = all_bytes h c /\ head_ok max h' /\ e <> Some ErrFuel
  /\ (e = None -> (n <= length (hbuf h'))%nat)
  /\ (well_behaved c -> well_behaved c' /\ ((n <= length (all_bytes h c))%nat -> e = None)).
Proof.
  revert h c. induction fuel as [|fuel IH]; intros h c Hok Hn Hmax Hfuel; [lia|].
  cbn [ensure_loop]. case_decide as Hlen; [by (split_and!; try done; apply Hok)|].
  set (h1 := if decide (hcap h < n)%nat then _ else h).
  assert (H1 : head_ok max h1 /\ hbuf h1 = hbuf h /\ (length (hbuf h1) < hcap h1)%nat).
  { unfold h1. case_decide as Hcap.
    - split; [|cbn; split; [done|lia]]. destruct Hok as (? & ? & ?).
      apply grow_ok; [by repeat split|lia|]. unfold capB, MaxTLSHead in *.
      change (Z.shiftl 16 10) with 16384 in *. lia.
    - split; [done|]. split; [done|]. destruct Hok. lia. }
  destruct H1 as (Hok1 & Hbuf1 & Hroom).
  pose proof (fill_spec max h1 c Hok1) as Hf. pose proof (fill_decreases h1 c Hroom) as Hd.
  pose proof (fill_well_behaved h1 c Hroom) as Hwb.
  destruct (fill h1 c) as [[[h2 k] e] c2]. destruct Hf as (Hall & Hok2 & Hlen2).
  assert (Hall1 : all_bytes h1 c = all_bytes h c) by (unfold all_bytes; by rewrite Hbuf1).
  destruct e as [e|].
  - assert (Herr : well_behaved c -> well_behaved c2 /\ ((n <= length (all_bytes h c))%nat -> False)).
    { intros Hw. destruct (Hwb Hw) as (Hw2 & Hk & Hs & Hb). split; [done|].
      unfold all_bytes. rewrite Hs, app_nil_r. lia. }
    destruct (bool_decide (e = EOF) && _) eqn:E; bool_facts.
    + split; [congruence|]. split; [done|]. split; [done|]. split; [done|].
      intros Hw. by destruct (Herr Hw).
    + split; [congruence|]. split; [done|]. split; [done|]. split; [done|].
      intros Hw. destruct (Herr Hw) as [Hw2 Hx]. split; [exact Hw2|]. intros Hge. by destruct (Hx Hge).
  - specialize (IH h2 c2 Hok2 Hn Hmax ltac:(specialize (Hd eq_refl); lia)).
    destruct (ensure_loop fuel n h2 c2) as [[e3 h3] c3].
    destruct IH as (Ha & Ho & Hnf & Hfull & Hw3).
    split; [congruence|]. split; [done|]. split; [done|]. split; [done|].
    intros Hw. destruct (Hwb Hw) as [Hw2 _]. destruct (Hw3 Hw2) as [? Hx]. split; [done|].
    intros ?. apply Hx. by rewrite Hall, Hall1.
Qed.

Lemma ensure_spec max n h c :
  head_ok max h -> (max <= MaxTLSHead)%nat ->
  let '(e, h', c') := ensure n h c in
  all_bytes h' c' = all_bytes h c /\ head_ok max h' /\ e <> Some ErrFuel
  /\ (e = None -> (n <= length (hbuf h'))%nat)
  /\ (well_behaved c -> (n <= max)%nat ->
      well_behaved c' /\ ((n <= length (all_bytes h c))%nat -> e = None)).
Proof.
  intros Hok Hmax. unfold ensure. case_decide as Hn.
  - repeat split; try done; try apply Hok. destruct Hok as [<- _]. lia.
  - destruct Hok as (Hm & Hok).
    pose proof (ensure_loop_spec (conn_fuel c) max n h c) as Hs.
    destruct (ensure_loop _ n h c) as [[e h'] c'].
    destruct Hs as (? & ? & ? & ? & Hw); [by split|lia|done|unfold conn_fuel, conn_size; lia|].
    repeat split; try done; try apply H0; intros; by apply Hw.
Qed.

(** *** readMore *)

Lemma readMore_spec max h c :
  head_ok max h -> (max <= MaxTLSHead)%nat ->
  let '(e, h', c') := readMore h c in
  all_bytes h' c' = all_bytes h c /\ head_ok max h' /\ e <> Some ErrFuel
  /\ (e = None -> (conn_size c' < conn_size c)%nat)
  /\ (well_behaved c -> well_behaved c'
      /\ (e <> None -> (max <= length (hbuf h'))%nat \/ sent c' = [])).
Proof.
  intros Hok Hmax. unfold readMore. case_decide as Hlen.
  { destruct Hok as (Hm & Hl & Hc). split_and!; try done.
    intros Hw. split; [done|]. left. lia. }
  set (h1 := if decide (length (hbuf h) = hcap h) then _ else h).
  assert (H1 : head_ok max h1 /\ hbuf h1 = hbuf h /\ (length (hbuf h1) < hcap h1)%nat).
  { unfold h1. destruct Hok as (Hm & Hl & Hc). case_decide as Hcap.
    - split; [apply grow_ok; [by repeat split|lia|]|cbn; split; [done|lia]].
      unfold capB, MaxTLSHead in *. change (Z.shiftl 16 10) with 16384 in *. lia.
    - split_and!; try done. lia. }
  destruct H1 as (Hok1 & Hbuf1 & Hroom).
  pose proof (fill_spec max h1 c Hok1) as Hf. pose proof (fill_decreases h1 c Hroom) as Hd.
  pose proof (fill_well_behaved h1 c Hroom) as Hwb.
  assert (Hall1 : all_bytes h1 c = all_bytes h c) by (unfold all_bytes; by rewrite Hbuf1).
  destruct (fill h1 c) as [[[h2 k] e] c2] eqn:Hfill. destruct Hf as (Hall & Hok2 & Hlen2).
  destruct e as [e|].
  - split_and!; try done; [congruence|]. intros Hw. destruct (Hwb Hw) as (Hw2 & Hk & Hs & Hb).
    split; [done|]. intros _. right.
    unfold all_bytes in Hall. rewrite Hb, Hs in Hall. by apply app_inv_head in Hall.
  - destruct (Nat.eqb_spec k 0) as [Ek|Ek].
    + split_and!; try done; [congruence|]. intros Hw. destruct (Hwb Hw) as [? Hk0]. cbn in Hk0. lia.
    + split_and!; try done; [congruence| |]; intros Hw; [by apply Hd|].
      split; [by apply Hwb|done].
Qed.

(** *** Reading the request head *)

Lemma http_head_spec fuel max h c :
  head_ok max h -> (max <= MaxTLSHead)%nat -> (conn_size c < fuel)%nat ->
  let '(r, h', c') := http_head fuel h c in
  all_bytes h' c' = all_bytes h c /\ head_ok max h' /\ r <> Err ErrFuel
  /\ (forall k, r = Ok k -> exists i, k = (i + 4)%nat /\ Index (hbuf h') CRLF2 = Some i)
  /\ (well_behaved c -> forall i, Index (all_bytes h c) CRLF2 = Some i -> (i + 4 <= max)%nat ->
      is_ok r = true).
Proof.
  revert h c. induction fuel as [|fuel IH]; intros h c Hok Hmax Hfuel; [lia|].
  cbn [http_head]. pose proof (readMore_spec max h c Hok Hmax) as Hr.
  destruct (readMore h c) as [[e h1] c1]. destruct Hr as (Hall & Hok1 & Hne & Hd & Hw).
  destruct (Index (hbuf h1) CRLF2) as [idx|] eqn:Hidx.
  { destruct e as [e|]; split_and!; try done; intros k Hk%(inj Ok); eauto. }
  destruct e as [e|].
  - split_and!; try done; [congruence|].
    intros Hwb i Hi Hl. exfalso. destruct (Hw Hwb) as [_ Hend].
    rewrite <- Hall in Hi. unfold all_bytes in Hi. destruct (Hend ltac:(done)) as [Hfull|Hs].
    + eapply Index_prefix in Hi; [congruence|]. unfold CRLF2; cbn [length]. lia.
    + rewrite Hs, app_nil_r in Hi. congruence.
  - specialize (IH h1 c1 Hok1 Hmax ltac:(specialize (Hd eq_refl); lia)).
    destruct (http_head fuel h1 c1) as [[r h2] c2].
    destruct IH as (Ha & Ho & Hnf & Hk & Hw2).
    split_and!; try done; [congruence|]. intros Hwb. destruct (Hw Hwb) as [Hw1 _].
    rewrite <- Hall. by apply Hw2.
Qed.


(** *** The header lines *)

Lemma cutCRLF_shorter b : b <> [] -> (length (cutCRLF b).2 < length b)%nat.
Proof.
  intros Hb. unfold cutCRLF. destruct (Index b CRLF) as [idx|] eqn:E; cbn [snd].
  - apply Index_bound in E. cbn [length CRLF] in E. rewrite length_drop.
    destruct b; simpl in *; [done|lia].
  - destruct b; simpl; [done|lia].
Qed.

Lemma cutCRLF_line l r : x0d ∉ l -> cutCRLF (l ++ CRLF ++ r) = (l, r).
Proof.
  intros Hl. unfold cutCRLF.
  assert (E : Index (l ++ CRLF ++ r) CRLF = Some (length l)).
  { induction l as [|a l IH].
    - exact (Index_here CRLF r).
    - apply not_elem_of_cons in Hl as [Ha Hl]. specialize (IH Hl). cbn [app length Index].
      unfold CRLF at 2; rewrite HasPrefix_cons_ne by done. by rewrite IH. }
  rewrite E, take_app_length, drop_app_ge by lia.
  by replace (length l + 2 - length l)%nat with 2%nat by lia.
Qed.

Section header.
Context `{Unicode} `{Idna}.

(** What the parser answers, the bytes it keeps for replay aside. *)
Definition answer (r : HTTPInfo * option serr) : bytes * bytes * bytes * option serr :=
  (Host r.1, Method r.1, Path r.1, r.2).

Lemma header_loop_step fuel info rest :
  rest <> [] ->
  header_loop (S fuel) info rest
  = (let '(line, rest) := cutCRLF rest in
     let '(name, value, found) := Cut line [colon] in
     if negb found then header_loop fuel info rest
     else if negb (asciiEqualFold (TrimSpace name) (go "host"))
     then header_loop fuel info rest
     else match NormaliseHost (TrimSpace value) with
          | Err e => (info, Some (ErrHost e))
          | Ok host => (MkHTTPInfo host (Method info) (Path info) (Consumed info), None)
          end).
Proof. by destruct rest. Qed.

Lemma header_loop_spec fuel info rest :
  (length rest <= fuel)%nat ->
  (header_loop fuel info rest).2 <> Some ErrFuel
  /\ Consumed (header_loop fuel info rest).1 = Consumed info.
Proof.
  revert rest; induction fuel as [|fuel IH]; intros rest Hf.
  { destruct rest; simpl in *; [done|lia]. }
  destruct (decide (rest = [])) as [->|Hne]; [done|]. rewrite header_loop_step by done.
  pose proof (cutCRLF_shorter rest Hne) as Hs.
  destruct (cutCRLF rest) as [line rest2]. cbn [snd] in Hs.
  specialize (IH rest2 ltac:(lia)).
  destruct (Cut line [colon]) as [[name value] found].
  destruct (negb found); [exact IH|]. destruct (negb _); [exact IH|].
  by destruct (NormaliseHost _).
Qed.

Lemma header_loop_answer fuel info info' rest :
  answer (info, None) = answer (info', None) ->
  answer (header_loop fuel info rest) = answer (header_loop fuel info' rest).
Proof.
  intros Hi. unfold answer in Hi; cbn [fst snd] in Hi.
  revert rest; induction fuel as [|fuel IH]; intros rest.
  { destruct rest; cbn [header_loop]; unfold answer; cbn [fst snd]; congruence. }
  destruct (decide (rest = [])) as [->|Hne].
  { unfold answer; cbn [header_loop fst snd]; congruence. }
  rewrite !header_loop_step by done. destruct (cutCRLF _) as [line rest2].
  destruct (Cut line [colon]) as [[name value] found].
  destruct (negb found); [done|]. destruct (negb _); [done|].
  destruct (NormaliseHost _); unfold answer; cbn [fst snd Host Method Path]; congruence.
Qed.

(** More fuel than the length changes nothing. *)
Lemma header_loop_fuel fuel fuel' info rest :
  (length rest <= fuel)%nat -> (length rest <= fuel')%nat ->
  header_loop fuel info rest = header_loop fuel' info rest.
Proof.
  revert fuel' rest; induction fuel as [|fuel IH]; intros fuel' rest Hf Hf'.
  { destruct rest; simpl in *; [by destruct fuel'|lia]. }
  destruct (decide (rest = [])) as [->|Hne]; [by destruct fuel'|].
  destruct fuel' as [|fuel']; [destruct rest; simpl in *; [done|lia]|].
  rewrite !header_loop_step by done.
  pose proof (cutCRLF_shorter rest Hne) as Hs.
  destruct (cutCRLF rest) as [line rest2]. cbn [snd] in Hs.
  by rewrite (IH fuel' rest2) by lia.
Qed.

Lemma parse_http_spec raw k :
  (parse_http raw k).2 <> Some ErrFuel /\ Consumed (parse_http raw k).1 = raw.
Proof.
  unfold parse_http. destruct (HasPrefix _ _); [done|].
  destruct (cutCRLF _) as [line rest]. case_bool_decide; [done|].
  destruct (Cut line _) as [[method am] ok]. destruct (Cut am _) as [[path ?] ok2].
  destruct (negb ok || _ || _ || _); [done|].
  by apply header_loop_spec.
Qed.

(** The cleartext HTTP/2 preface holds no blank line in its first bytes. *)
Lemma h2c_head raw i :
  Index raw CRLF2 = Some i ->
  HasPrefix raw h2cPreface = HasPrefix (take (i + 4) raw) h2cPreface.
Proof.
  intros Hi. pose proof (Index_bound _ _ _ Hi) as Hb. cbn [length CRLF2] in Hb.
  rewrite <- (take_drop (i + 4) raw) at 1.
  destruct (decide (16 <= i + 4)%nat) as [Hl|Hl].
  { apply HasPrefix_app_l. rewrite length_take. change (length h2cPreface) with 16%nat. lia. }
  rewrite take_drop. transitivity false; [|symmetry]; apply not_true_iff_false; intros Hp.
  - apply HasPrefix_true in Hp as [t Ht].
    apply Index_Some_split in Hi. apply (f_equal (fun l => l !! i)) in Hi.
    rewrite lookup_app_r, length_take in Hi by (rewrite length_take; lia).
    replace (i - i `min` length raw)%nat with 0%nat in Hi by lia.
    rewrite Ht, lookup_app_l in Hi by (change (length h2cPreface) with 16%nat; lia).
    do 12 (destruct i as [|i]; [vm_compute in Hi; discriminate|]). lia.
  - apply HasPrefix_length in Hp. rewrite length_take in Hp.
    change (length h2cPreface) with 16%nat in Hp. lia.
Qed.

(** The answer is a function of the head, not of what follows it. *)
Lemma parse_http_head raw i :
  Index raw CRLF2 = Some i ->
  answer (parse_http raw (i + 4)) = answer (parse_http (take (i + 4) raw) (i + 4)).
Proof.
  intros Hi. unfold parse_http. rewrite (h2c_head raw i Hi), take_take, Nat.min_id.
  destruct (HasPrefix _ _); [done|].
  destruct (cutCRLF _) as [line rest]. case_bool_decide; [done|].
  destruct (Cut line _) as [[method am] ok]. destruct (Cut am _) as [[path ?] ok2].
  destruct (negb ok || _ || _ || _); [done|].
  by apply header_loop_answer.
Qed.
End header.

(** ** Lemmas: the TLS reader *)

(** A ClientHello as a client builds it. *)
Definition vec8 (b : bytes) : bytes := be_put 1 (Z.of_nat (length b)) ++ b.
Definition vec16 (b : bytes) : bytes := be_put 2 (Z.of_nat (length b)) ++ b.
Definition extension (t : Z) (data : bytes) : bytes := be_put 2 t ++ vec16 data.
Definition server_name (name : bytes) : bytes :=
  extension extensionServerName (vec16 (be_put 1 sniTypeHostName ++ vec16 name)).
Definition extensions_of (l : list (Z * bytes)) : bytes :=
  concat ((fun p => extension p.1 p.2) <$> l).

Record hello := MkHello {
  legacy_version : bytes;
  random : bytes;
  session_id : bytes;
  cipher_suites : bytes;
  compression : bytes;
  before : list (Z * bytes);       (* the extensions ahead of the server name *)
  sni : bytes;
  after : bytes                    (* whatever follows it *)
}.
Definition hello_extensions (h : hello) : bytes :=
  extensions_of (before h) ++ server_name (sni h) ++ after h.
Definition hello_body (h : hello) : bytes :=
  legacy_version h ++ random h ++ vec8 (session_id h) ++ vec16 (cipher_suites h)
  ++ vec8 (compression h) ++ vec16 (hello_extensions h).
Definition client_hello (h : hello) : bytes :=
  be_put 1 handshakeClientHello ++ be_put 3 (Z.of_nat (length (hello_body h))) ++ hello_body h.
Definition tls_record (version body : bytes) : bytes :=
  be_put 1 recordTypeHandshake ++ version ++ vec16 body.

Definition hello_ok (h : hello) : Prop :=
  length (legacy_version h) = 2%nat /\ length (random h) = tlsRandomSize
  /\ Z.of_nat (length (session_id h)) < 2 ^ 8 /\ Z.of_nat (length (compression h)) < 2 ^ 8
  /\ Z.of_nat (length (cipher_suites h)) < 2 ^ 16
  /\ Z.of_nat (length (hello_extensions h)) < 2 ^ 16
  /\ Forall (fun p => 0 < p.1 < 2 ^ 16 /\ Z.of_nat (length p.2) < 2 ^ 16) (before h)
  /\ sni h <> [].

#[export] Instance hello_ok_dec h : Decision (hello_ok h).
Proof. unfold hello_ok. apply _. Defined.

Lemma skip_app n a r : length a = n -> skip n (a ++ r) = Some (a, r).
Proof.
  intros <-. unfold skip. rewrite decide_True by (rewrite length_app; lia).
  by rewrite take_app_length, drop_app_length.
Qed.

Lemma u8_put z r : 0 <= z < 2 ^ 8 -> u8 (be_put 1 z ++ r) = Some (z, r).
Proof.
  intros Hz. unfold u8. rewrite skip_app by apply length_be_put.
  cbn [mbind option_bind]. by rewrite be_get_put_small.
Qed.
Lemma u16_put z r : 0 <= z < 2 ^ 16 -> u16 (be_put 2 z ++ r) = Some (z, r).
Proof.
  intros Hz. unfold u16. rewrite skip_app by apply length_be_put.
  cbn [mbind option_bind]. by rewrite be_get_put_small.
Qed.
Lemma u24_put z r : is_Some (u24 (be_put 3 z ++ r)) /\ (forall x, u24 (be_put 3 z ++ r) = Some x -> x.2 = r).
Proof.
  unfold u24. rewrite skip_app by apply length_be_put. cbn [mbind option_bind].
  split; [done|]. by intros x [= <-].
Qed.

Lemma vector8_vec8 b r : Z.of_nat (length b) < 2 ^ 8 -> vector8 (vec8 b ++ r) = Some (b, r).
Proof.
  intros Hb. unfold vector8, vec8. rewrite <- app_assoc, u8_put by lia.
  cbn [mbind option_bind]. by rewrite Nat2Z.id, skip_app.
Qed.
Lemma vector16_vec16 b r : Z.of_nat (length b) < 2 ^ 16 -> vector16 (vec16 b ++ r) = Some (b, r).
Proof.
  intros Hb. unfold vector16, vec16. rewrite <- app_assoc, u16_put by lia.
  cbn [mbind option_bind]. by rewrite Nat2Z.id, skip_app.
Qed.

Lemma vector16_shorter r a r' : vector16 r = Some (a, r') -> (length r' + 2 <= length r)%nat.
Proof.
  unfold vector16, u16, skip. case_decide; [|done]. cbn [mbind option_bind].
  case_decide; [|done]. intros [= <- <-]. rewrite !length_drop in *. lia.
Qed.
Lemma u8_shorter r a r' : u8 r = Some (a, r') -> (length r' + 1 <= length r)%nat.
Proof.
  unfold u8, skip. case_decide; [|done]. cbn [mbind option_bind].
  intros [= <- <-]. rewrite length_drop. lia.
Qed.
Lemma u16_shorter r a r' : u16 r = Some (a, r') -> (length r' + 2 <= length r)%nat.
Proof.
  unfold u16, skip. case_decide; [|done]. cbn [mbind option_bind].
  intros [= <- <-]. rewrite length_drop. lia.
Qed.

Lemma need_bind {A B} what (o : option A) (f : A -> res serr B) :
  (need what o ≫= f) = match o with Some a => f a | None => Err (ErrSniff what) end.
Proof. by destruct o. Qed.

Lemma name_loop_fuel fuel e : (length e <= fuel)%nat -> name_loop fuel e <> Err ErrFuel.
Proof.
  revert e; induction fuel as [|fuel IH]; intros e Hl.
  { by destruct e; simpl in *; [|lia]. }
  destruct e as [|b e0]; [done|]. cbn [name_loop]. rewrite need_bind.
  destruct (u8 (b :: e0)) as [[t e1]|] eqn:E1; [|done]. rewrite need_bind.
  destruct (vector16 e1) as [[v e2]|] eqn:E2; [|done].
  destruct (t =? _); [done|]. apply IH.
  apply u8_shorter in E1. apply vector16_shorter in E2. lia.
Qed.

Lemma ext_loop_fuel fuel e : (length e <= fuel)%nat -> ext_loop fuel e <> Err ErrFuel.
Proof.
  revert e; induction fuel as [|fuel IH]; intros e Hl.
  { by destruct e; simpl in *; [|lia]. }
  destruct e as [|b e0]; [done|]. cbn [ext_loop]. rewrite need_bind.
  destruct (u16 (b :: e0)) as [[t e1]|] eqn:E1; [|done]. rewrite need_bind.
  destruct (vector16 e1) as [[v e2]|] eqn:E2; [|done].
  destruct (negb (t =? _)).
  - apply IH. apply u16_shorter in E1. apply vector16_shorter in E2. lia.
  - rewrite need_bind. destruct (vector16 v) as [[names r]|]; [|done]. by apply name_loop_fuel.
Qed.

Lemma parseClientHello_fuel b : parseClientHello b <> Err ErrFuel.
Proof.
  unfold parseClientHello. destruct (u8 b) as [[t r]|]; [|done].
  destruct (negb _); [done|].
  rewrite need_bind; case_step; [destruct p as [? r1]|done].
  rewrite need_bind; case_step; [destruct p as [? r2]|done].
  rewrite need_bind; case_step; [destruct p as [? r3]|done].
  rewrite need_bind; case_step; [destruct p as [? r4]|done].
  rewrite need_bind; case_step; [destruct p as [? r5]|done].
  rewrite need_bind; case_step; [destruct p as [? r6]|done].
  destruct (vector16 r6) as [[exts ?]|]; [by apply ext_loop_fuel|done].
Qed.

Lemma ext_loop_extension fuel t data r :
  0 <= t < 2 ^ 16 -> Z.of_nat (length data) < 2 ^ 16 ->
  ext_loop (S fuel) (extension t data ++ r)
  = if negb (t =? extensionServerName) then ext_loop fuel r
    else '(names, _) ← need (go "truncated server name list") (vector16 data);
         name_loop (length names) names.
Proof.
  intros Ht Hd. unfold extension. rewrite <- app_assoc.
  destruct (be_put 2 t ++ vec16 data ++ r) as [|b l] eqn:E.
  { apply (f_equal length) in E. rewrite length_app, length_be_put in E. simpl in E. lia. }
  cbn [ext_loop]. rewrite <- E, need_bind, u16_put by done.
  by rewrite need_bind, vector16_vec16.
Qed.

Lemma server_name_length name : (length (server_name name) = 9 + length name)%nat.
Proof.
  unfold server_name, extension, vec16. rewrite !length_app, !length_be_put. lia.
Qed.

Lemma ext_loop_finds fuel l name r :
  Forall (fun p => 0 < p.1 < 2 ^ 16 /\ Z.of_nat (length p.2) < 2 ^ 16) l ->
  (length (extensions_of l ++ server_name name ++ r) <= fuel)%nat ->
  Z.of_nat (length name) + 5 < 2 ^ 16 ->
  ext_loop fuel (extensions_of l ++ server_name name ++ r) = Ok name.
Proof.
  intros Hl. revert fuel. induction Hl as [|[t d] l [Ht Hd] Hl IH]; intros fuel Hf Hn.
  - cbn [extensions_of fmap list_fmap concat app] in *. rewrite length_app, server_name_length in Hf.
    destruct fuel as [|fuel]; [lia|]. unfold server_name.
    rewrite ext_loop_extension; [|unfold extensionServerName; lia|].
    2: { unfold vec16. rewrite !length_app, !length_be_put. lia. }
    rewrite Z.eqb_refl. cbn [negb].
    rewrite need_bind, <- (app_nil_r (vec16 (be_put 1 _ ++ _))), vector16_vec16.
    2: { unfold vec16. rewrite !length_app, !length_be_put. lia. }
    destruct (be_put 1 sniTypeHostName ++ vec16 name) as [|b e] eqn:E.
    { apply (f_equal length) in E. rewrite length_app, length_be_put in E. simpl in E. lia. }
    cbn [length name_loop]. rewrite <- E, need_bind, u8_put by (unfold sniTypeHostName; lia).
    by rewrite need_bind, <- (app_nil_r (vec16 name)), vector16_vec16 by lia.
  - cbn [fst snd] in *.
    change (extensions_of ((t, d) :: l)) with (extension t d ++ extensions_of l) in *.
    rewrite <- app_assoc in Hf |- *. rewrite length_app in Hf.
    assert (length (extension t d) = 4 + length d)%nat.
    { unfold extension, vec16. rewrite !length_app, !length_be_put. lia. }
    destruct fuel as [|fuel]; [lia|]. rewrite ext_loop_extension by lia.
    destruct (t =? extensionServerName) eqn:Et; [unfold extensionServerName in Et; lia|].
    apply IH; lia.
Qed.

Lemma parseClientHello_finds h :
  hello_ok h -> parseClientHello (client_hello h) = Ok (sni h).
Proof.
  intros (Hv & Hr & Hs & Hc & Hcs & He & Hb & Hn).
  assert (Hsni : Z.of_nat (length (sni h)) + 5 < 2 ^ 16).
  { unfold hello_extensions in He. rewrite !length_app, server_name_length in He. lia. }
  unfold parseClientHello, client_hello.
  rewrite u8_put by (unfold handshakeClientHello; lia). rewrite Z.eqb_refl. cbn [negb].
  rewrite need_bind. destruct (u24_put (Z.of_nat (length (hello_body h))) (hello_body h)) as [[[z r] Hz] Hx].
  rewrite Hz. specialize (Hx _ Hz). cbn [snd] in Hx. subst r. unfold hello_body.
  rewrite need_bind, skip_app by done.
  rewrite need_bind, skip_app by done.
  rewrite need_bind, vector8_vec8 by done.
  rewrite need_bind, vector16_vec16 by done.
  rewrite need_bind, vector8_vec8 by done.
  rewrite <- (app_nil_r (vec16 (hello_extensions h))), vector16_vec16 by done.
  by apply ext_loop_finds.
Qed.

Lemma conn_fuel_size c : (conn_size c < conn_fuel c)%nat.
Proof. unfold conn_fuel, conn_size. lia. Qed.

Lemma new_head_ok cap max : (cap <= capB)%nat -> head_ok max (newHeadReader cap max).
Proof. intros H. split_and!; [done|simpl; lia|done]. Qed.

Lemma MaxHTTPHead_le : (MaxHTTPHead <= MaxTLSHead)%nat.
Proof. unfold MaxHTTPHead, MaxTLSHead. change (Z.shiftl 16 10) with 16384. lia. Qed.

Section properties.
Context `{Unicode} `{Idna}.

Lemma parse_tls_spec raw total :
  (parse_tls raw total).2 <> Some ErrFuel /\ t_Consumed (parse_tls raw total).1 = raw.
Proof.
  unfold parse_tls. destruct (parseClientHello _) as [name|e] eqn:E.
  - case_bool_decide; [done|]. by destruct (NormaliseHost name).
  - split; [|done]. intros [= ->]. by apply parseClientHello_fuel in E.
Qed.

Lemma SniffTLS_spec cap c :
  (cap <= capB)%nat ->
  let '(info, e, c') := SniffTLS cap c in
  t_Consumed info ++ sent c' = sent c /\ (length (t_Consumed info) <= capB)%nat
  /\ e <> Some ErrFuel.
Proof.
  intros Hcap. unfold SniffTLS.
  pose proof (ensure_spec MaxTLSHead tlsRecordHeaderSize (newHeadReader cap MaxTLSHead) c
                (new_head_ok _ _ Hcap) ltac:(done)) as H1.
  destruct (ensure tlsRecordHeaderSize _ c) as [[e1 h1] c1].
  destruct H1 as (Ha1 & Hok1 & Hf1 & _). unfold all_bytes in Ha1. cbn [hbuf newHeadReader app] in Ha1.
  assert (Hlen1 : (length (hbuf h1) <= capB)%nat) by (destruct Hok1 as (_ & ? & ?); lia).
  destruct e1 as [e1|]; [done|]. destruct (negb _); [done|]. destruct (_ =? 0)%nat; [done|].
  pose proof (ensure_spec MaxTLSHead
    (tlsRecordHeaderSize + Z.to_nat (be_get (take 2 (drop 3 (hbuf h1))))) h1 c1 Hok1 ltac:(done)) as H2.
  destruct (ensure _ h1 c1) as [[e2 h2] c2].
  destruct H2 as (Ha2 & Hok2 & Hf2 & _). unfold all_bytes in Ha2.
  assert (Hlen2 : (length (hbuf h2) <= capB)%nat) by (destruct Hok2 as (_ & ? & ?); lia).
  destruct e2 as [e2|]; [cbn [t_Consumed]; split_and!; [congruence|done|done]|].
  destruct (parse_tls (hbuf h2) _) as [info e] eqn:Ep.
  destruct (parse_tls_spec (hbuf h2) (tlsRecordHeaderSize + Z.to_nat (be_get (take 2 (drop 3 (hbuf h1))))))
    as [Hp1 Hp2].
  rewrite Ep in Hp1, Hp2. cbn [fst snd] in *. rewrite Hp2. split_and!; [congruence|done|done].
Qed.

Lemma SniffHTTP_spec cap c :
  (cap <= capB)%nat ->
  let '(info, e, c') := SniffHTTP cap c in
  Consumed info ++ sent c' = sent c /\ (length (Consumed info) <= capB)%nat
  /\ e <> Some ErrFuel
  /\ (forall i, well_behaved c -> Index (sent c) CRLF2 = Some i -> (i + 4 <= MaxHTTPHead)%nat ->
      answer (info, e) = answer (parse_http (take (i + 4) (sent c)) (i + 4))).
Proof.
  intros Hcap. unfold SniffHTTP.
  pose proof (http_head_spec (conn_fuel c) MaxHTTPHead (newHeadReader cap MaxHTTPHead) c
                (new_head_ok _ _ Hcap) MaxHTTPHead_le (conn_fuel_size c)) as Hs.
  destruct (http_head _ _ c) as [[r h1] c1]. destruct Hs as (Ha & Hok & Hf & Hk & Hw).
  unfold all_bytes in *. cbn [hbuf newHeadReader app] in *.
  assert (Hlen : (length (hbuf h1) <= capB)%nat) by (destruct Hok as (_ & ? & ?); lia).
  destruct r as [k|e].
  - destruct (Hk k eq_refl) as (j & -> & Hj).
    destruct (parse_http (hbuf h1) (j + 4)) as [info e] eqn:Ep.
    destruct (parse_http_spec (hbuf h1) (j + 4)) as [Hp1 Hp2]. rewrite Ep in Hp1, Hp2.
    cbn [fst snd] in *. rewrite Hp2. split_and!; [done|done|done|].
    intros i Hwb Hi Hmax. rewrite <- Ha in Hi |- *.
    assert (i = j) as -> by (apply (Index_app_l _ (sent c1)) in Hj; congruence).
    rewrite <- Ep. rewrite take_app_le; [by apply parse_http_head|].
    apply Index_bound in Hj. cbn [length CRLF2] in Hj. lia.
  - cbn [Consumed]. split_and!; [done|done|congruence|].
    intros i Hwb Hi Hmax. by specialize (Hw Hwb i Hi Hmax).
Qed.

(** C12: Sniffing loses no byte and always ends: for every peer, however its
    bytes arrive and whatever they are, what SniffHTTP and SniffTLS hand back
    for replay followed by what the connection still holds is exactly what
    the peer sent; the head kept in memory is bounded; and the loops over the
    connection, the headers, the extensions and the names all terminate. *)
Theorem sniffing_loses_nothing cap c :
  (cap <= capB)%nat ->
  let http := SniffHTTP cap c in
  let tls := SniffTLS cap c in
  (Consumed http.1.1 ++ sent http.2 = sent c /\ (length (Consumed http.1.1) <= capB)%nat
   /\ http.1.2 <> Some ErrFuel)
  /\ (t_Consumed tls.1.1 ++ sent tls.2 = sent c /\ (length (t_Consumed tls.1.1) <= capB)%nat
      /\ tls.1.2 <> Some ErrFuel).
Proof.
  intros Hcap http tls. unfold http, tls.
  pose proof (SniffHTTP_spec cap c Hcap) as Hs. pose proof (SniffTLS_spec cap c Hcap) as Ht.
  destruct (SniffHTTP cap c) as [[info e] c'], (SniffTLS cap c) as [[ti te] tc].
  by destruct Hs as (? & ? & ? & _).
Qed.

(** A request head: the request line, the header lines, the blank line. *)
Definition lines (ls : list bytes) : bytes := concat ((fun l => l ++ CRLF) <$> ls).
Definition request_line (method path proto : bytes) : bytes :=
  method ++ x20 :: path ++ x20 :: proto.
Definition request (method path proto : bytes) (headers : list bytes) : bytes :=
  lines (request_line method path proto :: headers) ++ CRLF.

Definition is_host_line (line : bytes) : bool :=
  let '(name, _, found) := Cut line [colon] in
  found && asciiEqualFold (TrimSpace name) (go "host").

Lemma Index_skip_line l s : x0d ∉ l -> Index (l ++ s) CRLF2 = (fun i => length l + i)%nat <$> Index s CRLF2.
Proof.
  induction l as [|a l IH]; intros Hl; [cbn [app length]; by destruct (Index s CRLF2)|].
  apply not_elem_of_cons in Hl as [Ha Hl]. specialize (IH Hl). cbn [app Index length].
  unfold CRLF2 at 1. rewrite HasPrefix_cons_ne by done. rewrite IH.
  by destruct (Index s CRLF2).
Qed.

Lemma Index_lines ls more :
  ls <> [] -> Forall (fun l => l <> [] /\ x0d ∉ l) ls ->
  Index (lines ls ++ CRLF ++ more) CRLF2 = Some (length (lines ls) - 2)%nat.
Proof.
  induction ls as [|l ls IH]; intros Hne Hls; [done|]. clear Hne.
  inversion Hls as [|? ? [Hl Hcr] Hls']; subst.
  change (lines (l :: ls)) with ((l ++ CRLF) ++ lines ls). rewrite <- !app_assoc.
  rewrite Index_skip_line by done. rewrite !length_app. change (length CRLF) with 2%nat.
  destruct ls as [|l2 ls].
  - change (CRLF ++ lines [] ++ CRLF ++ more) with (CRLF2 ++ more). rewrite Index_here.
    cbn. f_equal. lia.
  - specialize (IH ltac:(done) Hls').
    assert (Hstep : Index (CRLF ++ lines (l2 :: ls) ++ CRLF ++ more) CRLF2
                    = (fun i => 2 + i)%nat <$> Index (lines (l2 :: ls) ++ CRLF ++ more) CRLF2).
    { inversion Hls' as [|? ? [Hl2 Hcr2] _]; subst. destruct l2 as [|b l2]; [done|].
      apply not_elem_of_cons in Hcr2 as [Hb _].
      assert (Hp : HasPrefix (CRLF ++ lines ((b :: l2) :: ls) ++ CRLF ++ more) CRLF2 = false).
      { apply not_true_iff_false. intros [k Hk]%HasPrefix_true. cbn in Hk. congruence. }
      cbn [app CRLF Index] in *. rewrite Hp. unfold CRLF2 at 1.
      rewrite HasPrefix_cons_ne by done. by destruct (Index (lines _ ++ _) CRLF2). }
    rewrite Hstep, IH. cbn [fmap option_fmap option_map]. f_equal.
    enough (2 <= length (lines (l2 :: ls)))%nat by lia.
    change (lines (l2 :: ls)) with ((l2 ++ CRLF) ++ lines ls). rewrite !length_app.
    change (length CRLF) with 2%nat. lia.
Qed.

Lemma header_loop_finds fuel info pre name value post v :
  Forall (fun l => x0d ∉ l /\ is_host_line l = false) pre ->
  x0d ∉ name ++ colon :: value -> colon ∉ name ->
  asciiEqualFold (TrimSpace name) (go "host") = true ->
  NormaliseHost (TrimSpace value) = Ok v ->
  (length (lines (pre ++ (name ++ colon :: value) :: post) ++ CRLF) <= fuel)%nat ->
  header_loop fuel info (lines (pre ++ (name ++ colon :: value) :: post) ++ CRLF)
  = (MkHTTPInfo v (Method info) (Path info) (Consumed info), None).
Proof.
  intros Hpre Hcr Hcol Hname Hv. revert fuel.
  remember (name ++ colon :: value) as hl eqn:Ehl.
  induction Hpre as [|l pre [Hl Hno] Hpre IH]; intros fuel Hf; cbn [app] in *.
  - change (lines (?l :: ?ls)) with ((l ++ CRLF) ++ lines ls) in *.
    rewrite <- !app_assoc in *. rewrite !length_app in Hf. change (length CRLF) with 2%nat in Hf.
    destruct fuel as [|fuel]; [lia|]. rewrite header_loop_step.
    2: { intros E. apply (f_equal length) in E. rewrite !length_app in E. simpl in E. lia. }
    rewrite cutCRLF_line by done. rewrite Ehl, Cut_app by done.
    cbn [negb]. by rewrite Hname, Hv.
  - change (lines (l :: ?ls)) with ((l ++ CRLF) ++ lines ls) in *.
    rewrite <- !app_assoc in *. rewrite 2!length_app in Hf. change (length CRLF) with 2%nat in Hf.
    destruct fuel as [|fuel]; [lia|]. rewrite header_loop_step.
    2: { intros E. apply (f_equal length) in E. rewrite !length_app in E. simpl in E. lia. }
    rewrite cutCRLF_line by done. unfold is_host_line in Hno.
    destruct (Cut l [colon]) as [[n' v'] found].
    destruct found; cbn [negb andb] in *; [rewrite Hno; cbn [negb]|]; apply IH; lia.
Qed.

(** A visitor's request is routed by its Host header, however the
    network cuts it up: when a peer sends a well-formed request head of at
    most MaxHTTPHead bytes and then anything at all, SniffHTTP answers the
    method, the path and the normalised value of the first header named Host
    (in any case of letters, spaces aside), whichever headers come before. *)
Theorem SniffHTTP_finds_host cap c method path proto pre name value post v more :
  (cap <= capB)%nat -> well_behaved c ->
  sent c = request method path proto (pre ++ (name ++ colon :: value) :: post) ++ more ->
  (length (request method path proto (pre ++ (name ++ colon :: value) :: post)) <= MaxHTTPHead)%nat ->
  HasPrefix (request_line method path proto) (go "PRI * HTTP/2.0") = false ->
  method <> [] -> path <> [] -> x20 ∉ method -> x20 ∉ path ->
  Forall (fun l => l <> [] /\ x0d ∉ l)
    (request_line method path proto :: pre ++ (name ++ colon :: value) :: post) ->
  Forall (fun l => is_host_line l = false) pre ->
  colon ∉ name -> asciiEqualFold (TrimSpace name) (go "host") = true ->
  NormaliseHost (TrimSpace value) = Ok v ->
  exists consumed c', SniffHTTP cap c = (MkHTTPInfo v method path consumed, None, c').
Proof.
  intros Hcap Hwb Hsent Hlen Hpri Hm Hp Hms Hps Hls Hpre Hcol Hname Hv.
  pose proof (SniffHTTP_spec cap c Hcap) as Hs.
  destruct (SniffHTTP cap c) as [[info e] c']. destruct Hs as (_ & _ & _ & Hs).
  set (hs := pre ++ (name ++ colon :: value) :: post) in *.
  set (line := request_line method path proto) in *.
  assert (Hreq : request method path proto hs = line ++ CRLF ++ lines hs ++ CRLF).
  { unfold request. change (lines (_ :: hs)) with ((line ++ CRLF) ++ lines hs). by rewrite <- !app_assoc. }
  assert (Hi : Index (sent c) CRLF2 = Some (length (request method path proto hs) - 4)%nat).
  { rewrite Hsent. unfold request. rewrite <- app_assoc, Index_lines by done.
    f_equal. rewrite length_app. change (length CRLF) with 2%nat. fold line. lia. }
  assert (H4 : (length (request method path proto hs) - 4 + 4 = length (request method path proto hs))%nat).
  { rewrite Hreq, !length_app. change (length CRLF) with 2%nat. lia. }
  specialize (Hs _ Hwb Hi ltac:(lia)).
  rewrite H4, Hsent, take_app_length in Hs.
  enough (Hq : answer (parse_http (request method path proto hs) (length (request method path proto hs)))
               = (v, method, path, None)).
  { rewrite Hq in Hs. destruct info as [h m p co]. unfold answer in Hs. cbn in Hs.
    simplify_eq. eauto. }
  inversion Hls as [|? ? [Hl Hcr] Hhs]; subst.
  unfold parse_http. rewrite firstn_all.
  assert (Hh2c : HasPrefix (request method path proto hs) h2cPreface = false).
  { apply not_true_iff_false. intros [k Hk]%HasPrefix_true. apply not_true_iff_false in Hpri.
    apply Hpri, HasPrefix_true. rewrite Hreq in Hk.
    (* the first CR ends the line on both sides *)
    assert (Hc2 := cutCRLF_line line (lines hs ++ CRLF) Hcr). rewrite Hk in Hc2.
    unfold h2cPreface in Hc2. rewrite <- app_assoc in Hc2.
    rewrite cutCRLF_line in Hc2 by (apply not_elem_of_cons; vm_compute; set_solver).
    injection Hc2 as Hc2 _. exists []. by rewrite app_nil_r. }
  rewrite Hh2c, Hreq, cutCRLF_line by done. rewrite bool_decide_false by done.
  unfold line at 1, request_line. rewrite Cut_app, Cut_app by done. cbn [negb orb].
  rewrite !bool_decide_false by done. cbn [orb].
  unfold hs. rewrite (header_loop_finds _ _ pre name value post v); try done.
  - apply Forall_and. split; [|done]. unfold hs in Hhs. apply Forall_app in Hhs as [Hx _].
    eapply Forall_impl; [exact Hx|]. by intros ? [].
  - unfold hs in Hhs. apply Forall_app in Hhs as [_ Hx]. by inversion Hx as [|? ? [] ?].
Qed.

(** What the record header says once five bytes are there, and the body once
    the record is. *)
Definition record_head (version : bytes) (n : nat) : bytes :=
  be_put 1 recordTypeHandshake ++ version ++ be_put 2 (Z.of_nat n).

Lemma tls_record_split version body more :
  tls_record version body ++ more = record_head version (length body) ++ body ++ more.
Proof. unfold tls_record, record_head, vec16. by rewrite <- !app_assoc. Qed.

Lemma record_head_length version n : length version = 2%nat -> length (record_head version n) = 5%nat.
Proof. intros Hv. unfold record_head. by rewrite !length_app, !length_be_put, Hv. Qed.

Lemma record_header_at raw rest version body more :
  raw ++ rest = tls_record version body ++ more ->
  length version = 2%nat -> (5 <= length raw)%nat -> Z.of_nat (length body) < 2 ^ 16 ->
  b2z (default x00 (raw !! 0%nat)) = recordTypeHandshake
  /\ Z.to_nat (be_get (take 2 (drop 3 raw))) = length body.
Proof.
  intros He Hv Hl Hn. rewrite tls_record_split in He.
  assert (H5 : take 5 raw = record_head version (length body)).
  { rewrite <- (take_app_le _ rest) by lia. rewrite He.
    by rewrite take_app_length' by (by rewrite record_head_length). }
  split.
  - rewrite <- (lookup_take_lt _ 5) by lia. by rewrite H5.
  - replace (take 2 (drop 3 raw)) with (drop 3 (take 5 raw)) by (by rewrite take_drop_commute).
    rewrite H5. unfold record_head. rewrite app_assoc, drop_app_length'.
    2: { by rewrite length_app, length_be_put, Hv. }
    rewrite be_get_put_small by (change (256 ^ Z.of_nat 2) with (2 ^ 16); lia). apply Nat2Z.id.
Qed.

Lemma record_body_at raw rest version body more :
  raw ++ rest = tls_record version body ++ more ->
  length version = 2%nat -> (5 + length body <= length raw)%nat ->
  drop 5 (take (5 + length body) raw) = body.
Proof.
  intros He Hv Hl. rewrite <- (take_app_le _ rest) by lia.
  rewrite He, tls_record_split, app_assoc, take_app_length'.
  2: { by rewrite length_app, record_head_length. }
  apply drop_app_length'. by rewrite record_head_length.
Qed.

(** C13: A TLS visitor is routed by the server name of its ClientHello,
    however the network cuts it up: when the peer sends one handshake record
    with a ClientHello (any version, random, session id, cipher suites and
    extensions around the name) and then anything at all, SniffTLS answers
    the normalised host name. *)
Theorem SniffTLS_finds_name cap c version h v more :
  (cap <= capB)%nat -> well_behaved c ->
  sent c = tls_record version (client_hello h) ++ more ->
  length version = 2%nat -> hello_ok h ->
  (length (client_hello h) <= Z.to_nat (16 * 1024))%nat ->
  NormaliseHost (sni h) = Ok v ->
  exists consumed c', SniffTLS cap c = (MkTLSInfo v consumed, None, c').
Proof.
  intros Hcap Hwb Hsent Hver Hh Hlen Hv.
  set (body := client_hello h) in *.
  assert (Hn : Z.of_nat (length body) < 2 ^ 16) by lia.
  assert (Hpos : (0 < length body)%nat).
  { unfold body, client_hello. rewrite length_app, length_be_put. lia. }
  assert (Htot : (length (tls_record version body) = 5 + length body)%nat).
  { unfold tls_record, vec16. rewrite !length_app, !length_be_put, Hver. lia. }
  assert (Hmax : (tlsRecordHeaderSize + length body <= MaxTLSHead)%nat).
  { unfold MaxTLSHead, tlsRecordHeaderSize. change (Z.shiftl 16 10) with 16384. lia. }
  unfold SniffTLS.
  pose proof (ensure_spec MaxTLSHead tlsRecordHeaderSize (newHeadReader cap MaxTLSHead) c
                (new_head_ok _ _ Hcap) ltac:(done)) as H1.
  destruct (ensure tlsRecordHeaderSize _ c) as [[e1 h1] c1].
  destruct H1 as (Ha1 & Hok1 & _ & Hfull1 & Hw1).
  unfold all_bytes in *. cbn [hbuf newHeadReader app] in *.
  destruct (Hw1 Hwb ltac:(unfold tlsRecordHeaderSize in *; lia)) as [Hwb1 He1].
  rewrite He1 in * by (rewrite Hsent, length_app; unfold tlsRecordHeaderSize in *; lia).
  specialize (Hfull1 eq_refl). unfold tlsRecordHeaderSize in Hfull1.
  destruct (record_header_at (hbuf h1) (sent c1) version body more ltac:(congruence) Hver Hfull1 Hn)
    as [Hb0 Hlen2].
  rewrite Hb0, Hlen2, Z.eqb_refl. cbn [negb].
  destruct (Nat.eqb_spec (length body) 0) as [|_]; [lia|].
  pose proof (ensure_spec MaxTLSHead (tlsRecordHeaderSize + length body) h1 c1 Hok1 ltac:(done)) as H2.
  destruct (ensure _ h1 c1) as [[e2 h2] c2].
  destruct H2 as (Ha2 & Hok2 & _ & Hfull2 & Hw2). unfold all_bytes in *.
  destruct (Hw2 Hwb1 Hmax) as [_ He2].
  rewrite He2 in * by (rewrite Ha1, Hsent, length_app; unfold tlsRecordHeaderSize; lia).
  specialize (Hfull2 eq_refl). unfold parse_tls.
  assert (Hbody := record_body_at (hbuf h2) (sent c2) version body more ltac:(congruence) Hver Hfull2).
  unfold tlsRecordHeaderSize in Hbody |- *. rewrite Hbody. unfold body. rewrite parseClientHello_finds by done.
  destruct Hh as (_ & _ & _ & _ & _ & _ & _ & Hne).
  rewrite bool_decide_false by done. rewrite Hv. eauto.
Qed.
End properties.

(** ** Witnesses *)

#[export] Instance well_behaved_dec c : Decision (well_behaved c).
Proof.
  unfold well_behaved. apply Forall_dec. intros [b [e|]]; apply _.
Defined.

(** Cut a stream into chunks of [k] bytes. *)
Fixpoint chunks (fuel k : nat) (b : bytes) : conn :=
  match fuel, b with
  | S fuel, _ :: _ => (take k b, None) :: chunks fuel k (drop k b)
  | _, _ => []
  end.

Definition example_host_line : bytes := go "HOST: blog.example.com".
Definition example_request : bytes :=
  request (go "GET") (go "/a?b=c") (go "HTTP/1.1")
    [go "Accept: */*"; go "no colon"; example_host_line; go "Host: other"].
Definition example_hello : hello :=
  MkHello [x03; x03] (replicate 32 x07) [x01] [x13; x01] [x00] [(10, [x00; x17])]
    (go "blog.example.com") [].

Definition example_conn : conn := chunks 300 7 (example_request ++ go "body").

Lemma sniffing_loses_nothing_witness :
  let http := @SniffHTTP no_unicode ascii_idna 64 example_conn in
  Consumed http.1.1 ++ sent http.2 = sent example_conn.
Proof.
  assert (Hc : (64 <= capB)%nat) by (unfold capB; lia).
  exact (proj1 (proj1 (@sniffing_loses_nothing no_unicode ascii_idna 64 example_conn Hc))).
Defined.

Lemma SniffHTTP_finds_host_witness :
  let U := no_unicode in let I := ascii_idna in
  exists consumed c',
    SniffHTTP 64 example_conn
    = (MkHTTPInfo (go "blog.example.com") (go "GET") (go "/a?b=c") consumed, None, c').
Proof.
  intros U I.
  apply (SniffHTTP_finds_host 64 example_conn (go "GET") (go "/a?b=c") (go "HTTP/1.1")
           [go "Accept: */*"; go "no colon"] (go "HOST") (go " blog.example.com") [go "Host: other"]
           _ (go "body")).
  - unfold capB. lia.
  - by apply (bool_decide_unpack _); vm_compute.
  - by vm_compute.
  - unfold MaxHTTPHead. apply Nat.leb_le. by vm_compute.
  - by vm_compute.
  - done.
  - done.
  - by apply (bool_decide_unpack _); vm_compute.
  - by apply (bool_decide_unpack _); vm_compute.
  - by apply (bool_decide_unpack _); vm_compute.
  - by apply (bool_decide_unpack _); vm_compute.
  - by apply (bool_decide_unpack _); vm_compute.
  - by vm_compute.
  - by vm_compute.
Defined.

Lemma SniffTLS_finds_name_witness :
  let U := no_unicode in let I := ascii_idna in
  exists consumed c',
    SniffTLS 64 (chunks 300 5 (tls_record [x03; x01] (client_hello example_hello) ++ go "more"))
    = (MkTLSInfo (go "blog.example.com") consumed, None, c').
Proof.
  intros U I.
  apply (SniffTLS_finds_name 64 _ [x03; x01] example_hello _ (go "more")).
  - unfold capB. lia.
  - by apply (bool_decide_unpack _); vm_compute.
  - by vm_compute.
  - done.
  - by apply (bool_decide_unpack _); vm_compute.
  - apply Nat.leb_le. by vm_compute.
  - by vm_compute.
Defined.
