(* ===== verification/Limiter.v ===== *)
(** The relay's bandwidth limiter and copy loop: [pkg/netutil] (limit.go and
    splice.go).

    A [Limiter] is its token bucket; [wait] is the critical section together
    with the sleep that follows it, at the time the clock shows.  Tokens and
    durations are [int64] with their wrap-around.  The copy loop runs on a
    script of what the source will deliver, and a destination whose writes may
    start to fail. *)
From S2P Require Import Prelude Stream.

(** ** The token bucket *)

Definition limiterWindow : Z := 100 * Millisecond.
Definition limiterMinChunk : Z := Z.shiftl 4 10.
Definition limiterMaxChunk : Z := Z.shiftl 1 20.

Record Limiter := MkLimiter { rate : Z; tokens : Z; updated : Z }.

Definition burst (l : Limiter) : Z :=
  Z.max (godiv (i64 (rate l * limiterWindow)) Second) limiterMinChunk.

(** The capacity depends on the rate alone. *)
Definition NewLimiter (bytesPerSecond now : Z) : option Limiter :=
  if bytesPerSecond <=? 0 then None
  else let l := MkLimiter bytesPerSecond 0 now in
       Some (MkLimiter bytesPerSecond (burst l) now).

Definition Rate (l : option Limiter) : Z :=
  match l with None => 0 | Some l => rate l end.

Definition chunk (l : Limiter) : Z := Z.min (burst l) limiterMaxChunk.

(** The bucket after the critical section of [wait]. *)
Definition take_tokens (l : Limiter) (n now : Z) : Limiter :=
  let refill := godiv (i64 (time_Sub now (updated l) * rate l)) Second in
  let t := Z.min (i64 (tokens l + refill)) (burst l) in
  MkLimiter (rate l) (i64 (t - n)) now.

(** How long the caller then sleeps. *)
Definition sleep_for (l : Limiter) : Z :=
  if tokens l <? 0 then godiv (i64 (i64 (- tokens l) * Second)) (rate l) else 0.

Definition wait (l : option Limiter) (n now : Z) : option Limiter * Z :=
  match l with
  | None => (None, 0)
  | Some l => if n <=? 0 then (Some l, 0)
              else let l := take_tokens l n now in (Some l, sleep_for l)
  end.

(** A limiter shared by the connections of a tunnel: every [wait] in the order
    the mutex lets them in, each a time and a size; the answer is when each
    caller is released. *)
Fixpoint run_waits (l : option Limiter) (calls : list (Z * Z)) : list Z * option Limiter :=
  match calls with
  | [] => ([], l)
  | (now, n) :: calls =>
      let '(l, d) := wait l n now in
      let '(ds, l) := run_waits l calls in
      ((now + d) :: ds, l)
  end.

(** ** The copy loop *)

(** What the connection being read has in store: bytes, then what stops them. *)
Inductive stop : Type :=
  | StopEOF                   (* the peer closed its side *)
  | StopTimeout               (* the read deadline passed *)
  | StopErr (e : ioerr).      (* either connection failed *)

#[export] Instance stop_eq_dec : EqDecision stop.
Proof. solve_decision. Defined.

Abbreviation source := (list (bytes * stop)).

(** What one copy of at most [k] bytes reads, [dst.ReadFrom(&io.LimitedReader{R:
    src, N: k})] or [CopyBuffered] of the same; [io.EOF] is not an error of a
    copy. *)
Definition copy_some (k : Z) (src : source) : bytes * option stop * source :=
  match src with
  | [] => ([], None, [])
  | (b, s) :: rest =>
      if Z.of_nat (length b) <? k
      then match s with
           | StopEOF => (b, None, [([], StopEOF)])
           | StopTimeout => (b, Some StopTimeout, rest)
           | StopErr e => (b, Some (StopErr e), [([], s)])
           end
      else (take (Z.to_nat k) b, None, (drop (Z.to_nat k) b, s) :: rest)
  end.

Definition trackedChunk : Z := Z.shiftl 1 30.

(** The connection being written to: it never fails, or takes [room] bytes and
    then fails every write, the first [timeouts] of them with an error that
    counts as a timeout (a peer that stopped answering: [ETIMEDOUT]). *)
Inductive sink : Type :=
  | Sound
  | Failing (room timeouts : nat).

Definition write_error (timeouts : nat) : stop :=
  match timeouts with O => StopErr (NetErr []) | S _ => StopTimeout end.

(** A write: what got through, its error, the connection after it. *)
Definition write_some (n : bytes) (dst : sink) : bytes * option stop * sink :=
  match dst with
  | Sound => (n, None, Sound)
  | Failing room timeouts =>
      if (length n <=? room)%nat then (n, None, Failing (room - length n) timeouts)
      else (take room n, Some (write_error timeouts), Failing 0 (pred timeouts))
  end.

(** One copy: what was read is written, the bytes a write refuses are lost, and
    the error of a write is the error of the copy. *)
Definition copy_once (k : Z) (src : source) (dst : sink) : bytes * option stop * source * sink :=
  let '(n, err, src) := copy_some k src in
  let '(out, werr, dst) := write_some n dst in
  (out, match werr with Some e => Some e | None => err end, src, dst).

Record copied := MkCopied {
  c_out : bytes;                 (* what reached the destination *)
  c_waits : list Z;              (* the sizes passed to [limit.wait] *)
  c_progress : list Z;           (* the sizes passed to [progress] *)
  c_err : option stop
}.

Definition more_copied (n : bytes) (progress : bool) (r : copied) : copied :=
  let k := Z.of_nat (length n) in
  MkCopied (n ++ c_out r) (k :: c_waits r)
    (if progress && (0 <? k) then k :: c_progress r else c_progress r) (c_err r).

(** The loop of [copyStream] with a limit or a progress callback. *)
Fixpoint copy_loop (fuel : nat) (k : Z) (progress : bool) (src : source) (dst : sink) : option copied :=
  match fuel with
  | O => None
  | S fuel =>
      let '(n, err, src, dst) := copy_once k src dst in
      match err with
      | Some e =>
          if progress && bool_decide (e = StopTimeout)
          then more_copied n progress <$> copy_loop fuel k progress src dst
          else Some (more_copied n progress (MkCopied [] [] [] (Some e)))
      | None =>
          if Z.of_nat (length n) <? k
          then Some (more_copied n progress (MkCopied [] [] [] None))
          else more_copied n progress <$> copy_loop fuel k progress src dst
      end
  end.

(** Fuel: every round ends a delivery or takes a byte. *)
Definition source_fuel (src : source) : nat := S (S (length src + length (concat (map fst src)))).

(** Without a limit or a callback one unlimited copy does it all. *)
Definition copyStream (limit : option Limiter) (progress : bool) (src : source) (dst : sink) : option copied :=
  match limit, progress with
  | None, false =>
      let '(b, e) :=
        match src with
        | [] => ([], None)
        | (b, StopEOF) :: _ => (b, None)
        | (b, s) :: _ => (b, Some s)
        end in
      let '(out, werr, _) := write_some b dst in
      Some (MkCopied out [] [] (match werr with Some e => Some e | None => e end))
  | None, true => copy_loop (source_fuel src) trackedChunk true src dst
  | Some l, p => copy_loop (source_fuel src) (chunk l) p src dst
  end.

(** ** Unwrapping a connection *)

(** Connections by identity: whether it is a [*net.TCPConn], and what its
    [Unwrap] method returns when it has one. *)
Record netconn := MkConn { is_tcp : bool; Unwrap : option (option N) }.

Definition maxUnwrapDepth : nat := 8.

Fixpoint unwrap_loop (depth : nat) (conns : gmap N netconn) (c : N) : N :=
  match depth with
  | O => c
  | S depth =>
      match conns !! c ≫= Unwrap with
      | None => c
      | Some None => c
      | Some (Some next) => if decide (next = c) then c else unwrap_loop depth conns next
      end
  end.
Definition unwrap (conns : gmap N netconn) (c : N) : N := unwrap_loop maxUnwrapDepth conns c.

Definition CanSplice (spliceSupported : bool) (conns : gmap N netconn) (a b : N) : bool :=
  let tcp c := match conns !! unwrap conns c with Some k => is_tcp k | None => false end in
  spliceSupported && tcp a && tcp b.

(** ** Lemmas: the bucket *)

Definition sane_rate (r : Z) : Prop := 0 < r /\ r * limiterWindow <= max_i64.

(** No [int64] operation of the next call overflows: the bucket was touched
    recently enough, and the debt it leaves is one a sleep can express. *)
Definition calm_call (l : Limiter) (now n : Z) : Prop :=
  0 < n /\ updated l <= now /\ (now - updated l) * rate l <= max_i64
  /\ (n + Z.max 0 (- tokens l)) * Second <= max_i64.

Definition bucket_ok (l : Limiter) : Prop :=
  sane_rate (rate l) /\ tokens l <= burst l.

Fixpoint calm (l : Limiter) (calls : list (Z * Z)) : Prop :=
  match calls with
  | [] => True
  | (now, n) :: calls => calm_call l now n /\ calm (take_tokens l n now) calls
  end.

Lemma burst_value l :
  sane_rate (rate l) -> burst l = Z.max (rate l / 10) 4096 /\ burst l <= max_i64 / Second.
Proof.
  intros [H0 H1]. unfold burst, limiterWindow, limiterMinChunk, godiv, Second, Millisecond, max_i64 in *.
  rewrite i64_id by (unfold in_i64, min_i64, max_i64; lia).
  change (Z.shiftl 4 10) with 4096. rewrite Z.quot_div_nonneg by lia.
  replace (rate l * (100 * 1000000)) with (rate l * 100000000) by lia.
  replace (1000 * 1000000) with (10 * 100000000) by lia.
  rewrite Z.div_mul_cancel_r by lia. split; [done|].
  change (2 ^ 63 - 1) with 9223372036854775807 in *.
  change (9223372036854775807 / (10 * 100000000)) with 9223372036.
  pose proof (Z.div_mod (rate l) 10 ltac:(lia)). pose proof (Z.mod_pos_bound (rate l) 10 ltac:(lia)). lia.
Qed.

(** What the critical section computes, free of overflow. *)
Lemma take_tokens_value l n now :
  bucket_ok l -> calm_call l now n ->
  take_tokens l n now
  = MkLimiter (rate l)
      (Z.min (tokens l + (now - updated l) * rate l / Second) (burst l) - n) now.
Proof.
  intros [Hr Ht] (Hn & Hu & He & Hd). destruct (burst_value l Hr) as [Hb Hb'].
  destruct Hr as [Hr0 Hr1].
  assert (Hel : 0 <= now - updated l <= max_i64) by nia.
  unfold take_tokens. rewrite time_Sub_id by (unfold in_i64, min_i64, max_i64 in *; lia).
  rewrite (i64_id (_ * rate l)) by (unfold in_i64, min_i64, max_i64 in *; nia).
  unfold godiv. rewrite Z.quot_div_nonneg by (unfold Second, Millisecond; nia).
  set (q := (now - updated l) * rate l / Second).
  assert (Hq : 0 <= q <= max_i64 / Second).
  { split; [apply Z.div_pos; unfold Second, Millisecond; nia|]. apply Z.div_le_mono; [done|lia]. }
  assert (Hlow : - (max_i64 / Second) <= tokens l).
  { assert (- tokens l <= max_i64 / Second); [|lia]. apply Z.div_le_lower_bound; [done|].
    unfold Second, Millisecond in *. lia. }
  assert (Hhigh : n <= max_i64 / Second).
  { apply Z.div_le_lower_bound; [done|]. unfold Second, Millisecond in *. lia. }
  change (max_i64 / Second) with 9223372036 in *.
  rewrite (i64_id (tokens l + q)) by (unfold in_i64, min_i64, max_i64; lia).
  rewrite i64_id by (unfold in_i64, min_i64, max_i64; lia). done.
Qed.

Lemma take_tokens_ok l n now :
  bucket_ok l -> calm_call l now n ->
  bucket_ok (take_tokens l n now) /\ updated (take_tokens l n now) = now
  /\ burst (take_tokens l n now) = burst l.
Proof.
  intros Hb Hc. rewrite take_tokens_value by done. destruct Hb as [Hr Ht], Hc as (Hn & _).
  unfold bucket_ok, burst. cbn [rate tokens updated]. split_and!; try done.
  fold (burst l). unfold burst at 1. cbn [rate]. fold (burst l). lia.
Qed.

(** A debt is slept off, rounded down to the nanosecond. *)
Lemma sleep_for_value l n now :
  bucket_ok l -> calm_call l now n ->
  let l' := take_tokens l n now in
  sleep_for l' = Z.max 0 (- tokens l') * Second / rate l'.
Proof.
  intros Hb Hc. cbn zeta. pose proof (take_tokens_value l n now Hb Hc) as E.
  destruct Hb as [[Hr0 Hr1] Ht], Hc as (Hn & Hu & He & Hd).
  assert (0 <= (now - updated l) * rate l / Second).
  { apply Z.div_pos; [nia|done]. }
  destruct (burst_value l (conj Hr0 Hr1)) as [Hbv _].
  assert (Hdebt : - tokens (take_tokens l n now) * Second <= max_i64).
  { rewrite E. cbn [tokens]. unfold Second, Millisecond in *.
    pose proof (Z.div_pos (rate l) 10 ltac:(lia) ltac:(lia)). lia. }
  rewrite E in Hdebt |- *. cbn [tokens rate] in *. unfold sleep_for. cbn [tokens rate].
  set (t := Z.min _ _ - n) in *. destruct (t <? 0) eqn:Et; bool_facts.
  - assert (- t <= max_i64) by (unfold Second, Millisecond in *; lia).
    assert (0 <= - t * Second) by (unfold Second, Millisecond; lia).
    rewrite (i64_id (- t)) by (unfold in_i64, min_i64, max_i64 in *; lia).
    rewrite i64_id by (unfold in_i64, min_i64, max_i64 in *; lia).
    unfold godiv. rewrite Z.quot_div_nonneg by lia. by rewrite Z.max_r by lia.
  - by rewrite Z.max_l by lia.
Qed.

(** The ledger after a sequence of calls: [total] bytes granted since [t0],
    with a bucket of capacity [cap] full at [t0]. *)
Definition ledger (cap t0 total : Z) (l : Limiter) : Prop :=
  (tokens l + total) * Second <= cap * Second + rate l * (updated l - t0)
  /\ cap - total <= tokens l.

Definition sizes_to (k : nat) (calls : list (Z * Z)) : Z :=
  foldr Z.add 0 (snd <$> take (S k) calls).

Lemma ledger_step cap t0 total l now n :
  bucket_ok l -> calm_call l now n -> cap = burst l -> 0 <= total ->
  ledger cap t0 total l -> ledger cap t0 (total + n) (take_tokens l n now).
Proof.
  intros Hb Hc -> Htot [H1 H2]. rewrite take_tokens_value by done.
  destruct Hb as [[Hr0 _] _], Hc as (Hn & Hu & _ & _).
  unfold ledger. cbn [tokens rate updated].
  set (q := (now - updated l) * rate l / Second).
  assert (Hq : q * Second <= (now - updated l) * rate l).
  { unfold q. rewrite Z.mul_comm. by apply Z.mul_div_le. }
  assert (0 <= q) by (apply Z.div_pos; [nia|done]). 
  unfold Second, Millisecond in *. split; nia.
Qed.

Lemma run_waits_ledger cap t0 l calls releases l' total :
  bucket_ok l -> calm l calls -> cap = burst l -> 0 <= total -> ledger cap t0 total l ->
  run_waits (Some l) calls = (releases, l') ->
  forall k r now n, releases !! k = Some r -> calls !! k = Some (now, n) ->
  (total + sizes_to k calls) * Second <= cap * Second + rate l * (r + 1 - t0)
  /\ now <= r /\ rate l * (r - now) <= Second * Z.max 0 (total + sizes_to k calls - cap).
Proof.
  revert l releases total. induction calls as [|[now1 n1] calls IH];
    intros l releases total Hb Hcalm Hcap Htot Hled Hrun k r now n Hr Hcall; [by destruct k|].
  destruct Hcalm as [Hc Hcalm]. cbn [run_waits wait] in Hrun.
  destruct (n1 <=? 0) eqn:En; bool_facts; [destruct Hc; lia|].
  destruct (run_waits (Some (take_tokens l n1 now1)) calls) as [ds lf] eqn:Er.
  injection Hrun as <- <-.
  pose proof (ledger_step cap t0 total l now1 n1 Hb Hc Hcap Htot Hled) as Hled'.
  destruct (take_tokens_ok l n1 now1 Hb Hc) as (Hb' & Hu' & Hbu').
  assert (Hrate : rate (take_tokens l n1 now1) = rate l) by done.
  destruct k as [|k]; cbn [lookup list_lookup] in *.
  - simplify_eq. change (sizes_to 0 ((now, n) :: calls)) with (n + 0).
    rewrite (sleep_for_value l n now Hb Hc). destruct Hled' as [H1 H2].
    rewrite Hrate, Hu' in *. destruct Hb as [[Hr0 _] _].
    set (d := Z.max 0 (- tokens (take_tokens l n now))) in *.
    assert (Hs : rate l * (d * Second / rate l) <= d * Second) by (by apply Z.mul_div_le).
    assert (Hs2 : d * Second < rate l * Z.succ (d * Second / rate l)) by (by apply Z.mul_succ_div_gt).
    assert (0 <= d * Second / rate l) by (apply Z.div_pos; unfold Second, Millisecond; lia).
    unfold Second, Millisecond in *. split_and!; nia.
  - assert (0 <= n1) by (destruct Hc; lia).
    specialize (IH _ ds (total + n1) Hb' Hcalm ltac:(congruence) ltac:(lia) Hled' Er k r now n Hr Hcall).
    rewrite Hrate in IH.
    assert (sizes_to (S k) ((now1, n1) :: calls) = n1 + sizes_to k calls) as -> by done.
    by rewrite Z.add_assoc.
Qed.

(** C14: The limiter keeps its promise exactly: on a fresh limiter, however
    many connections share it and whatever sizes they take, by the time any
    caller is released the bytes granted never exceed one burst plus the rate
    times the elapsed time (to the nanosecond), and no caller is held longer
    than the bytes beyond the burst account for.  This holds as long as no
    product leaves [int64] ([sane_rate], [calm]): the rate times the window, the
    idle time before a call times the rate ([Limiter_idle_overflow] shows what
    happens otherwise), and the bytes owed after it times a second. *)
Theorem Limiter_conforms bps t0 l calls releases l' :
  NewLimiter bps t0 = Some l -> sane_rate bps -> calm l calls ->
  run_waits (Some l) calls = (releases, l') ->
  forall k r now n, releases !! k = Some r -> calls !! k = Some (now, n) ->
  sizes_to k calls * Second <= burst l * Second + bps * (r + 1 - t0)
  /\ now <= r /\ bps * (r - now) <= Second * Z.max 0 (sizes_to k calls - burst l).
Proof.
  intros Hnew Hs Hcalm Hrun k r now n Hr Hc. unfold NewLimiter in Hnew.
  destruct (bps <=? 0) eqn:E; [done|]. injection Hnew as Hl.
  assert (bucket_ok l /\ rate l = bps /\ updated l = t0 /\ tokens l = burst l) as [Hb [Hbps [Hu Ht]]].
  { subst l. split_and!; [|done|done|done]. split; [done|]. cbn [tokens]. unfold burst. cbn [rate]. lia. }
  rewrite <- Hbps in *.
  apply (run_waits_ledger (burst l) t0 l calls releases l' 0) with (now := now) (n := n); try done.
  unfold ledger. rewrite Hu, Ht. lia.
Qed.

(** The exception is real: after a long enough idle time the product of
    the elapsed nanoseconds and the rate leaves [int64], the refill is negative
    and one byte puts the caller to sleep: two and a half hours for a tunnel
    limited to 1 MB/s that was idle for 2.57 hours. *)
Theorem Limiter_idle_overflow :
  let l := NewLimiter 1000000 0 in
  let idle := 9224 * Second in
  2 * Hour + 30 * Minute < (wait l 1 idle).2 /\ idle < 2 * Hour + 34 * Minute.
Proof. by vm_compute. Qed.

(** ** Lemmas: the copy loop *)

(** What the source delivers before it ends, and how it ends: a timeout only
    ends it for a caller without a progress callback. *)
Fixpoint delivered (progress : bool) (src : source) : bytes * option stop :=
  match src with
  | [] => ([], None)
  | (b, s) :: rest =>
      match s with
      | StopEOF => (b, None)
      | StopTimeout => if progress then let '(bs, e) := delivered progress rest in (b ++ bs, e)
                       else (b, Some StopTimeout)
      | StopErr e => (b, Some (StopErr e))
      end
  end.

(** What of it a connection takes. *)
Definition accepted (dst : sink) (b : bytes) : bytes :=
  match dst with Sound => b | Failing room _ => take room b end.

Lemma accepted_nil dst : accepted dst [] = [].
Proof. destruct dst; cbn; [done|apply take_nil]. Qed.

Definition total_size (ns : list Z) : Z := foldr Z.add 0 ns.

Definition src_size (src : source) : nat := length src + length (concat (map fst src)).

(** What a copy reads is the start of what the source delivers, and a copy that
    does not end the loop leaves less to read. *)
Lemma copy_some_cases k src :
  0 < k ->
  let '(n, err, rest) := copy_some k src in
  Z.of_nat (length n) <= k /\ (n <> [] -> (src_size rest < src_size src)%nat)
  /\ match err with
     | Some StopTimeout =>
         delivered true src = (n ++ (delivered true rest).1, (delivered true rest).2)
         /\ delivered false src = (n, Some StopTimeout) /\ (src_size rest < src_size src)%nat
     | Some e => forall p, delivered p src = (n, Some e)
     | None => forall p, if Z.of_nat (length n) <? k then delivered p src = (n, None)
                         else delivered p src = (n ++ (delivered p rest).1, (delivered p rest).2) /\ n <> []
     end.
Proof.
  intros Hk. unfold copy_some. destruct src as [|[b s] rest].
  { split; [cbn; lia|]. split; [done|]. intros p. change (Z.of_nat (length (@nil Byte.byte))) with 0. by rewrite (proj2 (Z.ltb_lt 0 k)). }
  unfold src_size. destruct (Z.ltb_spec (Z.of_nat (length b)) k) as [Hb|Hb].
  - destruct s as [| |e]; cbn [map fst concat delivered length]; rewrite ?length_app.
    + split; [lia|]. split; [destruct b; [done|cbn; lia]|]. intros _. by rewrite (proj2 (Z.ltb_lt _ k)) by done.
    + split; [lia|]. split; [lia|]. split; [by destruct (delivered true rest)|]. split; [done|lia].
    + split; [lia|]. split; [destruct b; [done|cbn; lia]|]. done.
  - assert (Hl : length (take (Z.to_nat k) b) = Z.to_nat k) by (rewrite length_take; lia).
    rewrite (proj2 (Z.ltb_ge _ k)) by lia. split; [lia|].
    split; [intros _; cbn [map fst concat length]; rewrite !length_app, length_drop; lia|].
    intros p. split; [|intros E; rewrite E in Hl; cbn in Hl; lia].
    cbn [delivered]. destruct s; cbn [fst snd]; rewrite ?take_drop; try done.
    destruct p; cbn [fst snd]; rewrite ?take_drop; [|done].
    destruct (delivered true rest); cbn [fst snd]. by rewrite app_assoc, take_drop.
Qed.

(** A write takes the start of what it is given; once it failed, nothing. *)
Lemma write_some_spec n dst :
  let '(out, werr, dst') := write_some n dst in
  (length out <= length n)%nat
  /\ match werr with
     | None => out = n /\ forall m, accepted dst (n ++ m) = n ++ accepted dst' m
     | Some _ => n <> [] /\ out = accepted dst n /\ forall m m', accepted dst (n ++ m) = out ++ accepted dst' m'
     end.
Proof.
  unfold write_some. destruct dst as [|room t]; [done|].
  destruct (Nat.leb_spec (length n) room) as [H|H]; cbn [accepted].
  - split; [lia|]. split; [done|]. intros m. by rewrite take_app, take_ge by lia.
  - rewrite length_take. split; [lia|]. split; [intros ->; cbn in H; lia|]. split; [done|].
    intros m m'. rewrite take_app_le by lia. by rewrite take_0, app_nil_r.
Qed.

(** What a finished copy keeps track of. *)
Definition copied_as (k : Z) (progress : bool) (out : bytes) (r : copied) : Prop :=
  c_out r = out /\ Forall (fun n => 0 <= n <= k) (c_waits r)
  /\ total_size (c_waits r) = Z.of_nat (length out)
  /\ (progress = true -> total_size (c_progress r) = Z.of_nat (length out)).

Lemma copied_done k progress n e :
  Z.of_nat (length n) <= k -> copied_as k progress n (more_copied n progress (MkCopied [] [] [] e)).
Proof.
  intros Hk. unfold copied_as, more_copied. cbn [c_out c_waits c_progress]. rewrite app_nil_r. split_and!; [done|..].
  - apply Forall_singleton. lia.
  - simpl. lia.
  - intros ->. cbn [andb]. destruct (0 <? _) eqn:E0; bool_facts; simpl; lia.
Qed.

Lemma copied_more k progress n m r :
  Z.of_nat (length n) <= k -> copied_as k progress m r -> copied_as k progress (n ++ m) (more_copied n progress r).
Proof.
  intros Hk (Ho & Hw & Ht & Hp). unfold copied_as, more_copied. cbn [c_out c_waits c_progress].
  rewrite Ho, length_app. split_and!; [done|..].
  - constructor; [lia|done].
  - cbn [total_size foldr]. fold (total_size (c_waits r)). lia.
  - intros ->. cbn [andb]. specialize (Hp eq_refl).
    destruct (0 <? _) eqn:E0; bool_facts; [cbn [total_size foldr]; fold (total_size (c_progress r))|]; lia.
Qed.

Lemma copy_loop_spec fuel k progress src dst :
  0 < k -> (S (src_size src) < fuel)%nat ->
  exists r, copy_loop fuel k progress src dst = Some r
    /\ copied_as k progress (accepted dst (delivered progress src).1) r
    /\ (dst = Sound -> c_err r = (delivered progress src).2).
Proof.
  intros Hk. revert src dst. induction fuel as [|fuel IH]; intros src dst Hf; [lia|].
  cbn [copy_loop]. unfold copy_once. pose proof (copy_some_cases k src Hk) as Hc.
  destruct (copy_some k src) as [[n err] rest]. destruct Hc as (Hn & Hless & Hc).
  pose proof (write_some_spec n dst) as Hw. destruct (write_some n dst) as [[out werr] dst'] eqn:Ew.
  destruct Hw as [Hlen Hw].
  assert (Hgo : forall m, (src_size rest < src_size src)%nat -> accepted dst m = out ++ accepted dst' (delivered progress rest).1 ->
    exists r, more_copied out progress <$> copy_loop fuel k progress rest dst' = Some r
      /\ copied_as k progress (accepted dst m) r
      /\ (dst' = Sound -> c_err r = (delivered progress rest).2)).
  { intros m Hs Hm. destruct (IH rest dst' ltac:(lia)) as (r & -> & Hr & He). eexists. split; [done|].
    rewrite Hm. split; [by apply copied_more; [lia|]|done]. }
  assert (Hstop : forall e, dst = Sound -> werr = Some e -> False).
  { intros e -> ->. discriminate Ew. }
  assert (Hsound : dst = Sound -> dst' = Sound) by (intros ->; by injection Ew).
  destruct werr as [e|].
  - destruct Hw as (Hn0 & Hout & Happ). specialize (Hless Hn0).
    assert (Hd : exists m, (delivered progress src).1 = n ++ m).
    { destruct err as [[| |e']|].
      - exists []. rewrite Hc. cbn. by rewrite app_nil_r.
      - destruct Hc as (H1 & H2 & _). destruct progress; [rewrite H1; by eexists|]. exists []. rewrite H2. cbn. by rewrite app_nil_r.
      - exists []. rewrite Hc. cbn. by rewrite app_nil_r.
      - specialize (Hc progress). destruct (_ <? _); [exists []; rewrite Hc; cbn; by rewrite app_nil_r|].
        destruct Hc as [-> _]. by eexists. }
    destruct Hd as [m Hd]. rewrite Hd. destruct (progress && bool_decide (e = StopTimeout)).
    + destruct (Hgo (n ++ m) Hless (Happ _ _)) as (r & Hr & Hcop & _). exists r. split_and!; [done|done|]. intros Es. by destruct (Hstop e Es eq_refl).
    + eexists. split; [done|]. split; [|intros Es; by destruct (Hstop e Es eq_refl)].
      rewrite (Happ m []). rewrite accepted_nil, app_nil_r. apply copied_done. lia.
  - destruct Hw as [-> Happ].
    assert (Hend : forall e, delivered progress src = (n, e) ->
      copied_as k progress (accepted dst (delivered progress src).1) (more_copied n progress (MkCopied [] [] [] e))
      /\ c_err (more_copied n progress (MkCopied [] [] [] e)) = (delivered progress src).2).
    { intros e Hd. rewrite Hd. cbn [fst snd]. split; [|done].
      pose proof (Happ []) as H0. rewrite accepted_nil, !app_nil_r in H0. rewrite H0. by apply copied_done. }
    destruct err as [[| |e]|].
    + rewrite (bool_decide_false (StopEOF = StopTimeout)) by done. rewrite andb_false_r.
      eexists. split; [done|]. by destruct (Hend _ (Hc progress)).
    + destruct Hc as (H1 & H2 & Hs). destruct progress; cbn [andb].
      * rewrite bool_decide_true by done. rewrite H1. cbn [fst snd].
        destruct (Hgo (n ++ (delivered true rest).1) Hs (Happ _)) as (r & Hr & Hcop & He). exists r. by split_and!; auto.
      * eexists. split; [done|]. by destruct (Hend _ H2).
    + rewrite (bool_decide_false (StopErr e = StopTimeout)) by done. rewrite andb_false_r.
      eexists. split; [done|]. by destruct (Hend _ (Hc progress)).
    + specialize (Hc progress). destruct (_ <? _).
      * eexists. split; [done|]. by destruct (Hend _ Hc).
      * destruct Hc as [Hc Hn0]. rewrite Hc. cbn [fst snd].
        destruct (Hgo (n ++ (delivered progress rest).1) (Hless Hn0) (Happ _)) as (r & Hr & Hcop & He). exists r. by split_and!; auto.
Qed.

Lemma chunk_pos l : 0 < chunk l.
Proof.
  unfold chunk, burst, limiterMinChunk, limiterMaxChunk.
  change (Z.shiftl 4 10) with 4096. change (Z.shiftl 1 20) with 1048576. lia.
Qed.

(** The relay copies faithfully and accounts for every byte: with or
    without a limiter and a progress callback, copyStream ends, the destination
    receives exactly what the source delivers before it ends (read timeouts
    interrupt nothing when progress is tracked), up to the byte its writes fail
    at, the error is the source's ending where no write fails, every wait is at
    most one chunk, and the waits and the progress reports each add up to the
    bytes copied. *)
Theorem copyStream_faithful limit progress src dst :
  exists r, copyStream limit progress src dst = Some r
    /\ c_out r = accepted dst (delivered progress src).1
    /\ (dst = Sound -> c_err r = (delivered progress src).2)
    /\ (forall l, limit = Some l ->
        Forall (fun n => 0 <= n <= chunk l) (c_waits r)
        /\ total_size (c_waits r) = Z.of_nat (length (c_out r)))
    /\ (progress = true -> total_size (c_progress r) = Z.of_nat (length (c_out r))).
Proof.
  assert (Hf : (S (src_size src) < source_fuel src)%nat) by (unfold source_fuel, src_size; lia).
  destruct limit as [l|]; [|destruct progress].
  - destruct (copy_loop_spec _ (chunk l) progress src dst (chunk_pos l) Hf)
      as (r & Hr & (Ho & Hw & Ht & Hp) & He).
    exists r. rewrite Ho. split_and!; try done. intros ? [= <-]. done.
  - destruct (copy_loop_spec _ trackedChunk true src dst ltac:(done) Hf)
      as (r & Hr & (Ho & Hw & Ht & Hp) & He).
    exists r. rewrite Ho. by split_and!.
  - unfold copyStream. set (be := match src with [] => _ | _ => _ end).
    assert (delivered false src = be) as -> by (unfold be; by destruct src as [|[b []] rest]).
    destruct be as [b e]. unfold write_some. destruct dst as [|room t]; [by eexists|].
    destruct (Nat.leb_spec (length b) room); eexists; (split; [reflexivity|]); cbn; split_and!; try done.
    by rewrite take_ge.
Qed.

(** A chain of wrappers no longer than the limit is opened to the end; a longer
    chain, or a circular one, costs eight steps. *)
Lemma unwrap_base conns c k : conns !! c = Some k -> Unwrap k = None -> unwrap conns c = c.
Proof. intros Hc Hk. unfold unwrap. cbn [maxUnwrapDepth unwrap_loop]. by rewrite Hc; simpl; rewrite Hk. Qed.

(** ** Witness *)

Definition example_calls : list (Z * Z) :=
  [(1 * Second, 100000); (1 * Second, 100000); (2 * Second, 50000)].

Lemma Limiter_conforms_witness :
  let l := MkLimiter 1000000 100000 Second in
  (run_waits (Some l) example_calls).1 !! 1%nat = Some 1100000000
  /\ sizes_to 1 example_calls * Second <= burst l * Second + 1000000 * (1100000000 + 1 - Second)
  /\ Second <= 1100000000
  /\ 1000000 * (1100000000 - Second) <= Second * Z.max 0 (sizes_to 1 example_calls - burst l).
Proof.
  intros l. split; [vm_compute; reflexivity|].
  apply (Limiter_conforms 1000000 Second l example_calls (run_waits (Some l) example_calls).1
           (run_waits (Some l) example_calls).2) with (n := 100000).
  - reflexivity.
  - split; vm_compute; congruence.
  - split; [|split; [|split; [|done]]]; split_and!; vm_compute; congruence.
  - apply surjective_pairing.
  - vm_compute; reflexivity.
  - reflexivity.
Defined.
