(* ===== verification/ProxyProto.v ===== *)
(** Telling a backend who the visitor is: [pkg/netutil/proxyproto.go].

    A [net.IP] is its bytes (4, 16, or none for a nil address).  Parsing an
    address out of text is the standard library's [net.ParseIP] and
    [net.SplitHostPort], class [NetText]; rendering one is written out. *)
From S2P Require Import Prelude GoStrings Stream.

(** ** net.IP *)

Abbreviation IP := bytes.

Class NetText := {
  ParseIP : bytes -> option IP;                    (* 16 bytes on success *)
  SplitHostPort : bytes -> option (bytes * bytes)
}.

Definition v4InV6Prefix : bytes := [x00; x00; x00; x00; x00; x00; x00; x00; x00; x00; xff; xff].

Definition To4 (ip : IP) : option IP :=
  if (length ip =? 4)%nat then Some ip
  else if (length ip =? 16)%nat && HasPrefix ip v4InV6Prefix then Some (drop 12 ip)
  else None.
Definition To16 (ip : IP) : IP :=
  if (length ip =? 4)%nat then v4InV6Prefix ++ ip
  else if (length ip =? 16)%nat then ip else [].

Definition lower_hex (z : Z) : byte :=
  default x30 (go "0123456789abcdef" !! Z.to_nat z).
(** The shortest hexadecimal text of a 16-bit group. *)
Definition hex16 (z : Z) : bytes :=
  (if 4096 <=? z then [lower_hex (z / 4096)] else [])
  ++ (if 256 <=? z then [lower_hex (z / 256 mod 16)] else [])
  ++ (if 16 <=? z then [lower_hex (z / 16 mod 16)] else [])
  ++ [lower_hex (z mod 16)].

Fixpoint groups (b : bytes) : list Z :=
  match b with
  | a :: c :: b => (b2z a * 256 + b2z c) :: groups b
  | _ => []
  end.

(** The longest run of at least two zero groups, the first of them: where it
    starts and how long it is. *)
Fixpoint zeros (g : list Z) : nat :=
  match g with z :: g => if z =? 0 then S (zeros g) else 0%nat | [] => 0%nat end.
Fixpoint longest_run (i : nat) (g : list Z) (best : nat * nat) : nat * nat :=
  match g with
  | [] => best
  | z :: g' =>
      let l := zeros g in
      longest_run (S i) g' (if (2 <=? l)%nat && (snd best <? l)%nat then (i, l) else best)
  end.

Definition string6 (ip : IP) : bytes :=
  let g := groups ip in
  let '(start, len) := longest_run 0 g (255%nat, 0%nat) in
  if (len =? 0)%nat then Join (hex16 <$> g) (go ":")
  else Join (hex16 <$> take start g) (go ":") ++ go "::"
       ++ Join (hex16 <$> drop (start + len) g) (go ":").

Definition string4 (ip : IP) : bytes := Join ((fun b => Itoa (b2z b)) <$> ip) (go ".").

Definition hex_bytes (b : bytes) : bytes :=
  b ≫= fun x => [lower_hex (b2z x / 16); lower_hex (b2z x mod 16)].

(** [net.IP.String]. *)
Definition IP_String (ip : IP) : bytes :=
  if (length ip =? 0)%nat then go "<nil>"
  else if negb ((length ip =? 4)%nat || (length ip =? 16)%nat) then go "?" ++ hex_bytes ip
  else match To4 ip with Some v4 => string4 v4 | None => string6 ip end.

(** ** The header *)

Definition ProxyProtoNone : bytes := go "".
Definition ProxyProtoV1 : bytes := go "v1".
Definition ProxyProtoV2 : bytes := go "v2".

Definition ValidProxyProtocol (version : bytes) : bool :=
  bool_decide (version = ProxyProtoNone) || bool_decide (version = ProxyProtoV1)
  || bool_decide (version = ProxyProtoV2).

Definition proxyV2Signature : bytes :=
  [x0d; x0a; x0d; x0a; x00; x0d; x0a; x51; x55; x49; x54; x0a].

(** A [net.Addr]; a typed nil IP is [[]]. *)
Inductive Addr : Type :=
  | NilAddr
  | TCPAddr (ip : IP) (port : Z)
  | UDPAddr (ip : IP) (port : Z)
  | OtherAddr.

Inductive aerr : Type :=
  | ErrNoAddr
  | ErrNoPort (text : bytes)
  | ErrNotIP (text : bytes)
  | ErrNotPort (text : bytes)
  | ErrProxyVersion (version : bytes)
  | ErrProxyWrite (e : ioerr).

Definition renderAsV6 (ip : IP) : bytes :=
  match To4 ip with Some v4 => go "::ffff:" ++ IP_String v4 | None => IP_String ip end.

Definition normaliseTo6 (ip : IP) : IP :=
  match To4 ip with Some v4 => v4InV6Prefix ++ v4 | None => ip end.

Section proxyproto.
Context `{NetText}.
(** [addr.String()]: the text of an address. *)
Variable addr_String : Addr -> bytes.

Definition parse_hostport (text : bytes) : res aerr (IP * Z) :=
  match SplitHostPort text with
  | None => Err (ErrNoPort text)
  | Some (host, port) =>
      match ParseIP host with
      | None => Err (ErrNotIP host)
      | Some ip => match Atoi port with
                   | None => Err (ErrNotPort port)
                   | Some number => Ok (ip, number)
                   end
      end
  end.

Definition splitAddr (addr : Addr) : res aerr (IP * Z) :=
  match addr with
  | NilAddr => Err ErrNoAddr
  | TCPAddr ip port | UDPAddr ip port =>
      if bool_decide (ip <> []) then Ok (ip, port) else parse_hostport (addr_String addr)
  | OtherAddr => parse_hostport (addr_String addr)
  end.

Definition v1_text (sourceIP : IP) (sourcePort : Z) (destIP : IP) (destPort : Z) : bytes :=
  let '(family, sourceText, destText) :=
    if bool_decide (To4 sourceIP = None) || bool_decide (To4 destIP = None)
    then (go "TCP6", renderAsV6 sourceIP, renderAsV6 destIP)
    else (go "TCP4", IP_String sourceIP, IP_String destIP) in
  go "PROXY " ++ family ++ go " " ++ sourceText ++ go " " ++ destText ++ go " "
  ++ Itoa sourcePort ++ go " " ++ Itoa destPort ++ [x0d; x0a].

Definition lift_write (r : res ioerr unit * writer) : res aerr unit * writer :=
  (map_err ErrProxyWrite r.1, r.2).

Definition writeProxyV1 (w : writer) (source destination : Addr) : res aerr unit * writer :=
  match splitAddr source with
  | Err e => (Err e, w)
  | Ok (sourceIP, sourcePort) =>
      match splitAddr destination with
      | Err e => (Err e, w)
      | Ok (destIP, destPort) =>
          lift_write (Write (v1_text sourceIP sourcePort destIP destPort) w)
      end
  end.

Definition v2_bytes (sourceIP : IP) (sourcePort : Z) (destIP : IP) (destPort : Z) : bytes :=
  let '(family, addresses) :=
    match To4 sourceIP, To4 destIP with
    | Some v4Source, Some v4Dest => (x11, v4Source ++ v4Dest)
    | _, _ => (x21, To16 (normaliseTo6 sourceIP) ++ To16 (normaliseTo6 destIP))
    end in
  let addresses := addresses ++ be_put 2 sourcePort ++ be_put 2 destPort in
  proxyV2Signature ++ [x21] ++ [family] ++ be_put 2 (Z.of_nat (length addresses)) ++ addresses.

Definition writeProxyV2 (w : writer) (source destination : Addr) : res aerr unit * writer :=
  match splitAddr source with
  | Err e => (Err e, w)
  | Ok (sourceIP, sourcePort) =>
      match splitAddr destination with
      | Err e => (Err e, w)
      | Ok (destIP, destPort) =>
          lift_write (Write (v2_bytes sourceIP sourcePort destIP destPort) w)
      end
  end.

Definition WriteProxyHeader (w : writer) (version : bytes) (source destination : Addr)
  : res aerr unit * writer :=
  if bool_decide (version = ProxyProtoNone) then (Ok tt, w)
  else if bool_decide (version = ProxyProtoV1) then writeProxyV1 w source destination
  else if bool_decide (version = ProxyProtoV2) then writeProxyV2 w source destination
  else (Err (ErrProxyVersion version), w).

Definition ParseProxyAddr (addr : bytes) : res aerr Addr :=
  '(ip, number) ← parse_hostport addr; Ok (TCPAddr ip number).
End proxyproto.

(** ** What a backend reads *)

(** A version 2 header, as the PROXY protocol specification reads it: the
    addresses as 16 bytes, the ports, and the stream that follows. *)
Definition parse_v2 (b : bytes) : option (IP * Z * IP * Z * bytes) :=
  if negb (HasPrefix b (proxyV2Signature ++ [x21])) then None
  else
    let fam := default x00 (b !! 13%nat) in
    let len := Z.to_nat (be_get (take 2 (drop 14 b))) in
    let body := take len (drop 16 b) in
    let rest := drop (16 + len) b in
    let n := (if decide (fam = x11) then 4 else 16)%nat in
    if negb (length body =? 2 * n + 4)%nat then None
    else Some (To16 (take n body), be_get (take 2 (drop (2 * n) body)),
               To16 (take n (drop n body)), be_get (drop (2 * n + 2) body), rest).

(** A dotted address. *)
Definition parse4 (b : bytes) : option IP :=
  ns ← mapM Atoi (Split b x2e); Some (z2b <$> ns).

(** ** Lemmas *)

Definition valid_ip (ip : IP) : Prop := length ip = 4%nat \/ length ip = 16%nat.
Definition valid_port (p : Z) : Prop := 0 <= p < 2 ^ 16.

Lemma To4_length ip v : To4 ip = Some v -> length v = 4%nat.
Proof.
  unfold To4. destruct (Nat.eqb_spec (length ip) 4); [congruence|].
  destruct (Nat.eqb_spec (length ip) 16); [|done]. destruct (HasPrefix _ _); [|done].
  intros [= <-]. rewrite length_drop. lia.
Qed.

(** Both forms of an address name the same 16 bytes. *)
Lemma To4_To16 ip v : To4 ip = Some v -> To16 v = To16 ip.
Proof.
  intros Hv. pose proof (To4_length ip v Hv) as Hl. revert Hv. unfold To4, To16. rewrite Hl. cbn [Nat.eqb].
  destruct (Nat.eqb_spec (length ip) 4); [congruence|].
  destruct (Nat.eqb_spec (length ip) 16); [|done].
  destruct (HasPrefix ip v4InV6Prefix) eqn:E; [|done].
  apply HasPrefix_true in E as [k ->]. intros [= <-]. done.
Qed.

Lemma normaliseTo6_To16 ip : valid_ip ip ->
  length (To16 (normaliseTo6 ip)) = 16%nat /\ To16 (To16 (normaliseTo6 ip)) = To16 ip.
Proof.
  intros Hv. unfold normaliseTo6. destruct (To4 ip) as [v|] eqn:E.
  - pose proof (To4_length _ _ E) as Hl. rewrite <- (To4_To16 _ _ E).
    unfold To16. rewrite length_app, Hl. cbn [length v4InV6Prefix Nat.add Nat.eqb].
    split; [by rewrite length_app, Hl|]. rewrite length_app, Hl. done.
  - unfold To4 in E. unfold To16. destruct Hv as [Hv|Hv]; rewrite Hv in *; [done|].
    cbn [Nat.eqb] in *. rewrite Hv. done.
Qed.

Definition unspaced (b : bytes) : Prop := x20 ∉ b.

Lemma unspaced_app a b : unspaced a -> unspaced b -> unspaced (a ++ b).
Proof. unfold unspaced. set_solver. Qed.

Lemma unspaced_Join ps sep : Forall unspaced ps -> unspaced sep -> unspaced (Join ps sep).
Proof.
  intros Hps Hsep. induction Hps as [|p ps Hp Hps IH]; [by apply not_elem_of_nil|].
  destruct ps as [|q ps]; [done|]. cbn [Join]. by repeat apply unspaced_app.
Qed.

Lemma utoa_unspaced n : unspaced (utoa n).
Proof.
  unfold unspaced. intros Hin. pose proof (utoa_digits n) as Hd.
  rewrite Forall_forall in Hd. apply Hd in Hin. unfold is_digit in Hin. vm_compute in Hin. by destruct Hin.
Qed.

Lemma Itoa_unspaced z : unspaced (Itoa z).
Proof.
  unfold Itoa. destruct (z <? 0); [|apply utoa_unspaced].
  unfold unspaced. rewrite not_elem_of_cons. split; [done|apply utoa_unspaced].
Qed.

Lemma lower_hex_unspaced z : unspaced [lower_hex z].
Proof.
  unfold lower_hex. destruct (go "0123456789abcdef" !! Z.to_nat z) as [b|] eqn:E; cbn [default].
  - assert (Hf : Forall (fun b => unspaced [b]) (go "0123456789abcdef")).
    { apply (bool_decide_unpack _). by vm_compute. }
    by apply (Forall_lookup_1 _ _ _ _ Hf E).
  - apply (bool_decide_unpack _). by vm_compute.
Qed.

Lemma hex16_unspaced z : unspaced (hex16 z).
Proof.
  unfold hex16. repeat apply unspaced_app; try apply lower_hex_unspaced;
    case_match; try apply lower_hex_unspaced; by apply not_elem_of_nil.
Qed.

Lemma string_unspaced ip : valid_ip ip -> unspaced (IP_String ip).
Proof.
  intros Hv. unfold IP_String. 
  assert (Hc : unspaced (go ":") /\ unspaced (go "::") /\ unspaced (go ".")).
  { apply (bool_decide_unpack _). by vm_compute. }
  destruct Hc as (Hc1 & Hc2 & Hc3).
  destruct (Nat.eqb_spec (length ip) 0); [destruct Hv; lia|].
  assert ((length ip =? 4)%nat || (length ip =? 16)%nat = true) as ->
    by (destruct Hv as [-> | ->]; done).
  cbn [negb]. destruct (To4 ip) as [v|].
  - apply unspaced_Join; [|done]. apply Forall_fmap, Forall_true. intros b. apply Itoa_unspaced.
  - unfold string6. destruct (longest_run _ _ _) as [st len].
    assert (Hh : forall g, Forall unspaced (hex16 <$> g)).
    { intros g. apply Forall_fmap, Forall_true. intros z. apply hex16_unspaced. }
    destruct (_ =? 0)%nat; [by apply unspaced_Join|].
    by repeat apply unspaced_app; try apply unspaced_Join.
Qed.

Lemma renderAsV6_unspaced ip : valid_ip ip -> unspaced (renderAsV6 ip).
Proof.
  intros Hv. unfold renderAsV6. destruct (To4 ip) as [v|] eqn:E; [|by apply string_unspaced].
  apply unspaced_app; [apply (bool_decide_unpack _); by vm_compute|].
  apply string_unspaced. left. by apply To4_length in E.
Qed.

Lemma parse4_string4 v : v <> [] -> parse4 (string4 v) = Some v.
Proof.
  intros Hv. unfold parse4, string4. change (go ".") with [x2e]. rewrite Split_Join.
  - assert (mapM Atoi ((fun b => Itoa (b2z b)) <$> v) = Some (b2z <$> v)) as ->.
    { apply mapM_Some. clear Hv. induction v as [|b v IH]; constructor; [|done].
      apply Atoi_Itoa. pose proof (b2z_range b). unfold in_i64, min_i64, max_i64. lia. }
    cbn [mbind option_bind]. f_equal. rewrite <- list_fmap_compose.
    rewrite (list_fmap_ext _ id); [by rewrite list_fmap_id|]. intros ? ? _. apply z2b_b2z.
  - by destruct v.
  - apply Forall_fmap, Forall_true. intros b Hin. cbn in Hin. unfold Itoa in Hin.
    pose proof (b2z_range b). rewrite (proj2 (Z.ltb_ge _ 0)) in Hin by lia.
    pose proof (utoa_digits (Z.to_N (b2z b))) as Hd. rewrite Forall_forall in Hd.
    apply Hd in Hin. vm_compute in Hin. by destruct Hin.
Qed.

Lemma v2_block_parses n fam a b source sp dest dp more :
  valid_port sp -> valid_port dp ->
  (fam = x11 /\ n = 4%nat) \/ (fam = x21 /\ n = 16%nat) ->
  length a = n -> length b = n -> To16 a = To16 source -> To16 b = To16 dest ->
  let ads := (a ++ b) ++ be_put 2 sp ++ be_put 2 dp in
  let header := proxyV2Signature ++ [x21] ++ [fam] ++ be_put 2 (Z.of_nat (length ads)) ++ ads in
  (length header <= 52)%nat
  /\ parse_v2 (header ++ more) = Some (To16 source, sp, To16 dest, dp, more).
Proof.
  intros Hsp Hdp Hfam Ha Hb Ea Eb ads header. unfold valid_port in Hsp, Hdp.
  assert (Hlen : length ads = (2 * n + 4)%nat).
  { unfold ads. rewrite !length_app, !length_be_put. lia. }
  assert (Hn : (n <= 16)%nat) by lia.
  split. { unfold header. rewrite !length_app, length_be_put, Hlen. cbn [length proxyV2Signature]. lia. }
  assert (Hh : header ++ more = (proxyV2Signature ++ [x21]) ++ fam :: be_put 2 (Z.of_nat (length ads)) ++ ads ++ more).
  { unfold header. by rewrite <- !app_assoc. }
  rewrite Hh. unfold parse_v2. rewrite HasPrefix_app. cbn [negb].
  set (sg := proxyV2Signature ++ [x21]).
  assert (H13 : default x00 ((sg ++ fam :: be_put 2 (Z.of_nat (length ads)) ++ ads ++ more) !! 13%nat) = fam)
    by done.
  assert (H14 : drop 14 (sg ++ fam :: be_put 2 (Z.of_nat (length ads)) ++ ads ++ more)
                = be_put 2 (Z.of_nat (length ads)) ++ ads ++ more) by done.
  assert (H16 : forall k, drop (16 + k) (sg ++ fam :: be_put 2 (Z.of_nat (length ads)) ++ ads ++ more)
                = drop k (ads ++ more)).
  { intros k. change (16 + k)%nat with (14 + (2 + k))%nat. rewrite <- drop_drop, H14, <- drop_drop.
    by rewrite drop_app_length' by (by rewrite length_be_put). }
  rewrite H13, H14, take_app_length' by (by rewrite length_be_put).
  rewrite be_get_put_small by (rewrite Hlen; change (256 ^ Z.of_nat 2) with 65536; lia).
  rewrite Nat2Z.id. rewrite (H16 (length ads)), drop_app_length.
  rewrite (H16 0%nat : drop 16 _ = _), drop_0, take_app_length.
  assert (Hif : (if decide (fam = x11) then 4 else 16)%nat = n)
    by (destruct Hfam as [[-> ->]|[-> ->]]; done).
  rewrite Hif, Hlen, Nat.eqb_refl. cbn [negb].
  replace (2 * n + 2)%nat with (2 * n + length (be_put 2 sp))%nat by (by rewrite length_be_put).
  unfold ads. rewrite <- !app_assoc.
  rewrite take_app_length' by done. rewrite (drop_app_length' a (b ++ be_put 2 sp ++ be_put 2 dp) n) by done.
  rewrite take_app_length' by done. rewrite <- drop_drop.
  rewrite !(app_assoc a b), !(drop_app_length' (a ++ b)) by (rewrite length_app; lia).
  rewrite take_app_length' by (by rewrite length_be_put). rewrite drop_app_length.
  rewrite !be_get_put_small by (change (256 ^ Z.of_nat 2) with 65536; lia).
  by rewrite Ea, Eb.
Qed.

Section roundtrip.
Context `{NetText}.
Variable addr_String : Addr -> bytes.

(** A version 2 header says exactly who connected to what: for any two
    TCP addresses, IPv4 in either form or IPv6, a backend that reads the
    header by the specification recovers both addresses and both ports, and
    the visitor's own bytes follow untouched; the header is one write. *)
Theorem proxy_v2_roundtrip ws source sp dest dp more :
  valid_ip source -> valid_ip dest -> valid_port sp -> valid_port dp ->
  exists header,
    WriteProxyHeader addr_String (Writer ws None) ProxyProtoV2 (TCPAddr source sp) (TCPAddr dest dp)
    = (Ok tt, Writer (ws ++ [header]) None)
    /\ (length header <= 52)%nat
    /\ parse_v2 (header ++ more) = Some (To16 source, sp, To16 dest, dp, more).
Proof.
  intros Hs Hd Hsp Hdp. unfold WriteProxyHeader.
  rewrite (bool_decide_false (ProxyProtoV2 = ProxyProtoNone)) by done.
  rewrite (bool_decide_false (ProxyProtoV2 = ProxyProtoV1)) by done.
  rewrite (bool_decide_true (ProxyProtoV2 = ProxyProtoV2)) by done.
  unfold writeProxyV2, splitAddr.
  rewrite !bool_decide_true by (intros ->; by destruct Hs, Hd || by destruct Hd || by destruct Hs).
  exists (v2_bytes source sp dest dp). split; [done|].
  unfold v2_bytes.
  destruct (To4 source) as [v4s|] eqn:Es; [destruct (To4 dest) as [v4d|] eqn:Ed|].
  - apply (v2_block_parses 4%nat); eauto using To4_length, To4_To16.
  - apply (v2_block_parses 16%nat); try apply normaliseTo6_To16; auto.
  - apply (v2_block_parses 16%nat); try apply normaliseTo6_To16; auto.
Qed.

(** A version 1 header is one line of six fields: a backend that splits
    it at spaces finds the family, both addresses and both ports whatever
    the addresses, and for TCP4 the dotted texts parse back to them. *)
Theorem proxy_v1_fields ws source sp dest dp :
  valid_ip source -> valid_ip dest ->
  exists line family stext dtext,
    WriteProxyHeader addr_String (Writer ws None) ProxyProtoV1 (TCPAddr source sp) (TCPAddr dest dp)
    = (Ok tt, Writer (ws ++ [line ++ [x0d; x0a]]) None)
    /\ Split line x20 = [go "PROXY"; family; stext; dtext; Itoa sp; Itoa dp]
    /\ match To4 source, To4 dest with
       | Some s4, Some d4 => family = go "TCP4" /\ parse4 stext = Some s4 /\ parse4 dtext = Some d4
       | _, _ => family = go "TCP6" /\ stext = renderAsV6 source /\ dtext = renderAsV6 dest
       end.
Proof.
  intros Hs Hd. unfold WriteProxyHeader.
  rewrite (bool_decide_false (ProxyProtoV1 = ProxyProtoNone)) by done.
  rewrite (bool_decide_true (ProxyProtoV1 = ProxyProtoV1)) by done.
  unfold writeProxyV1, splitAddr.
  rewrite !bool_decide_true by (intros ->; by destruct Hs, Hd || by destruct Hd || by destruct Hs).
  assert (Hgen : forall family stext dtext,
    unspaced family -> unspaced stext -> unspaced dtext ->
    let line := Join [go "PROXY"; family; stext; dtext; Itoa sp; Itoa dp] [x20] in
    Split line x20 = [go "PROXY"; family; stext; dtext; Itoa sp; Itoa dp]
    /\ go "PROXY " ++ family ++ go " " ++ stext ++ go " " ++ dtext ++ go " "
       ++ Itoa sp ++ go " " ++ Itoa dp ++ [x0d; x0a] = line ++ [x0d; x0a]).
  { intros family stext dtext H1 H2 H3 line. split.
    - apply Split_Join; [done|]. repeat constructor; try done; try apply Itoa_unspaced.
      apply (bool_decide_unpack _). by vm_compute.
    - unfold line. cbn [Join]. rewrite <- !app_assoc. done. }
  unfold v1_text. destruct (To4 source) as [s4|] eqn:Es; [destruct (To4 dest) as [d4|] eqn:Ed|].
  - rewrite !bool_decide_false by done. cbn [orb].
    destruct (Hgen (go "TCP4") (IP_String source) (IP_String dest)) as [H1 H2];
      [apply (bool_decide_unpack _); by vm_compute|by apply string_unspaced|by apply string_unspaced|].
    assert (Hstr : forall ip v, valid_ip ip -> To4 ip = Some v -> parse4 (IP_String ip) = Some v).
    { intros ip v Hv E. unfold IP_String. rewrite E.
      destruct (Nat.eqb_spec (length ip) 0); [destruct Hv; lia|].
      assert ((length ip =? 4)%nat || (length ip =? 16)%nat = true) as ->
        by (destruct Hv as [-> | ->]; done).
      apply parse4_string4. intros ->. by apply To4_length in E. }
    do 4 eexists. split; [|split; [exact H1|split_and!; auto]]. by rewrite H2.
  - rewrite bool_decide_false, bool_decide_true by done. cbn [orb].
    destruct (Hgen (go "TCP6") (renderAsV6 source) (renderAsV6 dest)) as [H1 H2];
      [apply (bool_decide_unpack _); by vm_compute|by apply renderAsV6_unspaced|by apply renderAsV6_unspaced|].
    do 4 eexists. split; [|split; [exact H1|done]]. by rewrite H2.
  - rewrite bool_decide_true by done. cbn [orb].
    destruct (Hgen (go "TCP6") (renderAsV6 source) (renderAsV6 dest)) as [H1 H2];
      [apply (bool_decide_unpack _); by vm_compute|by apply renderAsV6_unspaced|by apply renderAsV6_unspaced|].
    do 4 eexists. split; [|split; [exact H1|done]]. by rewrite H2.
Qed.
End roundtrip.

(** ** Witnesses *)

Definition no_net_text : NetText := {| ParseIP _ := None; SplitHostPort _ := None |}.
Definition example_v6 : IP :=
  [x20; x01; x0d; xb8; x00; x00; x00; x00; x00; x00; x00; x00; x00; x00; x00; x01].

Example string6_compresses : IP_String example_v6 = go "2001:db8::1".
Proof. by vm_compute. Qed.
Example string4_dotted : IP_String (v4InV6Prefix ++ [xc0; x00; x02; x01]) = go "192.0.2.1".
Proof. by vm_compute. Qed.

Lemma proxy_v2_roundtrip_witness :
  exists header,
    @WriteProxyHeader no_net_text (fun _ => []) (Writer [] None) ProxyProtoV2
      (TCPAddr [xc0; x00; x02; x01] 54321) (TCPAddr example_v6 443)
    = (Ok tt, Writer ([] ++ [header]) None)
    /\ (length header <= 52)%nat
    /\ parse_v2 (header ++ go "hello")
       = Some (To16 [xc0; x00; x02; x01], 54321, To16 example_v6, 443, go "hello").
Proof.
  apply (@proxy_v2_roundtrip no_net_text (fun _ => []));
    [by left|by right|unfold valid_port; lia|unfold valid_port; lia].
Defined.

Lemma proxy_v1_fields_witness :
  exists line family stext dtext,
    @WriteProxyHeader no_net_text (fun _ => []) (Writer [] None) ProxyProtoV1
      (TCPAddr [xc0; x00; x02; x01] 54321) (TCPAddr [x7f; x00; x00; x01] 443)
    = (Ok tt, Writer ([] ++ [line ++ [x0d; x0a]]) None)
    /\ Split line x20 = [go "PROXY"; family; stext; dtext; Itoa 54321; Itoa 443]
    /\ family = go "TCP4" /\ parse4 stext = Some [xc0; x00; x02; x01]
    /\ parse4 dtext = Some [x7f; x00; x00; x01].
Proof.
  apply (@proxy_v1_fields no_net_text (fun _ => []) [] [xc0; x00; x02; x01] 54321 [x7f; x00; x00; x01] 443);
    by left.
Defined.
