(* ===== verification/Challenge.v ===== *)
(** ACME challenges answered on a client's behalf:
    [internal/tunnel/server/challenge.go].

    The store is its map of tokens.  Every operation takes the time the clock
    shows when it runs.  [published] is the specification: it reads the history
    of the operations and no table. *)
From S2P Require Import Prelude GoStrings.

Definition challengePrefix : bytes := go "/.well-known/acme-challenge/".
Definition challengeTTL : Z := Hour.

Record challenge := MkChallenge {
  keyAuth : bytes;
  domain : bytes;
  ch_runID : bytes;
  deadline : Z
}.
Abbreviation ChallengeStore := (gmap bytes challenge).

Inductive cherr : Type :=
  | ErrNoToken
  | ErrBadToken (token : bytes).

Definition NewChallengeStore : ChallengeStore := ∅.

Definition expireLocked (now : Z) (s : ChallengeStore) : ChallengeStore :=
  filter (fun p => negb (deadline p.2 <? now)) s.

(** The characters of [/?#\ ] and the space. *)
Definition token_forbidden : bytes := [x2f; x3f; x23; x5c; x20].

Definition Publish (runID domain token auth : bytes) (now : Z) (s : ChallengeStore)
  : res cherr unit * ChallengeStore :=
  if bool_decide (token = []) || bool_decide (auth = []) then (Err ErrNoToken, s)
  else if ContainsAny token token_forbidden then (Err (ErrBadToken token), s)
  else (Ok tt, <[token := MkChallenge auth domain runID (now + challengeTTL)]> (expireLocked now s)).

Definition Withdraw (runID token : bytes) (s : ChallengeStore) : ChallengeStore :=
  match s !! token with
  | Some existing => if bool_decide (ch_runID existing = runID) then delete token s else s
  | None => s
  end.

Definition Answer (path : bytes) (now : Z) (s : ChallengeStore) : option bytes :=
  if negb (HasPrefix path challengePrefix) then None
  else
    let token := TrimPrefix path challengePrefix in
    if bool_decide (token = []) || ContainsByte token x2f then None
    else match s !! token with
         | Some found => if deadline found <? now then None else Some (keyAuth found)
         | None => None
         end.

Definition Len (s : ChallengeStore) : nat := size s.

(** The response [answerChallenge] writes. *)
Definition answerChallenge (auth : bytes) : bytes :=
  go "HTTP/1.1 200 OK" ++ [x0d; x0a] ++ go "Content-Type: text/plain" ++ [x0d; x0a]
  ++ go "Content-Length: " ++ Itoa (Z.of_nat (length auth)) ++ [x0d; x0a]
  ++ go "Connection: close" ++ [x0d; x0a; x0d; x0a] ++ auth.

(** ** Specification: what has been asked of the store *)

Inductive event : Type :=
  | EvPublish (runID domain token auth : bytes) (now : Z)
  | EvWithdraw (runID token : bytes).

Definition step (s : ChallengeStore) (e : event) : ChallengeStore :=
  match e with
  | EvPublish r d t a now => (Publish r d t a now s).2
  | EvWithdraw r t => Withdraw r t s
  end.

(** A publication the store accepts. *)
Definition acceptable (token auth : bytes) : bool :=
  negb (bool_decide (token = [])) && negb (bool_decide (auth = []))
  && negb (ContainsAny token token_forbidden).

(** Who last published a token, its answer and when, unless its publisher has
    withdrawn it since; the history is newest first. *)
Fixpoint published (token : bytes) (history : list event) : option (bytes * bytes * Z) :=
  match history with
  | [] => None
  | EvPublish r _ t a now :: earlier =>
      if bool_decide (t = token) && acceptable t a then Some (r, a, now)
      else published token earlier
  | EvWithdraw r t :: earlier =>
      match published token earlier with
      | Some (r', a, now) =>
          if bool_decide (t = token) && bool_decide (r = r') then None else Some (r', a, now)
      | None => None
      end
  end.

(** ** Lemmas *)

Lemma lookup_expire now s t :
  expireLocked now s !! t = match s !! t with
                            | Some c => if deadline c <? now then None else Some c
                            | None => None
                            end.
Proof.
  unfold expireLocked. destruct (s !! t) as [c|] eqn:E.
  - destruct (deadline c <? now) eqn:D.
    + apply map_lookup_filter_None. right. intros c' Hc'. rewrite E in Hc'.
      injection Hc' as <-. cbn [snd]. rewrite D. intros [].
    + apply map_lookup_filter_Some. split; [done|]. cbn [snd]. by rewrite D.
  - apply map_lookup_filter_None. left. exact E.
Qed.

(** What the table holds of a token, up to entries that have expired. *)
Definition holds (s : ChallengeStore) (t : bytes) (now : Z) (spec : option (bytes * bytes * Z)) : Prop :=
  match spec with
  | Some (r, a, at_) =>
      match s !! t with
      | Some c => keyAuth c = a /\ ch_runID c = r /\ deadline c = at_ + challengeTTL
      | None => at_ + challengeTTL < now
      end
  | None => s !! t = None
  end.

(** The times of a history, newest first, never decrease and never pass [now]. *)
Fixpoint clocked (now : Z) (history : list event) : Prop :=
  match history with
  | [] => True
  | EvPublish _ _ _ _ at_ :: earlier => at_ <= now /\ clocked at_ earlier
  | EvWithdraw _ _ :: earlier => clocked now earlier
  end.

Lemma clocked_mono now now' history : now <= now' -> clocked now history -> clocked now' history.
Proof.
  revert now; induction history as [|[] history IH]; intros t Hle; simpl; [done| |].
  - intros [? ?]. split; [lia|done].
  - by apply IH.
Qed.

Lemma run_holds history now t :
  clocked now history -> holds (foldr (fun e s => step s e) NewChallengeStore history) t now (published t history).
Proof.
  revert now; induction history as [|e history IH]; intros now Hc; [by apply lookup_empty|].
  cbn [foldr]. set (s := foldr _ _ history) in *. destruct e as [r d t' a at_|r t']; simpl in Hc.
  - destruct Hc as [Hle Hc]. specialize (IH at_ Hc). cbn [step published]. unfold Publish, acceptable.
    destruct (bool_decide (t' = []) || bool_decide (a = [])) eqn:E1.
    { assert (negb (bool_decide (t' = [])) && negb (bool_decide (a = [])) = false) as ->.
      { by rewrite <- negb_orb, E1. }
      cbn [andb]. rewrite andb_false_r. cbn [snd].
      unfold holds in *. destruct (published t history) as [[[r0 a0] at0]|]; [|done].
      destruct (s !! t); [done|lia]. }
    assert (negb (bool_decide (t' = [])) && negb (bool_decide (a = [])) = true) as ->.
    { by rewrite <- negb_orb, E1. }
    destruct (ContainsAny t' token_forbidden); cbn [negb andb snd].
    { rewrite andb_false_r.
      unfold holds in *. destruct (published t history) as [[[r0 a0] at0]|]; [|done].
      destruct (s !! t); [done|lia]. }
    rewrite andb_true_r. destruct (decide (t' = t)) as [->|Ht].
    + rewrite (bool_decide_true (t = t)) by done. unfold holds. by rewrite lookup_insert_eq.
    + rewrite (bool_decide_false (t' = t)) by done. unfold holds in *. rewrite lookup_insert_ne, lookup_expire by done.
      destruct (published t history) as [[[r0 a0] at0]|].
      * destruct (s !! t) as [c|]; [|lia]. destruct (deadline c <? at_) eqn:D; bool_facts; [|done].
        destruct IH as (_ & _ & E). lia.
      * by rewrite IH.
  - specialize (IH now Hc). cbn [step published]. unfold Withdraw. unfold holds in IH |- *.
    destruct (published t history) as [[[r0 a0] at0]|] eqn:Ep.
    + destruct (decide (t' = t)) as [->|Hne].
      * rewrite (bool_decide_true (t = t)) by done. cbn [andb].
        destruct (s !! t) as [c|] eqn:Es.
        -- destruct IH as (Ha & Hr & Hd). rewrite Hr. case_bool_decide as Hrr.
           ++ subst r0. rewrite bool_decide_true by done. apply lookup_delete_eq.
           ++ rewrite bool_decide_false by done. by rewrite Es.
        -- case_bool_decide; [done|]. by rewrite Es.
      * rewrite (bool_decide_false (t' = t)) by done. cbn [andb].
        destruct (s !! t') as [c'|]; [|done]. case_bool_decide; [|done]. by rewrite lookup_delete_ne.
    + destruct (s !! t') as [c'|]; [|done]. case_bool_decide; [|done].
      destruct (decide (t' = t)) as [->|]; [apply lookup_delete_eq|by rewrite lookup_delete_ne].
Qed.

(** Only acceptable publications are on record. *)
Lemma published_acceptable t history r a at_ :
  published t history = Some (r, a, at_) -> acceptable t a = true.
Proof.
  induction history as [|[r' d t' a' now|r' t'] history IH]; cbn [published]; [done| |].
  - destruct (bool_decide (t' = t) && acceptable t' a') eqn:E; [|done].
    apply andb_true_iff in E as [->%bool_decide_eq_true ?]. by intros [= -> -> ->].
  - destruct (published t history) as [[[r0 a0] at0]|]; [|done].
    destruct (bool_decide (t' = t) && bool_decide (r' = r0)); [done|]. exact IH.
Qed.

Lemma acceptable_token t a : acceptable t a = true -> t <> [] /\ ContainsByte t x2f = false.
Proof.
  unfold acceptable. rewrite !andb_true_iff, !negb_true_iff.
  intros [[H1 H2] H3]. apply bool_decide_eq_false in H1. split; [done|].
  unfold ContainsAny in H3. apply bool_decide_eq_false in H3.
  apply bool_decide_eq_false. intros Hin.
  destruct (IndexAny t token_forbidden) eqn:E; [by apply H3|].
  apply IndexAny_None in E. rewrite Forall_forall in E. apply (E _ Hin).
  apply (bool_decide_unpack _). by vm_compute.
Qed.

(** The challenge store answers exactly what its history says: after any
    sequence of publications and withdrawals by any clients, a path is answered
    if and only if it is the well-known prefix followed by a token whose latest
    accepted publication is at most an hour old and was not withdrawn by its own
    publisher; the answer is that publication's key authorisation. *)
Theorem Answer_refines history path now :
  clocked now history ->
  Answer path now (foldr (fun e s => step s e) NewChallengeStore history)
  = (let '(token, found) := CutPrefix path challengePrefix in
     if found
     then match published token history with
          | Some (_, auth, at_) => if at_ + challengeTTL <? now then None else Some auth
          | None => None
          end
     else None).
Proof.
  intros Hc. unfold Answer, CutPrefix, TrimPrefix.
  destruct (HasPrefix path challengePrefix); cbn [negb]; [|done].
  set (token := drop _ path). pose proof (run_holds history now token Hc) as Hh.
  set (s := foldr _ _ history) in *. unfold holds in Hh.
  destruct (published token history) as [[[r a] at_]|] eqn:Ep.
  - destruct (acceptable_token _ _ (published_acceptable _ _ _ _ _ Ep)) as [Hne Hsl].
    rewrite (bool_decide_false (token = [])), Hsl by done. cbn [orb].
    destruct (s !! token) as [c|].
    + destruct Hh as (-> & _ & ->). done.
    + by rewrite (proj2 (Z.ltb_lt _ _) Hh).
  - rewrite Hh. by destruct (_ || _).
Qed.

Definition example_history : list event :=
  [EvWithdraw (go "run2") (go "tok"); EvPublish (go "run1") (go "a.example") (go "tok") (go "tok.key") 5].

Lemma Answer_refines_witness :
  Answer (challengePrefix ++ go "tok") Minute
    (foldr (fun e s => step s e) NewChallengeStore example_history)
  = Some (go "tok.key").
Proof.
  rewrite (Answer_refines example_history (challengePrefix ++ go "tok") Minute).
  - by vm_compute.
  - vm_compute. split; [congruence|done].
Defined.
