(* ===== verification/CertStore.v ===== *)
(** The certificates of the edge: [internal/tunnel/server/certstore.go].

    Parsing PEM and X.509 is the standard library's, class [X509]: a valid pair
    yields its leaf, and a leaf its DNS names and expiry.  The store keeps its
    map and the table derived from it that handshakes read; [covering] is the
    specification, which reads the history of the accepted installations. *)
From S2P Require Import Prelude GoStrings.

Class X509 := {
  X509KeyPair : bytes -> bytes -> option bytes;
  ParseCertificate : bytes -> option (list bytes * Z)
}.

(** A [tls.Certificate]: the PEM pair it was built from. *)
Abbreviation certificate := (bytes * bytes)%type.

Record storedCert := MkStored {
  pattern : bytes;
  cert : certificate;
  notAfter : Z;
  domains : list bytes
}.
Record certTable := MkCertTable {
  exact : gmap bytes storedCert;
  wildcards : gmap bytes storedCert;
  ct_count : nat
}.
Record CertStore := MkCertStore {
  cs_current : certTable;
  certs : gmap bytes storedCert
}.

Inductive certerr : Type :=
  | ErrBadPair
  | ErrBadCertificate
  | ErrNoDNSNames
  | ErrExpired (notAfter : Z)
  | ErrNoSNI
  | ErrNoCertificate (name : bytes).

Definition NewCertStore : CertStore := MkCertStore (MkCertTable ∅ ∅ 0) ∅.

Definition star_dot : bytes := [x2a; x2e].

Definition rebuild_entry (next : certTable) (p : bytes * storedCert) : certTable :=
  let '(zone, found) := CutPrefix p.1 star_dot in
  if found
  then MkCertTable (exact next) (<[zone := p.2]> (wildcards next)) (S (ct_count next))
  else MkCertTable (<[p.1 := p.2]> (exact next)) (wildcards next) (S (ct_count next)).

(** Go walks the map in no fixed order; [rebuild_derived] shows that the order
    does not matter. *)
Definition rebuildLocked (certs : gmap bytes storedCert) : CertStore :=
  MkCertStore (map_fold (fun k v next => rebuild_entry next (k, v)) (MkCertTable ∅ ∅ 0) certs) certs.

Section certstore.
Context `{X509} `{Unicode}.

Definition cert_pattern (name : bytes) : bytes := ToLower (TrimSuffix name [x2e]).

Definition store_name (c : certificate) (na : Z) (names : list bytes)
  (m : gmap bytes storedCert) (name : bytes) : gmap bytes storedCert :=
  <[cert_pattern name := MkStored (cert_pattern name) c na names]> m.

Definition Install (fullchainPEM privateKeyPEM : bytes) (now : Z) (s : CertStore)
  : res certerr (list bytes) * CertStore :=
  match X509KeyPair fullchainPEM privateKeyPEM with
  | None => (Err ErrBadPair, s)
  | Some leafDER =>
      match ParseCertificate leafDER with
      | None => (Err ErrBadCertificate, s)
      | Some (DNSNames, na) =>
          if (length DNSNames =? 0)%nat then (Err ErrNoDNSNames, s)
          else if na <? now then (Err (ErrExpired na), s)
          else
            let c := (fullchainPEM, privateKeyPEM) in
            (Ok (cert_pattern <$> DNSNames),
             rebuildLocked (foldl (store_name c na DNSNames) (certs s) DNSNames))
      end
  end.

Definition GetCertificate (serverName : bytes) (s : CertStore) : res certerr certificate :=
  let name := cert_pattern serverName in
  if bool_decide (name = []) then Err ErrNoSNI
  else
    let table := cs_current s in
    match exact table !! name with
    | Some entry => Ok (cert entry)
    | None =>
        match IndexByte name x2e with
        | Some (S _ as idx) =>
            match wildcards table !! drop (idx + 1) name with
            | Some entry => Ok (cert entry)
            | None => Err (ErrNoCertificate name)
            end
        | _ => Err (ErrNoCertificate name)
        end
    end.

Definition Has (name : bytes) (s : CertStore) : bool := is_ok (GetCertificate name s).
Definition cs_Len (s : CertStore) : nat := ct_count (cs_current s).

(** ** Specification *)

Record install := MkInstall { i_chain : bytes; i_key : bytes; i_now : Z }.

(** The names an installation puts in the store; none if it is refused. *)
Definition accepted (i : install) : list bytes :=
  match X509KeyPair (i_chain i) (i_key i) ≫= ParseCertificate with
  | Some (names, na) => if na <? i_now i then [] else cert_pattern <$> names
  | None => []
  end.

(** The certificate on record for a pattern: the latest accepted that names
    it; the history is newest first. *)
Fixpoint on_record (pat : bytes) (history : list install) : option certificate :=
  match history with
  | [] => None
  | i :: earlier => if bool_decide (pat ∈ accepted i) then Some (i_chain i, i_key i)
                    else on_record pat earlier
  end.

(** Who covers a name: itself, or the wildcard one label up. *)
Definition covering (name : bytes) (history : list install) : option certificate :=
  let wild := match IndexByte name x2e with
              | Some (S _ as idx) => on_record (star_dot ++ drop (idx + 1) name) history
              | _ => None
              end in
  if HasPrefix name star_dot then wild
  else match on_record name history with Some c => Some c | None => wild end.

Definition install_all (history : list install) : CertStore :=
  foldr (fun i s => (Install (i_chain i) (i_key i) (i_now i) s).2) NewCertStore history.

(** ** Lemmas *)

(** The derived table, entry by entry. *)
Definition derived (m : gmap bytes storedCert) (t : certTable) : Prop :=
  (forall n, exact t !! n = if HasPrefix n star_dot then None else m !! n)
  /\ (forall z, wildcards t !! z = m !! (star_dot ++ z))
  /\ ct_count t = size m.

Lemma derived_empty : derived ∅ (MkCertTable ∅ ∅ 0).
Proof.
  split_and!; [|done|done]. intros n. cbn [exact]. rewrite !lookup_empty. by destruct (HasPrefix _ _).
Qed.

Lemma rebuild_entry_derived m t p :
  m !! p.1 = None -> derived m t -> derived (<[p.1 := p.2]> m) (rebuild_entry t p).
Proof.
  intros Hn (He & Hw & Hc). unfold rebuild_entry, CutPrefix.
  destruct (HasPrefix p.1 star_dot) eqn:E; split_and!; cbn [exact wildcards ct_count].
  - intros n. rewrite He. destruct (HasPrefix n star_dot) eqn:En; [done|].
    rewrite lookup_insert_ne by congruence. done.
  - intros z. pose proof E as [k Hk]%HasPrefix_true. rewrite Hk. 
    change (drop (length star_dot) (star_dot ++ k)) with k.
    destruct (decide (k = z)) as [->|Hne]; [by rewrite !lookup_insert_eq|].
    rewrite !lookup_insert_ne; [done| |done]. intros [=]. done.
  - rewrite map_size_insert_None by done. by rewrite Hc.
  - intros n. destruct (decide (p.1 = n)) as [<-|Hne].
    + by rewrite E, !lookup_insert_eq.
    + rewrite !lookup_insert_ne by done. apply He.
  - intros z. rewrite Hw, lookup_insert_ne; [done|]. intros Hp.
    rewrite Hp, HasPrefix_app in E. done.
  - rewrite map_size_insert_None by done. by rewrite Hc.
Qed.

Lemma rebuild_derived m : derived m (cs_current (rebuildLocked m)).
Proof.
  unfold rebuildLocked. cbn [cs_current].
  apply (map_fold_weak_ind (fun t m => derived m t)).
  - exact derived_empty.
  - intros k v m' t Hk Hd. by apply (rebuild_entry_derived m' t (k, v)).
Qed.

(** Storing the names of a certificate. *)
Lemma store_names_lookup c na all names m pat :
  foldl (store_name c na all) m names !! pat
  = if bool_decide (pat ∈ cert_pattern <$> names)
    then Some (MkStored pat c na all) else m !! pat.
Proof.
  revert m; induction names as [|n names IH]; intros m; [done|].
  cbn [foldl]. rewrite IH. unfold store_name.
  destruct (decide (pat ∈ cert_pattern <$> names)) as [Hin|Hin].
  - rewrite !bool_decide_true; [done| |done]. cbn [fmap list_fmap]. by right.
  - rewrite (bool_decide_false (pat ∈ cert_pattern <$> names)) by done.
    destruct (decide (cert_pattern n = pat)) as [<-|Hne].
    + rewrite lookup_insert_eq, bool_decide_true; [done|]. cbn [fmap list_fmap]. by left.
    + rewrite lookup_insert_ne, bool_decide_false; [done| |done].
      cbn [fmap list_fmap]. rewrite elem_of_cons. intros [?|?]; congruence.
Qed.

Definition store_ok (history : list install) (s : CertStore) : Prop :=
  derived (certs s) (cs_current s)
  /\ forall pat, cert <$> certs s !! pat = on_record pat history.

Lemma Install_ok history i s :
  store_ok history s ->
  store_ok (i :: history) (Install (i_chain i) (i_key i) (i_now i) s).2.
Proof.
  intros [Hd Hr].
  assert (Hno : accepted i = [] -> store_ok (i :: history) s).
  { intros E. split; [done|]. intros pat. cbn [on_record]. rewrite E.
    rewrite bool_decide_false by set_solver. apply Hr. }
  unfold Install. destruct (X509KeyPair (i_chain i) (i_key i)) as [der|] eqn:E1.
  2: { apply Hno. unfold accepted. by rewrite E1. }
  destruct (ParseCertificate der) as [[names na]|] eqn:E2.
  2: { apply Hno. unfold accepted. rewrite E1. cbn [mbind option_bind]. by rewrite E2. }
  assert (Hacc : accepted i = if na <? i_now i then [] else cert_pattern <$> names).
  { unfold accepted. rewrite E1. cbn [mbind option_bind]. by rewrite E2. }
  destruct (Nat.eqb_spec (length names) 0) as [E|E].
  { apply nil_length_inv in E. subst names. apply Hno. rewrite Hacc. by destruct (na <? _). }
  destruct (na <? i_now i); [by apply Hno|]. clear Hno. cbn [snd].
  split; [apply rebuild_derived|]. intros pat. cbn [certs rebuildLocked on_record].
  rewrite Hacc, store_names_lookup. case_bool_decide; [done|apply Hr].
Qed.

Lemma install_all_ok history : store_ok history (install_all history).
Proof.
  induction history as [|i history IH]; [|by apply Install_ok].
  split; [exact derived_empty|done].
Qed.

(** C31: The edge serves the right certificate: after any sequence of
    installations, accepted or refused, a handshake for a server name gets
    the latest accepted certificate that names it, or else the latest that
    names the wildcard one label up, or an error; no wildcard ever covers
    two labels, and a refused installation changes nothing. *)
Theorem GetCertificate_refines serverName history :
  GetCertificate serverName (install_all history)
  = (let name := cert_pattern serverName in
     if bool_decide (name = []) then Err ErrNoSNI
     else match covering name history with
          | Some c => Ok c
          | None => Err (ErrNoCertificate name)
          end).
Proof.
  unfold GetCertificate, covering. set (name := cert_pattern serverName).
  destruct (install_all_ok history) as [(He & Hw & _) Hr]. set (s := install_all history) in *.
  case_bool_decide; [done|]. rewrite He. cbn zeta.
  assert (Hwild : match IndexByte name x2e with
                  | Some (S _ as idx) =>
                      match wildcards (cs_current s) !! drop (idx + 1) name with
                      | Some entry => Ok (cert entry)
                      | None => Err (ErrNoCertificate name)
                      end
                  | _ => Err (ErrNoCertificate name)
                  end
                  = match (match IndexByte name x2e with
                           | Some (S _ as idx) => on_record (star_dot ++ drop (idx + 1) name) history
                           | _ => None
                           end) with
                    | Some c => Ok c
                    | None => Err (ErrNoCertificate name)
                    end :> res certerr certificate).
  { destruct (IndexByte name x2e) as [[|idx]|]; [done| |done].
    rewrite Hw, <- Hr. by destruct (certs s !! _). }
  destruct (HasPrefix name star_dot); [exact Hwild|].
  rewrite <- Hr. destruct (certs s !! name); [done|exact Hwild].
Qed.
End certstore.
