(* ===== verification/Session.v ===== *)
(** A client's session on the server: [internal/tunnel/server] (session.go,
    limits.go) and the kinds of proxy it publishes
    ([internal/tunnel/server/proxy]: proxy.go, vhost.go and the constructors of
    tcp.go and udp.go).

    Connections, streams and overflow carriers are identities.  What the network
    answers (whether a first message can be written, what a carrier's [Open]
    gives, what a listener binds) is an argument of the operation that asks.
    Atomic counters count connections and are unbounded.  A session lists what
    it has closed, what it has handed to visitors and what it has asked of the
    client, so that nothing it does is invisible. *)
From S2P Require Import Prelude GoStrings Messages Pattern Router Limiter.

(** ** Limits (limits.go) *)

Module Limits.
Record TunnelLimits := MkTunnelLimits {
  down : option Limiter;
  up : option Limiter;
  quota : Z;
  used : Z
}.
(** The table holds pointers; a relay keeps the one it started with. *)
Record Limits := MkLimits {
  objects : list TunnelLimits;
  tunnels : gmap bytes nat
}.

Definition NewLimits : Limits := MkLimits [] ∅.

Definition Remove (name : bytes) (l : Limits) : Limits :=
  MkLimits (objects l) (delete name (tunnels l)).

Definition For (name : bytes) (l : Limits) : option nat := tunnels l !! name.

Definition deref (p : option nat) (l : Limits) : option TunnelLimits :=
  p ≫= fun i => objects l !! i.

Definition Publish (spec : ProxySpec) (now : Z) (l : Limits) : Limits :=
  if (DownRate spec <=? 0) && (UpRate spec <=? 0) && (Quota spec <=? 0)
  then Remove (spec_Name spec) l
  else
    let previous := match deref (For (spec_Name spec) l) l with
                    | Some t => used t | None => 0 end in
    let limits := MkTunnelLimits (NewLimiter (DownRate spec) now) (NewLimiter (UpRate spec) now)
                    (Quota spec) previous in
    MkLimits (objects l ++ [limits]) (<[spec_Name spec := length (objects l)]> (tunnels l)).

(** Toward the client, then toward the visitor. *)
Definition Rates (p : option nat) (l : Limits) : option Limiter * option Limiter :=
  match deref p l with Some t => (up t, down t) | None => (None, None) end.

Definition Exhausted (p : option nat) (l : Limits) : bool :=
  match deref p l with
  | Some t => if quota t <=? 0 then false else quota t <=? used t
  | None => false
  end.

Definition spend_one (n : Z) (t : TunnelLimits) : TunnelLimits :=
  if (quota t <=? 0) || (n <=? 0) then t
  else MkTunnelLimits (down t) (up t) (quota t) (i64 (used t + n)).

Definition Spend (p : option nat) (n : Z) (l : Limits) : Limits :=
  match p with
  | Some i => MkLimits (alter (spend_one n) i (objects l)) (tunnels l)
  | None => l
  end.

Definition Usage (p : option nat) (l : Limits) : Z * Z :=
  match deref p l with Some t => (used t, quota t) | None => (0, 0) end.
End Limits.

(** ** Proxies *)

Inductive Proxy : Type :=
  | tcpProxy (port : Z)
  | udpProxy (port : Z)
  | vhostProxy (scheme : bytes) (domains : list bytes) (tlsMode : bytes) (port : Z).

Inductive sesserr : Type :=
  | ErrPublished (name : bytes)
  | ErrNotPublished (name : bytes)
  | ErrUnsupportedKind (kind : bytes)
  | ErrPortRange (port : Z)
  | ErrNeedsDomain
  | ErrNoVhostListener
  | ErrDomain (e : verr)
  | ErrBind (what : bytes)
  | ErrSessionClosed
  | ErrContext
  | ErrWorkConnTimeout
  | ErrStart.

Definition Proxy_RemotePort (p : Proxy) : Z :=
  match p with tcpProxy port | udpProxy port | vhostProxy _ _ _ port => port end.

(** ** The session *)

Definition maxOverflowCarriers : nat := 8.

(** The pool of work connections and the requests for more. *)
Record Pool := MkPool {
  workConns : list N;             (* the channel, oldest first *)
  poolMax : Z;                    (* its capacity *)
  poolTarget : Z;
  poolInFlight : Z;
  poolArrivals : Z;
  lastArrivals : Z;               (* the variable of [tendPool] *)
  refillTarget : Z;
  poolMisses : Z;
  reqPending : Z;
  reqKick : bool;                 (* a token in the channel [reqKick] *)
  requests : list Z               (* the counts of the [ReqWorkConn] written *)
}.

(** The multiplexed carriers: the slice [overflow] is the first [ov_len] cells
    of its array, which a reader that took the slice earlier still sees. *)
Record Overflow := MkOverflow {
  ov_cells : list N;
  ov_len : nat;
  overflowNext : nat;
  carriers_closed : list N
}.

(** What has become of the connections the session was given. *)
Record Ledger := MkLedger {
  closed : list N;
  opened : list N;                      (* streams opened on carriers *)
  handed : list (N * (bytes * bytes))   (* to a visitor: the proxy and the source *)
}.

Record Session := MkSession {
  runID : bytes;
  ctrlConn : N;
  pool : Pool;
  overflow : Overflow;
  proxies : gmap bytes Proxy;
  limits : Limits.Limits;
  done_ : bool;
  ledger : Ledger
}.

Definition set_workConns (w : list N) (p : Pool) : Pool :=
  MkPool w (poolMax p) (poolTarget p) (poolInFlight p) (poolArrivals p) (lastArrivals p)
    (refillTarget p) (poolMisses p) (reqPending p) (reqKick p) (requests p).
Definition set_inFlight (n : Z) (p : Pool) : Pool :=
  MkPool (workConns p) (poolMax p) (poolTarget p) n (poolArrivals p) (lastArrivals p)
    (refillTarget p) (poolMisses p) (reqPending p) (reqKick p) (requests p).
Definition set_arrivals (n : Z) (p : Pool) : Pool :=
  MkPool (workConns p) (poolMax p) (poolTarget p) (poolInFlight p) n (lastArrivals p)
    (refillTarget p) (poolMisses p) (reqPending p) (reqKick p) (requests p).
Definition set_last (n : Z) (p : Pool) : Pool :=
  MkPool (workConns p) (poolMax p) (poolTarget p) (poolInFlight p) (poolArrivals p) n
    (refillTarget p) (poolMisses p) (reqPending p) (reqKick p) (requests p).
Definition set_refill (n : Z) (p : Pool) : Pool :=
  MkPool (workConns p) (poolMax p) (poolTarget p) (poolInFlight p) (poolArrivals p) (lastArrivals p)
    n (poolMisses p) (reqPending p) (reqKick p) (requests p).
Definition set_misses (n : Z) (p : Pool) : Pool :=
  MkPool (workConns p) (poolMax p) (poolTarget p) (poolInFlight p) (poolArrivals p) (lastArrivals p)
    (refillTarget p) n (reqPending p) (reqKick p) (requests p).
Definition set_request (pending : Z) (kick : bool) (reqs : list Z) (p : Pool) : Pool :=
  MkPool (workConns p) (poolMax p) (poolTarget p) (poolInFlight p) (poolArrivals p) (lastArrivals p)
    (refillTarget p) (poolMisses p) pending kick reqs.

Definition on_pool (f : Pool -> Pool) (s : Session) : Session :=
  MkSession (runID s) (ctrlConn s) (f (pool s)) (overflow s) (proxies s) (limits s) (done_ s) (ledger s).
Definition on_overflow (f : Overflow -> Overflow) (s : Session) : Session :=
  MkSession (runID s) (ctrlConn s) (pool s) (f (overflow s)) (proxies s) (limits s) (done_ s) (ledger s).
Definition on_ledger (f : Ledger -> Ledger) (s : Session) : Session :=
  MkSession (runID s) (ctrlConn s) (pool s) (overflow s) (proxies s) (limits s) (done_ s) (f (ledger s)).
Definition set_proxies (ps : gmap bytes Proxy) (l : Limits.Limits) (s : Session) : Session :=
  MkSession (runID s) (ctrlConn s) (pool s) (overflow s) ps l (done_ s) (ledger s).

(** [conn.Close()], the opening of a stream, a connection given to a visitor. *)
Definition close_conns (cs : list N) : Session -> Session :=
  on_ledger (fun l => MkLedger (cs ++ closed l) (opened l) (handed l)).
Definition open_stream (c : N) : Session -> Session :=
  on_ledger (fun l => MkLedger (closed l) (c :: opened l) (handed l)).
Definition hand_over (c : N) (proxyName source : bytes) : Session -> Session :=
  on_ledger (fun l => MkLedger (closed l) (opened l) ((c, (proxyName, source)) :: handed l)).

Record SessionOptions := MkSessionOptions {
  o_RunID : bytes;
  o_Conn : N;
  o_PoolTarget : Z;
  o_MaxPool : Z
}.

Definition newSession (o : SessionOptions) : Session :=
  let capacity := if o_MaxPool o <? 1 then 1 else o_MaxPool o in
  MkSession (o_RunID o) (o_Conn o)
    (MkPool [] capacity (o_PoolTarget o) 0 0 0 (o_PoolTarget o) 0 0 false [])
    (MkOverflow [] 0 0 []) ∅ Limits.NewLimits false (MkLedger [] [] []).

(** *** Asking the client for connections *)

Definition requestWorkConns (n : Z) (s : Session) : Session :=
  if n <=? 0 then s
  else on_pool (fun p => set_request (reqPending p + n) true (requests p) p) s.

(** A round of [workConnRequester] once the kick arrives; a failed write is
    only logged. *)
Definition workConnRequester (written : bool) (s : Session) : Session :=
  if done_ s || negb (reqKick (pool s)) then s
  else
    let n := reqPending (pool s) in
    let s := on_pool (fun p => set_request 0 false (requests p) p) s in
    if n <=? 0 then s
    else if written
    then on_pool (fun p => set_request (reqPending p) (reqKick p)
                             (Z.min n (poolMax p) :: requests p) p) s
    else s.

Definition HasOverflow (s : Session) : bool := (0 <? ov_len (overflow s))%nat.

Definition topUpPool (s : Session) : Session :=
  let p := pool s in
  let inFlight := poolInFlight p in
  let len := Z.of_nat (length (workConns p)) in
  let deficit := refillTarget p - len - inFlight in
  if deficit <=? 0 then s
  else
    let room := poolMax p - len - inFlight in
    let deficit := if room <? deficit then room else deficit in
    if deficit <=? 0 then s
    else requestWorkConns deficit (on_pool (fun p => set_inFlight (poolInFlight p + deficit) p) s).

Definition replenishPool (s : Session) : Session :=
  if HasOverflow s then s else topUpPool s.

Definition adjustRefillTarget (stalled : bool) (s : Session) : Session :=
  let target := refillTarget (pool s) in
  let misses := poolMisses (pool s) in
  let s := on_pool (set_misses 0) s in
  if stalled
  then on_pool (set_refill (Z.max (godiv target 2) (poolTarget (pool s)))) s
  else if (0 <? misses) && (target <? poolMax (pool s))
  then on_pool (set_refill (target + 1)) s
  else s.

(** The two tickers of [tendPool]. *)
Definition refill_tick (s : Session) : Session :=
  if negb (HasOverflow s) then s
  else
    let arrivals := poolArrivals (pool s) in
    let stalled := (arrivals =? lastArrivals (pool s)) && (0 <? poolInFlight (pool s)) in
    let s := if stalled then on_pool (set_inFlight 0) s else s in
    topUpPool (adjustRefillTarget stalled (on_pool (set_last arrivals) s)).

Definition sweep_tick (s : Session) : Session :=
  if HasOverflow s then s
  else
    let arrivals := poolArrivals (pool s) in
    let s := if (arrivals =? lastArrivals (pool s)) && (0 <? poolInFlight (pool s))
             then on_pool (set_inFlight 0) s else s in
    on_pool (set_last arrivals) s.

(** *** The pool *)

(** [if left < 0 { Store(0) }]. *)
Definition floor0 (left : Z) : Z := if left <? 0 then 0 else left.

(** [select] takes any case that is ready: when the session is done and the
    channel has room, [choose] says which. *)
Definition AddWorkConn (c : N) (choose : bool) (s : Session) : Session :=
  let s := on_pool (fun p => set_arrivals (poolArrivals p + 1)
                               (set_inFlight (floor0 (poolInFlight p - 1)) p)) s in
  let room := Z.of_nat (length (workConns (pool s))) <? poolMax (pool s) in
  if (done_ s && (negb room || choose)) || (negb (done_ s) && negb room)
  then close_conns [c] s
  else on_pool (fun p => set_workConns (workConns p ++ [c]) p) s.

(** The loop of [GetWorkConn] over the pooled connections: the stale ones, the
    first that takes its start message, and the rest. *)
Fixpoint take_pooled (start : N -> bool) (ws : list N) : list N * option N * list N :=
  match ws with
  | [] => ([], None, [])
  | c :: ws =>
      if start c then ([], Some c, ws)
      else let '(stale, found, rest) := take_pooled start ws in (c :: stale, found, rest)
  end.

Definition DrainPool (s : Session) : nat * Session :=
  (length (workConns (pool s)),
   close_conns (workConns (pool s)) (on_pool (set_workConns []) s)).

(** *** Overflow carriers *)

Definition SetOverflow (source : N) (s : Session) : Session :=
  let o := overflow s in
  if (maxOverflowCarriers <=? ov_len o)%nat
  then on_overflow (fun o => MkOverflow (ov_cells o) (ov_len o) (overflowNext o)
                               (source :: carriers_closed o)) s
  else on_overflow (fun o => MkOverflow
         (take (ov_len o) (ov_cells o) ++ source :: drop (S (ov_len o)) (ov_cells o))
         (S (ov_len o)) (overflowNext o) (carriers_closed o)) s.

(** [kept := s.overflow[:0]] appends in place: the array is overwritten. *)
Definition dropOverflow (failed : N) (s : Session) : Session :=
  on_overflow (fun o =>
    let kept := filter (fun c => c <> failed) (take (ov_len o) (ov_cells o)) in
    MkOverflow (kept ++ drop (length kept) (ov_cells o)) (length kept) (overflowNext o)
      (failed :: carriers_closed o)) s.

Inductive open_result : Type :=
  | Opened (stream : N)
  | OpenFailed
  | OpenTimeout.                  (* the context ended *)

(** The attempts of [overflowConn]: [n] is the length of the slice taken at the
    start, whose array [dropOverflow] rewrites between attempts. *)
Fixpoint overflow_loop (open : N -> open_result) (start : N -> bool)
  (n base : nat) (attempts : nat) (s : Session) : option N * Session :=
  match attempts with
  | O => (None, s)
  | S rest =>
      let attempt := (n - attempts)%nat in
      let source := default 0%N (ov_cells (overflow s) !! ((base + attempt) mod n)%nat) in
      match open source with
      | OpenTimeout => (None, s)
      | OpenFailed => overflow_loop open start n base rest (dropOverflow source s)
      | Opened stream =>
          let s := open_stream stream s in
          if start stream then (Some stream, s)
          else overflow_loop open start n base rest (dropOverflow source (close_conns [stream] s))
      end
  end.

Definition overflowConn (open : N -> open_result) (start : N -> bool) (s : Session)
  : option N * Session :=
  let n := ov_len (overflow s) in
  if (n =? 0)%nat then (None, s)
  else
    let base := overflowNext (overflow s) in
    let s := on_overflow (fun o => MkOverflow (ov_cells o) (ov_len o) (S (overflowNext o))
                                     (carriers_closed o)) s in
    overflow_loop open start n base n s.

(** *** A visitor asks for a connection *)

Inductive get_result : Type :=
  | Got (c : N)
  | Failed (e : sesserr)
  | Waiting.                      (* in [waitWorkConn], for [finish_get] to end *)

Definition begin_get (open : N -> open_result) (start : N -> bool) (proxyName source : bytes)
  (s : Session) : get_result * Session :=
  let '(stale, found, rest) := take_pooled start (workConns (pool s)) in
  let s := close_conns stale (on_pool (set_workConns rest) s) in
  match found with
  | Some c => (Got c, replenishPool (hand_over c proxyName source s))
  | None =>
      let s := on_pool (fun p => set_misses (poolMisses p + 1) p) s in
      match overflowConn open start s with
      | (Some c, s) => (Got c, replenishPool (hand_over c proxyName source s))
      | (None, s) =>
          if done_ s then (Failed ErrSessionClosed, replenishPool s)
          else (Waiting, requestWorkConns 1 (on_pool (fun p => set_inFlight (poolInFlight p + 1) p) s))
      end
  end.

Inductive wait_outcome : Type :=
  | Arrived                       (* a connection came out of the channel *)
  | ContextDone
  | SessionDone
  | TimedOut.

(** The [select] of [waitWorkConn] and what follows it; [None] when the chosen
    case is not ready. *)
Definition finish_get (w : wait_outcome) (start : N -> bool) (proxyName source : bytes)
  (s : Session) : option (get_result * Session) :=
  match w with
  | Arrived =>
      match workConns (pool s) with
      | [] => None
      | c :: rest =>
          let s := on_pool (set_workConns rest) s in
          if start c then Some (Got c, replenishPool (hand_over c proxyName source s))
          else Some (Failed ErrStart, replenishPool (close_conns [c] s))
      end
  | ContextDone => Some (Failed ErrContext, replenishPool s)
  | SessionDone => if done_ s then Some (Failed ErrSessionClosed, replenishPool s) else None
  | TimedOut => Some (Failed ErrWorkConnTimeout, replenishPool s)
  end.

(** *** Publishing *)

(** What a session knows of its server: the vhost ports, and whether there is
    a vhost listener at all. *)
Record Vhosts := MkVhosts { has_routes : bool; vhostHTTPPort : Z; vhostHTTPSPort : Z }.

Section publish.
Context `{Unicode} `{Idna}.

Definition newVhostProxy (v : Vhosts) (scheme : bytes) (spec : ProxySpec) : res sesserr Proxy :=
  match Domains spec with
  | [] => Err ErrNeedsDomain
  | _ =>
      if negb (has_routes v) then Err ErrNoVhostListener
      else
        _ ← map_err ErrDomain (first_err (fun d => _ ← ParsePattern d; Ok tt) (Domains spec));
        Ok (vhostProxy scheme (Domains spec) (TLSMode spec)
              (if bool_decide (scheme = SchemeHTTPS) then vhostHTTPSPort v else vhostHTTPPort v))
  end.

Definition port_in_range (port : Z) : bool := (0 <=? port) && (port <=? 65535).

(** [proxy.New]: the factories by kind. *)
Definition proxy_New (v : Vhosts) (spec : ProxySpec) : res sesserr Proxy :=
  if bool_decide (Kind spec = go "tcp") then
    if port_in_range (RemotePort spec) then Ok (tcpProxy (RemotePort spec))
    else Err (ErrPortRange (RemotePort spec))
  else if bool_decide (Kind spec = go "udp") then
    if port_in_range (RemotePort spec) then Ok (udpProxy (RemotePort spec))
    else Err (ErrPortRange (RemotePort spec))
  else if bool_decide (Kind spec = SchemeHTTP) then newVhostProxy v SchemeHTTP spec
  else if bool_decide (Kind spec = SchemeHTTPS) then newVhostProxy v SchemeHTTPS spec
  else Err (ErrUnsupportedKind (Kind spec)).

(** [proxy.Bind]: a listener answers with its port, a vhost proxy claims its
    domains. *)
Definition Bind (run name : bytes) (listen : Z -> res bytes Z) (p : Proxy) (r : Router)
  : res sesserr Proxy * Router :=
  match p with
  | tcpProxy port => (port ← map_err ErrBind (listen port); Ok (tcpProxy port), r)
  | udpProxy port => (port ← map_err ErrBind (listen port); Ok (udpProxy port), r)
  | vhostProxy _ domains tls _ =>
      match Add domains (MkRoute [] run name tls) r with
      | (Ok _, r) => (Ok p, r)
      | (Err e, r) => (Err (ErrDomain e), r)
      end
  end.

(** [p.Close()] of a bound proxy: a vhost proxy gives its names back. *)
Definition proxy_Close (run name : bytes) (p : Proxy) (r : Router) : Router :=
  match p with
  | vhostProxy _ _ _ _ => Remove run name r
  | _ => r
  end.

Definition AddProxy (v : Vhosts) (spec : ProxySpec) (now : Z) (listen : Z -> res bytes Z)
  (s : Session) (r : Router) : res sesserr Z * Session * Router :=
  match proxies s !! spec_Name spec with
  | Some _ => (Err (ErrPublished (spec_Name spec)), s, r)
  | None =>
      let s := set_proxies (proxies s) (Limits.Publish spec now (limits s)) s in
      match proxy_New v spec with
      | Err e => (Err e, s, r)
      | Ok p =>
          match Bind (runID s) (spec_Name spec) listen p r with
          | (Err e, r) => (Err e, s, r)
          | (Ok p, r) =>
              (Ok (Proxy_RemotePort p),
               set_proxies (<[spec_Name spec := p]> (proxies s)) (limits s) s, r)
          end
      end
  end.

(** [AddProxy] holds the lock of the proxies only at its ends: to its first
    part, which binds, and its second, which keeps the proxy or gives it back. *)
Definition AddProxy_bind (v : Vhosts) (spec : ProxySpec) (now : Z) (listen : Z -> res bytes Z)
  (s : Session) (r : Router) : res sesserr Proxy * Session * Router :=
  match proxies s !! spec_Name spec with
  | Some _ => (Err (ErrPublished (spec_Name spec)), s, r)
  | None =>
      let s := set_proxies (proxies s) (Limits.Publish spec now (limits s)) s in
      match proxy_New v spec with
      | Err e => (Err e, s, r)
      | Ok p => let '(b, r) := Bind (runID s) (spec_Name spec) listen p r in (b, s, r)
      end
  end.

Definition AddProxy_keep (name : bytes) (p : Proxy) (s : Session) (r : Router) : res sesserr Z * Session * Router :=
  match proxies s !! name with
  | Some _ => (Err (ErrPublished name), s, proxy_Close (runID s) name p r)
  | None => (Ok (Proxy_RemotePort p), set_proxies (<[name := p]> (proxies s)) (limits s) s, r)
  end.

Definition RemoveProxy (name : bytes) (s : Session) (r : Router)
  : res sesserr unit * Session * Router :=
  match proxies s !! name with
  | None => (Err (ErrNotPublished name), s, r)
  | Some p =>
      (Ok tt, set_proxies (delete name (proxies s)) (Limits.Remove name (limits s)) s,
       proxy_Close (runID s) name p r)
  end.

Definition ProxyPort (name : bytes) (s : Session) : option Z :=
  Proxy_RemotePort <$> proxies s !! name.
Definition ProxyNames (s : Session) : list bytes := (map_to_list (proxies s)).*1.

(** [Close], once: the names, the carriers, the proxies, the pool; [done_] also
    stands for the control connection being closed. *)
Definition Close (v : Vhosts) (s : Session) (r : Router) : Session * Router :=
  if done_ s then (s, r)
  else
    let r := if has_routes v then RemoveClient (runID s) r else r in
    let o := overflow s in
    let r := foldl (fun r kv => proxy_Close (runID s) kv.1 kv.2 r) r (map_to_list (proxies s)) in
    (MkSession (runID s) (ctrlConn s) (set_workConns [] (pool s))
       (MkOverflow [] 0 (overflowNext o) (take (ov_len o) (ov_cells o) ++ carriers_closed o))
       ∅ (limits s) true
       (MkLedger (workConns (pool s) ++ closed (ledger s)) (opened (ledger s))
          (handed (ledger s))),
     r).
End publish.

(** ** Everything that happens to a session, in the order it happens *)

Inductive sop : Type :=
  | SAddWorkConn (c : N) (choose : bool)
  | SBegin (open : N -> open_result) (start : N -> bool) (proxyName source : bytes)
  | SFinish (w : wait_outcome) (start : N -> bool) (proxyName source : bytes)
  | SRequester (written : bool)
  | SRefill
  | SSweep
  | SSetOverflow (source : N)
  | SDrain
  | SRequest (n : Z)              (* the first request, by [handleLogin] *)
  | SPublish (spec : ProxySpec) (now : Z) (listen : Z -> res bytes Z)
  | SWithdraw (name : bytes)
  | SSpend (name : bytes) (n : Z)
  | SClose.

Definition apply_sop `{Unicode} `{Idna} (v : Vhosts) (sr : Session * Router) (o : sop)
  : Session * Router :=
  let '(s, r) := sr in
  match o with
  | SAddWorkConn c choose => (AddWorkConn c choose s, r)
  | SBegin open start name source => ((begin_get open start name source s).2, r)
  | SFinish w start name source =>
      (match finish_get w start name source s with Some (_, s) => s | None => s end, r)
  | SRequester written => (workConnRequester written s, r)
  | SRefill => (refill_tick s, r)
  | SSweep => (sweep_tick s, r)
  | SSetOverflow source => (SetOverflow source s, r)
  | SDrain => ((DrainPool s).2, r)
  | SRequest n => (requestWorkConns n s, r)
  | SPublish spec now listen =>
      let '(_, s, r) := AddProxy v spec now listen s r in (s, r)
  | SWithdraw name => let '(_, s, r) := RemoveProxy name s r in (s, r)
  | SSpend name n =>
      (set_proxies (proxies s) (Limits.Spend (Limits.For name (limits s)) n (limits s)) s, r)
  | SClose => Close v s r
  end.

Definition arrivals (o : sop) : list N :=
  match o with SAddWorkConn c _ => [c] | _ => [] end.

(** ** Lemmas: no connection is lost *)

Definition occ (c : N) (l : list N) : nat := count_occ N.eq_dec l c.

Lemma occ_app c l k : occ c (l ++ k) = (occ c l + occ c k)%nat.
Proof. apply count_occ_app. Qed.
Lemma occ_cons c x l : occ c (x :: l) = (Nat.b2n (bool_decide (x = c)) + occ c l)%nat.
Proof.
  unfold occ. simpl. destruct (N.eq_dec x c); [by rewrite bool_decide_true|by rewrite bool_decide_false].
Qed.
Lemma occ_nil c : occ c [] = 0%nat.
Proof. done. Qed.

Ltac occ_lia := cbn -[occ] in *; repeat rewrite ?occ_app, ?occ_cons, ?occ_nil in *; lia.

(** Where a session has put the connections given to it. *)
Definition held (s : Session) : list N :=
  workConns (pool s) ++ (handed (ledger s)).*1 ++ closed (ledger s).

(** [given] are the connections that arrived; streams were opened besides. *)
Definition conserves (given : list N) (s : Session) : Prop :=
  forall c, occ c (held s) = (occ c given + occ c (opened (ledger s)))%nat.

(** The parts of the session the ledger is about. *)
Definition same_conns (s s' : Session) : Prop :=
  workConns (pool s') = workConns (pool s) /\ ledger s' = ledger s.

#[export] Instance same_conns_preorder : PreOrder same_conns.
Proof. split; [done|]. intros s1 s2 s3 [? ?] [? ?]. split; congruence. Qed.

Lemma conserves_same given s s' : same_conns s s' -> conserves given s -> conserves given s'.
Proof. intros [Hw Hl] H c. unfold held. rewrite Hw, Hl. apply H. Qed.

Lemma request_same n s : same_conns s (requestWorkConns n s).
Proof. unfold requestWorkConns. by destruct (n <=? 0). Qed.

Lemma topUp_same s : same_conns s (topUpPool s).
Proof.
  unfold topUpPool. destruct (_ <=? 0); [done|].
  destruct ((if _ <? _ then _ else _) <=? 0); [done|].
  etrans; [|apply request_same]. done.
Qed.

Lemma replenish_same s : same_conns s (replenishPool s).
Proof. unfold replenishPool. destruct (HasOverflow s); [done|apply topUp_same]. Qed.

Lemma requester_same w s : same_conns s (workConnRequester w s).
Proof.
  unfold workConnRequester. destruct (_ || _); [done|]. destruct (_ <=? 0); [done|]. by destruct w.
Qed.

Lemma adjust_same b s : same_conns s (adjustRefillTarget b s).
Proof.
  unfold adjustRefillTarget. destruct b; [done|]. by destruct (_ && _).
Qed.

Lemma refill_tick_same s : same_conns s (refill_tick s).
Proof.
  unfold refill_tick. destruct (negb _); [done|].
  etrans; [|apply topUp_same]. etrans; [|apply adjust_same]. by destruct (_ && _).
Qed.

Lemma sweep_tick_same s : same_conns s (sweep_tick s).
Proof. unfold sweep_tick. destruct (HasOverflow s); [done|]. by destruct (_ && _). Qed.

#[export] Hint Resolve request_same replenish_same requester_same refill_tick_same sweep_tick_same
  topUp_same : frp.

Lemma take_pooled_occ start ws c :
  let '(stale, found, rest) := take_pooled start ws in
  occ c ws = (occ c stale + occ c (option_list found) + occ c rest)%nat.
Proof.
  induction ws as [|w ws IH]; [done|]. cbn [take_pooled]. destruct (start w).
  - occ_lia.
  - destruct (take_pooled start ws) as [[stale found] rest]. occ_lia.
Qed.

Lemma dropOverflow_same x s : same_conns s (dropOverflow x s).
Proof. done. Qed.

(** What the attempts on the carriers open, they close or return. *)
Lemma overflow_loop_conserves open start n base k given s :
  conserves given s ->
  let '(found, s') := overflow_loop open start n base k s in
  (forall c, occ c (held s') + occ c (option_list found)
             = occ c given + occ c (opened (ledger s')))%nat
  /\ workConns (pool s') = workConns (pool s).
Proof.
  revert s. induction k as [|k IH]; intros s Hs; cbn [overflow_loop].
  { split; [|done]. intros c. specialize (Hs c). occ_lia. }
  destruct (open _) as [stream| |].
  - destruct (start stream).
    + split; [|done]. intros c. specialize (Hs c). unfold held in *. occ_lia.
    + apply (IH (dropOverflow _ (close_conns [stream] (open_stream stream s)))).
      intros c. specialize (Hs c). unfold held in *. occ_lia.
  - apply (IH (dropOverflow _ s)). exact Hs.
  - split; [|done]. intros c. specialize (Hs c). occ_lia.
Qed.

Lemma begin_get_conserves open start name source given s :
  conserves given s -> conserves given (begin_get open start name source s).2.
Proof.
  intros Hs. unfold begin_get.
  pose proof (take_pooled_occ start (workConns (pool s))) as Ht.
  destruct (take_pooled start (workConns (pool s))) as [[stale found] rest].
  set (s1 := close_conns stale (on_pool (set_workConns rest) s)).
  assert (H1 : forall c, (occ c (held s1) + occ c (option_list found)
                         = occ c given + occ c (opened (ledger s1)))%nat).
  { intros c. specialize (Hs c). specialize (Ht c). unfold held in *. occ_lia. }
  assert (Hhand : forall c s2, (forall x, (occ x (held s2) + occ x [c]
      = occ x given + occ x (opened (ledger s2)))%nat) ->
      conserves given (replenishPool (hand_over c name source s2))).
  { intros c s2 H2. eapply conserves_same; [apply replenish_same|].
    intros x. specialize (H2 x). unfold held in *. occ_lia. }
  destruct found as [c|]; [by apply Hhand|].
  set (s2 := on_pool (fun p => set_misses (poolMisses p + 1) p) s1).
  assert (H2 : conserves given s2).
  { intros c. specialize (H1 c).
    change (held s2) with (held s1). change (ledger s2) with (ledger s1). clear -H1. occ_lia. }
  assert (H3 : let '(found, s3) := overflowConn open start s2 in
    forall c, (occ c (held s3) + occ c (option_list found) = occ c given + occ c (opened (ledger s3)))%nat).
  { unfold overflowConn. destruct (_ =? 0)%nat.
    - intros c. rewrite (H2 c). occ_lia.
    - set (s3 := on_overflow _ s2). pose proof (overflow_loop_conserves open start
        (ov_len (overflow s2)) (overflowNext (overflow s2)) (ov_len (overflow s2)) given s3 H2) as H.
      destruct (overflow_loop _ _ _ _ _ s3) as [f s4]. apply H. }
  destruct (overflowConn open start s2) as [[c|] s3]; [by apply Hhand|].
  assert (H4 : conserves given s3).
  { intros c. specialize (H3 c). clear -H3. occ_lia. }
  destruct (done_ s3); cbn [snd].
  - eapply conserves_same; [apply replenish_same|done].
  - eapply conserves_same; [apply request_same|]. eapply conserves_same; [|exact H4]. done.
Qed.

Lemma finish_get_conserves w start name source given s r s' :
  conserves given s -> finish_get w start name source s = Some (r, s') -> conserves given s'.
Proof.
  intros Hs. unfold finish_get. destruct w.
  - destruct (workConns (pool s)) as [|c rest] eqn:E; [done|].
    destruct (start c); intros [= <- <-]; (eapply conserves_same; [apply replenish_same|]);
      intros x; specialize (Hs x); unfold held in *; rewrite E in Hs; occ_lia.
  - intros [= <- <-]. eapply conserves_same; [apply replenish_same|done].
  - destruct (done_ s); [|done]. intros [= <- <-]. eapply conserves_same; [apply replenish_same|done].
  - intros [= <- <-]. eapply conserves_same; [apply replenish_same|done].
Qed.

Lemma AddProxy_conns `{Unicode} `{Idna} v spec now listen s r :
  let '(_, s', _) := AddProxy v spec now listen s r in
  pool s' = pool s /\ overflow s' = overflow s /\ ledger s' = ledger s /\ done_ s' = done_ s
  /\ runID s' = runID s.
Proof.
  unfold AddProxy. destruct (proxies s !! _); [done|].
  destruct (proxy_New v spec) as [p|]; [|done].
  by destruct (Bind _ _ _ _ _) as [[?|?] ?].
Qed.

Lemma RemoveProxy_conns `{Unicode} `{Idna} name s r :
  let '(_, s', _) := RemoveProxy name s r in
  pool s' = pool s /\ overflow s' = overflow s /\ ledger s' = ledger s /\ done_ s' = done_ s
  /\ runID s' = runID s.
Proof. unfold RemoveProxy. by destruct (proxies s !! name). Qed.

Lemma apply_sop_conserves `{Unicode} `{Idna} v sr o given :
  conserves given sr.1 -> conserves (arrivals o ++ given) (apply_sop v sr o).1.
Proof.
  destruct sr as [s r]. cbn [fst]. intros Hs. destruct o; cbn [apply_sop arrivals fst app].
  - unfold AddWorkConn. set (s1 := on_pool _ s).
    assert (H1 : conserves given s1) by exact Hs.
    destruct ((_ && _) || _); intros x; specialize (H1 x); unfold held in *; occ_lia.
  - by apply begin_get_conserves.
  - destruct (finish_get w start proxyName source s) as [[? ?]|] eqn:E; [|done].
    exact (finish_get_conserves _ _ _ _ _ _ _ _ Hs E).
  - eapply conserves_same; [apply requester_same|done].
  - eapply conserves_same; [apply refill_tick_same|done].
  - eapply conserves_same; [apply sweep_tick_same|done].
  - unfold SetOverflow. by destruct (_ <=? _)%nat.
  - intros x. specialize (Hs x). unfold held in *. occ_lia.
  - eapply conserves_same; [apply request_same|done].
  - pose proof (AddProxy_conns v spec now listen s r) as Hp.
    destruct (AddProxy v spec now listen s r) as [[? s'] ?]. destruct Hp as (Hp & _ & Hl & _).
    eapply conserves_same; [|exact Hs]. cbn [fst]. split; [by rewrite Hp|by rewrite Hl].
  - pose proof (RemoveProxy_conns name s r) as Hp.
    destruct (RemoveProxy name s r) as [[? s'] ?]. destruct Hp as (Hp & _ & Hl & _).
    eapply conserves_same; [|exact Hs]. cbn [fst]. split; [by rewrite Hp|by rewrite Hl].
  - exact Hs.
  - unfold Close. destruct (done_ s); [done|]. intros x. specialize (Hs x). unfold held in *. occ_lia.
Qed.

(** ** Lemmas: the pool's bounds *)

Definition pool_ok (p : Pool) : Prop :=
  1 <= poolTarget p <= refillTarget p /\ refillTarget p <= poolMax p
  /\ Z.of_nat (length (workConns p)) <= poolMax p
  /\ 0 <= poolInFlight p /\ 0 <= poolMisses p /\ 0 <= reqPending p
  /\ Forall (fun n => 1 <= n <= poolMax p) (requests p).

Definition overflow_ok (o : Overflow) : Prop :=
  (ov_len o <= length (ov_cells o))%nat /\ (ov_len o <= maxOverflowCarriers)%nat.

Definition session_ok (s : Session) : Prop := pool_ok (pool s) /\ overflow_ok (overflow s).

(** What is pooled and what has been asked for. *)
Definition supply (p : Pool) : Z := Z.of_nat (length (workConns p)) + poolInFlight p.

Ltac pool_cases := repeat case_match; bool_facts; cbn in *.

Lemma request_ok n s : pool_ok (pool s) -> pool_ok (pool (requestWorkConns n s)).
Proof.
  unfold requestWorkConns, pool_ok. destruct (n <=? 0) eqn:E; [done|]. bool_facts.
  intros (? & ? & ? & ? & ? & ? & ?). cbn. split_and!; try done; lia.
Qed.

Lemma topUp_spec s :
  pool_ok (pool s) ->
  pool_ok (pool (topUpPool s)) /\ overflow (topUpPool s) = overflow s
  /\ supply (pool (topUpPool s)) = Z.max (supply (pool s)) (refillTarget (pool s)).
Proof.
  intros Hok. pose proof Hok as (H1 & H2 & H3 & H4 & H5 & H6 & H7).
  unfold topUpPool, requestWorkConns, pool_ok, supply in *. pool_cases;
    (split_and!; try done; lia).
Qed.

Lemma replenish_ok s : session_ok s -> session_ok (replenishPool s).
Proof.
  intros [Hp Ho]. unfold replenishPool. destruct (HasOverflow s); [done|].
  destruct (topUp_spec s Hp) as (? & E & _). split; [done|]. by rewrite E.
Qed.

Lemma requester_ok w s : session_ok s -> session_ok (workConnRequester w s).
Proof.
  intros Hs. unfold workConnRequester. destruct (done_ s || _); [done|].
  destruct Hs as [(H1 & H2 & H3 & H4 & H5 & H6 & H7) Ho]. unfold session_ok, pool_ok.
  destruct (reqPending (pool s) <=? 0) eqn:E; bool_facts.
  - cbn. split_and!; try done; lia.
  - destruct w; cbn; split_and!; try done; try lia. constructor; [lia|done].
Qed.

Lemma adjust_ok b s : session_ok s -> session_ok (adjustRefillTarget b s).
Proof.
  intros [(H1 & H2 & H3 & H4 & H5 & H6 & H7) Ho]. unfold adjustRefillTarget, session_ok, pool_ok.
  assert (0 <= godiv (refillTarget (pool s)) 2 <= refillTarget (pool s)).
  { unfold godiv. rewrite Z.quot_div_nonneg by lia. split; [apply Z.div_pos; lia|].
    apply Z.div_le_upper_bound; lia. }
  destruct b; cbn; [split_and!; try done; lia|].
  destruct ((0 <? poolMisses (pool s)) && (refillTarget (pool s) <? poolMax (pool s))) eqn:E;
    bool_facts; cbn; split_and!; try done; lia.
Qed.

Lemma zero_inFlight_ok s : session_ok s -> session_ok (on_pool (set_inFlight 0) s).
Proof. intros [(H1 & H2 & H3 & H4 & H5 & H6 & H7) Ho]. by split_and!. Qed.

Lemma refill_tick_ok s : session_ok s -> session_ok (refill_tick s).
Proof.
  intros Hs. unfold refill_tick. destruct (negb _); [done|].
  set (st := (_ =? _) && _).
  assert (H1 : session_ok (on_pool (set_last (poolArrivals (pool s)))
                             (if st then on_pool (set_inFlight 0) s else s))).
  { destruct st; [apply zero_inFlight_ok in Hs|]; exact Hs. }
  apply (adjust_ok st) in H1. destruct H1 as [Hp Ho].
  destruct (topUp_spec _ Hp) as (? & E & _). split; [done|]. by rewrite E.
Qed.

Lemma sweep_tick_ok s : session_ok s -> session_ok (sweep_tick s).
Proof.
  intros Hs. unfold sweep_tick. destruct (HasOverflow s); [done|].
  destruct (_ && _); [apply zero_inFlight_ok in Hs|]; exact Hs.
Qed.

Lemma AddWorkConn_ok c b s : session_ok s -> session_ok (AddWorkConn c b s).
Proof.
  intros [(H1 & H2 & H3 & H4 & H5 & H6 & H7) Ho]. unfold AddWorkConn.
  set (s1 := on_pool _ s).
  assert (Hs1 : session_ok s1).
  { split; [|done]. unfold pool_ok, s1. cbn. split_and!; try done; try lia.
    unfold floor0. destruct (_ <? 0) eqn:E; bool_facts; lia. }
  destruct (_ || _) eqn:E; [exact Hs1|].
  assert (Hroom : (Z.of_nat (length (workConns (pool s1))) <? poolMax (pool s1)) = true).
  { by destruct (_ <? poolMax (pool s1)), (done_ s1), b. }
  bool_facts. destruct Hs1 as [(? & ? & ? & ? & ? & ? & ?) ?]. split; [|done]. unfold pool_ok.
  cbn [on_pool set_workConns pool poolTarget refillTarget poolMax workConns poolInFlight poolMisses
       reqPending requests].
  rewrite length_app. cbn [length]. split_and!; try done; lia.
Qed.

Lemma dropOverflow_ok x s : session_ok s -> session_ok (dropOverflow x s).
Proof.
  intros [Hp [Hc Hm]]. split; [done|]. unfold overflow_ok, dropOverflow. cbn.
  assert (Hf : (length (filter (fun c => c <> x) (take (ov_len (overflow s)) (ov_cells (overflow s)))) <= ov_len (overflow s))%nat).
  { etrans; [apply length_filter|]. rewrite length_take. lia. }
  rewrite length_app, length_drop. lia.
Qed.

Lemma overflow_loop_ok open start n base k s :
  session_ok s -> session_ok (overflow_loop open start n base k s).2.
Proof.
  revert s. induction k as [|k IH]; intros s Hs; cbn [overflow_loop]; [done|].
  destruct (open _); [destruct (start stream); [exact Hs|]| |exact Hs]; by apply IH, dropOverflow_ok.
Qed.

Lemma take_pooled_length start ws :
  (length (take_pooled start ws).2 <= length ws)%nat.
Proof.
  induction ws as [|w ws IH]; [done|]. cbn [take_pooled]. destruct (start w); cbn; [lia|].
  destruct (take_pooled start ws) as [[stale found] rest]. cbn in *. lia.
Qed.

Lemma shrink_ok ws s :
  session_ok s -> (length ws <= length (workConns (pool s)))%nat ->
  session_ok (on_pool (set_workConns ws) s).
Proof.
  intros [(H1 & H2 & H3 & H4 & H5 & H6 & H7) Ho] Hl. split; [|done]. unfold pool_ok. cbn.
  split_and!; try done; lia.
Qed.

Lemma begin_get_ok open start name source s :
  session_ok s -> session_ok (begin_get open start name source s).2.
Proof.
  intros Hs. unfold begin_get.
  pose proof (take_pooled_length start (workConns (pool s))) as Hl.
  destruct (take_pooled start (workConns (pool s))) as [[stale found] rest]. cbn [snd] in Hl.
  apply (shrink_ok rest) in Hs; [|done]. set (s1 := on_pool (set_workConns rest) s) in *.
  destruct found as [c|]; [by apply replenish_ok|].
  set (s2 := on_pool (fun p => set_misses (poolMisses p + 1) p) (close_conns stale s1)).
  assert (H2 : session_ok s2).
  { destruct Hs as [(H1 & H2 & H3 & H4 & H5 & H6 & H7) Ho]. split; [|done]. unfold pool_ok. cbn in *.
    split_and!; try done; lia. }
  assert (H3 : session_ok (overflowConn open start s2).2).
  { unfold overflowConn. destruct (_ =? 0)%nat; [done|]. by apply overflow_loop_ok. }
  destruct (overflowConn open start s2) as [[c|] s3]; [by apply replenish_ok|]. cbn [snd] in H3.
  destruct (done_ s3); [by apply replenish_ok|]. cbn [snd].
  destruct H3 as [(H4 & H5 & H6 & H7 & H8 & H9 & H10) Ho]. split; [|exact Ho].
  apply request_ok. unfold pool_ok. cbn. split_and!; try done; lia.
Qed.

Lemma finish_get_ok w start name source s r s' :
  session_ok s -> finish_get w start name source s = Some (r, s') -> session_ok s'.
Proof.
  intros Hs. unfold finish_get. destruct w.
  - destruct (workConns (pool s)) as [|c rest] eqn:E; [done|].
    apply (shrink_ok rest) in Hs; [|rewrite E; simpl; lia].
    destruct (start c); intros [= <- <-]; by apply replenish_ok.
  - intros [= <- <-]. by apply replenish_ok.
  - destruct (done_ s); [|done]. intros [= <- <-]. by apply replenish_ok.
  - intros [= <- <-]. by apply replenish_ok.
Qed.

Lemma SetOverflow_ok x s : session_ok s -> session_ok (SetOverflow x s).
Proof.
  intros [Hp [Hc Hm]]. unfold SetOverflow. destruct (Nat.leb_spec maxOverflowCarriers (ov_len (overflow s))).
  - done.
  - split; [done|]. unfold overflow_ok. cbn. rewrite length_app, length_take. cbn [length].
    rewrite length_drop. lia.
Qed.

Lemma apply_sop_ok `{Unicode} `{Idna} v sr o : session_ok sr.1 -> session_ok (apply_sop v sr o).1.
Proof.
  destruct sr as [s r]. cbn [fst]. intros Hs. destruct o; cbn [apply_sop fst].
  - by apply AddWorkConn_ok.
  - by apply begin_get_ok.
  - destruct (finish_get w start proxyName source s) as [[? ?]|] eqn:E; [|done].
    exact (finish_get_ok _ _ _ _ _ _ _ Hs E).
  - by apply requester_ok.
  - by apply refill_tick_ok.
  - by apply sweep_tick_ok.
  - by apply SetOverflow_ok.
  - apply (shrink_ok []) in Hs; [exact Hs|simpl; lia].
  - destruct Hs as [Hp Ho]. unfold session_ok. split; [by apply request_ok|].
    unfold requestWorkConns. by destruct (n <=? 0).
  - pose proof (AddProxy_conns v spec now listen s r) as Hp.
    destruct (AddProxy v spec now listen s r) as [[? s'] ?]. destruct Hp as (Hp & Ho & _).
    unfold session_ok. cbn [fst]. by rewrite Hp, Ho.
  - pose proof (RemoveProxy_conns name s r) as Hp.
    destruct (RemoveProxy name s r) as [[? s'] ?]. destruct Hp as (Hp & Ho & _).
    unfold session_ok. cbn [fst]. by rewrite Hp, Ho.
  - exact Hs.
  - unfold Close. destruct (done_ s); [done|].
    apply (shrink_ok []) in Hs; [|simpl; lia]. destruct Hs as [Hp _]. split; [exact Hp|]. unfold overflow_ok, maxOverflowCarriers. cbn. lia.
Qed.

(** *** Who is handed over to whom *)

Lemma handed_same s s' : same_conns s s' -> handed (ledger s') = handed (ledger s).
Proof. by intros [_ ->]. Qed.

Lemma begin_get_got open start name source s c s' :
  begin_get open start name source s = (Got c, s') ->
  (c, (name, source)) ∈ handed (ledger s').
Proof.
  unfold begin_get. destruct (take_pooled start _) as [[stale found] rest].
  assert (Hr : forall s0, (c, (name, source)) ∈ handed (ledger (replenishPool (hand_over c name source s0)))).
  { intros s0. rewrite (handed_same _ _ (replenish_same _)). by left. }
  destruct found as [c1|].
  { intros [= -> <-]. apply Hr. }
  destruct (overflowConn _ _ _) as [[c1|] s1].
  { intros [= -> <-]. apply Hr. }
  by destruct (done_ s1).
Qed.

Lemma finish_get_got w start name source s c s' :
  finish_get w start name source s = Some (Got c, s') ->
  (c, (name, source)) ∈ handed (ledger s').
Proof.
  unfold finish_get. destruct w; [|done| |done].
  - destruct (workConns (pool s)) as [|c1 rest]; [done|].
    destruct (start c1); [|done]. intros [= -> <-].
    rewrite (handed_same _ _ (replenish_same _)). by left.
  - by destruct (done_ s).
Qed.

(** ** Lemmas: limits *)

Section limits.
Import Limits.

(** Spending by name, as the sessions' own relays do. *)
Definition spend_all (name : bytes) (ns : list Z) (l : Limits) : Limits :=
  foldl (fun l n => Spend (For name l) n l) l ns.

Definition positive_total (ns : list Z) : Z := foldr (fun n acc => Z.max 0 n + acc) 0 ns.

Lemma positive_total_nonneg ns : 0 <= positive_total ns.
Proof. unfold positive_total. induction ns as [|n ns IH]; cbn [foldr]; lia. Qed.

Lemma Publish_limited spec now l :
  0 < Quota spec ->
  deref (For (spec_Name spec) (Publish spec now l)) (Publish spec now l)
  = Some (MkTunnelLimits (NewLimiter (DownRate spec) now) (NewLimiter (UpRate spec) now) (Quota spec)
            (match deref (For (spec_Name spec) l) l with Some t => used t | None => 0 end)).
Proof.
  intros Hq. unfold Publish. rewrite (proj2 (Z.leb_gt (Quota spec) 0)), andb_false_r by lia.
  unfold For. cbn [tunnels]. rewrite lookup_insert_eq. unfold deref. cbn [mbind option_bind objects].
  rewrite lookup_app_r by lia. by rewrite Nat.sub_diag.
Qed.

Lemma spend_all_used name ns l t :
  deref (For name l) l = Some t -> 0 < quota t -> 0 <= used t ->
  used t + positive_total ns <= max_i64 ->
  exists t', deref (For name (spend_all name ns l)) (spend_all name ns l) = Some t'
    /\ quota t' = quota t /\ used t' = used t + positive_total ns.
Proof.
  revert l t. induction ns as [|n ns IH]; intros l t Ht Hq Hu Hmax.
  { exists t. split_and!; [done|done|]. unfold positive_total. simpl. lia. }
  change (positive_total (n :: ns)) with (Z.max 0 n + positive_total ns) in *.
  pose proof (positive_total_nonneg ns).
  cbn [spend_all foldl]. fold (spend_all name ns (Spend (For name l) n l)).
  assert (Hstep : deref (For name (Spend (For name l) n l)) (Spend (For name l) n l) = Some (spend_one n t)).
  { unfold For, deref in *. destruct (tunnels l !! name) as [i|] eqn:E; [|done].
    cbn [mbind option_bind Spend tunnels objects] in *. rewrite E. cbn [mbind option_bind].
    by rewrite list_lookup_alter_eq, Ht. }
  assert (Hone : quota (spend_one n t) = quota t /\ used (spend_one n t) = used t + Z.max 0 n).
  { unfold spend_one. rewrite (proj2 (Z.leb_gt (quota t) 0)) by lia. cbn [orb].
    destruct (n <=? 0) eqn:E; bool_facts; cbn [quota used]; [split; [done|lia]|].
    rewrite i64_id; [split; [done|lia]|]. unfold in_i64, min_i64. lia. }
  destruct Hone as [H1 H2].
  destruct (IH _ _ Hstep) as (t' & Ht' & Hq' & Hu'); try lia.
  exists t'. split_and!; [done|congruence|lia].
Qed.

(** A quota is enforced to the byte and survives republishing: once a
    tunnel with a quota is published, after any spending (in any pieces, the
    empty and negative ones ignored) the tunnel is exhausted exactly when
    what was already spent under its name plus the new total has reached
    the quota. *)
Theorem quota_enforced spec now l ns :
  0 < Quota spec ->
  let before := match deref (For (spec_Name spec) l) l with Some t => used t | None => 0 end in
  let l' := spend_all (spec_Name spec) ns (Publish spec now l) in
  0 <= before -> before + positive_total ns <= max_i64 ->
  Exhausted (For (spec_Name spec) l') l' = (Quota spec <=? before + positive_total ns)
  /\ Usage (For (spec_Name spec) l') l' = (before + positive_total ns, Quota spec).
Proof.
  intros Hq before l' Hb Hmax.
  destruct (spend_all_used (spec_Name spec) ns (Publish spec now l) _ (Publish_limited spec now l Hq))
    as (t & Ht & E1 & E2); [done|done|done|]. cbn [quota used] in E1, E2.
  fold l' in Ht. unfold Exhausted, Usage. rewrite Ht, E1. fold before in E2. rewrite E2.
  by rewrite (proj2 (Z.leb_gt (Quota spec) 0)) by lia.
Qed.
End limits.

(** ** Properties of a session *)

(** C7: No connection is ever lost or used twice: whatever happens to a
    session, in any order, the work connections it was given and the streams it
    opened are exactly those now in the pool, those handed to a visitor and
    those closed, each once. *)
Theorem work_connections_conserved `{Unicode} `{Idna} v o r ops :
  let s := (foldl (apply_sop v) (newSession o, r) ops).1 in
  workConns (pool s) ++ (handed (ledger s)).*1 ++ closed (ledger s)
  ≡ₚ (ops ≫= arrivals) ++ opened (ledger s).
Proof.
  cbn zeta.
  assert (Hgen : forall ops given sr, conserves given sr.1 ->
    conserves (rev (ops ≫= arrivals) ++ given) (foldl (apply_sop v) sr ops).1).
  { clear ops. induction ops as [|op ops IH]; intros given sr Hs; [exact Hs|]. cbn [foldl].
    apply (apply_sop_conserves v _ op), IH in Hs. cbn [mbind list_bind].
    rewrite rev_app_distr, <- app_assoc.
    assert (Hr : rev (arrivals op) = arrivals op) by (by destruct op). by rewrite Hr. }
  specialize (Hgen ops [] (newSession o, r)). rewrite app_nil_r in Hgen.
  assert (Hnew : conserves [] (newSession o)) by (by intros c).
  apply Hgen in Hnew. set (s := (foldl _ _ _).1) in *.
  apply (Permutation_count_occ N.eq_dec). intros c. specialize (Hnew c).
  change (occ c (held s) = occ c ((ops ≫= arrivals) ++ opened (ledger s))).
  rewrite Hnew, occ_app. f_equal. unfold occ.
  apply (Permutation_count_occ N.eq_dec). symmetry. apply Permutation_rev.
Qed.

(** The pool stays within its bounds: for a session whose pool target is
    between one and the pool's capacity, whatever happens in any order, the
    pool never overflows, the count of connections in flight never goes below
    zero, the refill target stays between the client's target and the capacity,
    every request asks for at least one connection and at most a full pool,
    and at most eight carriers are kept. *)
Theorem pool_invariant `{Unicode} `{Idna} v o r ops :
  1 <= o_PoolTarget o <= o_MaxPool o ->
  session_ok (foldl (apply_sop v) (newSession o, r) ops).1.
Proof.
  intros Ho.
  assert (Hgen : forall sr, session_ok sr.1 -> session_ok (foldl (apply_sop v) sr ops).1).
  { induction ops as [|op ops IH]; intros sr Hs; [done|]. cbn [foldl]. by apply IH, apply_sop_ok. }
  apply Hgen. unfold newSession, session_ok, pool_ok, overflow_ok, maxOverflowCarriers. cbn.
  rewrite (proj2 (Z.ltb_ge (o_MaxPool o) 1)) by lia. split_and!; try done; lia.
Qed.

(** Topping up is exact: it asks for what is missing, no more and no less,
    counting what is pooled and what is already on its way; a full or
    promised pool asks for nothing. *)
Theorem topUpPool_exact s :
  session_ok s ->
  supply (pool (topUpPool s)) = Z.max (supply (pool s)) (refillTarget (pool s))
  /\ reqPending (pool (topUpPool s))
     = reqPending (pool s) + Z.max 0 (refillTarget (pool s) - supply (pool s)).
Proof.
  intros [Hok _]. destruct (topUp_spec s Hok) as (_ & _ & E). split; [exact E|].
  destruct Hok as (H1 & H2 & H3 & H4 & H5 & H6 & H7).
  unfold topUpPool, requestWorkConns, supply in *. pool_cases; lia.
Qed.

(** Closing a session releases everything it held: its pooled connections
    and its carriers are closed, it publishes nothing any more, and until a
    new connection arrives every visitor is refused. *)
Theorem Close_releases `{Unicode} `{Idna} v s r open start name source :
  done_ s = false ->
  let s' := (Close v s r).1 in
  done_ s' = true /\ proxies s' = ∅
  /\ closed (ledger s') = workConns (pool s) ++ closed (ledger s)
  /\ carriers_closed (overflow s') = take (ov_len (overflow s)) (ov_cells (overflow s))
                                     ++ carriers_closed (overflow s)
  /\ (begin_get open start name source s').1 = Failed ErrSessionClosed.
Proof. intros Hd. unfold Close. rewrite Hd. by split_and!. Qed.

(** A healthy carrier can be passed over: [overflowConn] walks a slice
    whose array [dropOverflow] compacts under it, so with three carriers of
    which the first and the third fail, the second is never tried, although
    the log says the next one is, and the visitor falls back to a dial. *)
Theorem overflow_skips_healthy_carrier :
  let s := SetOverflow 3 (SetOverflow 2 (SetOverflow 1
             (newSession (MkSessionOptions (go "run") 0 1 8)))) in
  let open c := if decide (c = 2%N) then Opened 9 else OpenFailed in
  let '(found, s') := overflowConn open (fun _ => true) s in
  take 3 (ov_cells (overflow s)) = [1%N; 2%N; 3%N]
  /\ found = None /\ opened (ledger s') = []
  /\ (overflowConn open (fun _ => true) s').1 = Some 9%N.
Proof. by vm_compute. Qed.

(** A connection that arrives while its session closes can be left behind:
    [AddWorkConn] selects between the closed channel [done] and the pool, both
    ready, and a connection pooled after [Close] has drained the pool stays
    there open. *)
Theorem late_connection_left_open :
  let s := newSession (MkSessionOptions (go "run") 0 1 8) in
  let s' := AddWorkConn 5 false (@Close no_unicode ascii_idna (MkVhosts false 0 0) s NewRouter).1 in
  done_ s' = true /\ workConns (pool s') = [5%N] /\ closed (ledger s') = []
  /\ (@Close no_unicode ascii_idna (MkVhosts false 0 0) s' NewRouter).1 = s'.
Proof. by vm_compute. Qed.

(** With nothing in between the two parts are [AddProxy]. *)
Lemma AddProxy_parts `{Unicode} `{Idna} v spec now listen s r :
  AddProxy v spec now listen s r
  = match AddProxy_bind v spec now listen s r with
    | (Ok p, s, r) => AddProxy_keep (spec_Name spec) p s r
    | (Err e, s, r) => (Err e, s, r)
    end.
Proof.
  unfold AddProxy, AddProxy_bind, AddProxy_keep. destruct (proxies s !! spec_Name spec) eqn:E; [done|].
  destruct (proxy_New v spec) as [p|e]; [|done]. destruct (Bind _ _ listen p r) as [[p'|e] r']; [|done]. cbn. by rewrite E.
Qed.

(** A session that is closed between the two parts (the login that replaces it
    does, from another goroutine) keeps the proxy all the same, and nothing
    closes it any more, since [Close] runs once: its port stays taken.  Nor is a
    closed session refused a proxy: a virtual host is claimed for it then. *)
Theorem late_proxy_left_open :
  let v := MkVhosts true 80 443 in
  let tcp := MkProxySpec (go "ssh") (go "tcp") 6000 [] (go "none") 0 0 0 in
  let web := MkProxySpec (go "web") (go "http") 0 [go "a.example.com"] (go "none") 0 0 0 in
  let s := newSession (MkSessionOptions (go "run") 0 1 8) in
  let '(b, s, r) := @AddProxy_bind no_unicode ascii_idna v tcp 0 Ok s NewRouter in
  let '(s, r) := @Close no_unicode ascii_idna v s r in
  b = Ok (tcpProxy 6000) /\ done_ s = true
  /\ let '(e, s, r) := @AddProxy_keep no_unicode ascii_idna (go "ssh") (tcpProxy 6000) s r in
     let '(e', s, r) := @AddProxy no_unicode ascii_idna v web 0 Ok s r in
     let '(s, r) := @Close no_unicode ascii_idna v s r in
     e = Ok 6000 /\ e' = Ok 80 /\ proxies s !! go "ssh" = Some (tcpProxy 6000)
     /\ bool_decide (@Router.Lookup no_unicode ascii_idna (go "a.example.com") r = None) = false.
Proof. by vm_compute. Qed.

(** ** Witnesses *)

Definition example_spec : ProxySpec := MkProxySpec (go "web") (go "tcp") 80 [] (go "none") 0 0 100.

Lemma quota_enforced_witness :
  let l' := spend_all (go "web") [60; -5; 40] (Limits.Publish example_spec 0 Limits.NewLimits) in
  Limits.Exhausted (Limits.For (go "web") l') l' = true
  /\ Limits.Usage (Limits.For (go "web") l') l' = (100, 100).
Proof.
  apply (quota_enforced example_spec 0 Limits.NewLimits [60; -5; 40]);
    [done|done|vm_compute; congruence].
Defined.

Lemma pool_invariant_witness :
  session_ok (foldl (@apply_sop no_unicode ascii_idna (MkVhosts false 0 0))
    (newSession (MkSessionOptions (go "run") 0 2 8), NewRouter)
    [SRequest 2; SRequester true; SAddWorkConn 1 false; SAddWorkConn 2 false;
     SBegin (fun _ => OpenFailed) (fun c => negb (N.eqb c 1)) (go "web") (go "v"); SClose]).1.
Proof. apply (@pool_invariant no_unicode ascii_idna). cbn. lia. Defined.

Lemma topUpPool_exact_witness :
  let s := newSession (MkSessionOptions (go "run") 0 2 8) in
  supply (pool (topUpPool s)) = Z.max (supply (pool s)) (refillTarget (pool s)).
Proof.
  refine (proj1 (topUpPool_exact (newSession (MkSessionOptions (go "run") 0 2 8)) _)).
  unfold session_ok, pool_ok, overflow_ok, maxOverflowCarriers. cbn. split_and!; try done; lia.
Defined.

Lemma Close_releases_witness :
  let s := AddWorkConn 5 false (newSession (MkSessionOptions (go "run") 0 2 8)) in
  closed (ledger (@Close no_unicode ascii_idna (MkVhosts false 0 0) s NewRouter).1) = [5%N].
Proof.
  exact (proj1 (proj2 (proj2 (@Close_releases no_unicode ascii_idna (MkVhosts false 0 0)
    (AddWorkConn 5 false (newSession (MkSessionOptions (go "run") 0 2 8))) NewRouter
    (fun _ => OpenFailed) (fun _ => true) [] [] eq_refl)))).
Defined.
