(* ===== verification/Config.v ===== *)
(** The configuration files: [internal/config] (client.go, server.go,
    upstream.go, tunnel.go).

    A configuration is what [encoding/json] has decoded; loading fills in the
    defaults and then validates.  Parsing an IP address is [NetText.ParseIP]. *)
From S2P Require Import Prelude GoStrings ProxyProto.

(** ** Data *)

Definition DefaultPoolCount : Z := 8.
Definition DefaultMaxPoolCount : Z := 64.
Definition DefaultHeartbeatInterval : Z := 20 * Second.
Definition DefaultHeartbeatTimeout : Z := 90 * Second.
Definition DefaultDialTimeout : Z := 10 * Second.
Definition DefaultMuxStreamWindow : Z := Z.shiftl 8 20.
Definition DefaultBindPort : Z := 7000.
Definition DefaultUpstreamName : bytes := go "server".
Definition KindCloudflare : bytes := go "cloudflare".
Definition ProtocolTCP : bytes := go "tcp".

Record Transport := MkTransport {
  t_Protocol : bytes;
  Mux : bool;
  MuxStreamWindow : Z;
  t_PoolCount : Z;
  TLSEnable : bool;
  HeartbeatInterval : Z;
  HeartbeatTimeout : Z;
  DialTimeout : Z
}.

Record Upstream := MkUpstream {
  u_Name : bytes;
  u_Kind : bytes;
  Zone : bytes;
  TunnelID : bytes;
  Addr : bytes;
  u_Port : Z;
  u_Token : bytes;
  u_ClientName : bytes;
  u_SocketGID : Z;
  u_SocketMark : Z;
  u_Transport : Transport
}.

Definition TunnelTCP : bytes := go "tcp".
Definition TunnelUDP : bytes := go "udp".
Definition TunnelHTTP : bytes := go "http".
Definition TunnelHTTPS : bytes := go "https".
Definition TLSNone : bytes := go "none".
Definition TLSPassthrough : bytes := go "passthrough".
Definition TLSTerminate : bytes := go "terminate".

Record Tunnel := MkTunnel {
  tn_Name : bytes;
  Enabled : bool;
  tn_Type : bytes;
  LocalIP : bytes;
  LocalPort : Z;
  tn_RemotePort : Z;
  tn_Domains : list bytes;
  tn_TLSMode : bytes;
  tn_Server : bytes;
  CertID : Z;
  ProxyProtocol : bytes;
  tn_DownRate : Z;
  tn_UpRate : Z;
  tn_Quota : Z
}.

Record Client := MkClient {
  Servers : list Upstream;
  ServerAddr : bytes;
  ServerPort : Z;
  c_Token : bytes;
  c_Name : bytes;
  c_Transport : Transport;
  c_SocketGID : Z;
  c_SocketMark : Z;
  Tunnels : list Tunnel
}.

Record Server := MkServer {
  BindAddr : bytes;
  BindPort : Z;
  Token : bytes;
  VhostHTTPPort : Z;
  VhostHTTPSPort : Z;
  MaxPoolCount : Z;
  AcceptLoops : Z
}.

Inductive cfgerr : Type :=
  | ErrServerName
  | ErrNoCloudflareTunnel (name : bytes)
  | ErrNoAddress (name : bytes)
  | ErrServerPort (name : bytes) (port : Z)
  | ErrPoolCountLow
  | ErrPoolCountHigh (count : Z)
  | ErrMuxWindow (window : Z)
  | ErrHeartbeat
  | ErrTunnelName
  | ErrTunnelType (name type : bytes)
  | ErrLocalIP (name ip : bytes)
  | ErrPort (what name : bytes) (port : Z)
  | ErrDomains (name type : bytes)
  | ErrTLSMode (name mode : bytes)
  | ErrTLSModeOnly (name mode : bytes)
  | ErrProxyProtocol (name version : bytes)
  | ErrProxyProtocolUDP (name : bytes)
  | ErrNoServers
  | ErrDuplicateServer (name : bytes)
  | ErrOrphan (tunnel server : bytes)
  | ErrDuplicateTunnel (name : bytes)
  | ErrPortClash (one two : bytes) (port : Z)
  | ErrVhostPorts
  | ErrBindCollides (port : Z)
  | ErrMaxPool
  | ErrAcceptLoops.

(** ** Defaults *)

Definition default_Z (z d : Z) : Z := if z =? 0 then d else z.
Definition default_bytes (b d : bytes) : bytes := if bool_decide (b = []) then d else b.

Definition Transport_ApplyDefaults (t : Transport) : Transport :=
  MkTransport ProtocolTCP (Mux t) (default_Z (MuxStreamWindow t) DefaultMuxStreamWindow)
    (default_Z (t_PoolCount t) DefaultPoolCount) (TLSEnable t)
    (default_Z (HeartbeatInterval t) DefaultHeartbeatInterval)
    (default_Z (HeartbeatTimeout t) DefaultHeartbeatTimeout)
    (default_Z (DialTimeout t) DefaultDialTimeout).

Definition Upstream_ApplyDefaults (u : Upstream) : Upstream :=
  MkUpstream (u_Name u) (u_Kind u) (Zone u) (TunnelID u) (Addr u) (default_Z (u_Port u) 7000)
    (u_Token u) (u_ClientName u) (u_SocketGID u) (u_SocketMark u)
    (Transport_ApplyDefaults (u_Transport u)).

Definition Tunnel_applyDefaults (t : Tunnel) : Tunnel :=
  let mode := if bool_decide (tn_Type t = TunnelHTTPS) && bool_decide (tn_TLSMode t = [])
              then TLSPassthrough else tn_TLSMode t in
  let mode := if negb (bool_decide (tn_Type t = TunnelHTTPS)) && bool_decide (mode = [])
              then TLSNone else mode in
  MkTunnel (tn_Name t) (Enabled t) (tn_Type t) (default_bytes (LocalIP t) (go "127.0.0.1"))
    (LocalPort t) (tn_RemotePort t) (tn_Domains t) mode (tn_Server t) (CertID t)
    (ProxyProtocol t) (tn_DownRate t) (tn_UpRate t) (tn_Quota t).

Definition Client_ApplyDefaults (c : Client) : Client :=
  MkClient (Upstream_ApplyDefaults <$> Servers c) (ServerAddr c)
    (default_Z (ServerPort c) DefaultBindPort) (c_Token c) (c_Name c)
    (Transport_ApplyDefaults (c_Transport c)) (c_SocketGID c) (c_SocketMark c)
    (Tunnel_applyDefaults <$> Tunnels c).

Definition Server_ApplyDefaults (c : Server) : Server :=
  MkServer (default_bytes (BindAddr c) (go "0.0.0.0")) (default_Z (BindPort c) DefaultBindPort)
    (Token c) (VhostHTTPPort c) (VhostHTTPSPort c)
    (default_Z (MaxPoolCount c) DefaultMaxPoolCount) (AcceptLoops c).

(** ** Validation *)

(** [if bad { return err }], in sequence. *)
Definition refuse_if {E} (bad : bool) (e : E) : res E unit := if bad then Err e else Ok tt.

Definition port_ok (p : Z) : bool := (1 <=? p) && (p <=? 65535).
Definition validatePort (what name : bytes) (p : Z) : res cfgerr unit :=
  refuse_if (negb (port_ok p)) (ErrPort what name p).

Definition Transport_Validate (t : Transport) : res cfgerr unit :=
  _ ← refuse_if (t_PoolCount t <? 1) ErrPoolCountLow;
  _ ← refuse_if (DefaultMaxPoolCount <? t_PoolCount t) (ErrPoolCountHigh (t_PoolCount t));
  _ ← refuse_if (Mux t && (MuxStreamWindow t <? Z.shiftl 64 10)) (ErrMuxWindow (MuxStreamWindow t));
  refuse_if (HeartbeatTimeout t <=? HeartbeatInterval t) ErrHeartbeat.

Definition IsCloudflare (u : Upstream) : bool := bool_decide (u_Kind u = KindCloudflare).

Definition blank (b : bytes) : bool := bool_decide (TrimSpace b = []).

Definition Upstream_Validate (u : Upstream) : res cfgerr unit :=
  if blank (u_Name u) then Err ErrServerName
  else if IsCloudflare u then refuse_if (blank (TunnelID u)) (ErrNoCloudflareTunnel (u_Name u))
  else if blank (Addr u) then Err (ErrNoAddress (u_Name u))
  else if negb (port_ok (u_Port u)) then Err (ErrServerPort (u_Name u) (u_Port u))
  else Transport_Validate (u_Transport u).

Definition NeedsRemotePort (t : bytes) : bool :=
  bool_decide (t = TunnelTCP) || bool_decide (t = TunnelUDP).
Definition NeedsDomains (t : bytes) : bool :=
  bool_decide (t = TunnelHTTP) || bool_decide (t = TunnelHTTPS).
Definition TunnelType_Valid (t : bytes) : bool := NeedsRemotePort t || NeedsDomains t.
Definition TLSMode_Valid (m : bytes) : bool :=
  bool_decide (m = TLSNone) || bool_decide (m = TLSPassthrough) || bool_decide (m = TLSTerminate).

(** The characters of [:/ ] and the space. *)
Definition local_ip_forbidden : bytes := [x3a; x2f; x20].

Section validate.
Context `{NetText}.

Definition Tunnel_Validate (t : Tunnel) : res cfgerr unit :=
  let name := tn_Name t in
  _ ← refuse_if (blank name) ErrTunnelName;
  _ ← refuse_if (negb (TunnelType_Valid (tn_Type t))) (ErrTunnelType name (tn_Type t));
  _ ← refuse_if (negb (bool_decide (LocalIP t = [])) && bool_decide (ParseIP (LocalIP t) = None)
                 && ContainsAny (LocalIP t) local_ip_forbidden) (ErrLocalIP name (LocalIP t));
  _ ← validatePort (go "local_port") name (LocalPort t);
  _ ← (if NeedsRemotePort (tn_Type t) && negb (tn_RemotePort t =? 0)
       then validatePort (go "remote_port") name (tn_RemotePort t) else Ok tt);
  _ ← refuse_if (NeedsDomains (tn_Type t) && (length (tn_Domains t) =? 0)%nat)
        (ErrDomains name (tn_Type t));
  _ ← refuse_if (negb (TLSMode_Valid (tn_TLSMode t))) (ErrTLSMode name (tn_TLSMode t));
  _ ← refuse_if (negb (bool_decide (tn_TLSMode t = TLSNone))
                 && negb (bool_decide (tn_Type t = TunnelHTTPS)))
        (ErrTLSModeOnly name (tn_TLSMode t));
  _ ← refuse_if (negb (ValidProxyProtocol (ProxyProtocol t)))
        (ErrProxyProtocol name (ProxyProtocol t));
  refuse_if (negb (bool_decide (ProxyProtocol t = [])) && bool_decide (tn_Type t = TunnelUDP))
    (ErrProxyProtocolUDP name).

(** ** Which server a tunnel belongs to *)

Definition Upstreams (c : Client) : list Upstream :=
  match Servers c with
  | _ :: _ => Servers c
  | [] =>
      if bool_decide (ServerAddr c = []) then []
      else [MkUpstream DefaultUpstreamName [] [] [] (ServerAddr c) (ServerPort c) (c_Token c)
              (c_Name c) 0 0 (c_Transport c)]
  end.

Definition Upstream_named (name : bytes) (c : Client) : option Upstream :=
  match Upstreams c with
  | [] => None
  | (first :: _) as servers =>
      if bool_decide (name = []) then Some first
      else find (fun u => bool_decide (u_Name u = name)) servers
  end.

Definition owner (c : Client) (t : Tunnel) : bytes :=
  default_bytes (tn_Server t) (match Upstreams c with u :: _ => u_Name u | [] => [] end).

Definition TunnelsFor (server : bytes) (c : Client) : list Tunnel :=
  filter (fun t => Enabled t = true /\ owner c t = server) (Tunnels c).

Definition known_server (c : Client) (name : bytes) : bool :=
  bool_decide (name ∈ u_Name <$> Upstreams c).

Definition OrphanTunnels (c : Client) : list Tunnel :=
  filter (fun t => Enabled t && negb (bool_decide (tn_Server t = []))
                   && negb (known_server c (tn_Server t)) = true) (Tunnels c).

Definition EnabledTunnels (c : Client) : list Tunnel :=
  filter (fun t => Enabled t = true) (Tunnels c).

Fixpoint check_servers (names : gset bytes) (us : list Upstream) : res cfgerr unit :=
  match us with
  | [] => Ok tt
  | u :: us =>
      _ ← Upstream_Validate u;
      _ ← refuse_if (bool_decide (u_Name u ∈ names)) (ErrDuplicateServer (u_Name u));
      check_servers ({[u_Name u]} ∪ names) us
  end.

Definition port_key (t : Tunnel) : bytes := tn_Server t ++ go "/" ++ Itoa (tn_RemotePort t).
Definition wants_port (t : Tunnel) : bool :=
  Enabled t && NeedsRemotePort (tn_Type t) && negb (tn_RemotePort t =? 0).

Fixpoint check_tunnels (seen : gset bytes) (ports : gmap bytes bytes) (ts : list Tunnel)
  : res cfgerr unit :=
  match ts with
  | [] => Ok tt
  | t :: ts =>
      _ ← Tunnel_Validate t;
      _ ← refuse_if (bool_decide (tn_Name t ∈ seen)) (ErrDuplicateTunnel (tn_Name t));
      let seen := {[tn_Name t]} ∪ seen in
      if wants_port t
      then match ports !! port_key t with
           | Some other => Err (ErrPortClash other (tn_Name t) (tn_RemotePort t))
           | None => check_tunnels seen (<[port_key t := tn_Name t]> ports) ts
           end
      else check_tunnels seen ports ts
  end.

Definition Client_Validate (c : Client) : res cfgerr unit :=
  _ ← refuse_if (length (Upstreams c) =? 0)%nat ErrNoServers;
  _ ← check_servers ∅ (Upstreams c);
  match OrphanTunnels c with
  | t :: _ => Err (ErrOrphan (tn_Name t) (tn_Server t))
  | [] => check_tunnels ∅ ∅ (Tunnels c)
  end.

(** [LoadClient] on a decoded file. *)
Definition LoadClient (c : Client) : res cfgerr Client :=
  let c := Client_ApplyDefaults c in _ ← Client_Validate c; Ok c.
End validate.

Definition Server_Validate (c : Server) : res cfgerr unit :=
  _ ← (if BindPort c =? 0 then Ok tt else validatePort (go "bind_port") [] (BindPort c));
  _ ← (if VhostHTTPPort c =? 0 then Ok tt
       else validatePort (go "vhost_http_port") [] (VhostHTTPPort c));
  _ ← (if VhostHTTPSPort c =? 0 then Ok tt
       else validatePort (go "vhost_https_port") [] (VhostHTTPSPort c));
  _ ← refuse_if (negb (VhostHTTPPort c =? 0) && (VhostHTTPPort c =? VhostHTTPSPort c)) ErrVhostPorts;
  _ ← refuse_if (negb (BindPort c =? 0)
                 && ((BindPort c =? VhostHTTPPort c) || (BindPort c =? VhostHTTPSPort c)))
        (ErrBindCollides (BindPort c));
  _ ← refuse_if (MaxPoolCount c <? 1) ErrMaxPool;
  refuse_if (AcceptLoops c <? 0) ErrAcceptLoops.

Definition LoadServer (c : Server) : res cfgerr Server :=
  let c := Server_ApplyDefaults c in _ ← Server_Validate c; Ok c.

(** ** Lemmas *)

Lemma refuse_if_ok {E} (b : bool) (e : E) : refuse_if b e = Ok tt <-> b = false.
Proof. by destruct b. Qed.

Lemma bind_ok {E A} (m : res E unit) (k : res E A) a :
  (_ ← m; k) = Ok a <-> m = Ok tt /\ k = Ok a.
Proof. destruct m as [[]|e]; cbn [mbind res_bind]; [|by split; [|intros []]]. naive_solver. Qed.

Lemma default_Z_idem z d : default_Z (default_Z z d) d = default_Z z d.
Proof. unfold default_Z. destruct (z =? 0) eqn:E; [|by rewrite E]. by destruct (d =? 0). Qed.

Lemma default_bytes_idem b d : default_bytes (default_bytes b d) d = default_bytes b d.
Proof. unfold default_bytes. repeat case_bool_decide; congruence. Qed.

Lemma Transport_defaults_idem t :
  Transport_ApplyDefaults (Transport_ApplyDefaults t) = Transport_ApplyDefaults t.
Proof. unfold Transport_ApplyDefaults. cbn [Mux MuxStreamWindow t_PoolCount TLSEnable HeartbeatInterval
  HeartbeatTimeout DialTimeout]. by rewrite !default_Z_idem. Qed.

Lemma Upstream_defaults_idem u :
  Upstream_ApplyDefaults (Upstream_ApplyDefaults u) = Upstream_ApplyDefaults u.
Proof.
  unfold Upstream_ApplyDefaults. cbn [u_Name u_Kind Zone TunnelID Addr u_Port u_Token u_ClientName
    u_SocketGID u_SocketMark u_Transport]. by rewrite default_Z_idem, Transport_defaults_idem.
Qed.

Lemma Tunnel_defaults_idem t : Tunnel_applyDefaults (Tunnel_applyDefaults t) = Tunnel_applyDefaults t.
Proof.
  unfold Tunnel_applyDefaults. cbn [tn_Name Enabled tn_Type LocalIP LocalPort tn_RemotePort tn_Domains
    tn_TLSMode tn_Server CertID ProxyProtocol tn_DownRate tn_UpRate tn_Quota].
  rewrite default_bytes_idem. f_equal.
  destruct (bool_decide (tn_Type t = TunnelHTTPS)); cbn [andb negb].
  - destruct (bool_decide (tn_TLSMode t = [])) eqn:E; [done|]. by rewrite E.
  - destruct (bool_decide (tn_TLSMode t = [])) eqn:E; [done|]. by rewrite E.
Qed.

Lemma Client_defaults_idem c : Client_ApplyDefaults (Client_ApplyDefaults c) = Client_ApplyDefaults c.
Proof.
  unfold Client_ApplyDefaults. cbn [Servers ServerAddr ServerPort c_Token c_Name c_Transport
    c_SocketGID c_SocketMark Tunnels].
  rewrite default_Z_idem, Transport_defaults_idem, <- !list_fmap_compose. f_equal.
  - apply list_fmap_ext. intros ? ? _. apply Upstream_defaults_idem.
  - apply list_fmap_ext. intros ? ? _. apply Tunnel_defaults_idem.
Qed.

(** Splitting a list by a key that takes its values in a duplicate-free list. *)
Lemma partition_by {A} (key : A -> bytes) (ks : list bytes) (l : list A) :
  NoDup ks -> Forall (fun a => key a ∈ ks) l ->
  concat ((fun k => filter (fun a => key a = k) l) <$> ks) ≡ₚ l.
Proof.
  intros Hnd. revert l. induction Hnd as [|k ks Hk Hnd IH]; intros l Hl.
  { destruct l as [|a l]; [done|]. inversion Hl as [|? ? Ha]; subst. by apply elem_of_nil in Ha. }
  cbn [fmap list_fmap concat].
  etrans; [|apply (filter_app_complement (fun a => key a = k) l)]. apply Permutation_app_head.
  etrans; [|apply (IH (filter (fun a => ~ key a = k) l))].
  - assert (E : forall k', k' ∈ ks -> filter (fun a => key a = k') l
                = filter (fun a => key a = k') (filter (fun a => ~ key a = k) l)).
    { intros k' Hk'. rewrite list_filter_filter. apply list_filter_iff.
      intros a. split; [intros <-; split; [done|congruence]|by intros []]. }
    clear IH Hl Hk Hnd. induction ks as [|k' ks IHk]; [done|]. cbn [fmap list_fmap concat].
    rewrite (E k') by (by left). f_equiv. apply IHk. intros k'' ?. apply E. by right.
  - apply Forall_forall. intros a [Hne Ha]%list_elem_of_filter.
    rewrite Forall_forall in Hl. specialize (Hl a Ha). apply elem_of_cons in Hl as [|]; [done|done].
Qed.

Section loaded.
Context `{NetText}.

Lemma check_servers_ok names us :
  check_servers names us = Ok tt ->
  Forall (fun u => Upstream_Validate u = Ok tt) us /\ NoDup (u_Name <$> us)
  /\ Forall (fun n => n ∉ names) (u_Name <$> us).
Proof.
  revert names. induction us as [|u us IH]; intros names.
  { intros _. split_and!; constructor. }
  cbn [check_servers]. rewrite !bind_ok, refuse_if_ok.
  intros (Hu & Hn & Hrest). apply bool_decide_eq_false in Hn.
  apply IH in Hrest as (H1 & H2 & H3). cbn [fmap list_fmap]. rewrite Forall_forall in H3.
  split_and!.
  - by constructor.
  - constructor; [|done]. intros Hin. apply H3 in Hin. set_solver.
  - constructor; [done|]. apply Forall_forall. intros n Hin. apply H3 in Hin. set_solver.
Qed.

Lemma check_tunnels_ok seen ports ts :
  check_tunnels seen ports ts = Ok tt ->
  Forall (fun t => Tunnel_Validate t = Ok tt) ts /\ NoDup (tn_Name <$> ts)
  /\ Forall (fun n => n ∉ seen) (tn_Name <$> ts)
  /\ NoDup (port_key <$> filter (fun t => wants_port t = true) ts)
  /\ Forall (fun k => ports !! k = None) (port_key <$> filter (fun t => wants_port t = true) ts).
Proof.
  revert seen ports. induction ts as [|t ts IH]; intros seen ports.
  { intros _. split_and!; constructor. }
  cbn [check_tunnels]. rewrite !bind_ok, refuse_if_ok. intros (Ht & Hn & Hrest).
  apply bool_decide_eq_false in Hn. rewrite filter_cons.
  assert (Hnames : forall seen', ({[tn_Name t]} ∪ seen') = ({[tn_Name t]} ∪ seen) ->
    Forall (fun n => n ∉ ({[tn_Name t]} ∪ seen)) (tn_Name <$> ts) -> NoDup (tn_Name <$> ts) ->
    NoDup (tn_Name <$> t :: ts) /\ Forall (fun n => n ∉ seen) (tn_Name <$> t :: ts)).
  { intros _ _ H3 H2. cbn [fmap list_fmap]. rewrite Forall_forall in H3. split.
    - constructor; [|done]. intros Hin. apply H3 in Hin. set_solver.
    - constructor; [done|]. apply Forall_forall. intros n Hin. apply H3 in Hin. set_solver. }
  destruct (wants_port t) eqn:Ew.
  - rewrite decide_True by done. destruct (ports !! port_key t) as [other|] eqn:Ep; [done|].
    apply IH in Hrest as (H1 & H2 & H3 & H4 & H5). destruct (Hnames seen eq_refl H3 H2) as [Ha Hb].
    cbn [fmap list_fmap] in *. rewrite Forall_forall in H5.
    split_and!; [by constructor|done|done| |].
    + constructor; [|done]. intros Hin. apply H5 in Hin. by rewrite lookup_insert_eq in Hin.
    + constructor; [done|]. apply Forall_forall. intros k Hin. apply H5 in Hin.
      by apply lookup_insert_None in Hin as [? _].
  - rewrite decide_False by congruence.
    apply IH in Hrest as (H1 & H2 & H3 & H4 & H5). destruct (Hnames seen eq_refl H3 H2) as [Ha Hb].
    split_and!; [by constructor|done|done|done|done].
Qed.

(** A server name and a port are read back from their key. *)
Lemma port_key_inj t t' :
  in_i64 (tn_RemotePort t) -> in_i64 (tn_RemotePort t') -> port_key t = port_key t' ->
  tn_Server t = tn_Server t' /\ tn_RemotePort t = tn_RemotePort t'.
Proof.
  intros Hp Hp' Hk. unfold port_key in Hk.
  change (go "/") with [x2f] in Hk.
  assert (Hno : forall z, x2f ∉ Itoa z).
  { intros z Hin. unfold Itoa in Hin.
    assert (Hd : x2f ∈ utoa (Z.to_N (Z.abs z)) -> False).
    { intros Hin'. pose proof (utoa_digits (Z.to_N (Z.abs z))) as Hd. rewrite Forall_forall in Hd.
      apply Hd in Hin'. vm_compute in Hin'. by destruct Hin'. }
    destruct (z <? 0) eqn:E; bool_facts.
    - apply elem_of_cons in Hin as [|Hin]; [done|]. apply Hd. by replace (Z.abs z) with (- z) by lia.
    - apply Hd. by replace (Z.abs z) with z by lia. }
  assert (Hsplit : forall a b c d, x2f ∉ c -> x2f ∉ d -> a ++ [x2f] ++ c = b ++ [x2f] ++ d -> a = b /\ c = d).
  { intros a b c d Hc Hd Heq. apply (f_equal (@rev _)) in Heq.
    rewrite !rev_app_distr, <- !app_assoc in Heq.
    assert (Hr : forall l, x2f ∉ l -> x2f ∉ rev l) by (intros l; by rewrite !list_elem_of_In, <- in_rev).
    pose proof (IndexByte_app (rev c) x2f (rev a) (Hr _ Hc)) as H1.
    pose proof (IndexByte_app (rev d) x2f (rev b) (Hr _ Hd)) as H2.
    cbn [rev app] in Heq. rewrite Heq, H2 in H1. injection H1 as Hl.
    apply app_inj_1 in Heq as [E1 E2]; [|done]. injection E2 as E2.
    split; apply (f_equal (@rev _)) in E1, E2; by rewrite !rev_involutive in *. }
  apply Hsplit in Hk as [-> Hi]; [|done|done]. split; [done|]. by apply Itoa_inj.
Qed.
End loaded.

Section properties.
Context `{NetText}.

Lemma LoadClient_ok c c' :
  LoadClient c = Ok c' ->
  c' = Client_ApplyDefaults c
  /\ Upstreams c' <> [] /\ check_servers ∅ (Upstreams c') = Ok tt
  /\ OrphanTunnels c' = [] /\ check_tunnels ∅ ∅ (Tunnels c') = Ok tt.
Proof.
  unfold LoadClient, Client_Validate. rewrite !bind_ok, refuse_if_ok.
  intros ((Hn & Hs & Ho) & Hc). apply (inj Ok) in Hc. subst c'.
  destruct (OrphanTunnels _) eqn:E; [|done]. split_and!; try done.
  intros E0. by rewrite E0 in Hn.
Qed.

Lemma owner_known c t :
  Upstreams c <> [] -> OrphanTunnels c = [] -> t ∈ EnabledTunnels c ->
  owner c t ∈ u_Name <$> Upstreams c.
Proof.
  intros Hne Ho [Hen Hin]%list_elem_of_filter.
  assert (Hknown : tn_Server t = [] \/ tn_Server t ∈ u_Name <$> Upstreams c).
  { destruct (decide (tn_Server t = [])) as [|Hs]; [by left|].
    destruct (decide (tn_Server t ∈ u_Name <$> Upstreams c)) as [|Hk]; [by right|].
    exfalso. apply (not_elem_of_nil t). rewrite <- Ho. unfold OrphanTunnels.
    apply list_elem_of_filter. split; [|done]. rewrite Hen. unfold known_server.
    by rewrite !bool_decide_eq_false_2. }
  unfold owner, default_bytes. case_bool_decide as E.
  - destruct (Upstreams c) as [|u us]; [done|]. cbn [fmap list_fmap]. by left.
  - by destruct Hknown.
Qed.

(** Every enabled tunnel is served, and by one server only: in a
    configuration that loads, the tunnels handed to the configured servers
    (TunnelsFor, over all of them) are exactly the enabled tunnels, each once;
    a tunnel that names no server goes to the first. *)
Theorem tunnels_partitioned c c' :
  LoadClient c = Ok c' ->
  concat ((fun u => TunnelsFor (u_Name u) c') <$> Upstreams c') ≡ₚ EnabledTunnels c'.
Proof.
  intros (-> & Hne & Hs & Ho & _)%LoadClient_ok.
  set (c' := Client_ApplyDefaults c) in *.
  apply check_servers_ok in Hs as (_ & Hnd & _).
  etrans; [|apply (partition_by (owner c') (u_Name <$> Upstreams c')); [exact Hnd|]].
  - rewrite <- list_fmap_compose. match goal with |- ?a ≡ₚ ?b => enough (a = b) as -> by done end.
    f_equal. apply list_fmap_ext.
    intros i u _. unfold compose, TunnelsFor, EnabledTunnels. rewrite list_filter_filter.
    apply list_filter_iff. intros t. tauto.
  - apply Forall_forall. intros t Ht. by apply owner_known.
Qed.

(** C20: What loads is well formed, and loads again to itself: every server
    and every tunnel of a loaded configuration passes its own checks, server
    names and tunnel names are unique, no two enabled tunnels that are
    written for the same server ask for the same port, and the defaults
    change nothing more. *)
Theorem loaded_config_well_formed c c' :
  LoadClient c = Ok c' ->
  Forall (fun u => Upstream_Validate u = Ok tt) (Upstreams c')
  /\ Forall (fun t => Tunnel_Validate t = Ok tt) (Tunnels c')
  /\ NoDup (u_Name <$> Upstreams c') /\ NoDup (tn_Name <$> Tunnels c')
  /\ (forall i j t t', Tunnels c' !! i = Some t -> Tunnels c' !! j = Some t' ->
      wants_port t = true -> wants_port t' = true ->
      tn_Server t = tn_Server t' -> tn_RemotePort t = tn_RemotePort t' -> i = j)
  /\ LoadClient c' = Ok c'.
Proof.
  intros Hload. pose proof Hload as (E & Hne & Hs & Ho & Ht)%LoadClient_ok.
  apply check_servers_ok in Hs as (Hu & Hnd & _).
  apply check_tunnels_ok in Ht as (Hv & Hnt & _ & Hp & _).
  split_and!; try done.
  - intros i j t t' Hi Hj Hw Hw' Hsrv Hport.
    assert (Hkey : port_key t = port_key t') by (unfold port_key; congruence).
    assert (Htt : t = t').
    { assert (Hin : forall x k, Tunnels c' !! k = Some x -> wants_port x = true ->
        x ∈ filter (fun t => wants_port t = true) (Tunnels c')).
      { intros x k Hx Hxw. apply list_elem_of_filter. split; [done|]. by eapply list_elem_of_lookup_2. }
      apply (Hin _ _) in Hi as Hi'; [|done]. apply (Hin _ _) in Hj as Hj'; [|done].
      apply list_elem_of_lookup in Hi' as [a Ha], Hj' as [b Hb].
      assert (a = b) as ->; [|congruence].
      apply (NoDup_lookup _ a b (port_key t) Hp); rewrite list_lookup_fmap, ?Ha, ?Hb; simpl; congruence. }
    subst t'. apply (NoDup_lookup _ i j (tn_Name t) Hnt); by rewrite list_lookup_fmap, ?Hi, ?Hj.
  - revert Hload. subst c'. unfold LoadClient. by rewrite Client_defaults_idem.
Qed.
End properties.

(** ** A port clash that is missed, and witnesses *)

Definition example_transport : Transport := MkTransport [] false 0 0 false 0 0 0.
Definition example_upstream : Upstream :=
  MkUpstream (go "vps") [] [] [] (go "vps.example.com") 7000 [] [] 0 0 example_transport.
Definition example_tunnel (name server type : bytes) (port : Z) : Tunnel :=
  MkTunnel name true type [] 22 port [] [] server 0 [] 0 0 0.
Definition example_client (ts : list Tunnel) : Client :=
  MkClient [example_upstream] [] 0 [] [] example_transport 0 0 ts.

(** The check for two tunnels on one port looks at the server as written,
    not at the server that serves the tunnel: one tunnel that names the first
    server and one that leaves it to the default pass, although both ask the
    same server for the same port; and a TCP and a UDP tunnel, which could share
    a port number, are refused. *)
Theorem port_clash_missed :
  let one := example_tunnel (go "a") (go "vps") TunnelTCP 6000 in
  let two := example_tunnel (go "b") [] TunnelTCP 6000 in
  let udp := example_tunnel (go "c") (go "vps") TunnelUDP 6000 in
  (exists c, @LoadClient no_net_text (example_client [one; two]) = Ok c
             /\ length (@TunnelsFor (go "vps") c) = 2%nat)
  /\ is_ok (@LoadClient no_net_text (example_client [one; udp])) = false.
Proof. split; [|by vm_compute]. eexists. split; [by vm_compute|by vm_compute]. Qed.

Definition example_loaded : Client :=
  Client_ApplyDefaults (example_client
    [example_tunnel (go "a") (go "vps") TunnelTCP 6000; example_tunnel (go "b") [] TunnelTCP 6001]).

Lemma tunnels_partitioned_witness :
  concat ((fun u => TunnelsFor (u_Name u) example_loaded) <$> Upstreams example_loaded)
  ≡ₚ EnabledTunnels example_loaded.
Proof.
  apply (@tunnels_partitioned no_net_text (example_client
    [example_tunnel (go "a") (go "vps") TunnelTCP 6000; example_tunnel (go "b") [] TunnelTCP 6001])).
  by vm_compute.
Defined.

Lemma loaded_config_well_formed_witness :
  @LoadClient no_net_text example_loaded = Ok example_loaded.
Proof.
  refine (proj2 (proj2 (proj2 (proj2 (proj2 (@loaded_config_well_formed no_net_text (example_client
    [example_tunnel (go "a") (go "vps") TunnelTCP 6000; example_tunnel (go "b") [] TunnelTCP 6001])
    example_loaded _)))))).
  by vm_compute.
Defined.
