(* ===== verification/Server.v ===== *)
(** The server: [internal/tunnel/server] (server.go, control.go, registry.go,
    vhost.go).

    Sessions are shared objects, so they live in a heap and the registry maps a
    run id to an identity.  Each handler is one function of the whole server;
    the work a goroutine does after its handler (a session's teardown) is a
    separate step, so that steps of different connections interleave. *)
From S2P Require Import Prelude GoStrings Stream Messages Protocol Pattern Router Sniff.
From S2P Require Import Challenge CertStore Session Config.

Record State := MkState {
  cfg : Config.Server;
  sessions : gmap N Session;
  registry : gmap bytes N;
  router : Router;
  store : CertStore;
  challenges : ChallengeStore
}.

Definition New (c : Config.Server) : State :=
  MkState c ∅ ∅ NewRouter NewCertStore NewChallengeStore.

Definition vhosts (st : State) : Vhosts :=
  MkVhosts (negb (VhostHTTPPort (cfg st) =? 0) || negb (VhostHTTPSPort (cfg st) =? 0))
    (VhostHTTPPort (cfg st)) (VhostHTTPSPort (cfg st)).

Definition set_sessions (ss : gmap N Session) (st : State) : State :=
  MkState (cfg st) ss (registry st) (router st) (store st) (challenges st).
Definition set_registry (rg : gmap bytes N) (st : State) : State :=
  MkState (cfg st) (sessions st) rg (router st) (store st) (challenges st).
Definition set_router (r : Router) (st : State) : State :=
  MkState (cfg st) (sessions st) (registry st) r (store st) (challenges st).
Definition set_store (c : CertStore) (st : State) : State :=
  MkState (cfg st) (sessions st) (registry st) (router st) c (challenges st).
Definition set_challenges (c : ChallengeStore) (st : State) : State :=
  MkState (cfg st) (sessions st) (registry st) (router st) (store st) c.

(** ** The registry (registry.go) *)

Module Registry.
Definition Add (sid : N) (run : bytes) (st : State) : option N * State :=
  (registry st !! run, set_registry (<[run := sid]> (registry st)) st).

Definition Get (run : bytes) (st : State) : option N := registry st !! run.

Definition Remove (sid : N) (run : bytes) (st : State) : State :=
  if bool_decide (registry st !! run = Some sid)
  then set_registry (delete run (registry st)) st else st.

Definition Len (st : State) : nat := size (registry st).
End Registry.

Section server.
Context `{Unicode} `{Idna} `{Hmac} `{X509}.

(** A call on a session that may also touch the router. *)
Definition with_session (sid : N) (f : Session * Router -> Session * Router) (st : State) : State :=
  match sessions st !! sid with
  | None => st
  | Some s => let '(s, r) := f (s, router st) in
              set_router r (set_sessions (<[sid := s]> (sessions st)) st)
  end.

Definition close_session (sid : N) (st : State) : State :=
  with_session sid (fun sr => Close (vhosts st) sr.1 sr.2) st.

(** ** Logging in (control.go) *)

Inductive login_result : Type :=
  | LoginRefused (resp : option LoginResp)   (* the connection is closed *)
  | LoginStarted (sid : N).

Definition refusal (e : bytes) : LoginResp := MkLoginResp [] Version [] [] e.

(** The texts of the errors the server passes on: [err.Error()]. *)
Variable protocol_text : perr -> bytes.
Variable session_text : sesserr -> bytes.
Variable challenge_text : cherr -> bytes.
Variable cert_text : certerr -> bytes.

Definition clamp_pool (requested max : Z) : Z :=
  let poolTarget := if requested <? 1 then 1 else requested in
  if max <? poolTarget then max else poolTarget.

Definition session_of (st : State) (run : bytes) (conn : N) (login : Login) : Session :=
  newSession (MkSessionOptions run conn (clamp_pool (PoolCount login) (MaxPoolCount (cfg st)))
                (MaxPoolCount (cfg st))).

(** [handleLogin] up to the control loop: [generated] is what [NewRunID]
    gives, [sid] the identity of the new session, [sent] whether the response
    could be written. *)
Definition handleLogin (conn sid : N) (login : Login) (now : Z) (generated : option bytes)
  (observed serverVersion : bytes) (sent : bool) (st : State)
  : login_result * option LoginResp * State :=
  match CheckVersion (login_Version login) with
  | Err e => (LoginRefused (Some (refusal (protocol_text e))), None, st)
  | Ok _ =>
      match VerifyAuth (Config.Token (cfg st)) (login_AuthKey login) (login_Timestamp login) now
              DefaultAuthSkew with
      | Err _ => (LoginRefused (Some (refusal (go "authentication failed"))), None, st)
      | Ok _ =>
          match (if bool_decide (login_RunID login = []) then generated else Some (login_RunID login)) with
          | None => (LoginRefused None, None, st)
          | Some run =>
              let session := session_of st run conn login in
              let st := set_sessions (<[sid := session]> (sessions st)) st in
              let '(replaced, st) := Registry.Add sid run st in
              let st := match replaced with Some old => close_session old st | None => st end in
              let resp := MkLoginResp observed Version run serverVersion [] in
              let st := if sent
                        then with_session sid (fun sr => (requestWorkConns (poolTarget (pool session)) sr.1, sr.2)) st
                        else st in
              (LoginStarted sid, Some resp, st)
          end
      end
  end.

(** The deferred calls once the control loop ends, in their order. *)
Definition teardown_remove (sid : N) (st : State) : State :=
  match sessions st !! sid with
  | Some s => Registry.Remove sid (Session.runID s) st
  | None => st
  end.
Definition teardown_close (sid : N) (st : State) : State := close_session sid st.

(** ** The control loop *)

Definition handleNewProxy (sid : N) (spec : ProxySpec) (now : Z) (listen : Z -> res bytes Z)
  (st : State) : Message * State :=
  match sessions st !! sid with
  | None => (MNewProxyResp (MkNewProxyResp (spec_Name spec) 0 []), st)
  | Some s =>
      let '(result, s, r) := AddProxy (vhosts st) spec now listen s (router st) in
      (MNewProxyResp match result with
                     | Ok port => MkNewProxyResp (spec_Name spec) port []
                     | Err e => MkNewProxyResp (spec_Name spec) 0 (session_text e)
                     end,
       set_router r (set_sessions (<[sid := s]> (sessions st)) st))
  end.

Definition handleHTTPChallenge (run : bytes) (m : HTTPChallenge) (now : Z)
  (st : State) : Message * State :=
  if hc_Remove m
  then (MHTTPChallengeResp [], set_challenges (Withdraw run (Messages.Token m) (challenges st)) st)
  else
    let '(r, c) := Publish run (hc_Domain m) (Messages.Token m) (KeyAuth m) now (challenges st) in
    (MHTTPChallengeResp match r with Ok _ => [] | Err e => challenge_text e end, set_challenges c st).

Definition handleCertPush (m : CertPush) (now : Z) (st : State)
  : Message * State :=
  let '(r, c) := Install (FullchainPEM m) (PrivateKeyPEM m) now (store st) in
  (MCertPushResp match r with Ok _ => [] | Err e => cert_text e end, set_store c st).

(** What the world answers while one message is handled. *)
Record env := MkEnv { e_now : Z; e_listen : Z -> res bytes Z; e_written : bool }.

(** One round of [controlLoop] on a message: the reply, if any, and whether
    the loop goes on. *)
Definition handle_message (sid : N) (run : bytes) (m : Message) (e : env) (st : State)
  : option Message * bool * State :=
  match m with
  | MPing ts => (Some (MPong ts []), e_written e, st)
  | MNewProxy spec =>
      let '(reply, st) := handleNewProxy sid spec (e_now e) (e_listen e) st in (Some reply, true, st)
  | MCloseProxy name =>
      (None, true, with_session sid (fun sr => let '(_, s, r) := RemoveProxy name sr.1 sr.2 in (s, r)) st)
  | MCertPush push => let '(reply, st) := handleCertPush push (e_now e) st in (Some reply, true, st)
  | MHTTPChallenge c =>
      let '(reply, st) := handleHTTPChallenge run c (e_now e) st in (Some reply, true, st)
  | _ => (None, true, st)
  end.

(** The loop over what [codec.Read] returns: the replies written and whether
    the loop has ended. *)
Fixpoint controlLoop (sid : N) (run : bytes) (reads : list (res perr Message * env)) (st : State)
  : list Message * bool * State :=
  match reads with
  | [] => ([], false, st)
  | (Err err, _) :: reads =>
      if IsEOF err then ([], true, st)
      else if IsUnknownType err then controlLoop sid run reads st
      else ([], true, st)
  | (Ok m, e) :: reads =>
      let '(reply, go_on, st) := handle_message sid run m e st in
      let written := if e_written e then option_list reply else [] in
      if go_on
      then let '(replies, over, st) := controlLoop sid run reads st in (written ++ replies, over, st)
      else (written, true, st)
  end.

(** ** Connections that join a session (server.go) *)

Definition attachWorkConn (conn : N) (m : NewWorkConn) (now : Z) (choose : bool) (st : State)
  : bool * State :=
  match VerifyAuth (Config.Token (cfg st)) (nwc_AuthKey m) (nwc_Timestamp m) now DefaultAuthSkew with
  | Err _ => (false, st)
  | Ok _ =>
      match Registry.Get (nwc_RunID m) st with
      | None => (false, st)
      | Some sid => (true, with_session sid (fun sr => (AddWorkConn conn choose sr.1, sr.2)) st)
      end
  end.

(** [source] is the carrier [NewMuxSource] builds on the connection. *)
Definition attachMuxConn (source : option N) (m : NewWorkConn) (now : Z) (st : State) : bool * State :=
  match VerifyAuth (Config.Token (cfg st)) (nwc_AuthKey m) (nwc_Timestamp m) now DefaultAuthSkew with
  | Err _ => (false, st)
  | Ok _ =>
      match Registry.Get (nwc_RunID m) st, source with
      | Some sid, Some source => (true, with_session sid (fun sr => (SetOverflow source sr.1, sr.2)) st)
      | _, _ => (false, st)
      end
  end.

(** ** Visitors of the vhost listeners (vhost.go) *)

Definition statusBadRequest : bytes := go "400 Bad Request".
Definition statusNotFound : bytes := go "404 Not Found".
Definition statusBadGateway : bytes := go "502 Bad Gateway".

Inductive visit : Type :=
  | Rejected (status : bytes)          (* answered over HTTP, dropped over TLS *)
  | Challenged (keyAuth : bytes)
  | Unclaimed (host : bytes)
  | NoCertificate (conn : N)           (* the work connection is closed *)
  | Forwarded (conn : N) (first : bytes) (route : Route)
  | Terminated (conn : N) (replay : bytes) (route : Route)
  | StillWaiting.

Definition terminationRoute (route : Route) : bool := bool_decide (r_TLSMode route = go "terminate").

(** [v.sniff]: the host, the path, what was consumed, and an error. *)
Definition sniff (scheme : bytes) (cap : nat) (c : conn) : bytes * bytes * bytes * option serr :=
  if bool_decide (scheme = SchemeHTTP)
  then let '(info, e, _) := SniffHTTP cap c in (Host info, Path info, Consumed info, e)
  else
    let '(info, e, _) := SniffTLS cap c in
    match e with
    | Some e => ([], [], t_Consumed info, Some e)
    | None => (ServerName info, [], t_Consumed info, None)
    end.

(** How a request for a work connection goes: what the carriers and the first
    writes answer, what happens while it waits, and how the wait ends. *)
Record dial := MkDial {
  d_open : N -> open_result;
  d_start : N -> bool;
  d_meanwhile : State -> State;
  d_wait : wait_outcome
}.

Definition GetWorkConn (sid : N) (name source : bytes) (d : dial) (st : State)
  : get_result * State :=
  match sessions st !! sid with
  | None => (Failed ErrSessionClosed, st)
  | Some s =>
      let '(r, s) := begin_get (d_open d) (d_start d) name source s in
      let st := set_sessions (<[sid := s]> (sessions st)) st in
      match r with
      | Waiting =>
          let st := d_meanwhile d st in
          match sessions st !! sid ≫= finish_get (d_wait d) (d_start d) name source with
          | Some (r, s) => (r, set_sessions (<[sid := s]> (sessions st)) st)
          | None => (Waiting, st)
          end
      | r => (r, st)
      end
  end.

(** [handle], to the point where the relay starts. *)
Definition handle (scheme source : bytes) (cap : nat) (c : conn) (now : Z) (d : dial) (st : State)
  : visit * State :=
  let '(host, path, consumed, err) := sniff scheme cap c in
  match err with
  | Some _ => (Rejected statusBadRequest, st)
  | None =>
      match (if bool_decide (scheme = SchemeHTTP) then Answer path now (challenges st) else None) with
      | Some keyAuth => (Challenged keyAuth, st)
      | None =>
          match Lookup host (router st) with
          | None => (Unclaimed host, st)
          | Some route =>
              match Registry.Get (Router.RunID route) st with
              | None => (Rejected statusBadGateway,
                         set_router (RemoveClient (Router.RunID route) (router st)) st)
              | Some sid =>
                  let exhausted := match sessions st !! sid with
                                   | Some s => Limits.Exhausted (Limits.For (r_ProxyName route) (limits s)) (limits s)
                                   | None => false
                                   end in
                  if exhausted then (Rejected statusBadGateway, st)
                  else
                    match GetWorkConn sid (r_ProxyName route) source d st with
                    | (Failed _, st) => (Rejected statusBadGateway, st)
                    | (Waiting, st) => (StillWaiting, st)
                    | (Got w, st) =>
                        if bool_decide (scheme = SchemeHTTPS) && terminationRoute route
                        then if Has host (store st) then (Terminated w consumed route, st)
                             else (NoCertificate w, st)
                        else (Forwarded w consumed route, st)
                    end
              end
          end
      end
  end.

(** What the visitor is sent when it is turned away. *)
Definition reject (scheme status : bytes) : bytes :=
  if bool_decide (scheme = SchemeHTTP)
  then go "HTTP/1.1 " ++ status ++ [x0d; x0a] ++ go "Content-Length: 0" ++ [x0d; x0a]
       ++ go "Connection: close" ++ [x0d; x0a; x0d; x0a]
  else [].

(** ** Opening messages (server.go) *)

Inductive opening : Type :=
  | OpensSession (m : Login)
  | OpensWorkConn (m : NewWorkConn)
  | OpensCarrier (m : NewWorkConn)
  | OpensNothing (resp : option LoginResp).   (* the connection is closed *)

(** [handlePlain], whose callees are the handlers above. *)
Definition handlePlain `{JsonCodec} (c : stream) : opening * stream :=
  match ReadMessage c with
  | (Err _, c) => (OpensNothing None, c)
  | (Ok m, c) =>
      (match m with
       | MLogin m => OpensSession m
       | MNewWorkConn m => OpensWorkConn m
       | MNewMuxConn m => OpensCarrier m
       | m => OpensNothing (Some (refusal (go "unexpected opening message " ++ Type_String (Type_ m))))
       end, c)
  end.

Inductive greeting : Type :=
  | GreetsPlain (o : opening)
  | GreetsMux                          (* a multiplexer of plain connections *)
  | GreetsNothing.

Definition handleConn `{JsonCodec} (c : stream) : greeting * stream :=
  match ReadPreamble c with
  | (Err _, c) => (GreetsNothing, c)
  | (Ok p, c) =>
      if p_Mode p =? ModePlain then let '(o, c) := handlePlain c in (GreetsPlain o, c)
      else if p_Mode p =? ModeMux then (GreetsMux, c)
      else (GreetsNothing, c)
  end.

(** ** Lemmas *)

Lemma with_session_lookup sid f st s :
  sessions st !! sid = Some s ->
  sessions (with_session sid f st) !! sid = Some (f (s, router st)).1
  /\ router (with_session sid f st) = (f (s, router st)).2
  /\ registry (with_session sid f st) = registry st
  /\ cfg (with_session sid f st) = cfg st
  /\ (forall k, k <> sid -> sessions (with_session sid f st) !! k = sessions st !! k).
Proof.
  intros Hs. unfold with_session. rewrite Hs. destruct (f (s, router st)) as [s' r'].
  cbn [set_router set_sessions sessions router registry cfg fst snd].
  split_and!; [by rewrite lookup_insert_eq|done|done|done|].
  intros k Hk. by rewrite lookup_insert_ne.
Qed.

Lemma with_session_none sid f st : sessions st !! sid = None -> with_session sid f st = st.
Proof. intros Hs. unfold with_session. by rewrite Hs. Qed.

Lemma with_session_id sid f st s :
  sessions st !! sid = Some s -> f (s, router st) = (s, router st) -> with_session sid f st = st.
Proof.
  intros Hs Hf. unfold with_session. rewrite Hs, Hf. destruct st as [c ss rg r ce ch].
  unfold set_router, set_sessions. cbn in *. f_equal. by apply insert_id.
Qed.

Lemma close_session_registry sid st : registry (close_session sid st) = registry st.
Proof.
  unfold close_session. destruct (sessions st !! sid) as [s|] eqn:E.
  - by apply (with_session_lookup sid _ st s).
  - by rewrite with_session_none.
Qed.

Lemma close_session_other sid st k :
  k <> sid -> sessions (close_session sid st) !! k = sessions st !! k.
Proof.
  intros Hk. unfold close_session. destruct (sessions st !! sid) as [s|] eqn:E.
  - by apply (with_session_lookup sid _ st s).
  - by rewrite with_session_none.
Qed.

Lemma clamp_pool_range n max : 1 <= max -> 1 <= clamp_pool n max <= max.
Proof. unfold clamp_pool. intros Hm. destruct (n <? 1) eqn:E1, (max <? _) eqn:E2; bool_facts; lia. Qed.

Lemma Close_done v s r : done_ (Close v s r).1 = true /\ runID (Close v s r).1 = runID s.
Proof. unfold Close. destruct (done_ s) eqn:E; [split; [exact E|done]|done]. Qed.

Lemma session_of_ok st run conn login :
  1 <= MaxPoolCount (cfg st) -> session_ok (session_of st run conn login).
Proof.
  intros Hm. pose proof (clamp_pool_range (PoolCount login) _ Hm).
  unfold session_of, newSession, session_ok, pool_ok, overflow_ok, maxOverflowCarriers. cbn -[clamp_pool].
  rewrite (proj2 (Z.ltb_ge (MaxPoolCount (cfg st)) 1)) by lia. split_and!; try done; lia.
Qed.

Definition login_accepted (login : Login) (now : Z) (generated : option bytes) (run : bytes) (st : State) : Prop :=
  CheckVersion (login_Version login) = Ok tt
  /\ VerifyAuth (Config.Token (cfg st)) (login_AuthKey login) (login_Timestamp login) now DefaultAuthSkew = Ok tt
  /\ (if bool_decide (login_RunID login = []) then generated else Some (login_RunID login)) = Some run.

(** The state a successful login leads to, in one equation. *)
Lemma handleLogin_started conn sid login now generated observed version sent st run :
  login_accepted login now generated run st ->
  let session := session_of st run conn login in
  let st1 := set_sessions (<[sid := session]> (sessions st)) st in
  let st2 := set_registry (<[run := sid]> (registry st)) st1 in
  let st3 := match registry st !! run with Some old => close_session old st2 | None => st2 end in
  handleLogin conn sid login now generated observed version sent st
  = (LoginStarted sid, Some (MkLoginResp observed Version run version []),
     if sent then with_session sid (fun sr => (requestWorkConns (poolTarget (pool session)) sr.1, sr.2)) st3
     else st3).
Proof. intros (H1' & H2' & H3'). unfold handleLogin. by rewrite H1', H2', H3'. Qed.

Lemma handleLogin_refused conn sid login now generated observed version sent st :
  ~ (exists run, login_accepted login now generated run st) ->
  exists resp, handleLogin conn sid login now generated observed version sent st
               = (LoginRefused resp, None, st).
Proof.
  intros Hno. unfold handleLogin.
  destruct (CheckVersion _) as [[]|] eqn:E1; [|eauto].
  destruct (VerifyAuth _ _ _ _ _) as [[]|] eqn:E2; [|eauto].
  destruct (if bool_decide _ then _ else _) as [run|] eqn:E3; [|eauto].
  exfalso. apply Hno. by exists run.
Qed.

(** C6: Logging in does what it must and nothing else: a client of this
    version that authenticates gets a fresh session under its run id (its own
    or a generated one), with a pool target between one and the server's
    maximum, its first connections already asked for; an older session of the
    same run id is closed, no other session changes; and anybody else is
    refused with the server unchanged. *)
Theorem handleLogin_correct conn sid login now generated observed version st :
  1 <= MaxPoolCount (cfg st) -> sessions st !! sid = None ->
  (forall run, registry st !! run <> Some sid) ->
  let '(result, resp, st') := handleLogin conn sid login now generated observed version true st in
  (exists run s, login_accepted login now generated run st
     /\ result = LoginStarted sid /\ resp = Some (MkLoginResp observed Version run version [])
     /\ registry st' = <[run := sid]> (registry st)
     /\ sessions st' !! sid = Some s /\ runID s = run /\ done_ s = false /\ session_ok s
     /\ reqPending (pool s) = poolTarget (pool s)
     /\ poolTarget (pool s) = clamp_pool (PoolCount login) (MaxPoolCount (cfg st))
     /\ (forall old o, registry st !! run = Some old -> sessions st !! old = Some o ->
         exists o', sessions st' !! old = Some o' /\ done_ o' = true)
     /\ (forall k, k <> sid -> registry st !! run <> Some k -> sessions st' !! k = sessions st !! k))
  \/ (~ (exists run, login_accepted login now generated run st)
      /\ (exists r, result = LoginRefused r) /\ resp = None /\ st' = st).
Proof.
  intros Hmax Hfresh Hreg.
  assert (Hdec : (exists run, login_accepted login now generated run st)
                 \/ ~ (exists run, login_accepted login now generated run st)).
  { unfold login_accepted.
    destruct (decide (CheckVersion (login_Version login) = Ok tt)); [|right; naive_solver].
    destruct (decide (VerifyAuth (Config.Token (cfg st)) (login_AuthKey login) (login_Timestamp login)
                        now DefaultAuthSkew = Ok tt)); [|right; naive_solver].
    destruct (if bool_decide (login_RunID login = []) then generated else Some (login_RunID login));
      [left; eauto|right; naive_solver]. }
  destruct Hdec as [[run Hacc]|Hno].
  2: { destruct (handleLogin_refused conn sid login now generated observed version true st Hno) as [r ->].
       right. eauto. }
  rewrite (handleLogin_started conn sid login now generated observed version true st run Hacc). left.
  set (session := session_of st run conn login).
  set (st1 := set_sessions (<[sid := session]> (sessions st)) st).
  set (st2 := set_registry (<[run := sid]> (registry st)) st1).
  set (st3 := match registry st !! run with Some old => close_session old st2 | None => st2 end).
  pose proof (session_of_ok st run conn login Hmax) as Hsok.
  assert (H3' : sessions st3 !! sid = Some session).
  { unfold st3. destruct (registry st !! run) as [old|] eqn:E.
    - rewrite close_session_other; [by apply lookup_insert_eq|]. intros ->. by apply (Hreg run).
    - apply lookup_insert_eq. }
  assert (Hr3 : registry st3 = <[run := sid]> (registry st)).
  { unfold st3. destruct (registry st !! run); [by rewrite close_session_registry|done]. }
  destruct (with_session_lookup sid
    (fun sr => (requestWorkConns (poolTarget (pool session)) sr.1, sr.2)) st3 session H3')
    as (Hs & _ & Hrg & _ & Hoth). cbn [fst] in Hs.
  exists run, (requestWorkConns (poolTarget (pool session)) session).
  assert (Hpos : 1 <= poolTarget (pool session)) by apply Hsok.
  assert (Hreq : requestWorkConns (poolTarget (pool session)) session
    = on_pool (fun p => set_request (reqPending p + poolTarget (pool session)) true (requests p) p) session).
  { unfold requestWorkConns. by rewrite (proj2 (Z.leb_gt _ 0)) by lia. }
  split_and!; try done.
  - by rewrite Hrg.
  - by rewrite Hreq.
  - by rewrite Hreq.
  - destruct Hsok as [Hp Ho]. split; [by apply request_ok|]. by rewrite Hreq.
  - by rewrite Hreq.
  - by rewrite Hreq.
  - intros old o Hold Ho. assert (Hne : old <> sid) by (intros ->; congruence).
    rewrite Hoth by done. unfold st3. rewrite Hold.
    assert (Ho2 : sessions st2 !! old = Some o) by (cbn; by rewrite lookup_insert_ne).
    destruct (with_session_lookup old (fun sr => Close (vhosts st2) sr.1 sr.2) st2 o Ho2) as (Hc & _).
    unfold close_session. rewrite Hc. eexists. split; [done|]. apply Close_done.
  - intros k Hk Hne. rewrite Hoth by done. unfold st3.
    destruct (registry st !! run) as [old|].
    + rewrite close_session_other by congruence. cbn. by rewrite lookup_insert_ne.
    + cbn. by rewrite lookup_insert_ne.
Qed.

(** A replaced session cannot hurt its replacement: once a client has
    logged in again under its run id, the teardown of its old session, whenever
    it comes, leaves the whole server exactly as it is. *)
Theorem stale_teardown_harmless conn sid old o login now generated observed version sent st run :
  login_accepted login now generated run st ->
  registry st !! run = Some old -> sessions st !! old = Some o -> runID o = run ->
  sessions st !! sid = None ->
  let st' := (handleLogin conn sid login now generated observed version sent st).2 in
  teardown_close old (teardown_remove old st') = st'.
Proof.
  intros Hacc Hold Ho Hrun Hfresh st'. assert (Hne : old <> sid) by (intros ->; congruence).
  unfold st'. rewrite (handleLogin_started conn sid login now generated observed version sent st run Hacc).
  rewrite Hold. cbn [snd].
  set (session := session_of st run conn login).
  set (st2 := set_registry (<[run := sid]> (registry st)) (set_sessions (<[sid := session]> (sessions st)) st)).
  assert (Ho2 : sessions st2 !! old = Some o) by (cbn; by rewrite lookup_insert_ne).
  destruct (with_session_lookup old (fun sr => Close (vhosts st2) sr.1 sr.2) st2 o Ho2)
    as (Hc & _ & Hrg & _ & _). fold (close_session old st2) in *. cbn [fst snd] in Hc.
  set (st3 := close_session old st2) in *.
  set (st4 := if sent then _ else st3).
  set (o' := (Close (vhosts st2) o (router st2)).1) in *.
  assert (H4 : sessions st4 !! old = Some o' /\ registry st4 = <[run := sid]> (registry st)).
  { unfold st4. destruct sent; [|done].
    destruct (sessions st3 !! sid) as [s|] eqn:E; [|by rewrite with_session_none].
    destruct (with_session_lookup sid
      (fun sr => (requestWorkConns (poolTarget (pool session)) sr.1, sr.2)) st3 s E)
      as (_ & _ & Hr & _ & Hoth). rewrite Hoth by done. split; [done|]. by rewrite Hr. }
  destruct H4 as [H4s H4r]. destruct (Close_done (vhosts st2) o (router st2)) as [Hdone Hrid].
  fold o' in Hdone, Hrid.
  assert (Hrem : teardown_remove old st4 = st4).
  { unfold teardown_remove. rewrite H4s. unfold Registry.Remove.
    rewrite Hrid, Hrun, H4r, lookup_insert_eq, bool_decide_false; [done|congruence]. }
  rewrite Hrem. unfold teardown_close, close_session. apply (with_session_id _ _ _ o'); [done|].
  cbn [fst snd]. unfold Close. by rewrite Hdone.
Qed.

Lemma GetWorkConn_got sid name source d st c st' :
  GetWorkConn sid name source d st = (Got c, st') ->
  exists s, sessions st' !! sid = Some s /\ (c, (name, source)) ∈ handed (ledger s).
Proof.
  unfold GetWorkConn. destruct (sessions st !! sid) as [s|]; [|done].
  destruct (begin_get _ _ _ _ s) as [[c1|e|] s1] eqn:E; [|done|].
  - intros [= -> <-]. exists s1. cbn. rewrite lookup_insert_eq. split; [done|].
    by eapply begin_get_got.
  - set (st1 := d_meanwhile d _).
    destruct (sessions st1 !! sid) as [s2|]; cbn [mbind option_bind]; [|done].
    destruct (finish_get _ _ _ _ s2) as [[[c1|e|] s3]|] eqn:E2; try done.
    intros [= -> <-]. exists s3. cbn. rewrite lookup_insert_eq. split; [done|].
    by eapply finish_get_got.
Qed.

(** What the sniffer left on the connection. *)
Definition left_on (scheme : bytes) (cap : nat) (c : conn) : conn :=
  if bool_decide (scheme = SchemeHTTP) then (SniffHTTP cap c).2 else (SniffTLS cap c).2.

Lemma sniff_consumed scheme cap c :
  (cap <= capB)%nat -> (sniff scheme cap c).1.2 ++ sent (left_on scheme cap c) = sent c.
Proof.
  intros Hcap. unfold sniff, left_on. case_bool_decide.
  - pose proof (SniffHTTP_spec cap c Hcap) as Hs.
    destruct (SniffHTTP cap c) as [[info e] c']. by destruct Hs as (? & _).
  - pose proof (SniffTLS_spec cap c Hcap) as Hs.
    destruct (SniffTLS cap c) as [[info e] c']. destruct Hs as (? & _). by destruct e.
Qed.

(** What a relayed visit went through. *)
Lemma handle_relayed scheme source cap c now d st v st' w first route :
  handle scheme source cap c now d st = (v, st') -> v = Forwarded w first route \/ v = Terminated w first route ->
  exists host path sid, sniff scheme cap c = (host, path, first, None)
    /\ (scheme = SchemeHTTP -> Answer path now (challenges st) = None)
    /\ Lookup host (router st) = Some route /\ registry st !! Router.RunID route = Some sid
    /\ (forall s, sessions st !! sid = Some s ->
        Limits.Exhausted (Limits.For (r_ProxyName route) (limits s)) (limits s) = false)
    /\ GetWorkConn sid (r_ProxyName route) source d st = (Got w, st')
    /\ (v = Terminated w first route <-> scheme = SchemeHTTPS /\ r_TLSMode route = go "terminate")
    /\ (v = Terminated w first route -> Has host (store st') = true).
Proof.
  intros Hh Hv. unfold handle in Hh. destruct (sniff scheme cap c) as [[[host path] consumed] err].
  destruct err as [e|]; [by simplify_eq; destruct Hv|].
  destruct (if bool_decide (scheme = SchemeHTTP) then Answer path now (challenges st) else None)
    as [k|] eqn:Ech; [by simplify_eq; destruct Hv|].
  destruct (Lookup host (router st)) as [rt|] eqn:El; [|by simplify_eq; destruct Hv].
  unfold Registry.Get in Hh. destruct (registry st !! Router.RunID rt) as [sid|] eqn:Er; [|by simplify_eq; destruct Hv].
  destruct (match sessions st !! sid with Some s => _ | None => false end) eqn:Ex; [by simplify_eq; destruct Hv|].
  destruct (GetWorkConn sid (r_ProxyName rt) source d st) as [[w1|e|] st1] eqn:Eg; [|by simplify_eq; destruct Hv..].
  exists host, path, sid.
  assert (Hx : forall s, sessions st !! sid = Some s ->
           Limits.Exhausted (Limits.For (r_ProxyName rt) (limits s)) (limits s) = false).
  { intros s Hs. by rewrite Hs in Ex. }
  assert (Hans : scheme = SchemeHTTP -> Answer path now (challenges st) = None).
  { intros Hsc. by rewrite bool_decide_true in Ech. }
  unfold terminationRoute in Hh. rewrite <- bool_decide_and in Hh. case_bool_decide as Et.
  - destruct (Has host (store st1)) eqn:Eh; [|by simplify_eq; destruct Hv].
    simplify_eq. destruct Hv as [|Hv]; [done|]. injection Hv as -> -> ->. by split_and!.
  - simplify_eq. destruct Hv as [Hv|]; [|done]. injection Hv as -> -> ->. split_and!; try done.
Qed.

(** C1: A visitor's connection is relayed only where it belongs, and whole:
    when a vhost listener forwards (or terminates) a connection, the name it
    asked for was identified, no challenge was being answered, the router maps
    that name to the route, the route's client is connected and its quota is
    not spent, the work connection was handed out by that client's session
    for that tunnel and that visitor, and the bytes sent ahead, followed by
    what is still on the visitor's connection, are all the visitor sent; TLS
    is terminated exactly on terminating routes whose host has a certificate. *)
Theorem handle_forwards scheme source cap c now d st w first route st' :
  (cap <= capB)%nat ->
  handle scheme source cap c now d st = (Forwarded w first route, st')
  \/ handle scheme source cap c now d st = (Terminated w first route, st') ->
  let '(host, path, _, err) := sniff scheme cap c in
  err = None
  /\ (scheme = SchemeHTTP -> Answer path now (challenges st) = None)
  /\ Lookup host (router st) = Some route
  /\ first ++ sent (left_on scheme cap c) = sent c
  /\ (exists sid s', registry st !! Router.RunID route = Some sid
       /\ sessions st' !! sid = Some s' /\ (w, (r_ProxyName route, source)) ∈ handed (ledger s')
       /\ (forall s, sessions st !! sid = Some s ->
           Limits.Exhausted (Limits.For (r_ProxyName route) (limits s)) (limits s) = false))
  /\ (handle scheme source cap c now d st = (Terminated w first route, st') <->
       scheme = SchemeHTTPS /\ r_TLSMode route = go "terminate")
  /\ (scheme = SchemeHTTPS -> r_TLSMode route = go "terminate" -> Has host (store st') = true).
Proof.
  intros Hcap Hh. pose proof (sniff_consumed scheme cap c Hcap) as Hsn.
  destruct (handle scheme source cap c now d st) as [v st1] eqn:E.
  assert (st1 = st' /\ (v = Forwarded w first route \/ v = Terminated w first route)) as [-> Hv]
    by (destruct Hh as [Hh|Hh]; injection Hh as -> ->; by auto).
  destruct (handle_relayed _ _ _ _ _ _ _ _ _ _ _ _ E Hv) as (host & path & sid & Es & Ha & El & Er & Hx & Eg & Ht & Hc).
  rewrite Es in *. cbn [fst snd] in Hsn. pose proof (GetWorkConn_got _ _ _ _ _ _ _ Eg) as (s' & Hs' & Hin).
  split_and!; try done; [by exists sid, s'| |].
  - rewrite <- Ht. split; [by intros [= ->]|by intros ->].
  - intros. by apply Hc, Ht.
Qed.

(** ** The control loop's answers *)

(** The type of the reply a message gets. *)
Definition reply_type (m : Message) : option Z :=
  match m with
  | MPing _ => Some TypePong
  | MNewProxy _ => Some TypeNewProxyResp
  | MCertPush _ => Some TypeCertPushResp
  | MHTTPChallenge _ => Some TypeHTTPChallengeResp
  | _ => None
  end.

Definition readable (r : res perr Message * env) : bool :=
  match r.1 with Ok _ => e_written r.2 | Err e => negb (IsEOF e) && IsUnknownType e end.

Lemma handle_message_reply sid run m e st :
  let '(reply, go_on, _) := handle_message sid run m e st in
  Type_ <$> reply = reply_type m /\ (e_written e = true -> go_on = true).
Proof.
  destruct m; cbn [handle_message]; try (by split).
  - unfold handleNewProxy. destruct (sessions st !! sid) as [s|]; [|by split].
    by destruct (AddProxy _ _ _ _ _ _) as [[? ?] ?].
  - unfold handleCertPush. by destruct (Install _ _ _ _).
  - unfold handleHTTPChallenge. destruct (hc_Remove m); [by split|].
    by destruct (Publish _ _ _ _ _ _).
Qed.

(** C15: The control loop answers every request once, in order, and nothing a
    client sends can end it: over any sequence of messages of every known
    type, and of types this server does not know, the replies are one per
    ping, publication, certificate and challenge, in the order they came, and
    the loop goes on; a ping is answered with its own timestamp. *)
Theorem controlLoop_answers sid run reads st :
  Forall (fun r => readable r = true) reads ->
  let '(replies, over, _) := controlLoop sid run reads st in
  Type_ <$> replies = omap (fun r => match r.1 with Ok m => reply_type m | Err _ => None end) reads
  /\ over = false
  /\ (forall ts, (fst <$> reads) = [Ok (MPing ts)] -> replies = [MPong ts []]).
Proof.
  intros Hr. revert st. induction Hr as [|[r e] reads Hread Hrest IH]; intros st; [done|].
  cbn [controlLoop]. unfold readable in Hread. cbn [fst snd] in Hread. destruct r as [m|err].
  - pose proof (handle_message_reply sid run m e st) as Hm.
    destruct (handle_message sid run m e st) as [[reply go_on] st1] eqn:Eh. destruct Hm as [Ht Hg].
    rewrite (Hg Hread), Hread. specialize (IH st1).
    destruct (controlLoop sid run reads st1) as [[replies over] st2].
    destruct IH as (IH1 & IH2 & _). split_and!; [|done|].
    + rewrite fmap_app, IH1. cbn [omap list_omap fst]. rewrite <- Ht. by destruct reply.
    + intros ts Hts. injection Hts as -> Hnil. apply fmap_nil_inv in Hnil. subst reads.
      cbn [omap list_omap] in IH1. apply fmap_nil_inv in IH1. subst replies.
      cbn [handle_message] in Eh. by injection Eh as <- _ _.
  - apply andb_true_iff in Hread as [H1'%negb_true_iff H2'].
    rewrite H1', H2'. specialize (IH st).
    destruct (controlLoop sid run reads st) as [[replies over] st2].
    destruct IH as (IH1 & IH2 & IH3). split_and!; [done|done|]. intros ts. discriminate.
Qed.
End server.

(** ** A race between a client's old and new session, and witnesses *)

Definition no_x509 : X509 := {| X509KeyPair _ _ := None; ParseCertificate _ := None |}.

Section example.
#[local] Existing Instance no_unicode.
#[local] Existing Instance ascii_idna.
#[local] Existing Instance toy_hmac.
#[local] Existing Instance no_x509.

Definition example_cfg : Config.Server :=
  Config.MkServer (go "0.0.0.0") 7000 [] 80 443 8 1.
Definition example_login : Login := MkLogin Version (go "router") [] [] [] 0 [] 2 (go "run").
Definition web_spec (name domain : bytes) : ProxySpec :=
  MkProxySpec name (go "http") 0 [domain] (go "none") 0 0 0.

Definition no_text {A} (_ : A) : bytes := go "error".
Definition login_as (sid : N) (st : State) : State :=
  (handleLogin no_text sid sid example_login 0 None [] [] true st).2.
Definition publish_as (sid : N) (name domain : bytes) (st : State) : Message * State :=
  handleNewProxy no_text sid (web_spec name domain) 0 (fun _ => Err []) st.

(** A client publishes a site; its connection breaks. *)
Definition before_race : State :=
  (publish_as 1 (go "a") (go "a.example.com") (login_as 1 (New example_cfg))).2.
(** The server notices: the registry forgets the session, which is not yet
    closed, and the client is back under its run id. *)
Definition reconnected : State := login_as 2 (teardown_remove 1 before_race).

(** Between [registry.Remove] and [session.Close] of a broken session, a
    client that reconnects under its run id is not protected from the old
    session: its own site is refused as still routed, and a site it has
    successfully published is unrouted again when the old session's [Close]
    removes every route of the run id; the new session still lists it. *)
Theorem reconnect_race_loses_routes :
  let '(refused, _) := publish_as 2 (go "a") (go "a.example.com") reconnected in
  let '(reply, st) := publish_as 2 (go "b") (go "b.example.com") reconnected in
  let st' := teardown_close 1 st in
  refused = MNewProxyResp (MkNewProxyResp (go "a") 0 (go "error"))
  /\ reply = MNewProxyResp (MkNewProxyResp (go "b") 80 [])
  /\ is_Some (Lookup (go "b.example.com") (router st))
  /\ Lookup (go "b.example.com") (router st') = None
  /\ (exists s, sessions st' !! 2%N = Some s /\ registry st' !! go "run" = Some 2%N
      /\ is_Some (proxies s !! go "b")).
Proof.
  vm_compute. split_and!; [done|done|by eexists|done|]. eexists. split_and!; [done|done|by eexists].
Qed.

Lemma handleLogin_correct_witness :
  let st' := login_as 2 before_race in
  (exists s, sessions st' !! 2%N = Some s /\ done_ s = false)
  \/ (st' = before_race).
Proof.
  pose proof (handleLogin_correct no_text 2 2 example_login 0 None [] [] before_race) as H.
  unfold login_as.
  destruct (handleLogin no_text 2 2 example_login 0 None [] [] true before_race) as [[result resp] st'].
  destruct H as [(run & s & _ & _ & _ & _ & Hs & _ & Hd & _)|(_ & _ & _ & E)].
  - by vm_compute.
  - by vm_compute.
  - assert (Hreg : map_Forall (fun _ k => k <> 2%N) (registry before_race)).
    { apply (bool_decide_unpack _). vm_compute. exact I. }
    intros run E. exact (Hreg run 2%N E eq_refl).
  - left. by exists s.
  - by right.
Defined.

Definition old_session : Session :=
  default (newSession (MkSessionOptions [] 0 1 1)) (sessions before_race !! 1%N).

Lemma stale_teardown_harmless_witness :
  let st' := (handleLogin no_text 2 2 example_login 0 None [] [] true before_race).2 in
  teardown_close 1 (teardown_remove 1 st') = st'.
Proof.
  assert (H1 : login_accepted example_login 0 None (go "run") before_race).
  { split_and!; vm_compute; reflexivity. }
  assert (H2 : registry before_race !! go "run" = Some 1%N) by (vm_compute; reflexivity).
  assert (H3 : sessions before_race !! 1%N = Some old_session) by (vm_compute; reflexivity).
  assert (H4 : runID old_session = go "run") by (vm_compute; reflexivity).
  assert (H5 : sessions before_race !! 2%N = None) by (vm_compute; reflexivity).
  exact (stale_teardown_harmless no_text 2 2 1 old_session example_login 0 None [] [] true before_race
           (go "run") H1 H2 H3 H4 H5).
Defined.

Definition example_reads : list (res perr Message * env) :=
  (fun r => (r, MkEnv 0 (fun _ => Err []) true)) <$>
  [Ok (MPing 7); Err (ErrUnknownType 99); Ok (MNewProxy (web_spec (go "b") (go "b.example.com")))].

Lemma controlLoop_answers_witness :
  let '(replies, over, _) := controlLoop no_text no_text no_text 1 (go "run") example_reads before_race in
  Type_ <$> replies = omap (fun r => match r.1 with Ok m => reply_type m | Err _ => None end) example_reads
  /\ over = false.
Proof.
  assert (Hr : Forall (fun r => readable r = true) example_reads) by (by repeat constructor).
  pose proof (controlLoop_answers no_text no_text no_text 1 (go "run") example_reads before_race Hr) as H.
  destruct (controlLoop _ _ _ _ _ _ _) as [[replies over] st]. destruct H as (H1 & H2 & _).
  exact (conj H1 H2).
Defined.

(** A visitor of the site while a work connection is pooled. *)
Definition ready : State :=
  (attachWorkConn 7 (MkNewWorkConn (go "run") 0 []) 0 false before_race).2.
Definition example_dial : dial :=
  MkDial (fun _ => OpenFailed) (fun _ => true) (fun st => st) TimedOut.
Definition example_visitor : conn :=
  chunks 300 11 (request (go "GET") (go "/") (go "HTTP/1.1") [go "Host: a.example.com"] ++ go "x").

Lemma handle_forwards_witness :
  exists first route st',
    handle SchemeHTTP (go "v") 64 example_visitor 0 example_dial ready
    = (Forwarded 7 first route, st')
    /\ first ++ sent (left_on SchemeHTTP 64 example_visitor) = sent example_visitor.
Proof.
  assert (Hcap : (64 <= capB)%nat) by (unfold capB; lia).
  destruct (handle SchemeHTTP (go "v") 64 example_visitor 0 example_dial ready) as [v st'] eqn:E.
  assert (Hfst : match (handle SchemeHTTP (go "v") 64 example_visitor 0 example_dial ready).1 with
                 | Forwarded w _ _ => N.eqb w 7 | _ => false end = true) by (vm_compute; reflexivity).
  rewrite E in Hfst. cbn [fst] in Hfst.
  destruct v as [| | | |w first route| |]; try discriminate Hfst. apply N.eqb_eq in Hfst. subst w.
  exists first, route, st'. split; [reflexivity|].
  pose proof (handle_forwards SchemeHTTP (go "v") 64 example_visitor 0 example_dial ready 7 first route st'
    Hcap (or_introl E)) as H.
  destruct (sniff SchemeHTTP 64 example_visitor) as [[[host path] consumed] err].
  destruct H as (_ & _ & _ & Hf & _). exact Hf.
Defined.
End example.
