(* ===== verification/Semver.v ===== *)
(** Versions and releases: [internal/update] (semver.go, github.go, check.go)
    and [internal/version].

    What the release list of the repository decodes to is an argument; fetching
    it is [net/http] and [encoding/json]. *)
From S2P Require Import Prelude GoStrings.

Record Version := MkVersion { Major : Z; Minor : Z; Patch : Z; Pre : bytes }.

#[export] Instance Version_eq_dec : EqDecision Version.
Proof. solve_decision. Defined.

Inductive uerr : Type :=
  | ErrNotVersion (s : bytes)
  | ErrNoRelease
  | ErrFetch (e : bytes).

#[export] Instance uerr_eq_dec : EqDecision uerr.
Proof. solve_decision. Defined.

(** The numbers of the parts: [strconv.Atoi], none of them negative. *)
Definition parse_part (s part : bytes) : res uerr Z :=
  match Atoi part with
  | Some n => if n <? 0 then Err (ErrNotVersion s) else Ok n
  | None => Err (ErrNotVersion s)
  end.

Definition ParseVersion (s : bytes) : res uerr Version :=
  let s := TrimSpace s in
  let s := TrimPrefix s (go "v") in
  let s := match IndexAny s (go "+ ") with Some i => take i s | None => s end in
  let '(pre, s) := match IndexByte s x2d with
                   | Some i => (drop (i + 1) s, take i s)
                   | None => ([], s)
                   end in
  let parts := Split s x2e in
  if (3 <? length parts)%nat then Err (ErrNotVersion s)
  else
    ns ← map_res (parse_part s) parts;
    Ok (MkVersion (default 0 (ns !! 0%nat)) (default 0 (ns !! 1%nat)) (default 0 (ns !! 2%nat)) pre).

Definition String (v : Version) : bytes :=
  let s := go "v" ++ Itoa (Major v) ++ go "." ++ Itoa (Minor v) ++ go "." ++ Itoa (Patch v) in
  if bool_decide (Pre v = []) then s else s ++ go "-" ++ Pre v.

Fixpoint compare_fields (pairs : list (Z * Z)) (rest : Z) : Z :=
  match pairs with
  | [] => rest
  | (a, b) :: pairs => if negb (a =? b) then (if a <? b then -1 else 1) else compare_fields pairs rest
  end.

Definition compare_pre (p q : bytes) : Z :=
  if bool_decide (p = q) then 0
  else if bool_decide (p = []) then 1
  else if bool_decide (q = []) then -1
  else if bytes_ltb p q then -1 else 1.

Definition Compare (v other : Version) : Z :=
  compare_fields [(Major v, Major other); (Minor v, Minor other); (Patch v, Patch other)]
    (compare_pre (Pre v) (Pre other)).

Definition NewerThan (v other : Version) : bool := 0 <? Compare v other.

(** ** Releases (github.go) *)

Record Asset := MkAsset { a_Name : bytes; a_URL : bytes; a_Size : Z }.

Record Release := MkRelease {
  Tag : bytes;
  rel_Name : bytes;
  Notes : bytes;
  Draft : bool;
  Prerelease : bool;
  Published : Z;
  HTMLURL : bytes;
  Assets : list Asset
}.

Definition ChecksumsName : bytes := go "checksums.txt".

Definition BundleName (tag goos goarch : bytes) : bytes :=
  go "openfrp-" ++ TrimPrefix tag (go "v") ++ go "-" ++ goos ++ go "-" ++ goarch ++ go ".tar.gz".

Fixpoint asset_named (want : bytes) (assets : list Asset) : option Asset :=
  match assets with
  | [] => None
  | a :: assets => if bool_decide (a_Name a = want) then Some a else asset_named want assets
  end.

Definition AssetFor (r : Release) (goos goarch : bytes) : option Asset :=
  asset_named (BundleName (Tag r) goos goarch) (Assets r).

Definition Checksums (r : Release) : option Asset := asset_named ChecksumsName (Assets r).

(** The loop of [Latest] over the releases. *)
Fixpoint best_release (releases : list Release) (best : option (Release * Version))
  : option (Release * Version) :=
  match releases with
  | [] => best
  | r :: releases =>
      if Draft r || Prerelease r then best_release releases best
      else match ParseVersion (Tag r) with
           | Err _ => best_release releases best
           | Ok version =>
               best_release releases
                 (match best with
                  | Some (_, bestVersion) =>
                      if NewerThan version bestVersion then Some (r, version) else best
                  | None => Some (r, version)
                  end)
           end
  end.

(** [fetched] is what [c.get] and [json.Unmarshal] give. *)
Definition Latest (fetched : res uerr (list Release)) : res uerr Release :=
  releases ← fetched;
  match best_release releases None with
  | Some (best, _) => Ok best
  | None => Err ErrNoRelease
  end.

(** ** Checking for an update (check.go, version.go) *)

Definition Short (version : bytes) : bytes :=
  match version with
  | c :: _ => if (48 <=? b2z c) && (b2z c <=? 57) then go "v" ++ version else version
  | [] => version
  end.

Inductive status_error : Type :=
  | NoStatusError
  | ErrRunningVersion (v : bytes)
  | ErrCheck (e : uerr)
  | ErrNoBuild (tag goos goarch : bytes).

Record Status := MkStatus {
  st_Current : bytes;
  st_Latest : bytes;
  st_Available : bool;
  st_Notes : bytes;
  st_Published : Z;
  st_URL : bytes;
  st_Asset : bytes;
  st_Size : Z;
  st_CheckedAt : Z;
  st_Error : status_error
}.

Definition CacheTTL : Z := 6 * Hour.

Definition Stale (now : Z) (s : Status) : bool := CacheTTL <? time_Sub now (st_CheckedAt s).

Definition Check_ (version goos goarch : bytes) (fetched : res uerr (list Release)) (now : Z) : Status :=
  let current := Short version in
  let status e := MkStatus current [] false [] 0 [] [] 0 now e in
  match ParseVersion current with
  | Err _ => status (ErrRunningVersion current)
  | Ok running =>
      match Latest fetched with
      | Err ErrNoRelease => status NoStatusError
      | Err e => status (ErrCheck e)
      | Ok release =>
          match ParseVersion (Tag release) with
          | Err e => status (ErrCheck e)
          | Ok latest =>
              let about available asset size e :=
                MkStatus current (String latest) available (Notes release) (Published release)
                  (HTMLURL release) asset size now e in
              if negb (NewerThan latest running) then about false [] 0 NoStatusError
              else match AssetFor release goos goarch with
                   | None => about false [] 0 (ErrNoBuild (Tag release) goos goarch)
                   | Some asset => about true (a_Name asset) (a_Size asset) NoStatusError
                   end
          end
      end
  end.

(** ** The order of versions *)

Lemma compare_pre_spec p q :
  (compare_pre p q = 0 <-> p = q) /\ compare_pre q p = - compare_pre p q.
Proof.
  unfold compare_pre. destruct (decide (p = q)) as [->|Hpq].
  - by rewrite !bool_decide_true.
  - rewrite !(bool_decide_false (p = q)), !(bool_decide_false (q = p)) by done.
    destruct p as [|a p], q as [|b q]; try done.
    rewrite !(bool_decide_false (_ :: _ = [])) by done.
    destruct (bytes_ltb (a :: p) (b :: q)) eqn:E1, (bytes_ltb (b :: q) (a :: p)) eqn:E2; try done.
    + pose proof (bytes_ltb_asym _ _ E1). congruence.
    + destruct Hpq. by apply bytes_ltb_total.
Qed.

(** A prerelease tag as a rank: none is the greatest. *)
Lemma compare_pre_trans p q r : compare_pre p q <= 0 -> compare_pre q r <= 0 -> compare_pre p r <= 0.
Proof.
  unfold compare_pre. repeat case_bool_decide; subst; try done; try lia.
  destruct (bytes_ltb p q) eqn:E1, (bytes_ltb q r) eqn:E2; try lia.
  by rewrite (bytes_ltb_trans _ _ _ E1 E2).
Qed.

Lemma Compare_le u v :
  Compare u v <= 0 <->
  Major u < Major v \/ Major u = Major v /\ (Minor u < Minor v \/ Minor u = Minor v /\
    (Patch u < Patch v \/ Patch u = Patch v /\ compare_pre (Pre u) (Pre v) <= 0)).
Proof.
  unfold Compare, compare_fields.
  destruct (Major u =? Major v) eqn:E1, (Minor u =? Minor v) eqn:E2, (Patch u =? Patch v) eqn:E3;
    simpl; repeat case_match; bool_facts; lia.
Qed.

Lemma Compare_sym u v : Compare v u = - Compare u v.
Proof.
  unfold Compare, compare_fields. rewrite (proj2 (compare_pre_spec (Pre u) (Pre v))).
  rewrite (Z.eqb_sym (Major v)), (Z.eqb_sym (Minor v)), (Z.eqb_sym (Patch v)).
  repeat case_match; bool_facts; lia.
Qed.

Lemma Compare_eq u v : Compare u v = 0 <-> u = v.
Proof.
  split.
  - unfold Compare, compare_fields. intros H. repeat case_match; bool_facts; try lia.
    apply compare_pre_spec in H. destruct u, v; simpl in *; congruence.
  - intros ->. unfold Compare, compare_fields. rewrite !Z.eqb_refl. simpl. by apply compare_pre_spec.
Qed.

Lemma Compare_trans u v w : Compare u v <= 0 -> Compare v w <= 0 -> Compare u w <= 0.
Proof.
  rewrite !Compare_le. intros H1 H2.
  pose proof (compare_pre_trans (Pre u) (Pre v) (Pre w)). lia.
Qed.

(** Versions are totally ordered, field by field as numbers, a prerelease
    below its release: [Compare] is zero exactly on equal versions, changes its
    sign when its arguments are swapped, and is transitive. *)
Theorem Compare_total_order u v w :
  (Compare u v = 0 <-> u = v)
  /\ Compare v u = - Compare u v
  /\ (Compare u v <= 0 -> Compare v w <= 0 -> Compare u w <= 0)
  /\ (Major u = Major v -> Minor u = Minor v -> Patch u = Patch v ->
      Pre u <> [] -> Pre v = [] -> NewerThan v u = true).
Proof.
  split; [apply Compare_eq|]. split; [apply Compare_sym|].
  split; [apply Compare_trans|]. intros H1 H2 H3 Hu Hv.
  unfold NewerThan, Compare, compare_fields. rewrite H1, H2, H3, !Z.eqb_refl. cbn -[compare_pre].
  rewrite Hv. unfold compare_pre. by rewrite bool_decide_false, bool_decide_true by congruence.
Qed.

(** ** Reading back what is printed *)

(** Versions a release may carry. *)
Definition wf_version (v : Version) : Prop :=
  Forall (fun n => 0 <= n <= max_i64) [Major v; Minor v; Patch v]
  /\ Forall (fun b => b ∉ go "+ ") (Pre v) /\ trailing_space (Pre v) = None.

#[export] Instance wf_version_dec v : Decision (wf_version v).
Proof. unfold wf_version. apply _. Defined.

Definition numbers (v : Version) : bytes :=
  Itoa (Major v) ++ x2e :: Itoa (Minor v) ++ x2e :: Itoa (Patch v).

Lemma Itoa_digits z : 0 <= z -> Forall is_digit (Itoa z).
Proof. intros Hz. unfold Itoa. rewrite (proj2 (Z.ltb_ge z 0)) by lia. apply utoa_digits. Qed.

Lemma digit_plain b : is_digit b -> b <> x2e /\ b <> x2d /\ b ∉ go "+ " /\ no_space b.
Proof. unfold is_digit. destruct b; intros [H1 H2]; vm_compute in H1, H2; (congruence || (split_and!; [done|done|set_solver|apply (bool_decide_unpack _); by vm_compute])). Qed.

Lemma String_eq v :
  String v = x76 :: numbers v ++ (if bool_decide (Pre v = []) then [] else x2d :: Pre v).
Proof.
  assert (String v = x76 :: numbers v ++ (if bool_decide (Pre v = []) then [] else go "-" ++ Pre v)) as ->; [|done].
  unfold String, numbers. change (go "v") with [x76]. change (go ".") with [x2e].
  destruct (bool_decide (Pre v = [])); [by rewrite app_nil_r|].
  repeat (cbn [app]; rewrite <- ?app_assoc). reflexivity.
Qed.

Lemma numbers_plain v :
  Forall (fun n => 0 <= n <= max_i64) [Major v; Minor v; Patch v] ->
  Forall (fun b => b ∉ go "+ " /\ b <> x2d /\ no_space b) (numbers v).
Proof.
  intros H. assert (forall z, 0 <= z <= max_i64 ->
    Forall (fun b => b ∉ go "+ " /\ b <> x2d /\ no_space b) (Itoa z)) as Hd.
  { intros z Hz. eapply Forall_impl; [apply Itoa_digits; lia|].
    intros b (? & ? & ? & ?)%digit_plain. done. }
  assert (x2e ∉ go "+ " /\ x2e <> x2d /\ no_space x2e)
    by (split_and!; [set_solver|done|apply (bool_decide_unpack _); by vm_compute]).
  rewrite !Forall_cons in H. destruct H as (H1 & H2 & H3 & _).
  unfold numbers. rewrite !Forall_app, !Forall_cons. rewrite Forall_app, Forall_cons. auto 10.
Qed.

Lemma numbers_last v :
  Forall (fun n => 0 <= n <= max_i64) [Major v; Minor v; Patch v] ->
  exists l c, numbers v = l ++ [c] /\ no_space c.
Proof.
  intros H. pose proof (numbers_plain v H) as Hp.
  destruct (numbers v) as [|c l _] eqn:E using rev_ind.
  - unfold numbers in E. by apply app_eq_nil in E as [_ ?].
  - exists l, c. split; [done|]. apply Forall_app in Hp as [_ Hp]. by inversion Hp as [|?? (_ & _ & ?)].
Qed.

(** A version survives printing: what [String] prints of a version whose
    numbers are not negative and whose prerelease tag holds no space and no
    plus sign, [ParseVersion] reads back. *)
Theorem version_roundtrip v : wf_version v -> ParseVersion (String v) = Ok v.
Proof.
  intros (Hn & Hpre & Htr). rewrite String_eq. unfold ParseVersion.
  pose proof (numbers_plain v Hn) as Hp. destruct (numbers_last v Hn) as (l & c & El & Hc).
  set (tail := if bool_decide (Pre v = []) then [] else x2d :: Pre v).
  assert (TrimSpace (x76 :: numbers v ++ tail) = x76 :: numbers v ++ tail) as ->.
  { apply TrimSpace_id; [apply leading_space_cons; apply (bool_decide_unpack _); by vm_compute|].
    unfold tail. case_bool_decide.
    - rewrite app_nil_r, El. change (x76 :: l ++ [c]) with ((x76 :: l) ++ [c]).
      by apply trailing_space_app.
    - change (x76 :: numbers v ++ x2d :: Pre v) with ((x76 :: numbers v) ++ x2d :: Pre v).
      apply trailing_space_app; [|done]. apply (bool_decide_unpack _); by vm_compute. }
  change (x76 :: numbers v ++ tail) with (go "v" ++ (numbers v ++ tail)). rewrite TrimPrefix_app.
  assert (IndexAny (numbers v ++ tail) (go "+ ") = None) as ->.
  { apply IndexAny_None, Forall_app_2; [by eapply Forall_impl; [exact Hp|]; intros ? (? & _)|].
    unfold tail. case_bool_decide; [done|]. constructor; [set_solver|done]. }
  assert (x2d ∉ numbers v) as Hdash.
  { intros Hin. rewrite Forall_forall in Hp. by destruct (Hp _ Hin) as (_ & ? & _). }
  assert (match IndexByte (numbers v ++ tail) x2d with
          | Some i => (drop (i + 1) (numbers v ++ tail), take i (numbers v ++ tail))
          | None => ([], numbers v ++ tail)
          end = (Pre v, numbers v)) as ->.
  { unfold tail. case_bool_decide as Hnil.
    - rewrite app_nil_r, (proj2 (IndexByte_None _ _)) by done. by rewrite Hnil.
    - rewrite IndexByte_app, take_app_length by done. f_equal.
      rewrite drop_app_ge by lia. by replace (length (numbers v) + 1 - length (numbers v))%nat with 1%nat by lia. }
  assert (forall z, 0 <= z <= max_i64 -> x2e ∉ Itoa z) as Hdot.
  { intros z Hz Hin. pose proof (Itoa_digits z ltac:(lia)) as Hd. rewrite Forall_forall in Hd.
    by destruct (digit_plain _ (Hd _ Hin)). }
  rewrite !Forall_cons in Hn. destruct Hn as (H1 & H2 & H3 & _).
  unfold numbers. rewrite !Split_app, Split_none by auto. cbn [length Nat.ltb Nat.leb map_res].
  unfold parse_part. rewrite !Atoi_Itoa by (unfold in_i64, min_i64; lia).
  rewrite !(proj2 (Z.ltb_ge _ 0)) by lia. by destruct v.
Qed.

(** ** The newest release *)

(** A release the updater considers, with its version. *)
Definition considered (r : Release) (v : Version) : Prop :=
  Draft r = false /\ Prerelease r = false /\ ParseVersion (Tag r) = Ok v.

(** The first of the newest. *)
Definition newest_of (rs : list Release) (r : Release) (v : Version) : Prop :=
  exists before after, rs = before ++ r :: after /\ considered r v
    /\ (forall r' v', r' ∈ before -> considered r' v' -> Compare v' v < 0)
    /\ (forall r' v', r' ∈ after -> considered r' v' -> Compare v' v <= 0).

Lemma newest_of_greatest rs r v :
  newest_of rs r v -> r ∈ rs /\ forall r' v', r' ∈ rs -> considered r' v' -> Compare v' v <= 0.
Proof.
  intros (l1 & l2 & -> & (D & P & V) & H1 & H2). split; [set_solver|].
  intros r' v' Hr Hc. apply elem_of_app in Hr as [Hr|[->|Hr]%elem_of_cons].
  - specialize (H1 _ _ Hr Hc). lia.
  - destruct Hc as (_ & _ & V'). rewrite V in V'. injection V' as <-.
    by rewrite (proj2 (Compare_eq v v)).
  - by apply (H2 r').
Qed.

Lemma newest_of_unique rs r v r' v' : newest_of rs r v -> newest_of rs r' v' -> r = r' /\ v = v'.
Proof.
  intros (l1 & l2 & -> & Hc & H1 & H2) (k1 & k2 & E & Hc' & H1' & H2').
  assert (r = r') as ->.
  { apply app_eq_inv in E as [([|y k] & E1 & E2)|([|y k] & E1 & E2)]; injection E2 as E2 E3; subst; try done.
    - assert (y ∈ k1 ++ y :: k) as Hy by set_solver.
      specialize (H1 _ _ Hy Hc'). specialize (H2' r v ltac:(set_solver) Hc).
      rewrite (Compare_sym v' v) in *. lia.
    - assert (y ∈ l1 ++ y :: k) as Hy by set_solver.
      specialize (H1' _ _ Hy Hc). specialize (H2 r' v' ltac:(set_solver) Hc').
      rewrite (Compare_sym v' v) in *. lia. }
  split; [done|]. destruct Hc as (_ & _ & V), Hc' as (_ & _ & V'). congruence.
Qed.

Lemma NewerThan_false v w : NewerThan v w = false <-> Compare v w <= 0.
Proof. unfold NewerThan. rewrite Z.ltb_ge. done. Qed.

Lemma NewerThan_true v w : NewerThan v w = true -> Compare w v <= 0.
Proof. unfold NewerThan. rewrite Z.ltb_lt, (Compare_sym v w). lia. Qed.

Lemma best_release_snoc rs r best :
  best_release (rs ++ [r]) best = best_release [r] (best_release rs best).
Proof.
  revert best; induction rs as [|x rs IH]; intros best; [done|]. cbn [app best_release].
  destruct (Draft x || Prerelease x); [apply IH|].
  destruct (ParseVersion (Tag x)); apply IH.
Qed.

Lemma newest_of_snoc rs r v x :
  newest_of rs r v -> (forall w, considered x w -> Compare w v <= 0) -> newest_of (rs ++ [x]) r v.
Proof.
  intros (l1 & l2 & -> & Hc & H1 & H2) Hx. exists l1, (l2 ++ [x]). rewrite <- app_assoc.
  split; [done|]. split; [done|]. split; [done|].
  intros r' v' [Hr| ->%list_elem_of_singleton]%elem_of_app; [by apply H2|apply Hx].
Qed.

Lemma newest_of_last rs x w :
  considered x w -> (forall r v, r ∈ rs -> considered r v -> Compare v w < 0) ->
  newest_of (rs ++ [x]) x w.
Proof. intros Hx H. exists rs, []. split_and!; [done|done|done|set_solver]. Qed.

Lemma best_release_spec rs :
  match best_release rs None with
  | Some (r, v) => newest_of rs r v
  | None => forall r v, r ∈ rs -> ~ considered r v
  end.
Proof.
  induction rs as [|x rs IH] using rev_ind; [set_solver|].
  rewrite best_release_snoc. cbn [best_release].
  assert ((forall w, ~ considered x w) ->
    match best_release rs None with
    | Some (r, v) => newest_of (rs ++ [x]) r v
    | None => forall r v, r ∈ rs ++ [x] -> ~ considered r v
    end) as Hskip.
  { intros Hx. destruct (best_release rs None) as [[r v]|].
    - apply newest_of_snoc; [done|]. intros w Hw. by destruct (Hx w).
    - intros r v [?| ->%list_elem_of_singleton]%elem_of_app; [by apply IH|done]. }
  destruct (Draft x || Prerelease x) eqn:Ex; [|destruct (ParseVersion (Tag x)) as [w|e] eqn:Ew].
  - apply Hskip. intros w (H1 & H2 & _). rewrite H1, H2 in Ex. done.
  - apply orb_false_iff in Ex as [E1 E2].
    assert (considered x w) as Hx by done.
    assert (forall w', considered x w' -> w' = w) as Hw by (intros w' (_ & _ & ?); congruence).
    destruct (best_release rs None) as [[r v]|]; [destruct (NewerThan w v) eqn:En|].
    + apply newest_of_last; [done|]. intros r' v' Hr' Hc'.
      pose proof (proj2 (newest_of_greatest _ _ _ IH) _ _ Hr' Hc') as Hle.
      destruct (Z_lt_ge_dec (Compare v' w) 0) as [?|Hge]; [done|].
      assert (Compare w v <= 0) by (eapply Compare_trans; [|exact Hle]; rewrite Compare_sym; lia).
      apply Z.ltb_lt in En. lia.
    + apply newest_of_snoc; [done|]. intros w' ->%Hw. by apply NewerThan_false.
    + apply newest_of_last; [done|]. intros r' v' Hr' Hc'. by destruct (IH r' v').
  - apply Hskip. intros w (_ & _ & ?). congruence.
Qed.

Lemma asset_named_None want assets :
  asset_named want assets = None -> forall a, a ∈ assets -> a_Name a <> want.
Proof.
  induction assets as [|b assets IH]; simpl; [set_solver|].
  case_bool_decide; [done|]. intros Hn a [->|Ha]%elem_of_cons; [done|by apply IH].
Qed.

Lemma asset_named_ok want assets a :
  asset_named want assets = Some a -> a ∈ assets /\ a_Name a = want.
Proof.
  induction assets as [|b assets IH]; simpl; [done|].
  case_bool_decide; [intros [= <-]; set_solver|]. intros [? ?]%IH. set_solver.
Qed.

(** An update is offered when there is one this machine can install, and
    only then: [Check] offers a bundle exactly when the newest release that is
    neither a draft nor a prerelease is newer than the running version and has
    a bundle for this system and architecture, which is the one offered; a check
    that ends without an offer and without an error means nothing newer is
    published. *)
Theorem Check_offers version goos goarch releases now running :
  ParseVersion (Short version) = Ok running ->
  let s := Check_ version goos goarch (Ok releases) now in
  (forall name, st_Available s = true /\ st_Asset s = name <->
     exists r v a, newest_of releases r v /\ NewerThan v running = true
       /\ a ∈ Assets r /\ a_Name a = name /\ name = BundleName (Tag r) goos goarch)
  /\ (st_Available s = false -> st_Error s = NoStatusError ->
      forall r v, r ∈ releases -> considered r v -> NewerThan v running = false).
Proof.
  intros Hrun s. unfold s, Check_, Latest. rewrite Hrun. cbn [mbind res_bind].
  pose proof (best_release_spec releases) as Hbest.
  destruct (best_release releases None) as [[r v]|]; cbn [st_Available st_Error st_Asset].
  2: { split; [|by intros _ _ r v Hr Hc; destruct (Hbest r v)].
       intros name. split; [by intros [? _]|].
       intros (r & v & a & Hn & _). pose proof (newest_of_greatest _ _ _ Hn) as [Hin _].
       by destruct Hn as (? & ? & _ & Hc & _), (Hbest r v). }
  assert (ParseVersion (Tag r) = Ok v) as -> by (by destruct Hbest as (? & ? & _ & (_ & _ & ?) & _)).
  pose proof (newest_of_greatest _ _ _ Hbest) as [_ Hmax].
  destruct (NewerThan v running) eqn:Hnew; cbn [negb].
  - destruct (AssetFor r goos goarch) as [a|] eqn:Ea; cbn [st_Available st_Error st_Asset].
    + split; [|done]. apply asset_named_ok in Ea as [Hin Hname]. intros name. split.
      * intros [_ <-]. by exists r, v, a.
      * intros (r' & v' & a' & Hn & _ & _ & _ & ->).
        destruct (newest_of_unique _ _ _ _ _ Hbest Hn) as [-> ->]. done.
    + split; [|done]. intros name. split; [by intros [? _]|].
      intros (r' & v' & a' & Hn & _ & Hin & <- & Hname).
      destruct (newest_of_unique _ _ _ _ _ Hbest Hn) as [-> ->].
      destruct (asset_named_None _ _ Ea a' Hin Hname).
  - split.
    + intros name. split; [by intros [? _]|].
      intros (r' & v' & a' & Hn & Hnew' & _).
      destruct (newest_of_unique _ _ _ _ _ Hbest Hn) as [-> ->]. congruence.
    + intros _ _ r' v' Hr' Hc'. apply NewerThan_false in Hnew. apply NewerThan_false.
      eapply Compare_trans; [by eapply Hmax|done].
Qed.

(** ** Examples *)

Lemma version_roundtrip_witness :
  let v := MkVersion 1 10 0 (go "rc.1-x") in
  wf_version v /\ String v = go "v1.10.0-rc.1-x" /\ ParseVersion (String v) = Ok v.
Proof.
  intros v. assert (wf_version v) as Hv by (apply (bool_decide_unpack _); by vm_compute).
  split; [exact Hv|]. split; [vm_compute; reflexivity|]. exact (version_roundtrip v Hv).
Defined.

Definition example_releases : list Release :=
  let r tag draft pre assets := MkRelease (go tag) [] [] draft pre 0 [] assets in
  [r "v2.0.0"%string true false []; r "nightly"%string false false [];
   r "v1.9.0"%string false false [MkAsset (go "openfrp-1.9.0-linux-arm.tar.gz") [] 1];
   r "v1.10.0"%string false false [MkAsset (go "openfrp-1.10.0-linux-arm64.tar.gz") [] 2;
                            MkAsset (go "openfrp-1.10.0-linux-arm.tar.gz") [] 3]].

Lemma Check_offers_witness :
  let s := Check_ (go "1.1.3") (go "linux") (go "arm") (Ok example_releases) 0 in
  ParseVersion (Short (go "1.1.3")) = Ok (MkVersion 1 1 3 [])
  /\ st_Asset s = go "openfrp-1.10.0-linux-arm.tar.gz"
  /\ exists r v a, newest_of example_releases r v /\ NewerThan v (MkVersion 1 1 3 []) = true
       /\ a ∈ Assets r /\ a_Name a = go "openfrp-1.10.0-linux-arm.tar.gz"
       /\ go "openfrp-1.10.0-linux-arm.tar.gz" = BundleName (Tag r) (go "linux") (go "arm").
Proof.
  intros s. split; [vm_compute; reflexivity|]. split; [vm_compute; reflexivity|].
  apply (Check_offers (go "1.1.3") (go "linux") (go "arm") example_releases 0 (MkVersion 1 1 3 [])).
  - vm_compute; reflexivity.
  - split; vm_compute; reflexivity.
Defined.
