(* ===== verification/Update.v ===== *)
(** Self update: [internal/update] (bundle.go, install.go).

    The disk is a map of files and a map of directory modes, with the process's
    umask.  Every system call consumes the next of the disk's [answers], which
    say whether it works, fails, or (for a copy) stops half way; when they run
    out everything works.  [os.Stat] fails exactly on a file that is not there.
    Unpacking gzip and tar is the class [Archive], SHA-256 the class [Sha256]. *)
From S2P Require Import Prelude GoStrings Semver.

(** ** Paths ([path/filepath] on Unix) *)

(** [elems] cleaned onto [out], which is reversed. *)
Fixpoint clean_elems (rooted : bool) (elems out : list bytes) : list bytes :=
  match elems with
  | [] => reverse out
  | e :: elems =>
      if bool_decide (e = []) || bool_decide (e = go ".") then clean_elems rooted elems out
      else if bool_decide (e = go "..") then
        match out with
        | [] => clean_elems rooted elems (if rooted then [] else [go ".."])
        | last :: rest =>
            clean_elems rooted elems (if bool_decide (last = go "..") then go ".." :: out else rest)
        end
      else clean_elems rooted elems (e :: out)
  end.

Definition Clean (path : bytes) : bytes :=
  let rooted := HasPrefix path (go "/") in
  let r := Join (clean_elems rooted (Split path x2f) []) (go "/") in
  if rooted then go "/" ++ r else if bool_decide (r = []) then go "." else r.

(** [filepath.Join] of two elements. *)
Definition Join2 (a b : bytes) : bytes :=
  if bool_decide (a = []) then (if bool_decide (b = []) then [] else Clean b)
  else Clean (a ++ go "/" ++ b).

Definition Dir (path : bytes) : bytes :=
  Clean (match LastIndexByte path x2f with Some i => take (i + 1) path | None => [] end).

(** ** The disk *)

Record file := MkFile { content : bytes; mode : Z }.

Inductive outcome : Type := Works | Fails | Stops (n : nat).

Record Disk := MkDisk {
  files : gmap bytes file;
  dirs : gmap bytes Z;
  umask : Z;
  answers : list outcome
}.

Inductive perr : Type :=
  | ErrIO (call path : bytes)
  | ErrUnnamed | ErrAbsolute (name : bytes) | ErrOutside (name : bytes)
  | ErrNotGzip | ErrReadBundle (e : bytes) | ErrNotRegular (name : bytes)
  | ErrNotPermitted (name : bytes) | ErrUnpack (name : bytes) | ErrEmpty
  | ErrLatest (e : uerr) | ErrNoBuildFor (tag : bytes) | ErrNoSums (tag : bytes)
  | ErrDownload | ErrNotListed (name : bytes) | ErrMismatch (got want : bytes)
  | ErrNoClient | ErrNotExecutable | ErrDoesNotRun
  | ErrRestart | ErrInstalledDoesNotRun
  | ErrInstall (e : perr)              (* the error of the install, unchanged *)
  | ErrNotPutBack (e restore : perr)   (* and the previous version could not be put back *)
  | ErrNeitherStarts (e : perr)        (* neither does the version it replaced *)
  | ErrPutBack (e : perr).             (* the previous version is running again *)

(** A computation on the disk that may fail. *)
Definition fs (A : Type) : Type := Disk -> res perr A * Disk.

#[export] Instance fs_ret : MRet fs := fun A a d => (Ok a, d).
#[export] Instance fs_bind : MBind fs := fun A B f m d =>
  match m d with (Ok a, d) => f a d | (Err e, d) => (Err e, d) end.

Definition raise {A} (e : perr) : fs A := fun d => (Err e, d).

Definition set_files (fs : gmap bytes file) (d : Disk) : Disk :=
  MkDisk fs (dirs d) (umask d) (answers d).
Definition set_dirs (ds : gmap bytes Z) (d : Disk) : Disk :=
  MkDisk (files d) ds (umask d) (answers d).

(** The next answer of the kernel. *)
Definition answer (d : Disk) : outcome * Disk :=
  match answers d with
  | [] => (Works, d)
  | a :: rest => (a, MkDisk (files d) (dirs d) (umask d) rest)
  end.

(** [if err := m; err != nil { handle }]. *)
Definition or_else {A} (m : fs A) (handle : perr -> fs A) : fs A := fun d =>
  match m d with (Err e, d) => handle e d | r => r end.

(** A call that has [effect] when it works. *)
Definition call (name : string) (path : bytes) (effect : Disk -> Disk) : fs unit := fun d =>
  match answer d with
  | (Works, d) => (Ok tt, effect d)
  | (_, d) => (Err (ErrIO (go name) path), d)
  end.

Definition Stat (p : bytes) : fs (option file) := fun d => (Ok (files d !! p), d).

Definition masked (m : Z) (d : Disk) : Z := Z.land m (Z.lnot (umask d)).

Definition FileMode : Z := 420.   (* 0644 *)
Definition ExecMode : Z := 493.   (* 0755 *)
Definition DirMode : Z := 493.
Definition executable (m : Z) : bool := negb (Z.land m 73 =? 0).   (* 0111 *)

(** The directories [os.MkdirAll] makes: the path and all above it. *)
Definition chain (dir : bytes) : list bytes :=
  (fun n => Join (take (S n) (Split dir x2f)) (go "/")) <$> seq 0 (length (Split dir x2f)).

Definition make_missing (d : Disk) (dir : bytes) : Disk :=
  match dirs d !! dir with
  | Some _ => d
  | None => set_dirs (<[dir := masked DirMode d]> (dirs d)) d
  end.

Definition MkdirAllMode (dir : bytes) : fs unit :=
  _ ← call "mkdir" dir (fun d => foldl make_missing d (chain dir));
  call "chmod" dir (fun d => set_dirs (<[dir := DirMode]> (dirs d)) d).

(** [os.OpenFile] with [O_CREATE|O_WRONLY|O_TRUNC]. *)
Definition OpenFile (p : bytes) (m : Z) : fs unit :=
  call "open" p (fun d =>
    let m := match files d !! p with Some f => mode f | None => masked m d end in
    set_files (<[p := MkFile [] m]> (files d)) d).

Definition append_to (p bs : bytes) (d : Disk) : Disk :=
  set_files (alter (fun f => MkFile (content f ++ bs) (mode f)) p (files d)) d.

(** [io.Copy] of [bs] into an open file. *)
Definition Copy (p bs : bytes) : fs unit := fun d =>
  match answer d with
  | (Works, d) => (Ok tt, append_to p bs d)
  | (Fails, d) => (Err (ErrIO (go "write") p), d)
  | (Stops n, d) => (Err (ErrIO (go "write") p), append_to p (take n bs) d)
  end.

Definition Close (p : bytes) : fs unit := call "close" p id.

Definition Chmod (p : bytes) (m : Z) : fs unit :=
  call "chmod" p (fun d => set_files (alter (fun f => MkFile (content f) m) p (files d)) d).

Definition Rename (a b : bytes) : fs unit := fun d =>
  match files d !! a with
  | None => (Err (ErrIO (go "rename") a), d)
  | Some f => call "rename" a (fun d => set_files (<[b := f]> (delete a (files d))) d) d
  end.

(** [os.Remove], whose error is not looked at. *)
Definition Remove (p : bytes) : fs unit := fun d =>
  (Ok tt, (call "remove" p (fun d => set_files (delete p (files d)) d) d).2).

(** ** Unpacking a bundle (bundle.go) *)

Definition maxBundleSize : Z := Z.shiftl 128 20.

(** [io.LimitReader]. *)
Definition LimitReader (bs : bytes) (n : Z) : bytes :=
  if Z.of_nat (length bs) <=? n then bs else take (Z.to_nat n) bs.

Definition allowedPrefixes : list bytes :=
  [go "usr/lib/openfrp/"; go "usr/libexec/openfrp/"; go "usr/lib/lua/luci/i18n/openfrp.";
   go "www/luci-static/resources/openfrp/"; go "www/luci-static/resources/view/openfrp/"].

Definition allowedExact : list bytes :=
  [go "etc/init.d/openfrp"; go "etc/init.d/openfrp-cloudflared"; go "usr/bin/openfrpc";
   go "usr/share/luci/menu.d/luci-app-openfrp.json"; go "usr/share/rpcd/acl.d/luci-app-openfrp.json";
   go "usr/share/rpcd/ucode/openfrp.uc"].

Definition permitted (name : bytes) : bool :=
  bool_decide (name ∈ allowedExact) || existsb (HasPrefix name) allowedPrefixes.

Definition cleanEntry (name : bytes) : res perr bytes :=
  if bool_decide (name = []) then Err ErrUnnamed
  else if HasPrefix name (go "/") then Err (ErrAbsolute name)
  else
    let cleaned := Clean name in
    if bool_decide (cleaned = go "..") || HasPrefix cleaned (go "../") then Err (ErrOutside name)
    else Ok cleaned.

(** An entry of the archive; [e_broken] when the stream fails within its data. *)
Record entry := MkEntry {
  e_name : bytes;
  e_type : byte;
  e_mode : Z;
  e_data : bytes;
  e_broken : bool
}.

Definition TypeReg : byte := x30.
Definition TypeDir : byte := x35.

(** What [tar.Reader.Next] returns, call after call; [None] when the data is
    not gzip. *)
Class Archive := { untar : bytes -> option (list (res bytes entry)) }.

(** One regular file: from [filepath.Join] to [os.Chmod]. *)
Definition unpack_file (dir name : bytes) (e : entry) : fs unit :=
  let target := Join2 dir name in
  let mode := if executable (e_mode e) then ExecMode else FileMode in
  _ ← MkdirAllMode (Dir target);
  _ ← OpenFile target mode;
  _ ← Copy target (LimitReader (e_data e) maxBundleSize);
  _ ← (if e_broken e && (Z.of_nat (length (e_data e)) <? maxBundleSize) then raise (ErrUnpack name) else mret tt);
  _ ← Close target;
  Chmod target mode.

Fixpoint extract_entries (dir : bytes) (entries : list (res bytes entry)) (written : list bytes)
  : fs (list bytes) :=
  match entries with
  | [] => mret written
  | Err e :: _ => raise (ErrReadBundle e)
  | Ok e :: entries =>
      match cleanEntry (e_name e) with
      | Err err => raise err
      | Ok name =>
          if bool_decide (e_type e = TypeDir) then extract_entries dir entries written
          else if negb (bool_decide (e_type e = TypeReg)) then raise (ErrNotRegular name)
          else if negb (permitted name) then raise (ErrNotPermitted name)
          else
            _ ← unpack_file dir name e;
            extract_entries dir entries (written ++ [name])
      end
  end.

Definition Extract `{Archive} (archive : bytes) (dir : bytes) : fs (list bytes) :=
  match untar (LimitReader archive maxBundleSize) with
  | None => raise ErrNotGzip
  | Some entries =>
      written ← extract_entries dir entries [];
      if bool_decide (written = []) then raise ErrEmpty else mret written
  end.

(** ** Installing (install.go) *)

Definition copyFile (src dst : bytes) : fs unit :=
  info ← Stat src;
  match info with
  | None => raise (ErrIO (go "open") src)
  | Some _ =>
      (_ ← call "open" src id;
       _ ← MkdirAllMode (Dir dst);
       _ ← OpenFile dst FileMode;
       now ← Stat src;
       _ ← Copy dst (match now with Some f => content f | None => [] end);
       Close dst)
  end.

Definition new_suffix : bytes := go ".openfrp-new".

Definition replace (src dst : bytes) : fs unit :=
  info ← Stat src;
  match info with
  | None => raise (ErrIO (go "stat") src)
  | Some info =>
      let m := if executable (mode info) then ExecMode else FileMode in
      let tmp := dst ++ new_suffix in
      _ ← copyFile src tmp;
      _ ← or_else (Chmod tmp m) (fun e => _ ← Remove tmp; raise e);
      or_else (Rename tmp dst) (fun e => _ ← Remove tmp; raise e)
  end.

(** One file of [install]: its backup, if there is one to back up, and then the
    new one in its place. *)
Definition install_file (root from backup name : bytes) : fs unit :=
  let target := Join2 root name in
  info ← Stat target;
  _ ← match info with
      | Some _ =>
          let saved := Join2 backup name in
          _ ← MkdirAllMode (Dir saved);
          copyFile target saved
      | None => mret tt
      end;
  _ ← MkdirAllMode (Dir target);
  replace (Join2 from name) target.

Fixpoint install (root from backup : bytes) (names : list bytes) : fs unit :=
  match names with
  | [] => mret tt
  | name :: names => _ ← install_file root from backup name; install root from backup names
  end.

(** Every file is tried; the first error is returned. *)
Fixpoint restore (root backup : bytes) (names : list bytes) (failed : option perr) : fs unit :=
  match names with
  | [] => match failed with Some e => raise e | None => mret tt end
  | name :: names =>
      let saved := Join2 backup name in
      info ← Stat saved;
      match info with
      | None => restore root backup names failed
      | Some _ =>
          err ← or_else (_ ← replace saved (Join2 root name); mret None) (fun e => mret (Some e));
          restore root backup names (match failed with Some _ => failed | None => err end)
      end
  end.

Definition client_path : bytes := go "usr/bin/openfrpc".

(** Running a program: it must be there and executable, and [runs] says
    whether its contents are a program that works on this machine. *)
Definition exec (runs : bytes -> bool) (p : bytes) (e : perr) : fs unit := fun d =>
  match files d !! p with
  | Some f => if executable (mode f) && runs (content f) then (Ok tt, d) else (Err e, d)
  | None => (Err e, d)
  end.

Definition smokeTest (runs : bytes -> bool) (binary : bytes) : fs unit :=
  info ← Stat binary;
  match info with
  | None => raise ErrNoClient
  | Some f => if executable (mode f) then exec runs binary ErrDoesNotRun else raise ErrNotExecutable
  end.

(** [service] is whether the service command succeeds. *)
Definition restart (runs : bytes -> bool) (root : bytes) (service : bool) : fs unit :=
  if service then exec runs (Join2 root client_path) ErrInstalledDoesNotRun else raise ErrRestart.

(** ** Checksums *)

(** [bufio.Scanner] by lines: without their end, and up to the first line that
    does not fit its buffer of 64 KiB. *)
Definition drop_cr (line : bytes) : bytes := TrimSuffix line [x0d].

Fixpoint scan_lines (lines : list bytes) : list bytes :=
  match lines with
  | [] => []
  | [last] => if bool_decide (last = []) then [] else if 65536 <=? Z.of_nat (length last) then [] else [drop_cr last]
  | line :: rest => if 65536 <=? Z.of_nat (length line) then [] else drop_cr line :: scan_lines rest
  end.

(** [strings.Fields]: the words between space runes; a word starts with [word]. *)
Fixpoint fields_from (fuel : nat) (s word : bytes) : list bytes :=
  let flush := if bool_decide (word = []) then [] else [word] in
  match fuel with
  | O => flush
  | S fuel =>
      match leading_space s, s with
      | Some r, _ => flush ++ fields_from fuel (drop (length r) s) []
      | None, b :: s => fields_from fuel s (word ++ [b])
      | None, [] => flush
      end
  end.
Definition Fields (s : bytes) : list bytes := fields_from (length s) s [].

Definition ParseChecksums `{Unicode} (r : bytes) : gmap bytes bytes :=
  foldl (fun sums line =>
    match Fields line with
    | [sum; name] => <[TrimPrefix name (go "*") := ToLower sum]> sums
    | _ => sums
    end) ∅ (scan_lines (Split (LimitReader r (Z.shiftl 1 20)) x0a)).

(** ** The whole update *)

Class Sha256 := { sha256_hex : bytes -> bytes }.

(** What the release server, the machine and the service answer. *)
Record World := MkWorld {
  w_latest : res uerr Release;
  w_fetch : bytes -> option bytes;        (* the body at a URL *)
  w_stage : option bytes;                 (* the staging directory made *)
  w_runs : bytes -> bool;
  w_service : bool * bool                 (* the first restart and the second *)
}.

(** [fetchTo] a file: what it wrote there, and the digest. *)
Definition fetchTo_file `{Sha256} (body : option bytes) (p : bytes) : fs bytes :=
  match body with
  | None => raise ErrDownload
  | Some body =>
      let got := LimitReader body maxBundleSize in
      _ ← Copy p got;
      mret (sha256_hex got)
  end.

(** Removes the staging directory with all it holds. *)
Definition RemoveAll (stage : bytes) (d : Disk) : Disk :=
  set_files (filter (fun kv => HasPrefix kv.1 (stage ++ go "/") = false) (files d)) d.

(** From the release to the files unpacked and tried: what to install. *)
Definition prepare `{Unicode} `{Sha256} `{Archive} (w : World) (want : bytes) (asset : Asset)
  (stage : bytes) : fs (list bytes) :=
  let bundlePath := Join2 stage (a_Name asset) in
  _ ← OpenFile bundlePath 438;
  got ← fetchTo_file (w_fetch w (a_URL asset)) bundlePath;
  if negb (bool_decide (got = want)) then raise (ErrMismatch got want)
  else
    let unpacked := Join2 stage (go "root") in
    bundle ← Stat bundlePath;
    _ ← call "open" bundlePath id;
    written ← Extract (match bundle with Some f => content f | None => [] end) unpacked;
    _ ← smokeTest (w_runs w) (Join2 unpacked client_path);
    mret written.

(** Putting the new files in place, and the old ones back when that, or the
    restart, fails. *)
Definition commit (w : World) (root stage : bytes) (written : list bytes) : fs unit := fun d =>
  let unpacked := Join2 stage (go "root") in
  let backup := Join2 stage (go "backup") in
  match install root unpacked backup written d with
  | (Err err, d) =>
      match restore root backup written None d with
      | (Err e, d) => (Err (ErrNotPutBack err e), d)
      | (Ok _, d) => (Err (ErrInstall err), d)
      end
  | (Ok _, d) =>
      match restart (w_runs w) root (fst (w_service w)) d with
      | (Ok _, d) => (Ok tt, d)
      | (Err err, d) =>
          match restore root backup written None d with
          | (Err e, d) => (Err (ErrNotPutBack err e), d)
          | (Ok _, d) =>
              match restart (w_runs w) root (snd (w_service w)) d with
              | (Err e, d) => (Err (ErrNeitherStarts e), d)
              | (Ok _, d) => (Err (ErrPutBack err), d)
              end
          end
      end
  end.

Definition Apply `{Unicode} `{Sha256} `{Archive} (w : World) (goos goarch root : bytes) : fs unit := fun d =>
  match w_latest w with
  | Err e => (Err (ErrLatest e), d)
  | Ok release =>
      match AssetFor release goos goarch, Checksums release with
      | None, _ => (Err (ErrNoBuildFor (Tag release)), d)
      | _, None => (Err (ErrNoSums (Tag release)), d)
      | Some asset, Some sumsAsset =>
          match w_fetch w (a_URL sumsAsset) with
          | None => (Err ErrDownload, d)
          | Some sumsRaw =>
              match ParseChecksums (LimitReader sumsRaw maxBundleSize) !! a_Name asset, w_stage w with
              | None, _ => (Err (ErrNotListed (a_Name asset)), d)
              | _, None => (Err (ErrIO (go "mkdtemp") []), d)
              | Some want, Some stage =>
                  let '(r, d) := (written ← prepare w want asset stage; commit w root stage written) d in
                  (r, RemoveAll stage d)
              end
          end
      end
  end.

(** ** What a computation can touch *)

Definition only {A} (P : bytes -> Prop) (m : fs A) : Prop :=
  forall d r d', m d = (r, d') ->
  umask d' = umask d /\ forall p, ~ P p -> files d' !! p = files d !! p.

Section only.
Context {A : Type}.
Implicit Types P Q : bytes -> Prop.

Lemma only_mret P (a : A) : only P (mret a).
Proof. by intros d r d' [= <- <-]. Qed.
Lemma only_raise P (e : perr) : only (A:=A) P (raise e).
Proof. by intros d r d' [= <- <-]. Qed.

Lemma only_bind {B} P (m : fs B) (f : B -> fs A) :
  only P m -> (forall b, only P (f b)) -> only P (m ≫= f).
Proof.
  intros Hm Hf d r d'. unfold mbind, fs_bind. destruct (m d) as [[b|e] d1] eqn:E.
  - intros H2%Hf. apply Hm in E as [<- E]. destruct H2 as [-> H2]. split; [done|].
    intros p Hp. by rewrite H2, E.
  - intros [= <- <-]. by apply Hm in E.
Qed.

Lemma only_or_else P (m : fs A) h : only P m -> (forall e, only P (h e)) -> only P (or_else m h).
Proof.
  intros Hm Hh d r d'. unfold or_else. destruct (m d) as [[b|e] d1] eqn:E.
  - intros [= <- <-]. by apply Hm in E.
  - intros H2%Hh. apply Hm in E as [<- E]. destruct H2 as [-> H2]. split; [done|].
    intros p Hp. by rewrite H2, E.
Qed.

Lemma only_weaken P Q (m : fs A) : (forall p, P p -> Q p) -> only P m -> only Q m.
Proof. intros H Hm d r d' [? Hf]%Hm. split; [done|]. intros p Hp. apply Hf. auto. Qed.
End only.

Lemma answer_disk d : files (answer d).2 = files d /\ umask (answer d).2 = umask d
  /\ dirs (answer d).2 = dirs d.
Proof. unfold answer. by destruct (answers d). Qed.

Lemma only_call P name p effect :
  (forall d, umask (effect d) = umask d /\ forall q, ~ P q -> files (effect d) !! q = files d !! q) ->
  only P (call name p effect).
Proof.
  intros He d r d'. unfold call. pose proof (answer_disk d) as (Hf & Hu & _).
  destruct (answer d) as [[| |n] d1]; intros [= <- <-]; simpl in *; rewrite <- Hf, <- Hu; [apply He|done|done].
Qed.

Lemma only_Stat P p : only P (Stat p).
Proof. by intros d r d' [= <- <-]. Qed.

Lemma make_missing_files ds d :
  files (foldl make_missing d ds) = files d /\ umask (foldl make_missing d ds) = umask d.
Proof.
  revert d; induction ds as [|x ds IH]; intros d; [done|]. simpl.
  destruct (IH (make_missing d x)) as [-> ->]. unfold make_missing. by destruct (dirs d !! x).
Qed.

Lemma only_MkdirAllMode P dir : only P (MkdirAllMode dir).
Proof.
  unfold MkdirAllMode. apply only_bind; [|intros _]; apply only_call; [|done].
  intros d. destruct (make_missing_files (chain dir) d) as [-> ->]. done.
Qed.

Lemma only_OpenFile (P : bytes -> Prop) p m : P p -> only P (OpenFile p m).
Proof.
  intros Hp. apply only_call. intros d. split; [done|]. intros q Hq. simpl.
  apply lookup_insert_ne. by intros ->.
Qed.

Lemma only_Copy (P : bytes -> Prop) p bs : P p -> only P (Copy p bs).
Proof.
  intros Hp d r d'. unfold Copy. pose proof (answer_disk d) as (Hf & Hu & _).
  destruct (answer d) as [[| |n] d1]; intros [= <- <-]; simpl in *; rewrite <- Hf, <- Hu;
    (split; [done|]); intros q Hq; simpl; try done; apply lookup_alter_ne; by intros ->.
Qed.

Lemma only_Close P p : only P (Close p).
Proof. by apply only_call. Qed.

Lemma only_Chmod (P : bytes -> Prop) p m : P p -> only P (Chmod p m).
Proof.
  intros Hp. apply only_call. intros d. split; [done|]. intros q Hq. simpl.
  apply lookup_alter_ne. by intros ->.
Qed.

Lemma only_Rename (P : bytes -> Prop) a b : P a -> P b -> only P (Rename a b).
Proof.
  intros Ha Hb d r d'. unfold Rename. destruct (files d !! a) as [f|]; [|by intros [= <- <-]].
  revert d r d'. change (only P (call "rename" a (fun d => set_files (<[b := f]> (delete a (files d))) d))).
  apply only_call. intros d. split; [done|]. intros q Hq. simpl.
  rewrite lookup_insert_ne by (by intros ->). apply lookup_delete_ne. by intros ->.
Qed.

Lemma only_Remove (P : bytes -> Prop) p : P p -> only P (Remove p).
Proof.
  intros Hp d r d'. unfold Remove. intros [= <- <-].
  assert (only P (call "remove" p (fun d => set_files (delete p (files d)) d))) as Hc.
  { apply only_call. intros d0. split; [done|]. intros q Hq. simpl. apply lookup_delete_ne. by intros ->. }
  eapply Hc. apply surjective_pairing.
Qed.

#[export] Hint Resolve only_mret only_raise only_bind only_or_else only_Stat only_MkdirAllMode
  only_OpenFile only_Copy only_Close only_Chmod only_Rename only_Remove : frp.

Lemma only_call_id P name p : only P (call name p id).
Proof. by apply only_call. Qed.
#[export] Hint Resolve only_call_id : frp.

Ltac only_auto :=
  repeat first [by eauto with frp | case_match | apply only_bind; [|intros ?]].

Lemma only_unpack_file (P : bytes -> Prop) dir name e :
  P (Join2 dir name) -> only P (unpack_file dir name e).
Proof. intros HP. unfold unpack_file. only_auto. Qed.

Lemma only_copyFile (P : bytes -> Prop) src dst : P dst -> only P (copyFile src dst).
Proof. intros HP. unfold copyFile. only_auto. Qed.
#[export] Hint Resolve only_unpack_file only_copyFile : frp.

Lemma only_replace (P : bytes -> Prop) src dst :
  P dst -> P (dst ++ new_suffix) -> only P (replace src dst).
Proof.
  intros H1 H2. unfold replace. apply only_bind; [by eauto with frp|intros info].
  destruct info; [|by eauto with frp].
  apply only_bind; [by eauto with frp|intros _].
  apply only_bind; [|intros _]; (apply only_or_else; [by eauto with frp|]; intros e; only_auto).
Qed.
#[export] Hint Resolve only_replace : frp.

Lemma only_install_file (P : bytes -> Prop) root from backup name :
  P (Join2 root name) -> P (Join2 root name ++ new_suffix) -> P (Join2 backup name) ->
  only P (install_file root from backup name).
Proof.
  intros H1 H2 H3. unfold install_file. apply only_bind; [by eauto with frp|intros info].
  apply only_bind; [|intros _]; only_auto.
Qed.

Lemma only_install (P : bytes -> Prop) root from backup names :
  (forall n, n ∈ names ->
    P (Join2 root n) /\ P (Join2 root n ++ new_suffix) /\ P (Join2 backup n)) ->
  only P (install root from backup names).
Proof.
  induction names as [|n names IH]; intros H; simpl; [by eauto with frp|].
  destruct (H n ltac:(set_solver)) as (H1 & H2 & H3).
  apply only_bind; [by apply only_install_file|intros _]. apply IH. set_solver.
Qed.

Lemma only_restore (P : bytes -> Prop) root backup names failed :
  (forall n, n ∈ names -> P (Join2 root n) /\ P (Join2 root n ++ new_suffix)) ->
  only P (restore root backup names failed).
Proof.
  revert failed; induction names as [|n names IH]; intros failed H; simpl.
  - destruct failed; by eauto with frp.
  - destruct (H n ltac:(set_solver)) as (H1 & H2).
    apply only_bind; [by eauto with frp|intros info].
    destruct info; [|apply IH; set_solver].
    apply only_bind; [|intros err; apply IH; set_solver].
    apply only_or_else; [only_auto|intros e; by eauto with frp].
Qed.

(** ** What succeeds has its effect *)

Lemma fs_bind_ok {A B} (m : fs A) (f : A -> fs B) d b d' :
  (m ≫= f) d = (Ok b, d') -> exists a d1, m d = (Ok a, d1) /\ f a d1 = (Ok b, d').
Proof. unfold mbind, fs_bind. destruct (m d) as [[a|e] d1]; [by eauto|done]. Qed.

Lemma call_ok name p effect d d' :
  call name p effect d = (Ok tt, d') -> d' = effect (answer d).2 .
Proof. unfold call. destruct (answer d) as [[| |n] d1]; by intros [= <-]. Qed.

(** Disks that agree on their files and their umask. *)
Definition same_files (d d' : Disk) : Prop := files d' = files d /\ umask d' = umask d.

Lemma MkdirAllMode_files dir d r d' : MkdirAllMode dir d = (r, d') -> same_files d d'.
Proof.
  intros H. destruct (only_MkdirAllMode (fun _ => False) dir _ _ _ H) as [Hu Hf].
  split; [|done]. apply map_eq. intros p. apply Hf. by intros [].
Qed.

Lemma call_id_files name p d r d' : call name p id d = (r, d') -> same_files d d'.
Proof.
  intros H. destruct (only_call_id (fun _ => False) name p _ _ _ H) as [Hu Hf].
  split; [|done]. apply map_eq. intros q. apply Hf. by intros [].
Qed.

Lemma OpenFile_ok p m d d' :
  OpenFile p m d = (Ok tt, d') ->
  files d' = <[p := MkFile [] (match files d !! p with Some f => mode f | None => masked m d end)]> (files d)
  /\ umask d' = umask d.
Proof.
  intros ->%call_ok. pose proof (answer_disk d) as (Hf & Hu & _).
  unfold masked. by rewrite <- Hf, <- Hu.
Qed.

Lemma Copy_ok p bs d d' :
  Copy p bs d = (Ok tt, d') ->
  files d' = alter (fun f => MkFile (content f ++ bs) (mode f)) p (files d) /\ umask d' = umask d.
Proof.
  unfold Copy. pose proof (answer_disk d) as (Hf & Hu & _).
  destruct (answer d) as [[| |n] d1]; intros [= <-]; simpl in *; by rewrite <- Hf, <- Hu.
Qed.

Lemma Chmod_ok p m d d' :
  Chmod p m d = (Ok tt, d') ->
  files d' = alter (fun f => MkFile (content f) m) p (files d) /\ umask d' = umask d.
Proof.
  intros ->%call_ok. pose proof (answer_disk d) as (Hf & Hu & _). simpl. by rewrite <- Hf, <- Hu.
Qed.

Lemma Rename_ok a b d d' :
  Rename a b d = (Ok tt, d') ->
  exists f, files d !! a = Some f /\ files d' = <[b := f]> (delete a (files d)) /\ umask d' = umask d.
Proof.
  unfold Rename. destruct (files d !! a) as [f|]; [|done]. intros ->%call_ok.
  pose proof (answer_disk d) as (Hf & Hu & _). exists f. simpl. by rewrite <- Hf, <- Hu.
Qed.

Lemma or_else_ok {A} (m : fs A) h d a d' :
  (forall e d0 b d1, h e d0 <> (Ok b, d1)) -> or_else m h d = (Ok a, d') -> m d = (Ok a, d').
Proof.
  intros Hh. unfold or_else. destruct (m d) as [[b|e] d1]; [done|]. by intros H%Hh.
Qed.

Lemma cleanup_fails {A} p (e : perr) d0 (b : A) d1 : (_ ← Remove p; raise e) d0 <> (Ok b, d1).
Proof. done. Qed.

Lemma copyFile_ok src dst d d' :
  src <> dst -> copyFile src dst d = (Ok tt, d') ->
  exists f, files d !! src = Some f /\ umask d' = umask d /\
    files d' = <[dst := MkFile (content f)
                   (match files d !! dst with Some g => mode g | None => masked FileMode d end)]> (files d).
Proof.
  intros Hne (info & d1 & [= <- <-] & H)%fs_bind_ok. destruct (files d !! src) as [f|] eqn:Ef; [|done].
  exists f. split; [done|].
  apply fs_bind_ok in H as ([] & d1 & [F1 U1]%call_id_files & H).
  apply fs_bind_ok in H as ([] & d2 & [F2 U2]%MkdirAllMode_files & H).
  apply fs_bind_ok in H as ([] & d3 & [F3 U3]%OpenFile_ok & H).
  apply fs_bind_ok in H as (now & d4 & [= <- <-] & H).
  apply fs_bind_ok in H as ([] & d5 & [F5 U5]%Copy_ok & [F6 U6]%call_id_files).
  split; [congruence|]. rewrite F6, F5, F3, F2, F1.
  rewrite lookup_insert_ne by done. rewrite Ef. unfold masked. rewrite U2, U1.
  rewrite alter_insert_eq. done.
Qed.

Definition final_mode (m : Z) : Z := if executable m then ExecMode else FileMode.

Lemma replace_ok src dst d d' :
  src <> dst ++ new_suffix -> replace src dst d = (Ok tt, d') ->
  exists f, files d !! src = Some f /\ umask d' = umask d /\
    files d' = <[dst := MkFile (content f) (final_mode (mode f))]> (delete (dst ++ new_suffix) (files d)).
Proof.
  intros Hne (info & d1 & [= <- <-] & H)%fs_bind_ok. destruct (files d !! src) as [f|] eqn:Ef; [|done].
  exists f. split; [done|].
  apply fs_bind_ok in H as ([] & d2 & (f' & Ef' & U2 & F2)%copyFile_ok & H); [|done].
  rewrite Ef in Ef'. injection Ef' as <-.
  apply fs_bind_ok in H as ([] & d3 & [F3 U3]%or_else_ok%Chmod_ok & H); [|apply cleanup_fails].
  apply or_else_ok in H; [|apply cleanup_fails].
  apply Rename_ok in H as (g & Eg & F4 & U4). split; [congruence|].
  rewrite F4, F3, F2, alter_insert_eq in *. rewrite lookup_insert_eq in Eg. injection Eg as <-.
  by rewrite delete_insert_eq.
Qed.

(** ** Installing and putting back *)

Section install.
Context (root from backup : bytes).

Abbreviation T n := (Join2 root n).
Abbreviation U n := (Join2 from n).
Abbreviation B n := (Join2 backup n).

(** The targets, their temporaries, the unpacked files and the backups are all
    different files. *)
Record layout (names : list bytes) : Prop := {
  lay_nodup : NoDup names;
  lay_target n m : n ∈ names -> m ∈ names -> T n = T m -> n = m;
  lay_backup n m : n ∈ names -> m ∈ names -> B n = B m -> n = m;
  lay_tmp n m : n ∈ names -> m ∈ names -> T n <> T m ++ new_suffix;
  lay_apart n m : n ∈ names -> m ∈ names ->
    B m ∉ [T n; T n ++ new_suffix] /\ U m ∉ [T n; T n ++ new_suffix; B n]
}.

Lemma layout_cons n names : layout (n :: names) -> n ∉ names /\ layout names.
Proof.
  intros [Hn H1 H2 H3 H4]. inversion_clear Hn. split; [done|].
  split; [done|intros; apply H1|intros; apply H2|intros; apply H3|intros; apply H4]; by set_solver.
Qed.

(** The files [install] writes. *)
Definition written_by (names : list bytes) (p : bytes) : Prop :=
  exists n, n ∈ names /\ p ∈ [T n; T n ++ new_suffix; B n].

Lemma install_frame names d r d' p :
  install root from backup names d = (r, d') -> ~ written_by names p -> files d' !! p = files d !! p.
Proof.
  intros H Hp. refine (proj2 (only_install (written_by names) root from backup names _ _ _ _ H) p Hp).
  intros n Hn. unfold written_by. split_and!; exists n; set_solver.
Qed.

Lemma install_file_ok n d d' :
  layout [n] -> files d !! B n = None -> install_file root from backup n d = (Ok tt, d') ->
  exists u, files d !! U n = Some u
    /\ files d' !! T n = Some (MkFile (content u) (final_mode (mode u)))
    /\ (forall f, files d !! T n = Some f ->
        exists m, files d' !! B n = Some (MkFile (content f) m) /\ executable m = false)
    /\ (files d !! T n = None -> files d' !! B n = None)
    /\ (forall p, p ∉ [T n; T n ++ new_suffix; B n] -> files d' !! p = files d !! p).
Proof.
  intros Hl Hb H.
  destruct (lay_apart _ Hl n n ltac:(set_solver) ltac:(set_solver)) as [HB HU].
  pose proof (lay_tmp _ Hl n n ltac:(set_solver) ltac:(set_solver)) as HT.
  assert (B n <> T n /\ B n <> T n ++ new_suffix) as [B1 B2] by set_solver.
  assert (U n <> T n /\ U n <> T n ++ new_suffix /\ U n <> B n) as (U1 & U2 & U3) by set_solver.
  apply fs_bind_ok in H as (info & d0 & [= <- <-] & H).
  apply fs_bind_ok in H as ([] & d1 & Hsave & H).
  apply fs_bind_ok in H as ([] & d2 & [F2 _]%MkdirAllMode_files & (u & Eu & _ & F3)%replace_ok); [|done].
  rewrite F2 in Eu, F3.
  assert (files d1 !! U n = files d !! U n /\
    (forall p, p <> B n -> files d1 !! p = files d !! p) /\
    (forall f, files d !! T n = Some f ->
        exists m, files d1 !! B n = Some (MkFile (content f) m) /\ executable m = false) /\
    (files d !! T n = None -> files d1 = files d)) as (EU & Hrest & Hsome & Hnone).
  { destruct (files d !! T n) as [f|] eqn:Ef.
    - apply fs_bind_ok in Hsave as ([] & d1' & [F1 _]%MkdirAllMode_files & Hc).
      apply copyFile_ok in Hc as (f' & Ef' & _ & Fc); [|congruence].
      rewrite F1 in Ef', Fc. rewrite Ef in Ef'. injection Ef' as <-. rewrite Hb in Fc. rewrite Fc.
      split_and!; [by rewrite lookup_insert_ne by congruence| |intros g [= <-]|done].
      + intros p Hp. by rewrite lookup_insert_ne by congruence.
      + eexists. split; [by rewrite lookup_insert_eq|]. unfold executable, masked.
        by rewrite <- Z.land_assoc, (Z.land_comm _ 73), Z.land_assoc.
    - injection Hsave as <-. done. }
  exists u. split; [by rewrite <- EU|].
  split; [by rewrite F3, lookup_insert_eq|].
  split; [|split].
  - intros f Hf. destruct (Hsome f Hf) as (m & Hm & He). exists m. split; [|done].
    by rewrite F3, lookup_insert_ne, lookup_delete_ne by congruence.
  - intros Hn. rewrite F3, lookup_insert_ne, lookup_delete_ne, (Hnone Hn) by congruence. done.
  - intros p Hp. 
    assert (p <> T n /\ p <> T n ++ new_suffix /\ p <> B n) as (P1 & P2 & P3) by set_solver.
    by rewrite F3, lookup_insert_ne, lookup_delete_ne, Hrest by congruence.
Qed.

(** What a successful install leaves. *)
Record installed (names : list bytes) (d d' : Disk) : Prop := {
  ins_new n : n ∈ names -> exists u, files d !! U n = Some u
    /\ files d' !! T n = Some (MkFile (content u) (final_mode (mode u)));
  ins_saved n f : n ∈ names -> files d !! T n = Some f ->
    exists m, files d' !! B n = Some (MkFile (content f) m) /\ executable m = false;
  ins_unsaved n : n ∈ names -> files d !! T n = None -> files d' !! B n = None;
  ins_frame p : ~ written_by names p -> files d' !! p = files d !! p
}.

Lemma not_written n names m :
  layout (n :: names) -> m ∈ names ->
  (forall p, p ∈ [T n; B n] -> ~ written_by names p)
  /\ (forall p, p ∈ [T m; U m; B m] -> p ∉ [T n; T n ++ new_suffix; B n]).
Proof.
  intros Hl Hm. destruct (layout_cons _ _ Hl) as [Hn _]. destruct Hl as [_ L1 L2 L3 L4]. split.
  - intros p Hp (k & Hk & Hpk). assert (n <> k) as Hnk by (by intros ->).
    pose proof (L1 n k ltac:(set_solver) ltac:(set_solver)).
    pose proof (L2 n k ltac:(set_solver) ltac:(set_solver)).
    pose proof (L3 n k ltac:(set_solver) ltac:(set_solver)).
    destruct (L4 k n ltac:(set_solver) ltac:(set_solver)) as [HB _].
    destruct (L4 n k ltac:(set_solver) ltac:(set_solver)) as [HB' _].
    set_solver.
  - intros p Hp Hpn. assert (m <> n) as Hmn by (by intros ->).
    pose proof (L1 m n ltac:(set_solver) ltac:(set_solver)).
    pose proof (L2 m n ltac:(set_solver) ltac:(set_solver)).
    pose proof (L3 m n ltac:(set_solver) ltac:(set_solver)).
    destruct (L4 n m ltac:(set_solver) ltac:(set_solver)) as [HB HU].
    destruct (L4 m n ltac:(set_solver) ltac:(set_solver)) as [HB' _].
    set_solver.
Qed.

Lemma install_ok names d d' :
  layout names -> (forall n, n ∈ names -> files d !! B n = None) ->
  install root from backup names d = (Ok tt, d') -> installed names d d'.
Proof.
  revert d; induction names as [|n names IH]; intros d Hl Hb H.
  { injection H as <-. split; set_solver. }
  apply fs_bind_ok in H as ([] & d1 & H1 & H).
  destruct (layout_cons _ _ Hl) as [Hn Hl'].
  assert (layout [n]) as Hl1.
  { destruct Hl as [_ L1 L2 L3 L4].
    split; [apply NoDup_singleton|intros; set_solver..| |]; intros; [apply L3|apply L4]; set_solver. }
  apply install_file_ok in H1 as (u & Eu & Ht & Hs & Hus & Hf); [|done|by apply Hb; set_solver].
  assert (forall m, m ∈ names -> forall p, p ∈ [T m; U m; B m] -> files d1 !! p = files d !! p) as Hsame.
  { intros m Hm p Hp. apply Hf. by eapply (not_written n names m Hl Hm). }
  assert (installed names d1 d') as [I1 I2 I3 I4].
  { apply IH; [done| |done]. intros m Hm. rewrite (Hsame m Hm) by set_solver. apply Hb. set_solver. }
  assert (forall p, p ∈ [T n; B n] -> files d' !! p = files d1 !! p) as Hown.
  { intros p Hp. apply I4. intros (m & Hm & Hpm).
    apply (proj1 (not_written n names m Hl Hm) p Hp). by exists m. }
  split.
  - intros m [->|Hm]%elem_of_cons.
    + exists u. split; [done|]. by rewrite Hown by set_solver.
    + destruct (I1 m Hm) as (v & Ev & Hv). exists v. split; [|done].
      by rewrite <- (Hsame m Hm) by set_solver.
  - intros m f [->|Hm]%elem_of_cons Hmf.
    + rewrite Hown by set_solver. by apply Hs.
    + apply I2; [done|]. by rewrite (Hsame m Hm) by set_solver.
  - intros m [->|Hm]%elem_of_cons Hmf.
    + rewrite Hown by set_solver. by apply Hus.
    + apply I3; [done|]. by rewrite (Hsame m Hm) by set_solver.
  - intros p Hp. rewrite I4; [apply Hf|]; intros Hin; apply Hp.
    + exists n. split; [set_solver|done].
    + destruct Hin as (m & Hm & Hpm). exists m. split; [set_solver|done].
Qed.

Lemma restore_failed names e d d' : restore root backup names (Some e) d <> (Ok tt, d').
Proof.
  revert d; induction names as [|n names IH]; intros d H; [done|].
  apply fs_bind_ok in H as (info & d1 & [= <- <-] & H).
  destruct (files d !! B n); [|by apply IH in H].
  apply fs_bind_ok in H as (err & d1 & _ & H). by apply IH in H.
Qed.

Lemma restore_step n names d d' :
  restore root backup (n :: names) None d = (Ok tt, d') ->
  match files d !! B n with
  | None => restore root backup names None d = (Ok tt, d')
  | Some _ => exists d1, replace (B n) (T n) d = (Ok tt, d1)
                         /\ restore root backup names None d1 = (Ok tt, d')
  end.
Proof.
  intros (info & d1 & [= <- <-] & H)%fs_bind_ok. destruct (files d !! B n); [|done].
  apply fs_bind_ok in H as (err & d1 & Hr & H). destruct err as [e|]; [by apply restore_failed in H|].
  exists d1. split; [|done]. unfold or_else, mbind, fs_bind in Hr.
  destruct (replace (B n) (T n) d) as [[[]|e] d2]; by simplify_eq/=.
Qed.

(** What a successful restore leaves. *)
Record put_back (names : list bytes) (d d' : Disk) : Prop := {
  pb_saved n f : n ∈ names -> files d !! B n = Some f ->
    files d' !! T n = Some (MkFile (content f) (final_mode (mode f)));
  pb_unsaved n : n ∈ names -> files d !! B n = None -> files d' !! T n = files d !! T n
}.

Lemma restore_own n names d r d' :
  layout (n :: names) -> restore root backup names None d = (r, d') -> files d' !! T n = files d !! T n.
Proof.
  intros Hl H. destruct (layout_cons _ _ Hl) as [Hn _].
  refine (proj2 (only_restore (fun p => exists m, m ∈ names /\ p ∈ [T m; T m ++ new_suffix])
    root backup names None _ _ _ _ H) _ _).
  - intros m Hm. split; exists m; set_solver.
  - intros (m & Hm & Hp). pose proof (lay_target _ Hl n m ltac:(set_solver) ltac:(set_solver)).
    pose proof (lay_tmp _ Hl n m ltac:(set_solver) ltac:(set_solver)). set_solver.
Qed.

Lemma restore_ok names d d' :
  layout names -> restore root backup names None d = (Ok tt, d') -> put_back names d d'.
Proof.
  revert d; induction names as [|n names IH]; intros d Hl H; [split; set_solver|].
  destruct (layout_cons _ _ Hl) as [Hn Hl']. apply restore_step in H.
  assert (forall k, k ∈ n :: names ->
    B k ∉ [T n; T n ++ new_suffix] /\ T n <> T k ++ new_suffix) as Hk.
  { intros k Hk. split; [by apply (lay_apart _ Hl); set_solver|by apply (lay_tmp _ Hl); set_solver]. }
  destruct (files d !! B n) as [f|] eqn:Ef.
  - destruct H as (d1 & Hr & H).
    apply replace_ok in Hr as (f' & Ef' & _ & F1); [|by pose proof (Hk n); set_solver].
    rewrite Ef in Ef'. injection Ef' as <-.
    assert (forall p, p ∉ [T n; T n ++ new_suffix] -> files d1 !! p = files d !! p) as Hf.
    { intros p Hp. assert (p <> T n /\ p <> T n ++ new_suffix) as [? ?] by set_solver.
      by rewrite F1, lookup_insert_ne, lookup_delete_ne by congruence. }
    destruct (IH d1 Hl' H) as [I1 I2].
    pose proof (restore_own n names _ _ _ Hl H) as Hown.
    split.
    + intros m g [->|Hm]%elem_of_cons Hg.
      * rewrite Hown, F1, lookup_insert_eq. congruence.
      * apply I1; [done|]. rewrite Hf; [done|]. apply Hk. set_solver.
    + intros m [->|Hm]%elem_of_cons Hg; [congruence|].
      assert (m <> n) by (by intros ->).
      rewrite I2; [|done|rewrite Hf; [done|apply Hk; set_solver]].
      apply Hf. pose proof (lay_target _ Hl m n ltac:(set_solver) ltac:(set_solver)).
      pose proof (lay_tmp _ Hl m n ltac:(set_solver) ltac:(set_solver)). set_solver.
  - destruct (IH d Hl' H) as [I1 I2]. 
    pose proof (restore_own n names _ _ _ Hl H) as Hown.
    split.
    + intros m g [->|Hm]%elem_of_cons Hg; [congruence|by apply I1].
    + intros m [->|Hm]%elem_of_cons Hg; [done|by apply I2].
Qed.
End install.

(** ** Paths *)

(** An element of a clean path. *)
Definition plain (e : bytes) : Prop :=
  e <> [] /\ e <> go "." /\ e <> go ".." /\ x2f ∉ e.

#[export] Instance plain_dec e : Decision (plain e).
Proof. unfold plain. apply _. Defined.

(** The absolute path with these elements. *)
Definition path (ds : list bytes) : bytes := go "/" ++ Join ds (go "/").

Lemma plain_no_slash ds : Forall plain ds -> Forall (fun e => x2f ∉ e) ds.
Proof. intros H. eapply Forall_impl; [exact H|]. by intros e (_ & _ & _ & ?). Qed.

Lemma Split_elems ds : ds <> [] -> Forall plain ds -> Split (Join ds (go "/")) x2f = ds.
Proof. intros Hne H. by apply Split_Join; [|apply plain_no_slash]. Qed.

Lemma Join_inj ds es : Forall plain ds -> Forall plain es -> Join ds (go "/") = Join es (go "/") -> ds = es.
Proof.
  intros H1 H2 E.
  assert (forall l, Forall plain l -> Join l (go "/") = [] -> l = []) as Hnil.
  { intros [|x [|y l]] Hl El; [done| |]; inversion Hl as [|?? (Hx & _) ?]; subst; [done|].
    by destruct x. }
  destruct ds as [|d ds]; [symmetry; by apply Hnil|]. destruct es as [|e es]; [by apply Hnil|].
  by rewrite <- (Split_elems (d :: ds)), <- (Split_elems (e :: es)), E by done.
Qed.

Lemma path_inj ds es : Forall plain ds -> Forall plain es -> path ds = path es -> ds = es.
Proof. intros H1 H2 E. unfold path in E. apply app_inj_1 in E as [_ E]; [|done]. by apply Join_inj. Qed.

Lemma clean_elems_plain rooted es out : Forall plain es -> clean_elems rooted es out = reverse out ++ es.
Proof.
  intros H. revert out. induction H as [|e es (H1 & H2 & H3 & _) _ IH]; intros out; cbn [clean_elems].
  - by rewrite app_nil_r.
  - rewrite !bool_decide_false by done. cbn [orb]. rewrite IH, reverse_cons, <- app_assoc. done.
Qed.

(** Cleaning leaves only plain elements, after the [..] that lead out of a
    relative path. *)
Definition settled (rooted : bool) (l : list bytes) : Prop :=
  exists n es, l = replicate n (go "..") ++ es /\ Forall plain es /\ (rooted = true -> n = 0%nat).

Lemma settled_snoc rooted l e : settled rooted l -> plain e -> settled rooted (l ++ [e]).
Proof.
  intros (n & es & -> & H1 & H2) He. exists n, (es ++ [e]). rewrite <- app_assoc.
  split_and!; [done| |done]. apply Forall_app. by split; [|constructor].
Qed.

Lemma clean_elems_settled rooted es out :
  Forall (fun e => x2f ∉ e) es -> settled rooted (reverse out) ->
  settled rooted (clean_elems rooted es out).
Proof.
  intros H. revert out. induction H as [|e es He _ IH]; intros out Hout; cbn [clean_elems]; [done|].
  destruct (bool_decide (e = []) || bool_decide (e = go ".")) eqn:Ee; [by apply IH|]. bool_facts.
  case_bool_decide as Hdd.
  - destruct out as [|last rest].
    + apply IH. destruct rooted; [done|]. by exists 1%nat, [].
    + rewrite reverse_cons in Hout. destruct Hout as (n & l & E & H1 & H2).
      apply IH. destruct l as [|x l _] using rev_ind.
      * rewrite app_nil_r in E. destruct n as [|n]; [by apply app_nil in E as [_ ?]|].
        rewrite replicate_S_end in E. apply app_inj_tail in E as [E ->].
        rewrite bool_decide_true by done. rewrite !reverse_cons, E.
        exists (S (S n)), []. rewrite app_nil_r, !replicate_S_end. split_and!; [done|done|].
        intros Hr. by apply H2 in Hr.
      * rewrite app_assoc in E. apply app_inj_tail in E as [E ->].
        apply Forall_app in H1 as [H1 Hx]. inversion Hx as [|?? (X1 & X2 & X3 & X4) _]; subst.
        rewrite bool_decide_false by done. rewrite E. by exists n, l.
  - apply IH. rewrite reverse_cons. by apply settled_snoc.
Qed.

(** What [cleanEntry] accepts stays inside: its cleaned form is the join of
    plain elements, or the directory itself. *)
Lemma cleanEntry_ok name cleaned :
  cleanEntry name = Ok cleaned ->
  cleaned = go "." \/ exists es, es <> [] /\ Forall plain es /\ cleaned = Join es (go "/").
Proof.
  unfold cleanEntry. case_bool_decide as Hnil; [done|].
  destruct (HasPrefix name (go "/")) eqn:Habs; [done|].
  destruct (bool_decide (Clean name = go "..") || HasPrefix (Clean name) (go "../")) eqn:Hout; [done|].
  intros [= <-]. apply orb_false_iff in Hout as [H1 H2]. bool_facts. unfold Clean in *. rewrite Habs in *.
  destruct (clean_elems_settled false (Split name x2f) [] (Split_no_sep name x2f))
    as (n & es & E & Hes & _); [by exists 0%nat, []|].
  rewrite E in *. destruct n as [|[|n]].
  - cbn [replicate app] in *. case_bool_decide as Hj; [by left|]. right. exists es.
    split_and!; [by intros ->|done|done].
  - destruct es as [|e es]; [done|].
    change (Join (replicate 1 (go "..") ++ e :: es) (go "/"))
      with (go "../" ++ Join (e :: es) (go "/")) in H2.
    by rewrite bool_decide_false, HasPrefix_app in H2.
  - change (Join (replicate (S (S n)) (go "..") ++ es) (go "/"))
      with (go "../" ++ Join (replicate (S n) (go "..") ++ es) (go "/")) in H2.
    by rewrite bool_decide_false, HasPrefix_app in H2.
Qed.

(** The path of these elements with a slash after each. *)
Definition pre (ds : list bytes) : bytes := go "/" ++ concat ((fun d => d ++ go "/") <$> ds).

Lemma Split_pre ds s : Forall plain ds -> Split (pre ds ++ s) x2f = [] :: ds ++ Split s x2f.
Proof.
  intros H. change (Split (pre ds ++ s) x2f)
    with ([] :: Split (concat ((fun d => d ++ go "/") <$> ds) ++ s) x2f). f_equal.
  induction H as [|d ds (_ & _ & _ & Hd) _ IH]; [done|].
  cbn [fmap list_fmap concat app]. change (go "/") with [x2f] in *.
  rewrite <- !app_assoc. cbn [app]. by rewrite Split_app, IH.
Qed.

Lemma Join_pre ds es : es <> [] -> go "/" ++ Join (ds ++ es) (go "/") = pre ds ++ Join es (go "/").
Proof.
  intros Hes. unfold pre. rewrite <- app_assoc. f_equal.
  induction ds as [|d ds IH]; [done|]. cbn [fmap list_fmap concat]. rewrite <- !app_assoc, <- IH.
  destruct ds as [|d' ds]; [|done]. by destruct es.
Qed.

Lemma path_pre ds e : path (ds ++ [e]) = pre ds ++ e.
Proof. unfold path. by rewrite Join_pre. Qed.

Lemma Join2_path ds es :
  Forall plain ds -> Forall plain es -> es <> [] ->
  Join2 (path ds) (Join es (go "/")) = pre ds ++ Join es (go "/").
Proof.
  intros Hds Hes Hne. unfold Join2. rewrite bool_decide_false by done. unfold Clean.
  change (path ds ++ go "/" ++ Join es (go "/"))
    with (go "/" ++ Join ds (go "/") ++ go "/" ++ Join es (go "/")) at 1.
  rewrite HasPrefix_app. rewrite <- Join_pre by done. do 2 f_equal.
  destruct ds as [|d ds _] using rev_ind.
  - change (path [] ++ go "/" ++ Join es (go "/")) with (x2f :: x2f :: Join es (go "/")).
    change (Split (x2f :: x2f :: Join es (go "/")) x2f) with ([] :: [] :: Split (Join es (go "/")) x2f).
    rewrite Split_elems by done. apply (clean_elems_plain true es []). done.
  - rewrite path_pre. rewrite <- app_assoc.
    replace (pre ds ++ d ++ go "/" ++ Join es (go "/")) with (pre (ds ++ [d]) ++ Join es (go "/")).
    + rewrite Split_pre, Split_elems by done.
      assert (Forall plain ((ds ++ [d]) ++ es)) as Hall by (by apply Forall_app).
      exact (clean_elems_plain true _ [] Hall).
    + unfold pre. rewrite fmap_app, concat_app. cbn [fmap list_fmap concat]. by rewrite app_nil_r, <- !app_assoc.
Qed.

(** ** What a bundle may replace *)

Definition places : list bytes := [go "usr"; go "etc"; go "www"].

Lemma permitted_place n : permitted n = true -> exists x s, x ∈ places /\ n = x ++ go "/" ++ s.
Proof.
  intros H. assert (exists x, x ∈ places /\ HasPrefix n (x ++ go "/") = true) as (x & Hx & Hp).
  { unfold permitted in H. apply orb_true_iff in H as [H|H].
    - bool_facts. assert (Forall (fun n => Exists (fun x => HasPrefix n (x ++ go "/") = true) places) allowedExact) as Ha
        by (apply (bool_decide_unpack _); by vm_compute).
      rewrite Forall_forall in Ha. specialize (Ha n H). by apply Exists_exists in Ha.
    - apply existsb_exists in H as (q & Hq & Hp). apply list_elem_of_In in Hq.
      assert (Forall (fun q => Exists (fun x => HasPrefix q (x ++ go "/") = true) places) allowedPrefixes) as Ha
        by (apply (bool_decide_unpack _); by vm_compute).
      rewrite Forall_forall in Ha. specialize (Ha q Hq). apply Exists_exists in Ha as (x & Hx & Hpx).
      exists x. split; [done|]. apply HasPrefix_true in Hp as [k ->]. apply HasPrefix_true in Hpx as [k' ->].
      rewrite <- !app_assoc, app_assoc. apply HasPrefix_app. }
  apply HasPrefix_true in Hp as [s ->]. exists x, s. by rewrite <- app_assoc.
Qed.

(** A name a bundle may install: clean, relative and permitted. *)
Definition installable (n : bytes) : Prop :=
  permitted n = true /\ exists es, es <> [] /\ Forall plain es /\ n = Join es (go "/").

Lemma cleanEntry_installable name n : cleanEntry name = Ok n -> permitted n = true -> installable n.
Proof.
  intros [->|(es & ? & ? & ->)]%cleanEntry_ok Hp; [|split; [done|by exists es]].
  exfalso. assert (permitted (go ".") = false) as E by (vm_compute; reflexivity). congruence.
Qed.

Lemma Join2_installable ds n : Forall plain ds -> installable n -> Join2 (path ds) n = pre ds ++ n.
Proof. intros Hds (_ & es & Hne & Hes & ->). by apply Join2_path. Qed.

(** A directory no installable file is in: it leaves the root of the system
    somewhere else than below [usr], [etc] and [www]. *)
Definition diverge (l k : list bytes) : bool := existsb (fun '(a, b) => bool_decide (a <> b)) (zip l k).

Lemma diverge_spec l k l' k' : diverge l k = true -> l ++ l' <> k ++ k'.
Proof.
  unfold diverge. revert k; induction l as [|a l IH]; intros [|b k]; simpl; try done.
  intros [Hab|H]%orb_true_iff E; injection E as -> E; [by bool_facts|by eapply IH].
Qed.

Definition aside (rs ss : list bytes) : bool := forallb (fun x => diverge (rs ++ [x]) ss) places.

Lemma aside_spec rs ss n s :
  Forall plain rs -> Forall plain ss -> aside rs ss = true -> installable n ->
  forall suf, pre rs ++ n ++ suf <> pre ss ++ s.
Proof.
  intros Hrs Hss Ha [(x & r & Hx & ->)%permitted_place _] suf E.
  apply (f_equal (fun p => Split p x2f)) in E. rewrite !Split_pre in E by done. injection E as E.
  unfold aside in Ha. rewrite forallb_forall in Ha. apply list_elem_of_In in Hx as Hi. specialize (Ha x Hi).
  rewrite <- !app_assoc in E. change (go "/") with [x2f] in E. cbn [app] in E.
  assert (x2f ∉ x) as Hslash.
  { assert (Forall (fun x => x2f ∉ x) places) as Hp by (apply (bool_decide_unpack _); by vm_compute).
    rewrite Forall_forall in Hp. by apply Hp. }
  rewrite Split_app in E by done.
  apply (diverge_spec _ _ (Split (r ++ suf) x2f) (Split s x2f) Ha). by rewrite <- app_assoc.
Qed.

Lemma pre_snoc ss x : pre (ss ++ [x]) = pre ss ++ x ++ go "/".
Proof. unfold pre. rewrite fmap_app, concat_app. cbn [fmap list_fmap concat]. by rewrite app_nil_r, <- !app_assoc. Qed.

Definition no_tmp (names : list bytes) : Prop :=
  Forall (fun n => Forall (fun m => n <> m ++ new_suffix) names) names.

Lemma layout_ok rs ss names :
  Forall plain rs -> Forall plain ss -> aside rs ss = true ->
  NoDup names -> Forall installable names -> no_tmp names ->
  layout (path rs) (path (ss ++ [go "root"])) (path (ss ++ [go "backup"])) names.
Proof.
  intros Hrs Hss Ha Hnd Hin Htmp. rewrite Forall_forall in Hin. unfold no_tmp in Htmp.
  assert (forall x, plain x -> Forall plain (ss ++ [x])) as Hx by (intros x ?; apply Forall_app; by split; [|constructor]).
  assert (plain (go "root")) as Hr by (apply (bool_decide_unpack _); by vm_compute).
  assert (plain (go "backup")) as Hb by (apply (bool_decide_unpack _); by vm_compute).
  assert (forall n, n ∈ names -> Join2 (path rs) n = pre rs ++ n) as ET by (intros n Hn; apply Join2_installable; auto).
  assert (forall n x, plain x -> n ∈ names -> Join2 (path (ss ++ [x])) n = pre ss ++ x ++ go "/" ++ n) as ES.
  { intros n x Hp Hn. rewrite Join2_installable, pre_snoc, <- !app_assoc by auto. done. }
  assert (forall n s suf, n ∈ names -> pre rs ++ n ++ suf <> pre ss ++ s) as Hap
    by (intros n s suf Hn; apply aside_spec; auto).
  split.
  - done.
  - intros n m Hn Hm. rewrite !ET by done. by intros ?%(app_inv_head _).
  - intros n m Hn Hm. rewrite !ES by done. by intros ?%(app_inv_head _)%(app_inv_head _)%(app_inv_head _).
  - intros n m Hn Hm. rewrite !ET by done. rewrite <- app_assoc. intros E%(app_inv_head _).
    rewrite Forall_forall in Htmp. specialize (Htmp n Hn). rewrite Forall_forall in Htmp. by apply (Htmp m).
  - intros n m Hn Hm. rewrite !ET, !ES by done. rewrite <- app_assoc.
    pose proof (Hap n (go "backup" ++ go "/" ++ m) [] Hn). rewrite app_nil_r in *.
    pose proof (Hap n (go "backup" ++ go "/" ++ m) new_suffix Hn).
    pose proof (Hap n (go "root" ++ go "/" ++ m) [] Hn). rewrite app_nil_r in *.
    pose proof (Hap n (go "root" ++ go "/" ++ m) new_suffix Hn).
    assert (pre ss ++ go "root" ++ go "/" ++ m <> pre ss ++ go "backup" ++ go "/" ++ n)
      by (by intros E%(app_inv_head _)).
    rewrite !not_elem_of_cons. split_and!; try done; try apply not_elem_of_nil; congruence.
Qed.

Lemma exec_not_executable runs p e f d :
  files d !! p = Some f -> executable (mode f) = false -> exec runs p e d = (Err e, d).
Proof. intros Hf He. unfold exec. by rewrite Hf, He. Qed.

Lemma restart_frame runs root b d r d' : restart runs root b d = (r, d') -> d' = d.
Proof. unfold restart, exec. destruct b; repeat case_match; by intros [= _ <-]. Qed.

Lemma client_installable : installable client_path.
Proof.
  split; [apply (bool_decide_unpack _); by vm_compute|].
  exists [go "usr"; go "bin"; go "openfrpc"]. split; [done|].
  split; [apply (bool_decide_unpack _); by vm_compute|done].
Qed.

Lemma commit_only w root stage names :
  only (written_by root (Join2 stage (go "backup")) names) (commit w root stage names).
Proof.
  set (P := written_by _ _ _).
  assert (only P (install root (Join2 stage (go "root")) (Join2 stage (go "backup")) names)) as Hi.
  { apply only_install. intros n Hn. unfold P, written_by. split_and!; exists n; set_solver. }
  assert (only P (restore root (Join2 stage (go "backup")) names None)) as Hr.
  { apply only_restore. intros n Hn. unfold P, written_by. split; exists n; set_solver. }
  intros d r d'. unfold commit.
  destruct (install _ _ _ _ d) as [[[]|e] d1] eqn:E1; apply Hi in E1 as [U1 F1].
  - destruct (restart _ _ _ d1) as [[[]|e] d2] eqn:E2; apply restart_frame in E2 as ->; [by intros [= <- <-]|].
    destruct (restore _ _ _ _ d1) as [[[]|e'] d3] eqn:E3; apply Hr in E3 as [U3 F3].
    + destruct (restart _ _ _ d3) as [[[]|e'] d4] eqn:E4; apply restart_frame in E4 as ->;
        intros [= <- <-]; (split; [congruence|]); intros p Hp; by rewrite F3, F1.
    + intros [= <- <-]. split; [congruence|]. intros p Hp. by rewrite F3, F1.
  - destruct (restore _ _ _ _ d1) as [[[]|e'] d3] eqn:E3; apply Hr in E3 as [U3 F3];
      intros [= <- <-]; (split; [congruence|]); intros p Hp; by rewrite F3, F1.
Qed.

(** The two ends of [commit] that matter, over any layout. *)
Lemma commit_ends w root stage names d r d' :
  let from := Join2 stage (go "root") in
  let backup := Join2 stage (go "backup") in
  layout root from backup names -> (forall n, n ∈ names -> files d !! Join2 backup n = None) ->
  commit w root stage names d = (r, d') ->
  (r = Ok tt -> installed root from backup names d d')
  /\ (forall e, r = Err (ErrNeitherStarts e) \/ r = Err (ErrPutBack e) -> forall n f, n ∈ names ->
      files d !! Join2 root n = Some f ->
      files d' !! Join2 root n = Some (MkFile (content f) FileMode))
  /\ (forall e, r = Err (ErrPutBack e) -> exists f,
      files d' !! Join2 root client_path = Some f /\ executable (mode f) = true).
Proof.
  intros from backup Hl Hb. unfold commit. fold from backup.
  destruct (install root from backup names d) as [[[]|e] d1] eqn:E1.
  - apply install_ok in E1 as I1; [|done|done].
    destruct (restart _ _ _ d1) as [[[]|e] d2] eqn:E2; apply restart_frame in E2 as ->.
    { intros [= <- <-]. split_and!; [done|by intros ? [?|?]|done]. }
    destruct (restore root backup names None d1) as [[[]|e'] d3] eqn:E3.
    2: { intros [= <- <-]. split_and!; [done|by intros ? [?|?]|done]. }
    apply (restore_ok _ from) in E3 as [P1 _]; [|done].
    assert (forall n f, n ∈ names -> files d !! Join2 root n = Some f ->
      files d3 !! Join2 root n = Some (MkFile (content f) FileMode)) as Hback.
    { intros n f Hn Hf. destruct (ins_saved _ _ _ _ _ _ I1 n f Hn Hf) as (m & Hm & He).
      rewrite (P1 n _ Hn Hm). unfold final_mode. simpl. by rewrite He. }
    destruct (restart _ _ _ d3) as [[[]|e'] d4] eqn:E4; apply restart_frame in E4 as Ed; subst d4.
    + intros [= <- <-]. split_and!; [done|by eauto|]. intros _ _.
      revert E4. unfold restart, exec. destruct (snd (w_service w)); [|done].
      destruct (files d3 !! Join2 root client_path) as [f|]; [|done].
      destruct (executable (mode f)) eqn:Ef; [|done]. by exists f.
    + intros [= <- <-]. split_and!; [done|by eauto|done].
  - destruct (restore root backup names None d1) as [[[]|e'] d3];
      intros [= <- <-]; (split_and!; [done|by intros ? [?|?]|done]).
Qed.

(** An update takes, or is taken back: when [commit] reports success every
    file of the bundle is in its place with the bundle's contents, executable
    exactly when it was in the bundle, whatever the umask; when it reports that
    the new version did not start and was taken back, every file that was there
    before has its old contents again; no file outside the bundle's places and
    the staging directory changes.  But a file that is put back is never
    executable: the backup is written with mode 0644 and [replace] derives the
    final mode from it, so the old client cannot run either, and the report
    that the previous version is running again is never made. *)
Theorem update_rolls_back w rs ss names d r d' :
  Forall plain rs -> Forall plain ss -> aside rs ss = true ->
  NoDup names -> Forall installable names -> no_tmp names ->
  (forall n, n ∈ names -> files d !! (pre ss ++ go "backup/" ++ n) = None) ->
  commit w (path rs) (path ss) names d = (r, d') ->
  (r = Ok tt -> forall n, n ∈ names -> exists u,
     files d !! (pre ss ++ go "root/" ++ n) = Some u
     /\ files d' !! (pre rs ++ n) = Some (MkFile (content u) (final_mode (mode u))))
  /\ (forall e, r = Err (ErrNeitherStarts e) -> forall n f, n ∈ names ->
      files d !! (pre rs ++ n) = Some f ->
      files d' !! (pre rs ++ n) = Some (MkFile (content f) FileMode))
  /\ (forall e, client_path ∈ names -> is_Some (files d !! (pre rs ++ client_path)) ->
      r <> Err (ErrPutBack e))
  /\ (forall p, (forall n, n ∈ names -> p ∉ [pre rs ++ n; pre rs ++ n ++ new_suffix; pre ss ++ go "backup/" ++ n]) ->
      files d' !! p = files d !! p).
Proof.
  intros Hrs Hss Ha Hnd Hin Htmp Hempty Hc.
  assert (forall x, plain x -> Join2 (path ss) x = path (ss ++ [x])) as EJ.
  { intros x Hx. rewrite path_pre. apply (Join2_path ss [x]); [done| |done]. by constructor. }
  assert (plain (go "root") /\ plain (go "backup")) as [Hr Hb]
    by (apply (bool_decide_unpack _); by vm_compute).
  assert (forall n, installable n -> Join2 (path rs) n = pre rs ++ n) as ET by (intros; by apply Join2_installable).
  assert (forall n x, plain x -> installable n -> Join2 (path (ss ++ [x])) n = pre ss ++ x ++ go "/" ++ n) as ES.
  { intros n x Hx Hn. rewrite Join2_installable, pre_snoc, <- !app_assoc; [done| |done].
    apply Forall_app. by split; [|constructor]. }
  pose proof (layout_ok rs ss names Hrs Hss Ha Hnd Hin Htmp) as Hl. rewrite Forall_forall in Hin.
  pose proof (proj2 (commit_only _ _ _ _ _ _ _ Hc)) as Hframe.
  apply commit_ends in Hc as (C1 & C2 & C3); rewrite !EJ in * by done; [|done|].
  2: { intros n Hn. rewrite ES by auto. by apply Hempty. }
  split_and!.
  - intros Hok n Hn. destruct (ins_new _ _ _ _ _ _ (C1 Hok) n Hn) as (u & Eu & Hu).
    rewrite ES in Eu by auto. rewrite ET in Hu by auto. by exists u.
  - intros e Hre n f Hn Hf. rewrite <- ET in * by auto. by apply (C2 e); [left| |].
  - intros e Hcl [f Hf] Hre. destruct (C3 e Hre) as (g & Eg & Hg).
    rewrite <- ET in Hf by auto using client_installable.
    rewrite (C2 e (or_intror Hre) _ f Hcl Hf) in Eg. injection Eg as <-. done.
  - intros p Hp. apply Hframe. intros (n & Hn & Hpn). apply (Hp n Hn).
    rewrite ET, ES, <- ?app_assoc in Hpn by auto. exact Hpn.
Qed.

(** ** Unpacking *)

Lemma unpack_file_ok dir name e d d' :
  unpack_file dir name e d = (Ok tt, d') ->
  files d' !! Join2 dir name = Some (MkFile (LimitReader (e_data e) maxBundleSize) (final_mode (e_mode e)))
  /\ forall p, p <> Join2 dir name -> files d' !! p = files d !! p.
Proof.
  intros H. split.
  - unfold unpack_file in H. fold (final_mode (e_mode e)) in H.
    apply fs_bind_ok in H as ([] & d1 & _ & H).
    apply fs_bind_ok in H as ([] & d2 & [F2 _]%OpenFile_ok & H).
    apply fs_bind_ok in H as ([] & d3 & [F3 _]%Copy_ok & H).
    apply fs_bind_ok in H as ([] & d4 & Hb & H).
    assert (d4 = d3) as -> by (destruct (e_broken e && _); [done|by injection Hb]).
    apply fs_bind_ok in H as ([] & d5 & [F5 _]%call_id_files & [F6 _]%Chmod_ok).
    rewrite F6, F5, F3, F2, !alter_insert_eq, lookup_insert_eq. done.
  - intros p Hp. refine (proj2 (only_unpack_file (fun q => q = Join2 dir name) dir name e _ _ _ _ H) p Hp). done.
Qed.

Definition mode_ok (m : Z) : Prop := m = FileMode \/ m = ExecMode.

Section extract.
Context (ds : list bytes) (Hds : Forall plain ds).

Definition unpacked_ok (d : Disk) (n : bytes) : Prop :=
  installable n /\ exists f, files d !! (pre ds ++ n) = Some f /\ mode_ok (mode f).

Lemma extract_entries_only entries written :
  only (fun p => exists n, installable n /\ p = pre ds ++ n) (extract_entries (path ds) entries written).
Proof.
  revert written; induction entries as [|[e|e] entries IH]; intros written; cbn [extract_entries];
    [by eauto with frp| |by eauto with frp].
  destruct (cleanEntry (e_name e)) as [n|err] eqn:Ec; [|by eauto with frp].
  case_bool_decide; [apply IH|]. case_bool_decide; cbn [negb]; [|by eauto with frp].
  destruct (permitted n) eqn:Ep; cbn [negb]; [|by eauto with frp].
  apply only_bind; [|intros _; apply IH]. apply only_unpack_file.
  pose proof (cleanEntry_installable _ _ Ec Ep). exists n. by rewrite Join2_installable.
Qed.

Lemma extract_entries_ok entries written names d d' :
  Forall (unpacked_ok d) written -> extract_entries (path ds) entries written d = (Ok names, d') ->
  Forall (unpacked_ok d') names.
Proof.
  revert written d; induction entries as [|[e|e] entries IH]; intros written d Hw; cbn [extract_entries];
    [by intros [= <- <-]| |done].
  destruct (cleanEntry (e_name e)) as [n|err] eqn:Ec; [|done].
  case_bool_decide; [by apply IH|]. case_bool_decide; cbn [negb]; [|done].
  destruct (permitted n) eqn:Ep; cbn [negb]; [|done].
  pose proof (cleanEntry_installable _ _ Ec Ep) as Hn.
  intros ([] & d1 & [Hf Hrest]%unpack_file_ok & Hgo)%fs_bind_ok. rewrite Join2_installable in Hf, Hrest by done.
  eapply IH; [|exact Hgo]. apply Forall_app. split.
  - eapply Forall_impl; [exact Hw|]. intros m (Hm & f & Ef & Hmode). split; [done|].
    destruct (decide (m = n)) as [->|Hmn].
    + eexists. split; [exact Hf|]. unfold mode_ok, final_mode. simpl. case_match; auto.
    + exists f. split; [|done]. rewrite Hrest; [done|]. by intros ?%(app_inv_head _).
  - constructor; [|done]. split; [done|]. eexists. split; [exact Hf|].
    unfold mode_ok, final_mode. simpl. case_match; auto.
Qed.
End extract.

Section confined.
Context `{Archive}.

Lemma Extract_only ds archive :
  Forall plain ds -> only (fun p => exists n, installable n /\ p = pre ds ++ n) (Extract archive (path ds)).
Proof.
  intros Hds. unfold Extract. case_match; [|by eauto with frp].
  apply only_bind; [by apply extract_entries_only|intros w]. case_bool_decide; by eauto with frp.
Qed.

Lemma Extract_ok ds archive d names d' :
  Forall plain ds -> Extract archive (path ds) d = (Ok names, d') ->
  names <> [] /\ Forall (unpacked_ok ds d') names.
Proof.
  intros Hds. unfold Extract. case_match; [|done].
  intros (w & d1 & Hw & Hr)%fs_bind_ok. case_bool_decide; [done|]. injection Hr as <- <-.
  split; [done|]. by eapply (extract_entries_ok ds Hds); [|exact Hw].
Qed.

(** A bundle cannot write where an update may not: whatever the archive
    holds, names with [..], absolute names, links or names given twice, every
    file that unpacking creates or changes lies under the directory it is
    unpacked into, at a clean relative name an update may replace; and the
    files of a successful unpacking end with mode 0644 or 0755, whatever the
    umask. *)
Theorem Extract_confined archive ds d r d' :
  Forall plain ds -> Extract archive (path ds) d = (r, d') ->
  (forall p,
     (forall es, Forall plain es -> permitted (Join es (go "/")) = true -> p <> pre ds ++ Join es (go "/")) ->
     files d' !! p = files d !! p)
  /\ (forall names, r = Ok names -> names <> [] /\ forall n, n ∈ names ->
      permitted n = true /\ exists f, files d' !! (pre ds ++ n) = Some f
      /\ (mode f = FileMode \/ mode f = ExecMode)).
Proof.
  intros Hds HE. split.
  - intros p Hp. apply (proj2 (Extract_only ds archive Hds _ _ _ HE)).
    intros (n & (Hn & es & _ & Hes & ->) & ->). by apply (Hp es).
  - intros names ->. destruct (Extract_ok _ _ _ _ _ Hds HE) as [Hne Hall]. split; [done|].
    intros n Hn. rewrite Forall_forall in Hall. destruct (Hall n Hn) as ((Hp & _) & Hf). done.
Qed.

(** ** The whole update *)

Context `{Unicode} `{Sha256}.

Lemma smokeTest_ok runs p d d' :
  smokeTest runs p d = (Ok tt, d') -> d' = d /\ exists f, files d !! p = Some f
    /\ executable (mode f) = true /\ runs (content f) = true.
Proof.
  intros (info & d1 & [= <- <-] & Hs)%fs_bind_ok. destruct (files d !! p) as [f|] eqn:Ef; [|done].
  destruct (executable (mode f)) eqn:Em; [|done]. unfold exec in Hs. rewrite Ef, Em in Hs.
  destruct (runs (content f)) eqn:Er; [|done]. injection Hs as <-. by eauto.
Qed.

Lemma only_smokeTest P runs p : only P (smokeTest runs p).
Proof.
  unfold smokeTest. apply only_bind; [by eauto with frp|intros [f|]]; [|by eauto with frp].
  case_match; [|by eauto with frp]. intros d r d'. unfold exec.
  repeat case_match; by intros [= <- <-].
Qed.

(** Everything [prepare] writes is below the staging directory. *)
Definition staged (ss : list bytes) (p : bytes) : Prop := exists s, p = pre ss ++ s.

Lemma prepare_only w want asset ss :
  Forall plain ss -> plain (a_Name asset) ->
  only (staged ss) (prepare w want asset (path ss)).
Proof.
  intros Hss Hname. unfold prepare.
  assert (forall x, plain x -> Join2 (path ss) x = pre ss ++ x) as EJ.
  { intros x Hx. apply (Join2_path ss [x]); [done|by constructor|done]. }
  assert (plain (go "root")) as Hroot by (apply (bool_decide_unpack _); by vm_compute).
  rewrite !EJ by done. rewrite <- path_pre.
  assert (staged ss (pre ss ++ a_Name asset)) as Hst by (by eexists).
  apply only_bind; [by eauto with frp|intros _].
  apply only_bind; [unfold fetchTo_file; case_match; only_auto|intros got].
  case_bool_decide; cbn [negb]; [|by eauto with frp].
  apply only_bind; [by eauto with frp|intros bundle].
  apply only_bind; [by eauto with frp|intros _].
  apply only_bind; [|intros written; apply only_bind; [by apply only_smokeTest|by eauto with frp]].
  eapply only_weaken; [|apply Extract_only; by apply Forall_app; split; [|constructor]].
  intros p (n & _ & ->). rewrite pre_snoc, <- app_assoc. by eexists.
Qed.

Lemma path_slash ss : ss <> [] -> path ss ++ go "/" = pre ss.
Proof.
  destruct ss as [|x ss _] using rev_ind; [done|]. intros _.
  by rewrite path_pre, pre_snoc, <- app_assoc.
Qed.

Lemma RemoveAll_files ss d p :
  ss <> [] -> ~ staged ss p -> files (RemoveAll (path ss) d) !! p = files d !! p.
Proof.
  intros Hne Hp. unfold RemoveAll. cbn [files set_files]. rewrite path_slash by done.
  destruct (files d !! p) as [f|] eqn:Ef.
  - apply map_lookup_filter_Some. split; [done|]. cbn [fst]. apply not_true_is_false.
    intros [s Hs]%HasPrefix_true. apply Hp. by exists s.
  - apply map_lookup_filter_None. by left.
Qed.

(** The bytes a release publishes for this machine and what it says of them. *)
Definition verified (w : World) (goos goarch : bytes) : Prop :=
  exists release asset sums raw body want,
    w_latest w = Ok release /\ AssetFor release goos goarch = Some asset
    /\ Checksums release = Some sums /\ w_fetch w (a_URL sums) = Some raw
    /\ ParseChecksums (LimitReader raw maxBundleSize) !! a_Name asset = Some want
    /\ w_fetch w (a_URL asset) = Some body /\ sha256_hex (LimitReader body maxBundleSize) = want.

Lemma prepare_ok w want asset ss d names d' :
  Forall plain ss -> prepare w want asset (path ss) d = (Ok names, d') ->
  (exists body, w_fetch w (a_URL asset) = Some body /\ sha256_hex (LimitReader body maxBundleSize) = want)
  /\ Forall installable names.
Proof.
  intros Hss Hp. unfold prepare in Hp.
  apply fs_bind_ok in Hp as ([] & d1 & _ & Hp).
  apply fs_bind_ok in Hp as (got & d2 & Hf & Hp).
  case_bool_decide as Hgot; cbn [negb] in Hp; [|done].
  apply fs_bind_ok in Hp as (bundle & d3 & _ & Hp).
  apply fs_bind_ok in Hp as ([] & d4 & _ & Hp).
  apply fs_bind_ok in Hp as (written & d5 & HE & Hp).
  apply fs_bind_ok in Hp as ([] & d6 & _ & Hp). injection Hp as <- <-. split.
  - unfold fetchTo_file in Hf. destruct (w_fetch w (a_URL asset)) as [body|]; [|done]. exists body.
    split; [done|]. apply fs_bind_ok in Hf as ([] & d7 & _ & Hf). by injection Hf as <- _.
  - assert (plain (go "root")) as Hroot by (apply (bool_decide_unpack _); by vm_compute).
    assert (Join2 (path ss) (go "root") = path (ss ++ [go "root"])) as EJ.
    { rewrite path_pre. apply (Join2_path ss [go "root"]); [done|by constructor|done]. }
    rewrite EJ in HE. apply Extract_ok in HE as [_ Hall]; [|by apply Forall_app; split; [|constructor]].
    eapply Forall_impl; [exact Hall|]. by intros n [? _].
Qed.

Lemma commit_runs w root stage names d d' :
  commit w root stage names d = (Ok tt, d') ->
  exists f, files d' !! Join2 root client_path = Some f /\ executable (mode f) = true
            /\ w_runs w (content f) = true.
Proof.
  unfold commit. destruct (install _ _ _ _ d) as [[[]|e] d1]; [|by repeat case_match].
  destruct (restart _ _ _ d1) as [[[]|e] d2] eqn:E; [|by repeat case_match].
  pose proof E as ->%restart_frame. intros [= <-]. revert E. unfold restart, exec.
  destruct (fst (w_service w)); [|done].
  destruct (files d1 !! Join2 root client_path) as [f|]; [|done].
  destruct (executable (mode f)) eqn:Em, (w_runs w (content f)) eqn:Er; try done. by exists f.
Qed.

(** C32: nothing is installed that the release does not vouch for: unless the
    bundle downloaded hashes to the checksum the release lists under the name of
    this machine's bundle, an update changes no file outside its staging
    directory, whatever fails; when it does, only files an update may replace
    (and the temporaries beside them) change; and an update that reports success
    leaves a client that is executable and runs on this machine. *)
Theorem Apply_verified w goos goarch rs ss d r d' :
  Forall plain rs -> Forall plain ss -> aside rs ss = true -> w_stage w = Some (path ss) ->
  (forall release asset, w_latest w = Ok release -> AssetFor release goos goarch = Some asset ->
     plain (a_Name asset)) ->
  Apply w goos goarch (path rs) d = (r, d') ->
  (forall p, ~ staged ss p ->
     ~ verified w goos goarch \/ (forall n, permitted n = true -> p <> pre rs ++ n /\ p <> pre rs ++ n ++ new_suffix) ->
     files d' !! p = files d !! p)
  /\ (r = Ok tt -> verified w goos goarch /\ exists f,
      files d' !! (pre rs ++ client_path) = Some f /\ executable (mode f) = true
      /\ w_runs w (content f) = true).
Proof.
  intros Hrs Hss Ha Hstage Hplain. unfold Apply. rewrite Hstage.
  destruct (w_latest w) as [release|e] eqn:El; [|by intros [= <- <-]].
  destruct (AssetFor release goos goarch) as [asset|] eqn:Eas; [|by intros [= <- <-]].
  destruct (Checksums release) as [sums|] eqn:Es; [|by intros [= <- <-]].
  destruct (w_fetch w (a_URL sums)) as [raw|] eqn:Ef; [|by intros [= <- <-]].
  destruct (ParseChecksums _ !! a_Name asset) as [want|] eqn:Ew; [|by intros [= <- <-]].
  assert (ss <> []) as Hne by (intros ->; by destruct rs).
  destruct ((written ← prepare w want asset (path ss); commit w (path rs) (path ss) written) d)
    as [r0 d0] eqn:E0. intros [= <- <-].
  pose proof (prepare_only w want asset ss Hss (Hplain _ _ eq_refl Eas)) as Hprep.
  unfold mbind, fs_bind in E0. destruct (prepare w want asset (path ss) d) as [[names|e] d1] eqn:E1.
  2: { injection E0 as <- <-. apply Hprep in E1 as [_ F1]. split; [|done]. intros p Hp _.
       by rewrite RemoveAll_files, F1. }
  pose proof E1 as [_ F1]%Hprep. apply prepare_ok in E1 as [(body & Eb & Hsha) Hin]; [|done].
  assert (verified w goos goarch) as Hv by (by exists release, asset, sums, raw, body, want).
  rewrite Forall_forall in Hin.
  assert (forall n, installable n -> Join2 (path rs) n = pre rs ++ n) as ET by (intros; by apply Join2_installable).
  split.
  - intros p Hp [?|Hperm]; [done|]. rewrite RemoveAll_files by done. rewrite <- F1 by done.
    apply (proj2 (commit_only _ _ _ _ _ _ _ E0)). intros (n & Hn & Hpn).
    rewrite ET in Hpn by auto. destruct (Hperm n) as [P1 P2]; [by destruct (Hin n Hn)|].
    assert (plain (go "backup")) as Hb by (apply (bool_decide_unpack _); by vm_compute).
    assert (Join2 (path ss) (go "backup") = path (ss ++ [go "backup"])) as EJ.
    { rewrite path_pre. apply (Join2_path ss [go "backup"]); [done|by constructor|done]. }
    rewrite EJ, Join2_installable, pre_snoc, <- !app_assoc in Hpn; [|by apply Forall_app; split; [|constructor]|by auto].
    apply elem_of_cons in Hpn as [?|[?|[?|[]%not_elem_of_nil]%elem_of_cons]%elem_of_cons]; [done|done|].
    apply Hp. by eexists.
  - intros ->. split; [done|]. apply commit_runs in E0 as (f & Ef' & Hx & Hr). exists f. split; [|done].
    rewrite ET in Ef' by apply client_installable. rewrite RemoveAll_files; [done|done|].
    intros [s Hs]. by apply (aside_spec rs ss client_path s Hrs Hss Ha client_installable []).
Qed.
End confined.

(** ** Examples *)

#[local] Instance toy_archive : Archive := {|
  untar bs :=
    if bool_decide (bs = go "bundle")
    then Some [Ok (MkEntry (go "./") TypeDir 493 [] false);
               Ok (MkEntry (go "./usr/bin/../bin/openfrpc") TypeReg 448 (go "new client") false);
               Ok (MkEntry (go "www/luci-static/resources/openfrp/app.js") TypeReg 384 (go "new page") false)]
    else if bool_decide (bs = go "evil")
    then Some [Ok (MkEntry (go "usr/lib/openfrp/../../../etc/passwd") TypeReg 420 (go "root::0") false)]
    else None
|}.

#[local] Instance toy_sha256 : Sha256 := {| sha256_hex bs := go "digest-" ++ bs |}.

Definition stage_dir : list bytes := [go "tmp"; go "openfrp-update-1"].

Definition example_names : list bytes := [client_path; go "www/luci-static/resources/openfrp/app.js"].

Definition old_disk (answers : list outcome) : Disk :=
  MkDisk (<[go "/usr/bin/openfrpc" := MkFile (go "old client") ExecMode]> ∅) ∅ 63 answers.

Definition example_release : Release :=
  MkRelease (go "v1.2.0") [] [] false false 0 []
    [MkAsset (go "openfrp-1.2.0-linux-arm.tar.gz") (go "u/bundle") 6;
     MkAsset ChecksumsName (go "u/sums") 6].

Definition example_fetch (url : bytes) : option bytes :=
  if bool_decide (url = go "u/bundle") then Some (go "bundle")
  else if bool_decide (url = go "u/sums")
       then Some (go "DIGEST-BUNDLE *openfrp-1.2.0-linux-arm.tar.gz" ++ [x0d; x0a])
       else None.

Definition example_world (runs : bytes -> bool) (service : bool * bool) : World :=
  MkWorld (Ok example_release) example_fetch (Some (path stage_dir)) runs service.

Lemma Extract_confined_witness :
  let r := Extract (go "bundle") (path stage_dir) (old_disk []) in
  Forall plain stage_dir /\ r.1 = Ok example_names
  /\ files (Extract (go "evil") (path stage_dir) (old_disk [])).2 !! go "/etc/passwd" = None
  /\ example_names <> [] /\ forall n, n ∈ example_names ->
      permitted n = true /\ exists f, files r.2 !! (pre stage_dir ++ n) = Some f
      /\ (mode f = FileMode \/ mode f = ExecMode).
Proof.
  intros r.
  assert (Forall plain stage_dir) as Hs by (apply (bool_decide_unpack _); by vm_compute).
  assert (r.1 = Ok example_names) as Hr by (vm_compute; reflexivity).
  split; [exact Hs|]. split; [exact Hr|]. split; [vm_compute; reflexivity|].
  exact (proj2 (Extract_confined (go "bundle") stage_dir (old_disk []) r.1 r.2 Hs (surjective_pairing _))
           example_names Hr).
Defined.

#[local] Existing Instance no_unicode.

Definition runs_all (_ : bytes) : bool := true.

Lemma Apply_verified_witness :
  let w := example_world runs_all (true, true) in
  let result := Apply w (go "linux") (go "arm") (path []) (old_disk []) in
  result.1 = Ok tt /\ files result.2 !! go "/usr/bin/openfrpc" = Some (MkFile (go "new client") ExecMode)
  /\ verified w (go "linux") (go "arm").
Proof.
  intros w result. assert (result.1 = Ok tt) as Hr by (vm_compute; reflexivity).
  split; [exact Hr|]. split; [vm_compute; reflexivity|].
  refine (proj1 (proj2 (Apply_verified w (go "linux") (go "arm") [] stage_dir (old_disk []) result.1 result.2
            _ _ _ _ _ (surjective_pairing _)) Hr)).
  - constructor.
  - apply (bool_decide_unpack _). vm_compute. reflexivity.
  - vm_compute. reflexivity.
  - reflexivity.
  - intros release asset [= <-] Ha. vm_compute in Ha. injection Ha as <-.
    apply (bool_decide_unpack _). vm_compute. reflexivity.
Defined.

(** The disk once the bundle is unpacked. *)
Definition staged_disk (answers : list outcome) : Disk :=
  MkDisk (<[go "/tmp/openfrp-update-1/root/usr/bin/openfrpc" := MkFile (go "new client") ExecMode]>
         (<[go "/tmp/openfrp-update-1/root/www/luci-static/resources/openfrp/app.js"
            := MkFile (go "new page") FileMode]> (files (old_disk [])))) ∅ 63 answers.

Lemma update_rolls_back_witness :
  let w := example_world runs_all (false, true) in
  let result := commit w (path []) (path stage_dir) example_names (staged_disk []) in
  result.1 = Err (ErrNeitherStarts ErrInstalledDoesNotRun)
  /\ files result.2 !! (pre [] ++ client_path) = Some (MkFile (go "old client") FileMode).
Proof.
  intros w result.
  assert (result.1 = Err (ErrNeitherStarts ErrInstalledDoesNotRun)) as Hr by (vm_compute; reflexivity).
  split; [exact Hr|].
  refine (proj1 (proj2 (update_rolls_back w [] stage_dir example_names (staged_disk []) result.1 result.2
            _ _ _ _ _ _ _ (surjective_pairing _))) _ Hr client_path (MkFile (go "old client") ExecMode) _ _).
  - constructor.
  - apply (bool_decide_unpack _). vm_compute. reflexivity.
  - vm_compute. reflexivity.
  - apply (bool_decide_unpack _). vm_compute. reflexivity.
  - constructor; [apply client_installable|constructor; [|constructor]].
    split; [vm_compute; reflexivity|].
    exists [go "www"; go "luci-static"; go "resources"; go "openfrp"; go "app.js"].
    split; [done|]. split; [|done]. apply (bool_decide_unpack _). vm_compute. reflexivity.
  - apply (bool_decide_unpack _). vm_compute. reflexivity.
  - intros n Hn.
    assert (Forall (fun n => files (staged_disk []) !! (pre stage_dir ++ go "backup/" ++ n) = None) example_names) as Hb
      by (apply (bool_decide_unpack _); vm_compute; reflexivity).
    rewrite Forall_forall in Hb. exact (Hb n Hn).
  - apply (bool_decide_unpack _). vm_compute. reflexivity.
  - vm_compute. reflexivity.
Defined.

(** A backup that stops half way is taken for a backup: with the disk full
    while the old client is being saved, the install fails before it has
    replaced anything, and the restore then puts the truncated copy in the
    place of the old client. *)
Theorem half_backup_destroys :
  let stop := [Works; Works; Works; Works; Works; Works; Stops 3] in
  let result := commit (example_world runs_all (true, true)) (path []) (path stage_dir)
                  [client_path] (staged_disk stop) in
  (exists e, result.1 = Err (ErrInstall e))
  /\ files (staged_disk stop) !! go "/usr/bin/openfrpc" = Some (MkFile (go "old client") ExecMode)
  /\ files result.2 !! go "/usr/bin/openfrpc" = Some (MkFile (go "old") FileMode).
Proof. split_and!; [eexists|..]; vm_compute; reflexivity. Qed.

(** [MkdirAllMode] fixes the mode of the last directory only: those it makes on
    the way keep what the umask left them. *)
Theorem MkdirAllMode_parents_masked :
  let d := (MkdirAllMode (go "/www/luci-static/resources") (old_disk [])).2 in
  dirs d !! go "/www/luci-static/resources" = Some DirMode
  /\ dirs d !! go "/www/luci-static" = Some 448 /\ dirs d !! go "/www" = Some 448.
Proof. split_and!; vm_compute; reflexivity. Qed.
