(* ===== verification/Stats.v ===== *)
(** Traffic counters and their history: [internal/stats], the client's
    [history.go] and [traffic.go], and the table of
    [internal/storage/repo/traffic.go].

    Every counter is an [int64] that wraps around.  A registry operation takes
    the Unix time its clock shows.  SQLite executes the statements of the
    repository: a table is a map from its primary key, and a statement may fail
    and then changes nothing.  SQLite's integers become floating point beyond
    [int64]; sums are bounded where that would matter. *)
From S2P Require Import Prelude GoStrings.

Record Counters := MkCounters {
  BytesIn : Z; BytesOut : Z; Connections : Z; Active : Z;
  Spliced : Z; Buffered : Z; lastSeen : Z
}.

Definition zero_counters : Counters := MkCounters 0 0 0 0 0 0 0.

(** The map of a [Registry]. *)
Definition NewRegistry : gmap bytes Counters := ∅.

(** The counters of a name, made on first use. *)
Definition For (name : bytes) (r : gmap bytes Counters) : Counters * gmap bytes Counters :=
  match r !! name with
  | Some c => (c, r)
  | None => (zero_counters, <[name := zero_counters]> r)
  end.

Definition update (name : bytes) (f : Counters -> Counters) (r : gmap bytes Counters)
  : gmap bytes Counters :=
  let '(c, r) := For name r in <[name := f c]> r.

Definition RecordProgress (name : bytes) (inn out now : Z) (r : gmap bytes Counters)
  : gmap bytes Counters :=
  if (inn =? 0) && (out =? 0) then r
  else update name (fun c => MkCounters (i64 (BytesIn c + inn)) (i64 (BytesOut c + out))
         (Connections c) (Active c) (Spliced c) (Buffered c) now) r.

Definition RecordClose (name : bytes) (spliced : bool) (now : Z) (r : gmap bytes Counters)
  : gmap bytes Counters :=
  update name (fun c => MkCounters (BytesIn c) (BytesOut c) (i64 (Connections c + 1)) (Active c)
    (if spliced then i64 (Spliced c + 1) else Spliced c)
    (if spliced then Buffered c else i64 (Buffered c + 1)) now) r.

Definition RecordTransfer (name : bytes) (inn out : Z) (spliced : bool) (now : Z)
  (r : gmap bytes Counters) : gmap bytes Counters :=
  RecordClose name spliced now (RecordProgress name inn out now r).

Definition add_active (d : Z) (c : Counters) : Counters :=
  MkCounters (BytesIn c) (BytesOut c) (Connections c) (i64 (Active c + d)) (Spliced c) (Buffered c)
    (lastSeen c).

Definition Open (name : bytes) (r : gmap bytes Counters) : gmap bytes Counters := update name (add_active 1) r.
Definition Close (name : bytes) (r : gmap bytes Counters) : gmap bytes Counters := update name (add_active (-1)) r.

Record Snapshot := MkSnapshot {
  s_Name : bytes; s_BytesIn : Z; s_BytesOut : Z; s_Connections : Z; s_Active : Z;
  s_Spliced : Z; s_Buffered : Z; s_LastSeen : option Z
}.

Definition snapshotOf (name : bytes) (c : Counters) : Snapshot :=
  MkSnapshot name (BytesIn c) (BytesOut c) (Connections c)
    (if Active c <? 0 then 0 else Active c) (Spliced c) (Buffered c)
    (if 0 <? lastSeen c then Some (lastSeen c) else None).

Definition SnapshotFor (name : bytes) (r : gmap bytes Counters) : Snapshot * gmap bytes Counters :=
  let '(c, r) := For name r in (snapshotOf name c, r).

Definition name_le (a b : Snapshot) : Prop := bytes_le (s_Name a) (s_Name b).
#[export] Instance name_le_dec a b : Decision (name_le a b) := bytes_le_dec _ _.

Definition All (r : gmap bytes Counters) : list Snapshot :=
  merge_sort name_le ((fun kv => snapshotOf kv.1 kv.2) <$> map_to_list r).

Definition add_snapshot (total item : Snapshot) : Snapshot :=
  MkSnapshot (s_Name total) (i64 (s_BytesIn total + s_BytesIn item))
    (i64 (s_BytesOut total + s_BytesOut item)) (i64 (s_Connections total + s_Connections item))
    (i64 (s_Active total + s_Active item)) (i64 (s_Spliced total + s_Spliced item))
    (i64 (s_Buffered total + s_Buffered item)) (s_LastSeen total).

Definition Total (r : gmap bytes Counters) : Snapshot :=
  foldl add_snapshot (MkSnapshot (go "total") 0 0 0 0 0 0 None) (All r).

Definition Forget (name : bytes) (r : gmap bytes Counters) : gmap bytes Counters := delete name r.

(** ** What the client publishes (traffic.go) *)

Record TrafficCounters := MkTrafficCounters {
  tc_BytesIn : Z; tc_BytesOut : Z; tc_Connections : Z; tc_Active : Z; tc_Spliced : Z; tc_Buffered : Z
}.

Definition countersOf (s : Snapshot) : TrafficCounters :=
  let active := if s_Active s <? 0 then 0 else s_Active s in
  MkTrafficCounters (s_BytesIn s) (s_BytesOut s) (s_Connections s) active (s_Spliced s) (s_Buffered s).

(** ** The daily table (repo/traffic.go) *)

Record Daily := MkDaily { d_in : Z; d_out : Z; d_conns : Z; d_updated : Z }.

(** The upsert of [Traffic.Add]; [works] is whether the statement succeeds. *)
Definition Add (works : bool) (day tunnel : bytes) (inn out conns now : Z)
  (t : gmap (bytes * bytes) Daily) : bool * gmap (bytes * bytes) Daily :=
  if (inn =? 0) && (out =? 0) && (conns =? 0) then (true, t)
  else if negb works then (false, t)
  else (true, <[(day, tunnel) :=
    match t !! (day, tunnel) with
    | Some d => MkDaily (d_in d + inn) (d_out d + out) (d_conns d + conns) now
    | None => MkDaily inn out conns now
    end]> t).

(** Days are compared as the strings they are. *)
Definition Prune (works : bool) (keepDays : Z) (cutoff : bytes) (t : gmap (bytes * bytes) Daily)
  : bool * gmap (bytes * bytes) Daily :=
  if keepDays <? 1 then (true, t)
  else if works then (true, filter (fun kv => bytes_ltb kv.1.1 cutoff = false) t) else (false, t).

(** [Traffic.Totals]: the sums of a tunnel since a day. *)
Definition sum_step (f : Daily -> Z) (since tunnel : bytes) (k : bytes * bytes) (d : Daily) (acc : Z) : Z :=
  if bool_decide (k.2 = tunnel) && negb (bytes_ltb k.1 since) then f d + acc else acc.
Definition sum_of (f : Daily -> Z) (since tunnel : bytes) (t : gmap (bytes * bytes) Daily) : Z :=
  map_fold (sum_step f since tunnel) 0 t.

(** ** The history (history.go) *)

Record TrafficHistory := MkHistory {
  last : gmap bytes Snapshot;
  table : gmap (bytes * bytes) Daily
}.

Definition no_snapshot : Snapshot := MkSnapshot [] 0 0 0 0 0 0 None.

(** One tunnel of [record]. *)
Definition record_one (works : bytes -> bool) (day : bytes) (now : Z) (h : TrafficHistory)
  (current : Snapshot) : TrafficHistory :=
  let previous := default no_snapshot (last h !! s_Name current) in
  let inn := i64 (s_BytesIn current - s_BytesIn previous) in
  let out := i64 (s_BytesOut current - s_BytesOut previous) in
  let conns := i64 (s_Connections current - s_Connections previous) in
  let '(inn, out, conns) :=
    if (inn <? 0) || (out <? 0) || (conns <? 0)
    then (s_BytesIn current, s_BytesOut current, s_Connections current) else (inn, out, conns) in
  let '(ok, t) := Add (works (s_Name current)) day (s_Name current) inn out conns now (table h) in
  if ok then MkHistory (<[s_Name current := current]> (last h)) t else MkHistory (last h) t.

Definition record (works : bytes -> bool) (day : bytes) (now : Z) (r : gmap bytes Counters)
  (h : TrafficHistory) : TrafficHistory :=
  foldl (record_one works day now) h (All r).

(** ** The counters add up *)

Inductive event : Type :=
  | Progress (name : bytes) (inn out now : Z)
  | Closed (name : bytes) (spliced : bool) (now : Z)
  | Opened (name : bytes)
  | Left (name : bytes)
  | Tick (day : bytes) (works : bytes -> bool) (now : Z).

Definition step (e : event) (st : gmap bytes Counters * TrafficHistory)
  : gmap bytes Counters * TrafficHistory :=
  match e with
  | Progress n i o now => (RecordProgress n i o now st.1, st.2)
  | Closed n sp now => (RecordClose n sp now st.1, st.2)
  | Opened n => (Open n st.1, st.2)
  | Left n => (Close n st.1, st.2)
  | Tick day works now => (st.1, record works day now st.1 st.2)
  end.

Definition run (es : list event) : gmap bytes Counters * TrafficHistory :=
  foldl (fun st e => step e st) (NewRegistry, MkHistory ∅ ∅) es.

(** What the events carried for a tunnel, by the events alone: bytes in, bytes
    out and connections. *)
Definition carried (name : bytes) (e : event) : Z * Z * Z :=
  match e with
  | Progress n i o _ => if bool_decide (n = name) then (i, o, 0) else (0, 0, 0)
  | Closed n _ _ => if bool_decide (n = name) then (0, 0, 1) else (0, 0, 0)
  | _ => (0, 0, 0)
  end.

Definition plus3 (a b : Z * Z * Z) : Z * Z * Z :=
  (a.1.1 + b.1.1, a.1.2 + b.1.2, a.2 + b.2).
Definition le3 (a b : Z * Z * Z) : Prop := a.1.1 <= b.1.1 /\ a.1.2 <= b.1.2 /\ a.2 <= b.2.
Definition i64_3 (a : Z * Z * Z) : Z * Z * Z := (i64 a.1.1, i64 a.1.2, i64 a.2).

Definition total_carried (name : bytes) (es : list event) : Z * Z * Z :=
  foldl (fun s e => plus3 s (carried name e)) (0, 0, 0) es.

(** Amounts are what a relay reports: not negative. *)
Definition fair (e : event) : Prop :=
  match e with Progress _ i o _ => 0 <= i /\ 0 <= o | _ => True end.

Definition counted (c : Counters) : Z * Z * Z := (BytesIn c, BytesOut c, Connections c).
Definition counts (s : Snapshot) : Z * Z * Z := (s_BytesIn s, s_BytesOut s, s_Connections s).

(** What the table holds for a tunnel, over all days. *)
Definition stored (name : bytes) (t : gmap (bytes * bytes) Daily) : Z * Z * Z :=
  (sum_of d_in [] name t, sum_of d_out [] name t, sum_of d_conns [] name t).

Lemma total_carried_snoc name es e :
  total_carried name (es ++ [e]) = plus3 (total_carried name es) (carried name e).
Proof. unfold total_carried. by rewrite foldl_app. Qed.

Lemma lookup_update name f r n :
  update name f r !! n
  = if decide (n = name) then Some (f (default zero_counters (r !! name))) else r !! n.
Proof.
  unfold update, For. destruct (r !! name) as [c|] eqn:E; simpl; case_decide; subst;
    by rewrite ?lookup_insert_eq, ?lookup_insert_ne by done.
Qed.

(** The counters are the events' sums, reduced to [int64]. *)
Lemma run_counted es name :
  counted (default zero_counters ((run es).1 !! name)) = i64_3 (total_carried name es).
Proof.
  unfold run. induction es as [|e es IH] using rev_ind; [done|].
  rewrite foldl_app, total_carried_snoc. cbn [foldl]. destruct (foldl _ _ es) as [r h]. cbn [fst] in IH.
  assert (forall a, plus3 a (0, 0, 0) = a) as Hz
    by (intros [[a b] c]; unfold plus3; simpl; by rewrite !Z.add_0_r).
  destruct e as [n i o now|n sp now|n|n|day works now]; cbn [step carried fst].
  - unfold RecordProgress. destruct ((i =? 0) && (o =? 0)) eqn:E0.
    + apply andb_true_iff in E0 as [->%Z.eqb_eq ->%Z.eqb_eq]. rewrite IH.
      case_bool_decide; by rewrite Hz.
    + rewrite lookup_update. case_decide as Hn.
      * subst n. rewrite bool_decide_true by done. simpl. injection IH as I1 I2 I3.
        unfold counted, i64_3, plus3. simpl. by rewrite I1, I2, I3, !i64_plus_l, Z.add_0_r.
      * rewrite bool_decide_false by congruence. by rewrite Hz.
  - unfold RecordClose. rewrite lookup_update. case_decide as Hn.
    + subst n. rewrite bool_decide_true by done. simpl. injection IH as I1 I2 I3.
      unfold counted, i64_3, plus3. simpl. by rewrite I1, I2, I3, !i64_plus_l, !Z.add_0_r.
    + rewrite bool_decide_false by congruence. by rewrite Hz.
  - rewrite Hz. unfold Open. rewrite lookup_update. case_decide as Hn; [subst n; exact IH|exact IH].
  - rewrite Hz. unfold Close. rewrite lookup_update. case_decide as Hn; [subst n; exact IH|exact IH].
  - by rewrite Hz.
Qed.

(** ** The table *)

Lemma sum_of_fresh f name k d t :
  t !! k = None ->
  sum_of f [] name (<[k := d]> t) = (if bool_decide (k.2 = name) then f d else 0) + sum_of f [] name t.
Proof.
  intros Hk. unfold sum_of. rewrite map_fold_insert_L; [|intros; unfold sum_step; repeat case_match; lia|done].
  unfold sum_step at 1. replace (bytes_ltb k.1 []) with false by (by destruct k.1).
  rewrite andb_true_r. case_bool_decide; lia.
Qed.

Lemma sum_of_insert f name day tunnel d t :
  sum_of f [] name (<[(day, tunnel) := d]> t)
  = sum_of f [] name t
    + (if bool_decide (tunnel = name)
       then f d - match t !! (day, tunnel) with Some o => f o | None => 0 end else 0).
Proof.
  destruct (t !! (day, tunnel)) as [o|] eqn:E.
  - rewrite <- insert_delete_eq, sum_of_fresh by apply lookup_delete_eq.
    rewrite <- (insert_delete_id t (day, tunnel) o) at 2 by done.
    rewrite sum_of_fresh by apply lookup_delete_eq. simpl. case_bool_decide; lia.
  - rewrite sum_of_fresh by done. simpl. case_bool_decide; lia.
Qed.

Lemma stored_Add works day tunnel i o c now t ok t' name :
  Add works day tunnel i o c now t = (ok, t') ->
  stored name t' = if ok && bool_decide (tunnel = name) then plus3 (stored name t) (i, o, c) else stored name t.
Proof.
  unfold Add. destruct ((i =? 0) && (o =? 0) && (c =? 0)) eqn:E.
  - rewrite !andb_true_iff, !Z.eqb_eq in E. destruct E as [[-> ->] ->]. intros [= <- <-].
    unfold stored, plus3. simpl. rewrite !Z.add_0_r. by case_bool_decide.
  - destruct works; intros [= <- <-]; [|done]. unfold stored, plus3. rewrite !sum_of_insert. simpl.
    destruct (t !! (day, tunnel)); simpl; case_bool_decide; repeat f_equal; lia.
Qed.

(** ** The history follows the counters *)

(** The history is behind the counters [R], and the table is what was last seen. *)
Definition follows (R : bytes -> Z * Z * Z) (h : TrafficHistory) : Prop :=
  forall n, counts (default no_snapshot (last h !! n)) = stored n (table h)
    /\ le3 (0, 0, 0) (stored n (table h)) /\ le3 (stored n (table h)) (R n).

Definition in_range (R : bytes -> Z * Z * Z) : Prop := forall n, le3 (R n) (max_i64, max_i64, max_i64).

Lemma record_one_follows works day now R h s :
  in_range R -> follows R h -> counts s = R (s_Name s) ->
  let h' := record_one works day now h s in
  follows R h'
  /\ (forall n, stored n (table h') = stored n (table h) \/ stored n (table h') = R n)
  /\ (works (s_Name s) = true -> stored (s_Name s) (table h') = R (s_Name s)).
Proof.
  intros HR Hh Hs. destruct (Hh (s_Name s)) as (E & Hpos & Hle). pose proof (HR (s_Name s)) as Hmax.
  cbv zeta. unfold record_one. set (p := default no_snapshot (last h !! s_Name s)) in *.
  rewrite <- Hs in *. rewrite <- E in Hpos, Hle. unfold le3, counts in Hpos, Hle, Hmax. simpl in Hpos, Hle, Hmax.
  rewrite !i64_id by (unfold in_i64, min_i64; lia).
  rewrite (proj2 (Z.ltb_ge (_ - s_BytesIn p) 0)), (proj2 (Z.ltb_ge (_ - s_BytesOut p) 0)),
    (proj2 (Z.ltb_ge (_ - s_Connections p) 0)) by lia. cbn [orb].
  destruct (Add _ day (s_Name s) _ _ _ now (table h)) as [ok t] eqn:EA.
  assert (works (s_Name s) = true -> ok = true) as Hok.
  { intros Hw. rewrite Hw in EA. unfold Add in EA. simpl in EA. by case_match; injection EA as <- _. }
  assert (plus3 (counts p) (s_BytesIn s - s_BytesIn p, s_BytesOut s - s_BytesOut p,
      s_Connections s - s_Connections p) = counts s) as Ep.
  { unfold plus3, counts. simpl. repeat f_equal; lia. }
  assert (forall n, stored n t = if ok && bool_decide (s_Name s = n) then counts s else stored n (table h)) as Hst.
  { intros n. rewrite (stored_Add _ _ _ _ _ _ _ _ _ _ n EA). destruct ok; [|done]. cbn [andb].
    case_bool_decide; subst; [by rewrite <- E|done]. }
  split; [|split].
  - intros n. destruct ok; cbn [last table]; rewrite Hst; cbn [andb]; [|apply Hh].
    case_bool_decide as Hn; [subst n; rewrite lookup_insert_eq|rewrite lookup_insert_ne by done; apply Hh].
    cbn [default]. split; [done|]. rewrite <- Hs. unfold le3, counts. simpl. lia.
  - intros n. assert (table (if ok then MkHistory (<[s_Name s:=s]> (last h)) t else MkHistory (last h) t) = t)
      as -> by (by destruct ok). rewrite Hst. destruct ok; [|by left]. cbn [andb].
    case_bool_decide; subst; [right; done|by left].
  - intros Hw. rewrite (Hok Hw) in *. cbn [table]. by rewrite Hst, bool_decide_true.
Qed.

Lemma record_list_follows works day now R h l :
  in_range R -> follows R h -> Forall (fun s => counts s = R (s_Name s)) l ->
  let h' := foldl (record_one works day now) h l in
  follows R h' /\ (forall n, stored n (table h) = R n -> stored n (table h') = R n)
  /\ (forall s, s ∈ l -> works (s_Name s) = true -> stored (s_Name s) (table h') = R (s_Name s)).
Proof.
  intros HR. revert h. induction l as [|s l IH]; intros h Hh Hl; [split_and!; [done|done|set_solver]|].
  apply Forall_cons in Hl as [Hs Hl]. cbn [foldl].
  destruct (record_one_follows works day now R h s HR Hh Hs) as (H1 & H2 & H3).
  destruct (IH _ H1 Hl) as (I1 & I2 & I3). split; [done|]. split.
  - intros n Hn. apply I2. destruct (H2 n) as [->|]; done.
  - intros s' [->|Hs']%elem_of_cons Hw; [|by apply I3]. by apply I2, H3.
Qed.

Lemma All_spec r s : s ∈ All r <-> exists n c, r !! n = Some c /\ s = snapshotOf n c.
Proof.
  unfold All. rewrite (merge_sort_Permutation _ _), list_elem_of_fmap. split.
  - intros ([n c] & -> & H%elem_of_map_to_list). by exists n, c.
  - intros (n & c & H & ->). exists (n, c). split; [done|]. by apply elem_of_map_to_list.
Qed.

Lemma le3_trans a b c : le3 a b -> le3 b c -> le3 a c.
Proof. unfold le3. lia. Qed.

Lemma total_carried_grows name es e :
  fair e -> le3 (total_carried name es) (total_carried name (es ++ [e])).
Proof.
  intros He. rewrite total_carried_snoc. unfold le3, plus3.
  destruct e; simpl in *; try case_bool_decide; simpl; lia.
Qed.

Lemma total_carried_nonneg name es : Forall fair es -> le3 (0, 0, 0) (total_carried name es).
Proof.
  induction es as [|e es IH] using rev_ind; [done|]. intros [He H]%Forall_app.
  apply le3_trans with (total_carried name es); [by apply IH|]. apply total_carried_grows. by inversion H.
Qed.

Lemma run_follows es :
  Forall fair es -> in_range (fun n => total_carried n es) ->
  follows (fun n => total_carried n es) (run es).2.
Proof.
  induction es as [|e es IH] using rev_ind; intros Hf HR.
  { intros n. unfold run, stored, sum_of. simpl. rewrite lookup_empty. done. }
  apply Forall_app in Hf as [Hf He]. apply Forall_cons in He as [He _].
  assert (in_range (fun n => total_carried n es)) as HR'.
  { intros n. eapply le3_trans; [by apply total_carried_grows|apply HR]. }
  specialize (IH Hf HR').
  assert (follows (fun n => total_carried n (es ++ [e])) (run es).2) as IH'.
  { intros n. destruct (IH n) as (? & ? & ?). split_and!; [done|done|].
    eapply le3_trans; [done|]. by apply total_carried_grows. }
  unfold run in *. rewrite foldl_app. cbn [foldl].
  pose proof (run_counted es) as Hc. unfold run in Hc. destruct (foldl _ _ es) as [r h]. cbn [fst snd] in *.
  destruct e as [n i o now|n sp now|n|n|day works now]; cbn [step snd]; try exact IH'.
  apply record_list_follows; [done|done|]. apply Forall_forall. intros s (n & c & Hn & ->)%All_spec.
  specialize (Hc n). cbn [fst] in Hc, Hn. rewrite Hn in Hc. simpl default in Hc.
  change (counts (snapshotOf n c)) with (counted c). rewrite Hc. cbn [s_Name snapshotOf].
  rewrite total_carried_snoc. specialize (HR' n). pose proof (total_carried_nonneg n es Hf).
  unfold i64_3, plus3, le3 in *. destruct (total_carried n es) as [[a b] d]. simpl in *.
  rewrite !i64_id by (unfold in_i64, min_i64; lia). by rewrite !Z.add_0_r.
Qed.

(** No traffic is lost or counted twice on its way to the daily table,
    whatever the store does: after any sequence of transfers and recordings, in
    which any statement may fail, the table never holds more for a tunnel, over
    all days, than the tunnel carried; and after a recording in which the
    tunnel's statement succeeds it holds exactly that, bytes in, bytes out and
    connections, whatever failed before. *)
Theorem history_exact es day works now name :
  Forall fair es -> in_range (fun n => total_carried n es) ->
  le3 (stored name (table (run es).2)) (total_carried name es)
  /\ (works name = true ->
      stored name (table (run (es ++ [Tick day works now])).2) = total_carried name es).
Proof.
  intros Hf HR. pose proof (run_follows es Hf HR) as Hh. split; [apply Hh|]. intros Hw.
  unfold run in *. rewrite foldl_app. cbn [foldl].
  pose proof (run_counted es) as Hc. unfold run in Hc. destruct (foldl _ _ es) as [r h]. cbn [fst snd step] in *.
  assert (forall n, counted (default zero_counters (r !! n)) = total_carried n es) as Hr.
  { intros n. specialize (Hc n). cbn [fst] in Hc. rewrite Hc. specialize (HR n). pose proof (total_carried_nonneg n es Hf).
    unfold i64_3, le3 in *. destruct (total_carried n es) as [[a b] d]. simpl in *.
    by rewrite !i64_id by (unfold in_i64, min_i64; lia). }
  assert (Forall (fun s => counts s = total_carried (s_Name s) es) (All r)) as Hall.
  { apply Forall_forall. intros s (n & c & Hn & ->)%All_spec. specialize (Hr n). by rewrite Hn in Hr. }
  destruct (record_list_follows works day now _ h (All r) HR Hh Hall) as (_ & I2 & I3).
  specialize (Hr name). destruct (r !! name) as [c|] eqn:En.
  - apply (I3 (snapshotOf name c)); [|done]. apply All_spec. by exists name, c.
  - apply I2. destruct (Hh name) as (_ & H1 & H2). simpl default in Hr. rewrite <- Hr in H2 |- *.
    unfold le3, counted in *. destruct (stored name (table h)) as [[a b] d]. simpl in *.
    repeat f_equal; lia.
Qed.

(** ** Example *)

Definition example_events : list event :=
  [Opened (go "web"); Progress (go "web") 100 7 1; Tick (go "2026-01-01") (fun _ => false) 2;
   Progress (go "web") 5 0 3; Closed (go "web") true 4; Left (go "web")].

Lemma history_exact_witness :
  (forall n, le3 (total_carried n example_events) (max_i64, max_i64, max_i64))
  /\ stored (go "web") (table (run example_events).2) = (0, 0, 0)
  /\ stored (go "web") (table (run (example_events ++ [Tick (go "2026-01-02") (fun _ => true) 5])).2)
     = (105, 7, 1).
Proof.
  assert (in_range (fun n => total_carried n example_events)) as HR.
  { intros n. unfold total_carried, example_events, le3, max_i64. cbn [foldl carried].
    case_bool_decide; unfold plus3; simpl; lia. }
  split; [exact HR|]. split; [vm_compute; reflexivity|].
  assert (Forall fair example_events) as Hf by (repeat constructor; simpl; lia).
  transitivity (total_carried (go "web") example_events); [|vm_compute; reflexivity].
  exact (proj2 (history_exact example_events (go "2026-01-02") (fun _ => true) 5 (go "web") Hf HR) eq_refl).
Defined.
