(* ===== verification/Relay.v ===== *)
(** The relay of a visitor and what is kept of it: [RelayWith]
    ([pkg/netutil/splice.go]), the visitors of a TCP proxy
    ([server/proxy/tcp.go], [handle]) and the end of a virtual host's [handle]
    and [terminate] ([server/vhost.go]).

    A connection that is relayed is the script of what it will deliver
    ([Limiter.source]) and of where its writes start to fail ([Limiter.sink]).
    The two copies run in goroutines of their own: their progress reports come in
    an order the schedule [picks]. *)
From S2P Require Import Prelude GoStrings Stream Messages Protocol Pattern Router Sniff Challenge CertStore Session Config Server Limiter Stats.

(** ** [RelayWith] *)

(** Two sequences of reports as they interleave; what the schedule leaves is
    reported in order. *)
Fixpoint weave {A} (picks : list bool) (a b : list A) : list A :=
  match picks with
  | [] => a ++ b
  | true :: picks => match a with x :: a => x :: weave picks a b | [] => b end
  | false :: picks => match b with y :: b => y :: weave picks a b | [] => a end
  end.

Record relayed := MkRelayed {
  AToB : bytes;               (* what reached the second connection *)
  BToA : bytes;
  reports : list (Z * Z);     (* the calls of [Progress] *)
  spliced : bool
}.

(** The bytes themselves stand for the counts of [RelayStats]; [toB] and [toA]
    are the writing sides of the two connections. *)
Definition RelayWith (splice : bool) (aToB bToA : option Limiter) (picks : list bool) (a b : source) (toB toA : sink)
  : option relayed :=
  x ← copyStream aToB true a toB;
  y ← copyStream bToA true b toA;
  Some (MkRelayed (c_out x) (c_out y)
    (weave picks ((fun n => (n, 0)) <$> c_progress x) ((fun n => (0, n)) <$> c_progress y)) splice).

(** ** The books: the limits of the session and the server's statistics *)

Record books := MkBooks { b_limits : Limits.Limits; b_stats : gmap bytes Counters }.

(** The [Progress] callback, given the tunnel's limits by pointer; [now] is
    Unix time. *)
Definition progress (p : option nat) (name : bytes) (now : Z) (n : Z * Z) (b : books) : books :=
  MkBooks (Limits.Spend p (i64 (n.1 + n.2)) (b_limits b)) (RecordProgress name n.1 n.2 now (b_stats b)).

(** The callback of a TCP proxy looks its limits up each time. *)
Definition tcp_progress (name : bytes) (now : Z) (n : Z * Z) (b : books) : books :=
  progress (Limits.For name (b_limits b)) name now n b.

(** All reports, at the times the clock shows; then the close. *)
Fixpoint report (f : Z -> Z * Z -> books -> books) (clock : nat -> Z) (rs : list (Z * Z)) (b : books) : books :=
  match rs with
  | [] => b
  | n :: rs => report f (fun i => clock (S i)) rs (f (clock 0%nat) n b)
  end.

Definition record_close (name : bytes) (splice : bool) (now : Z) (b : books) : books :=
  MkBooks (b_limits b) (RecordClose name splice now (b_stats b)).

(** ** What the network does during a visit *)

Record network := MkNetwork {
  n_splice : bool;               (* both connections are TCP and the kernel splices *)
  n_picks : list bool;
  n_clock : nat -> Z;
  n_closed_at : Z;
  n_work : source;               (* what the work connection will deliver *)
  n_to_client : sink;            (* writing to the work connection *)
  n_to_visitor : sink;           (* writing to the visitor *)
  n_head : bool;                 (* a virtual host: the head could be sent ahead *)
  n_lifted : bool;               (* and the deadline of the sniffing be lifted *)
  n_pauses : list bool           (* after which of the visitor's deliveries a read timed out *)
}.

(** The limits of a session, replaced. *)
Definition with_limits (sid : N) (l : Limits.Limits) (st : State) : State :=
  match sessions st !! sid with
  | Some s => set_sessions (<[sid := set_proxies (proxies s) l s]> (sessions st)) st
  | None => st
  end.

Definition limits_of (sid : N) (st : State) : Limits.Limits :=
  match sessions st !! sid with Some s => limits s | None => Limits.NewLimits end.

(** Relaying a visitor that holds [user] to the tunnel [name] of the session
    [sid], and keeping the books with [f]. *)
Definition relay_visit (f : Z -> Z * Z -> books -> books) (p : option nat) (sid : N) (name : bytes) (user : source)
  (net : network) (st : State) (reg : gmap bytes Counters) : option (relayed * State * gmap bytes Counters) :=
  let '(toClient, toVisitor) := Limits.Rates p (limits_of sid st) in
  r ← RelayWith (n_splice net) toClient toVisitor (n_picks net) user (n_work net) (n_to_client net) (n_to_visitor net);
  let b := record_close name (spliced r) (n_closed_at net)
             (report f (n_clock net) (reports r) (MkBooks (limits_of sid st) reg)) in
  Some (r, with_limits sid (b_limits b) st, b_stats b).

(** ** A visitor of a TCP proxy *)

Inductive tcp_visit : Type :=
  | TcpExhausted
  | TcpNoWork
  | TcpWaiting
  | TcpRelayed (conn : N) (r : relayed).

(** [tcpProxy.handle]; both connections are closed when it returns. *)
Definition tcp_handle (sid : N) (name source : bytes) (user : Limiter.source) (d : dial) (net : network) (st : State)
  (reg : gmap bytes Counters) : option (tcp_visit * State * gmap bytes Counters) :=
  let l := limits_of sid st in
  if Limits.Exhausted (Limits.For name l) l then Some (TcpExhausted, st, reg)
  else
    match GetWorkConn sid name source d st with
    | (Failed _, st) => Some (TcpNoWork, st, reg)
    | (Waiting, st) => Some (TcpWaiting, st, reg)
    | (Got w, st) =>
        '(r, st, reg) ← relay_visit (tcp_progress name) (Limits.For name (limits_of sid st)) sid name user net st reg;
        Some (TcpRelayed w r, st, reg)
    end.

(** ** A visitor of a virtual host, from its first byte to the end *)

(** What is left on a connection after its head was read, as the copy loop meets
    it: delivery by delivery, until it ends or fails; the read deadline passes
    where the visitor pauses. *)
Fixpoint unread (pauses : list bool) (c : conn) : source :=
  match c with
  | [] => [([], StopEOF)]
  | (b, Some EOF) :: _ => [(b, StopEOF)]
  | (b, Some e) :: _ => [(b, StopErr e)]
  | (b, None) :: c =>
      match pauses with
      | true :: pauses => (b, StopTimeout) :: unread pauses c
      | _ =>
          match unread (tail pauses) c with
          | (b', s) :: rest => (b ++ b', s) :: rest
          | [] => [(b, StopEOF)]
          end
      end
  end.

(** [replayConn.Read]: the consumed bytes first, then the connection. *)
Definition replay_read (k : nat) (replay : bytes) (c : conn) : bytes * option ioerr * bytes * conn :=
  match replay with
  | [] => let '(b, e, c) := Read k c in (b, e, [], c)
  | _ => (take k replay, None, drop k replay, c)
  end.

Inductive vhost_visit : Type :=
  | NotServed (v : visit)
  | Abandoned (conn : N)
  | HandshakeFailed (conn : N)
  | Relayed (conn : N) (first : bytes) (r : relayed).

Section vhost.
Context `{Unicode} `{Idna} `{X509}.

(** The relay of a visitor that is let through to a route. *)
Definition relay_route (w : N) (first : bytes) (route : Route) (user : Limiter.source) (net : network)
  (st st' : State) (reg : gmap bytes Counters) : option (vhost_visit * State * gmap bytes Counters) :=
  match Registry.Get (Router.RunID route) st with
  | None => None
  | Some sid =>
      let name := r_ProxyName route in
      let p := Limits.For name (limits_of sid st) in
      '(r, st', reg) ← relay_visit (progress p name) p sid name user net st' reg;
      Some (Relayed w first r, st', reg)
  end.

(** [terminate], with a certificate for the host: [handshake] is crypto/tls
    answering on what [replayConn] reads: what the visitor then sends in clear,
    or [None]. *)
Definition terminate (handshake : conn -> option Limiter.source) (w : N) (consumed : bytes) (c : conn) (route : Route)
  (net : network) (st st' : State) (reg : gmap bytes Counters) : option (vhost_visit * State * gmap bytes Counters) :=
  match handshake ((consumed, None) :: c) with
  | None => Some (HandshakeFailed w, st', reg)
  | Some user => relay_route w [] route user net st st' reg
  end.

(** [handle] to its end: the head is sent ahead, the deadline lifted, and the
    rest relayed. *)
Definition vhost_serve (scheme source : bytes) (cap : nat) (c : conn) (now : Z) (d : dial)
  (handshake : conn -> option Limiter.source) (net : network) (st : State) (reg : gmap bytes Counters)
  : option (vhost_visit * State * gmap bytes Counters) :=
  let '(v, st') := handle scheme source cap c now d st in
  match v with
  | Forwarded w first route =>
      if negb (bool_decide (first = [])) && negb (n_head net) then Some (Abandoned w, st', reg)
      else if negb (n_lifted net) then Some (Abandoned w, st', reg)
      else relay_route w first route (unread (n_pauses net) (left_on scheme cap c)) net st st' reg
  | Terminated w consumed route => terminate handshake w consumed (left_on scheme cap c) route net st st' reg
  | v => Some (NotServed v, st', reg)
  end.
End vhost.

(** The replaying connection reads like one that has the bytes in store. *)
Lemma replay_read_spec k replay c :
  replay <> [] ->
  let '(b, e, replay', c') := replay_read k replay c in
  b ++ replay' ++ sent c' = replay ++ sent c /\ sent ((replay', None) :: c') = (replay' ++ sent c')%list
  /\ e = None /\ (length b <= k)%nat.
Proof.
  destruct replay as [|x replay]; [done|]. intros _. cbn [replay_read]. split_and!; try done.
  - by rewrite app_assoc, take_drop.
  - rewrite length_take. lia.
Qed.

(** ** Every byte is counted once *)

Lemma unread_delivers pauses c : (delivered true (unread pauses c)).1 = sent c.
Proof.
  revert pauses. induction c as [|[b [e|]] c IH]; intros pauses; [done|by destruct e|]. cbn [unread sent].
  assert (Hjoin : forall ps, (delivered true (match unread ps c with (b', s) :: rest => (b ++ b', s) :: rest | [] => [(b, StopEOF)] end)).1
                   = b ++ sent c).
  { intros ps. rewrite <- (IH ps). destruct (unread ps c) as [|[b' s] rest]; [cbn; by rewrite app_nil_r|].
    cbn [delivered]. destruct s; cbn [fst]; try done. destruct (delivered true rest). cbn [fst]. by rewrite <- app_assoc. }
  destruct pauses as [|[] pauses]; try apply Hjoin.
  cbn [delivered]. specialize (IH pauses). destruct (delivered true (unread pauses c)). cbn [fst] in *. by rewrite IH.
Qed.

Lemma copy_loop_positive fuel k src dst r : copy_loop fuel k true src dst = Some r -> Forall (fun n => 0 < n) (c_progress r).
Proof.
  revert src dst r; induction fuel as [|fuel IH]; intros src dst r; cbn [copy_loop]; [done|].
  destruct (copy_once k src dst) as [[[n err] rest] dst'].
  assert (forall x, Forall (fun n => 0 < n) (c_progress x) -> Forall (fun n => 0 < n) (c_progress (more_copied n true x))) as Hm.
  { intros x Hx. cbn. destruct (Z.ltb_spec 0 (Z.of_nat (length n))); [by constructor|done]. }
  assert (forall x, more_copied n true <$> copy_loop fuel k true rest dst' = Some x -> Forall (fun n => 0 < n) (c_progress x)) as Hrec.
  { intros x. destruct (copy_loop fuel k true rest dst') as [y|] eqn:E; [|done]. intros [= <-]. by apply Hm, (IH _ _ _ E). }
  destruct err as [e|]; [destruct (true && _)|destruct (_ <? _)]; try apply Hrec; intros [= <-]; apply Hm; constructor.
Qed.

Lemma tracked_copy limit src dst :
  exists r, copyStream limit true src dst = Some r /\ c_out r = accepted dst (delivered true src).1
    /\ total_size (c_progress r) = Z.of_nat (length (c_out r)) /\ Forall (fun n => 0 < n) (c_progress r).
Proof.
  assert (forall k, 0 < k -> exists r, copy_loop (source_fuel src) k true src dst = Some r
    /\ c_out r = accepted dst (delivered true src).1
    /\ total_size (c_progress r) = Z.of_nat (length (c_out r)) /\ Forall (fun n => 0 < n) (c_progress r)) as Hk.
  { intros k Hk. destruct (copy_loop_spec (source_fuel src) k true src dst Hk) as (r & Hr & (Ho & _ & _ & Hp) & _);
      [unfold source_fuel, src_size; lia|]. exists r. rewrite Ho. split_and!; [done|done|by apply Hp|by eapply copy_loop_positive]. }
  destruct limit as [l|]; cbn [copyStream]; apply Hk; [apply chunk_pos|done].
Qed.

Definition sums (rs : list (Z * Z)) : Z * Z := (total_size (fst <$> rs), total_size (snd <$> rs)).

Lemma total_size_app a b : total_size (a ++ b) = total_size a + total_size b.
Proof. unfold total_size. induction a as [|x a IH]; cbn; lia. Qed.

Lemma weave_total {A} (f : A -> Z) picks a b :
  total_size (f <$> weave picks a b) = total_size (f <$> a) + total_size (f <$> b).
Proof.
  revert a b; induction picks as [|[] picks IH]; intros a b; cbn [weave].
  - by rewrite fmap_app, total_size_app.
  - destruct a as [|x a]; [done|]. cbn. fold (total_size (f <$> weave picks a b)). rewrite IH. unfold total_size. lia.
  - destruct b as [|y b]; cbn; [lia|]. fold (total_size (f <$> weave picks a b)). rewrite IH. unfold total_size. lia.
Qed.

Lemma weave_forall {A} (P : A -> Prop) picks a b : Forall P a -> Forall P b -> Forall P (weave picks a b).
Proof.
  revert a b; induction picks as [|[] picks IH]; intros a b Ha Hb; cbn [weave]; [by apply Forall_app|..].
  - destruct Ha; [done|]. constructor; auto.
  - destruct Hb; [done|]. constructor; auto.
Qed.

Definition forward_only (n : Z * Z) : Prop := 0 <= n.1 /\ 0 <= n.2.

Lemma RelayWith_spec splice l1 l2 picks a b toB toA :
  exists r, RelayWith splice l1 l2 picks a b toB toA = Some r
    /\ AToB r = accepted toB (delivered true a).1 /\ BToA r = accepted toA (delivered true b).1 /\ spliced r = splice
    /\ sums (reports r) = (Z.of_nat (length (AToB r)), Z.of_nat (length (BToA r)))
    /\ Forall forward_only (reports r).
Proof.
  destruct (tracked_copy l1 a toB) as (x & Hx & Ho & Ht & Hp), (tracked_copy l2 b toA) as (y & Hy & Ho' & Ht' & Hp').
  unfold RelayWith. rewrite Hx, Hy. cbn. eexists. split; [done|]. cbn. split_and!; try done.
  - unfold sums. rewrite !weave_total. rewrite <- !list_fmap_compose. unfold compose. cbn.
    rewrite !list_fmap_id, <- Ht, <- Ht'.
    assert (forall l : list Z, total_size ((fun _ => 0) <$> l) = 0) as H0 by (induction l as [|? ? IH]; [done|exact IH]).
    rewrite !H0. f_equal; lia.
  - apply weave_forall; apply Forall_fmap; (eapply Forall_impl; [eassumption|]); unfold forward_only; cbn; intros; lia.
Qed.

(** The counters of a tunnel, modulo the width of their words. *)
Definition counted_of (name : bytes) (reg : gmap bytes Counters) : Z * Z * Z :=
  i64_3 (counted (default zero_counters (reg !! name))).

Definition add3 (a b : Z * Z * Z) : Z * Z * Z := i64_3 (plus3 a b).

Lemma i64_i64 x : i64 (i64 x) = i64 x.
Proof. apply i64_id, i64_range. Qed.

Lemma add3_assoc a b c : add3 (add3 a b) c = add3 a (plus3 b c).
Proof.
  destruct a as [[a1 a2] a3], b as [[b1 b2] b3], c as [[c1 c2] c3]. unfold add3, i64_3, plus3. cbn.
  rewrite !i64_plus_l. by rewrite <- !Z.add_assoc.
Qed.

Lemma counted_update name f reg other d :
  (forall c, i64_3 (counted (f c)) = add3 (i64_3 (counted c)) d) ->
  counted_of other (update name f reg) = if decide (other = name) then add3 (counted_of name reg) d else counted_of other reg.
Proof. intros Hf. unfold counted_of. rewrite lookup_update. case_decide as E; [|done]. cbn. by rewrite Hf. Qed.

Lemma RecordProgress_counted name i o now reg other :
  counted_of other (RecordProgress name i o now reg)
  = if decide (other = name) then add3 (counted_of name reg) (i, o, 0) else counted_of other reg.
Proof.
  unfold RecordProgress. destruct (Z.eqb_spec i 0) as [->|], (Z.eqb_spec o 0) as [->|]; cbn [andb];
    try (apply counted_update; intros c; unfold add3, i64_3, plus3, counted; cbn; by rewrite !i64_i64, !i64_plus_l, !Z.add_0_r).
  case_decide as E; [|done]. subst. unfold counted_of, add3, i64_3, plus3. cbn. by rewrite !Z.add_0_r, !i64_i64.
Qed.

Lemma RecordClose_counted name splice now reg other :
  counted_of other (RecordClose name splice now reg)
  = if decide (other = name) then add3 (counted_of name reg) (0, 0, 1) else counted_of other reg.
Proof.
  unfold RecordClose. apply counted_update. intros c. unfold add3, i64_3, plus3, counted. cbn.
  rewrite !i64_i64, !i64_plus_l, !Z.add_0_r. by destruct splice.
Qed.

(** What a callback does to the books, whichever way it finds the limits. *)
Definition keeps_books (p : option nat) (name : bytes) (f : Z -> Z * Z -> books -> books) (l : Limits.Limits) : Prop :=
  forall now n b, Limits.tunnels (b_limits b) = Limits.tunnels l -> f now n b = progress p name now n b.

Lemma report_stats p name f clock rs b other :
  keeps_books p name f (b_limits b) ->
  counted_of other (b_stats (report f clock rs b))
  = if decide (other = name) then add3 (counted_of name (b_stats b)) ((sums rs).1, (sums rs).2, 0)
    else counted_of other (b_stats b).
Proof.
  revert clock b; induction rs as [|n rs IH]; intros clock b Hf; cbn [report].
  - case_decide as E; [|done]. subst. unfold counted_of, add3, i64_3, plus3, sums. cbn. by rewrite !Z.add_0_r, !i64_i64.
  - rewrite Hf by done. rewrite IH.
    + unfold progress. cbn [b_stats]. rewrite !RecordProgress_counted. destruct (decide (name = name)) as [_|]; [|done]. case_decide as E; [|done].
      rewrite add3_assoc. do 2 f_equal.
    + intros now' n' b' Hb'. apply Hf. rewrite Hb'. cbn. by destruct p.
Qed.

(** The reports spend the quota by what they add up to. *)
Lemma report_limits p name f clock rs b t :
  keeps_books p name f (b_limits b) -> Forall forward_only rs ->
  Limits.deref p (b_limits b) = Some t -> 0 < Limits.quota t -> 0 <= Limits.used t ->
  Limits.used t + (sums rs).1 + (sums rs).2 <= max_i64 ->
  let l := b_limits (report f clock rs b) in
  Limits.tunnels l = Limits.tunnels (b_limits b)
  /\ exists t', Limits.deref p l = Some t' /\ Limits.quota t' = Limits.quota t
     /\ Limits.used t' = Limits.used t + (sums rs).1 + (sums rs).2.
Proof.
  revert clock b t; induction rs as [|n rs IH]; intros clock b t Hf Hall Ht Hq Hu Hmax; cbn [report].
  { split; [done|]. exists t. split_and!; try done. unfold sums. cbn. lia. }
  inversion Hall as [|? ? [Hn1 Hn2] Hall']; subst. cbv zeta. rewrite (Hf (clock 0%nat) n b eq_refl).
  assert (sums (n :: rs) = (n.1 + (sums rs).1, n.2 + (sums rs).2)) as Hs by done. rewrite Hs in *. cbn [fst snd] in *.
  assert (0 <= (sums rs).1 /\ 0 <= (sums rs).2) as [H1 H2].
  { clear -Hall'. induction Hall' as [|x l [] _ [IH1 IH2]]; [done|]. unfold sums in *. cbn in *. unfold total_size in *. lia. }
  destruct p as [i|]; [|done]. unfold Limits.deref in Ht. cbn [mbind option_bind] in Ht.
  set (b1 := progress (Some i) name (clock 0%nat) n b).
  assert (Limits.deref (Some i) (b_limits b1) = Some (Limits.spend_one (n.1 + n.2) t)) as Ht1.
  { unfold b1, progress, Limits.deref. cbn. rewrite list_lookup_alter_eq, Ht. cbn. rewrite i64_id; [done|]. unfold in_i64, min_i64 in *. lia. }
  assert (Limits.quota (Limits.spend_one (n.1 + n.2) t) = Limits.quota t
          /\ Limits.used (Limits.spend_one (n.1 + n.2) t) = Limits.used t + n.1 + n.2) as [Hq1 Hu1].
  { unfold Limits.spend_one. rewrite (proj2 (Z.leb_gt (Limits.quota t) 0)) by lia. cbn [orb].
    destruct (Z.leb_spec (n.1 + n.2) 0); cbn; [split; [done|lia]|]. rewrite i64_id; [split; [done|lia]|]. unfold in_i64, min_i64 in *. lia. }
  destruct (IH (fun j => clock (S j)) b1 _ ltac:(intros now' n' b' Hb'; by apply Hf) Hall' Ht1) as (Htun & t' & Ht' & Hq' & Hu'); try lia.
  split; [exact Htun|]. exists t'. split_and!; [exact Ht'|congruence|lia].
Qed.

Lemma deref_tunnels name l l' : Limits.tunnels l = Limits.tunnels l' -> Limits.For name l = Limits.For name l'.
Proof. unfold Limits.For. by intros ->. Qed.

Lemma tcp_keeps_books name l : keeps_books (Limits.For name l) name (tcp_progress name) l.
Proof. intros now n b Hb. unfold tcp_progress. by rewrite (deref_tunnels name _ l Hb). Qed.

Lemma progress_keeps_books p name l : keeps_books p name (progress p name) l.
Proof. done. Qed.

(** ** What a relayed visit comes to *)

(** The books of the visit: the counters move by what was carried, of no other
    tunnel; the quota, where there is one, is spent by it. *)
Record accounted (sid : N) (p : option nat) (name : bytes) (r : relayed) (st st' : State) (reg reg' : gmap bytes Counters) : Prop := {
  a_stats other : counted_of other reg'
    = if decide (other = name)
      then add3 (counted_of name reg) (Z.of_nat (length (AToB r)), Z.of_nat (length (BToA r)), 1)
      else counted_of other reg;
  a_quota t : Limits.deref p (limits_of sid st) = Some t -> is_Some (sessions st !! sid) -> 0 < Limits.quota t -> 0 <= Limits.used t ->
    Limits.used t + Z.of_nat (length (AToB r)) + Z.of_nat (length (BToA r)) <= max_i64 ->
    exists t', Limits.deref p (limits_of sid st') = Some t' /\ Limits.quota t' = Limits.quota t
      /\ Limits.used t' = Limits.used t + Z.of_nat (length (AToB r)) + Z.of_nat (length (BToA r));
  a_rest : registry st' = registry st /\ router st' = router st /\ store st' = store st
    /\ (forall sid', sid' <> sid -> sessions st' !! sid' = sessions st !! sid') }.

Lemma relay_visit_spec f p sid name user net st reg :
  keeps_books p name f (limits_of sid st) ->
  exists r st' reg', relay_visit f p sid name user net st reg = Some (r, st', reg')
    /\ AToB r = accepted (n_to_client net) (delivered true user).1
    /\ BToA r = accepted (n_to_visitor net) (delivered true (n_work net)).1
    /\ accounted sid p name r st st' reg reg'.
Proof.
  intros Hf. unfold relay_visit. destruct (Limits.Rates p (limits_of sid st)) as [l1 l2].
  destruct (RelayWith_spec (n_splice net) l1 l2 (n_picks net) user (n_work net) (n_to_client net) (n_to_visitor net)) as (r & Hr & Ha & Hb & _ & Hs & Hall).
  rewrite Hr. cbn. do 3 eexists. split; [done|]. split; [done|]. split; [done|].
  set (b := report f (n_clock net) (reports r) (MkBooks (limits_of sid st) reg)). split.
  - intros other. cbn. rewrite RecordClose_counted. unfold b. rewrite !(report_stats p name) by done. rewrite Hs. cbn [fst snd b_stats].
    destruct (decide (name = name)) as [_|]; [|done]. case_decide; [|done]. rewrite add3_assoc. unfold plus3. cbn. by rewrite !Z.add_0_r.
  - intros t Ht [s Hsome] Hq Hu Hmax.
    destruct (report_limits p name f (n_clock net) (reports r) (MkBooks (limits_of sid st) reg) t) as (Htun & t' & Ht' & Hq' & Hu');
      try done; [by rewrite Hs|]. fold b in Ht'. exists t'. rewrite Hs in Hu'. split_and!; try done.
    unfold with_limits, limits_of at 1. rewrite Hsome. cbn. by rewrite lookup_insert_eq.
  - cbn. unfold with_limits. destruct (sessions st !! sid); [|done]. cbn. split_and!; try done. intros. by rewrite lookup_insert_ne.
Qed.

(** C3: A visitor of a TCP tunnel is turned away exactly when the quota is spent
    or the session has no work connection for it.  Otherwise it is relayed over
    a work connection of that session taken for this tunnel and this visitor;
    each side gets exactly what the other delivers before it ends, or, where
    writes to it fail, that up to the byte they fail at; the counters of the
    tunnel move by the bytes it got and one connection, and its quota is spent
    by them, whatever order the two directions report in; nothing else changes.
    The handler always comes to an end. *)
Theorem tcp_visitor_served sid name source user d net st reg :
  exists v st' reg', tcp_handle sid name source user d net st reg = Some (v, st', reg')
    /\ (v = TcpExhausted <-> Limits.Exhausted (Limits.For name (limits_of sid st)) (limits_of sid st) = true)
    /\ match v with
       | TcpExhausted => st' = st /\ reg' = reg
       | TcpNoWork | TcpWaiting => reg' = reg
       | TcpRelayed w r =>
           AToB r = accepted (n_to_client net) (delivered true user).1
           /\ BToA r = accepted (n_to_visitor net) (delivered true (n_work net)).1
           /\ exists st1 s1, GetWorkConn sid name source d st = (Got w, st1)
              /\ sessions st1 !! sid = Some s1 /\ (w, (name, source)) ∈ handed (Session.ledger s1)
              /\ accounted sid (Limits.For name (limits_of sid st1)) name r st1 st' reg reg'
       end.
Proof.
  unfold tcp_handle. destruct (Limits.Exhausted _ _) eqn:Ex; [by exists TcpExhausted, st, reg|].
  destruct (GetWorkConn sid name source d st) as [[w|e|] st1] eqn:Eg;
    [|by exists TcpNoWork, st1, reg|by exists TcpWaiting, st1, reg].
  destruct (relay_visit_spec (tcp_progress name) (Limits.For name (limits_of sid st1)) sid name user net st1 reg)
    as (r & st' & reg' & Hr & Ha & Hb & Hc); [apply tcp_keeps_books|].
  rewrite Hr. exists (TcpRelayed w r), st', reg'. split; [done|]. split; [done|]. split; [done|]. split; [done|].
  pose proof (GetWorkConn_got _ _ _ _ _ _ _ Eg) as (s1 & Hs & Hin). by exists st1, s1.
Qed.

Section vhost_served.
Context `{U : Unicode} `{I : Idna} `{X : X509}.

(** C2: A visitor of a virtual host, from its first byte to the end: the handler
    always comes to an end, and when it relays, the name in the head was the
    route's; the head and what is relayed after it are what the visitor sent
    (what TLS decrypts, where the route asks the server to terminate it), all of
    it unless a write on the work connection fails, and then up to that byte; the
    visitor gets what the client answers in the same way.  The visit is counted
    either way: one connection and the bytes that were carried, for that tunnel
    alone, and its quota is spent by them.  The head sent ahead is the one part
    that is not counted. *)
Theorem vhost_visitor_served scheme source cap c now d handshake net st reg :
  (cap <= capB)%nat ->
  exists v st' reg', vhost_serve scheme source cap c now d handshake net st reg = Some (v, st', reg')
    /\ match v with
       | NotServed _ | Abandoned _ | HandshakeFailed _ => reg' = reg
       | Relayed w first r =>
           exists host path head route sid st1 s1,
             sniff scheme cap c = (host, path, head, None)
             /\ Lookup host (router st) = Some route /\ registry st !! Router.RunID route = Some sid
             /\ sessions st1 !! sid = Some s1 /\ (w, (r_ProxyName route, source)) ∈ handed (Session.ledger s1)
             /\ BToA r = accepted (n_to_visitor net) (delivered true (n_work net)).1
             /\ (if bool_decide (scheme = SchemeHTTPS) && terminationRoute route
                 then first = [] /\ Has host (store st1) = true
                      /\ exists user, handshake ((head, None) :: left_on scheme cap c) = Some user
                         /\ AToB r = accepted (n_to_client net) (delivered true user).1
                 else n_lifted net = true /\ (first = [] \/ n_head net = true)
                      /\ exists rest, first ++ rest = sent c /\ AToB r = accepted (n_to_client net) rest)
             /\ accounted sid (Limits.For (r_ProxyName route) (limits_of sid st)) (r_ProxyName route) r st1 st' reg reg'
       end.
Proof.
  intros Hcap. unfold vhost_serve, terminate, relay_route. destruct (handle scheme source cap c now d st) as [v st1] eqn:E.
  assert (Hrelay : forall w first route user, v = Forwarded w first route \/ v = Terminated w first route ->
    exists host path sid s1, sniff scheme cap c = (host, path, first, None) /\ Lookup host (router st) = Some route
      /\ registry st !! Router.RunID route = Some sid /\ sessions st1 !! sid = Some s1
      /\ (w, (r_ProxyName route, source)) ∈ handed (Session.ledger s1)
      /\ (v = Terminated w first route <-> scheme = SchemeHTTPS /\ r_TLSMode route = go "terminate")
      /\ (v = Terminated w first route -> Has host (store st1) = true)
      /\ exists r st' reg', relay_visit (progress (Limits.For (r_ProxyName route) (limits_of sid st)) (r_ProxyName route))
            (Limits.For (r_ProxyName route) (limits_of sid st)) sid (r_ProxyName route) user net st1 reg = Some (r, st', reg')
          /\ AToB r = accepted (n_to_client net) (delivered true user).1
          /\ BToA r = accepted (n_to_visitor net) (delivered true (n_work net)).1
          /\ accounted sid (Limits.For (r_ProxyName route) (limits_of sid st)) (r_ProxyName route) r st1 st' reg reg').
  { intros w first route user Hv.
    destruct (handle_relayed _ _ _ _ _ _ _ _ _ _ _ _ E Hv) as (host & path & sid & Es & Ha & El & Er & Hx & Eg & Ht & Hc).
    pose proof (GetWorkConn_got _ _ _ _ _ _ _ Eg) as (s1 & Hs1 & Hin). exists host, path, sid, s1. split_and!; try done.
    apply relay_visit_spec, progress_keeps_books. }
  pose proof (sniff_consumed scheme cap c Hcap) as Hsn.
  destruct v as [?|?|?|?|w first route|w first route|]; try (by do 3 eexists).
  - destruct (negb (bool_decide (first = [])) && negb (n_head net)) eqn:Eh; [by do 3 eexists|].
    destruct (n_lifted net) eqn:El'; cbn [negb]; [|by do 3 eexists].
    destruct (Hrelay w first route (unread (n_pauses net) (left_on scheme cap c)) (or_introl eq_refl))
      as (host & path & sid & s1 & Es & El & Er & Hs1 & Hin & Ht & _ & r & st' & reg' & Hr & Ha & Hb & Hacc).
    unfold Registry.Get. rewrite Er, Hr. do 3 eexists. split; [done|].
    exists host, path, first, route, sid, st1, s1. rewrite Es in Hsn. cbn [fst snd] in Hsn.
    unfold terminationRoute. rewrite <- bool_decide_and, bool_decide_eq_false_2 by (rewrite <- Ht; done).
    split_and!; try done; [|exists (sent (left_on scheme cap c)); split; [done|]; rewrite <- (unread_delivers (n_pauses net) (left_on scheme cap c)); exact Ha].
    apply andb_false_iff in Eh as [Eh|Eh]; apply negb_false_iff in Eh; [left; by apply bool_decide_eq_true in Eh|by right].
  - destruct (handshake _) as [user|] eqn:Eh; [|by do 3 eexists].
    destruct (Hrelay w first route user (or_intror eq_refl))
      as (host & path & sid & s1 & Es & El & Er & Hs1 & Hin & Ht & Hhas & r & st' & reg' & Hr & Ha & Hb & Hacc).
    unfold Registry.Get. rewrite Er, Hr. do 3 eexists. split; [done|].
    exists host, path, first, route, sid, st1, s1.
    unfold terminationRoute. rewrite <- bool_decide_and, bool_decide_eq_true_2 by (by apply Ht).
    split_and!; try done; [by apply Hhas|]. by exists user.
Qed.
End vhost_served.

(** ** Witnesses *)

(** A visitor of the example site: the work connection answers, the reports of
    the two directions interleave, and the visitor leaves two bytes early. *)
Definition example_net : network :=
  MkNetwork true [false; true; true] (fun i => Z.of_nat i) 9 [(go "HTTP/1.1 200 OK", StopTimeout); (go "body", StopEOF)]
    Sound (Failing 17 1) true true [true].

Definition served (o : option (vhost_visit * State * gmap bytes Counters)) : bool :=
  match o with
  | Some (Relayed 7 first r, _, reg') =>
      bool_decide (first <> []) && bool_decide (BToA r = go "HTTP/1.1 200 OKbo")
      && bool_decide (counted_of (go "a") reg' = (Z.of_nat (length (AToB r)), 17, 1))
  | _ => false
  end.

Section example.
#[local] Existing Instance no_unicode.
#[local] Existing Instance ascii_idna.
#[local] Existing Instance toy_hmac.
#[local] Existing Instance no_x509.

Definition example_visit : option (vhost_visit * State * gmap bytes Counters) :=
  vhost_serve SchemeHTTP (go "v") 64 example_visitor 0 example_dial (fun _ => None) example_net ready ∅.

Lemma vhost_visitor_served_witness :
  served example_visit = true
  /\ exists w first r st' reg', example_visit = Some (Relayed w first r, st', reg') /\ first ++ AToB r = sent example_visitor.
Proof.
  assert (Hs : served example_visit = true) by (vm_compute; reflexivity). split; [exact Hs|].
  assert (Hcap : (64 <= capB)%nat) by (unfold capB; lia).
  pose proof (vhost_visitor_served SchemeHTTP (go "v") 64 example_visitor 0 example_dial (fun _ => None)
    example_net ready ∅ Hcap) as H. fold example_visit in H.
  destruct H as (v & st' & reg' & E & H). rewrite E in Hs.
  destruct v as [?|?|?|w first r]; [discriminate Hs..|].
  exists w, first, r, st', reg'. split; [exact E|].
  destruct H as (host & path & head & route & sid & st1 & s1 & _ & _ & _ & _ & _ & _ & H & _).
  change (bool_decide (SchemeHTTP = SchemeHTTPS)) with false in H.
  destruct H as (_ & _ & rest & H1 & H2). change (accepted (n_to_client example_net) rest) with rest in H2.
  rewrite H2. exact H1.
Defined.
End example.
