(* ===== verification/Listeners.v ===== *)
(** Listening sockets and who closes them: [pkg/netutil/listener.go], the life
    cycle of the proxies ([server/proxy/tcp.go], [udp.go]) and of the server's
    own listeners ([server/server.go], [vhost.go]).

    The kernel holds the sockets that listen, each with its port; what it
    answers to a bind is a script. *)
From S2P Require Import Prelude GoStrings.

(** ** The kernel *)

Inductive answer : Type :=
  | Refused (e : bytes)
  | Granted (port : Z).

Record kernel := MkKernel { fresh_id : N; live : gmap N Z; answers : list answer }.

Inductive lerr : Type :=
  | ErrListen (e : bytes)
  | ErrClosed
  | ErrAccept (e : bytes).

(** A socket on [port], or on the port the kernel chooses when that is 0. *)
Definition bind (port : Z) (k : kernel) : res lerr (N * Z) * kernel :=
  match answers k with
  | [] => (Err (ErrListen []), k)
  | Refused e :: rest => (Err (ErrListen e), MkKernel (fresh_id k) (live k) rest)
  | Granted p :: rest =>
      let q := if port =? 0 then p else port in
      (Ok (fresh_id k, q), MkKernel (fresh_id k + 1)%N (<[fresh_id k := q]> (live k)) rest)
  end.

(** Closing a socket; a second time is [net.ErrClosed]. *)
Definition close1 (id : N) (k : kernel) : res lerr unit * kernel :=
  match live k !! id with
  | Some _ => (Ok tt, MkKernel (fresh_id k) (delete id (live k)) (answers k))
  | None => (Err ErrClosed, k)
  end.

Definition close_each (ids : list N) (k : kernel) : kernel := foldl (fun k id => (close1 id k).2) k ids.

(** ** [Listen] *)

(** A [net.Listener]: one socket, or several behind a [fanInListener]. *)
Record listener := MkListener { subs : list N; l_port : Z; fan : bool }.

(** The loop over [loops] sockets: the port of the first is the port of all. *)
Fixpoint listen_loop (n : nat) (port : Z) (listeners : list N) (k : kernel) : res lerr (list N * Z) * kernel :=
  match n with
  | O => (Ok (listeners, port), k)
  | S n =>
      match bind port k with
      | (Err e, k) => (Err e, close_each listeners k)
      | (Ok (id, q), k) =>
          listen_loop n (match listeners with [] => q | _ => port end) (listeners ++ [id]) k
      end
  end.

(** How many sockets: [numcpu] is [runtime.NumCPU()]. *)
Definition loops_of (reusePort supported : bool) (loops numcpu : Z) : Z :=
  let loops := if loops <=? 0 then numcpu else loops in
  if negb reusePort || negb supported then 1 else loops.

Definition Listen (reusePort supported : bool) (loops numcpu port : Z) (k : kernel) : res lerr listener * kernel :=
  let loops := loops_of reusePort supported loops numcpu in
  if loops =? 1 then
    match bind port k with
    | (Err e, k) => (Err e, k)
    | (Ok (id, q), k) => (Ok (MkListener [id] q false), k)
    end
  else
    match listen_loop (Z.to_nat loops) port [] k with
    | (Err e, k) => (Err e, k)
    | (Ok (ids, q), k) => (Ok (MkListener ids q true), k)
    end.

Definition AcceptLoops (ln : listener) : Z := if fan ln then Z.of_nat (length (subs ln)) else 1.

(** [ln.Close()]: a fan closes its sockets once and answers nil ever after. *)
Definition CloseListener (ln : listener) (k : kernel) : res lerr unit * kernel :=
  if fan ln then (Ok tt, close_each (subs ln) k)
  else match subs ln with
       | [id] => close1 id k
       | _ => (Ok tt, k)
       end.

(** ** [Serve]: an accept loop for each socket *)

(** What [Accept] of a socket gives. *)
Inductive acceptance : Type :=
  | Accepted (conn : N)
  | AcceptErr (e : bytes) (kind : Z)  (* 0: permanent, 1: out of descriptors, 2: interrupted *)
  | AcceptClosed.

Definition acceptRetryDelay (a : acceptance) : Z :=
  match a with
  | AcceptErr _ 1 => 10 * Millisecond
  | AcceptErr _ 2 => 1
  | _ => 0
  end.

(** The loops still running (by their sockets), the first error that ended one,
    the connections dispatched. *)
Record serving := MkServing { running : list N; fatalErr : option lerr; dispatched : list N }.

(** Something happens to the loop of the socket [id]. *)
Definition serve_step (ln : listener) (id : N) (a : acceptance) (sk : serving * kernel) : serving * kernel :=
  let '(s, k) := sk in
  if negb (bool_decide (id ∈ running s)) then (s, k)
  else match a with
       | Accepted c => (MkServing (running s) (fatalErr s) (dispatched s ++ [c]), k)
       | _ =>
           if 0 <? acceptRetryDelay a then (s, k)
           else
             let fatal :=
               match a, fatalErr s with
               | AcceptErr e _, None => Some (ErrAccept e)
               | _, f => f
               end in
             (MkServing (filter (fun x => x <> id) (running s)) fatal (dispatched s), (CloseListener ln k).2)
       end.

Definition Serve (ln : listener) (events : list (N * acceptance)) (k : kernel) : serving * kernel :=
  foldl (fun sk e => serve_step ln e.1 e.2 sk) (MkServing (subs ln) None [], k) events.

(** ** A proxy of the server: [tcpProxy] and [udpProxy] *)

(** What the proxy is made with: a UDP proxy binds one socket. *)
Record options := MkOptions { udp : bool; reusePort : bool; supported : bool; acceptLoops : Z; numcpu : Z }.

Record proxy := MkProxy { port : Z; p_listener : option listener; closed : bool }.

(** [p.Listen] up to its lock: the socket is bound but not yet the proxy's. *)
Definition proxy_bind (o : options) (p : proxy) (k : kernel) : res lerr listener * kernel :=
  if udp o then
    match bind (port p) k with
    | (Err e, k) => (Err e, k)
    | (Ok (id, q), k) => (Ok (MkListener [id] q false), k)
    end
  else Listen (reusePort o) (supported o) (acceptLoops o) (numcpu o) (port p) k.

(** The rest of [p.Listen], under the lock. *)
Definition proxy_commit (ln : listener) (p : proxy) (k : kernel) : res lerr unit * proxy * kernel :=
  if closed p then (Err ErrClosed, p, (CloseListener ln k).2)
  else (Ok tt, MkProxy (l_port ln) (Some ln) false, k).

Definition proxy_Listen (o : options) (p : proxy) (k : kernel) : res lerr unit * proxy * kernel :=
  match proxy_bind o p k with
  | (Err e, k) => (Err e, p, k)
  | (Ok ln, k) => proxy_commit ln p k
  end.

Definition proxy_Close (p : proxy) (k : kernel) : res lerr unit * proxy * kernel :=
  match p_listener p with
  | None => (Ok tt, MkProxy (port p) None true, k)
  | Some ln => let '(r, k) := CloseListener ln k in (r, MkProxy (port p) None true, k)
  end.

(** Two goroutines use a proxy: the session, which binds it and later closes
    it, and [p.Run].  Their places in the code: *)
Inductive session_at : Type :=
  | SBind                     (* before [Bind] *)
  | SCommit (ln : listener)   (* in [Listen], the socket bound *)
  | SBound                    (* [Bind] returned nil: the proxy runs, and may be closed *)
  | SFailed                   (* [Bind] returned an error *)
  | SDropped.                 (* bound, but the name was taken: closed, and never run *)

(** The loop of [udpProxy.Run] and, in it, [serveOnce]; [replying] is whether the
    goroutine that carries replies still runs, [shut] whether the error at hand
    is [net.ErrClosed]. *)
Inductive udp_at : Type :=
  | UTop                      (* the head of the loop *)
  | UFirst                    (* reading the first datagram *)
  | UServing (replying : bool)
  | UWait (replying shut : bool)   (* [wg.Wait], then the error goes to [Run] *)
  | URetry.                   (* the second before the next [serveOnce] *)

Inductive run_at : Type :=
  | RWait                                     (* not started *)
  | RRead                                     (* before it reads [p.listener] *)
  | RBind | RCommit (ln : listener) | RReread (* its own [Listen], and reading again *)
  | RServe (ln : listener) (s : serving)      (* TCP: in [netutil.Serve] *)
  | RDrain                                    (* TCP: the deferred [wg.Wait] *)
  | RUdp (ln : listener) (u : udp_at)
  | RPanic                                    (* serving a nil listener *)
  | RDone.

(** [handlers] are the visitors a TCP proxy still handles; [ctx] is whether the
    context of [Run] is cancelled. *)
Record sys := MkSys { px : proxy; session : session_at; run : run_at; handlers : list N; ctx : bool; k : kernel }.

(** What [Accept] of a socket can give: [net.ErrClosed] when it is closed, and
    only then. *)
Definition can_give (id : N) (a : acceptance) (k : kernel) : Prop :=
  match a with AcceptClosed => live k !! id = None | _ => is_Some (live k !! id) end.

(** [netutil.Serve] returns when no accept loop runs any more. *)
Definition serving_on (ln : listener) (s : serving) : run_at :=
  match running s with [] => RDrain | _ => RServe ln s end.

Definition begin_serve (o : options) (ln : option listener) : run_at :=
  match ln with
  | None => RPanic
  | Some ln => if udp o then RUdp ln UTop else serving_on ln (MkServing (subs ln) None [])
  end.

(** A step of a UDP proxy whose socket is closed or not ([gone]); [None] is
    [Run] returning. *)
Inductive udp_step (gone ctx : bool) : udp_at -> option udp_at -> Prop :=
  | udp_top : udp_step gone ctx UTop (if ctx then None else Some UFirst)
  | udp_first_closed : gone = true -> udp_step gone ctx UFirst (Some (UWait false true))
  | udp_first_error shut : gone = false -> udp_step gone ctx UFirst (Some (UWait false shut))
      (* the read, [GetWorkConn], the frame, or its write *)
  | udp_first : gone = false -> udp_step gone ctx UFirst (Some (UServing true))
  | udp_reply_ends : udp_step gone ctx (UServing true) (Some (UServing false))
  | udp_read_closed b : gone = true -> udp_step gone ctx (UServing b) (Some (UWait b true))
  | udp_read_error b : gone = false -> udp_step gone ctx (UServing b) (Some (UWait b false))
  | udp_inbound b : gone = false -> udp_step gone ctx (UServing b) (Some (UServing b))
  | udp_write_error b shut : gone = false -> udp_step gone ctx (UServing b) (Some (UWait b shut))
  | udp_waited shut : udp_step gone ctx (UWait true shut) (Some (UWait false shut))
  | udp_after shut : udp_step gone ctx (UWait false shut) (if ctx || shut then None else Some URetry)
  | udp_again : udp_step gone ctx URetry (Some UTop)
  | udp_stop : ctx = true -> udp_step gone ctx URetry None.

Definition closed_socket (ln : listener) (k : kernel) : bool := forallb (fun id => bool_decide (live k !! id = None)) (subs ln).

Inductive step (o : options) : sys -> sys -> Prop :=
  | step_bind p r h c k res k' :
      proxy_bind o p k = (res, k') ->
      step o (MkSys p SBind r h c k) (MkSys p (match res with Ok ln => SCommit ln | Err _ => SFailed end) r h c k')
  | step_commit p ln r h c k res p' k' :
      proxy_commit ln p k = (res, p', k') ->
      step o (MkSys p (SCommit ln) r h c k) (MkSys p' (match res with Ok _ => SBound | Err _ => SFailed end) r h c k')
  | step_start p h c k : step o (MkSys p SBound RWait h c k) (MkSys p SBound RRead h c k)
  | step_drop p h c k res p' k' :
      proxy_Close p k = (res, p', k') -> step o (MkSys p SBound RWait h c k) (MkSys p' SDropped RWait h true k')
  | step_cancel p r h c k : step o (MkSys p SBound r h c k) (MkSys p SBound r h true k)
  | step_close p r h c k res p' k' :
      proxy_Close p k = (res, p', k') -> step o (MkSys p SBound r h c k) (MkSys p' SBound r h c k')
  | step_read p s h c k :
      step o (MkSys p s RRead h c k)
        (MkSys p s (match p_listener p with Some ln => begin_serve o (Some ln) | None => RBind end) h c k)
  | step_rebind p s h c k res k' :
      proxy_bind o p k = (res, k') ->
      step o (MkSys p s RBind h c k) (MkSys p s (match res with Ok ln => RCommit ln | Err _ => RDone end) h c k')
  | step_recommit p s ln h c k res p' k' :
      proxy_commit ln p k = (res, p', k') ->
      step o (MkSys p s (RCommit ln) h c k) (MkSys p' s (match res with Ok _ => RReread | Err _ => RDone end) h c k')
  | step_reread p s h c k :
      step o (MkSys p s RReread h c k) (MkSys p s (begin_serve o (p_listener p)) h c k)
  | step_serve p s ln sv h c k id a sv' k' :
      id ∈ running sv -> can_give id a k -> serve_step ln id a (sv, k) = (sv', k') ->
      step o (MkSys p s (RServe ln sv) h c k)
        (MkSys p s (serving_on ln sv') (match a with Accepted conn => conn :: h | _ => h end) c k')
  | step_handled p s r h1 conn h2 c k :
      step o (MkSys p s r (h1 ++ conn :: h2) c k) (MkSys p s r (h1 ++ h2) c k)
  | step_drained p s c k : step o (MkSys p s RDrain [] c k) (MkSys p s RDone [] c k)
  | step_udp p s ln u h c k u' :
      udp_step (closed_socket ln k) c u u' ->
      step o (MkSys p s (RUdp ln u) h c k) (MkSys p s (match u' with Some u => RUdp ln u | None => RDone end) h c k).

Definition start (port : Z) (k : kernel) : sys := MkSys (MkProxy port None false) SBind RWait [] false k.

(** ** The server's own listeners *)

Record vhostListener := MkVhostListener { v_scheme : bytes; v_port : Z; v_listener : option listener }.

Record server := MkServer { s_listener : option listener; s_vhosts : list vhostListener }.

Record serverconfig := MkServerConfig { BindPort : Z; VhostHTTPPort : Z; VhostHTTPSPort : Z; AcceptLoopsCfg : Z }.

(** [listen] of the control port and of a vhost port: [supported] and [numcpu]
    are the machine's. *)
Definition server_bind (c : serverconfig) (supported : bool) (numcpu port : Z) (k : kernel) : res lerr listener * kernel :=
  Listen (negb (AcceptLoopsCfg c =? 1)) supported (AcceptLoopsCfg c) numcpu port k.

Definition vhost_close (v : vhostListener) (k : kernel) : res lerr unit * vhostListener * kernel :=
  match v_listener v with
  | None => (Ok tt, v, k)
  | Some ln => let '(r, k) := CloseListener ln k in (r, MkVhostListener (v_scheme v) (v_port v) None, k)
  end.

Definition close_vhosts (vs : list vhostListener) (k : kernel) : kernel := foldl (fun k v => (vhost_close v k).2) k vs.

Definition vhostPorts (c : serverconfig) : list (bytes * Z) :=
  [(go "http", VhostHTTPPort c); (go "https", VhostHTTPSPort c)].

(** The loop over the vhost ports; [started] are the server's vhosts so far. *)
Fixpoint listen_vhosts (c : serverconfig) (supported : bool) (numcpu : Z) (wanted : list (bytes * Z))
  (started : list vhostListener) (k : kernel) : res lerr (list vhostListener) * kernel :=
  match wanted with
  | [] => (Ok started, k)
  | (scheme, port) :: wanted =>
      if port =? 0 then listen_vhosts c supported numcpu wanted started k
      else
        match server_bind c supported numcpu port k with
        | (Err e, k) => (Err e, close_vhosts started k)
        | (Ok ln, k) =>
            listen_vhosts c supported numcpu wanted (started ++ [MkVhostListener scheme port (Some ln)]) k
        end
  end.

Definition Server_Listen (c : serverconfig) (supported : bool) (numcpu : Z) (s : server) (k : kernel)
  : res lerr unit * server * kernel :=
  match s_listener s with
  | Some _ => (Ok tt, s, k)
  | None =>
      match server_bind c supported numcpu (BindPort c) k with
      | (Err e, k) => (Err e, s, k)
      | (Ok ln, k) =>
          match listen_vhosts c supported numcpu (vhostPorts c) (s_vhosts s) k with
          | (Err e, k) => (Err e, MkServer None [], (CloseListener ln k).2)
          | (Ok vs, k) => (Ok tt, MkServer (Some ln) vs, k)
          end
      end
  end.

(** [Close]: the vhosts, then the control listener; the errors of both. *)
Fixpoint close_all (vs : list vhostListener) (k : kernel) : list lerr * kernel :=
  match vs with
  | [] => ([], k)
  | v :: vs =>
      let '(r, _, k) := vhost_close v k in
      let '(errs, k) := close_all vs k in
      (match r with Ok _ => errs | Err e => e :: errs end, k)
  end.

Definition Server_Close (s : server) (k : kernel) : list lerr * server * kernel :=
  let '(errs, k) := close_all (s_vhosts s) k in
  match s_listener s with
  | None => (errs, MkServer None [], k)
  | Some ln =>
      let '(r, k) := CloseListener ln k in
      (match r with Ok _ => errs | Err e => errs ++ [e] end, MkServer None [], k)
  end.

(** ** The sockets a listener stands for *)

(** Identities are fresh, and the kernel never chooses port 0. *)
Record kernel_ok (k : kernel) : Prop := {
  ok_fresh i : is_Some (live k !! i) -> (i < fresh_id k)%N;
  ok_granted p : Granted p ∈ answers k -> p <> 0 }.

Record later (k k' : kernel) : Prop := {
  later_fresh : (fresh_id k <= fresh_id k')%N;
  later_answers a : a ∈ answers k' -> a ∈ answers k }.

#[export] Instance later_preorder : PreOrder later.
Proof.
  split.
  - intros k. by split.
  - intros k1 k2 k3 [F1 A1] [F2 A2]. split; [lia|auto].
Qed.

(** [k'] is [k] with the sockets [ids] open on [q] besides. *)
Definition opened (ids : list N) (q : Z) (k k' : kernel) : Prop :=
  (forall i, live k' !! i = if bool_decide (i ∈ ids) then Some q else live k !! i) /\ later k k'.

(** ... or without the sockets [ids]. *)
Definition without (ids : list N) (k k' : kernel) : Prop :=
  (forall i, live k' !! i = if bool_decide (i ∈ ids) then None else live k !! i) /\ later k k'.

Lemma without_nil k k' : live k' = live k -> later k k' -> without [] k k'.
Proof. intros Hl Hk. split; [|done]. intros i. rewrite Hl. by case_bool_decide as Hi; [apply elem_of_nil in Hi|]. Qed.

Lemma without_nil_live k k' : without [] k k' -> live k' = live k.
Proof. intros [W _]. apply map_eq. intros i. by rewrite W, bool_decide_eq_false_2 by apply not_elem_of_nil. Qed.

Lemma without_trans a b k1 k2 k3 : without a k1 k2 -> without b k2 k3 -> without (a ++ b) k1 k3.
Proof.
  intros [H1 F1] [H2 F2]. split; [|by etrans]. intros i. rewrite H2, H1. repeat case_bool_decide; set_solver.
Qed.

Lemma without_ok ids k k' : kernel_ok k -> without ids k k' -> kernel_ok k'.
Proof.
  intros [Hf Hg] [Hw [F A]]. split; [|intros p Hp; by apply Hg, A].
  intros i. rewrite Hw. case_bool_decide; [by intros []|]. intros Hi. apply Hf in Hi. lia.
Qed.

Lemma close1_without id k : without [id] k (close1 id k).2.
Proof.
  unfold close1, without. split; [|by destruct (live k !! id)]. intros i.
  destruct (live k !! id) eqn:E; cbn; case_bool_decide as Hi; rewrite list_elem_of_singleton in Hi; subst;
    [by rewrite lookup_delete_eq|by rewrite lookup_delete_ne|done|done].
Qed.

Lemma close_each_without ids k : without ids k (close_each ids k).
Proof.
  unfold close_each. revert k; induction ids as [|id ids IH]; intros k; cbn; [by apply without_nil|].
  apply (without_trans [id] ids _ (close1 id k).2); [apply close1_without|apply IH].
Qed.

(** A listener that [Listen] made: several sockets only behind a fan. *)
Definition well_made (ln : listener) : Prop := fan ln = true \/ exists id, subs ln = [id].

Lemma CloseListener_without ln k : well_made ln -> without (subs ln) k (CloseListener ln k).2.
Proof.
  unfold CloseListener. intros [->|[id Hs]]; cbn; [apply close_each_without|].
  rewrite Hs. destruct (fan ln); [apply close_each_without|apply close1_without].
Qed.

(** What a successful bind of [ids] on [q] did. *)
Definition bound (port : Z) (ids : list N) (q : Z) (k k' : kernel) : Prop :=
  opened ids q k k' /\ NoDup ids /\ (forall i, i ∈ ids -> (fresh_id k <= i < fresh_id k')%N) /\ (port <> 0 -> q = port).

Lemma bind_bound port k r k' :
  kernel_ok k -> bind port k = (r, k') ->
  kernel_ok k' /\ match r with Ok (id, q) => bound port [id] q k k' /\ q <> 0 | Err _ => without [] k k' end.
Proof.
  unfold bind. intros Hk. destruct (answers k) as [|[e|p] rest] eqn:Ea; intros [= <- <-].
  - split; [done|]. by apply without_nil.
  - assert (without [] k (MkKernel (fresh_id k) (live k) rest)) as Hw.
    { apply without_nil; [done|]. split; cbn; [lia|]. rewrite Ea. by right. }
    split; [by eapply without_ok|done].
  - assert ((if port =? 0 then p else port) <> 0) as Hq.
    { destruct (Z.eqb_spec port 0); [|done]. apply (ok_granted k Hk). rewrite Ea. left. }
    assert (later k (MkKernel (fresh_id k + 1) (<[fresh_id k := if port =? 0 then p else port]> (live k)) rest)) as Hl.
    { split; cbn; [lia|]. rewrite Ea. by right. }
    split; [|split; [split_and!|done]].
    + split; cbn; [|intros p' Hp; apply (ok_granted k Hk); rewrite Ea; by right].
      intros i. destruct (decide (i = fresh_id k)) as [->|Hne]; [lia|]. rewrite lookup_insert_ne by done.
      intros Hi. apply (ok_fresh k Hk) in Hi. lia.
    + split; [|done]. intros i. cbn. case_bool_decide as Hi; rewrite list_elem_of_singleton in Hi; subst;
        [by rewrite lookup_insert_eq|by rewrite lookup_insert_ne].
    + apply NoDup_singleton.
    + cbn. intros i ->%list_elem_of_singleton. lia.
    + intros. by destruct (Z.eqb_spec port 0).
Qed.

Lemma bound_trans port q a b k1 k2 k3 :
  bound port a q k1 k2 -> bound q b q k2 k3 -> bound port (a ++ b) q k1 k3.
Proof.
  intros ([O1 L1] & N1 & F1 & P1) ([O2 L2] & N2 & F2 & P2). pose proof (later_fresh _ _ L1). pose proof (later_fresh _ _ L2).
  split_and!; [split; [|by etrans]| |..|done].
  - intros i. rewrite O2, O1. repeat case_bool_decide; set_solver.
  - apply NoDup_app. split_and!; [done| |done]. intros i Ha Hb. apply F1 in Ha. apply F2 in Hb. lia.
  - intros i [Hi|Hi]%elem_of_app; [apply F1 in Hi|apply F2 in Hi]; lia.
Qed.

(** The sockets a failed loop opened are closed again. *)
Lemma bound_undone port ids q k k1 k2 :
  kernel_ok k -> bound port ids q k k1 -> without ids k1 k2 -> live k2 = live k.
Proof.
  intros Hk ([O _] & _ & F & _) [W _]. apply map_eq. intros i. rewrite W, O. case_bool_decide as Hi; [|done].
  apply F in Hi. destruct (live k !! i) eqn:E; [|done]. pose proof (ok_fresh k Hk i (mk_is_Some _ _ E)). lia.
Qed.

(** Having bound [ls], all on [port]; [p0] is the port asked for. *)
Lemma listen_rest_spec n p0 port ls k0 k r k' :
  kernel_ok k0 -> kernel_ok k -> ls <> [] -> bound p0 ls port k0 k -> port <> 0 ->
  listen_loop n port ls k = (r, k') ->
  kernel_ok k' /\ match r with
                  | Ok (ids, q) => bound p0 ids q k0 k' /\ q <> 0 /\ length ids = (length ls + n)%nat
                  | Err _ => without [] k0 k'
                  end.
Proof.
  intros Hk0. revert ls k; induction n as [|n IH]; intros ls k Hk Hn Hb Hp Hr; cbn [listen_loop] in Hr.
  - simplify_eq. split_and!; try done; lia.
  - destruct (bind port k) as [[[id q]|e] k1] eqn:Eb; destruct (bind_bound _ _ _ _ Hk Eb) as [Hk1 Hb1].
    + destruct Hb1 as [Hb1 _]. assert (q = port) as -> by (by apply Hb1).
      replace (match ls with [] => port | _ => port end) with port in Hr by (by destruct ls).
      apply IH in Hr as [? Hr]; [|done|by destruct ls|exact (bound_trans _ _ _ _ _ _ _ Hb Hb1)|done].
      split; [done|]. destruct r as [[ids q]|]; [|done]. rewrite length_app in Hr. cbn in Hr. intuition lia.
    + simplify_eq. pose proof (close_each_without ls k1) as Hc. split; [exact (without_ok _ _ _ Hk1 Hc)|].
      pose proof (without_trans _ _ _ _ _ Hb1 Hc) as Hc'. apply without_nil; [exact (bound_undone _ _ _ _ _ _ Hk0 Hb Hc')|].
      etrans; [apply Hb|apply Hc'].
Qed.

Lemma listen_loop_spec n port k r k' :
  kernel_ok k -> listen_loop (S n) port [] k = (r, k') ->
  kernel_ok k' /\ match r with
                  | Ok (ids, q) => bound port ids q k k' /\ q <> 0 /\ length ids = S n
                  | Err _ => without [] k k'
                  end.
Proof.
  intros Hk Hr. cbn [listen_loop] in Hr. destruct (bind port k) as [[[id q]|e] k1] eqn:Eb; destruct (bind_bound _ _ _ _ Hk Eb) as [Hk1 Hb].
  - destruct Hb as [Hb Hq]. by eapply listen_rest_spec in Hr.
  - by simplify_eq.
Qed.

Lemma loops_of_pos reuse supp loops ncpu : 0 < ncpu -> 0 < loops_of reuse supp loops ncpu.
Proof. unfold loops_of. intros. destruct (Z.leb_spec loops 0), (negb reuse || negb supp); lia. Qed.

(** What a bound listener is: on one port, the one asked for if any. *)
Definition made (loops port : Z) (ln : listener) (k k' : kernel) : Prop :=
  bound port (subs ln) (l_port ln) k k' /\ well_made ln /\ l_port ln <> 0 /\ Z.of_nat (length (subs ln)) = loops.

Lemma Listen_spec reuse supp loops ncpu port k r k' :
  kernel_ok k -> 0 < ncpu -> Listen reuse supp loops ncpu port k = (r, k') ->
  kernel_ok k' /\ match r with
                  | Ok ln => made (loops_of reuse supp loops ncpu) port ln k k'
                  | Err _ => without [] k k'
                  end.
Proof.
  intros Hk Hn. pose proof (loops_of_pos reuse supp loops ncpu Hn). unfold Listen.
  destruct (Z.eqb_spec (loops_of reuse supp loops ncpu) 1) as [->|].
  - destruct (bind port k) as [[[id q]|e] k1] eqn:Eb; destruct (bind_bound _ _ _ _ Hk Eb) as [Hk1 Hb]; intros [= <- <-]; split; try done.
    destruct Hb. split_and!; try done. right. by exists id.
  - destruct (Z.to_nat _) as [|m] eqn:E; [lia|]. destruct (listen_loop _ _ _ _) as [[[ids q]|e] k1] eqn:El;
      destruct (listen_loop_spec _ _ _ _ _ Hk El) as [Hk1 Hb]; intros [= <- <-]; split; try done.
    destruct Hb as (Hb & Hq & Hlen). split_and!; try done; [by left|]. cbn. lia.
Qed.

(** What [p.Listen] opens. *)
Definition proxy_loops (o : options) : Z :=
  if udp o then 1 else loops_of (reusePort o) (supported o) (acceptLoops o) (numcpu o).

Lemma proxy_bind_spec o p k r k' :
  kernel_ok k -> 0 < numcpu o -> proxy_bind o p k = (r, k') ->
  kernel_ok k' /\ match r with Ok ln => made (proxy_loops o) (port p) ln k k' | Err _ => without [] k k' end.
Proof.
  intros Hk Hn. unfold proxy_bind, proxy_loops. destruct (udp o); [|by apply Listen_spec].
  destruct (bind (port p) k) as [[[id q]|e] k1] eqn:Eb; destruct (bind_bound _ _ _ _ Hk Eb) as [Hk1 Hb]; intros [= <- <-]; split; try done.
  destruct Hb. split_and!; try done. right. by exists id.
Qed.

(** ** No order of the two goroutines leaks a socket *)

Definition session_holds (s : session_at) : list N := match s with SCommit ln => subs ln | _ => [] end.
Definition run_holds (r : run_at) : list N := match r with RCommit ln => subs ln | _ => [] end.
Definition proxy_holds (p : proxy) : list N := match p_listener p with Some ln => subs ln | None => [] end.
Definition holds (s : sys) : list N := session_holds (session s) ++ run_holds (run s) ++ proxy_holds (px s).

(** A listener of this proxy: its sockets were opened since [k0]. *)
Definition own (k0 k : kernel) (ln : listener) : Prop :=
  well_made ln /\ forall i, i ∈ subs ln -> (fresh_id k0 <= i < fresh_id k)%N.

Definition all_dead (ids : list N) (k : kernel) : Prop := forall i, i ∈ ids -> live k !! i = None.

(** The kernel since [k0]: the sockets that were open then are as they were. *)
Definition base (k0 k : kernel) : Prop :=
  kernel_ok k /\ later k0 k /\ forall i, (i < fresh_id k0)%N -> live k !! i = live k0 !! i.

(** What is served is the proxy's, or was. *)
Definition serves (p : proxy) (k : kernel) (ln : listener) : Prop :=
  p_listener p = Some ln \/ closed p = true /\ all_dead (subs ln) k.

(** Where [Run] is, given the rest. *)
Definition run_ok (k0 : kernel) (p : proxy) (k : kernel) (r : run_at) : Prop :=
  match r with
  | RWait | RRead | RDrain | RDone => True
  | RBind => closed p = true
  | RCommit ln => closed p = true /\ own k0 k ln
  | RReread | RPanic => False
  | RServe ln sv => own k0 k ln /\ running sv ⊆ subs ln /\ running sv <> [] /\ serves p k ln
  | RUdp ln u => own k0 k ln /\ serves p k ln
  end.

(** Who may still handle visitors, and for whom. *)
Definition handlers_ok (r : run_at) (h : list N) : Prop :=
  match r with RServe _ _ | RDrain => True | _ => h = [] end.

Definition session_ok (k0 : kernel) (p : proxy) (k : kernel) (r : run_at) (s : session_at) : Prop :=
  match s with
  | SBound => is_Some (p_listener p) \/ closed p = true
  | SDropped => closed p = true /\ r = RWait
  | SCommit ln => own k0 k ln /\ p_listener p = None /\ closed p = false /\ r = RWait
  | _ => p_listener p = None /\ closed p = false /\ r = RWait
  end.

Record inv (k0 : kernel) (s : sys) : Prop := {
  i_base : base k0 (k s);
  i_held i : (fresh_id k0 <= i)%N -> is_Some (live (k s) !! i) -> i ∈ holds s;
  i_closed : closed (px s) = true -> p_listener (px s) = None;
  i_listener ln : p_listener (px s) = Some ln -> own k0 (k s) ln;
  i_session : session_ok k0 (px s) (k s) (run s) (session s);
  i_run : run_ok k0 (px s) (k s) (run s);
  i_handlers : handlers_ok (run s) (handlers s) }.

Lemma own_later k0 k k' ln : later k k' -> own k0 k ln -> own k0 k' ln.
Proof. intros Hl [Hw Ho]. split; [done|]. intros i Hi. apply Ho in Hi. pose proof (later_fresh _ _ Hl). lia. Qed.

Lemma made_own loops port ln k0 k k' : later k0 k -> made loops port ln k k' -> own k0 k' ln.
Proof.
  intros Hl ((_ & _ & F & _) & Hw & _). split; [done|]. intros i Hi. apply F in Hi. pose proof (later_fresh _ _ Hl). lia.
Qed.

(** Sockets that are dead stay dead when others are opened or closed. *)
Lemma all_dead_opened k0 k k' ids loops port ln :
  (forall i, i ∈ ids -> (fresh_id k0 <= i < fresh_id k)%N) -> all_dead ids k -> made loops port ln k k' -> all_dead ids k'.
Proof.
  intros Hf Hd (([O _] & _ & F & _) & _) i Hi. rewrite O. case_bool_decide as E; [|by apply Hd].
  apply F in E. apply Hf in Hi. lia.
Qed.

Lemma all_dead_without k k' ids ids' : all_dead ids k -> without ids' k k' -> all_dead ids k'.
Proof. intros Hd [W _] i Hi. rewrite W. case_bool_decide; [done|by apply Hd]. Qed.

Lemma without_dead ids k k' : without ids k k' -> all_dead ids k'.
Proof. intros [W _] i Hi. rewrite W. by case_bool_decide. Qed.

Lemma later_made loops port ln k k' : made loops port ln k k' -> later k k'.
Proof. by intros (([_ L] & _) & _). Qed.

Lemma base_without k0 k k' ids :
  (forall i, i ∈ ids -> (fresh_id k0 <= i)%N) -> base k0 k -> without ids k k' -> base k0 k'.
Proof.
  intros Hf (Hk & Hl & Ho) Hw. split_and!; [by eapply without_ok|by etrans; [|apply Hw]|].
  intros i Hi. destruct Hw as [W _]. rewrite W. case_bool_decide as E; [apply Hf in E; lia|by apply Ho].
Qed.

Lemma base_nil k0 k k' : base k0 k -> without [] k k' -> base k0 k'.
Proof. intros Hb. apply (base_without _ k _ []); [set_solver|done]. Qed.

Lemma base_made k0 k k' loops port ln : base k0 k -> kernel_ok k' -> made loops port ln k k' -> base k0 k'.
Proof.
  intros (_ & Hl & Ho) Hk' Hm. split_and!; [done|by etrans; [|by eapply later_made]|].
  intros i Hi. destruct Hm as (([O _] & _ & F & _) & _). rewrite O. case_bool_decide as E; [|by apply Ho].
  apply F in E. pose proof (later_fresh _ _ Hl). lia.
Qed.

Lemma inv_start port k : kernel_ok k -> inv k (start port k).
Proof.
  intros Hk. split; cbn; try done.
  intros i Hi Hs. apply (ok_fresh k Hk) in Hs. lia.
Qed.

(** [Run] does not care what else is opened, or which other sockets are closed. *)
Lemma run_ok_later (k0 k k' : kernel) p r :
  later k k' -> (forall ids, (forall i, i ∈ ids -> (fresh_id k0 <= i < fresh_id k)%N) -> all_dead ids k -> all_dead ids k') ->
  run_ok k0 p k r -> run_ok k0 p k' r.
Proof.
  intros Hl Hd.
  assert (forall ln, own k0 k ln -> serves p k ln -> serves p k' ln) as Hs.
  { intros ln Ho [?|[? Hdead]]; [by left|right]. split; [done|]. apply Hd; [apply Ho|done]. }
  destruct r as [| | |ln| |ln sv| |ln u| |]; cbn; try done.
  - intros [? ?]. split; [done|by eapply own_later].
  - intros (Ho & ? & ? & ?). split_and!; [by eapply own_later|done|done|by apply Hs].
  - intros (Ho & ?). split; [by eapply own_later|by apply Hs].
Qed.

Lemma run_ok_made (k0 k k' : kernel) loops port ln p r : made loops port ln k k' -> run_ok k0 p k r -> run_ok k0 p k' r.
Proof.
  intros Hm. apply run_ok_later; [by eapply later_made|]. intros ids Hf Hd. by eapply all_dead_opened.
Qed.

Lemma run_ok_without (k0 k k' : kernel) ids p r : without ids k k' -> run_ok k0 p k r -> run_ok k0 p k' r.
Proof.
  intros Hw. apply run_ok_later; [apply Hw|]. intros ids' Hf Hd. by eapply all_dead_without.
Qed.

Lemma made_held (k k' : kernel) loops port ln (held : list N) i :
  made loops port ln k k' -> (is_Some (live k !! i) -> i ∈ held) -> is_Some (live k' !! i) -> i ∈ subs ln ++ held.
Proof.
  intros (([O _] & _) & _) Hh. rewrite O. case_bool_decide; intros; apply elem_of_app; [by left|right; auto].
Qed.

Lemma without_held k k' ids (held held' : list N) i :
  without ids k k' -> (forall j, j ∈ held -> j ∈ ids \/ j ∈ held') -> (is_Some (live k !! i) -> i ∈ held) ->
  is_Some (live k' !! i) -> i ∈ held'.
Proof.
  intros [W _] Hh Hk. rewrite W. case_bool_decide; [by intros []|]. intros Hs. destruct (Hh i (Hk Hs)); done.
Qed.

Lemma step_bind_inv o k0 p r h c k res k' :
  0 < numcpu o -> proxy_bind o p k = (res, k') -> inv k0 (MkSys p SBind r h c k) ->
  inv k0 (MkSys p (match res with Ok ln => SCommit ln | Err _ => SFailed end) r h c k').
Proof.
  intros Hn Hb [Hbase Hh Hc Hl Hs Hr Hhand]. cbn in *. destruct Hs as (Hp & Hcl & Hrw).
  apply proxy_bind_spec in Hb as [Hk' Hb]; [|apply Hbase|done]. destruct res as [ln|e].
  - split; cbn; [by eapply base_made| |done|intros ln'; by rewrite Hp| |by eapply run_ok_made|done].
    + intros i Hi. eapply made_held; [done|]. intros Hs. by apply Hh.
    + split_and!; try done. eapply made_own; [apply Hbase|done].
  - split; cbn; [by eapply base_nil| |done|intros ln'; by rewrite Hp|done|by eapply run_ok_without|done].
    intros i Hi. eapply without_held; [done|by right|]. intros Hs. by apply Hh.
Qed.

(** Closing what [p.listener] holds, or what [Listen] bound too late. *)
Lemma step_commit_inv k0 p ln r h c k res p' k' :
  proxy_commit ln p k = (res, p', k') -> inv k0 (MkSys p (SCommit ln) r h c k) ->
  inv k0 (MkSys p' (match res with Ok _ => SBound | Err _ => SFailed end) r h c k').
Proof.
  intros Hb [Hbase Hh Hc Hl Hs Hr Hhand]. cbn in *. destruct Hs as (Ho & Hp & Hcl & ->).
  unfold proxy_commit in Hb. rewrite Hcl in Hb. simplify_eq. split; cbn; try done; [|by intros ? [= <-]|by left].
  intros i Hi Hs. apply (Hh i Hi) in Hs. unfold holds, proxy_holds in *. cbn in *. by rewrite Hp, app_nil_r in Hs.
Qed.

(** [Close] of a bound proxy; [s'] is where the session then is. *)
Lemma Close_inv k0 p r h c c' k res p' k' s' :
  s' = SBound \/ s' = SDropped /\ r = RWait ->
  proxy_Close p k = (res, p', k') -> inv k0 (MkSys p SBound r h c k) -> inv k0 (MkSys p' s' r h c' k').
Proof.
  intros Hs' Hb [Hbase Hh Hc Hl Hs Hr Hhand]. cbn in *. unfold proxy_Close in Hb.
  assert (session_holds s' = []) as Hsh by (by destruct Hs' as [->|[-> _]]).
  assert (forall k, session_ok k0 (MkProxy (port p) None true) k r s') as Hso.
  { intros k1. destruct Hs' as [->|[-> ->]]; cbn; [by right|done]. }
  destruct (p_listener p) as [ln|] eqn:Hp.
  - destruct (CloseListener ln k) as [r' k1] eqn:Ek. simplify_eq. pose proof (Hl ln eq_refl) as [Hm Ho].
    pose proof (CloseListener_without ln k Hm) as Hw. rewrite Ek in Hw. cbn in Hw.
    split; cbn; try done; [eapply base_without; [|done..]|..].
    + intros i Hi. apply Ho in Hi. lia.
    + intros i Hi. eapply (without_held k _ (subs ln) (run_holds r ++ subs ln)); [done| |].
      { unfold holds, proxy_holds. cbn. rewrite Hsh. clear. intros j. cbn. rewrite !elem_of_app, elem_of_nil. tauto. }
      intros H. apply (Hh i Hi) in H. unfold holds, proxy_holds in H. cbn in H. by rewrite Hp in H.
    + assert (forall ln', serves p k ln' -> serves (MkProxy (port p) None true) k' ln') as Hsv.
      { intros ln' Hv. right. split; [done|]. destruct Hv as [Hv|[_ Hd]];
          [rewrite Hp in Hv; simplify_eq; by eapply without_dead|by eapply all_dead_without]. }
      destruct r as [| | |ln'| |ln' sv| |ln' u| |]; cbn in *; try done.
      * destruct Hr. split; [done|]. by eapply own_later; [apply Hw|].
      * destruct Hr as (Ho' & Hsub & Hne & Hr). split_and!; [by eapply own_later; [apply Hw|]|done|done|by apply Hsv].
      * destruct Hr as (Ho' & Hr). split; [by eapply own_later; [apply Hw|]|by apply Hsv].
  - simplify_eq. split; cbn; try done.
    + intros i Hi Hk. pose proof (Hh i Hi Hk) as H. unfold holds, proxy_holds in *. cbn in *. rewrite Hsh. by rewrite Hp in H.
    + assert (forall ln', serves p k' ln' -> serves (MkProxy (port p) None true) k' ln') as Hsv.
      { intros ln' [Hv|[_ Hd]]; [by rewrite Hp in Hv|by right]. }
      destruct r as [| | |ln'| |ln' sv| |ln' u| |]; cbn in *; try done; [by destruct Hr|..].
      * destruct Hr as (? & ? & ? & ?). split_and!; try done. by apply Hsv.
      * destruct Hr as (? & ?). split_and!; try done. by apply Hsv.
Qed.

Lemma inv_bound k0 p s r h c k : inv k0 (MkSys p s r h c k) -> r <> RWait -> s = SBound.
Proof. intros [_ _ _ _ Hs _ _] Hr. cbn in *. destruct s; try done; naive_solver. Qed.

Lemma step_rebind_inv o k0 p s h c k res k' :
  0 < numcpu o -> proxy_bind o p k = (res, k') -> inv k0 (MkSys p s RBind h c k) ->
  inv k0 (MkSys p s (match res with Ok ln => RCommit ln | Err _ => RDone end) h c k').
Proof.
  intros Hn Hb Hi. assert (s = SBound) as -> by by eapply inv_bound. destruct Hi as [Hbase Hh Hc Hl Hs Hr Hhand]. cbn in *.
  apply proxy_bind_spec in Hb as [Hk' Hb]; [|apply Hbase|done]. pose proof (Hc Hr) as Hp. destruct res as [ln|e].
  - split; cbn; [by eapply base_made| |done|intros ln'; by rewrite Hp|by right| |done].
    + intros i Hi. eapply made_held; [done|]. intros H. by apply (Hh i).
    + split; [done|]. eapply made_own; [apply Hbase|done].
  - split; cbn; [by eapply base_nil| |done|intros ln'; by rewrite Hp|done|done|done].
    intros i Hi. eapply without_held; [done|by right|]. intros H. by apply (Hh i).
Qed.

Lemma step_recommit_inv k0 p s ln h c k res p' k' :
  proxy_commit ln p k = (res, p', k') -> inv k0 (MkSys p s (RCommit ln) h c k) ->
  inv k0 (MkSys p' s (match res with Ok _ => RReread | Err _ => RDone end) h c k').
Proof.
  intros Hb Hi. assert (s = SBound) as -> by by eapply inv_bound. destruct Hi as [Hbase Hh Hc Hl Hs [Hr Ho] Hhand]. cbn in *.
  unfold proxy_commit in Hb. rewrite Hr in Hb. simplify_eq. pose proof (Hc Hr) as Hp.
  pose proof (CloseListener_without ln k (proj1 Ho)) as Hw.
  split; cbn; [eapply base_without; [|done..]| |done|intros ln'; by rewrite Hp|done|done|done].
  - intros i Hi. apply Ho in Hi. lia.
  - intros i Hi. eapply (without_held k _ (subs ln)); [done|by left|].
    intros H. apply (Hh i Hi) in H. unfold holds, proxy_holds in H. cbn in H. by rewrite Hp, app_nil_r in H.
Qed.

Lemma serve_step_spec ln id a sv k sv' k' :
  well_made ln -> serve_step ln id a (sv, k) = (sv', k') ->
  running sv' ⊆ running sv /\ (k' = k \/ without (subs ln) k k').
Proof.
  intros Hm. unfold serve_step.
  destruct (bool_decide (id ∈ running sv)); cbn; [|intros [= <- <-]; split; [done|by left]].
  assert (filter (fun x => x <> id) (running sv) ⊆ running sv) as Hf by (intros x; rewrite list_elem_of_filter; tauto).
  destruct a as [c|e kind|]; [intros [= <- <-]; split; [done|by left]|..];
    destruct (0 <? acceptRetryDelay _); intros [= <- <-]; (split; [done|]); try (by left); right; by apply CloseListener_without.
Qed.

Lemma serving_on_ok k0 k p ln sv :
  own k0 k ln -> running sv ⊆ subs ln -> serves p k ln -> run_ok k0 p k (serving_on ln sv).
Proof. intros. unfold serving_on. destruct (running sv) eqn:E; [done|]. cbn. rewrite E. by split_and!. Qed.

Lemma serving_on_holds ln sv : run_holds (serving_on ln sv) = [].
Proof. unfold serving_on. by destruct (running sv). Qed.

Lemma serving_on_handlers ln sv h : handlers_ok (serving_on ln sv) h.
Proof. unfold serving_on. by destruct (running sv). Qed.

Lemma step_serve_inv k0 p s ln sv h h' c k id a sv' k' :
  serve_step ln id a (sv, k) = (sv', k') -> inv k0 (MkSys p s (RServe ln sv) h c k) ->
  inv k0 (MkSys p s (serving_on ln sv') h' c k').
Proof.
  intros Hb Hi. assert (s = SBound) as -> by by eapply inv_bound.
  destruct Hi as [Hbase Hh Hc Hl Hs (Ho & Hsub & Hne & Hr) Hhand]. cbn in *.
  apply serve_step_spec in Hb as [Hrun Hk]; [|apply Ho].
  assert (later k k') as Hlk by (by destruct Hk as [->|Hk]; [|apply Hk]).
  split; cbn.
  - destruct Hk as [->|Hk]; [done|]. eapply base_without; [|done..]. intros i Hi. apply Ho in Hi. lia.
  - intros i Hi Hsm. unfold holds. cbn. rewrite serving_on_holds. apply (Hh i Hi). destruct Hk as [->|[W _]]; [done|].
    rewrite W in Hsm. case_bool_decide; [by destruct Hsm|done].
  - done.
  - intros ln' Hln. by eapply own_later, Hl.
  - done.
  - apply serving_on_ok; [by eapply own_later|by etrans|]. destruct Hr as [?|[? Hd]]; [by left|right].
    split; [done|]. destruct Hk as [->|Hk]; [done|by eapply all_dead_without].
  - apply serving_on_handlers.
Qed.

(** A step of [Run] that leaves the sockets alone. *)
Lemma inv_run k0 p s r r' h h' c c' k :
  run_holds r' = run_holds r -> session_ok k0 p k r' s -> run_ok k0 p k r' -> handlers_ok r' h' ->
  inv k0 (MkSys p s r h c k) -> inv k0 (MkSys p s r' h' c' k).
Proof.
  intros He Hs' Hr' Hh' [Hbase Hh Hc Hl Hs Hr Hhand]. split; cbn in *; try done.
  intros i Hi Hk. specialize (Hh i Hi Hk). unfold holds in *. cbn in *. by rewrite He.
Qed.

Lemma begin_serve_ok o k0 p k ln :
  own k0 k ln -> p_listener p = Some ln ->
  run_ok k0 p k (begin_serve o (Some ln)) /\ run_holds (begin_serve o (Some ln)) = []
  /\ handlers_ok (begin_serve o (Some ln)) [].
Proof.
  intros Ho Hp. unfold begin_serve. destruct (udp o); [split_and!; [split; [done|by left]|done|done]|].
  split_and!; [apply serving_on_ok; [done|done|by left]|apply serving_on_holds|apply serving_on_handlers].
Qed.

Lemma step_inv o k0 s s' : 0 < numcpu o -> step o s s' -> inv k0 s -> inv k0 s'.
Proof.
  intros Hn Hs Hi. destruct Hs as
    [| | | | | | | | | |p s ln sv h c k id a sv' k' Hid Hg Hsv|p s r h1 conn h2 c k|p s c k|p s ln u h c k u' Hu].
  - by eapply step_bind_inv.
  - by eapply step_commit_inv.
  - by destruct Hi.
  - eapply Close_inv; [by right|done..].
  - by destruct Hi.
  - eapply Close_inv; [by left|done..].
  - assert (s = SBound) as -> by by eapply inv_bound. destruct (i_session _ _ Hi) as [[ln Hp]|Hc]; cbn in *.
    + rewrite Hp. destruct (begin_serve_ok o k0 p k1 ln (i_listener _ _ Hi ln Hp) Hp) as (H1 & H2 & H3).
      pose proof (i_handlers _ _ Hi) as Hh. cbn in Hh. subst h. eapply inv_run; [| | | |exact Hi]; try done. left. by exists ln.
    + pose proof (i_closed _ _ Hi Hc) as Hp. cbn in Hp. rewrite Hp. eapply inv_run; [| | | |exact Hi]; try done; [by right|apply (i_handlers _ _ Hi)].
  - by eapply step_rebind_inv.
  - by eapply step_recommit_inv.
  - by destruct (i_run _ _ Hi).
  - by eapply step_serve_inv.
  - destruct Hi as [Hbase Hh Hc Hl Hs Hr Hhand]. split; cbn in *; try done.
    destruct r; cbn in *; try done; by destruct h1.
  - assert (s = SBound) as -> by by eapply inv_bound. by eapply inv_run; [| | | |exact Hi]; try done; apply (i_session _ _ Hi).
  - assert (s = SBound) as -> by by eapply inv_bound. pose proof (i_handlers _ _ Hi) as Hh. pose proof (i_run _ _ Hi) as Hr. cbn in *.
    eapply inv_run; [| | | |exact Hi]; try (by destruct u'); apply (i_session _ _ Hi).
Qed.

Lemma reachable_inv o port k s : 0 < numcpu o -> kernel_ok k -> rtc (step o) (start port k) s -> inv k s.
Proof.
  intros Hn Hk Hr. assert (inv k (start port k)) as Hi by by apply inv_start. revert Hi.
  induction Hr as [s|s1 s2 s3 Hs _ IH]; [done|]. intros Hi. by eapply IH, step_inv.
Qed.

(** Nothing of the proxy is open when it holds nothing. *)
Lemma inv_nothing k0 s : kernel_ok k0 -> inv k0 s -> holds s = [] -> live (k s) = live k0.
Proof.
  intros Hk0 [(_ & _ & Ho) Hh _ _ _ _] Hn. apply map_eq. intros i.
  destruct (decide (i < fresh_id k0)%N) as [Hi|Hi]; [by apply Ho|].
  destruct (live k0 !! i) eqn:E; [apply mk_is_Some, (ok_fresh k0 Hk0) in E; lia|].
  destruct (live (k s) !! i) eqn:E1; [|done]. exfalso. apply (not_elem_of_nil i). rewrite <- Hn. apply Hh; [lia|by rewrite E1].
Qed.

(** ** A closed proxy comes to rest *)

(** A step that changes something: closing a closed proxy again does not. *)
Definition moves (o : options) (s s' : sys) : Prop := step o s s' /\ s <> s'.

(** What is left to do once the proxy is closed. *)
Definition udp_work (u : udp_at) : nat :=
  match u with
  | UWait r true => 1 + Nat.b2n r
  | UFirst => 3
  | UTop => 4
  | URetry => 5
  | UWait r false => 6 + Nat.b2n r
  | UServing r => 8 + Nat.b2n r
  end.

Definition run_work (r : run_at) : nat :=
  match r with
  | RDone | RPanic => 0
  | RDrain => 1
  | RServe _ sv => 2 + length (running sv)
  | RUdp _ u => udp_work u
  | RCommit _ => 3
  | RReread => 2
  | RBind => 4
  | RRead => 5
  | RWait => 6
  end.

Definition work (s : sys) : nat :=
  run_work (run s) + length (handlers s) + Nat.b2n (negb (ctx s))
  + match session s with SDropped => 0 | _ => 1 end.

Lemma filter_fewer (id : N) l : id ∈ l -> (length (filter (fun x => x <> id) l) < length l)%nat.
Proof.
  intros (l1 & l2 & ->)%list_elem_of_split. rewrite filter_app, filter_cons_False by (intros []; done).
  rewrite !length_app. cbn. pose proof (length_filter (fun x => x <> id) l1). pose proof (length_filter (fun x => x <> id) l2). lia.
Qed.

Lemma serve_closed_fewer ln id sv k sv' k' :
  id ∈ running sv -> serve_step ln id AcceptClosed (sv, k) = (sv', k') ->
  (run_work (serving_on ln sv') < run_work (RServe ln sv))%nat.
Proof.
  intros Hid. unfold serve_step. rewrite bool_decide_eq_true_2 by done. cbn. intros [= <- <-].
  pose proof (filter_fewer id _ Hid). unfold serving_on. cbn. destruct (filter _ _); cbn in *; lia.
Qed.

Lemma closed_socket_dead ln k : all_dead (subs ln) k -> closed_socket ln k = true.
Proof. intros Hd. unfold closed_socket. apply forallb_forall. intros i Hi. apply bool_decide_eq_true, Hd, list_elem_of_In, Hi. Qed.

Lemma udp_step_works ctx u u' :
  udp_step true ctx u u' -> match u' with Some u' => (udp_work u' < udp_work u)%nat | None => (0 < udp_work u)%nat end.
Proof.
  intros Hs. inversion Hs; subst; try done; repeat match goal with b : bool |- _ => destruct b end; cbn; lia.
Qed.

Lemma closed_shape k0 s : inv k0 s -> closed (px s) = true -> p_listener (px s) = None /\ (session s = SBound \/ session s = SDropped /\ run s = RWait).
Proof.
  intros Hi Hc. split; [by apply (i_closed _ _ Hi)|]. pose proof (i_session _ _ Hi) as Hs.
  destruct (session s); cbn in Hs; naive_solver congruence.
Qed.

(** Every step of a closed proxy leaves it closed, and with less to do. *)
Lemma closed_works o k0 s s' :
  0 < numcpu o -> inv k0 s -> closed (px s) = true -> moves o s s' -> closed (px s') = true /\ (work s' < work s)%nat.
Proof.
  intros Hn Hi Hc [Hs Hne]. destruct (closed_shape _ _ Hi Hc) as [Hp Hse]. pose proof (i_run _ _ Hi) as Hr.
  assert (forall p k, closed p = true -> p_listener p = None -> proxy_Close p k = (Ok tt, p, k)) as Hclose.
  { intros [q ? ?] k1 ? ?. cbn in *. by subst. }
  destruct Hs as [p r h c k res k' Hb|p ln r h c k res p' k' Hb|p h c k|p h c k res p' k' Hb|p r h c k|p r h c k res p' k' Hb
    |p s h c k|p s h c k res k' Hb|p s ln h c k res p' k' Hb|p s h c k|p s ln sv h c k id a sv' k' Hid Hg Hsv
    |p s r h1 conn h2 c k|p s c k|p s ln u h c k u' Hu]; cbn in *; unfold work; cbn [run handlers ctx session].
  - by destruct Hse as [|[]].
  - by destruct Hse as [|[]].
  - split; [done|]. cbn. lia.
  - rewrite Hclose in Hb by done. simplify_eq. split; [done|]. cbn. destruct c; cbn; lia.
  - split; [done|]. destruct c; [done|]. cbn. lia.
  - rewrite Hclose in Hb by done. by simplify_eq.
  - rewrite Hp. split; [done|]. cbn. lia.
  - split; [done|]. destruct res; cbn; lia.
  - unfold proxy_commit in Hb. rewrite Hc in Hb. simplify_eq. split; [done|]. cbn. lia.
  - by destruct Hr.
  - split; [done|]. destruct Hr as (_ & Hsub & _ & [Hv|[_ Hd]]); [congruence|].
    assert (a = AcceptClosed) as ->.
    { destruct a; [| |done]; cbn in Hg; rewrite (Hd id (Hsub id Hid)) in Hg; by destruct Hg. }
    pose proof (serve_closed_fewer _ _ _ _ _ _ Hid Hsv) as Hw. cbn [run_work] in *. lia.
  - split; [done|]. rewrite !length_app. cbn. lia.
  - split; [done|]. cbn. lia.
  - split; [done|]. destruct Hr as (_ & [Hv|[_ Hd]]); [congruence|]. rewrite (closed_socket_dead _ _ Hd) in Hu.
    apply udp_step_works in Hu. destruct u'; cbn; lia.
Qed.

(** What does not end by itself, and how the rest goes on. *)
Lemma closed_moves o k0 s :
  inv k0 s -> closed (px s) = true -> (forall s', ~ moves o s s') ->
  handlers s = [] /\ (run s = RDone \/ session s = SDropped /\ run s = RWait).
Proof.
  intros Hi Hc Hstuck. destruct (closed_shape _ _ Hi Hc) as [Hp Hse]. pose proof (i_run _ _ Hi) as Hr.
  destruct s as [p se r h c k]. cbn in *.
  assert (h = []) as ->.
  { destruct h as [|conn h]; [done|]. exfalso. eapply Hstuck. split; [apply (step_handled o p se r [] conn h)|].
    intros [= E]. apply (f_equal length) in E. cbn in E. lia. }
  split; [done|]. destruct Hse as [->|[-> ->]]; [left|by right].
  assert (Hgo : forall s', step o (MkSys p SBound r [] c k) s' -> r <> run s' -> False).
  { intros s' Hs Hne. apply (Hstuck s'). split; [done|]. by intros <-. }
  destruct r as [| | |ln| |ln sv| |ln u| |]; cbn in *; try done; exfalso.
  - by eapply Hgo; [apply step_start|].
  - eapply Hgo; [apply step_read|]. by rewrite Hp.
  - destruct (proxy_bind o p k) as [res k'] eqn:Eb. eapply Hgo; [by eapply step_rebind|]. by destruct res.
  - eapply Hgo; [by eapply step_recommit; unfold proxy_commit; rewrite Hc|]. done.
  - destruct Hr as (_ & Hsub & Hne & [Hv|[_ Hd]]); [congruence|]. destruct (running sv) as [|id ids] eqn:E; [done|].
    assert (id ∈ running sv) as Hid by (rewrite E; left).
    destruct (serve_step ln id AcceptClosed (sv, k)) as [sv' k'] eqn:Es.
    eapply Hgo; [eapply (step_serve o _ _ _ _ _ _ _ id AcceptClosed); [done| |done]|].
    + cbn. apply Hd, Hsub. left.
    + pose proof (serve_closed_fewer _ _ _ _ _ _ Hid Es) as Hw. intros Er. cbn [run] in Er. rewrite <- Er in Hw. lia.
  - by eapply Hgo; [apply step_drained|].
  - destruct Hr as (_ & [Hv|[_ Hd]]); [congruence|]. pose proof (closed_socket_dead _ _ Hd) as Hg.
    assert (exists u', udp_step (closed_socket ln k) c u u') as [u' Hu].
    { rewrite Hg. destruct u as [| |b|[] b|]; eexists; by constructor. }
    pose proof Hu as Hw. rewrite Hg in Hw. apply udp_step_works in Hw.
    eapply Hgo; [by eapply step_udp|]. cbn. destruct u' as [u'|]; [|done]. intros [= <-]. lia.
Qed.

Lemma closed_rests o k0 n s s' :
  0 < numcpu o -> inv k0 s -> closed (px s) = true -> nsteps (moves o) n s s' ->
  inv k0 s' /\ closed (px s') = true /\ (n + work s' <= work s)%nat.
Proof.
  intros Hn. revert s; induction n as [|n IH]; intros s Hi Hc Hs; inversion Hs as [|? ? y ? Hm Hs']; subst; [by split_and!; [| |lia]|].
  destruct (closed_works _ _ _ _ Hn Hi Hc Hm) as [Hc' Hw]. pose proof (step_inv _ _ _ _ Hn (proj1 Hm) Hi) as Hi'.
  destruct (IH y Hi' Hc' Hs') as (? & ? & ?). split_and!; [done|done|lia].
Qed.

(** C4: Whatever the session and [Run] of a proxy do, and in whatever order, the
    sockets it opened are held by [p.listener] or by a [Listen] that has not
    finished; nobody else's are touched.  After [Bind] it listens until it is
    closed, and [Run] never serves a listener that is gone.  [Run] of a TCP proxy
    returns only when no visitor is handled any more.  Once the proxy is closed
    and no [Listen] is in the middle, all it opened is closed, also what [Run]
    bound meanwhile; and from there every run is bounded: it can only come to
    rest, with [Run] returned (where it was started at all) and every visitor
    done, a handler or a goroutine of UDP replies that is still at work counting
    as able to end. *)
Theorem no_listener_leaks o port k0 s :
  0 < numcpu o -> kernel_ok k0 -> rtc (step o) (start port k0) s ->
  (forall i, (i < fresh_id k0)%N -> live (k s) !! i = live k0 !! i)
  /\ (forall i, (fresh_id k0 <= i)%N -> is_Some (live (k s) !! i) -> i ∈ holds s)
  /\ run s <> RPanic
  /\ (session s = SFailed -> live (k s) = live k0)
  /\ (session s = SBound -> closed (px s) = false -> is_Some (p_listener (px s)))
  /\ (run s = RDone -> handlers s = [])
  /\ (closed (px s) = true ->
       (run_holds (run s) = [] -> live (k s) = live k0)
       /\ exists bound, forall n s', nsteps (moves o) n s s' ->
            (n <= bound)%nat
            /\ ((forall s'', ~ moves o s' s'') ->
                 (run s' = RDone \/ session s' = SDropped /\ run s' = RWait) /\ handlers s' = [] /\ live (k s') = live k0)).
Proof.
  intros Hn Hk Hr. pose proof (reachable_inv _ _ _ _ Hn Hk Hr) as Hi.
  assert (Hgone : forall s, inv k0 s -> closed (px s) = true -> run_holds (run s) = [] -> live (k s) = live k0).
  { intros s1 Hi1 Hc1 Hrh. destruct (closed_shape _ _ Hi1 Hc1) as [Hp Hse]. apply inv_nothing; [done..|].
    unfold holds, proxy_holds. rewrite Hp, Hrh, app_nil_r. by destruct Hse as [->|[-> _]]. }
  pose proof Hi as [(_ & _ & Ho) Hh Hc _ Hs Hrun Hhand]. split_and!; [done|done|intros E; by rewrite E in Hrun|..].
  - intros E. apply inv_nothing; [done..|]. unfold holds, proxy_holds. rewrite E in *. cbn in Hs. destruct Hs as (-> & _ & ->). done.
  - intros E Hcl. rewrite E in Hs. cbn in Hs. rewrite Hcl in Hs. by destruct Hs.
  - intros E. by rewrite E in Hhand.
  - intros Hcl. split; [by apply Hgone|]. exists (work s). intros n s' Hsteps.
    destruct (closed_rests _ _ _ _ _ Hn Hi Hcl Hsteps) as (Hi' & Hc' & Hw). split; [lia|]. intros Hstuck.
    destruct (closed_moves _ _ _ Hi' Hc' Hstuck) as [Hnone Hdone]. split_and!; [done|done|]. apply Hgone; [done..|].
    by destruct Hdone as [->|[_ ->]].
Qed.

(** A UDP proxy can stop serving without anyone having closed it: the goroutine
    that carries replies closes the work connection when it ends, and the write
    that fails on it answers [net.ErrClosed], which [Run] takes for its own
    socket's. *)
Theorem udp_run_gives_up o port k0 p :
  udp o = true -> answers k0 = [Granted p] ->
  exists s, rtc (step o) (start port k0) s /\ run s = RDone /\ closed (px s) = false /\ ctx s = false
    /\ exists ln, p_listener (px s) = Some ln /\ forall i, i ∈ subs ln -> is_Some (live (k s) !! i).
Proof.
  intros Hu Ha. set (q := if port =? 0 then p else port). set (ln := MkListener [fresh_id k0] q false).
  set (k1 := MkKernel (fresh_id k0 + 1) (<[fresh_id k0 := q]> (live k0)) []). set (px' := MkProxy q (Some ln) false).
  assert (closed_socket ln k1 = false) as Hg by (unfold closed_socket; cbn; by rewrite lookup_insert_eq).
  assert (Hgo : forall u u', udp_step false false u u' ->
    step o (MkSys px' SBound (RUdp ln u) [] false k1) (MkSys px' SBound (match u' with Some u => RUdp ln u | None => RDone end) [] false k1)).
  { intros u u' H. apply step_udp. by rewrite Hg. }
  exists (MkSys px' SBound RDone [] false k1). split; [|split_and!; try done].
  - eapply rtc_l; [apply (step_bind o _ _ _ _ _ (Ok ln) k1); unfold proxy_bind; rewrite Hu; unfold bind; by rewrite Ha|].
    eapply rtc_l; [by apply (step_commit o _ _ _ _ _ _ (Ok tt) px')|]. cbn.
    eapply rtc_l; [apply step_start|]. eapply rtc_l; [apply step_read|]. cbn. rewrite Hu.
    eapply rtc_l; [apply (Hgo UTop (Some UFirst)), (udp_top false false)|].
    eapply rtc_l; [by apply (Hgo UFirst (Some (UServing true))), udp_first|].
    eapply rtc_l; [apply (Hgo _ (Some (UServing false))), udp_reply_ends|].
    eapply rtc_l; [by apply (Hgo _ (Some (UWait false true))), (udp_write_error _ _ false true)|].
    apply rtc_once. apply (Hgo _ None), (udp_after false false true).
  - exists ln. split; [done|]. intros i ->%list_elem_of_singleton. cbn. by rewrite lookup_insert_eq.
Qed.

(** Bound on two sockets, closed before [Run] has read the listener: [Run] binds
    again, finds the proxy closed, and gives that back. *)
Definition example_options : options := MkOptions false true true 2 4.
Definition example_kernel : kernel :=
  MkKernel 3 {[1%N := 80]} [Granted 40000; Granted 40000; Granted 41000; Granted 41000].

Definition first_ln : listener := MkListener [3%N; 4%N] 40000 true.
Definition second_ln : listener := MkListener [5%N; 6%N] 40000 true.
Definition unbound : proxy := MkProxy 0 None false.
Definition shut : proxy := MkProxy 40000 None true.
Definition kernel1 : kernel := (proxy_bind example_options unbound example_kernel).2.
Definition kernel2 : kernel := (CloseListener first_ln kernel1).2.
Definition kernel3 : kernel := (proxy_bind example_options shut kernel2).2.
Definition example_state : sys := MkSys shut SBound (RCommit second_ln) [] false kernel3.

Lemma example_reached : rtc (step example_options) (start 0 example_kernel) example_state.
Proof.
  eapply rtc_l; [by apply (step_bind _ unbound RWait [] false example_kernel (Ok first_ln) kernel1)|].
  eapply rtc_l; [by apply (step_commit _ unbound first_ln RWait [] false kernel1 (Ok tt))|].
  eapply rtc_l; [apply step_start|].
  eapply rtc_l; [by apply (step_close _ _ RRead [] false kernel1 (Ok tt) shut kernel2)|].
  eapply rtc_l; [apply step_read|].
  apply rtc_once. by apply (step_rebind _ shut SBound [] false kernel2 (Ok second_ln) kernel3).
Qed.

Lemma no_listener_leaks_witness :
  kernel_ok example_kernel /\ size (live (k example_state)) = 3%nat /\ holds example_state = [5%N; 6%N]
  /\ exists bound, forall n s', nsteps (moves example_options) n example_state s' -> (n <= bound)%nat.
Proof.
  assert (kernel_ok example_kernel) as Hk.
  { split; [|intros p; cbn; rewrite !elem_of_cons, elem_of_nil; intros; by destruct_or?; simplify_eq].
    intros i Hi. cbn in *. destruct (decide (i = 1%N)) as [->|Hne]; [done|].
    rewrite lookup_singleton_ne in Hi by done. by destruct Hi. }
  split; [done|]. split; [by vm_compute|]. split; [by vm_compute|].
  destruct (no_listener_leaks example_options 0 example_kernel example_state ltac:(done) Hk example_reached)
    as (_ & _ & _ & _ & _ & _ & H).
  destruct (H ltac:(by vm_compute)) as [_ [bound Hb]]. exists bound. intros n s' Hs. exact (proj1 (Hb n s' Hs)).
Defined.

(** ** The server binds all its ports or none *)

(** The sockets [ids] were opened since [k0], and nothing else changed. *)
Record grown (k0 : kernel) (ids : list N) (k : kernel) : Prop := {
  g_ok : kernel_ok k;
  g_later : later k0 k;
  g_nodup : NoDup ids;
  g_fresh i : i ∈ ids -> (fresh_id k0 <= i < fresh_id k)%N;
  g_rest i : i ∉ ids -> live k !! i = live k0 !! i }.

Definition listening (ln : listener) (k : kernel) : Prop :=
  well_made ln /\ forall i, i ∈ subs ln -> live k !! i = Some (l_port ln).

Lemma grown_made k0 ids k loops port ln k' :
  grown k0 ids k -> kernel_ok k' -> made loops port ln k k' ->
  grown k0 (ids ++ subs ln) k' /\ listening ln k'
  /\ (port <> 0 -> l_port ln = port)
  /\ (forall ln', (forall i, i ∈ subs ln' -> (i < fresh_id k)%N) -> listening ln' k -> listening ln' k').
Proof.
  intros [Hk Hl Hd Hf Hr] Hk' (([O L] & N & F & P) & W & _). pose proof (later_fresh _ _ Hl). pose proof (later_fresh _ _ L). split_and!.
  - split; [done|by etrans|..].
    + apply NoDup_app. split_and!; [done| |done]. intros i Hi Hi'. apply Hf in Hi. apply F in Hi'. lia.
    + intros i [Hi|Hi]%elem_of_app; [apply Hf in Hi|apply F in Hi]; lia.
    + intros i [Hi Hi']%not_elem_of_app. rewrite O, bool_decide_eq_false_2 by done. by apply Hr.
  - split; [done|]. intros i Hi. by rewrite O, bool_decide_eq_true_2.
  - done.
  - intros ln' Hlt [Hw Hln]. split; [done|]. intros i Hi. rewrite O. case_bool_decide as E; [|by apply Hln].
    apply F in E. apply Hlt in Hi. lia.
Qed.

Lemma grown_close k0 a b k k' : kernel_ok k0 -> grown k0 (a ++ b) k -> without b k k' -> grown k0 a k'.
Proof.
  intros Hk0 [Hk Hl Hd Hf Hr] Hw. pose proof (later_fresh _ _ (proj2 Hw)).
  split; [by eapply without_ok|by etrans; [|apply Hw]|by apply NoDup_app in Hd as [? _]|..].
  - intros i Hi. assert (i ∈ a ++ b) as Ha by (apply elem_of_app; by left). apply Hf in Ha. lia.
  - intros i Hi. destruct Hw as [W _]. rewrite W. case_bool_decide as E.
    + assert (i ∈ a ++ b) as Hb by (apply elem_of_app; by right). apply Hf in Hb.
      destruct (live k0 !! i) eqn:Ei; [|done]. apply mk_is_Some, (ok_fresh k0 Hk0) in Ei. lia.
    + apply Hr. rewrite elem_of_app. tauto.
Qed.

Lemma grown_nil k0 k : grown k0 [] k -> live k = live k0.
Proof. intros [_ _ _ _ Hr]. apply map_eq. intros i. apply Hr, not_elem_of_nil. Qed.

Definition vhost_subs (v : vhostListener) : list N := match v_listener v with Some ln => subs ln | None => [] end.
Definition vhosts_subs (vs : list vhostListener) : list N := vs ≫= vhost_subs.
Definition vhost_made (v : vhostListener) : Prop := forall ln, v_listener v = Some ln -> well_made ln.

Lemma vhost_close_without v k : vhost_made v -> without (vhost_subs v) k (vhost_close v k).2.
Proof.
  intros Hm. unfold vhost_close, vhost_subs. destruct (v_listener v) as [ln|] eqn:E.
  - pose proof (CloseListener_without ln k (Hm _ E)) as H. by destruct (CloseListener ln k).
  - by apply without_nil.
Qed.

Lemma close_vhosts_without vs k : Forall vhost_made vs -> without (vhosts_subs vs) k (close_vhosts vs k).
Proof.
  unfold close_vhosts. revert k; induction vs as [|v vs IH]; intros k Hm; cbn; [by apply without_nil|].
  inversion Hm; subst. apply (without_trans _ _ _ (vhost_close v k).2); [by apply vhost_close_without|by apply IH].
Qed.

Definition vhost_up (k : kernel) (v : vhostListener) : Prop :=
  exists ln, v_listener v = Some ln /\ listening ln k /\ l_port ln = v_port v.

Lemma vhost_up_made k vs : Forall (vhost_up k) vs -> Forall vhost_made vs.
Proof. intros H. eapply Forall_impl; [exact H|]. intros v (ln & Hv & [Hw _] & _) ln' Hln. rewrite Hv in Hln. by simplify_eq. Qed.

Lemma server_bind_spec c supp ncpu port k r k' :
  kernel_ok k -> 0 < ncpu -> server_bind c supp ncpu port k = (r, k') ->
  kernel_ok k' /\ match r with
                  | Ok ln => made (loops_of (negb (AcceptLoopsCfg c =? 1)) supp (AcceptLoopsCfg c) ncpu) port ln k k'
                  | Err _ => without [] k k'
                  end.
Proof. apply Listen_spec. Qed.

Lemma listen_vhosts_spec c supp ncpu k0 ctl wanted started k r k' :
  kernel_ok k0 -> 0 < ncpu -> grown k0 (subs ctl ++ vhosts_subs started) k -> listening ctl k -> Forall (vhost_up k) started ->
  listen_vhosts c supp ncpu wanted started k = (r, k') ->
  match r with
  | Ok vs => grown k0 (subs ctl ++ vhosts_subs vs) k' /\ listening ctl k' /\ Forall (vhost_up k') vs
             /\ (fun v => (v_scheme v, v_port v)) <$> vs
                = ((fun v => (v_scheme v, v_port v)) <$> started) ++ filter (fun w => w.2 <> 0) wanted
  | Err _ => grown k0 (subs ctl) k'
  end.
Proof.
  intros Hk0 Hn. revert started k; induction wanted as [|[scheme port] wanted IH]; intros started k Hg Hc Hup Hr; cbn [listen_vhosts] in Hr.
  - simplify_eq. split_and!; try done. by rewrite app_nil_r.
  - destruct (Z.eqb_spec port 0) as [->|Hp].
    + apply IH in Hr; [|done..]. destruct r as [vs|e]; [|done]. by rewrite filter_cons_False by (cbn; lia).
    + destruct (server_bind c supp ncpu port k) as [[ln|e] k1] eqn:Eb;
        destruct (server_bind_spec _ _ _ _ _ _ _ (g_ok _ _ _ Hg) Hn Eb) as [Hk1 Hb].
      * destruct (grown_made _ _ _ _ _ _ _ Hg Hk1 Hb) as (Hg' & Hln & Hport & Hkeep).
        assert (forall i, i ∈ subs ctl ++ vhosts_subs started -> (i < fresh_id k)%N) as Hlt by (intros i Hi; by apply (g_fresh _ _ _ Hg)).
        apply IH in Hr.
        -- destruct r as [vs|e]; [|done]. destruct Hr as (? & ? & ? & Hs). split_and!; try done.
           rewrite Hs, fmap_app, filter_cons_True by done. cbn. by rewrite <- app_assoc.
        -- unfold vhosts_subs in *. rewrite bind_app. cbn. rewrite app_nil_r, app_assoc. done.
        -- apply Hkeep; [|done]. intros i Hi. apply Hlt, elem_of_app. by left.
        -- apply Forall_app. split.
           ++ rewrite Forall_forall in *. intros v Hv. destruct (Hup v Hv) as (l & Hl & Hll & Hlp). exists l. split_and!; try done.
              apply Hkeep; [|done]. intros i Hi. apply Hlt, elem_of_app. right. apply list_elem_of_bind. exists v. unfold vhost_subs. by rewrite Hl.
           ++ apply Forall_singleton. exists ln. by split_and!; [| |apply Hport].
      * simplify_eq. assert (grown k0 (subs ctl ++ vhosts_subs started) k1) as Hg1.
        { apply (grown_close _ _ [] k); [done|by rewrite app_nil_r|done]. }
        eapply grown_close; [done|exact Hg1|]. by apply close_vhosts_without, (vhost_up_made k).
Qed.

Lemma CloseListener_listening ln k : listening ln k -> (CloseListener ln k).1 = Ok tt.
Proof.
  intros [[Hf|[id Hs]] Hl]; unfold CloseListener; [by rewrite Hf|]. destruct (fan ln); [done|].
  rewrite Hs in *. unfold close1. by rewrite (Hl id) by left.
Qed.

Lemma listening_without ln ids k k' :
  without ids k k' -> (forall i, i ∈ subs ln -> i ∉ ids) -> listening ln k -> listening ln k'.
Proof.
  intros [W _] Hd [Hw Hl]. split; [done|]. intros i Hi. rewrite W, bool_decide_eq_false_2 by (by apply Hd). by apply Hl.
Qed.

Lemma close_all_spec vs k :
  NoDup (vhosts_subs vs) -> Forall (vhost_up k) vs ->
  (close_all vs k).1 = [] /\ without (vhosts_subs vs) k (close_all vs k).2.
Proof.
  revert k; induction vs as [|v vs IH]; intros k Hn Hup; cbn; [by split; [|apply without_nil]|].
  inversion Hup as [|? ? Hv Hup']; subst. unfold vhosts_subs in Hn. cbn in Hn. apply NoDup_app in Hn as (_ & Hdis & Hn).
  assert (vhost_made v) as Hmade by (by apply Forall_singleton, (vhost_up_made k), Forall_singleton).
  pose proof (vhost_close_without v k Hmade) as Hw. assert ((vhost_close v k).1.1 = Ok tt) as Hok.
  { destruct Hv as (ln & Hv & Hln & _). unfold vhost_close. rewrite Hv. pose proof (CloseListener_listening _ _ Hln) as H.
    destruct (CloseListener ln k). cbn in H. by rewrite H. }
  destruct (vhost_close v k) as [[r v'] k1]. cbn in Hok, Hw. subst r.
  assert (Forall (vhost_up k1) vs) as Hup1.
  { rewrite Forall_forall in *. intros w Hin. destruct (Hup' w Hin) as (ln & Hl & Hll & Hp). exists ln. split_and!; try done.
    eapply listening_without; [exact Hw| |done]. intros i Hi Hi'. apply (Hdis i Hi'). apply list_elem_of_bind. exists w. unfold vhost_subs. by rewrite Hl. }
  destruct (IH k1 Hn Hup1) as [He Hwi]. destruct (close_all vs k1) as [errs k2]. cbn in *. split; [done|]. by eapply without_trans.
Qed.

Lemma Server_Close_spec k0 ctl vs k :
  kernel_ok k0 -> grown k0 (subs ctl ++ vhosts_subs vs) k -> listening ctl k -> Forall (vhost_up k) vs ->
  (Server_Close (MkServer (Some ctl) vs) k).1 = ([], MkServer None [])
  /\ live (Server_Close (MkServer (Some ctl) vs) k).2 = live k0.
Proof.
  intros Hk0 Hg Hc Hup. pose proof (g_nodup _ _ _ Hg) as (_ & Hdis & Hn)%NoDup_app.
  destruct (close_all_spec vs k Hn Hup) as [He Hw]. unfold Server_Close. cbn [s_listener s_vhosts].
  destruct (close_all vs k) as [errs k1]. cbn in He, Hw. subst errs.
  assert (listening ctl k1) as Hc1 by by eapply listening_without.
  pose proof (CloseListener_listening _ _ Hc1) as Hok. pose proof (CloseListener_without ctl k1 (proj1 Hc1)) as Hw1.
  destruct (CloseListener ctl k1) as [r k2]. cbn in *. subst r. split; [done|].
  apply grown_nil. eapply (grown_close _ [] (subs ctl) k1); [done| |done]. cbn. by eapply grown_close.
Qed.

(** [Server.Listen] opens the control port and every vhost port that is
    configured, each on all its sockets, or returns an error and leaves the
    kernel and the server as they were, whichever port is refused.  Listening
    again changes nothing; closing returns no error and gives back every socket,
    so that the server can listen again. *)
Theorem Server_Listen_all_or_nothing c supp ncpu k0 r s k :
  kernel_ok k0 -> 0 < ncpu -> BindPort c <> 0 -> Server_Listen c supp ncpu (MkServer None []) k0 = (r, s, k) ->
  match r with
  | Err _ => s = MkServer None [] /\ live k = live k0
  | Ok _ =>
      (exists ctl, s_listener s = Some ctl /\ listening ctl k /\ l_port ctl = BindPort c
         /\ Z.of_nat (length (subs ctl)) = loops_of (negb (AcceptLoopsCfg c =? 1)) supp (AcceptLoopsCfg c) ncpu)
      /\ Forall (vhost_up k) (s_vhosts s)
      /\ (fun v => (v_scheme v, v_port v)) <$> s_vhosts s = filter (fun w => w.2 <> 0) (vhostPorts c)
      /\ Server_Listen c supp ncpu s k = (Ok tt, s, k)
      /\ (Server_Close s k).1 = ([], MkServer None []) /\ live (Server_Close s k).2 = live k0
  end.
Proof.
  intros Hk0 Hn Hp. unfold Server_Listen. cbn [s_listener s_vhosts].
  destruct (server_bind c supp ncpu (BindPort c) k0) as [[ctl|e] k1] eqn:Eb;
    destruct (server_bind_spec _ _ _ _ _ _ _ Hk0 Hn Eb) as [Hk1 Hb];
    [|intros [= <- <- <-]; split; [done|by apply without_nil_live]].
  assert (grown k0 [] k0) as Hg0.
  { split; [done|done|constructor|by intros i Hi%elem_of_nil|done]. }
  destruct (grown_made _ _ _ _ _ _ _ Hg0 Hk1 Hb) as (Hg & Hc & Hport & _). cbn in Hg.
  destruct (listen_vhosts c supp ncpu (vhostPorts c) [] k1) as [[vs|e] k2] eqn:Ev;
    apply (listen_vhosts_spec _ _ _ k0 ctl) in Ev; try done; try (by rewrite app_nil_r).
  - intros [= <- <- <-]. cbn [s_listener s_vhosts]. destruct Ev as (Hg2 & Hc2 & Hup & Hvs).
    split; [exists ctl; split_and!; try done; [by apply Hport|by apply Hb]|]. split_and!; try done.
    + by apply (Server_Close_spec k0).
    + by apply (Server_Close_spec k0).
  - intros [= <- <- <-]. split; [done|]. apply grown_nil. eapply (grown_close _ [] (subs ctl)); [done|exact Ev|].
    by apply CloseListener_without, Hc.
Qed.

(** Both vhost ports over two sockets each; then the https port is taken. *)
Definition example_config : serverconfig := MkServerConfig 7000 80 443 2.
Definition granting (answers : list answer) : kernel := MkKernel 0 ∅ answers.
Definition example_listen (answers : list answer) : res lerr unit * server * kernel :=
  Server_Listen example_config true 4 (MkServer None []) (granting answers).

Lemma granting_ok answers : Forall (fun a => a <> Granted 0) answers -> kernel_ok (granting answers).
Proof.
  intros Ha. split; cbn; [by intros i []|]. rewrite Forall_forall in Ha. intros p Hp ->. by apply (Ha _ Hp).
Qed.

Lemma Server_Listen_all_or_nothing_witness :
  let good := example_listen (replicate 6 (Granted 1)) in
  let bad := example_listen (replicate 4 (Granted 1) ++ [Refused (go "in use")]) in
  good.1.1 = Ok tt /\ size (live good.2) = 6%nat /\ live (Server_Close good.1.2 good.2).2 = ∅
  /\ bad.1.1 = Err (ErrListen (go "in use")) /\ live bad.2 = ∅.
Proof.
  intros good bad.
  pose proof (Server_Listen_all_or_nothing example_config true 4 (granting (replicate 6 (Granted 1))) (Ok tt) good.1.2 good.2) as Hgood.
  pose proof (Server_Listen_all_or_nothing example_config true 4 (granting (replicate 4 (Granted 1) ++ [Refused (go "in use")]))
    (Err (ErrListen (go "in use"))) bad.1.2 bad.2) as Hbad.
  split; [by vm_compute|]. split; [by vm_compute|]. split; [|split; [by vm_compute|]].
  - apply Hgood; [apply granting_ok; by repeat constructor|done|done|by vm_compute].
  - apply Hbad; [apply granting_ok; by repeat constructor|done|done|by vm_compute].
Defined.
