(* ===== verification/Client.v ===== *)
(** The tunnel client: [internal/tunnel/client] (client.go, control.go,
    supervisor.go, overflow.go, workpool.go, forwarder.go, certpush.go,
    announce.go).

    A client is a record that outlives its sessions; a session is the state of
    one control connection.  What a goroutine is started for is an [action] the
    handler returns.  The clock, the random numbers, the network's answers and
    the cancellation of the context are arguments.  Connections are a stream to
    read and a writer. *)
From S2P Require Import Prelude GoStrings Stream Messages Protocol Pattern Router Sniff.
From S2P Require Import ProxyProto Challenge Session Config Server Stats.

(** ** Reconnecting (client.go) *)

Definition minReconnectDelay : Z := 500 * Millisecond.
Definition maxReconnectDelay : Z := 30 * Second.

(** [draw] stands for the random source: [rand.Int64N(n)] is [draw mod n]. *)
Definition jitter (d draw : Z) : Z :=
  let half := godiv d 2 in half + draw mod (half + 1).

(** One round of [Run]: whether the context is cancelled before the session,
    when it has ended, and during the wait; how long the session took. *)
Record round := MkRound {
  cancelled_before : bool;
  cancelled_during : bool;
  took : Z;
  drawn : Z;
  cancelled_waiting : bool
}.

(** The loop of [Run]: the timers it starts and whether it has returned. *)
Fixpoint Run (delay : Z) (rounds : list round) : list Z * bool :=
  match rounds with
  | [] => ([], false)
  | r :: rounds =>
      if cancelled_before r then ([], true)
      else if cancelled_during r then ([], true)
      else
        let delay := if Minute <? took r then minReconnectDelay else delay in
        let wait := jitter delay (drawn r) in
        if cancelled_waiting r then ([wait], true)
        else let '(waits, over) := Run (Z.min (delay * 2) maxReconnectDelay) rounds in
             (wait :: waits, over)
  end.

(** ** The client and its sessions *)

Record Client := MkClient {
  cl_cfg : Config.Client;
  cl_runID : bytes;
  connected : bool;
  cl_serverVersion : bytes;
  pushed : gmap bytes bytes
}.

Definition set_runID (run : bytes) (c : Client) : Client :=
  MkClient (cl_cfg c) run (connected c) (cl_serverVersion c) (pushed c).
Definition set_connected (up : bool) (version : bytes) (c : Client) : Client :=
  MkClient (cl_cfg c) (cl_runID c) up version (pushed c).
Definition set_pushed (p : gmap bytes bytes) (c : Client) : Client :=
  MkClient (cl_cfg c) (cl_runID c) (connected c) (cl_serverVersion c) p.

Definition New (c : Config.Client) : Client := MkClient c [] false [] ∅.

Definition ServerState (c : Client) : bytes * bool := (cl_serverVersion c, connected c).

(** A session: what the login answered and what has been published. *)
Record session := MkSession {
  s_runID : bytes;
  serverVersion : bytes;
  observedAddr : bytes;
  tunnels : gmap bytes Tunnel;
  targets : gmap bytes bytes;
  retries : gmap bytes Z
}.

Definition set_tunnels (ts : gmap bytes Tunnel) (gs : gmap bytes bytes) (s : session) : session :=
  MkSession (s_runID s) (serverVersion s) (observedAddr s) ts gs (retries s).
Definition set_retries (r : gmap bytes Z) (s : session) : session :=
  MkSession (s_runID s) (serverVersion s) (observedAddr s) (tunnels s) (targets s) r.

Inductive clerr : Type :=
  | ErrProtocol (e : perr)
  | ErrLogin (e : perr)
  | ErrNoToken (text : bytes)          (* refused, and there is no token to offer *)
  | ErrRefused (text : bytes).

Definition find_tunnel (name : bytes) (s : session) : option Tunnel := tunnels s !! name.
Definition target (name : bytes) (s : session) : bytes := default [] (targets s !! name).

(** [net.JoinHostPort]. *)
Definition JoinHostPort (host port : bytes) : bytes :=
  if ContainsByte host x3a then go "[" ++ host ++ go "]:" ++ port else host ++ go ":" ++ port.

(** What the machine says of itself: host name, operating system, architecture. *)
Record Machine := MkMachine { m_Hostname : bytes; m_OS : bytes; m_Arch : bytes }.

Section login.
Context `{J : JsonCodec} `{Hmac}.

Definition login_of (m : Machine) (timestamp : Z) (c : Client) : Login :=
  MkLogin Version (c_Name (cl_cfg c)) (m_Hostname m) (m_OS m) (m_Arch m) timestamp
    (AuthKey (c_Token (cl_cfg c)) timestamp) (t_PoolCount (c_Transport (cl_cfg c))) (cl_runID c).

(** [login] writes on [w] and reads the answer from [r]. *)
Definition login (m : Machine) (timestamp : Z) (c : Client) (w : writer) (r : stream)
  : res clerr session * Client * writer * stream :=
  match WriteMessage (MLogin (login_of m timestamp c)) w with
  | (Err e, w) => (Err (ErrProtocol e), c, w, r)
  | (Ok _, w) =>
      match ReadMessageExpect TypeLoginResp r with
      | (Err e, r) => (Err (ErrLogin e), c, w, r)
      | (Ok (MLoginResp resp), r) =>
          if negb (bool_decide (lr_Error resp = [])) then
            (Err (if bool_decide (c_Token (cl_cfg c) = []) then ErrNoToken (lr_Error resp)
                  else ErrRefused (lr_Error resp)), c, w, r)
          else (Ok (MkSession (lr_RunID resp) (ServerVersion resp) (ObservedAddr resp) ∅ ∅ ∅),
                set_runID (lr_RunID resp) c, w, r)
      | (Ok _, r) => (Err (ErrLogin (ErrUnexpectedMessage 0 TypeLoginResp)), c, w, r) (* a Go type assertion; unreachable *)
      end
  end.

(** [DialControl] without TLS: the greeting of a control connection. *)
Definition greet (mode : Z) (w : writer) : res perr unit * writer :=
  WritePreamble (MkPreamble Version mode) w.
End login.

(** ** Publishing (control.go) *)

Definition spec_of (t : Tunnel) : ProxySpec :=
  MkProxySpec (tn_Name t) (tn_Type t) (tn_RemotePort t) (tn_Domains t) (tn_TLSMode t)
    (tn_DownRate t) (tn_UpRate t) (tn_Quota t).

(** The first half of [publishTunnel]: what the session remembers. *)
Definition remember (t : Tunnel) (s : session) : session :=
  set_tunnels (<[tn_Name t := t]> (tunnels s))
    (<[tn_Name t := JoinHostPort (LocalIP t) (Itoa (LocalPort t))]> (targets s)) s.

Definition republishAttempts : Z := 8.
Definition republishDelay : Z := 250 * Millisecond.

(** [retryCounter.next]. *)
Definition next (name : bytes) (s : session) : Z * session :=
  let n := default 0 (retries s !! name) + 1 in (n, set_retries (<[name := n]> (retries s)) s).

(** What a handler starts a goroutine for. *)
Inductive action : Type :=
  | RunWorkConns (count : Z)
  | Republish (t : Tunnel).            (* after [republishDelay], unless cancelled *)

Definition retryable (text : bytes) : bool :=
  Contains text (go "already routed") || Contains text (go "already registered").

Definition rejected (resp : NewProxyResp) (s : session) : list action * session :=
  if negb (retryable (npr_Error resp)) then ([], s)
  else
    match find_tunnel (npr_Name resp) s with
    | None => ([], s)
    | Some tunnel =>
        let '(attempt, s) := next (npr_Name resp) s in
        if republishAttempts <? attempt then ([], s) else ([Republish tunnel], s)
    end.

(** The branches of [controlLoop] on a message. *)
Definition handle_control (m : Message) (s : session) : list action * session :=
  match m with
  | MReqWorkConn count => ([RunWorkConns (Z.min (Z.max count 1) (4 * DefaultMaxPoolCount))], s)
  | MNewProxyResp resp => if negb (bool_decide (npr_Error resp = [])) then rejected resp s else ([], s)
  | _ => ([], s)
  end.

(** [controlLoop]: every read comes with whether the context is cancelled; the
    result is what the loop returns, [None] while it is running. *)
Fixpoint control_loop (reads : list (res perr Message * bool)) (s : session)
  : list action * option (res perr unit) * session :=
  match reads with
  | [] => ([], None, s)
  | (Err e, cancelled) :: reads =>
      if cancelled || IsEOF e then ([], Some (Ok tt), s)
      else if IsUnknownType e then control_loop reads s
      else ([], Some (Err e), s)
  | (Ok m, _) :: reads =>
      let '(acts, s) := handle_control m s in
      let '(more, over, s) := control_loop reads s in (acts ++ more, over, s)
  end.

(** [heartbeat]: the pings, one for each tick of a positive interval, until one
    cannot be written. *)
Fixpoint heartbeat (interval : Z) (ticks : list (Z * bool)) : list Message * bool :=
  if interval <=? 0 then ([], false)
  else match ticks with
       | [] => ([], false)
       | (now, ok) :: ticks =>
           if ok then let '(ms, closed) := heartbeat interval ticks in (MPing now :: ms, closed)
           else ([], true)
       end.

Section publish.
Context `{J : JsonCodec} `{Hmac}.

Definition publishTunnel (t : Tunnel) (s : session) (w : writer) : res clerr unit * session * writer :=
  let s := remember t s in
  match WriteMessage (MNewProxy (spec_of t)) w with
  | (Err e, w) => (Err (ErrProtocol e), s, w)
  | (Ok _, w) => (Ok tt, s, w)
  end.

Fixpoint publish_all (ts : list Tunnel) (s : session) (w : writer) : res clerr unit * session * writer :=
  match ts with
  | [] => (Ok tt, s, w)
  | t :: ts => match publishTunnel t s w with
               | (Err e, s, w) => (Err e, s, w)
               | (Ok _, s, w) => publish_all ts s w
               end
  end.

Definition publishTunnels (c : Client) (s : session) (w : writer) : res clerr unit * session * writer :=
  publish_all (EnabledTunnels (cl_cfg c)) s w.

(** ** Work connections (workpool.go, overflow.go) *)

(** [DialWorkWith]: the greeting and the first message in one write. *)
Definition DialWorkWith (m : Message) (w : writer) : res perr unit * writer :=
  WriteGreeting (MkPreamble Version ModePlain) m w.

Definition work_claim (timestamp : Z) (c : Client) (s : session) : NewWorkConn :=
  MkNewWorkConn (s_runID s) timestamp (AuthKey (c_Token (cl_cfg c)) timestamp).

(** What [runWorkConn] and [serveStream] wait for. *)
Definition assignment (r : stream) : option StartWorkConn * stream :=
  match ReadMessage r with
  | (Ok (MStartWorkConn start), r) => (if bool_decide (swc_Error start = []) then Some start else None, r)
  | (_, r) => (None, r)
  end.

Definition runWorkConn (timestamp : Z) (c : Client) (s : session) (w : writer) (r : stream)
  : option StartWorkConn * writer * stream :=
  match DialWorkWith (MNewWorkConn (work_claim timestamp c s)) w with
  | (Err _, w) => (None, w, r)
  | (Ok _, w) => let '(start, r) := assignment r in (start, w, r)
  end.

(** How a carrier ends: [serveCarrier] up to its accept loop. *)
Inductive carrier_end : Type :=
  | CarrierFailed
  | CarrierUnsupported
  | CarrierEnded (error : bool).

Definition serveCarrier (timestamp : Z) (c : Client) (s : session) (w : writer)
  (acceptor confirmed : bool) (accept_error : bool) : carrier_end * writer :=
  match DialWorkWith (MNewMuxConn (work_claim timestamp c s)) w with
  | (Err _, w) => (CarrierFailed, w)
  | (Ok _, w) =>
      if negb acceptor then (CarrierFailed, w)
      else if negb confirmed then (CarrierUnsupported, w)
      else (CarrierEnded accept_error, w)
  end.
End publish.

Definition carrierRetryMin : Z := Second.
Definition carrierRetryMax : Z := 30 * Second.
Definition overflowCarriers : nat := 4.
Definition carrierRefusalsBeforeGivingUp : nat := 3.

Record carrier_round := MkCarrierRound {
  cr_cancelled : bool;
  cr_end : carrier_end;
  cr_took : Z;
  cr_cancelled_waiting : bool
}.

(** [runOverflowCarrier]: the timers it starts and whether it has returned. *)
Fixpoint runOverflowCarrier (delay : Z) (refusals : nat) (rounds : list carrier_round) : list Z * bool :=
  match rounds with
  | [] => ([], false)
  | r :: rounds =>
      if cr_cancelled r then ([], true)
      else
        let refusals := match cr_end r with CarrierUnsupported => S refusals | _ => O end in
        if match cr_end r with
           | CarrierUnsupported => (carrierRefusalsBeforeGivingUp <=? refusals)%nat
           | _ => false
           end then ([], true)
        else
          let delay := if Minute <? cr_took r then carrierRetryMin else delay in
          if cr_cancelled_waiting r then ([delay], true)
          else let '(waits, over) := runOverflowCarrier (Z.min (delay * 2) carrierRetryMax) refusals rounds in
               (delay :: waits, over)
  end.

(** ** Forwarding one connection (forwarder.go) *)

Inductive forwarded : Type :=
  | UnknownTunnel
  | ForwardsUDP (t : Tunnel)
  | DialFailed (target : bytes)
  | NoVisitorAddress
  | HeaderFailed
  | Relayed (local : writer).

(** What the machine does: the local connection and its remote address, the
    progress the relay reports and whether it spliced, what a UDP forwarder
    records, and the clock. *)
Record side := MkSide {
  l_dial : bytes -> option (writer * ProxyProto.Addr);
  l_progress : list (Z * Z);
  l_spliced : bool;
  l_udp : gmap bytes Counters -> gmap bytes Counters;
  l_now : Z
}.

Section forward.
Context `{NetText}.
Variable addr_String : ProxyProto.Addr -> bytes.

(** The relay of [forward] reports its progress, then its end. *)
Definition relay_traffic (name : bytes) (l : side) (r : gmap bytes Counters) : gmap bytes Counters :=
  RecordClose name (l_spliced l) (l_now l)
    (foldl (fun r p => RecordProgress name p.1 p.2 (l_now l) r) r (l_progress l)).

Definition forward (start : StartWorkConn) (l : side) (s : session) (r : gmap bytes Counters)
  : forwarded * gmap bytes Counters :=
  let name := ProxyName start in
  match find_tunnel name s with
  | None => (UnknownTunnel, r)
  | Some tunnel =>
      let r := Stats.Open name r in
      let '(out, r) :=
        if bool_decide (tn_Type tunnel = TunnelUDP) then (ForwardsUDP tunnel, l_udp l r)
        else
          match l_dial l (target name s) with
          | None => (DialFailed (target name s), r)
          | Some (local, remote) =>
              if bool_decide (ProxyProtocol tunnel = []) then (Relayed local, relay_traffic name l r)
              else
                match ParseProxyAddr (SourceAddr start) with
                | Err _ => (NoVisitorAddress, r)
                | Ok source =>
                    match WriteProxyHeader addr_String local (ProxyProtocol tunnel) source remote with
                    | (Err _, _) => (HeaderFailed, r)
                    | (Ok _, local) => (Relayed local, relay_traffic name l r)
                    end
                end
          end in
      (out, Stats.Close name r)
  end.
End forward.

(** ** Certificates (certpush.go) *)

Record Certificate := MkCertificate {
  c_Domains : list bytes;
  c_FullchainPEM : bytes;
  c_PrivateKeyPEM : bytes;
  c_NotAfter : Z
}.

Definition certPushInterval : Z := Minute.

Section certs.
Context `{J : JsonCodec}.
(** The hexadecimal SHA-256 digest. *)
Variable sha256_hex : bytes -> bytes.

Definition fingerprint (m : Certificate) : bytes :=
  sha256_hex (c_FullchainPEM m ++ c_PrivateKeyPEM m).

Definition seen (tunnel fp : bytes) (p : gmap bytes bytes) : bool :=
  bool_decide (default [] (p !! tunnel) = fp).

Definition push_of (m : Certificate) : Message :=
  MCertPush (MkCertPush (c_Domains m) (c_FullchainPEM m) (c_PrivateKeyPEM m) (c_NotAfter m)).

Definition pushOne (tunnel : bytes) (m : Certificate) (p : gmap bytes bytes) (w : writer)
  : gmap bytes bytes * writer :=
  if bool_decide (c_FullchainPEM m = []) || bool_decide (c_PrivateKeyPEM m = []) then (p, w)
  else if seen tunnel (fingerprint m) p then (p, w)
  else match WriteMessage (push_of m) w with
       | (Err _, w) => (p, w)
       | (Ok _, w) => (<[tunnel := fingerprint m]> p, w)
       end.

Definition push_tunnel (source : Z -> option Certificate) (pw : gmap bytes bytes * writer) (t : Tunnel)
  : gmap bytes bytes * writer :=
  if negb (Enabled t) || (CertID t =? 0) then pw
  else match source (CertID t) with
       | None => pw
       | Some m => pushOne (tn_Name t) m pw.1 pw.2
       end.

(** [pushCertificates]; [None] is a client without a source. *)
Definition pushCertificates (source : option (Z -> option Certificate)) (c : Client) (w : writer)
  : Client * writer :=
  match source with
  | None => (c, w)
  | Some source =>
      let '(p, w) := foldl (push_tunnel source) (pushed c, w) (Tunnels (cl_cfg c)) in (set_pushed p c, w)
  end.

(** [watchCertificates]: one pass for each tick, with what the source then holds. *)
Definition watchCertificates (passes : list (Z -> option Certificate)) (c : Client) (w : writer)
  : Client * writer :=
  foldl (fun cw source => pushCertificates (Some source) cw.1 cw.2) (c, w) passes.

(** [serve] before its goroutines: publish, forget what was pushed, push. *)
Definition serve_start `{Hmac} (source : option (Z -> option Certificate)) (c : Client) (s : session) (w : writer)
  : res clerr unit * Client * session * writer :=
  match publishTunnels c s w with
  | (Err e, s, w) => (Err e, c, s, w)
  | (Ok _, s, w) => let '(c, w) := pushCertificates source (set_pushed ∅ c) w in (Ok tt, c, s, w)
  end.
End certs.

(** ** The supervisor (supervisor.go) *)

Definition without_server (t : Tunnel) : Tunnel :=
  MkTunnel (tn_Name t) (Enabled t) (tn_Type t) (LocalIP t) (LocalPort t) (tn_RemotePort t) (tn_Domains t)
    (tn_TLSMode t) [] (CertID t) (ProxyProtocol t) (tn_DownRate t) (tn_UpRate t) (tn_Quota t).

Section supervisor.
Context `{NetText}.

Definition scopedConfig (c : Config.Client) (server : Upstream) : res cfgerr Config.Client :=
  LoadClient (Config.MkClient [] (Addr server) (u_Port server) (u_Token server) (u_ClientName server)
    (u_Transport server) (u_SocketGID server) (u_SocketMark server)
    (without_server <$> TunnelsFor (u_Name server) c)).

(** [NewSupervisor] refuses a configuration without a server. *)
Definition NewSupervisor (c : option Config.Client) : option Config.Client :=
  c ← c; if (length (Upstreams c) =? 0)%nat then None else Some c.

(** The clients [Supervisor.Run] starts, by server. *)
Definition start_client (c : Config.Client) (server : Upstream) : list (bytes * Client) :=
  if IsCloudflare server then []
  else match scopedConfig c server with
       | Err _ => []
       | Ok scoped => [(u_Name server, New scoped)]
       end.

Definition Supervisor_Run (c : Config.Client) : option (list (bytes * Client)) :=
  match Upstreams c ≫= start_client c with [] => None | started => Some started end.

Definition serverStates (clients : gmap bytes Client) : gmap bytes (bytes * bool) := ServerState <$> clients.
End supervisor.

(** ** One message and its answer (announce.go) *)

Section announce.
Context `{J : JsonCodec} `{Hmac}.

Definition announce_config (u : Upstream) : Config.Client :=
  let c := Client_ApplyDefaults (Config.MkClient [] (Addr u) (u_Port u) (u_Token u) [] (u_Transport u) 0 0 []) in
  let t := c_Transport c in
  Config.MkClient (Servers c) (ServerAddr c) (ServerPort c) (c_Token c) (c_Name c)
    (MkTransport (t_Protocol t) (Mux t) (MuxStreamWindow t) 1 (TLSEnable t) (HeartbeatInterval t)
       (HeartbeatTimeout t) (DialTimeout t))
    (c_SocketGID c) (c_SocketMark c) (Tunnels c).

(** The loop over the replies; [fuel] bounds the messages that may arrive. *)
Fixpoint await (want : Z) (fuel : nat) (r : stream) : option (res perr Message * stream) :=
  match fuel with
  | O => None
  | S fuel =>
      match ReadMessage r with
      | (Err e, r) => Some (Err e, r)
      | (Ok m, r) => if Type_ m =? want then Some (Ok m, r) else await want fuel r
      end
  end.

(** Every message takes at least a header's bytes from the stream. *)
Definition Announce (machine : Machine) (timestamp : Z) (u : Upstream) (message : Message) (want : Z)
  (w : writer) (r : stream) : res clerr Message * writer :=
  match greet ModePlain w with
  | (Err e, w) => (Err (ErrProtocol e), w)
  | (Ok _, w) =>
      match login machine timestamp (New (announce_config u)) w r with
      | (Err e, _, w, _) => (Err e, w)
      | (Ok _, _, w, r) =>
          match WriteMessage message w with
          | (Err e, w) => (Err (ErrProtocol e), w)
          | (Ok _, w) =>
              match await want (S (length (data r))) r with
              | Some (Ok m, _) => (Ok m, w)
              | Some (Err e, _) => (Err (ErrProtocol e), w)
              | None => (Err (ErrProtocol ErrEOF), w)
              end
          end
      end
  end.
End announce.

(** ** Reconnection delays *)

Definition uncancelled (r : round) : Prop :=
  cancelled_before r = false /\ cancelled_during r = false /\ cancelled_waiting r = false.

(** The failures in a row before a wait, from the rounds up to it, the last one
    first: those after the last session that outlived a minute, not counting the
    first of all. *)
Fixpoint streak (start : nat) (rounds : list round) : nat :=
  match rounds with
  | [] => start
  | r :: rounds =>
      if Minute <? took r then O
      else match rounds with [] => start | _ => S (streak start rounds) end
  end.

(** The delay after [k] failures in a row. *)
Definition backoff (k : nat) : Z := Z.min (minReconnectDelay * 2 ^ Z.of_nat k) maxReconnectDelay.

Lemma backoff_S k : backoff (S k) = Z.min (backoff k * 2) maxReconnectDelay.
Proof.
  unfold backoff. rewrite Nat2Z.inj_succ, Z.pow_succ_r by lia.
  assert (0 < maxReconnectDelay) by done. lia.
Qed.

Lemma backoff_range k : minReconnectDelay <= backoff k <= maxReconnectDelay.
Proof.
  unfold backoff. assert (1 <= 2 ^ Z.of_nat k) by (apply (Z.pow_le_mono_r 2 0); lia).
  assert (0 < minReconnectDelay <= maxReconnectDelay) by (vm_compute; intuition congruence). nia.
Qed.

Lemma jitter_range d draw : 0 <= d -> d / 2 <= jitter d draw <= d.
Proof.
  intros Hd. unfold jitter, godiv. rewrite Z.quot_div_nonneg by lia.
  pose proof (Z.div_pos d 2 Hd ltac:(lia)).
  pose proof (Z.mod_pos_bound draw (d / 2 + 1) ltac:(lia)).
  pose proof (Z.mul_div_le d 2 ltac:(lia)). lia.
Qed.

Lemma streak_snoc k rounds r :
  rounds <> [] -> streak k (rounds ++ [r]) = streak (S (if Minute <? took r then O else k)) rounds.
Proof.
  induction rounds as [|r' [|r'' rounds] IH]; intros Hne; [done| |].
  - cbn [app streak]. by repeat case_match.
  - transitivity (if Minute <? took r' then O else S (streak k ((r'' :: rounds) ++ [r]))); [done|].
    by rewrite IH.
Qed.

Lemma Run_waits k rounds :
  Forall uncancelled rounds ->
  exists waits, Run (backoff k) rounds = (waits, false) /\ length waits = length rounds
    /\ forall i wait, waits !! i = Some wait ->
       let d := backoff (streak k (reverse (take (S i) rounds))) in d / 2 <= wait <= d.
Proof.
  revert k. induction rounds as [|r rounds IH]; intros k; [by exists []|].
  intros [(H1 & H2 & H3) Hr]%Forall_cons. cbn [Run]. rewrite H1, H2, H3.
  set (k' := if Minute <? took r then O else k).
  assert ((if Minute <? took r then minReconnectDelay else backoff k) = backoff k') as ->.
  { unfold k'. by destruct (Minute <? took r). }
  rewrite <- backoff_S. destruct (IH (S k') Hr) as (waits & -> & Hl & Hw).
  eexists. split; [done|]. split; [simpl; lia|]. intros [|i] wait Hi; cbn [lookup list_lookup] in Hi.
  - injection Hi as <-. cbv zeta. change (take 1 (r :: rounds)) with [r].
    change (streak k (reverse [r])) with k'. apply jitter_range.
    pose proof (backoff_range k'). unfold minReconnectDelay, Millisecond in *. lia.
  - cbv zeta. change (take (S (S i)) (r :: rounds)) with (r :: take (S i) rounds).
    rewrite reverse_cons, streak_snoc; [by apply Hw|].
    apply lookup_lt_Some in Hi. destruct rounds as [|r0 rounds]; [simpl in Hl; lia|].
    intros E%(f_equal length). by rewrite length_reverse in E.
Qed.

(** The client never stops reconnecting and never hammers the server: in
    every run that is not cancelled each session is followed by one wait, and
    the wait after [k] failures in a row (since the last session that outlived a
    minute) is between half and all of 500 ms doubled [k] times, at most half a
    minute; so it is always between 250 ms and 30 s. *)
Theorem reconnect_backoff rounds :
  Forall uncancelled rounds ->
  exists waits, Run minReconnectDelay rounds = (waits, false) /\ length waits = length rounds
    /\ forall i wait, waits !! i = Some wait ->
       let d := Z.min (500 * Millisecond * 2 ^ Z.of_nat (streak 0 (reverse (take (S i) rounds)))) (30 * Second) in
       d / 2 <= wait <= d /\ 250 * Millisecond <= wait <= 30 * Second.
Proof.
  intros Hr. destruct (Run_waits 0 rounds Hr) as (waits & Hw & Hl & Hi).
  exists waits. split; [exact Hw|]. split; [exact Hl|]. intros i wait Hx.
  specialize (Hi i wait Hx). cbv zeta in *. split; [exact Hi|].
  pose proof (backoff_range (streak 0 (reverse (take (S i) rounds)))) as [Hlo Hhi].
  assert (250 * Millisecond <= backoff (streak 0 (reverse (take (S i) rounds))) / 2)
    by (apply Z.div_le_lower_bound; unfold minReconnectDelay in Hlo; lia).
  unfold maxReconnectDelay in Hhi. lia.
Qed.

(** ** A client and a server *)

Section client_server.
Context `{J : JsonCodec} `{HM : Hmac} `{U : Unicode} `{ID : Idna} `{X : X509}.
Variable protocol_text : perr -> bytes.

Lemma WriteMessage_ok m ws :
  transmissible m ->
  exists frame, encode m = Ok frame /\ WriteMessage m (Writer ws None) = (Ok tt, Writer (ws ++ [frame]) None).
Proof.
  intros Hm. destruct (ReadMessage_encode m [] EOF Hm) as (frame & Hf & _).
  exists frame. unfold WriteMessage, Write. by rewrite Hf.
Qed.

Lemma ReadMessage_frame m frame rest e :
  transmissible m -> encode m = Ok frame -> ReadMessage (Stream (frame ++ rest) e) = (Ok m, Stream rest e).
Proof.
  intros Hm Hf. destruct (ReadMessage_encode m rest e Hm) as (frame' & Hf' & Hr). congruence.
Qed.

(** The server greets what a dialler sends: a preamble and one message. *)
Lemma handleConn_plain m frame rest e :
  transmissible m -> encode m = Ok frame ->
  handleConn (Stream (preamble_bytes (MkPreamble Version ModePlain) ++ frame ++ rest) e)
  = (GreetsPlain (handlePlain (Stream (frame ++ rest) e)).1, Stream rest e)
  /\ (handlePlain (Stream (frame ++ rest) e)).2 = Stream rest e.
Proof.
  intros Hm Hf. unfold handleConn.
  assert (ReadPreamble (Stream (preamble_bytes (MkPreamble Version ModePlain) ++ frame ++ rest) e)
    = (Ok (MkPreamble Version ModePlain), Stream (frame ++ rest) e)) as ->.
  { apply ReadPreamble_spec. split_and!; try done. by left. }
  cbn [p_Mode]. rewrite Z.eqb_refl. unfold handlePlain. rewrite (ReadMessage_frame m frame rest e Hm Hf).
  done.
Qed.

(** A key made now, with the server's token, is accepted. *)
Lemma VerifyAuth_own token ts now :
  in_i64 (ts + unixToInternal) -> Z.abs (now - time_Unix ts) <= DefaultAuthSkew ->
  VerifyAuth token (AuthKey token ts) ts now DefaultAuthSkew = Ok tt.
Proof.
  intros Hts Hnear. unfold VerifyAuth. case_bool_decide; [done|]. cbv zeta.
  change (DefaultAuthSkew <=? 0) with false. cbv iota.
  assert (DefaultAuthSkew < max_i64) by done.
  rewrite time_Sub_id by (unfold in_i64, min_i64, max_i64 in *; lia).
  set (d := now - time_Unix ts) in *.
  assert ((if d <? 0 then i64 (- d) else d) = Z.abs d) as ->.
  { destruct (d <? 0) eqn:E; bool_facts; [|lia].
    rewrite i64_id by (unfold in_i64, min_i64, max_i64 in *; lia). lia. }
  rewrite (proj2 (Z.ltb_ge _ _)) by lia. by rewrite bool_decide_eq_true_2.
Qed.

(** What the client reads when the server has answered. *)
Lemma login_answer machine ts c ws resp frame rest e :
  transmissible (MLogin (login_of machine ts c)) ->
  transmissible (MLoginResp resp) -> encode (MLoginResp resp) = Ok frame ->
  exists sent, encode (MLogin (login_of machine ts c)) = Ok sent
  /\ login machine ts c (Writer ws None) (Stream (frame ++ rest) e)
  = (if bool_decide (lr_Error resp = [])
     then Ok (MkSession (lr_RunID resp) (ServerVersion resp) (ObservedAddr resp) ∅ ∅ ∅)
     else Err (if bool_decide (c_Token (cl_cfg c) = []) then ErrNoToken (lr_Error resp)
               else ErrRefused (lr_Error resp)),
     if bool_decide (lr_Error resp = []) then set_runID (lr_RunID resp) c else c,
     Writer (ws ++ [sent]) None, Stream rest e).
Proof.
  intros Hl Hr Hf. destruct (WriteMessage_ok _ ws Hl) as (sent & Hs & Hw).
  exists sent. split; [exact Hs|]. unfold login. rewrite Hw.
  unfold ReadMessageExpect. rewrite (ReadMessage_frame _ frame rest e Hr Hf).
  change (Type_ (MLoginResp resp) =? TypeLoginResp) with true. cbv iota beta.
  by case_bool_decide.
Qed.

(** C21: a client and a server with the same token agree, over the bytes of the
    wire: what [DialControl] and [login] write is read by the server's
    [handleConn] as exactly this login and nothing after it; if their clocks are
    within the skew [handleLogin] registers a session under the client's run id
    (or a generated one); and the client, reading the answer, has a session
    with that run id, which it keeps for the next login.  If the server's token
    makes a different key the client is told that authentication failed and the
    server is unchanged. *)
Theorem login_meets_server machine ts c conn sid now generated observed version sent st e :
  sessions st !! sid = None -> in_i64 (ts + unixToInternal) ->
  transmissible (MLogin (login_of machine ts c)) ->
  exists bs frame1, (greet ModePlain (Writer [] None)) = (Ok tt, Writer [bs] None)
  /\ encode (MLogin (login_of machine ts c)) = Ok frame1
  /\ (forall more, handleConn (Stream (bs ++ frame1 ++ more) e)
        = (GreetsPlain (OpensSession (login_of machine ts c)), Stream more e))
  /\ let '(result, resp, st') := handleLogin protocol_text conn sid (login_of machine ts c) now generated
                                   observed version sent st in
     (Config.Token (cfg st) = c_Token (cl_cfg c) -> Z.abs (now - time_Unix ts) <= DefaultAuthSkew ->
      (if bool_decide (cl_runID c = []) then generated else Some (cl_runID c)) <> None ->
      exists run, (if bool_decide (cl_runID c = []) then generated else Some (cl_runID c)) = Some run
      /\ result = LoginStarted sid /\ registry st' !! run = Some sid
      /\ exists resp', resp = Some resp' /\ forall frame2 rest,
         transmissible (MLoginResp resp') -> encode (MLoginResp resp') = Ok frame2 ->
         login machine ts c (Writer [bs] None) (Stream (frame2 ++ rest) e)
         = (Ok (MkSession run version observed ∅ ∅ ∅), set_runID run c, Writer [bs; frame1] None, Stream rest e))
  /\ (Config.Token (cfg st) <> [] ->
      AuthKey (Config.Token (cfg st)) ts <> AuthKey (c_Token (cl_cfg c)) ts ->
      st' = st /\ result = LoginRefused (Some (refusal (go "authentication failed")))
      /\ forall frame2 rest, transmissible (MLoginResp (refusal (go "authentication failed"))) ->
         encode (MLoginResp (refusal (go "authentication failed"))) = Ok frame2 ->
         login machine ts c (Writer [bs] None) (Stream (frame2 ++ rest) e)
         = (Err (if bool_decide (c_Token (cl_cfg c) = []) then ErrNoToken (go "authentication failed")
                 else ErrRefused (go "authentication failed")), c, Writer [bs; frame1] None, Stream rest e)).
Proof.
  intros Hsid Hts Hl. destruct (WriteMessage_ok _ [] Hl) as (frame1 & Hf1 & _).
  exists (preamble_bytes (MkPreamble Version ModePlain)), frame1. split; [done|]. split; [done|]. split.
  { intros more. rewrite (proj1 (handleConn_plain _ frame1 more e Hl Hf1)). f_equal.
    unfold handlePlain. by rewrite (ReadMessage_frame _ frame1 more e Hl Hf1). }
  destruct (handleLogin _ _ _ _ _ _ _ _ _ _) as [[result resp] st'] eqn:E. split.
  - intros Htok Hnear Hrun.
    destruct (if bool_decide (cl_runID c = []) then generated else Some (cl_runID c)) as [run|] eqn:Er; [|done].
    exists run. split; [done|].
    assert (login_accepted (login_of machine ts c) now generated run st) as Hacc.
    { split; [done|]. split; [|done]. cbn [login_of login_AuthKey login_Timestamp]. rewrite Htok.
      by apply VerifyAuth_own. }
    pose proof (handleLogin_started protocol_text conn sid _ now generated observed version sent st run Hacc) as Hst.
    cbv zeta in Hst. rewrite Hst in E. injection E as <- <- <-. split; [done|]. split.
    + destruct sent, (registry st !! run) as [old|]; unfold with_session; repeat case_match;
        cbn [registry set_router set_sessions]; rewrite ?close_session_registry;
        cbn [registry set_registry]; apply lookup_insert_eq.
    + eexists. split; [done|]. intros frame2 rest Hr Hf2.
      destruct (login_answer machine ts c [preamble_bytes (MkPreamble Version ModePlain)] _ frame2 rest e Hl Hr Hf2)
        as (sent' & Hs & ->). assert (sent' = frame1) as -> by congruence. done.
  - intros Htok Hkey. revert E. unfold handleLogin. cbn [login_of login_Version login_AuthKey login_Timestamp].
    change (CheckVersion Version) with (@Ok perr unit tt). cbv iota.
    assert (VerifyAuth (Config.Token (cfg st)) (AuthKey (c_Token (cl_cfg c)) ts) ts now DefaultAuthSkew
      = Err ErrAuthFailed) as ->.
    { unfold VerifyAuth. rewrite bool_decide_eq_false_2 by done. cbv zeta.
      rewrite (bool_decide_eq_false_2 (_ = AuthKey (c_Token _) ts)) by done. by case_match. }
    intros [= <- <- <-]. split; [done|]. split; [done|]. intros frame2 rest Hr Hf2.
    destruct (login_answer machine ts c [preamble_bytes (MkPreamble Version ModePlain)] _ frame2 rest e Hl Hr Hf2)
      as (sent' & Hs & ->). assert (sent' = frame1) as -> by congruence. done.
Qed.

(** A work connection finds its session: what [runWorkConn] writes is read
    by the server as this claim and, while the clocks agree and the client's run
    id is registered, the connection joins the pool of the session of that run
    id and no other session changes. *)
Theorem work_connection_joins ts c s conn sid session choose now st w r more e :
  Config.Token (cfg st) = c_Token (cl_cfg c) -> registry st !! s_runID s = Some sid ->
  sessions st !! sid = Some session ->
  in_i64 (ts + unixToInternal) -> Z.abs (now - time_Unix ts) <= DefaultAuthSkew ->
  transmissible (MNewWorkConn (work_claim ts c s)) -> w = Writer [] None ->
  exists bs, (runWorkConn ts c s w r).1.2 = Writer [bs] None
  /\ handleConn (Stream (bs ++ more) e) = (GreetsPlain (OpensWorkConn (work_claim ts c s)), Stream more e)
  /\ exists st', attachWorkConn conn (work_claim ts c s) now choose st = (true, st')
     /\ sessions st' !! sid = Some (AddWorkConn conn choose session)
     /\ forall k, k <> sid -> sessions st' !! k = sessions st !! k.
Proof.
  intros Htok Hreg Hses Hts Hnear Hm ->. destruct (WriteMessage_ok _ [] Hm) as (frame & Hf & _).
  exists (preamble_bytes (MkPreamble Version ModePlain) ++ frame). split; [|split].
  - unfold runWorkConn, DialWorkWith, WriteGreeting, Write. rewrite Hf. cbn. by destruct (assignment r).
  - rewrite <- app_assoc. rewrite (proj1 (handleConn_plain _ frame more e Hm Hf)). f_equal.
    unfold handlePlain. by rewrite (ReadMessage_frame _ frame more e Hm Hf).
  - unfold attachWorkConn. cbn [work_claim nwc_AuthKey nwc_Timestamp nwc_RunID].
    rewrite Htok, VerifyAuth_own by done. unfold Registry.Get. rewrite Hreg. eexists. split; [done|].
    destruct (with_session_lookup sid (fun sr => (AddWorkConn conn choose sr.1, sr.2)) st session Hses)
      as (-> & _ & _ & _ & Hk). done.
Qed.
End client_server.

(** ** A refused tunnel is asked for again *)

Section republish.
Context `{U : Unicode} `{ID : Idna}.
(** [%q]. *)
Variable quote : bytes -> bytes.
(** The texts of the errors that are not spelled out here. *)
Variable other_text : sesserr -> bytes.

(** The error of [Router.Add] and [node.insert] (vhost/router.go, trie.go). *)
Definition conflict_text (pattern proxy run : bytes) : bytes :=
  go "vhost: " ++ quote pattern ++ go " is already routed to tunnel " ++ quote proxy
  ++ go " on client " ++ quote run.

Definition session_text (e : sesserr) : bytes :=
  match e with
  | ErrDomain (ErrAlreadyRouted p n r) => conflict_text p n r
  | ErrPublished name => go "proxy " ++ quote name ++ go " already published"
  | e => other_text e
  end.

(** The server's end of the session; the clock and what a listener answers, by
    attempt. *)
Variable sid : N.
Variable now : nat -> Z.
Variable listen : nat -> Z -> res bytes Z.
(** What the rest of the server does in the quarter of a second after an
    attempt. *)
Variable world : nat -> State -> State.

Definition attempt (k : nat) (t : Tunnel) (st : State) : Message * State :=
  handleNewProxy session_text sid (spec_of t) (now k) (listen k) st.

(** The client asks for a tunnel; as long as the answer makes it ask again, it
    does. *)
Fixpoint dialogue (fuel k : nat) (t : Tunnel) (cs : session) (st : State)
  : list Message * session * State :=
  match fuel with
  | O => ([], cs, st)
  | S fuel =>
      let '(reply, st) := attempt k t st in
      match handle_control reply cs with
      | (Republish t :: _, cs) =>
          let '(replies, cs, st) := dialogue fuel (S k) t (remember t cs) (world k st) in
          (reply :: replies, cs, st)
      | (_, cs) => ([reply], cs, st)
      end
  end.

(** The server before and after the [k]th attempt, if all are made. *)
Fixpoint before (k : nat) (t : Tunnel) (st : State) : State :=
  match k with
  | O => st
  | S k => world k (attempt k t (before k t st)).2
  end.

Definition reply_error (m : Message) : bytes :=
  match m with MNewProxyResp resp => npr_Error resp | _ => [] end.

(** What the server's [AddProxy] has against the [k]th attempt. *)
Definition refused_with (k : nat) (t : Tunnel) (st : State) : option sesserr :=
  let st := before k t st in
  s ← sessions st !! sid;
  match (AddProxy (vhosts st) (spec_of t) (now k) (listen k) s (router st)).1.1 with Err e => Some e | Ok _ => None end.

(** It is that another tunnel has one of the names. *)
Definition held (k : nat) (t : Tunnel) (st : State) : Prop :=
  exists pattern proxy run, refused_with k t st = Some (ErrDomain (ErrAlreadyRouted pattern proxy run)).

(** The answer to it is one the client takes as a reason to ask again. *)
Definition asks_again (k : nat) (t : Tunnel) (st : State) : bool :=
  retryable (reply_error (attempt k t (before k t st)).1).

Lemma Contains_app a b c : Contains (a ++ b ++ c) b = true.
Proof.
  unfold Contains. apply bool_decide_eq_true. induction a as [|x a IH].
  - rewrite app_nil_l, Index_here. by eexists.
  - destruct IH as [i Hi]. cbn [app Index]. destruct (HasPrefix (x :: a ++ b ++ c) b); [by eexists|].
    rewrite Hi. by eexists.
Qed.

Lemma conflict_retryable p n r : retryable (session_text (ErrDomain (ErrAlreadyRouted p n r))) = true.
Proof.
  unfold retryable. apply orb_true_iff. left. cbn [session_text]. unfold conflict_text.
  change (go " is already routed to tunnel ") with (go " is " ++ go "already routed" ++ go " to tunnel ").
  rewrite <- !app_assoc. rewrite !(app_assoc (go "vhost: ")), !(app_assoc (_ ++ quote p)).
  apply Contains_app.
Qed.

Lemma refused_with_reply k t st e : refused_with k t st = Some e -> reply_error (attempt k t (before k t st)).1 = session_text e.
Proof.
  unfold refused_with, attempt, handleNewProxy. destruct (sessions _ !! sid) as [s|]; [|done]. cbn [mbind option_bind].
  destruct (AddProxy _ _ _ _ _ _) as [[[port|e'] s'] r]; [done|]. by intros [= ->].
Qed.

Lemma held_asks_again k t st : held k t st -> asks_again k t st = true.
Proof. intros (p & n & r & Hr). unfold asks_again. rewrite (refused_with_reply _ _ _ _ Hr). apply conflict_retryable. Qed.

Lemma asks_again_refused k t st : asks_again k t st = true ->
  exists e, refused_with k t st = Some e
  /\ (Contains (session_text e) (go "already routed") = true \/ Contains (session_text e) (go "already registered") = true).
Proof.
  intros Ha. assert (exists e, refused_with k t st = Some e) as [e He].
  { revert Ha. unfold asks_again, refused_with, attempt, handleNewProxy. destruct (sessions _ !! sid) as [s|]; [|done]. cbn [mbind option_bind].
    destruct (AddProxy _ _ _ _ _ _) as [[[port|e] s'] r]; [done|by exists e]. }
  exists e. split; [done|]. unfold asks_again in Ha. rewrite (refused_with_reply _ _ _ _ He) in Ha. by apply orb_true_iff in Ha.
Qed.

Lemma attempt_reply k t st :
  exists port e, (attempt k t st).1 = MNewProxyResp (MkNewProxyResp (tn_Name t) port e).
Proof.
  unfold attempt, handleNewProxy. destruct (sessions st !! sid) as [s|]; [|by do 2 eexists].
  destruct (AddProxy _ _ _ _ _ _) as [[[port|e] s'] r]; by do 2 eexists.
Qed.

(** The client's answer to a reply, by whether it can be tried again. *)
Lemma handle_reply k t st cs :
  find_tunnel (tn_Name t) cs = Some t ->
  let n := default 0 (retries cs !! tn_Name t) + 1 in
  handle_control (attempt k t st).1 cs
  = if retryable (reply_error (attempt k t st).1)
    then (if republishAttempts <? n then [] else [Republish t], set_retries (<[tn_Name t := n]> (retries cs)) cs)
    else ([], cs).
Proof.
  intros Ht. destruct (attempt_reply k t st) as (port & e & ->). cbn [handle_control reply_error npr_Error].
  case_bool_decide as E; cbn [negb]; [by subst e|]. unfold rejected. cbn [npr_Error npr_Name].
  destruct (retryable e); cbn [negb]; [|done]. rewrite Ht. unfold next.
  by destruct (republishAttempts <? default 0 (retries cs !! tn_Name t) + 1).
Qed.

Lemma dialogue_fuel n fuel k t cs st :
  (length (dialogue n k t cs st).1.1 < n)%nat -> (n <= fuel)%nat -> dialogue n k t cs st = dialogue fuel k t cs st.
Proof.
  revert fuel k t cs st. induction n as [|n IH]; intros fuel k t cs st; [lia|]. intros Hl Hf.
  destruct fuel as [|fuel]; [lia|]. revert Hl. cbn [dialogue].
  destruct (attempt k t st) as [reply st']. destruct (handle_control reply cs) as [[|[c|t'] acts] cs']; [done|done|].
  specialize (IH fuel (S k) t' (remember t' cs') (world k st')).
  destruct (dialogue n (S k) t' _ _) as [[rs cs1] st1] eqn:E. cbn [fst length]. intros Hl.
  rewrite <- IH; [done|cbn [fst]; lia|lia].
Qed.

Lemma dialogue_runs t st stop : (stop <= 8)%nat ->
  (stop = 8%nat \/ asks_again stop t st = false) ->
  forall d k cs fuel, (k + d = stop)%nat -> (d < fuel)%nat ->
  (forall j, (k <= j < stop)%nat -> asks_again j t st = true) ->
  find_tunnel (tn_Name t) cs = Some t -> default 0 (retries cs !! tn_Name t) = Z.of_nat k ->
  exists cs', dialogue fuel k t cs (before k t st)
  = ((fun j => (attempt j t (before j t st)).1) <$> seq k (S d), cs', (attempt stop t (before stop t st)).2).
Proof.
  intros Hstop Hlast. induction d as [|d IH]; intros k cs fuel Hk Hfuel Hc Ht Hn.
  - assert (k = stop) as -> by lia. destruct fuel as [|fuel]; [lia|]. cbn [dialogue seq fmap list_fmap].
    pose proof (handle_reply stop t (before stop t st) cs Ht) as Hr. cbv zeta in Hr. rewrite Hn in Hr.
    destruct (attempt stop t (before stop t st)) as [reply st'] eqn:E. cbn [fst snd] in *. rewrite Hr.
    destruct Hlast as [->|Hlast].
    + change (republishAttempts <? Z.of_nat 8 + 1) with true. destruct (retryable (reply_error reply)); by eexists.
    + unfold asks_again in Hlast. rewrite E in Hlast. cbn [fst] in Hlast. rewrite Hlast. by eexists.
  - destruct fuel as [|fuel]; [lia|]. cbn [dialogue].
    pose proof (handle_reply k t (before k t st) cs Ht) as Hr. cbv zeta in Hr. rewrite Hn in Hr.
    pose proof (Hc k ltac:(lia)) as Hck. unfold asks_again in Hck.
    destruct (attempt k t (before k t st)) as [reply st'] eqn:E. cbn [fst snd] in *. rewrite Hr, Hck.
    rewrite (proj2 (Z.ltb_ge republishAttempts (Z.of_nat k + 1))) by (unfold republishAttempts; lia).
    set (cs1 := remember t _). assert (world k st' = before (S k) t st) as -> by (simpl; by rewrite E).
    destruct (IH (S k) cs1 fuel) as (cs' & Hd); [lia|lia| | | |].
    + intros j Hj. apply Hc. lia.
    + unfold cs1, find_tunnel, remember. cbn [tunnels set_tunnels]. by rewrite lookup_insert_eq.
    + unfold cs1, remember. cbn [retries set_tunnels set_retries]. rewrite lookup_insert_eq. simpl. lia.
    + rewrite Hd. exists cs'. change (seq k (S (S d))) with (k :: seq (S k) (S d)).
      rewrite fmap_cons, E. done.
Qed.

Lemma first_stop (f : nat -> bool) n :
  exists k, (k <= n)%nat /\ (forall j, (j < k)%nat -> f j = true) /\ (k = n \/ f k = false).
Proof.
  induction n as [|n (k & Hk & Hlt & Hs)]; [by exists 0%nat; split_and!; [lia|lia|left]|].
  destruct (f k) eqn:E; [|by exists k; split_and!; [lia|done|right]].
  destruct Hs as [->|]; [|congruence]. exists (S n). split_and!; [lia| |by left].
  intros j Hj. destruct (decide (j = n)) as [->|]; [done|apply Hlt; lia].
Qed.

Lemma NewProxy_published k t st s :
  sessions st !! sid = Some s -> (forall e, session_text e <> []) ->
  reply_error (attempt k t st).1 = [] ->
  exists s', sessions (attempt k t st).2 !! sid = Some s' /\ is_Some (proxies s' !! tn_Name t).
Proof.
  intros Hs Htext. unfold attempt, handleNewProxy. rewrite Hs. unfold AddProxy.
  change (spec_Name (spec_of t)) with (tn_Name t).
  destruct (proxies s !! tn_Name t); [intros He; by destruct (Htext _ He)|].
  destruct (proxy_New _ _) as [p|e]; [|intros He; by destruct (Htext _ He)].
  destruct (Bind _ _ _ _ _) as [[p'|e] r]; [intros _|intros He; by destruct (Htext _ He)].
  cbn [snd sessions set_router set_sessions]. eexists. rewrite lookup_insert_eq. split; [done|]. cbn [proxies set_proxies]. rewrite lookup_insert_eq. by eexists.
Qed.

End republish.

(** ** Forwarding is accounted for *)

Section forwarding.
Context `{NT : NetText}.
Variable addr_String : ProxyProto.Addr -> bytes.

Definition get (name : bytes) (r : gmap bytes Counters) : Counters := default zero_counters (r !! name).

Lemma get_update name f r n : get n (update name f r) = if decide (n = name) then f (get name r) else get n r.
Proof. unfold get. rewrite lookup_update. by case_decide. Qed.

Definition total (f : Z * Z -> Z) (ps : list (Z * Z)) : Z := foldr (fun p acc => f p + acc) 0 ps.

Lemma progress_get now name n ps r :
  let r' := foldl (fun r p => RecordProgress name p.1 p.2 now r) r ps in
  (n <> name -> get n r' = get n r)
  /\ i64 (BytesIn (get name r')) = i64 (BytesIn (get name r) + total fst ps)
  /\ i64 (BytesOut (get name r')) = i64 (BytesOut (get name r) + total snd ps)
  /\ Active (get name r') = Active (get name r) /\ Connections (get name r') = Connections (get name r).
Proof.
  revert r. induction ps as [|p ps IH]; intros r; cbn [foldl].
  { unfold total. simpl. by rewrite !Z.add_0_r. }
  destruct (IH (RecordProgress name p.1 p.2 now r)) as (H1 & H2 & H3 & H4 & H5). cbv zeta.
  assert (forall f, total f (p :: ps) = f p + total f ps) as Ht by done. rewrite !Ht.
  assert (get name (RecordProgress name p.1 p.2 now r)
    = if (p.1 =? 0) && (p.2 =? 0) then get name r
      else let c := get name r in MkCounters (i64 (BytesIn c + p.1)) (i64 (BytesOut c + p.2)) (Connections c)
             (Active c) (Spliced c) (Buffered c) now) as Hg.
  { unfold RecordProgress. case_match; [done|]. rewrite get_update. by rewrite decide_True. }
  rewrite Hg in *. clear Hg. split; [intros Hn; rewrite H1 by done; unfold RecordProgress|].
  { case_match; [done|]. rewrite get_update. by rewrite decide_False. }
  destruct ((p.1 =? 0) && (p.2 =? 0)) eqn:E.
  - apply andb_true_iff in E as [E1%Z.eqb_eq E2%Z.eqb_eq]. rewrite E1, E2 in *. rewrite !Z.add_0_l. by split_and!.
  - cbv zeta in *. cbn [BytesIn BytesOut Active Connections] in *. rewrite i64_plus_l in H2, H3.
    by rewrite !Z.add_assoc.
Qed.

(** Forwarding one connection is accounted for on every path: whatever
    happens to it, the tunnel's active connections are back where they were and
    no other tunnel's counters move; a connection that is relayed adds exactly
    the bytes its relay reported and one connection, and its local side has
    received a PROXY header first if the tunnel asks for one and nothing
    otherwise; one that is not relayed adds nothing. *)
Theorem forward_accounts start l s r :
  let name := ProxyName start in
  let '(out, r') := forward addr_String start l s r in
  (forall n, n <> name -> (forall t, out <> ForwardsUDP t) -> get n r' = get n r)
  /\ (in_i64 (Active (get name r)) -> (forall t, out <> ForwardsUDP t) -> Active (get name r') = Active (get name r))
  /\ match out with
     | UnknownTunnel => find_tunnel name s = None /\ r' = r
     | Relayed w =>
         i64 (BytesIn (get name r')) = i64 (BytesIn (get name r) + total fst (l_progress l))
         /\ i64 (BytesOut (get name r')) = i64 (BytesOut (get name r) + total snd (l_progress l))
         /\ Connections (get name r') = i64 (Connections (get name r) + 1)
         /\ exists t w0 remote, find_tunnel name s = Some t /\ l_dial l (target name s) = Some (w0, remote)
            /\ (if bool_decide (ProxyProtocol t = []) then w = w0
                else exists source, ParseProxyAddr (SourceAddr start) = Ok source
                     /\ WriteProxyHeader addr_String w0 (ProxyProtocol t) source remote = (Ok tt, w))
     | ForwardsUDP t => find_tunnel name s = Some t /\ r' = Stats.Close name (l_udp l (Stats.Open name r))
     | _ => BytesIn (get name r') = BytesIn (get name r) /\ BytesOut (get name r') = BytesOut (get name r)
            /\ Connections (get name r') = Connections (get name r)
     end.
Proof.
  cbv zeta. unfold forward. set (name := ProxyName start).
  destruct (find_tunnel name s) as [t|] eqn:Ht; [|by split_and!].
  assert (forall n r, n <> name -> get n (Stats.Close name r) = get n r /\ get n (Stats.Open name r) = get n r) as Hother.
  { intros n r0 Hn. unfold Stats.Close, Stats.Open. rewrite !get_update. by rewrite !decide_False. }
  assert (forall r, get name (Stats.Close name r) = add_active (-1) (get name r)
    /\ get name (Stats.Open name r) = add_active 1 (get name r)) as Hown.
  { intros r0. unfold Stats.Close, Stats.Open. rewrite !get_update. by rewrite !decide_True. }
  assert (forall r, in_i64 (Active (get name r)) -> i64 (i64 (Active (get name r) + 1) + -1) = Active (get name r)) as Hact.
  { intros r0 Hr. rewrite i64_plus_l. rewrite <- (i64_id (Active (get name r0))) at 2 by done. f_equal. lia. }
  assert (forall r1, r1 = Stats.Open name r ->
    (forall n, n <> name -> get n (Stats.Close name r1) = get n r)
    /\ (in_i64 (Active (get name r)) -> Active (get name (Stats.Close name r1)) = Active (get name r))
    /\ BytesIn (get name (Stats.Close name r1)) = BytesIn (get name r)
    /\ BytesOut (get name (Stats.Close name r1)) = BytesOut (get name r)
    /\ Connections (get name (Stats.Close name r1)) = Connections (get name r)) as Hidle.
  { intros r1 ->. split_and!.
    - intros n Hn. destruct (Hother n (Stats.Open name r) Hn) as [-> _]. by apply Hother.
    - intros Hin. rewrite (proj1 (Hown _)), (proj2 (Hown r)). cbn [add_active Active]. by apply Hact.
    - rewrite (proj1 (Hown _)), (proj2 (Hown r)). done.
    - rewrite (proj1 (Hown _)), (proj2 (Hown r)). done.
    - rewrite (proj1 (Hown _)), (proj2 (Hown r)). done. }
  assert (forall r1, r1 = relay_traffic name l (Stats.Open name r) ->
    (forall n, n <> name -> get n (Stats.Close name r1) = get n r)
    /\ (in_i64 (Active (get name r)) -> Active (get name (Stats.Close name r1)) = Active (get name r))
    /\ i64 (BytesIn (get name (Stats.Close name r1))) = i64 (BytesIn (get name r) + total fst (l_progress l))
    /\ i64 (BytesOut (get name (Stats.Close name r1))) = i64 (BytesOut (get name r) + total snd (l_progress l))
    /\ Connections (get name (Stats.Close name r1)) = i64 (Connections (get name r) + 1)) as Hrelay.
  { intros r1 ->. unfold relay_traffic. set (rp := foldl _ _ _).
    destruct (progress_get (l_now l) name name (l_progress l) (Stats.Open name r)) as (_ & H2 & H3 & H4 & H5).
    fold rp in H2, H3, H4, H5. rewrite (proj1 (Hown _)).
    unfold RecordClose. rewrite get_update, decide_True by done. cbn [add_active BytesIn BytesOut Active Connections].
    rewrite (proj2 (Hown r)) in H2, H3, H4, H5. cbn [add_active BytesIn BytesOut Active Connections] in *.
    split_and!; [|intros Hin; rewrite H4; by apply Hact|exact H2|exact H3|by rewrite H5].
    intros n Hn. rewrite (proj1 (Hother n _ Hn)), get_update, decide_False by done.
    destruct (progress_get (l_now l) name n (l_progress l) (Stats.Open name r)) as (H1 & _). fold rp in H1.
    rewrite H1 by done. by apply Hother. }
  destruct (bool_decide (tn_Type t = TunnelUDP)).
  { split; [intros n _ Hno; by destruct (Hno t)|]. split; [intros _ Hno; by destruct (Hno t)|]. done. }
  destruct (l_dial l (target name s)) as [[w0 remote]|] eqn:Hd.
  2: { destruct (Hidle _ eq_refl) as (? & ? & ? & ? & ?). by split_and!; auto. }
  case_bool_decide as Hp.
  { destruct (Hrelay _ eq_refl) as (? & ? & ? & ? & ?). split_and!; auto.
    exists t, w0, remote. by rewrite bool_decide_eq_true_2. }
  destruct (ParseProxyAddr (SourceAddr start)) as [source|] eqn:Hsrc.
  2: { destruct (Hidle _ eq_refl) as (? & ? & ? & ? & ?). by split_and!; auto. }
  destruct (WriteProxyHeader addr_String w0 (ProxyProtocol t) source remote) as [[[]|e] w1] eqn:Hw.
  2: { destruct (Hidle _ eq_refl) as (? & ? & ? & ? & ?). by split_and!; auto. }
  destruct (Hrelay _ eq_refl) as (? & ? & ? & ? & ?). split_and!; auto.
  exists t, w0, remote. split_and!; [done|done|]. rewrite bool_decide_eq_false_2 by done. by exists source.
Qed.
End forwarding.

(** ** Certificates reach the server *)

Section pushing.
Context `{J : JsonCodec}.
Variable sha256_hex : bytes -> bytes.
(** A digest is 64 hexadecimal digits. *)
Hypothesis digest_nonempty : forall b, sha256_hex b <> [].

(** The material a tunnel's server should have. *)
Definition material (source : Z -> option Certificate) (t : Tunnel) : option Certificate :=
  if negb (Enabled t) || (CertID t =? 0) then None
  else m ← source (CertID t);
       if bool_decide (c_FullchainPEM m = []) || bool_decide (c_PrivateKeyPEM m = []) then None else Some m.

Definition can_send (source : Z -> option Certificate) : Prop :=
  forall id m, source id = Some m -> transmissible (push_of m).

(** The frames that carry some material with this fingerprint. *)
Definition carries (frames : list bytes) (fp : bytes) : Prop :=
  exists m frame, fp = fingerprint sha256_hex m /\ encode (push_of m) = Ok frame /\ frame ∈ frames.

Lemma push_tunnel_cases source p ws t :
  can_send source ->
  push_tunnel sha256_hex source (p, Writer ws None) t = (p, Writer ws None)
    /\ (forall m, material source t = Some m -> p !! tn_Name t = Some (fingerprint sha256_hex m))
  \/ exists m frame, material source t = Some m /\ encode (push_of m) = Ok frame
    /\ push_tunnel sha256_hex source (p, Writer ws None) t
       = (<[tn_Name t := fingerprint sha256_hex m]> p, Writer (ws ++ [frame]) None).
Proof.
  intros Hsend. unfold push_tunnel, material. destruct (negb (Enabled t) || (CertID t =? 0)); [by left|].
  destruct (source (CertID t)) as [m|] eqn:Em; [|by left]. cbn [mbind option_bind fst snd]. unfold pushOne.
  destruct (bool_decide (c_FullchainPEM m = []) || bool_decide (c_PrivateKeyPEM m = [])); [by left|].
  unfold seen. case_bool_decide as E.
  - left. split; [done|]. intros m' [= <-]. destruct (p !! tn_Name t); simpl in E; [congruence|].
    by destruct (digest_nonempty (c_FullchainPEM m ++ c_PrivateKeyPEM m)).
  - right. destruct (WriteMessage_ok (push_of m) ws (Hsend _ _ Em)) as (frame & Hf & Hw). rewrite Hw. by exists m, frame.
Qed.

Lemma carries_mono ws ws' fp : carries ws fp -> carries (ws ++ ws') fp.
Proof. intros (m & f & ? & ? & ?). exists m, f. split_and!; [done|done|]. apply elem_of_app. by left. Qed.

(** One pass over a list of tunnels. *)
Lemma pass_spec source ts p ws :
  can_send source -> NoDup (tn_Name <$> ts) ->
  exists p' more, foldl (push_tunnel sha256_hex source) (p, Writer ws None) ts = (p', Writer (ws ++ more) None)
  /\ (forall n, n ∉ tn_Name <$> ts -> p' !! n = p !! n)
  /\ (forall t m, t ∈ ts -> material source t = Some m -> p' !! tn_Name t = Some (fingerprint sha256_hex m))
  /\ (forall n fp, p' !! n = Some fp -> p !! n = Some fp \/ carries more fp)
  /\ Forall (fun f => exists t m, t ∈ ts /\ material source t = Some m /\ encode (push_of m) = Ok f) more.
Proof.
  intros Hsend. revert p ws. induction ts as [|t ts IH]; intros p ws Hnd.
  { exists p, []. rewrite app_nil_r. split_and!; [done|done|set_solver|by left|done]. }
  cbn [fmap list_fmap] in Hnd. apply NoDup_cons in Hnd as [Hn Hnd]. cbn [foldl].
  destruct (push_tunnel_cases source p ws t Hsend) as [[-> Hm]|(m & frame & Hm & Hf & ->)].
  - destruct (IH p ws Hnd) as (p' & more & -> & H1 & H2 & H3 & H4). exists p', more. split_and!; [done| | |done|].
    + intros n Hn'. apply H1. set_solver.
    + intros t' m [->|Ht]%elem_of_cons Hm'; [|by apply H2]. rewrite H1 by done. by apply Hm.
    + eapply Forall_impl; [exact H4|]. intros f (t' & m & ? & ?). exists t', m. set_solver.
  - destruct (IH (<[tn_Name t := fingerprint sha256_hex m]> p) (ws ++ [frame]) Hnd) as (p' & more & -> & H1 & H2 & H3 & H4).
    exists p', ([frame] ++ more). rewrite <- app_assoc. split_and!; [done| | | |].
    + intros n Hn'. rewrite H1 by set_solver. apply lookup_insert_ne. set_solver.
    + intros t' m' [->|Ht]%elem_of_cons Hm'; [|by apply H2]. rewrite H1 by done. rewrite lookup_insert_eq. congruence.
    + intros n fp Hp. apply H3 in Hp as [Hp|(m' & f' & ? & ? & ?)].
      * rewrite lookup_insert in Hp. case_decide; [|by left]. right. exists m, frame.
        split_and!; [congruence|done|set_solver].
      * right. exists m', f'. split_and!; [done|done|set_solver].
    + apply Forall_app. split.
      * constructor; [|done]. exists t, m. set_solver.
      * eapply Forall_impl; [exact H4|]. intros f (t' & m' & ? & ?). exists t', m'. set_solver.
Qed.

(** When everything is in place a pass writes nothing. *)
Lemma pass_idle source ts p ws :
  can_send source ->
  (forall t m, t ∈ ts -> material source t = Some m -> p !! tn_Name t = Some (fingerprint sha256_hex m)) ->
  foldl (push_tunnel sha256_hex source) (p, Writer ws None) ts = (p, Writer ws None).
Proof.
  intros Hsend. induction ts as [|t ts IH]; intros Hp; [done|]. cbn [foldl].
  assert (push_tunnel sha256_hex source (p, Writer ws None) t = (p, Writer ws None)) as ->.
  { specialize (Hp t). unfold push_tunnel, material in *.
    destruct (negb (Enabled t) || (CertID t =? 0)); [done|].
    destruct (source (CertID t)) as [m|] eqn:Em; [|done]. cbn [mbind option_bind fst snd] in *. unfold pushOne.
    destruct (bool_decide (c_FullchainPEM m = []) || bool_decide (c_PrivateKeyPEM m = [])); [done|].
    unfold seen. rewrite (Hp m) by (by left || done). by rewrite bool_decide_eq_true_2. }
  apply IH. intros t' m Ht. apply Hp. by right.
Qed.

Lemma passes_spec passes c ws :
  Forall can_send passes -> NoDup (tn_Name <$> Tunnels (cl_cfg c)) ->
  (forall n fp, pushed c !! n = Some fp -> carries ws fp) ->
  exists p ws', watchCertificates sha256_hex passes c (Writer ws None) = (set_pushed p c, Writer ws' None)
  /\ (forall n fp, p !! n = Some fp -> carries ws' fp).
Proof.
  intros Hs Hnd. revert c ws Hnd. induction Hs as [|source passes Hsend Hs IH]; intros c ws Hnd Hc.
  { exists (pushed c), ws. split; [|done]. by destruct c. }
  unfold watchCertificates in *. cbn [foldl fst snd].
  destruct (pass_spec source (Tunnels (cl_cfg c)) (pushed c) ws Hsend Hnd) as (p & more & Hp & _ & _ & H3 & _).
  cbn [pushCertificates]. rewrite Hp.
  destruct (IH (set_pushed p c) (ws ++ more)) as (p' & ws' & Hf & Hc'); [done| |].
  { intros n fp Hn. cbn [set_pushed pushed] in Hn. apply H3 in Hn as [Hn|(m & f & ? & ? & ?)].
    - by apply carries_mono, (Hc n).
    - exists m, f. split_and!; [done|done|set_solver]. }
  exists p', ws'. by split.
Qed.

(** The certificates of a client's tunnels reach its server: after any
    passes over any sources in a session whose writes succeed, once a pass has
    been made over what the source now holds, the session has carried, for every
    enabled tunnel with usable material, material of this very fingerprint; and
    another pass over the same material writes nothing more. *)
Theorem certificates_in_sync passes source c :
  Forall can_send passes -> can_send source -> NoDup (tn_Name <$> Tunnels (cl_cfg c)) ->
  let '(c1, w1) := watchCertificates sha256_hex (passes ++ [source]) (set_pushed ∅ c) (Writer [] None) in
  (forall t m, t ∈ Tunnels (cl_cfg c) -> material source t = Some m ->
     carries (written w1) (fingerprint sha256_hex m))
  /\ pushCertificates sha256_hex (Some source) c1 w1 = (c1, w1).
Proof.
  intros Hs Hsend Hnd. unfold watchCertificates. rewrite foldl_app. cbn [foldl].
  destruct (passes_spec passes (set_pushed ∅ c) [] Hs Hnd) as (p & ws & Hf & Hc).
  { intros n fp Hn. cbn [set_pushed pushed] in Hn. by rewrite lookup_empty in Hn. }
  unfold watchCertificates in Hf. rewrite Hf. cbn [fst snd pushCertificates].
  change (pushed (set_pushed p (set_pushed ∅ c))) with p.
  change (Tunnels (cl_cfg (set_pushed p (set_pushed ∅ c)))) with (Tunnels (cl_cfg c)).
  destruct (pass_spec source (Tunnels (cl_cfg c)) p ws Hsend Hnd) as (p' & more & Hp & _ & H2 & H3 & _).
  rewrite Hp. split.
  - intros t m Ht Hm. cbn [written]. destruct (H3 _ _ (H2 t m Ht Hm)) as [H|(m' & f & ? & ? & ?)].
    + by apply carries_mono, (Hc (tn_Name t)).
    + exists m', f. split_and!; [done|done|set_solver].
  - cbn [set_pushed pushed cl_cfg]. rewrite (pass_idle source _ p' (ws ++ more) Hsend H2). done.
Qed.
End pushing.

(** ** The supervisor serves what was configured *)

Section supervised.
Context `{NT : NetText}.

(** Checking tunnels that are fine one by one can only find a port taken twice. *)
Lemma check_tunnels_fails seen ports ts :
  Forall (fun t => Tunnel_Validate t = Ok tt) ts -> NoDup (tn_Name <$> ts) ->
  (forall n, n ∈ tn_Name <$> ts -> n ∉ seen) ->
  check_tunnels seen ports ts = Ok tt
  \/ exists one two port, check_tunnels seen ports ts = Err (ErrPortClash one two port).
Proof.
  revert seen ports. induction ts as [|t ts IH]; intros seen ports; [by left|].
  intros [Ht Hts]%Forall_cons Hnd Hseen. cbn [fmap list_fmap] in *. apply NoDup_cons in Hnd as [Hn Hnd].
  cbn [check_tunnels]. rewrite Ht. cbn [mbind res_bind].
  rewrite bool_decide_eq_false_2 by (apply Hseen; by left). cbn [refuse_if mbind res_bind].
  assert (forall n, n ∈ tn_Name <$> ts -> n ∉ {[tn_Name t]} ∪ seen) as Hs'.
  { intros n Hin. specialize (Hseen n). set_solver. }
  destruct (wants_port t); [|by apply IH].
  destruct (ports !! port_key t); [right; by do 3 eexists|by apply IH].
Qed.

Lemma check_tunnels_free seen ports ts :
  Forall (fun t => Tunnel_Validate t = Ok tt) ts -> NoDup (tn_Name <$> ts) ->
  (forall n, n ∈ tn_Name <$> ts -> n ∉ seen) ->
  NoDup (port_key <$> filter (fun t => wants_port t = true) ts) ->
  (forall k, k ∈ port_key <$> filter (fun t => wants_port t = true) ts -> ports !! k = None) ->
  check_tunnels seen ports ts = Ok tt.
Proof.
  revert seen ports. induction ts as [|t ts IH]; intros seen ports; [done|].
  intros [Ht Hts]%Forall_cons Hnd Hseen Hpn Hp. cbn [fmap list_fmap] in Hnd, Hseen. apply NoDup_cons in Hnd as [Hn Hnd].
  cbn [check_tunnels]. rewrite Ht. cbn [mbind res_bind].
  rewrite bool_decide_eq_false_2 by (apply Hseen; by left). cbn [refuse_if mbind res_bind].
  assert (forall n, n ∈ tn_Name <$> ts -> n ∉ {[tn_Name t]} ∪ seen) as Hs'.
  { intros n Hin. specialize (Hseen n). set_solver. }
  rewrite filter_cons in Hpn, Hp. destruct (wants_port t) eqn:Ew.
  - rewrite decide_True in Hpn, Hp by done. cbn [fmap list_fmap] in Hpn, Hp. apply NoDup_cons in Hpn as [Hk Hpn].
    rewrite (Hp (port_key t)) by (by left). apply IH; [done..|]. intros k Hin.
    rewrite lookup_insert_ne by (intros <-; by apply Hk). apply Hp. by right.
  - rewrite decide_False in Hpn, Hp by done. by apply IH.
Qed.

Lemma without_server_defaults t :
  Tunnel_applyDefaults (without_server (Tunnel_applyDefaults t)) = without_server (Tunnel_applyDefaults t).
Proof.
  pose proof (Tunnel_defaults_idem t) as E. set (t' := Tunnel_applyDefaults t) in *.
  transitivity (without_server (Tunnel_applyDefaults t')); [done|by rewrite E].
Qed.

Lemma loaded_transport_defaults c u :
  u ∈ Upstreams (Client_ApplyDefaults c) -> Transport_ApplyDefaults (u_Transport u) = u_Transport u.
Proof.
  unfold Upstreams. cbn [Client_ApplyDefaults Servers ServerAddr c_Transport].
  destruct (Servers c) as [|u0 us] eqn:E; cbn [fmap list_fmap].
  - case_bool_decide; [by intros ?%elem_of_nil|]. intros ->%list_elem_of_singleton. cbn [u_Transport].
    apply Transport_defaults_idem.
  - intros Hu. assert (exists u1, u = Upstream_ApplyDefaults u1) as [u1 ->].
    { apply elem_of_cons in Hu as [->|(u1 & -> & _)%list_elem_of_fmap]; by eexists. }
    cbn [Upstream_ApplyDefaults u_Transport]. apply Transport_defaults_idem.
Qed.
Definition scoped_of (c : Config.Client) (u : Upstream) : Config.Client :=
  Config.MkClient [] (Addr u) (u_Port u) (u_Token u) (u_ClientName u) (u_Transport u) (u_SocketGID u) (u_SocketMark u)
    (without_server <$> TunnelsFor (u_Name u) c).

Definition ports_free (ts : list Tunnel) : Prop := NoDup (tn_RemotePort <$> filter (fun t => wants_port t = true) ts).

Lemma wants_port_range t : Tunnel_Validate t = Ok tt -> wants_port t = true -> in_i64 (tn_RemotePort t).
Proof.
  intros Hv Hw. unfold wants_port in Hw. apply andb_true_iff in Hw as [[_ H1]%andb_true_iff H2].
  unfold Tunnel_Validate in Hv. rewrite !bind_ok in Hv. destruct Hv as (_ & _ & _ & _ & Hp & _). revert Hp.
  rewrite H1, H2. cbn [andb].
  unfold validatePort, port_ok. rewrite refuse_if_ok. intros Hp. bool_facts. unfold in_i64, min_i64, max_i64. lia.
Qed.

(** The configuration of one server of a loaded one is itself complete, and is
    valid exactly when no port is asked for twice. *)
Lemma scopedConfig_loaded c0 c u :
  LoadClient c0 = Ok c -> u ∈ Upstreams c -> IsCloudflare u = false ->
  (ports_free (TunnelsFor (u_Name u) c) -> scopedConfig c u = Ok (scoped_of c u))
  /\ (scopedConfig c u = Ok (scoped_of c u) /\ ports_free (TunnelsFor (u_Name u) c)
      \/ exists one two port, scopedConfig c u = Err (ErrPortClash one two port)).
Proof.
  intros (-> & Hne & Hs & _ & Ht)%LoadClient_ok Hu Hcf. pose proof (loaded_transport_defaults c0 u Hu) as Htr.
  set (c := Client_ApplyDefaults c0) in *.
  apply check_servers_ok in Hs as (Hv & _ & _). rewrite Forall_forall in Hv. specialize (Hv u Hu).
  apply check_tunnels_ok in Ht as (Htv & Htn & _).
  unfold Upstream_Validate in Hv. rewrite Hcf in Hv.
  destruct (blank (u_Name u)); [done|]. destruct (blank (Addr u)) eqn:Ha; [done|].
  destruct (negb (port_ok (u_Port u))) eqn:Hp; [done|].
  set (ts := TunnelsFor (u_Name u) c) in *.
  assert (Forall (fun t => Tunnel_Validate t = Ok tt /\ t ∈ Tunnels c) ts) as Hts.
  { apply Forall_forall. intros t [_ Hin]%list_elem_of_filter. rewrite Forall_forall in Htv. split; [by apply Htv|done]. }
  assert (NoDup (tn_Name <$> ts)) as Hnd.
  { eapply sublist_NoDup; [exact Htn|]. apply fmap_sublist. apply sublist_filter. }
  assert (Client_ApplyDefaults (scoped_of c u) = scoped_of c u) as Hdef.
  { unfold scoped_of at 1 2, Client_ApplyDefaults. cbn [Servers ServerAddr ServerPort c_Token c_Name c_Transport
      c_SocketGID c_SocketMark Tunnels fmap list_fmap]. rewrite Htr. f_equal.
    - unfold default_Z. destruct (u_Port u =? 0) eqn:E; [|done]. bool_facts. by rewrite E in Hp.
    - rewrite <- list_fmap_compose. apply list_fmap_ext. intros i t Hi. unfold compose.
      apply list_elem_of_lookup_2 in Hi. rewrite Forall_forall in Hts. apply Hts in Hi as [_ Hi].
      apply list_elem_of_fmap in Hi as (t0 & -> & _). apply without_server_defaults. }
  assert (Upstreams (scoped_of c u) = [MkUpstream DefaultUpstreamName [] [] [] (Addr u) (u_Port u) (u_Token u)
    (u_ClientName u) 0 0 (u_Transport u)]) as Hups.
  { unfold Upstreams. cbn [scoped_of Servers ServerAddr]. rewrite bool_decide_eq_false_2; [done|].
    intros E. by rewrite E in Ha. }
  assert (scopedConfig c u
    = (_ ← check_tunnels ∅ ∅ (without_server <$> ts); Ok (scoped_of c u))) as Hsc.
  { unfold scopedConfig, LoadClient. change (Config.MkClient _ _ _ _ _ _ _ _ _) with (scoped_of c u). rewrite Hdef.
    unfold Client_Validate. rewrite Hups. cbn [length Nat.eqb refuse_if mbind res_bind check_servers].
    assert (Upstream_Validate (MkUpstream DefaultUpstreamName [] [] [] (Addr u) (u_Port u) (u_Token u)
      (u_ClientName u) 0 0 (u_Transport u)) = Ok tt) as ->.
    { unfold Upstream_Validate. cbn [u_Name Addr u_Port u_Transport]. rewrite Ha, Hp. exact Hv. }
    cbn [mbind res_bind]. rewrite bool_decide_eq_false_2 by set_solver. cbn [refuse_if mbind res_bind].
    assert (OrphanTunnels (scoped_of c u) = []) as ->; [|done].
    apply filter_none. intros t. cbn [scoped_of Tunnels]. intros (t' & -> & _)%list_elem_of_fmap.
    cbn [without_server tn_Server Enabled]. by destruct (Enabled t'). }
  assert (Forall (fun t => Tunnel_Validate t = Ok tt) (without_server <$> ts)) as Hwv.
  { apply Forall_fmap. eapply Forall_impl; [exact Hts|]. by intros t [H _]. }
  assert (tn_Name <$> (without_server <$> ts) = tn_Name <$> ts) as Hwn.
  { rewrite <- list_fmap_compose. by apply list_fmap_ext. }
  assert (filter (fun t => wants_port t = true) (without_server <$> ts)
    = without_server <$> filter (fun t => wants_port t = true) ts) as Hwf.
  { by rewrite filter_fmap. }
  assert (port_key <$> filter (fun t => wants_port t = true) (without_server <$> ts)
    = (fun p => go "/" ++ Itoa p) <$> (tn_RemotePort <$> filter (fun t => wants_port t = true) ts)) as Hkeys.
  { rewrite Hwf, <- !list_fmap_compose. by apply list_fmap_ext. }
  assert (forall p, p ∈ tn_RemotePort <$> filter (fun t => wants_port t = true) ts -> in_i64 p) as Hrange.
  { intros p (t & -> & [Hw Hin]%list_elem_of_filter)%list_elem_of_fmap.
    rewrite Forall_forall in Hts. apply Hts in Hin as [Hval _]. by apply wants_port_range. }
  assert (ports_free ts -> check_tunnels ∅ ∅ (without_server <$> ts) = Ok tt) as Hfree.
  { intros Hfree. apply check_tunnels_free; [done|by rewrite Hwn|set_solver| |intros k _; apply lookup_empty].
    rewrite Hkeys. apply NoDup_fmap_2_strong; [|exact Hfree]. intros p q Hp1 Hq1 E.
    apply (inj (app _)) in E. apply Itoa_inj in E; auto. }
  rewrite Hsc. split; [intros H; by rewrite Hfree|].
  destruct (check_tunnels_fails ∅ ∅ (without_server <$> ts)) as [Hok|(one & two & port & ->)];
    [done|by rewrite Hwn|set_solver| |right; by do 3 eexists].
  left. rewrite Hok. split; [done|]. apply check_tunnels_ok in Hok as (_ & _ & _ & Hk & _).
  rewrite Hkeys in Hk. by apply NoDup_fmap_1 in Hk.
Qed.

Lemma NoDup_fmap_eq {A B} (f : A -> B) l x y : NoDup (f <$> l) -> x ∈ l -> y ∈ l -> f x = f y -> x = y.
Proof.
  intros Hnd [i Hi]%list_elem_of_lookup [j Hj]%list_elem_of_lookup E.
  assert (i = j) as ->; [|congruence]. apply (NoDup_lookup _ i j (f x) Hnd); rewrite list_lookup_fmap.
  - by rewrite Hi.
  - by rewrite Hj, E.
Qed.

Lemma start_client_elem c u n cl :
  (n, cl) ∈ start_client c u -> n = u_Name u /\ IsCloudflare u = false /\ scopedConfig c u = Ok (cl_cfg cl).
Proof.
  unfold start_client. destruct (IsCloudflare u); [by intros ?%elem_of_nil|].
  destruct (scopedConfig c u) as [sc|]; [|by intros ?%elem_of_nil].
  by intros [= -> ->]%list_elem_of_singleton.
Qed.

Lemma start_clients_NoDup c us : NoDup (u_Name <$> us) -> NoDup (us ≫= start_client c).*1.
Proof.
  induction us as [|u us IH]; intros Hnd; [constructor|]. cbn [fmap list_fmap] in Hnd.
  apply NoDup_cons in Hnd as [Hn Hnd]. cbn [mbind list_bind]. rewrite fmap_app. apply NoDup_app. split_and!; [| |by apply IH].
  - unfold start_client. repeat case_match; simpl; auto using NoDup_nil_2, NoDup_singleton.
  - intros n ([n' cl] & -> & Hin)%list_elem_of_fmap Hin'. apply start_client_elem in Hin as (-> & _).
    apply list_elem_of_fmap in Hin' as ([n2 cl2] & E & (u2 & Hin2 & Hu2)%list_elem_of_bind).
    apply start_client_elem in Hin2 as (-> & _). cbn [fst] in E. apply Hn. rewrite E. by apply list_elem_of_fmap_2.
Qed.

(** A server the supervisor can run a client for. *)
Definition usable_server (c : Config.Client) (u : Upstream) : Prop :=
  IsCloudflare u = false /\ ports_free (TunnelsFor (u_Name u) c).

Lemma started_usable c0 c u : LoadClient c0 = Ok c -> u ∈ Upstreams c ->
  u_Name u ∈ (Upstreams c ≫= start_client c).*1 <-> usable_server c u.
Proof.
  intros Hload Hu. pose proof Hload as (_ & _ & Hs & _)%LoadClient_ok. apply check_servers_ok in Hs as (_ & Hnd & _). split.
  - intros ([n cl] & E & (u' & Hin & Hu')%list_elem_of_bind)%list_elem_of_fmap. cbn [fst] in E.
    apply start_client_elem in Hin as (-> & Hcf & Hok).
    assert (u' = u) as -> by (eapply NoDup_fmap_eq; eauto). split; [done|].
    destruct (proj2 (scopedConfig_loaded c0 c u Hload Hu Hcf)) as [[_ H]|(? & ? & ? & Herr)]; [done|congruence].
  - intros [Hcf Hfree]. apply list_elem_of_fmap. exists (u_Name u, New (scoped_of c u)). split; [done|].
    apply list_elem_of_bind. exists u. split; [|done]. unfold start_client. rewrite Hcf.
    rewrite (proj1 (scopedConfig_loaded c0 c u Hload Hu Hcf) Hfree). by left.
Qed.

Lemma started_scoped c0 c n cl : LoadClient c0 = Ok c -> (n, cl) ∈ Upstreams c ≫= start_client c ->
  exists u, u ∈ Upstreams c /\ n = u_Name u /\ cl = New (scoped_of c u).
Proof.
  intros Hload (u & Hin & Hu)%list_elem_of_bind. exists u. split; [done|].
  unfold start_client in Hin. destruct (IsCloudflare u) eqn:Hcf; [by apply elem_of_nil in Hin|].
  destruct (proj2 (scopedConfig_loaded c0 c u Hload Hu Hcf)) as [[Hok _]|(? & ? & ? & Herr)].
  - rewrite Hok in Hin. apply list_elem_of_singleton in Hin. by injection Hin.
  - rewrite Herr in Hin. by apply elem_of_nil in Hin.
Qed.

Lemma Supervisor_Run_started c : default [] (Supervisor_Run c) = Upstreams c ≫= start_client c.
Proof. unfold Supervisor_Run. by destruct (Upstreams c ≫= start_client c). Qed.

(** C23: from a configuration that loads the supervisor starts one client for
    each server it can use (every server that is not Cloudflare's and whose
    tunnels do not ask for one port twice), under the server's name, with its
    address, port and token, and fails exactly when there is none; and the
    tunnels the started clients publish are exactly the enabled tunnels that
    belong to these servers, each once. *)
Theorem supervisor_serves c0 c :
  LoadClient c0 = Ok c ->
  let started := default [] (Supervisor_Run c) in
  (Supervisor_Run c = None <-> forall u, u ∈ Upstreams c -> ~ usable_server c u) /\ NoDup started.*1
  /\ (forall u, u ∈ Upstreams c -> u_Name u ∈ started.*1 <-> usable_server c u)
  /\ (forall name client, (name, client) ∈ started -> exists u, u ∈ Upstreams c /\ name = u_Name u
       /\ ServerAddr (cl_cfg client) = Addr u /\ ServerPort (cl_cfg client) = u_Port u /\ c_Token (cl_cfg client) = u_Token u)
  /\ concat ((fun nc => EnabledTunnels (cl_cfg nc.2)) <$> started)
     ≡ₚ without_server <$> filter (fun t => owner c t ∈ started.*1) (EnabledTunnels c).
Proof.
  intros Hload started. pose proof Hload as (_ & _ & Hs & _)%LoadClient_ok.
  apply check_servers_ok in Hs as (_ & Hnd & _).
  assert (Hrun : started = Upstreams c ≫= start_client c) by apply Supervisor_Run_started.
  assert (forall u, u ∈ Upstreams c -> u_Name u ∈ started.*1 <-> usable_server c u) as Hus
    by (rewrite Hrun; intros u Hu; by eapply started_usable).
  assert (NoDup started.*1) as Hst by (rewrite Hrun; by apply start_clients_NoDup).
  assert (forall n cl, (n, cl) ∈ started -> exists u, u ∈ Upstreams c /\ n = u_Name u /\ cl = New (scoped_of c u)) as Hel
    by (rewrite Hrun; intros n cl; by eapply started_scoped).
  split_and!; [|done|done| |].
  - split.
    + intros Hnone u Hu Huse. apply Hus in Huse; [|done]. unfold started in Huse. rewrite Hnone in Huse. by apply elem_of_nil in Huse.
    + intros Hno. destruct (Supervisor_Run c) as [[|[n cl] l]|] eqn:E; [|exfalso|done].
      * unfold Supervisor_Run in E. by destruct (Upstreams c ≫= start_client c).
      * destruct (Hel n cl) as (u & Hu & -> & _); [by left|]. apply (Hno u Hu), Hus; [done|]. by left.
  - intros n cl Hin. destruct (Hel n cl Hin) as (u & Hu & -> & ->). by exists u.
  - set (l := filter (fun t => owner c t ∈ started.*1) (EnabledTunnels c)).
    assert ((fun nc : bytes * Client => EnabledTunnels (cl_cfg nc.2)) <$> started
      = (fun k => without_server <$> filter (fun t => owner c t = k) l) <$> started.*1) as ->.
    { rewrite <- list_fmap_compose. apply list_fmap_ext. intros i nc Hi%list_elem_of_lookup_2. unfold compose.
      destruct nc as [n cl]. destruct (Hel _ _ Hi) as (u & Hu & -> & ->). cbn [fst snd New cl_cfg].
      unfold EnabledTunnels at 1. cbn [scoped_of Tunnels]. rewrite filter_fmap. f_equal.
      unfold TunnelsFor, l, EnabledTunnels. rewrite !list_filter_filter. apply list_filter_iff. intros t.
      cbn [without_server Enabled]. assert (forall o, o = u_Name u -> o ∈ started.*1) as Hin.
      { intros o ->. apply list_elem_of_fmap. by exists (u_Name u, New (scoped_of c u)). }
      naive_solver. }
    assert ((fun k => without_server <$> filter (fun t => owner c t = k) l) <$> started.*1
      = (fun l : list Tunnel => without_server <$> l) <$> ((fun k => filter (fun t => owner c t = k) l) <$> started.*1)) as ->
      by (by rewrite <- (list_fmap_compose _ _ started.*1)).
    rewrite <- fmap_concat. apply fmap_Permutation, partition_by; [done|].
    apply Forall_forall. intros t [H _]%list_elem_of_filter. done.
Qed.
End supervised.

(** ** A challenge announced is never taken back *)

(** An announcement logs in without a run id, so the server generates one for
    every announcement; the store lets only the publisher's run id withdraw.  The
    withdrawal that follows a publication is therefore answered as done and does
    nothing: the challenge is served until its hour is over. *)
Theorem announced_withdrawal_ignored `{Hmac} text u machine ts g1 g2 auth dom token now1 now2 st :
  g1 <> g2 -> acceptable token auth = true ->
  let '(_, st1) := handleHTTPChallenge text g1 (MkHTTPChallenge dom token auth false) now1 st in
  let '(reply, st2) := handleHTTPChallenge text g2 (MkHTTPChallenge dom token [] true) now2 st1 in
  login_RunID (login_of machine ts (New (announce_config u))) = []
  /\ reply = MHTTPChallengeResp []
  /\ challenges st2 !! token = Some (MkChallenge auth dom g1 (now1 + challengeTTL)).
Proof.
  intros Hg Hacc. unfold acceptable in Hacc.
  apply andb_true_iff in Hacc as [[H1%negb_true_iff H2%negb_true_iff]%andb_true_iff H3%negb_true_iff].
  unfold handleHTTPChallenge. cbn [hc_Remove Messages.Token KeyAuth hc_Domain]. unfold Publish. rewrite H1, H2, H3.
  cbn [orb]. split; [done|]. split; [done|]. cbn [challenges set_challenges]. unfold Withdraw.
  rewrite lookup_insert_eq. cbn [ch_runID]. rewrite bool_decide_eq_false_2 by done. apply lookup_insert_eq.
Qed.

(** ** Examples *)

(** A codec for a few messages, each of its own type, by name. *)
Definition table_json (ms : list (bytes * Message)) : JsonCodec.
Proof.
  refine {| Marshal m := fst <$> find (fun e => Type_ e.2 =? Type_ m) ms;
            Unmarshal t p := snd <$> find (fun e => (Type_ e.2 =? t) && bool_decide (e.1 = p)) ms |}.
  intros t p m ([n m'] & Hf & ->)%fmap_Some. apply find_some in Hf as [_ E]. by bool_facts.
Defined.

Definition example_rounds : list round :=
  [MkRound false false (5 * Second) 7 false; MkRound false false (2 * Hour) 3 false; MkRound false false 0 (10 ^ 12) false].

Lemma reconnect_backoff_witness :
  Forall uncancelled example_rounds /\ exists waits, Run minReconnectDelay example_rounds = (waits, false)
    /\ length waits = 3%nat.
Proof.
  assert (Forall uncancelled example_rounds) as H by (repeat constructor).
  split; [exact H|]. destruct (reconnect_backoff example_rounds H) as (waits & Hw & Hl & _). by exists waits.
Defined.

Section example.
#[local] Existing Instance no_unicode.
#[local] Existing Instance ascii_idna.
#[local] Existing Instance toy_hmac.
#[local] Existing Instance no_x509.

Definition example_machine : Machine := MkMachine (go "router") (go "linux") (go "arm64").
Definition example_cl : Client :=
  New (Client_ApplyDefaults (Config.MkClient [] (go "vps.example.com") 0 (go "tok") (go "home") example_transport 0 0 [])).
Definition example_server : State :=
  Server.New (Config.MkServer (go "0.0.0.0") 7000 (go "tok") 80 443 8 1).
Definition example_ts : Z := 1700000000.
Definition example_resp : LoginResp := MkLoginResp (go "192.0.2.1") Version (go "run") (go "1.0") [].
Definition login_json : JsonCodec :=
  table_json [(go "login", MLogin (login_of example_machine example_ts example_cl)); (go "resp", MLoginResp example_resp)].

Lemma table_transmissible ms n m :
  find (fun e => Type_ e.2 =? Type_ m) ms = Some (n, m) -> Z.of_nat (length n) <= MaxMessageSize ->
  find (fun e => (Type_ e.2 =? Type_ m) && bool_decide (e.1 = n)) ms = Some (n, m) ->
  @transmissible (table_json ms) m.
Proof. intros H1 H2 H3. exists n. split; [simpl; by rewrite H1|]. split; [done|]. simpl. by rewrite H3. Qed.

Lemma login_meets_server_witness :
  exists run st', handleLogin no_text 7 7 (login_of example_machine example_ts example_cl) (time_Unix (example_ts + 60))
                    (Some (go "run")) (go "192.0.2.1") (go "1.0") true example_server
                  = (LoginStarted 7, Some example_resp, st') /\ registry st' !! run = Some 7%N.
Proof.
  destruct (@login_meets_server login_json _ _ _ no_text example_machine example_ts example_cl 7 7
    (time_Unix (example_ts + 60)) (Some (go "run")) (go "192.0.2.1") (go "1.0") true example_server EOF)
    as (bs & frame & _ & _ & _ & H).
  - reflexivity.
  - vm_compute. split; congruence.
  - eapply table_transmissible; [vm_compute; reflexivity|vm_compute; congruence|vm_compute; reflexivity].
  - destruct (handleLogin _ _ _ _ _ _ _ _ _ _) as [[result resp] st'] eqn:E. destruct H as [H _].
    destruct H as (run & Hrun & -> & Hreg & resp' & -> & _);
      [reflexivity|vm_compute; congruence|vm_compute; congruence|].
    exists run, st'. split; [|exact Hreg].
    pose proof (f_equal (fun x => x.1.2) E) as Er. vm_compute in Er. by injection Er as <-.
Defined.

Definition example_session : session := MkSession (go "run") [] [] ∅ ∅ ∅.
Definition work_json : JsonCodec :=
  table_json [(go "work", MNewWorkConn (work_claim example_ts example_cl example_session))].
Definition served : State :=
  (handleLogin no_text 7 7 (login_of example_machine example_ts example_cl) (time_Unix (example_ts + 60))
     (Some (go "run")) [] [] true example_server).2.
Definition served_session : Session := default (newSession (MkSessionOptions [] 0 1 1)) (sessions served !! 7%N).

Lemma work_connection_joins_witness :
  exists st', attachWorkConn 9 (work_claim example_ts example_cl example_session) (time_Unix example_ts) false served
              = (true, st')
  /\ sessions st' !! 7%N = Some (AddWorkConn 9 false served_session).
Proof.
  destruct (work_connection_joins (J:=work_json) example_ts example_cl example_session 9 7 served_session false
    (time_Unix example_ts) served (Writer [] None) (Stream [] EOF) [] EOF) as (bs & _ & _ & st' & H1 & H2 & _).
  - reflexivity.
  - vm_compute. reflexivity.
  - vm_compute. reflexivity.
  - vm_compute. split; congruence.
  - vm_compute. congruence.
  - eapply table_transmissible; [vm_compute; reflexivity|vm_compute; congruence|vm_compute; reflexivity].
  - reflexivity.
  - exists st'. split; [exact H1|exact H2].
Defined.

(** The client is back before its broken session is closed, which happens
    after its first attempt: the second one succeeds. *)
Definition site : Tunnel :=
  MkTunnel (go "a") true (go "http") (go "127.0.0.1") 8080 0 [go "a.example.com"] (go "none") [] 0 [] 0 0 0.
Definition site_session : session := remember site (MkSession (go "run") [] [] ∅ ∅ ∅).
Definition plain_text (e : sesserr) : bytes := go "error".
Definition closes_old (k : nat) (st : State) : State := if (k =? 1)%nat then teardown_close 1 st else st.


Definition example_material : Certificate := MkCertificate [go "a.example.com"] (go "chain") (go "key") 0.
Definition cert_json : JsonCodec := table_json [(go "push", push_of example_material)].
Definition cert_client : Client :=
  New (Config.MkClient [] (go "vps") 7000 [] [] example_transport 0 0
    [MkTunnel (go "a") true (go "https") [] 443 0 [go "a.example.com"] (go "terminate") [] 5 [] 0 0 0]).
Definition cert_source (id : Z) : option Certificate := if id =? 5 then Some example_material else None.

Lemma certificates_in_sync_witness :
  let '(c1, w1) := @watchCertificates cert_json (app (go "h")) [cert_source; cert_source] (set_pushed ∅ cert_client)
                     (Writer [] None) in
  length (written w1) = 1%nat /\ @pushCertificates cert_json (app (go "h")) (Some cert_source) c1 w1 = (c1, w1).
Proof.
  assert (@can_send cert_json cert_source) as Hs.
  { intros id m. unfold cert_source. destruct (id =? 5); [|done]. intros [= <-].
    eapply table_transmissible; [vm_compute; reflexivity|vm_compute; congruence|vm_compute; reflexivity]. }
  pose proof (@certificates_in_sync cert_json (app (go "h")) ltac:(by intros b) [cert_source] cert_source cert_client
    (proj2 (Forall_singleton _ _) Hs) Hs (NoDup_singleton _)) as H.
  destruct (@watchCertificates cert_json _ _ _ _) as [c1 w1] eqn:E. destruct H as [_ H].
  split; [|exact H]. apply (f_equal snd) in E. cbn [snd] in E. rewrite <- E. vm_compute. reflexivity.
Defined.

Lemma supervisor_serves_witness :
  let started := default [] (@Supervisor_Run no_net_text example_loaded) in
  length started = 1%nat /\
  concat ((fun nc => EnabledTunnels (cl_cfg nc.2)) <$> started)
  ≡ₚ without_server <$> filter (fun t => owner example_loaded t ∈ started.*1) (EnabledTunnels example_loaded).
Proof.
  split; [by vm_compute|].
  apply (@supervisor_serves no_net_text (example_client
    [example_tunnel (go "a") (go "vps") TunnelTCP 6000; example_tunnel (go "b") [] TunnelTCP 6001])).
  by vm_compute.
Defined.

Lemma forward_accounts_witness :
  let l := MkSide (fun _ => Some (Writer [] None, TCPAddr [] 0)) [(100, 7); (5, 0)] false (fun r => r) 1 in
  let '(out, r) := @forward no_net_text (fun _ => []) (MkStartWorkConn (go "a") [] []) l site_session NewRegistry in
  out = Relayed (Writer [] None) /\ Active (get (go "a") r) = 0.
Proof.
  cbv zeta. set (l := MkSide _ _ _ _ _).
  pose proof (@forward_accounts no_net_text (fun _ => []) (MkStartWorkConn (go "a") [] []) l site_session NewRegistry) as H.
  cbv zeta in H. destruct (@forward no_net_text _ _ _ _ _) as [out r] eqn:E.
  assert (out = Relayed (Writer [] None)) as -> by (apply (f_equal fst) in E; vm_compute in E; by rewrite E).
  split; [done|]. destruct H as (_ & H & _). apply H; [vm_compute; split; congruence|done].
Defined.
End example.
