(* ===== verification/Flows.v ===== *)
(** UDP flows over one work connection: [internal/tunnel/server/proxy/udp.go] on
    the server, [internal/tunnel/client/udp.go] on the client.

    The server names every visitor by the text of its address and keeps the
    address for the replies; the client keeps a local socket for every name and
    a goroutine that pumps its replies.  Sockets are identities.  Two goroutines
    of the client share the table, so what happens is a sequence of events. *)
From S2P Require Import Prelude GoStrings Stream Messages Protocol Udp ProxyProto Stats.

(** Both ends read into a scratch buffer of a whole frame. *)
Definition read_datagram (r : stream) : res perr (bytes * bytes) * stream :=
  ReadUDPPacketInto (Z.to_nat MaxUDPFrame) r.

Lemma read_datagram_append addr payload frame rest e :
  AppendUDPPacket [] addr payload = Ok frame -> read_datagram (Stream (frame ++ rest) e) = (Ok (addr, payload), Stream rest e).
Proof. apply ReadUDPPacketInto_append. rewrite Z2Nat.id; [done|vm_compute; congruence]. Qed.

(** ** Visitors (server) *)

(** A [netip.AddrPort]: the bytes of its address, its zone and its port. *)
Record AddrPort := MkAddrPort { ap_addr : bytes; ap_zone : bytes; ap_port : Z }.

#[export] Instance AddrPort_eq_dec : EqDecision AddrPort.
Proof. solve_decision. Defined.
#[export] Instance AddrPort_countable : Countable AddrPort.
Proof.
  apply (inj_countable' (fun a => (ap_addr a, ap_zone a, ap_port a)) (fun t => MkAddrPort t.1.1 t.1.2 t.2)).
  by intros [].
Defined.

Definition Is4In6 (a : AddrPort) : bool :=
  (length (ap_addr a) =? 16)%nat && HasPrefix (ap_addr a) v4InV6Prefix.
Definition Unmap (a : AddrPort) : AddrPort := MkAddrPort (drop 12 (ap_addr a)) [] (ap_port a).
Definition unmapped (a : AddrPort) : AddrPort := if Is4In6 a then Unmap a else a.

(** [netip.AddrPort.String], which [netip.ParseAddrPort] inverts. *)
Class NetipText := {
  ap_String : AddrPort -> bytes;
  ap_String_inj : forall a b, ap_String a = ap_String b -> a = b
}.

Definition udpSessionTimeout : Z := 60 * Second.

Record udpPeer := MkPeer { up_str : bytes; up_last : Z }.

(** The peers are shared by both maps; through [byStr] only the address is read. *)
Record udpSessions := MkSessions {
  byAddr : gmap AddrPort udpPeer;
  byStr : gmap bytes AddrPort
}.

Definition newUDPSessions : udpSessions := MkSessions ∅ ∅.

Section visitors.
Context `{NT : NetipText}.

(** The sweep over the peers whose last datagram is before the cutoff. *)
Definition evict (cutoff : Z) (s : udpSessions) : udpSessions :=
  map_fold (fun a p s => if up_last p <? cutoff then MkSessions (delete a (byAddr s)) (delete (up_str p) (byStr s)) else s)
    s (byAddr s).

Definition remember (addr : AddrPort) (now : Z) (s : udpSessions) : bytes * udpSessions :=
  let addr := unmapped addr in
  match byAddr s !! addr with
  | Some peer => (up_str peer, MkSessions (<[addr := MkPeer (up_str peer) now]> (byAddr s)) (byStr s))
  | None =>
      let peer := MkPeer (ap_String addr) now in
      let s := MkSessions (<[addr := peer]> (byAddr s)) (<[up_str peer := addr]> (byStr s)) in
      (up_str peer, if (64 <? size (byAddr s))%nat then evict (now - udpSessionTimeout) s else s)
  end.

Definition lookup_peer (key : bytes) (s : udpSessions) : option AddrPort := byStr s !! key.

(** A datagram a visitor sends: where from, what and when. *)
Record datagram := MkDatagram { dg_from : AddrPort; dg_payload : bytes; dg_now : Z }.

Definition writeInbound (addr payload : bytes) (w : writer) : res perr unit * writer :=
  match AppendUDPPacket [] addr payload with
  | Err e => (Err e, w)
  | Ok framed => match Write framed w with
                 | (Err e, w) => (Err (ErrIO (go "write") e), w)
                 | (Ok _, w) => (Ok tt, w)
                 end
  end.

(** The loop of [serveOnce] over what visitors send: an error ends it. *)
Fixpoint inbound (ds : list datagram) (s : udpSessions) (w : writer) : option perr * udpSessions * writer :=
  match ds with
  | [] => (None, s, w)
  | d :: ds =>
      let '(str, s) := remember (dg_from d) (dg_now d) s in
      match writeInbound str (dg_payload d) w with
      | (Err e, w) => (Some e, s, w)
      | (Ok _, w) => inbound ds s w
      end
  end.

Inductive served : Type :=
  | NothingYet
  | NoWorkConn                         (* the datagram is lost *)
  | Serving (s : udpSessions) (w : writer)
  | Broken (e : perr) (s : udpSessions) (w : writer).

(** [serveOnce]: the first datagram asks for the work connection. *)
Definition serveOnce (ds : list datagram) (work : option writer) : served :=
  match ds with
  | [] => NothingYet
  | d :: ds' =>
      match work with
      | None => NoWorkConn
      | Some w => match inbound ds newUDPSessions w with
                  | (None, s, w) => Serving s w
                  | (Some e, s, w) => Broken e s w
                  end
      end
  end.

(** The goroutine that reads the replies, on the table as it is when each reply
    comes; [ok] is whether the reply could be sent. *)
Fixpoint outbound (tables : list (udpSessions * bool)) (r : stream) {struct tables} : list (AddrPort * bytes) * stream :=
  match tables with
  | [] => ([], r)
  | (s, ok) :: tables =>
      match read_datagram r with
      | (Err _, r) => ([], r)
      | (Ok (addr, payload), r) =>
          match lookup_peer addr s with
          | None => outbound tables r
          | Some target =>
              if ok then let '(sent, r) := outbound tables r in ((target, payload) :: sent, r) else ([], r)
          end
      end
  end.

(** *** Both maps name the same peers *)

Definition tables_agree (s : udpSessions) : Prop :=
  (forall a p, byAddr s !! a = Some p -> up_str p = ap_String a /\ byStr s !! up_str p = Some a)
  /\ (forall k a, byStr s !! k = Some a -> k = ap_String a /\ is_Some (byAddr s !! a)).

Definition evict_step (cutoff : Z) (a : AddrPort) (p : udpPeer) (s : udpSessions) : udpSessions :=
  if up_last p <? cutoff then MkSessions (delete a (byAddr s)) (delete (up_str p) (byStr s)) else s.

(** The sweep, by what it keeps. *)
Lemma evict_spec cutoff s :
  tables_agree s ->
  (forall a, byAddr (evict cutoff s) !! a
     = match byAddr s !! a with Some p => if up_last p <? cutoff then None else Some p | None => None end)
  /\ (forall k, byStr (evict cutoff s) !! k
     = match byStr s !! k with
       | Some a => match byAddr s !! a with Some p => if up_last p <? cutoff then None else Some a | None => None end
       | None => None end).
Proof.
  intros [H1 H2]. unfold evict. change (fun a p s => _) with (evict_step cutoff).
  assert (forall m, m ⊆ byAddr s ->
    (forall a, byAddr (map_fold (evict_step cutoff) s m) !! a
       = match m !! a with Some p => if up_last p <? cutoff then None else Some p | None => byAddr s !! a end)
    /\ (forall k, byStr (map_fold (evict_step cutoff) s m) !! k
       = match byStr s !! k with
         | Some a => match m !! a with Some p => if up_last p <? cutoff then None else Some a | None => Some a end
         | None => None end)) as Hf.
  { intros m. induction m as [|a p m Hm Hfirst IH] using map_first_key_ind; intros Hsub.
    - rewrite map_fold_empty. split; intros x; rewrite ?lookup_empty; [done|]. destruct (byStr s !! x); [|done].
      by rewrite lookup_empty.
    - rewrite map_fold_insert_first_key by done.
      destruct IH as [I1 I2]; [etrans; [by apply insert_subseteq|done]|].
      assert (byAddr s !! a = Some p) as Ha by (eapply lookup_weaken; [apply lookup_insert_eq|exact Hsub]).
      destruct (H1 a p Ha) as [Hstr Hk]. set (t := map_fold _ _ m) in *. unfold evict_step.
      destruct (up_last p <? cutoff) eqn:E; cbn [byAddr byStr]; split; intros x.
      + rewrite lookup_insert. case_decide as Hx; [subst x; rewrite lookup_delete_eq, E; done|].
        rewrite lookup_delete_ne by done. apply I1.
      + destruct (decide (up_str p = x)) as [<-|Hx].
        * rewrite lookup_delete_eq, Hk, lookup_insert_eq, E. done.
        * rewrite lookup_delete_ne, I2 by done. destruct (byStr s !! x) as [a'|] eqn:Ex; [|done].
          rewrite lookup_insert_ne; [done|]. intros <-. destruct (H2 x a Ex) as [-> _]. congruence.
      + rewrite I1, lookup_insert. case_decide; [subst x; by rewrite E, Ha, Hm|done].
      + rewrite I2. destruct (byStr s !! x) as [a'|] eqn:Ex; [|done]. rewrite lookup_insert.
        case_decide; [subst a'; by rewrite E, Hm|done]. }
  destruct (Hf (byAddr s) ltac:(done)) as [I1 I2]. split; intros x.
  - rewrite I1. by destruct (byAddr s !! x).
  - rewrite I2. destruct (byStr s !! x) as [a|] eqn:Ex; [|done]. destruct (H2 x a Ex) as [_ [p ->]]. done.
Qed.

Lemma evict_agree cutoff s : tables_agree s -> tables_agree (evict cutoff s).
Proof.
  intros Hs. pose proof (evict_spec cutoff s Hs) as [E1 E2]. destruct Hs as [H1 H2]. split.
  - intros a p. rewrite E1. destruct (byAddr s !! a) as [p'|] eqn:Ea; [|done].
    destruct (up_last p' <? cutoff) eqn:El; [done|]. intros [= <-].
    destruct (H1 a p' Ea) as [Hs Hk]. split; [done|]. by rewrite E2, Hk, Ea, El.
  - intros k a. rewrite E2. destruct (byStr s !! k) as [a'|] eqn:Ek; [|done].
    destruct (byAddr s !! a') as [p|] eqn:Ea; [|done]. destruct (up_last p <? cutoff) eqn:El; [done|].
    intros [= <-]. destruct (H2 k a' Ek) as [-> _]. split; [done|]. rewrite E1, Ea, El. by eexists.
Qed.

(** Remembering a visitor names it, keeps the tables in agreement and forgets
    only peers that have been silent for longer than the timeout. *)
Lemma remember_spec addr now s str s' :
  tables_agree s -> remember addr now s = (str, s') ->
  str = ap_String (unmapped addr) /\ tables_agree s'
  /\ byAddr s' !! unmapped addr = Some (MkPeer str now)
  /\ (forall a p, byAddr s !! a = Some p -> a <> unmapped addr -> now - udpSessionTimeout <= up_last p ->
      byAddr s' !! a = Some p).
Proof.
  intros Hs. unfold remember. set (a0 := unmapped addr). pose proof Hs as [H1 H2].
  destruct (byAddr s !! a0) as [p0|] eqn:E0.
  - intros [= <- <-]. destruct (H1 a0 p0 E0) as [Hstr Hk]. split; [done|]. split; [split|].
    + intros a p. cbn [byAddr byStr]. rewrite lookup_insert. case_decide; [subst a; intros [= <-]; done|apply H1].
    + intros k a. cbn [byAddr byStr]. intros Hka. destruct (H2 k a Hka) as [? ?]. split; [done|].
      rewrite lookup_insert. case_decide; [by eexists|done].
    + split; [apply lookup_insert_eq|]. intros a p Ha Hne _. cbn [byAddr]. by rewrite lookup_insert_ne.
  - set (s1 := MkSessions (<[a0 := MkPeer (ap_String a0) now]> (byAddr s))
                 (<[up_str (MkPeer (ap_String a0) now) := a0]> (byStr s))).
    assert (tables_agree s1) as Hs1.
    { unfold s1. split.
      - intros a p. cbn [byAddr byStr up_str]. rewrite lookup_insert. case_decide.
        + subst a. intros [= <-]. cbn [up_str]. by rewrite lookup_insert_eq.
        + intros Ha. destruct (H1 a p Ha) as [Hp Hk]. split; [done|].
          rewrite lookup_insert_ne; [done|]. rewrite Hp. by intros E%ap_String_inj.
      - intros k a. cbn [byAddr byStr up_str]. rewrite lookup_insert. case_decide.
        + intros [= <-]. rewrite lookup_insert_eq. subst k. split; [done|by eexists].
        + intros Ha. destruct (H2 k a Ha) as [-> [p Hp]]. split; [done|].
          rewrite lookup_insert. case_decide; [by eexists|by eexists]. }
    assert (byAddr s1 !! a0 = Some (MkPeer (ap_String a0) now)) as Hown by apply lookup_insert_eq.
    assert (forall a p, byAddr s !! a = Some p -> a <> a0 -> byAddr s1 !! a = Some p) as Hother.
    { intros a p Ha Hne. unfold s1. cbn [byAddr]. by rewrite lookup_insert_ne. }
    clearbody s1. intros [= <- <-]. cbn [up_str]. split; [done|].
    destruct (64 <? size (byAddr s1))%nat.
    + split; [by apply evict_agree|]. pose proof (evict_spec (now - udpSessionTimeout) s1 Hs1) as [E1 _]. split.
      * rewrite E1, Hown. cbn [up_last].
        rewrite (proj2 (Z.ltb_ge _ _)); [done|]. unfold udpSessionTimeout, Second, Millisecond. lia.
      * intros a p Ha Hne Hold. rewrite E1, (Hother a p Ha Hne). by rewrite (proj2 (Z.ltb_ge _ _)).
    + split; [done|]. split; [exact Hown|]. intros a p Ha Hne _. by apply Hother.
Qed.

Definition remember_all (visits : list (AddrPort * Z)) (s : udpSessions) : udpSessions :=
  foldl (fun s v => (remember v.1 v.2 s).2) s visits.

Lemma remember_all_agree visits s : tables_agree s -> tables_agree (remember_all visits s).
Proof.
  revert s. induction visits as [|v visits IH]; intros s Hs; [done|]. cbn [remember_all foldl]. apply IH.
  destruct (remember v.1 v.2 s) as [str s'] eqn:E. by destruct (remember_spec _ _ _ _ _ Hs E) as (_ & ? & _).
Qed.

Lemma new_agree : tables_agree newUDPSessions.
Proof. split; intros ? ?; cbn [newUDPSessions byAddr byStr]; by rewrite lookup_empty. Qed.

(** A visitor is remembered while the visits of others are within the timeout. *)
Lemma remember_all_keeps visits s a now :
  tables_agree s -> (exists p, byAddr s !! a = Some p /\ now <= up_last p) ->
  Forall (fun v => now <= v.2 <= now + udpSessionTimeout) visits ->
  exists p, byAddr (remember_all visits s) !! a = Some p /\ now <= up_last p.
Proof.
  revert s. induction visits as [|v visits IH]; intros s Hs (p & Hp & Hl) Hv; [by exists p|].
  apply Forall_cons in Hv as [[Hv1 Hv2] Hv]. cbn [remember_all foldl].
  destruct (remember v.1 v.2 s) as [str s'] eqn:E.
  destruct (remember_spec _ _ _ _ _ Hs E) as (_ & Hs' & Hnew & Hkeep). cbn [snd].
  apply IH; [done| |done]. destruct (decide (a = unmapped v.1)) as [->|Hne].
  - eexists. split; [exact Hnew|]. done.
  - exists p. split; [|done]. apply Hkeep; [done|done|lia].
Qed.

(** C29: a reply finds its visitor: over one work connection, whatever visitors
    came before, the server names a visitor so that the client reads that very
    name and payload, and the client's answer under the name, whatever others
    send in the minute in between, is sent to the visitor's address (an IPv4
    address mapped into IPv6 answered as IPv4). *)
Theorem reply_reaches_visitor earlier visitor payload reply now later rest rest' ws e :
  Forall (fun v => now <= v.2 <= now + udpSessionTimeout) later ->
  Z.of_nat (length payload) <= MaxUDPPayload -> Z.of_nat (length reply) <= MaxUDPPayload ->
  Z.of_nat (length (ap_String (unmapped visitor))) <= maxUDPAddr ->
  let '(name, s) := remember visitor now (remember_all earlier newUDPSessions) in
  (exists frame, writeInbound name payload (Writer ws None) = (Ok tt, Writer (ws ++ [frame]) None)
     /\ read_datagram (Stream (frame ++ rest) e) = (Ok (name, payload), Stream rest e))
  /\ exists frame, WriteUDPPacket (MkUDPPacket name reply) (Writer ws None) = (Ok tt, Writer (ws ++ [frame]) None)
     /\ outbound [(remember_all later s, true)] (Stream (frame ++ rest') e)
        = ([(unmapped visitor, reply)], Stream rest' e).
Proof.
  intros Hlater Hp Hr Hn. destruct (remember visitor now _) as [name s] eqn:E.
  pose proof (remember_all_agree earlier _ new_agree) as Hs0.
  destruct (remember_spec _ _ _ _ _ Hs0 E) as (-> & Hs & Hnew & _). clear E.
  assert (forall b, Z.of_nat (length b) <= MaxUDPPayload ->
    exists frame, AppendUDPPacket [] (ap_String (unmapped visitor)) b = Ok frame) as Happ.
  { intros b Hb. unfold AppendUDPPacket. rewrite !(proj2 (Z.ltb_ge _ _)) by done. by eexists. }
  split.
  - destruct (Happ payload Hp) as (frame & Hf). exists frame. unfold writeInbound. rewrite Hf. split; [done|].
    by apply read_datagram_append.
  - destruct (Happ reply Hr) as (frame & Hf). exists frame. unfold WriteUDPPacket. cbn [Udp.Addr Payload]. rewrite Hf.
    split; [done|]. cbn [outbound]. rewrite (read_datagram_append _ _ frame rest' e Hf).
    destruct (remember_all_keeps later s (unmapped visitor) now Hs) as (p & Hp' & _);
      [eexists; split; [exact Hnew|done]|done|].
    pose proof (remember_all_agree later s Hs) as [H1 _]. destruct (H1 _ _ Hp') as [Hstr Hk].
    unfold lookup_peer. rewrite <- Hstr, Hk. done.
Qed.
End visitors.

(** ** Local sockets (client) *)

Definition localUDPTimeout : Z := 60 * Second.

Record udpSockets := MkSockets {
  conns : gmap bytes N;
  pumps : list (bytes * N);            (* the goroutines still reading *)
  dialled : list N;
  sock_closed : gset N
}.

Definition no_sockets : udpSockets := MkSockets ∅ [] [] ∅.

(** [get]: [dial] is the socket the kernel gives, if any. *)
Definition get_socket (source : bytes) (dial : option N) (s : udpSockets) : option N * udpSockets :=
  match conns s !! source with
  | Some conn => (Some conn, s)
  | None =>
      match dial with
      | None => (None, s)
      | Some conn => (Some conn, MkSockets (<[source := conn]> (conns s)) (pumps s ++ [(source, conn)])
                                   (dialled s ++ [conn]) (sock_closed s))
      end
  end.

Definition drop_socket (source : bytes) (s : udpSockets) : udpSockets :=
  match conns s !! source with
  | Some conn => MkSockets (delete source (conns s)) (pumps s) (dialled s) ({[conn]} ∪ sock_closed s)
  | None => s
  end.

Definition closeAll (s : udpSockets) : udpSockets :=
  MkSockets ∅ (pumps s) (dialled s) (list_to_set (map_to_list (conns s)).*2 ∪ sock_closed s).

(** The body of the loop of [forwardUDP] on one datagram: [sent] is whether the
    local service took it. *)
Definition on_datagram (name source payload : bytes) (dial : option N) (sent : bool) (now : Z)
  (s : udpSockets) (r : gmap bytes Counters) : udpSockets * gmap bytes Counters :=
  match get_socket source dial s with
  | (None, s) => (s, r)
  | (Some _, s) =>
      if sent then (s, RecordTransfer name (Z.of_nat (length payload)) 0 false now r)
      else (drop_socket source s, r)
  end.

(** What the kernel answers while one datagram is handled. *)
Record datagram_env := MkDatagramEnv { de_dial : option N; de_sent : bool; de_now : Z }.

(** The loop of [forwardUDP]: whether it has returned, and then with every
    socket closed. *)
Definition forward_one (name : bytes) (acc : bool * stream * udpSockets * gmap bytes Counters) (v : datagram_env)
  : bool * stream * udpSockets * gmap bytes Counters :=
  let '(over, r, s, st) := acc in
  if over then acc
  else match read_datagram r return bool * stream * udpSockets * gmap bytes Counters with
       | (Err _, r) => (true, r, closeAll s, st)
       | (Ok (addr, payload), r) =>
           let '(s, st) := on_datagram name addr payload (de_dial v) (de_sent v) (de_now v) s st in (false, r, s, st)
       end.

Definition forwardUDP (name : bytes) (envs : list datagram_env) (r : stream) (st : gmap bytes Counters)
  : bool * stream * udpSockets * gmap bytes Counters :=
  foldl (forward_one name) (false, r, no_sockets, st) envs.

(** One round of [pump]: a reply of the local service, written to the work
    connection, or the end of the goroutine. *)
Definition pump (name source : bytes) (reply : option bytes) (now : Z) (w : writer) (s : udpSockets)
  (st : gmap bytes Counters) : bool * writer * udpSockets * gmap bytes Counters :=
  match reply with
  | None => (false, w, drop_socket source s, st)
  | Some payload =>
      match WriteUDPPacket (MkUDPPacket source payload) w with
      | (Err _, w) => (false, w, drop_socket source s, st)
      | (Ok _, w) => (true, w, s, RecordTransfer name 0 (Z.of_nat (length payload)) false now st)
      end
  end.

(** Everything that happens to the sockets. *)
Inductive socket_event : Type :=
  | Datagram (source : bytes) (dial : option N) (sent : bool)
  | PumpEnds (i : nat).                (* the [i]th goroutine still reading *)

Definition socket_step (e : socket_event) (s : udpSockets) : udpSockets :=
  match e with
  | Datagram source dial sent => (on_datagram [] source [] dial sent 0 s ∅).1
  | PumpEnds i =>
      match pumps s !! i with
      | None => s
      | Some (source, _) =>
          drop_socket source (MkSockets (conns s) (take i (pumps s) ++ drop (S i) (pumps s)) (dialled s) (sock_closed s))
      end
  end.

(** The kernel never gives the same socket twice. *)
Fixpoint fresh_dials (es : list socket_event) (s : udpSockets) : Prop :=
  match es with
  | [] => True
  | e :: es =>
      match e with Datagram _ (Some conn) _ => conn ∉ dialled s | _ => True end
      /\ fresh_dials es (socket_step e s)
  end.

Definition run_sockets (es : list socket_event) (s : udpSockets) : udpSockets :=
  foldl (fun s e => socket_step e s) s es.

Definition sockets_ok (s : udpSockets) : Prop :=
  (forall c, c ∈ dialled s -> c ∈ sock_closed s \/ exists source, conns s !! source = Some c)
  /\ (forall source c, conns s !! source = Some c -> c ∈ dialled s /\ c ∉ sock_closed s)
  /\ (forall a b c, conns s !! a = Some c -> conns s !! b = Some c -> a = b)
  /\ (forall c, c ∈ sock_closed s -> c ∈ dialled s).

Lemma get_socket_ok source dial s :
  sockets_ok s -> match dial with Some conn => conn ∉ dialled s | None => True end ->
  sockets_ok (get_socket source dial s).2.
Proof.
  intros (H1 & H2 & H3 & H4) Hd. unfold get_socket. destruct (conns s !! source) as [c|] eqn:E; [done|].
  destruct dial as [conn|]; [|done]. assert (conn ∉ sock_closed s) as Hc by (intros ?%H4; done). cbn [snd]. split_and!; cbn [conns dialled sock_closed].
  - intros c [Hc'|Hc'%list_elem_of_singleton]%elem_of_app; [|subst c].
    + destruct (H1 c Hc') as [|[x Hx]]; [by left|]. right. exists x. rewrite lookup_insert_ne by congruence. done.
    + right. exists source. apply lookup_insert_eq.
  - intros x c. rewrite lookup_insert. case_decide; [intros [= <-]; set_solver|]. intros Hx. apply H2 in Hx. set_solver.
  - intros a b c. rewrite !lookup_insert. repeat case_decide; simplify_eq; [done| | |apply H3].
    + intros [= <-] Hb. apply H2 in Hb as [? _]. done.
    + intros Ha [= <-]. apply H2 in Ha as [? _]. done.
  - set_solver.
Qed.

Lemma drop_socket_ok source s : sockets_ok s -> sockets_ok (drop_socket source s).
Proof.
  intros (H1 & H2 & H3 & H4). unfold drop_socket. destruct (conns s !! source) as [c0|] eqn:E; [|done].
  split_and!; cbn [conns dialled sock_closed].
  - intros c Hc. destruct (H1 c Hc) as [|[x Hx]]; [set_solver|]. destruct (decide (x = source)) as [->|Hne].
    + left. assert (c = c0) as -> by congruence. set_solver.
    + right. exists x. by rewrite lookup_delete_ne.
  - intros x c [Hne Hx]%lookup_delete_Some. apply H2 in Hx as Hx'. split; [tauto|]. intros [Hc0%elem_of_singleton|]%elem_of_union; [subst c|tauto].
    by destruct (Hne (H3 _ _ _ E Hx)).
  - intros a b c [_ Ha]%lookup_delete_Some [_ Hb]%lookup_delete_Some. by apply (H3 a b c).
  - apply H2 in E as [? _]. set_solver.
Qed.

Lemma socket_step_ok e s :
  sockets_ok s -> match e with Datagram _ (Some conn) _ => conn ∉ dialled s | _ => True end ->
  sockets_ok (socket_step e s).
Proof.
  intros Hs He. destruct e as [source dial sent|i]; cbn [socket_step].
  - unfold on_datagram. pose proof (get_socket_ok source dial s Hs ltac:(by destruct dial)) as Hg.
    destruct (get_socket source dial s) as [[conn|] s']; [|done]. destruct sent; [done|]. by apply drop_socket_ok.
  - destruct (pumps s !! i) as [[source conn]|]; [|done]. apply drop_socket_ok. exact Hs.
Qed.

Lemma run_sockets_ok es s : sockets_ok s -> fresh_dials es s -> sockets_ok (run_sockets es s).
Proof.
  revert s. induction es as [|e es IH]; intros s Hs Hf; [done|]. destruct Hf as [He Hf].
  cbn [run_sockets foldl]. apply IH; [by apply socket_step_ok|done].
Qed.

(** C30: no local socket leaks: after any datagrams and any ends of pumps, in any
    order, every socket the client has dialled is either closed or the one
    socket of one visitor in the table, never both and never of two; and once
    the work connection has ended every one is closed. *)
Theorem no_socket_leaks es :
  fresh_dials es no_sockets ->
  let s := run_sockets es no_sockets in
  (forall c, c ∈ dialled s ->
     (c ∈ sock_closed s /\ forall source, conns s !! source <> Some c)
     \/ (c ∉ sock_closed s /\ exists source, conns s !! source = Some c /\ forall other, conns s !! other = Some c -> other = source))
  /\ (forall c, c ∈ dialled s -> c ∈ sock_closed (closeAll s)) /\ conns (closeAll s) = ∅.
Proof.
  intros Hf. cbv zeta. assert (sockets_ok (run_sockets es no_sockets)) as Hs.
  { apply run_sockets_ok; [|done]. split_and!; cbn [no_sockets dialled conns sock_closed].
    - intros c Hc. by apply elem_of_nil in Hc.
    - intros x c Hx. by rewrite lookup_empty in Hx.
    - intros a b c Hx. by rewrite lookup_empty in Hx.
    - set_solver. }
  set (s := run_sockets es no_sockets) in *. destruct Hs as (H1 & H2 & H3 & H4). split_and!; [| |done].
  - intros c Hc. destruct (H1 c Hc) as [Hcl|[x Hx]].
    + left. split; [done|]. intros source Hs. apply H2 in Hs as [_ ?]. done.
    + right. apply H2 in Hx as Hx'. split; [tauto|]. exists x. split; [done|]. intros other Ho. by apply (H3 other x c).
  - intros c Hc. cbn [closeAll sock_closed]. destruct (H1 c Hc) as [?|[x Hx]]; [set_solver|].
    apply elem_of_union_l, elem_of_list_to_set, list_elem_of_fmap. exists (x, c). split; [done|].
    by apply elem_of_map_to_list.
Qed.

(** A pump that ends late takes the wrong socket with it: when the local service
    refuses a datagram the visitor's socket is dropped; the visitor's next
    datagram opens a new one; and the goroutine of the old socket, whose read
    fails only now, drops the visitor again by name and closes the new socket,
    so the reply to that datagram is lost. *)
Theorem late_pump_closes_new_socket :
  let s := run_sockets [Datagram (go "v") (Some 1%N) false; Datagram (go "v") (Some 2%N) true] no_sockets in
  conns s !! go "v" = Some 2%N /\ pumps s = [(go "v", 1%N); (go "v", 2%N)]
  /\ conns (socket_step (PumpEnds 0) s) !! go "v" = None /\ 2%N ∈ sock_closed (socket_step (PumpEnds 0) s).
Proof. vm_compute. split_and!; [done|done|done|]. apply (bool_decide_unpack _). by vm_compute. Qed.

(** ** Examples *)

Fixpoint bits_of (p : positive) : bytes :=
  match p with xH => [] | xO p => x00 :: bits_of p | xI p => x01 :: bits_of p end.

Lemma bits_of_inj p q : bits_of p = bits_of q -> p = q.
Proof. revert q. induction p; intros [] H; simplify_eq/=; try done; f_equal; auto. Qed.

(** Any injective text. *)
#[local] Instance toy_netip : NetipText.
Proof.
  refine {| ap_String a := bits_of (countable.encode a) |}. intros a b H%bits_of_inj. by apply (inj countable.encode).
Defined.

Definition example_visitor : AddrPort := MkAddrPort [xc0; x00; x02; x01] [] 5353.
Definition example_other : AddrPort := MkAddrPort [xc0; x00; x02; x02] [] 53.

Lemma reply_reaches_visitor_witness :
  let '(name, s) := remember example_visitor 5 (remember_all [(example_other, 1)] newUDPSessions) in
  exists frame, WriteUDPPacket (MkUDPPacket name (go "pong")) (Writer [] None) = (Ok tt, Writer [frame] None)
     /\ outbound [(remember_all [(example_other, 9)] s, true)] (Stream (frame ++ []) EOF)
        = ([(example_visitor, go "pong")], Stream [] EOF).
Proof.
  pose proof (reply_reaches_visitor [(example_other, 1)] example_visitor (go "ping") (go "pong") 5 [(example_other, 9)]
    [] [] [] EOF) as H.
  destruct (remember example_visitor 5 _) as [name s]. apply H.
  - constructor; [vm_compute; split; congruence|constructor].
  - vm_compute. congruence.
  - vm_compute. congruence.
  - vm_compute. congruence.
Defined.

Lemma no_socket_leaks_witness :
  let es := [Datagram (go "v") (Some 1%N) false; Datagram (go "v") (Some 2%N) true; PumpEnds 0] in
  fresh_dials es no_sockets /\ forall c, c ∈ dialled (run_sockets es no_sockets) -> c ∈ sock_closed (closeAll (run_sockets es no_sockets)).
Proof.
  set (es := [_; _; _]). assert (fresh_dials es no_sockets) as H.
  { cbn. split_and!; [apply not_elem_of_nil|set_solver|done|done]. }
  cbv zeta. split; [exact H|]. exact (proj1 (proj2 (no_socket_leaks es H))).
Defined.
