(* ===== verification/Schema.v ===== *)
(** Forms: [pkg/schema] (condition.go, schema.go).

    A form is a list of fields; what the user typed is a map from field names
    to values, and reading a missing key gives the empty string.  A field is
    visible when its condition, an OR of ANDs of comparisons, holds of the
    values.  Regular expressions are the standard library's: class [Regexp]. *)
From S2P Require Import Prelude GoStrings.

(** [values[name]]. *)
Definition value_of (values : gmap bytes bytes) (name : bytes) : bytes := default [] (values !! name).

Inductive formerr : Type :=
  | ErrNoFieldName (atom : bytes)
  | ErrNoOperator (atom : bytes)
  | ErrField (name : bytes) (e : formerr)
  | ErrRequired (label : bytes)
  | ErrPattern (name : bytes)
  | ErrFormat (label : bytes)
  | ErrChoice (label value : bytes).

(** ** Conditions (condition.go) *)

Definition is_quote (c : byte) : bool := bool_decide (c = x27) || bool_decide (c = x22).

(** The loop of [splitTop]: [skip] bytes of a separator are left to pass over,
    [cur] is the part since [start]. *)
Fixpoint split_loop (sep : bytes) (quote : option byte) (skip : nat) (cur input : bytes) : list bytes :=
  match input with
  | [] => [cur]
  | c :: rest =>
      match skip with
      | S skip => split_loop sep quote skip cur rest
      | O =>
          match quote with
          | Some q => split_loop sep (if bool_decide (c = q) then None else quote) 0 (cur ++ [c]) rest
          | None =>
              if is_quote c then split_loop sep (Some c) 0 (cur ++ [c]) rest
              else if HasPrefix input sep then cur :: split_loop sep None (length sep - 1) [] rest
              else split_loop sep None 0 (cur ++ [c]) rest
          end
      end
  end.

Definition splitTop (input sep : bytes) : list bytes := split_loop sep None 0 [] input.

Definition unquote (value : bytes) : bytes :=
  if (2 <=? length value)%nat then
    match head value, last value with
    | Some first, Some last =>
        if (bool_decide (first = x27) && bool_decide (last = x27))
           || (bool_decide (first = x22) && bool_decide (last = x22))
        then take (length value - 2) (drop 1 value) else value
    | _, _ => value
    end
  else value.

Definition compare_atom (atom op : bytes) (values : gmap bytes bytes) (field literal : bytes) : res formerr bool :=
  let name := TrimSpace field in
  if bool_decide (name = []) then Err (ErrNoFieldName atom)
  else
    let want := unquote (TrimSpace literal) in
    let got := value_of values name in
    if bool_decide (op = go "==") then Ok (bool_decide (got = want)) else Ok (negb (bool_decide (got = want))).

Definition evalAtom (atom : bytes) (values : gmap bytes bytes) : res formerr bool :=
  let atom := TrimSpace atom in
  match Cut atom (go "!=") with
  | (field, literal, true) => compare_atom atom (go "!=") values field literal
  | (_, _, false) =>
      match Cut atom (go "==") with
      | (field, literal, true) => compare_atom atom (go "==") values field literal
      | (_, _, false) => Err (ErrNoOperator atom)
      end
  end.

(** The loops over the terms and the atoms, with their early exits. *)
Fixpoint all_atoms (atoms : list bytes) (values : gmap bytes bytes) : res formerr bool :=
  match atoms with
  | [] => Ok true
  | atom :: atoms => ok ← evalAtom atom values; if ok : bool then all_atoms atoms values else Ok false
  end.

Definition evalTerm (term : bytes) (values : gmap bytes bytes) : res formerr bool :=
  all_atoms (splitTop term (go "&&")) values.

Fixpoint any_term (terms : list bytes) (values : gmap bytes bytes) : res formerr bool :=
  match terms with
  | [] => Ok false
  | term :: terms => ok ← evalTerm term values; if ok : bool then Ok true else any_term terms values
  end.

Definition Visible (condition : bytes) (values : gmap bytes bytes) : res formerr bool :=
  let condition := TrimSpace condition in
  if bool_decide (condition = []) then Ok true
  else any_term (splitTop condition (go "||")) values.

(** ** Forms (schema.go) *)

Definition KindSelect : bytes := go "select".

Record FormOption := MkOption { o_Value : bytes; o_Label : bytes; o_Description : bytes }.

Record Field := MkField {
  f_Name : bytes;
  f_Label : bytes;
  f_Kind : bytes;
  f_Required : bool;
  f_Default : bytes;
  f_Options : list FormOption;
  f_ShowIf : bytes;
  f_Secret : bool;
  f_Pattern : bytes
}.

(** [regexp.Compile] and [MatchString]: the language of a pattern that compiles. *)
Class Regexp := { Compile : bytes -> option (bytes -> bool) }.

Definition Form : Type := list Field.

Definition check_choice (field : Field) (value : bytes) : res formerr unit :=
  if bool_decide (f_Kind field = KindSelect) && negb (bool_decide (f_Options field = [])) then
    if existsb (fun o => bool_decide (o_Value o = value)) (f_Options field) then Ok tt
    else Err (ErrChoice (f_Label field) value)
  else Ok tt.

Definition validate_field `{Regexp} (values : gmap bytes bytes) (field : Field) : res formerr unit :=
  match Visible (f_ShowIf field) values with
  | Err e => Err (ErrField (f_Name field) e)
  | Ok false => Ok tt
  | Ok true =>
      let value := TrimSpace (value_of values (f_Name field)) in
      if bool_decide (value = []) then
        if f_Required field then Err (ErrRequired (f_Label field)) else Ok tt
      else if bool_decide (f_Pattern field = []) then check_choice field value
      else match Compile (f_Pattern field) with
           | None => Err (ErrPattern (f_Name field))
           | Some matches =>
               if negb (matches value) then Err (ErrFormat (f_Label field)) else check_choice field value
           end
  end.

Definition Validate `{Regexp} (f : Form) (values : gmap bytes bytes) : res formerr unit :=
  first_err (validate_field values) f.

Definition default_field (values : gmap bytes bytes) (field : Field) : gmap bytes bytes :=
  match values !! f_Name field with
  | Some _ => values
  | None => if bool_decide (f_Default field = []) then values else <[f_Name field := f_Default field]> values
  end.

(** Go fills the map it is given; a nil map is the empty one. *)
Definition ApplyDefaults (f : Form) (values : gmap bytes bytes) : gmap bytes bytes :=
  foldl default_field values f.

(** Eight bullets, in UTF-8. *)
Definition RedactedMarker : bytes := concat (replicate 8 [xe2; x80; xa2]).

Definition redact_field (out : gmap bytes bytes) (field : Field) : gmap bytes bytes :=
  if negb (f_Secret field) then out
  else if bool_decide (value_of out (f_Name field) = []) then out
  else <[f_Name field := RedactedMarker]> out.

Definition Redact (f : Form) (values : gmap bytes bytes) : gmap bytes bytes := foldl redact_field values f.

Definition SecretNames (f : Form) : list bytes :=
  SortStrings (f_Name <$> filter (fun field => f_Secret field = true) f).

(** ** What a condition means *)

(** A comparison as it may be written: spaces before and after it and around
    its operator, and a literal between quotes or bare. *)
Inductive literal : Type :=
  | Quoted (q : byte) (s : bytes)
  | Bare (s : bytes).

Record comparison := MkComparison {
  c_before : nat; c_name : bytes; c_left : nat; c_equal : bool; c_right : nat; c_literal : literal; c_after : nat
}.

(** An OR of ANDs. *)
Definition condition : Type := list (list comparison).

Definition spaces (n : nat) : bytes := replicate n x20.
Definition literal_text (l : literal) : bytes := match l with Quoted q s => q :: s ++ [q] | Bare s => s end.
Definition literal_value (l : literal) : bytes := match l with Quoted _ s => s | Bare s => s end.

Definition core_text (c : comparison) : bytes :=
  (c_name c ++ spaces (c_left c)) ++ (if c_equal c then go "==" else go "!=")
  ++ spaces (c_right c) ++ literal_text (c_literal c).
Definition comparison_text (c : comparison) : bytes := spaces (c_before c) ++ core_text c ++ spaces (c_after c).
Definition term_text (t : list comparison) : bytes := Join (comparison_text <$> t) (go "&&").
Definition condition_text (d : condition) : bytes := Join (term_text <$> d) (go "||").

Definition comparison_holds (values : gmap bytes bytes) (c : comparison) : bool :=
  Bool.eqb (c_equal c) (bool_decide (value_of values (c_name c) = literal_value (c_literal c))).
Definition condition_holds (values : gmap bytes bytes) (d : condition) : bool :=
  existsb (forallb (comparison_holds values)) d.

(** Names and bare literals are words without quotes and operators.  A quoted
    literal holds anything but its quote, and in an equality not [!=], which
    [evalAtom] looks for first ([literal_operator_misread]). *)
Definition word_byte (c : byte) : Prop := no_space c /\ is_quote c = false /\ c ∉ [x3d; x21; x26; x7c].
Definition word (s : bytes) : Prop := s <> [] /\ Forall word_byte s.
Definition literal_ok (equal : bool) (l : literal) : Prop :=
  match l with
  | Quoted q s => is_quote q = true /\ q ∉ s /\ (equal = true -> Index s (go "!=") = None)
  | Bare s => word s
  end.
Definition comparison_ok (c : comparison) : Prop := word (c_name c) /\ literal_ok (c_equal c) (c_literal c).
Definition condition_ok (d : condition) : Prop := Forall (fun t => t <> [] /\ Forall comparison_ok t) d.

(** ** Lemmas: trimming and searching *)

Lemma leading_space_space s : leading_space (x20 :: s) = Some [x20].
Proof. unfold leading_space, space_runes. cbn [find]. by rewrite (HasPrefix_app [x20] s : HasPrefix (x20 :: s) [x20] = true). Qed.

Lemma trailing_space_space s : trailing_space (s ++ [x20]) = Some [x20].
Proof. unfold trailing_space, space_runes. cbn [find]. by rewrite HasSuffix_app. Qed.

Lemma trim_left_spaces n fuel s :
  (n <= fuel)%nat -> leading_space s = None -> trim_left fuel (spaces n ++ s) = s.
Proof.
  intros Hn Hs. revert fuel Hn; induction n as [|n IH]; intros fuel Hn; simpl.
  - destruct fuel; simpl; [done|by rewrite Hs].
  - destruct fuel as [|fuel]; [lia|]. cbn [trim_left]. rewrite leading_space_space. apply IH. lia.
Qed.

Lemma spaces_snoc n : spaces (S n) = spaces n ++ [x20].
Proof. unfold spaces. by rewrite replicate_S_end. Qed.

Lemma trim_right_spaces n fuel s :
  (n <= fuel)%nat -> trailing_space s = None -> trim_right fuel (s ++ spaces n) = s.
Proof.
  intros Hn Hs. revert fuel Hn; induction n as [|n IH]; intros fuel Hn.
  - rewrite app_nil_r. destruct fuel; simpl; [done|by rewrite Hs].
  - destruct fuel as [|fuel]; [lia|]. rewrite spaces_snoc, app_assoc. cbn [trim_right].
    rewrite trailing_space_space. rewrite take_app_le by (rewrite !length_app; simpl; lia).
    rewrite take_ge by (rewrite !length_app; simpl; lia). apply IH. lia.
Qed.

(** What starts and ends with no space, between spaces. *)
Lemma TrimSpace_spaces n m s :
  leading_space (s ++ spaces m) = None -> trailing_space s = None ->
  TrimSpace (spaces n ++ s ++ spaces m) = s.
Proof.
  intros Hl Ht. unfold TrimSpace. rewrite trim_left_spaces.
  - apply trim_right_spaces; [|done]. rewrite length_app. unfold spaces. rewrite length_replicate. lia.
  - rewrite !length_app. unfold spaces. rewrite length_replicate. lia.
  - done.
Qed.

(** A prefix without the separator's first byte does not match. *)
Lemma Index_skip a b c0 sep : c0 ∉ a -> Index (a ++ b) (c0 :: sep) = Nat.add (length a) <$> Index b (c0 :: sep).
Proof.
  intros Ha. induction a as [|c a IH].
  - simpl. by destruct (Index b _).
  - change ((c :: a) ++ b) with (c :: (a ++ b)). cbn [Index].
    rewrite HasPrefix_cons_ne by set_solver. rewrite IH by set_solver. simpl.
    by destruct (Index b (c0 :: sep)).
Qed.

Lemma Cut_skip a c0 sep r : c0 ∉ a -> Cut (a ++ (c0 :: sep) ++ r) (c0 :: sep) = (a, r, true).
Proof.
  intros Ha. unfold Cut. rewrite Index_skip, Index_here by done. simpl fmap. simpl.
  rewrite Nat.add_0_r, take_app_length. f_equal. f_equal.
  rewrite drop_app_add'; [|done]. simpl. by rewrite drop_app_length.
Qed.

Lemma Index_quoted s q :
  is_quote q = true -> Index s (go "!=") = None -> Index (s ++ [q]) (go "!=") = None.
Proof.
  intros Hq. induction s as [|c s IH]; intros Hs.
  - unfold is_quote in Hq. bool_facts. by destruct Hq as [Hq|Hq]; bool_facts; subst q.
  - change ((c :: s) ++ [q]) with (c :: (s ++ [q])). cbn [Index] in *.
    destruct (HasPrefix (c :: s) (go "!=")) eqn:E; [done|]. apply fmap_None in Hs.
    rewrite IH by done.
    assert (HasPrefix (c :: s ++ [q]) (go "!=") = false) as ->; [|done].
    destruct s as [|d s].
    + unfold is_quote in Hq. bool_facts. destruct Hq as [Hq|Hq]; bool_facts; subst q;
        apply not_true_is_false; intros [k Hk]%HasPrefix_true; discriminate.
    + etrans; [apply (HasPrefix_app_l (c :: d :: s) [q]); simpl; lia|done].
Qed.

(** ** Lemmas: splitting *)

(** The quote a text leaves open, [None] if it has [c0] outside of quotes. *)
Fixpoint scan (c0 : byte) (quote : option byte) (s : bytes) : option (option byte) :=
  match s with
  | [] => Some quote
  | c :: s =>
      match quote with
      | Some q => scan c0 (if bool_decide (c = q) then None else quote) s
      | None => if is_quote c then scan c0 (Some c) s
                else if bool_decide (c = c0) then None else scan c0 None s
      end
  end.

(** A part of a split: no separator, and the quotes closed. *)
Definition calm (c0 : byte) (s : bytes) : Prop := scan c0 None s = Some None.

Lemma scan_app c0 q a b :
  scan c0 q (a ++ b) = match scan c0 q a with Some q => scan c0 q b | None => None end.
Proof.
  revert q; induction a as [|c a IH]; intros q; simpl; [done|].
  destruct q as [q|]; [apply IH|]. destruct (is_quote c); [apply IH|].
  case_bool_decide; [done|apply IH].
Qed.

Lemma calm_app c0 a b : calm c0 a -> calm c0 b -> calm c0 (a ++ b).
Proof. unfold calm. intros Ha Hb. by rewrite scan_app, Ha. Qed.

Lemma calm_free c0 s : Forall (fun c => is_quote c = false /\ c <> c0) s -> calm c0 s.
Proof.
  unfold calm. induction 1 as [|c s [Hq Hc] _ IH]; simpl; [done|].
  by rewrite Hq, bool_decide_eq_false_2.
Qed.

Lemma calm_quoted c0 q s : is_quote q = true -> q ∉ s -> calm c0 (q :: s ++ [q]).
Proof.
  intros Hq Hs. unfold calm. simpl. rewrite Hq.
  induction s as [|c s IH]; simpl; [by rewrite bool_decide_eq_true_2|].
  rewrite bool_decide_eq_false_2 by set_solver. apply IH. set_solver.
Qed.

Lemma split_loop_scan c0 sep q q' cur s rest :
  scan c0 q s = Some q' ->
  split_loop (c0 :: sep) q 0 cur (s ++ rest) = split_loop (c0 :: sep) q' 0 (cur ++ s) rest.
Proof.
  revert q cur; induction s as [|c s IH]; intros q cur Hs; simpl in Hs.
  - injection Hs as ->. by rewrite app_nil_r.
  - change ((c :: s) ++ rest) with (c :: (s ++ rest)). cbn [split_loop].
    rewrite (cons_middle c cur s), app_assoc. destruct q as [q|]; [by apply IH|].
    destruct (is_quote c); [by apply IH|]. case_bool_decide; [done|].
    rewrite HasPrefix_cons_ne by done. by apply IH.
Qed.

Lemma split_loop_skip sep n l cur rest :
  length l = n -> split_loop sep None n cur (l ++ rest) = split_loop sep None 0 cur rest.
Proof.
  revert n; induction l as [|c l IH]; intros n <-; [done|]. simpl. by apply IH.
Qed.

Lemma splitTop_Join c0 sep parts :
  is_quote c0 = false -> parts <> [] -> Forall (calm c0) parts ->
  splitTop (Join parts (c0 :: sep)) (c0 :: sep) = parts.
Proof.
  intros Hq Hne Hall. unfold splitTop. induction Hall as [|p ps Hp Hall IH]; [done|].
  destruct ps as [|p' ps].
  - cbn [Join]. rewrite <- (app_nil_r p) at 1. by rewrite (split_loop_scan c0 sep None None).
  - change (Join (p :: p' :: ps) (c0 :: sep)) with (p ++ (c0 :: sep) ++ Join (p' :: ps) (c0 :: sep)).
    rewrite (split_loop_scan c0 sep None None) by done.
    change ((c0 :: sep) ++ ?x) with (c0 :: (sep ++ x)). cbn [split_loop]. rewrite Hq.
    change (c0 :: sep ++ ?x) with ((c0 :: sep) ++ x). rewrite HasPrefix_app. cbn [app].
    f_equal. rewrite split_loop_skip by (simpl; lia). by apply IH.
Qed.

(** ** Conditions are read as they are meant *)

Lemma quote_no_space q : is_quote q = true -> no_space q.
Proof.
  unfold is_quote. intros Hq. bool_facts.
  destruct Hq as [Hq|Hq]; bool_facts; subst q; apply (bool_decide_unpack _); by vm_compute.
Qed.

Lemma word_first s r : word s -> leading_space (s ++ r) = None.
Proof. intros [Hne Hs]. destruct Hs as [|c s [Hc _] _]; [done|]. by apply leading_space_cons. Qed.

Lemma word_last l s : word s -> trailing_space (l ++ s) = None.
Proof.
  intros [Hne Hs]. destruct s as [|c s _] using rev_ind; [done|].
  apply Forall_app in Hs as [_ [[Hc _] _]%Forall_cons]. rewrite app_assoc. by apply trailing_space_app.
Qed.

Lemma word_free s c0 : Forall word_byte s -> c0 ∈ [x3d; x21; x26; x7c] -> c0 ∉ s.
Proof. intros Hs Hc Hin. rewrite Forall_forall in Hs. by destruct (Hs _ Hin) as (_ & _ & []). Qed.

Lemma spaces_free n c0 : c0 <> x20 -> c0 ∉ spaces n.
Proof. intros Hc Hin. by apply elem_of_replicate in Hin as [-> _]. Qed.

Lemma literal_last equal l p : literal_ok equal l -> trailing_space (p ++ literal_text l) = None.
Proof.
  destruct l as [q s|s]; simpl; [|by apply word_last].
  intros (Hq & _ & _). change (q :: s ++ [q]) with ((q :: s) ++ [q]). rewrite app_assoc.
  apply trailing_space_app; [by apply quote_no_space|done].
Qed.

Lemma literal_first equal l r : literal_ok equal l -> leading_space (literal_text l ++ r) = None.
Proof.
  destruct l as [q s|s]; simpl; [|by apply word_first].
  intros (Hq & _ & _). by apply leading_space_cons, quote_no_space.
Qed.

Lemma unquote_literal equal l : literal_ok equal l -> unquote (literal_text l) = literal_value l.
Proof.
  unfold unquote. destruct l as [q s|s]; simpl.
  - intros (Hq & _ & _). rewrite length_app, Nat.add_1_r. simpl.
    change (q :: s ++ [q]) with ((q :: s) ++ [q]). rewrite last_snoc, Nat.sub_0_r, drop_0.
    unfold is_quote in Hq. rewrite !andb_diag, Hq. apply take_app_length.
  - intros [Hne Hs]. case_match; [|done]. destruct Hs as [|c s (_ & Hq & _) _]; [done|]. simpl.
    unfold is_quote in Hq. apply orb_false_iff in Hq as [-> ->]. by destruct (last (c :: s)).
Qed.

Lemma literal_no_ne l : literal_ok true l -> Index (literal_text l) (go "!=") = None.
Proof.
  destruct l as [q s|s]; simpl.
  - intros (Hq & _ & Hs). etrans; [apply (Index_skip [q] (s ++ [q]) x21 [x3d])|].
    + unfold is_quote in Hq. bool_facts. destruct Hq as [Hq|Hq]; bool_facts; subst q; set_solver.
    + by rewrite (Index_quoted s q Hq (Hs eq_refl) : Index _ [x21; x3d] = None).
  - intros [_ Hs]. pose proof (Index_skip s [] x21 [x3d]) as E. rewrite app_nil_r in E.
    apply E, word_free; [done|set_solver].
Qed.

Section comparisons.
Variables (values : gmap bytes bytes) (c : comparison).
Hypothesis Hc : comparison_ok c.

Lemma TrimSpace_comparison : TrimSpace (comparison_text c) = core_text c.
Proof.
  destruct Hc as [Hn Hl]. unfold comparison_text. apply TrimSpace_spaces.
  - unfold core_text. rewrite <- !app_assoc. by apply word_first.
  - unfold core_text. rewrite !app_assoc. by eapply literal_last.
Qed.

Lemma TrimSpace_name : TrimSpace (c_name c ++ spaces (c_left c)) = c_name c.
Proof.
  destruct Hc as [Hn _]. apply (TrimSpace_spaces 0); [by apply word_first|].
  by apply (word_last []).
Qed.

Lemma TrimSpace_literal : TrimSpace (spaces (c_right c) ++ literal_text (c_literal c)) = literal_text (c_literal c).
Proof.
  destruct Hc as [_ Hl]. rewrite <- (app_nil_r (literal_text (c_literal c))) at 1.
  apply (TrimSpace_spaces (c_right c) 0); [by eapply literal_first|by eapply (literal_last _ _ [])].
Qed.

Lemma name_side_free c0 : c0 ∈ [x3d; x21; x26; x7c] -> c0 ∉ c_name c ++ spaces (c_left c).
Proof.
  intros H0. destruct Hc as [[_ Hn] _]. rewrite elem_of_app. intros [Hin|Hin].
  - by eapply word_free.
  - apply elem_of_replicate in Hin as [-> _]. set_solver.
Qed.

Lemma compare_atom_text atom op :
  (op = go "==" <-> c_equal c = true) ->
  compare_atom atom op values (c_name c ++ spaces (c_left c)) (spaces (c_right c) ++ literal_text (c_literal c))
  = Ok (comparison_holds values c).
Proof.
  intros Hop. unfold compare_atom, comparison_holds. rewrite TrimSpace_name, TrimSpace_literal.
  destruct Hc as [[Hne _] Hl]. rewrite (unquote_literal _ _ Hl), bool_decide_eq_false_2 by done.
  destruct (c_equal c); case_bool_decide as Ho.
  - by case_bool_decide.
  - destruct Ho. by apply Hop.
  - by apply Hop in Ho.
  - by case_bool_decide.
Qed.

Lemma evalAtom_text : evalAtom (comparison_text c) values = Ok (comparison_holds values c).
Proof.
  unfold evalAtom. rewrite TrimSpace_comparison.
  assert (Hfree : forall c0, c0 ∈ [x3d; x21; x26; x7c] -> c0 ∉ c_name c ++ spaces (c_left c)) by apply name_side_free.
  destruct (c_equal c) eqn:E; unfold core_text; rewrite E.
  - assert (Cut ((c_name c ++ spaces (c_left c)) ++ go "==" ++ spaces (c_right c) ++ literal_text (c_literal c)) (go "!=")
      = ((c_name c ++ spaces (c_left c)) ++ go "==" ++ spaces (c_right c) ++ literal_text (c_literal c), [], false)) as ->.
    { unfold Cut. rewrite (Index_skip _ _ x21 [x3d]) by (apply Hfree; set_solver).
      rewrite (Index_skip (go "==") _ x21 [x3d]) by (apply (bool_decide_unpack _); by vm_compute).
      rewrite (Index_skip (spaces _) _ x21 [x3d]) by (by apply spaces_free).
      destruct Hc as [_ Hl]. rewrite E in Hl. by rewrite (literal_no_ne _ Hl : Index _ (x21 :: [x3d]) = None). }
    rewrite (Cut_skip _ x3d [x3d]) by (apply Hfree; set_solver). by apply compare_atom_text.
  - rewrite (Cut_skip _ x21 [x3d]) by (apply Hfree; set_solver). apply compare_atom_text.
    by rewrite E.
Qed.

Lemma comparison_calm c0 : c0 ∈ [x26; x7c] -> calm c0 (comparison_text c).
Proof.
  intros H0. assert (Hsp : forall n, calm c0 (spaces n)).
  { intros n. apply calm_free, Forall_replicate. split; [done|]. set_solver. }
  assert (Hw : forall s, Forall word_byte s -> calm c0 s).
  { intros s Hs. apply calm_free. eapply Forall_impl; [exact Hs|]. intros d (_ & Hq & Hd).
    split; [done|]. set_solver. }
  destruct Hc as [[_ Hn] Hl]. unfold comparison_text, core_text.
  repeat apply calm_app; auto.
  - apply calm_free. destruct (c_equal c); simpl; repeat constructor; set_solver.
  - destruct (c_literal c) as [q s|s]; simpl in *; [|by apply Hw, Hl].
    by apply calm_quoted; apply Hl.
Qed.
End comparisons.

Lemma all_atoms_text values t :
  Forall comparison_ok t ->
  all_atoms (comparison_text <$> t) values = Ok (forallb (comparison_holds values) t).
Proof.
  induction 1 as [|c t Hc _ IH]; [done|]. rewrite fmap_cons. cbn [all_atoms].
  rewrite evalAtom_text by done. simpl. by destruct (comparison_holds values c).
Qed.

Lemma evalTerm_text values t :
  t <> [] -> Forall comparison_ok t ->
  evalTerm (term_text t) values = Ok (forallb (comparison_holds values) t).
Proof.
  intros Hne Ht. unfold evalTerm, term_text. change (go "&&") with [x26; x26].
  rewrite splitTop_Join; [by apply all_atoms_text|done|intros Hn; by apply fmap_nil_inv in Hn|].
  apply Forall_fmap. eapply Forall_impl; [exact Ht|]. intros c Hc. apply comparison_calm; [done|set_solver].
Qed.

Lemma term_calm t : Forall comparison_ok t -> calm x7c (term_text t).
Proof.
  unfold term_text. induction 1 as [|c t Hc Ht IH]; [done|].
  assert (calm x7c (comparison_text c)) by (apply comparison_calm; [done|set_solver]).
  destruct t as [|c' t]; [done|].
  change (comparison_text <$> c :: c' :: t) with (comparison_text c :: (comparison_text <$> c' :: t)).
  cbn [Join]. apply calm_app; [done|]. apply calm_app; [by vm_compute|exact IH].
Qed.

(** *** Spaces around the whole *)

Lemma Join_front pre a rest sep : Join ((pre ++ a) :: rest) sep = pre ++ Join (a :: rest) sep.
Proof. destruct rest; [done|]. cbn [Join]. by rewrite <- app_assoc. Qed.

Lemma Join_back ps a post sep : Join (ps ++ [a ++ post]) sep = Join (ps ++ [a]) sep ++ post.
Proof.
  induction ps as [|p ps IH]; [done|]. cbn [app].
  destruct ps as [|q ps]; cbn [app Join] in *; [by rewrite <- !app_assoc|]. by rewrite IH, <- !app_assoc.
Qed.

Lemma Join_last ps a sep : exists pre, Join (ps ++ [a]) sep = pre ++ a.
Proof. exists (Join (ps ++ [[]]) sep). exact (Join_back ps [] a sep). Qed.

Lemma Join_first a rest sep : exists post, Join (a :: rest) sep = a ++ post.
Proof. exists (Join ([] :: rest) sep). rewrite <- (Join_front a [] rest). by rewrite app_nil_r. Qed.

Definition with_spaces (before after : nat) (c : comparison) : comparison :=
  MkComparison before (c_name c) (c_left c) (c_equal c) (c_right c) (c_literal c) after.

(** The spaces behind the last comparison, and those before the first. *)
Lemma condition_back d :
  d <> [] -> condition_ok d ->
  exists d' n pre c, condition_text d = condition_text d' ++ spaces n /\ condition_text d' = pre ++ core_text c /\ comparison_ok c
  /\ d' <> [] /\ condition_ok d' /\ forall values, condition_holds values d' = condition_holds values d.
Proof.
  intros Hne Hd. destruct (exists_last Hne) as (ts & t & ->). apply Forall_app in Hd as [Hts [Ht _]%Forall_cons].
  destruct Ht as [Htne Ht]. destruct (exists_last Htne) as (cs & c & ->). apply Forall_app in Ht as [Hcs [Hc _]%Forall_cons].
  set (c' := with_spaces (c_before c) 0 c).
  assert (comparison_text c = comparison_text c' ++ spaces (c_after c)) as Hct.
  { unfold comparison_text at 1. rewrite !app_assoc. f_equal. unfold comparison_text. cbn. by rewrite app_nil_r. }
  exists (ts ++ [cs ++ [c']]), (c_after c).
  assert (condition_text (ts ++ [cs ++ [c]]) = condition_text (ts ++ [cs ++ [c']]) ++ spaces (c_after c)) as Htext.
  { unfold condition_text. rewrite !fmap_app. cbn [fmap list_fmap]. unfold term_text at 2 4. rewrite !fmap_app. cbn [fmap list_fmap].
    by rewrite Hct, !Join_back. }
  assert (exists pre, condition_text (ts ++ [cs ++ [c']]) = pre ++ core_text c') as [pre Hpre].
  { unfold condition_text. rewrite fmap_app. cbn [fmap list_fmap]. unfold term_text at 2. rewrite fmap_app. cbn [fmap list_fmap].
    destruct (Join_last (comparison_text <$> cs) (comparison_text c') (go "&&")) as [p1 ->].
    destruct (Join_last (term_text <$> ts) (p1 ++ comparison_text c') (go "||")) as [p2 ->].
    exists (p2 ++ p1 ++ spaces (c_before c)). unfold comparison_text. cbn. by rewrite app_nil_r, <- !app_assoc. }
  exists pre, c'. split_and!; [exact Htext|exact Hpre|exact Hc|by destruct ts| |].
  - apply Forall_app. split; [done|]. apply Forall_singleton. split; [by destruct cs|]. apply Forall_app. split; [done|].
    by apply Forall_singleton.
  - intros values. unfold condition_holds. rewrite !existsb_app. f_equal. cbn [existsb]. by rewrite !forallb_app.
Qed.

Lemma condition_front d :
  d <> [] -> condition_ok d ->
  exists d' n post c, condition_text d = spaces n ++ condition_text d' /\ condition_text d' = core_text c ++ post /\ comparison_ok c
  /\ d' <> [] /\ condition_ok d' /\ forall values, condition_holds values d' = condition_holds values d.
Proof.
  intros Hne Hd. destruct d as [|[|c cs] ts]; [done|by destruct (proj1 (Forall_inv Hd))|].
  apply Forall_cons in Hd as [[_ [Hc Hcs]%Forall_cons] Hts].
  set (c' := with_spaces 0 (c_after c) c).
  assert (forall v, comparison_holds v c' = comparison_holds v c) as Hv by done.
  exists ((c' :: cs) :: ts), (c_before c).
  assert (condition_text ((c :: cs) :: ts) = spaces (c_before c) ++ condition_text ((c' :: cs) :: ts)) as Htext.
  { unfold condition_text. rewrite !fmap_cons. unfold term_text at 1 3. rewrite !fmap_cons.
    change (comparison_text c) with (spaces (c_before c) ++ comparison_text c'). by rewrite !Join_front. }
  assert (exists post, condition_text ((c' :: cs) :: ts) = core_text c' ++ post) as [post Hpost].
  { unfold condition_text. rewrite fmap_cons. unfold term_text at 1. rewrite fmap_cons.
    destruct (Join_first (comparison_text c') (comparison_text <$> cs) (go "&&")) as [p1 ->].
    destruct (Join_first (comparison_text c' ++ p1) (term_text <$> ts) (go "||")) as [p2 ->].
    exists (spaces (c_after c) ++ p1 ++ p2). unfold comparison_text. cbn [c_before with_spaces spaces replicate app c_after].
    by rewrite <- !app_assoc. }
  exists post, c'. split_and!; [exact Htext|exact Hpost|exact Hc|done| |done].
  apply Forall_cons. split; [|done]. split; [done|]. by apply Forall_cons.
Qed.

Lemma core_first c r : comparison_ok c -> leading_space (core_text c ++ r) = None.
Proof. intros [Hn _]. unfold core_text. rewrite <- !app_assoc. by apply word_first. Qed.

Lemma core_last c p : comparison_ok c -> trailing_space (p ++ core_text c) = None.
Proof. intros [_ Hl]. unfold core_text. rewrite !app_assoc. by eapply literal_last. Qed.

(** Spaces before one text and what ends another. *)
Lemma spaces_split n s pre c :
  comparison_ok c -> spaces n ++ s = pre ++ core_text c -> exists pre', s = pre' ++ core_text c.
Proof.
  intros Hc E. apply app_eq_app in E as (l & [[Hs Hc']|[Hp Hs]]); [|by exists l].
  destruct l as [|x l]; [exists []; by rewrite app_nil_l in Hc'|]. exfalso.
  assert (x = x20) as -> by (eapply (elem_of_replicate n); unfold spaces in Hs; rewrite Hs; apply elem_of_app; right; left).
  pose proof (core_first c [] Hc) as Hl. rewrite app_nil_r, Hc' in Hl. cbn [app] in Hl. by rewrite leading_space_space in Hl.
Qed.

Lemma condition_trimmed d :
  d <> [] -> condition_ok d ->
  exists d', TrimSpace (condition_text d) = condition_text d' /\ condition_text d' <> []
  /\ d' <> [] /\ condition_ok d' /\ forall values, condition_holds values d' = condition_holds values d.
Proof.
  intros Hne Hd. destruct (condition_back d Hne Hd) as (d1 & m & pre & c & -> & Hpre & Hc & Hne1 & Hd1 & Hv1).
  destruct (condition_front d1 Hne1 Hd1) as (d2 & n & post & c2 & E & Hpost & Hc2 & Hne2 & Hd2 & Hv2).
  exists d2. rewrite E in Hpre |- *. destruct (spaces_split n _ _ _ Hc Hpre) as [pre' Hpre'].
  rewrite <- app_assoc, TrimSpace_spaces.
  - split_and!; [done| |done|done|intros values; by rewrite Hv2].
    rewrite Hpost. intros [H _]%app_nil. unfold core_text in H. apply app_nil in H as [[H _]%app_nil _].
    by destruct Hc2 as [[? _] _].
  - rewrite Hpost, <- app_assoc. by apply core_first.
  - rewrite Hpre'. by apply core_last.
Qed.

(** C28: A condition, an OR of ANDs of comparisons with any spaces around the
    whole and each of its parts, is decided as it reads: the field is visible
    exactly when in one of its terms every comparison holds of the values typed,
    and [Visible] cannot fail on it.  Names and bare literals are words without
    quotes and operators; a literal between quotes is any text without that
    quote, operators included, but in an equality [!=] ([condition_ok]; the
    code looks for [!=] first, [literal_operator_misread]). *)
Theorem Visible_text values d :
  d <> [] -> condition_ok d -> Visible (condition_text d) values = Ok (condition_holds values d).
Proof.
  intros Hne Hd. destruct (condition_trimmed d Hne Hd) as (d' & Htrim & Htext & Hne' & Hd' & <-). clear Hne Hd.
  unfold Visible. rewrite Htrim, bool_decide_eq_false_2 by done.
  unfold condition_text. change (go "||") with [x7c; x7c]. rewrite splitTop_Join; [|done|intros Hn; by apply fmap_nil_inv in Hn|].
  - clear -Hd'. induction Hd' as [|t d [Hne Ht] _ IH]; [done|]. rewrite fmap_cons. cbn [any_term].
    rewrite evalTerm_text by done. simpl. unfold condition_holds. simpl.
    by destruct (forallb (comparison_holds values) t).
  - apply Forall_fmap. eapply Forall_impl; [exact Hd'|]. intros t [_ Ht]. by apply term_calm.
Qed.

(** The cloudflare form's second case, with an OR: [ auth == 'key' || mode != tcp && n=="" ]. *)
Definition example_condition : condition :=
  [[MkComparison 1 (go "auth") 1 true 1 (Quoted x27 (go "key")) 1];
   [MkComparison 1 (go "mode") 1 false 1 (Bare (go "tcp")) 1; MkComparison 1 (go "n") 0 true 0 (Quoted x22 []) 1]].

Lemma Visible_text_witness :
  condition_text example_condition = go " auth == 'key' || mode != tcp && n==" ++ [x22; x22; x20]
  /\ Visible (condition_text example_condition) (<[go "mode" := go "http"]> ∅)
     = Ok (condition_holds (<[go "mode" := go "http"]> ∅) example_condition).
Proof.
  split; [by vm_compute|]. apply Visible_text; [done|].
  assert (Hw : forall s, s <> [] -> bool_decide (Forall word_byte s) = true -> word s).
  { intros s Hs Hb. split; [done|]. by apply bool_decide_eq_true in Hb. }
  assert (Hq : forall q s, is_quote q = true -> bool_decide (q ∉ s) = true -> Index s (go "!=") = None ->
    literal_ok true (Quoted q s)).
  { intros q s Hq Hb Hi. split; [done|]. split; [by apply bool_decide_eq_true in Hb|done]. }
  assert (literal_ok true (Quoted x27 (go "key")) /\ literal_ok true (Quoted x22 []) /\ word (go "tcp")) as (L1 & L2 & L3).
  { split_and!; [apply Hq|apply Hq|apply Hw]; by vm_compute. }
  assert (word (go "auth") /\ word (go "mode") /\ word (go "n")) as (W1 & W2 & W3).
  { split_and!; apply Hw; by vm_compute. }
  apply Forall_cons; split; [split; [done|]|apply Forall_singleton; split; [done|]].
  - apply Forall_singleton. by split.
  - apply Forall_cons; split; [by split|]. apply Forall_singleton. by split.
Defined.

(** A literal with [!=] in an equality is cut in the middle: [evalAtom] looks
    for [!=] first, inside the quotes as well.  The field then shows whatever
    was typed. *)
Theorem literal_operator_misread values :
  values !! go "a == 'x" = None -> Visible (go "a == 'x!=y'") values = Ok true.
Proof.
  intros Hv. assert (evalAtom (go "a == 'x!=y'") values = Ok true) as E.
  { unfold evalAtom.
    change (Cut (TrimSpace (go "a == 'x!=y'")) (go "!=")) with (go "a == 'x", go "y'", true).
    unfold compare_atom, value_of. change (TrimSpace (go "a == 'x")) with (go "a == 'x"). rewrite Hv. done. }
  change (Visible (go "a == 'x!=y'") values) with (any_term [go "a == 'x!=y'"] values).
  cbn [any_term]. unfold evalTerm.
  change (splitTop (go "a == 'x!=y'") (go "&&")) with [go "a == 'x!=y'"]. cbn [all_atoms]. by rewrite E.
Qed.
