(* ===== verification/Dns.v ===== *)
(** DNS records: [internal/dns] (record.go, line.go, provider.go, acmebridge.go
    and the names of httpclient.go).

    A provider is a client of a remote service: class [Provider] has the
    operations of the Go interface the solver uses, on a state that is whatever
    the service holds, and class [ProviderLaws] what such a service documents
    (an added record gets an identifier no record has, a deletion removes one
    record, a failed request changes nothing). *)
From S2P Require Import Prelude GoStrings Schema.

(** ** Records (record.go) *)

Definition TypeTXT : bytes := go "TXT".
Definition TypeMX : bytes := go "MX".

Record DnsRecord := MkRecord {
  ID : bytes;
  Name : bytes;
  Type' : bytes;
  Value : bytes;
  TTL : Z;
  Line : bytes;
  Priority : Z;
  Weight : Z;
  Remark : bytes;
  Enabled : bool;
  Proxied : option bool
}.

Definition FQDN (r : DnsRecord) (zone : bytes) : bytes :=
  let zone := TrimSuffix zone (go ".") in
  if bool_decide (Name r = []) || bool_decide (Name r = go "@") then zone
  else Name r ++ go "." ++ zone.

Inductive dnserr : Type :=
  | ErrNoType
  | ErrNoValue
  | ErrTTL
  | ErrPriority
  | ErrProvider (text : bytes)
  | ErrNoZone (fqdn : bytes)
  | ErrUnknownProvider (key : bytes)
  | ErrForm (label : bytes) (e : formerr).

Definition Validate (r : DnsRecord) : res dnserr unit :=
  if bool_decide (Type' r = []) then Err ErrNoType
  else if bool_decide (TrimSpace (Value r) = []) then Err ErrNoValue
  else if TTL r <? 0 then Err ErrTTL
  else if bool_decide (Type' r = TypeMX) && (Priority r <? 0) then Err ErrPriority
  else Ok tt.

Record ListOptions := MkListOptions { Keyword : bytes; lo_Type : bytes; Page : Z; PageSize : Z }.

Definition ListOptions_Normalise (o : ListOptions) : ListOptions :=
  MkListOptions (Keyword o) (lo_Type o) (if Page o <? 1 then 1 else Page o)
    (if PageSize o <? 1 then 100 else PageSize o).

Record Domain := MkDomain { dom_ID : bytes; dom_Name : bytes; RecordCount : Z }.

(** ** Lines (line.go) *)

Definition LineDefault : bytes := go "DEF".
Definition LineTelecom : bytes := go "CT".
Definition LineUnicom : bytes := go "CU".
Definition LineMobile : bytes := go "CM".
Definition LineOverseas : bytes := go "AB".

Definition AllLines : list bytes := [LineDefault; LineTelecom; LineUnicom; LineMobile; LineOverseas].

Definition Label (l : bytes) : bytes :=
  if bool_decide (l = LineDefault) || bool_decide (l = []) then go "Default"
  else if bool_decide (l = LineTelecom) then go "China Telecom"
  else if bool_decide (l = LineUnicom) then go "China Unicom"
  else if bool_decide (l = LineMobile) then go "China Mobile"
  else if bool_decide (l = LineOverseas) then go "Overseas"
  else l.

Definition five (d t u m o : string) : list (bytes * bytes) :=
  [(LineDefault, go d); (LineTelecom, go t); (LineUnicom, go u); (LineMobile, go m); (LineOverseas, go o)].
Definition four (d t u m : string) : list (bytes * bytes) :=
  [(LineDefault, go d); (LineTelecom, go t); (LineUnicom, go u); (LineMobile, go m)].
Definition one (d : string) : list (bytes * bytes) := [(LineDefault, go d)].

Definition lineTables : list (bytes * list (bytes * bytes)) :=
  [(go "aliyun", five "default" "telecom" "unicom" "mobile" "oversea");
   (go "dnspod", five "0" "10=0" "10=1" "10=3" "3=0");
   (go "huawei", five "default_view" "Dianxin" "Liantong" "Yidong" "Abroad");
   (go "west", five "" "LTEL" "LCNC" "LMOB" "LFOR");
   (go "baidu", four "default" "ct" "cnc" "cmnet");
   (go "jdcloud", five "-1" "1" "2" "3" "4");
   (go "huoshan", five "default" "telecom" "unicom" "mobile" "oversea");
   (go "qingcloud", five "0" "2" "3" "4" "8");
   (go "bt", four "0" "285344768" "285345792" "285346816");
   (go "dnsla", four "" "84613316902921216" "84613316923892736" "84613316953252864");
   (go "cloudflare", one "0"); (go "namesilo", one "default"); (go "henet", one "default");
   (go "powerdns", one "default"); (go "spaceship", one "default"); (go "technitium", one "default");
   (go "aliyunesa", one "0"); (go "tencenteo", one "Default")].

(** The lookups in a Go map: the keys of the tables are distinct. *)
Definition assoc {A} (k : bytes) (l : list (bytes * A)) : option A :=
  snd <$> find (fun e => bool_decide (e.1 = k)) l.

Definition ProviderLine (provider line : bytes) : option bytes :=
  table ← assoc provider lineTables;
  assoc (if bool_decide (line = []) then LineDefault else line) table.

(** [range table] visits the entries in any order: [order] is the one it takes. *)
Definition LineFromProvider (order : list (bytes * bytes) -> list (bytes * bytes)) (provider value : bytes) : bytes :=
  match assoc provider lineTables with
  | None => LineDefault
  | Some table => match find (fun e => bool_decide (e.2 = value)) (order table) with
                  | Some e => e.1
                  | None => LineDefault
                  end
  end.

Definition SupportedLines (provider : bytes) : list bytes :=
  match assoc provider lineTables with
  | None => [LineDefault]
  | Some table =>
      match filter (fun l => is_Some (assoc l table)) AllLines with
      | [] => [LineDefault]
      | lines => lines
      end
  end.

Definition KnownProviderTables : list bytes := SortStrings lineTables.*1.

(** ** Names (httpclient.go) *)

Definition hostOf (rawURL : bytes) : bytes :=
  let trimmed := TrimPrefix (TrimPrefix rawURL (go "https://")) (go "http://") in
  match IndexAny trimmed (go "/?") with Some idx => take idx trimmed | None => trimmed end.

Section names.
Context `{Unicode}.

Definition NormaliseName (fqdn zone : bytes) : bytes :=
  let fqdn := TrimSuffix (ToLower (TrimSpace fqdn)) (go ".") in
  let zone := TrimSuffix (ToLower (TrimSpace zone)) (go ".") in
  if bool_decide (fqdn = zone) || bool_decide (fqdn = []) then go "@"
  else if HasSuffix fqdn (go "." ++ zone) then TrimSuffix fqdn (go "." ++ zone)
  else fqdn.

(** ** ACME challenges (acmebridge.go) *)

Definition challengePrefix : bytes := go "_acme-challenge.".

Definition challengeKey (fqdn : bytes) : bytes :=
  let fqdn := TrimSuffix (ToLower fqdn) (go ".") in
  let fqdn := TrimPrefix fqdn (go "*.") in
  if HasPrefix fqdn challengePrefix then fqdn else challengePrefix ++ fqdn.

Definition challengeToken (fqdn value : bytes) : bytes :=
  ToLower (TrimSuffix fqdn (go ".")) ++ go "|" ++ value.

Definition minChallengeTTL (minTTL : Z) : Z := if 0 <? minTTL then minTTL else 600.

Definition challenge_record (minTTL : Z) (zone fqdn value : bytes) : DnsRecord :=
  MkRecord [] (NormaliseName (challengeKey fqdn) zone) TypeTXT value (minChallengeTTL minTTL) LineDefault 0 0
    (go "openfrp ACME challenge") true None.

(** The part of the Go interface [Provider] the rest of the program relies on. *)
Class Provider (P : Type) := {
  MinTTL : Z;
  AddRecord : bytes -> DnsRecord -> P -> res dnserr bytes * P;
  DeleteRecord : bytes -> bytes -> P -> res dnserr unit * P;
  ListDomains : ListOptions -> P -> res dnserr (list Domain)
}.

Record Solver := MkSolver { zone : bytes; created : gmap bytes bytes }.

Definition NewSolver (z : bytes) : Solver := MkSolver (TrimSuffix (ToLower z) (go ".")) ∅.

Section solver.
Context {P : Type} `{Prov : Provider P}.

Definition Present (fqdn value : bytes) (s : Solver) (p : P) : res dnserr unit * Solver * P :=
  match AddRecord (zone s) (challenge_record MinTTL (zone s) fqdn value) p with
  | (Err e, p) => (Err e, s, p)
  | (Ok id, p) => (Ok tt, MkSolver (zone s) (<[challengeToken fqdn value := id]> (created s)), p)
  end.

Definition CleanUp (fqdn value : bytes) (s : Solver) (p : P) : res dnserr unit * Solver * P :=
  let token := challengeToken fqdn value in
  match created s !! token with
  | None => (Ok tt, s, p)
  | Some id =>
      let s := MkSolver (zone s) (delete token (created s)) in
      let '(r, p) := DeleteRecord (zone s) id p in (r, s, p)
  end.

(** The zones of the account, as they are compared. *)
Definition zone_name (d : Domain) : bytes := TrimSuffix (ToLower (dom_Name d)) (go ".").

Definition better_zone (name best : bytes) (d : Domain) : bytes :=
  let z := zone_name d in
  if (bool_decide (name = z) || HasSuffix name (go "." ++ z)) && (length best <? length z)%nat then z else best.

Definition RegistrableZone (fqdn : bytes) (p : P) : res dnserr bytes :=
  let name := TrimSuffix (ToLower (TrimPrefix fqdn (go "*."))) (go ".") in
  match ListDomains (MkListOptions [] [] 0 500) p with
  | Err e => Err e
  | Ok domains =>
      match foldl (better_zone name) [] domains with
      | [] => Err (ErrNoZone fqdn)
      | best => Ok best
      end
  end.
End solver.
End names.

(** ** The registry of providers (provider.go) *)

Record Capabilities := MkCapabilities {
  c_Remark : Z; c_Status : bool; c_Log : bool; c_Weight : bool; c_Redirect : bool; c_Proxy : bool;
  c_AddZone : bool; c_Paginated : bool; c_MinTTL : Z; c_Lines : list bytes
}.

Record Descriptor := MkDescriptor { Key : bytes; d_Label : bytes; d_Form : Form; d_Caps : Capabilities }.

Definition with_lines (ls : list bytes) (c : Capabilities) : Capabilities :=
  MkCapabilities (c_Remark c) (c_Status c) (c_Log c) (c_Weight c) (c_Redirect c) (c_Proxy c) (c_AddZone c)
    (c_Paginated c) (c_MinTTL c) ls.

(** [I] are the provider instances the factories build. *)
Section registry.
Context {I : Type} `{Regexp}.

Record registration := MkRegistration {
  desc : Descriptor;
  factory : gmap bytes bytes -> res dnserr I
}.

(** [Register] panics, here [None], on a missing key and on one registered. *)
Definition Register (d : Descriptor) (f : gmap bytes bytes -> res dnserr I) (reg : gmap bytes registration)
  : option (gmap bytes registration) :=
  if bool_decide (Key d = []) then None
  else match reg !! Key d with
       | Some _ => None
       | None =>
           let d := match c_Lines (d_Caps d) with
                    | [] => MkDescriptor (Key d) (d_Label d) (d_Form d) (with_lines (SupportedLines (Key d)) (d_Caps d))
                    | _ => d
                    end in
           Some (<[Key d := MkRegistration d f]> reg)
       end.

Definition New (key : bytes) (values : gmap bytes bytes) (reg : gmap bytes registration) : res dnserr I :=
  match reg !! key with
  | None => Err (ErrUnknownProvider key)
  | Some entry =>
      let values := ApplyDefaults (d_Form (desc entry)) values in
      match Schema.Validate (d_Form (desc entry)) values with
      | Err e => Err (ErrForm (d_Label (desc entry)) e)
      | Ok _ => factory entry values
      end
  end.

Definition Describe (key : bytes) (reg : gmap bytes registration) : option Descriptor := desc <$> reg !! key.

Definition key_le (a b : Descriptor) : Prop := bytes_le (Key a) (Key b).
#[export] Instance key_le_dec a b : Decision (key_le a b) := bytes_le_dec _ _.

Definition Descriptors (reg : gmap bytes registration) : list Descriptor :=
  merge_sort key_le ((fun kv => desc kv.2) <$> map_to_list reg).
Definition Keys (reg : gmap bytes registration) : list bytes := Key <$> Descriptors reg.
End registry.

(** ** Lines survive a provider *)

Lemma find_unique {A} (f : A -> bool) (l l' : list A) x :
  l' ≡ₚ l -> x ∈ l -> f x = true -> (forall y, y ∈ l -> f y = true -> y = x) -> find f l' = Some x.
Proof.
  intros Hp Hx Hf Hu. destruct (find f l') as [y|] eqn:E.
  - apply find_some in E as [Hy Hfy]. f_equal. apply Hu; [|done]. rewrite <- Hp. by apply list_elem_of_In.
  - apply list_elem_of_In in Hx as Hx'. pose proof (find_none f l' E x) as Hn. rewrite Hn in Hf; [done|].
    apply list_elem_of_In. by rewrite Hp.
Qed.

(** Every table is injective, and its keys are lines. *)
Definition table_ok (t : list (bytes * bytes)) : bool :=
  bool_decide (NoDup t.*1) && bool_decide (NoDup t.*2) && bool_decide (Forall (fun l => l ∈ AllLines) t.*1).

Lemma tables_ok : Forall (fun e => table_ok e.2 = true) lineTables.
Proof. apply (bool_decide_unpack _). by vm_compute. Qed.

Lemma assoc_Some {A} k (l : list (bytes * A)) v : assoc k l = Some v -> (k, v) ∈ l.
Proof.
  unfold assoc. intros ([k' v'] & Hf & ->)%fmap_Some. apply find_some in Hf as [Hin Hk]. cbn [fst] in Hk. bool_facts. subst k'.
  by apply list_elem_of_In.
Qed.

Lemma assoc_elem {A} k (l : list (bytes * A)) v : NoDup l.*1 -> (k, v) ∈ l -> assoc k l = Some v.
Proof.
  intros Hnd Hin. unfold assoc. erewrite (find_unique _ l l (k, v)); [done|done|done| |].
  - cbn [fst]. by rewrite bool_decide_eq_true_2.
  - intros [k' v'] Hy E. cbn [fst] in E. bool_facts. subst k'.
    apply list_elem_of_lookup in Hin as [i Hi], Hy as [j Hj].
    assert (i = j) as ->; [|congruence]. apply (NoDup_lookup _ i j k Hnd); rewrite list_lookup_fmap, ?Hi, ?Hj; done.
Qed.

(** A line survives its provider: whatever order the tables are visited in,
    the code a provider is sent for a line is read back as that line (no line at
    all as the default one), and the line is one the provider is said to
    support. *)
Theorem lines_roundtrip order provider line v :
  (forall t, order t ≡ₚ t) -> ProviderLine provider line = Some v ->
  let line := if bool_decide (line = []) then LineDefault else line in
  LineFromProvider order provider v = line /\ line ∈ SupportedLines provider.
Proof.
  intros Hord. unfold ProviderLine, LineFromProvider, SupportedLines.
  destruct (assoc provider lineTables) as [t|] eqn:Et; [|done]. cbn [mbind option_bind]. cbv zeta.
  set (l := if bool_decide (line = []) then LineDefault else line). intros Hl.
  apply assoc_Some in Et. pose proof tables_ok as Hok. rewrite Forall_forall in Hok. specialize (Hok _ Et).
  cbn [snd] in Hok. unfold table_ok in Hok. apply andb_true_iff in Hok as [[H1 H2]%andb_true_iff H3]. bool_facts.
  apply assoc_Some in Hl as Hin. split.
  - rewrite (find_unique _ t (order t) (l, v) (Hord t) Hin); [done|cbn [snd]; by rewrite bool_decide_eq_true_2|].
    intros [l' v'] Hy E. cbn [snd] in E. bool_facts. subst v'.
    apply list_elem_of_lookup in Hin as [i Hi], Hy as [j Hj].
    assert (i = j) as ->; [|congruence]. apply (NoDup_lookup _ i j v H2); rewrite list_lookup_fmap, ?Hi, ?Hj; done.
  - rewrite Forall_forall in H3. assert (l ∈ filter (fun l => is_Some (assoc l t)) AllLines) as Hf.
    { apply list_elem_of_filter. split; [by rewrite Hl; eexists|]. apply H3. apply list_elem_of_fmap. by exists (l, v). }
    destruct (filter _ AllLines); [by apply elem_of_nil in Hf|done].
Qed.

(** ** Names *)

Section name_lemmas.
Context `{U : Unicode}.

(** A name as the program keeps it: lower-case ASCII without white space, not
    empty, and no dot at its end. *)
Definition plain_byte (b : byte) : Prop := no_space b /\ b2z b < 128 /\ lower_byte b = b.
Definition plain (s : bytes) : Prop := Forall plain_byte s /\ s <> [] /\ HasSuffix s (go ".") = false.

#[export] Instance plain_byte_dec b : Decision (plain_byte b).
Proof. unfold plain_byte. apply _. Defined.
#[export] Instance plain_dec s : Decision (plain s).
Proof. unfold plain. apply _. Defined.

Lemma plain_ToLower s : Forall plain_byte s -> ToLower s = s.
Proof.
  intros Hs. unfold ToLower, is_ascii. replace (forallb (fun b => b2z b <? 128) s) with true.
  - induction Hs as [|b s (_ & _ & Hb) Hs IH]; [done|]. cbn [fmap list_fmap]. by rewrite Hb, IH.
  - symmetry. apply forallb_forall. intros b Hb%list_elem_of_In. rewrite Forall_forall in Hs.
    destruct (Hs b Hb) as (_ & ? & _). by apply Z.ltb_lt.
Qed.

Lemma trailing_space_nil : trailing_space [] = None.
Proof. reflexivity. Qed.

Lemma plain_TrimSpace s : Forall plain_byte s -> TrimSpace s = s.
Proof.
  intros Hs. apply TrimSpace_id.
  - destruct Hs as [|b s (Hb & _)]; [done|]. by apply leading_space_cons.
  - destruct s as [|b s _] using rev_ind; [done|]. apply Forall_app in Hs as [_ Hs]. inversion Hs as [|? ? (Hb & _)]; subst.
    apply (trailing_space_app s b []); [done|]. apply trailing_space_nil.
Qed.

Lemma plain_dot : Forall plain_byte (go ".").
Proof. apply (bool_decide_unpack _). by vm_compute. Qed.

Lemma HasSuffix_app_nonempty a b c :
  c <> [] -> (length b <= length c)%nat -> HasSuffix (a ++ c) b = HasSuffix c b.
Proof.
  intros Hc Hl. apply eq_true_iff_eq. rewrite !HasSuffix_true. split.
  - intros [k Hk]. apply app_eq_inv in Hk as [(k' & -> & ->)|(k' & -> & ->)].
    + destruct k' as [|x k']; [by exists []|]. exfalso. rewrite length_app in Hl. simpl in Hl. lia.
    + by exists k'.
  - intros [k ->]. exists (a ++ k). by rewrite app_assoc.
Qed.

Lemma plain_joined a z : Forall plain_byte a -> plain z -> plain (a ++ go "." ++ z).
Proof.
  intros Ha (Hz & Hne & Hdot). split_and!.
  - apply Forall_app. split; [done|]. apply Forall_app. split; [exact plain_dot|done].
  - by destruct a.
  - rewrite (app_assoc a), HasSuffix_app_nonempty; [done|done|]. destruct z; simpl; [done|lia].
Qed.

Lemma NormaliseName_plain f z :
  plain f -> plain z ->
  NormaliseName f z = if bool_decide (f = z) then go "@"
                      else if HasSuffix f (go "." ++ z) then TrimSuffix f (go "." ++ z) else f.
Proof.
  intros (Hf & Hfn & Hfd) (Hz & Hzn & Hzd). unfold NormaliseName.
  rewrite !plain_TrimSpace, !plain_ToLower by done. rewrite !TrimSuffix_none by done.
  rewrite (bool_decide_eq_false_2 (f = [])) by done. by rewrite orb_false_r.
Qed.

Lemma NormaliseName_under a z :
  Forall plain_byte a -> plain z -> NormaliseName (a ++ go "." ++ z) z = a.
Proof.
  intros Ha Hz. rewrite NormaliseName_plain by auto using plain_joined.
  rewrite bool_decide_eq_false_2.
  - by rewrite HasSuffix_app, TrimSuffix_app.
  - intros E%(f_equal length). rewrite !length_app in E. simpl in E. lia.
Qed.

(** A record's name survives its provider: for a zone and a name as the
    program keeps them, the full name of the record, normalised in its zone, is
    the name it had ([@] for the zone itself). *)
Theorem name_roundtrip r z :
  plain z -> Forall plain_byte (Name r) ->
  NormaliseName (FQDN r z) z = if bool_decide (Name r = []) then go "@" else Name r.
Proof.
  intros Hz Hr. unfold FQDN. rewrite (TrimSuffix_none z) by apply Hz.
  destruct (decide (Name r = [])) as [->|Hne].
  - cbn [orb]. rewrite !bool_decide_eq_true_2 by done. cbn [orb]. rewrite NormaliseName_plain by done.
    by rewrite bool_decide_eq_true_2.
  - rewrite !(bool_decide_eq_false_2 (Name r = [])) by done. cbn [orb]. case_bool_decide as E.
    + rewrite NormaliseName_plain, bool_decide_eq_true_2 by done. done.
    + by apply NormaliseName_under.
Qed.

(** ** A challenge is published where the CA looks for it *)

Section zones.
Context {P : Type} `{Prov : Provider P}.

(** A zone covers itself and the names under it. *)
Definition covers (name z : bytes) : Prop := name = z \/ exists a, name = a ++ go "." ++ z.

Lemma better_zone_spec name best d :
  let b := better_zone name best d in
  (b = best \/ b = zone_name d /\ covers name b) /\ (length best <= length b)%nat
  /\ (covers name (zone_name d) -> (length (zone_name d) <= length b)%nat).
Proof.
  cbv zeta. unfold better_zone.
  assert ((bool_decide (name = zone_name d) || HasSuffix name (go "." ++ zone_name d)) = true
    <-> covers name (zone_name d)) as Hc.
  { unfold covers. by rewrite orb_true_iff, bool_decide_eq_true, HasSuffix_true. }
  destruct (bool_decide (name = zone_name d) || HasSuffix name (go "." ++ zone_name d)) eqn:E; cbn [andb].
  - destruct (Nat.ltb_spec (length best) (length (zone_name d))).
    + split_and!; [right; split; [done|by apply Hc]|lia|lia].
    + split_and!; [by left|lia|lia].
  - split_and!; [by left|lia|]. intros H%Hc. done.
Qed.

Lemma best_zone name ds best :
  let z := foldl (better_zone name) best ds in
  (z = best \/ exists d, d ∈ ds /\ z = zone_name d /\ covers name z) /\ (length best <= length z)%nat
  /\ forall d, d ∈ ds -> covers name (zone_name d) -> (length (zone_name d) <= length z)%nat.
Proof.
  revert best. induction ds as [|d ds IH]; intros best; cbv zeta; cbn [foldl].
  { split_and!; [by left|lia|]. intros d Hd. by apply elem_of_nil in Hd. }
  destruct (better_zone_spec name best d) as (H1 & H2 & H3).
  destruct (IH (better_zone name best d)) as (I1 & I2 & I3). split_and!; [|lia|].
  - destruct I1 as [->|(d' & Hd & Hz & Hc)].
    + destruct H1 as [->|[E Hc]]; [by left|]. right. exists d. split; [by left|]. by rewrite E in Hc |- *.
    + right. exists d'. split; [by right|done].
  - intros d' [->|Hd]%elem_of_cons Hc; [|by apply I3]. specialize (H3 Hc). lia.
Qed.

(** What a CA looks up for a name, wildcard or not. *)
Definition lookup_name (base : bytes) : bytes := challengePrefix ++ base.

Lemma plain_prefix : Forall plain_byte challengePrefix.
Proof. apply (bool_decide_unpack _). by vm_compute. Qed.

Lemma challengeKey_plain base fqdn :
  plain base -> HasPrefix base challengePrefix = false -> HasPrefix base (go "*.") = false ->
  fqdn = base \/ fqdn = go "*." ++ base -> challengeKey fqdn = lookup_name base.
Proof.
  intros (Hb & Hne & Hdot) Hp Hw Hf. unfold challengeKey.
  assert (Forall plain_byte (go "*.")) as Hstar by (apply (bool_decide_unpack _); by vm_compute).
  assert (TrimPrefix (TrimSuffix (ToLower fqdn) (go ".")) (go "*.") = base) as ->.
  { destruct Hf as [->| ->].
    - rewrite plain_ToLower, TrimSuffix_none, TrimPrefix_none by done. done.
    - rewrite plain_ToLower by (by apply Forall_app). rewrite TrimSuffix_none.
      + apply TrimPrefix_app.
      + rewrite HasSuffix_app_nonempty; [done|done|]. destruct base; simpl; [done|lia]. }
  by rewrite Hp.
Qed.

(** A challenge is published where the CA looks for it: for a name (or its
    wildcard) and an account whose zones are kept lower-case, the zone chosen is
    the longest of the account's that covers the name, and the record the solver
    asks the provider to add has, in that zone, the full name
    [_acme-challenge.] in front of the name; an account without such a zone is
    an error. *)
Theorem challenge_at_expected_name base fqdn value p ds :
  plain base -> HasPrefix base challengePrefix = false -> HasPrefix base (go "*.") = false ->
  fqdn = base \/ fqdn = go "*." ++ base ->
  ListDomains (MkListOptions [] [] 0 500) p = Ok ds -> Forall (fun d => plain (zone_name d)) ds ->
  match RegistrableZone fqdn p with
  | Ok z =>
      (exists d, d ∈ ds /\ z = zone_name d) /\ covers base z
      /\ (forall d, d ∈ ds -> covers base (zone_name d) -> (length (zone_name d) <= length z)%nat)
      /\ zone (NewSolver z) = z
      /\ let r := challenge_record MinTTL z fqdn value in
         FQDN r z = lookup_name base /\ Type' r = TypeTXT /\ Value r = value
  | Err e => e = ErrNoZone fqdn /\ forall d, d ∈ ds -> ~ covers base (zone_name d)
  end.
Proof.
  intros Hb Hp Hw Hf Hl Hds. unfold RegistrableZone.
  assert (TrimSuffix (ToLower (TrimPrefix fqdn (go "*."))) (go ".") = base) as ->.
  { destruct Hf as [->| ->]; [rewrite TrimPrefix_none by done|rewrite TrimPrefix_app];
      rewrite plain_ToLower, TrimSuffix_none by apply Hb; done. }
  rewrite Hl. destruct (best_zone base ds []) as (H1 & _ & H3).
  destruct (foldl (better_zone base) [] ds) as [|c z'] eqn:Ez.
  - split; [done|]. intros d Hd Hc. specialize (H3 d Hd Hc). rewrite Forall_forall in Hds.
    destruct (Hds d Hd) as (_ & Hne & _). destruct (zone_name d); simpl in H3; [done|lia].
  - destruct H1 as [?|(d & Hd & Hz & Hc)]; [done|]. set (z := c :: z') in *.
    rewrite Forall_forall in Hds. pose proof (Hds d Hd) as Hpz. rewrite <- Hz in Hpz. pose proof Hpz as (Hpz1 & _ & Hpz2).
    split; [by exists d|]. split; [done|]. split; [done|]. split.
    { cbn [NewSolver zone]. by rewrite plain_ToLower, TrimSuffix_none. }
    cbv zeta. split; [|done].
    assert (exists a, Forall plain_byte a /\ a <> [] /\ a <> go "@" /\ lookup_name base = a ++ go "." ++ z) as (a & Ha & Hane & Hat & Hk).
    { unfold lookup_name. destruct Hc as [->|[a ->]].
      - exists (go "_acme-challenge"). split; [apply (bool_decide_unpack _); by vm_compute|]. done.
      - exists (challengePrefix ++ a). split; [|split; [done|split; [done|by rewrite <- app_assoc]]].
        destruct Hb as (Hb & _). apply Forall_app in Hb as [Hb _]. apply Forall_app. split; [exact plain_prefix|done]. }
    unfold challenge_record, FQDN. cbn [Name]. rewrite (challengeKey_plain base fqdn) by done.
    rewrite Hk, NormaliseName_under by done. rewrite TrimSuffix_none by done.
    by rewrite !bool_decide_eq_false_2.
Qed.
End zones.
End name_lemmas.

(** ** A solver touches only its own records *)

(** What a provider's service holds, and what its documentation says of adding
    and deleting. *)
Class ProviderLaws (P : Type) `{Provider P} := {
  records : P -> gmap bytes (bytes * DnsRecord);
  add_spec : forall z r p, match AddRecord z r p with
    | (Ok id, p') => records p !! id = None /\ records p' = <[id := (z, r)]> (records p)
    | (Err _, p') => records p' = records p
    end;
  delete_spec : forall z id p, match DeleteRecord z id p with
    | (Ok _, p') => records p' = delete id (records p)
    | (Err _, p') => records p' = records p
    end
}.

Section ownership.
Context `{U : Unicode} {P : Type} `{Laws : ProviderLaws P}.

Inductive solver_op : Type :=
  | OpPresent (fqdn value : bytes)
  | OpCleanUp (fqdn value : bytes).

Definition op_token (o : solver_op) : bytes :=
  match o with OpPresent f v | OpCleanUp f v => challengeToken f v end.

Definition run_op (o : solver_op) (sp : Solver * P) : res dnserr unit * (Solver * P) :=
  match o with
  | OpPresent f v => let '(r, s, p) := Present f v sp.1 sp.2 in (r, (s, p))
  | OpCleanUp f v => let '(r, s, p) := CleanUp f v sp.1 sp.2 in (r, (s, p))
  end.

Definition run_ops (os : list solver_op) (sp : Solver * P) : Solver * P :=
  foldl (fun sp o => (run_op o sp).2) sp os.

(** A run in which no challenge is presented twice at a time and every deletion
    succeeds. *)
Fixpoint orderly (os : list solver_op) (sp : Solver * P) : Prop :=
  match os with
  | [] => True
  | o :: os =>
      match o with OpPresent _ _ => created sp.1 !! op_token o = None | OpCleanUp _ _ => is_ok (run_op o sp).1 = true end
      /\ orderly os (run_op o sp).2
  end.

(** The records [R] were there; the solver's are those it remembers, no two
    tokens share one, and [extra] says whether others of its own may be left. *)
Definition owns (R : gmap bytes (bytes * DnsRecord)) (sp : Solver * P) : Prop :=
  R ⊆ records sp.2
  /\ (forall token id, created sp.1 !! token = Some id -> R !! id = None
      /\ exists r, records sp.2 !! id = Some (zone sp.1, r) /\ Type' r = TypeTXT)
  /\ (forall t1 t2 id, created sp.1 !! t1 = Some id -> created sp.1 !! t2 = Some id -> t1 = t2).

Definition nothing_else (R : gmap bytes (bytes * DnsRecord)) (sp : Solver * P) : Prop :=
  forall id x, records sp.2 !! id = Some x -> R !! id = Some x \/ exists token, created sp.1 !! token = Some id.

Lemma run_op_owns R o sp :
  owns R sp ->
  owns R (run_op o sp).2 /\ zone (run_op o sp).2.1 = zone sp.1
  /\ (match o with OpPresent _ _ => created sp.1 !! op_token o = None | OpCleanUp _ _ => is_ok (run_op o sp).1 = true end ->
      nothing_else R sp -> nothing_else R (run_op o sp).2).
Proof.
  destruct sp as [s p]. intros (H1 & H2 & H3). destruct o as [f v|f v]; cbn [run_op op_token fst snd].
  - unfold Present. pose proof (add_spec (zone s) (challenge_record MinTTL (zone s) f v) p) as Ha.
    destruct (AddRecord _ _ p) as [[id|e] p'].
    + destruct Ha as [Hfresh Hr]. split; [|split; [done|]].
      * unfold owns. cbn [fst snd created zone]. rewrite Hr. split_and!.
        -- etrans; [exact H1|]. by apply insert_subseteq.
        -- intros t i. rewrite lookup_insert. case_decide.
           ++ intros [= <-]. split.
              ** destruct (R !! id) eqn:E; [|done]. pose proof (lookup_weaken _ _ _ _ E H1) as Hw. cbn [snd] in Hw. congruence.
              ** eexists. rewrite lookup_insert_eq. done.
           ++ intros Ht. destruct (H2 t i Ht) as (? & r & Hi & ?). split; [done|]. exists r.
              rewrite lookup_insert_ne; [done|]. cbn [fst snd] in Hi. congruence.
        -- intros t1 t2 i. rewrite !lookup_insert. repeat case_decide; intros E1 E2; simplify_eq; try done.
           ++ destruct (H2 t2 i E2) as (_ & r & Hi & _). cbn [snd] in Hi. congruence.
           ++ destruct (H2 t1 i E1) as (_ & r & Hi & _). cbn [snd] in Hi. congruence.
           ++ by apply (H3 t1 t2 i).
      * intros Hnone Hn i x. cbn [fst snd created]. rewrite Hr, lookup_insert. case_decide.
        -- subst i. intros _. right. eexists. apply lookup_insert_eq.
        -- intros Hi. destruct (Hn i x Hi) as [?|[t Ht]]; [by left|]. right. exists t.
           rewrite lookup_insert_ne; [done|]. intros <-. cbn [fst] in Ht, Hnone. congruence.
    + split; [|split; [done|]]; unfold owns, nothing_else in *; cbn [fst snd] in *; by rewrite Ha.
  - unfold CleanUp. cbn [fst]. destruct (created s !! challengeToken f v) as [id|] eqn:E.
    + pose proof (delete_spec (zone s) id p) as Hd. cbn [zone]. destruct (DeleteRecord (zone s) id p) as [r p'].
      destruct (H2 _ _ E) as (Hid & _).
      assert (forall t i, delete (challengeToken f v) (created s) !! t = Some i -> i <> id /\ created s !! t = Some i) as Hdel.
      { intros t i [Hne Ht]%lookup_delete_Some. split; [|done]. intros ->. by destruct (Hne (H3 _ _ _ E Ht)). }
      assert (records p' = delete id (records p) \/ records p' = records p) as Hr by (destruct r; auto).
      split; [|split; [done|]].
      * unfold owns. cbn [fst snd created zone]. split_and!.
        -- destruct Hr as [-> | ->]; [|exact H1]. rewrite <- (delete_id R id) by done. by apply delete_mono.
        -- intros t i Ht. apply Hdel in Ht as [Hne Ht]. destruct (H2 t i Ht) as (? & rr & Hi & ?). split; [done|].
           exists rr. split; [|done]. destruct Hr as [-> | ->]; [|exact Hi]. by rewrite lookup_delete_ne by congruence.
        -- intros t1 t2 i Ht1 Ht2. apply Hdel in Ht1 as [_ Ht1], Ht2 as [_ Ht2]. by apply (H3 t1 t2 i).
      * cbn [fst]. destruct r as [u|e]; [|done]. intros _ Hn i x. cbn [fst snd created]. rewrite Hd.
        intros [Hne Hi]%lookup_delete_Some. destruct (Hn i x Hi) as [?|[t Ht]]; [by left|]. right. exists t.
        rewrite lookup_delete_ne; [done|]. intros <-. cbn [fst] in Ht. congruence.
    + cbn [snd]. split; [done|]. by split.
Qed.

(** Solving challenges leaves an account as it was: whatever challenges are
    presented and cleaned up, in any order and whatever requests fail, every
    record that was in the account stays as it is, and every challenge the
    solver remembers is a TXT record it added in its zone; and if no challenge is
    presented again before it is cleaned up and no deletion fails, the account
    holds nothing else, so once every challenge is cleaned up it is exactly as
    before. *)
Theorem solver_owns_records os z p :
  let sp := run_ops os (NewSolver z, p) in
  records p ⊆ records sp.2
  /\ (forall token id, created sp.1 !! token = Some id ->
      records p !! id = None /\ exists r, records sp.2 !! id = Some (zone (NewSolver z), r) /\ Type' r = TypeTXT)
  /\ (orderly os (NewSolver z, p) -> created sp.1 = ∅ -> records sp.2 = records p).
Proof.
  cbv zeta. assert (forall os sp, owns (records p) sp -> zone sp.1 = zone (NewSolver z) ->
    owns (records p) (run_ops os sp) /\ zone (run_ops os sp).1 = zone (NewSolver z)
    /\ (orderly os sp -> nothing_else (records p) sp -> nothing_else (records p) (run_ops os sp))) as Hrun.
  { clear os. induction os as [|o os IH]; intros sp Ho Hz; [done|]. cbn [run_ops foldl orderly].
    destruct (run_op_owns (records p) o sp Ho) as (H1 & H2 & H3).
    destruct (IH (run_op o sp).2 H1) as (I1 & I2 & I3); [congruence|]. split; [done|]. split; [done|].
    intros [Ho1 Ho2] Hn. apply I3; [done|]. by apply H3. }
  destruct (Hrun os (NewSolver z, p)) as ((H1 & H2 & _) & Hz & H3).
  { unfold owns. cbn [fst snd NewSolver created]. split_and!; [done| |]; intros *; by rewrite lookup_empty. }
  { done. }
  split; [done|]. split; [rewrite <- Hz; exact H2|]. intros Ho He.
  assert (nothing_else (records p) (run_ops os (NewSolver z, p))) as Hn.
  { apply H3; [done|]. intros id x Hi. by left. }
  apply map_eq. intros id. destruct (records p !! id) as [x|] eqn:Ei; [by eapply lookup_weaken|].
  destruct (records (run_ops os (NewSolver z, p)).2 !! id) as [x|] eqn:Ex; [|done].
  destruct (Hn id x Ex) as [?|[t Ht]]; [congruence|]. rewrite He in Ht. by rewrite lookup_empty in Ht.
Qed.
End ownership.

(** ** Examples *)

(** A service in memory: its records, the number of the next, and the requests
    it will still answer before it fails. *)
Record memory := MkMemory { held : gmap bytes (bytes * DnsRecord); zones_of : list Domain }.

Definition fresh_id (m : gmap bytes (bytes * DnsRecord)) : bytes := infinite_fresh (map_to_list m).*1.

Definition MemoryProvider : Provider memory := {|
  MinTTL := 60;
  AddRecord z r p :=
    let id := fresh_id (held p) in (Ok id, MkMemory (<[id := (z, r)]> (held p)) (zones_of p));
  DeleteRecord z id p := (Ok tt, MkMemory (delete id (held p)) (zones_of p));
  ListDomains _ p := Ok (zones_of p)
|}.
#[local] Existing Instance MemoryProvider.

#[local] Instance MemoryLaws : ProviderLaws memory.
Proof.
  refine {| records := held |}.
  - intros z r p. cbn. split; [|done]. destruct (held p !! fresh_id (held p)) as [x|] eqn:E; [|done].
    destruct (infinite_is_fresh (map_to_list (held p)).*1). apply list_elem_of_fmap. exists (fresh_id (held p), x).
    split; [done|]. by apply elem_of_map_to_list.
  - intros z id p. done.
Defined.

Definition example_account : memory :=
  MkMemory ∅ [MkDomain [] (go "com") 0; MkDomain [] (go "example.com") 0; MkDomain [] (go "other.org") 0].
Definition two_challenges : list solver_op :=
  [OpPresent (go "example.com") (go "v1"); OpPresent (go "*.example.com") (go "v2");
   OpCleanUp (go "*.example.com") (go "v2"); OpCleanUp (go "example.com") (go "v1")].

#[local] Existing Instance no_unicode.

Lemma solver_owns_records_witness :
  orderly two_challenges (NewSolver (go "example.com"), example_account)
  /\ records (run_ops two_challenges (NewSolver (go "example.com"), example_account)).2 = records example_account.
Proof.
  assert (orderly two_challenges (NewSolver (go "example.com"), example_account)) as Ho by (vm_compute; split_and!; done).
  split; [exact Ho|]. apply (solver_owns_records two_challenges (go "example.com") example_account); [exact Ho|].
  vm_compute. reflexivity.
Defined.

Lemma lines_roundtrip_witness :
  ProviderLine (go "west") [] = Some [] /\ LineFromProvider (@rev _) (go "west") [] = LineDefault.
Proof.
  split; [by vm_compute|].
  exact (proj1 (lines_roundtrip (@rev _) (go "west") [] [] (fun t => Permutation_sym (Permutation_rev t)) eq_refl)).
Defined.

Definition www : DnsRecord := MkRecord [] (go "www") (go "A") (go "192.0.2.1") 0 [] 0 0 [] true None.

Lemma name_roundtrip_witness :
  NormaliseName (FQDN www (go "example.com")) (go "example.com") = go "www".
Proof. apply (name_roundtrip www); apply (bool_decide_unpack _); by vm_compute. Defined.

Lemma challenge_at_expected_name_witness :
  RegistrableZone (go "*.www.example.com") example_account = Ok (go "example.com")
  /\ FQDN (challenge_record 60 (go "example.com") (go "*.www.example.com") (go "v")) (go "example.com")
     = go "_acme-challenge.www.example.com".
Proof.
  pose proof (challenge_at_expected_name (P := memory) (go "www.example.com") (go "*.www.example.com") (go "v") example_account
    (zones_of example_account)) as H.
  assert (RegistrableZone (go "*.www.example.com") example_account = Ok (go "example.com")) as E by (vm_compute; reflexivity).
  rewrite E in H. split; [exact E|].
  destruct H as (_ & _ & _ & _ & H & _); [apply (bool_decide_unpack _); by vm_compute|reflexivity|reflexivity|by right|reflexivity|
    apply (bool_decide_unpack _); by vm_compute|]. exact H.
Defined.
