(* ===== verification/Storage.v ===== *)
(** The database: [internal/storage/repo] (account.go, acmeaccount.go,
    certorder.go) over the tables of [internal/storage/migrate/sql].

    SQLite executes the statements: a table is a map from its primary key, which
    [AUTOINCREMENT] never uses twice, and a statement either fails and changes
    nothing or does what it says, the constraints of the tables included
    (unique names, foreign keys with their actions).  Whether the next
    statements work is a list of the state, so that every theorem holds however
    the disk behaves; when the list is used up they work.  [unixepoch()] is an
    argument.  The JSON columns hold the value they encode. *)
From S2P Require Import Prelude GoStrings.

Record Account := MkAccount {
  acc_ID : Z; acc_Name : bytes; acc_Provider : bytes; acc_Credentials : gmap bytes bytes;
  acc_CreatedAt : Z; acc_UpdatedAt : Z
}.

Definition StatePending : bytes := go "pending".
Definition StateIssuing : bytes := go "issuing".
Definition StateIssued : bytes := go "issued".
Definition StateFailed : bytes := go "failed".

Record Order := MkOrder {
  o_ID : Z; o_Domains : list bytes; o_KeyType : bytes; o_CA : bytes;
  o_AccountID : Z;
  o_Email : bytes;
  o_AutoRenew : option bool;
  o_State : bytes; o_LastError : bytes;
  o_Certificate : bytes; o_PrivateKey : bytes;
  o_IssuedAt : Z; o_ExpiresAt : Z; o_CreatedAt : Z; o_UpdatedAt : Z
}.

(** A row of [cert_order]: the columns that may be NULL are options. *)
Record order_row := MkOrderRow {
  r_domains : list bytes; r_key_type : bytes; r_ca : bytes;
  r_account : option Z;
  r_email : bytes; r_auto_renew : bool;
  r_state : bytes; r_last_error : bytes;
  r_certificate : bytes; r_private_key : bytes;
  r_issued_at : option Z; r_expires_at : option Z; r_created_at : Z; r_updated_at : Z
}.

Record Event := MkEvent { e_ID : Z; e_order : Z; e_Kind : bytes; e_Detail : bytes; e_CreatedAt : Z }.

Record ACMEAccount := MkACMEAccount {
  am_ID : Z; am_CA : bytes; am_Email : bytes;
  am_PrivateKey : bytes; am_Registration : bytes;
  am_EABKeyID : bytes; am_EABHMAC : bytes; am_CreatedAt : Z
}.

Record DB := MkDB {
  accounts : gmap Z Account; orders : gmap Z order_row; events : list Event; acme : gmap Z ACMEAccount;
  last_account : Z; last_order : Z; last_event : Z; last_acme : Z;
  works : list bool
}.

Definition empty_db (w : list bool) : DB := MkDB ∅ ∅ [] ∅ 0 0 0 0 w.

Inductive dberr : Type :=
  | ErrSQL
  | ErrConstraint
  | ErrNotFound (id : Z)
  | ErrNoAccount (ca email : bytes).

(** Does the next statement work? *)
Definition statement (d : DB) : bool * DB :=
  match works d with
  | [] => (true, d)
  | w :: ws => (w, MkDB (accounts d) (orders d) (events d) (acme d) (last_account d) (last_order d)
                     (last_event d) (last_acme d) ws)
  end.

Definition set_accounts (m : gmap Z Account) (d : DB) : DB :=
  MkDB m (orders d) (events d) (acme d) (last_account d) (last_order d) (last_event d) (last_acme d) (works d).
Definition set_orders (m : gmap Z order_row) (d : DB) : DB :=
  MkDB (accounts d) m (events d) (acme d) (last_account d) (last_order d) (last_event d) (last_acme d) (works d).
Definition set_events (l : list Event) (d : DB) : DB :=
  MkDB (accounts d) (orders d) l (acme d) (last_account d) (last_order d) (last_event d) (last_acme d) (works d).
Definition set_acme (m : gmap Z ACMEAccount) (d : DB) : DB :=
  MkDB (accounts d) (orders d) (events d) m (last_account d) (last_order d) (last_event d) (last_acme d) (works d).

(** A statement that fails, or does [f]. *)
Definition execute {A} (f : DB -> res dberr A * DB) (d : DB) : res dberr A * DB :=
  let '(ok, d) := statement d in if ok then f d else (Err ErrSQL, d).

(** ** DNS accounts (account.go) *)

Definition account_le (a b : Account) : Prop := bytes_le (acc_Name a) (acc_Name b).
#[export] Instance account_le_dec a b : Decision (account_le a b) := bytes_le_dec _ _.

Definition Accounts_List : DB -> res dberr (list Account) * DB :=
  execute (fun d => (Ok (merge_sort account_le (map_to_list (accounts d)).*2), d)).

Definition Accounts_Get (id : Z) : DB -> res dberr Account * DB :=
  execute (fun d => match accounts d !! id with Some a => (Ok a, d) | None => (Err (ErrNotFound id), d) end).

(** Is the name another account's? *)
Definition name_taken (id : Z) (name : bytes) (m : gmap Z Account) : bool :=
  existsb (fun kv => negb (kv.1 =? id) && bool_decide (acc_Name kv.2 = name)) (map_to_list m).

Definition Accounts_Create (now : Z) (a : Account) : DB -> res dberr Account * DB :=
  execute (fun d =>
    let id := last_account d + 1 in
    if name_taken id (acc_Name a) (accounts d) then (Err ErrConstraint, d)
    else
      let a := MkAccount id (acc_Name a) (acc_Provider a) (acc_Credentials a) now now in
      (Ok a, MkDB (<[id := a]> (accounts d)) (orders d) (events d) (acme d) id (last_order d) (last_event d)
               (last_acme d) (works d))).

Definition Accounts_Update (now : Z) (a : Account) : DB -> res dberr unit * DB :=
  execute (fun d =>
    match accounts d !! acc_ID a with
    | None => (Err (ErrNotFound (acc_ID a)), d)
    | Some old =>
        if name_taken (acc_ID a) (acc_Name a) (accounts d) then (Err ErrConstraint, d)
        else (Ok tt, set_accounts (<[acc_ID a := MkAccount (acc_ID a) (acc_Name a) (acc_Provider a)
                (acc_Credentials a) (acc_CreatedAt old) now]> (accounts d)) d)
    end).

(** [ON DELETE SET NULL]. *)
Definition forget_account (id : Z) (r : order_row) : order_row :=
  MkOrderRow (r_domains r) (r_key_type r) (r_ca r) (if bool_decide (r_account r = Some id) then None else r_account r)
    (r_email r) (r_auto_renew r) (r_state r) (r_last_error r) (r_certificate r) (r_private_key r)
    (r_issued_at r) (r_expires_at r) (r_created_at r) (r_updated_at r).

Definition Accounts_Delete (id : Z) : DB -> res dberr unit * DB :=
  execute (fun d =>
    match accounts d !! id with
    | None => (Err (ErrNotFound id), d)
    | Some _ => (Ok tt, set_orders (forget_account id <$> orders d) (set_accounts (delete id (accounts d)) d))
    end).

(** ** Orders (certorder.go) *)

Definition scanOrder (id : Z) (r : order_row) : Order :=
  MkOrder id (r_domains r) (r_key_type r) (r_ca r) (default 0 (r_account r)) (r_email r) (Some (r_auto_renew r))
    (r_state r) (r_last_error r) (r_certificate r) (r_private_key r) (default 0 (r_issued_at r))
    (default 0 (r_expires_at r)) (r_created_at r) (r_updated_at r).

Definition newest_first (a b : Order) : Prop := o_ID b <= o_ID a.
#[export] Instance newest_first_dec a b : Decision (newest_first a b) := Z_le_dec _ _.
Definition soonest_first (a b : Order) : Prop := o_ExpiresAt a <= o_ExpiresAt b.
#[export] Instance soonest_first_dec a b : Decision (soonest_first a b) := Z_le_dec _ _.

Definition rows (d : DB) : list Order := (fun kv => scanOrder kv.1 kv.2) <$> map_to_list (orders d).

Definition Orders_List : DB -> res dberr (list Order) * DB :=
  execute (fun d => (Ok (merge_sort newest_first (rows d)), d)).

Definition Orders_Get (id : Z) : DB -> res dberr Order * DB :=
  execute (fun d => match orders d !! id with Some r => (Ok (scanOrder id r), d) | None => (Err (ErrNotFound id), d) end).

Definition due_row (cutoff : Z) (r : order_row) : bool :=
  bool_decide (r_state r = StateIssued) && r_auto_renew r
  && match r_expires_at r with Some e => e <=? cutoff | None => false end.

Definition DueForRenewal (cutoff : Z) : DB -> res dberr (list Order) * DB :=
  execute (fun d => (Ok (merge_sort soonest_first
    ((fun kv => scanOrder kv.1 kv.2) <$> filter (fun kv => due_row cutoff kv.2 = true) (map_to_list (orders d)))), d)).

Definition nullableID (id : Z) : option Z := if id =? 0 then None else Some id.

Definition Orders_Create (now : Z) (o : Order) : DB -> res dberr Order * DB :=
  execute (fun d =>
    let state := if bool_decide (o_State o = []) then StatePending else o_State o in
    let renew := default true (o_AutoRenew o) in
    let id := last_order d + 1 in
    let known := match nullableID (o_AccountID o) with
                 | Some a => bool_decide (is_Some (accounts d !! a))
                 | None => true
                 end in
    if negb known then (Err ErrConstraint, d)
    else
      (Ok (MkOrder id (o_Domains o) (o_KeyType o) (o_CA o) (o_AccountID o) (o_Email o) (Some renew) state
             (o_LastError o) (o_Certificate o) (o_PrivateKey o) (o_IssuedAt o) (o_ExpiresAt o) now now),
       MkDB (accounts d)
         (<[id := MkOrderRow (o_Domains o) (o_KeyType o) (o_CA o) (nullableID (o_AccountID o)) (o_Email o) renew state
                    [] [] [] None None now now]> (orders d))
         (events d) (acme d) (last_account d) id (last_event d) (last_acme d) (works d))).

Definition set_state (state lastError : bytes) (now : Z) (r : order_row) : order_row :=
  MkOrderRow (r_domains r) (r_key_type r) (r_ca r) (r_account r) (r_email r) (r_auto_renew r) state lastError
    (r_certificate r) (r_private_key r) (r_issued_at r) (r_expires_at r) (r_created_at r) now.

(** An [UPDATE ... WHERE id = ?] followed by [affectedOne]. *)
Definition update_order (id : Z) (f : order_row -> order_row) : DB -> res dberr unit * DB :=
  execute (fun d =>
    match orders d !! id with
    | None => (Err (ErrNotFound id), d)
    | Some r => (Ok tt, set_orders (<[id := f r]> (orders d)) d)
    end).

Definition SetState (now id : Z) (state lastError : bytes) : DB -> res dberr unit * DB :=
  update_order id (set_state state lastError now).

Definition store_certificate (certificate privateKey : bytes) (issuedAt expiresAt now : Z) (r : order_row) : order_row :=
  MkOrderRow (r_domains r) (r_key_type r) (r_ca r) (r_account r) (r_email r) (r_auto_renew r) StateIssued []
    certificate privateKey (Some issuedAt) (Some expiresAt) (r_created_at r) now.

Definition StoreCertificate (now id : Z) (certificate privateKey : bytes) (issuedAt expiresAt : Z)
  : DB -> res dberr unit * DB :=
  update_order id (store_certificate certificate privateKey issuedAt expiresAt now).

(** The events of the order go with it: [ON DELETE CASCADE]. *)
Definition Orders_Delete (id : Z) : DB -> res dberr unit * DB :=
  execute (fun d =>
    match orders d !! id with
    | None => (Err (ErrNotFound id), d)
    | Some _ => (Ok tt, set_events (filter (fun e => e_order e <> id) (events d)) (set_orders (delete id (orders d)) d))
    end).

Definition AppendEvent (now orderID : Z) (kind detail : bytes) : DB -> res dberr unit * DB :=
  execute (fun d =>
    if bool_decide (is_Some (orders d !! orderID)) then
      let id := last_event d + 1 in
      (Ok tt, MkDB (accounts d) (orders d) (events d ++ [MkEvent id orderID kind detail now]) (acme d)
                (last_account d) (last_order d) id (last_acme d) (works d))
    else (Err ErrConstraint, d)).

(** The newest events first: identifiers grow along the list. *)
Definition Events (orderID limit : Z) : DB -> res dberr (list Event) * DB :=
  let limit := if limit <=? 0 then 50 else limit in
  execute (fun d =>
    (Ok (take (Z.to_nat limit) (reverse (filter (fun e => e_order e = orderID) (events d)))), d)).

(** ** ACME accounts (acmeaccount.go) *)

Definition acme_of (ca email : bytes) (m : gmap Z ACMEAccount) : option ACMEAccount :=
  snd <$> find (fun kv => bool_decide (am_CA kv.2 = ca) && bool_decide (am_Email kv.2 = email)) (map_to_list m).

Definition Find (ca email : bytes) : DB -> res dberr ACMEAccount * DB :=
  execute (fun d => match acme_of ca email (acme d) with
                    | Some a => (Ok a, d)
                    | None => (Err (ErrNoAccount ca email), d)
                    end).

Definition newest_acme (a b : ACMEAccount) : Prop := am_ID b <= am_ID a.
#[export] Instance newest_acme_dec a b : Decision (newest_acme a b) := Z_le_dec _ _.

Definition FindEAB (ca : bytes) : DB -> res dberr (bytes * bytes) * DB :=
  execute (fun d =>
    match merge_sort newest_acme (filter (fun a => am_CA a = ca /\ am_EABKeyID a <> []) (map_to_list (acme d)).*2) with
    | a :: _ => (Ok (am_EABKeyID a, am_EABHMAC a), d)
    | [] => (Err (ErrNoAccount ca []), d)
    end).

(** The upsert of [Save]: an empty key or registration keeps the stored one. *)
Definition Save (now : Z) (a : ACMEAccount) : DB -> res dberr ACMEAccount * DB :=
  execute (fun d =>
    match acme_of (am_CA a) (am_Email a) (acme d) with
    | Some old =>
        let row := MkACMEAccount (am_ID old) (am_CA a) (am_Email a)
          (match am_PrivateKey a with [] => am_PrivateKey old | k => k end)
          (match am_Registration a with [] => am_Registration old | r => r end)
          (am_EABKeyID a) (am_EABHMAC a) (am_CreatedAt old) in
        (Ok (MkACMEAccount (am_ID old) (am_CA a) (am_Email a) (am_PrivateKey a) (am_Registration a)
               (am_EABKeyID a) (am_EABHMAC a) (am_CreatedAt old)),
         set_acme (<[am_ID old := row]> (acme d)) d)
    | None =>
        let id := last_acme d + 1 in
        let row := MkACMEAccount id (am_CA a) (am_Email a) (am_PrivateKey a) (am_Registration a)
          (am_EABKeyID a) (am_EABHMAC a) now in
        (Ok row, MkDB (accounts d) (orders d) (events d) (<[id := row]> (acme d)) (last_account d) (last_order d)
                   (last_event d) id (works d))
    end).

(** ** What the operations touch *)

(** Equal but for which statements will work. *)
Definition same_tables (d d' : DB) : Prop :=
  accounts d' = accounts d /\ orders d' = orders d /\ events d' = events d /\ acme d' = acme d
  /\ last_account d' = last_account d /\ last_order d' = last_order d /\ last_event d' = last_event d
  /\ last_acme d' = last_acme d.

#[export] Instance same_tables_refl : Reflexive same_tables.
Proof. done. Qed.

#[export] Instance same_tables_trans : Transitive same_tables.
Proof. intros a b c. unfold same_tables. intuition congruence. Qed.

Lemma statement_same d b d' : statement d = (b, d') -> same_tables d d' /\ works d' = drop 1 (works d).
Proof.
  unfold statement. destruct (works d) as [|w ws] eqn:E; intros [= <- <-]; [|done]. by rewrite E.
Qed.

(** A statement failed without a trace, or did what it does. *)
Lemma execute_cases {A} (f : DB -> res dberr A * DB) d r d' :
  execute f d = (r, d') ->
  (r = Err ErrSQL /\ same_tables d d') \/ exists d0, same_tables d d0 /\ works d0 = drop 1 (works d) /\ f d0 = (r, d').
Proof.
  unfold execute. destruct (statement d) as [ok d0] eqn:E. apply statement_same in E as [Hs Hw].
  destruct ok; intros Hr; [right; by exists d0|left]. by simplify_eq.
Qed.

Lemma execute_works {A} (f : DB -> res dberr A * DB) d : works d = [] -> execute f d = f d.
Proof. unfold execute, statement. by intros ->. Qed.

(** A statement that only reads. *)
Lemma read_same {A} (f : DB -> res dberr A) d r d' : execute (fun d => (f d, d)) d = (r, d') -> same_tables d d'.
Proof. intros [[_ ?]|(d0 & ? & _ & [= _ <-])]%execute_cases; done. Qed.

Lemma Accounts_Get_same id d r d' : Accounts_Get id d = (r, d') -> same_tables d d'.
Proof.
  unfold Accounts_Get. intros [[_ ?]|(d0 & ? & _ & E)]%execute_cases; [done|].
  destruct (accounts d0 !! id); by simplify_eq.
Qed.

Lemma Orders_Get_spec id d r d' :
  Orders_Get id d = (r, d') ->
  same_tables d d' /\ forall o, r = Ok o -> exists row, orders d !! id = Some row /\ o = scanOrder id row.
Proof.
  unfold Orders_Get. intros [[-> ?]|(d0 & Hs & _ & E)]%execute_cases; [done|].
  assert (orders d0 = orders d) as Ho by apply Hs. rewrite Ho in E.
  destruct (orders d !! id) as [row|]; simplify_eq; (split; [done|]); [|done]. intros o [= <-]. eauto.
Qed.

Lemma Find_spec ca email d r d' :
  Find ca email d = (r, d') -> same_tables d d' /\ forall a, r = Ok a -> acme_of ca email (acme d) = Some a.
Proof.
  unfold Find. intros [[-> ?]|(d0 & Hs & _ & E)]%execute_cases; [done|].
  assert (acme d0 = acme d) as Ho by apply Hs. rewrite Ho in E.
  destruct (acme_of ca email (acme d)) as [a|]; simplify_eq; (split; [done|]); [|done]. by intros a' [= <-].
Qed.

Lemma FindEAB_same ca d r d' : FindEAB ca d = (r, d') -> same_tables d d'.
Proof.
  unfold FindEAB. intros [[_ ?]|(d0 & ? & _ & E)]%execute_cases; [done|].
  destruct (merge_sort _ _); by simplify_eq.
Qed.

Lemma update_order_spec id f d r d' :
  update_order id f d = (r, d') ->
  same_tables d d' /\ is_ok r = false
  \/ exists row, r = Ok tt /\ orders d !! id = Some row /\ same_tables (set_orders (<[id := f row]> (orders d)) d) d'.
Proof.
  unfold update_order. intros [[-> ?]|(d0 & Hs & _ & E)]%execute_cases; [by left|].
  assert (orders d0 = orders d) as Ho by apply Hs. rewrite Ho in E.
  destruct (orders d !! id) as [row|]; simplify_eq; [right|left; done].
  exists row. split_and!; [done..|]. unfold same_tables in *. simpl. tauto.
Qed.

Lemma AppendEvent_spec now id kind detail d r d' :
  AppendEvent now id kind detail d = (r, d') ->
  same_tables d d'
  \/ is_Some (orders d !! id) /\ exists e, e_order e = id /\ e_Kind e = kind
       /\ accounts d' = accounts d /\ orders d' = orders d /\ events d' = events d ++ [e] /\ acme d' = acme d
       /\ last_account d' = last_account d /\ last_order d' = last_order d /\ last_acme d' = last_acme d.
Proof.
  unfold AppendEvent. intros [[-> ?]|(d0 & Hs & _ & E)]%execute_cases; [by left|].
  destruct Hs as (H1 & H2 & H3 & H4 & H5 & H6 & H7 & H8). rewrite H2 in E. case_bool_decide as Hi; simplify_eq.
  - right. split; [done|]. exists (MkEvent (last_event d0 + 1) id kind detail now). cbn. rewrite ?H1, ?H2, ?H3, ?H4, ?H5, ?H6, ?H8. by split_and!.
  - left. unfold same_tables. auto 10.
Qed.

(** ** Rows of the ACME accounts *)

(** One row at most for an authority and an address, under its identifier. *)
Definition acme_ok (d : DB) : Prop :=
  (forall k a, acme d !! k = Some a -> am_ID a = k /\ k <= last_acme d)
  /\ (forall k1 k2 a1 a2, acme d !! k1 = Some a1 -> acme d !! k2 = Some a2 ->
        am_CA a1 = am_CA a2 -> am_Email a1 = am_Email a2 -> k1 = k2).

Lemma acme_of_Some ca email m a :
  acme_of ca email m = Some a -> am_CA a = ca /\ am_Email a = email /\ exists k, m !! k = Some a.
Proof.
  unfold acme_of. intros ([k x] & Hf & ->)%fmap_Some. apply find_some in Hf as [Hin Hb].
  cbn [snd] in *. bool_facts. split_and!; [done..|]. exists k. by apply elem_of_map_to_list, list_elem_of_In.
Qed.

Lemma acme_of_None ca email m :
  acme_of ca email m = None -> forall k a, m !! k = Some a -> ~ (am_CA a = ca /\ am_Email a = email).
Proof.
  unfold acme_of. intros Hn%fmap_None k a Hk [Hc He].
  pose proof (find_none _ _ Hn (k, a)) as Hf. cbn [snd] in Hf.
  rewrite !bool_decide_eq_true_2 in Hf by done. enough (true = false) by done.
  apply Hf. by apply list_elem_of_In, elem_of_map_to_list.
Qed.

Lemma acme_of_unique d k a ca email :
  acme_ok d -> acme d !! k = Some a -> am_CA a = ca -> am_Email a = email -> acme_of ca email (acme d) = Some a.
Proof.
  intros [_ Hu] Hk <- <-. destruct (acme_of (am_CA a) (am_Email a) (acme d)) as [b|] eqn:E.
  - apply acme_of_Some in E as (Hc & He & k' & Hk'). assert (k' = k) as -> by by eapply Hu. congruence.
  - by destruct (acme_of_None _ _ _ E k a Hk).
Qed.

(** What [Save] leaves under an authority and an address. *)
Definition saved_row (old : option ACMEAccount) (a row : ACMEAccount) : Prop :=
  am_CA row = am_CA a /\ am_Email row = am_Email a /\ am_EABKeyID row = am_EABKeyID a /\ am_EABHMAC row = am_EABHMAC a
  /\ am_PrivateKey row = match am_PrivateKey a with [] => default [] (am_PrivateKey <$> old) | k => k end
  /\ am_Registration row = match am_Registration a with [] => default [] (am_Registration <$> old) | r => r end.

Lemma Save_spec now a d r d' :
  acme_ok d -> Save now a d = (r, d') ->
  acme_ok d' /\ accounts d' = accounts d /\ orders d' = orders d /\ events d' = events d
  /\ last_account d' = last_account d /\ last_order d' = last_order d
  /\ (is_ok r = false /\ acme d' = acme d
      \/ is_ok r = true /\ exists row, saved_row (acme_of (am_CA a) (am_Email a) (acme d)) a row
           /\ acme_of (am_CA a) (am_Email a) (acme d') = Some row).
Proof.
  intros Hok. unfold Save. intros [[-> Hs]|(d0 & Hs & _ & E)]%execute_cases.
  { destruct Hs as (H1 & H2 & H3 & H4 & H5 & H6 & H7 & H8). unfold acme_ok in *. rewrite H4, H8. split; [done|]. do 5 (split; [done|]). by left. }
  destruct Hs as (H1 & H2 & H3 & H4 & H5 & H6 & H7 & H8). rewrite H4 in E.
  assert (Hok0 : acme_ok d0) by (unfold acme_ok in *; by rewrite H4, H8).
  destruct (acme_of (am_CA a) (am_Email a) (acme d)) as [old|] eqn:Ho; simplify_eq; cbn.
  - pose proof (acme_of_Some _ _ _ _ Ho) as (Hc & He & k & Hk). destruct Hok as [Hid Hu].
    destruct (Hid _ _ Hk) as [-> Hle].
    match goal with |- acme_ok ?d /\ _ => assert (Hok' : acme_ok d) end.
    { split; cbn.
      - intros k' x [[<- <-]|[Hne Hx]]%lookup_insert_Some; [cbn; lia|]. rewrite H8. by apply Hid.
      - intros k1 k2 a1 a2 [[<- <-]|[N1 L1]]%lookup_insert_Some [[<- <-]|[N2 L2]]%lookup_insert_Some; cbn; [done|..].
        + intros E1 E2. eapply Hu; [exact Hk|done|congruence..].
        + intros E1 E2. eapply Hu; [done|exact Hk|congruence..].
        + by eapply Hu. }
    split_and!; [done|done..|]. right. split; [done|].
    eexists. split; [|by eapply (acme_of_unique _ k _ _ _ Hok'); [apply lookup_insert_eq|..]]. by split_and!.
  - destruct Hok as [Hid Hu].
    match goal with |- acme_ok ?d /\ _ => assert (Hok' : acme_ok d) end.
    { split; cbn; rewrite ?H8.
      - intros k' x [[<- <-]|[Hne Hx]]%lookup_insert_Some; [cbn; lia|]. destruct (Hid _ _ Hx). lia.
      - intros k1 k2 a1 a2 [[<- <-]|[N1 L1]]%lookup_insert_Some [[<- <-]|[N2 L2]]%lookup_insert_Some; cbn; [done|..].
        + intros E1 E2. by destruct (acme_of_None _ _ _ Ho _ _ L2).
        + intros E1 E2. by destruct (acme_of_None _ _ _ Ho _ _ L1).
        + by eapply Hu. }
    split_and!; [done|done..|]. right. split; [done|].
    eexists. split; [|by eapply (acme_of_unique _ (last_acme d0 + 1) _ _ _ Hok'); [apply lookup_insert_eq|..]]. cbn.
    split_and!; try done; by case_match.
Qed.

(** ** What creating and deleting does *)

Lemma name_taken_false id name m :
  name_taken id name m = false <-> forall k a, m !! k = Some a -> acc_Name a = name -> k = id.
Proof.
  unfold name_taken. rewrite <- not_true_iff_false, existsb_exists. split.
  - intros Hn k a Hk Ha. destruct (decide (k = id)) as [|Hne]; [done|]. destruct Hn. exists (k, a).
    split; [by apply list_elem_of_In, elem_of_map_to_list|]. cbn.
    by rewrite bool_decide_eq_true_2, (proj2 (Z.eqb_neq k id) Hne).
  - intros Hn ([k a] & Hin & Hb). cbn in Hb. bool_facts. apply list_elem_of_In, elem_of_map_to_list in Hin.
    destruct H. by apply (Hn k a).
Qed.

Lemma Accounts_Create_spec now a d r d' :
  Accounts_Create now a d = (r, d') ->
  same_tables d d' \/ exists a', let id := last_account d + 1 in
    acc_ID a' = id /\ acc_Name a' = acc_Name a /\ acc_Provider a' = acc_Provider a
    /\ acc_Credentials a' = acc_Credentials a /\ r = Ok a'
    /\ (forall k b, accounts d !! k = Some b -> acc_Name b = acc_Name a -> k = id)
    /\ accounts d' = <[id := a']> (accounts d) /\ last_account d' = id
    /\ orders d' = orders d /\ events d' = events d /\ acme d' = acme d
    /\ last_order d' = last_order d /\ last_acme d' = last_acme d.
Proof.
  unfold Accounts_Create. intros [[-> ?]|(d0 & Hs & _ & E)]%execute_cases; [by left|].
  destruct Hs as (H1 & H2 & H3 & H4 & H5 & H6 & H7 & H8). rewrite H1, H5 in E.
  destruct (name_taken _ _ _) eqn:En; simplify_eq; [left; by unfold same_tables|right].
  exists (MkAccount (last_account d + 1) (acc_Name a) (acc_Provider a) (acc_Credentials a) now now). cbn.
  split_and!; try done; try congruence. by apply name_taken_false.
Qed.

Lemma Accounts_Update_spec now a d r d' :
  Accounts_Update now a d = (r, d') ->
  same_tables d d' \/ exists old a', accounts d !! acc_ID a = Some old
    /\ acc_ID a' = acc_ID a /\ acc_Name a' = acc_Name a
    /\ (forall k b, accounts d !! k = Some b -> acc_Name b = acc_Name a -> k = acc_ID a)
    /\ same_tables (set_accounts (<[acc_ID a := a']> (accounts d)) d) d'.
Proof.
  unfold Accounts_Update. intros [[-> ?]|(d0 & Hs & _ & E)]%execute_cases; [by left|].
  pose proof Hs as (H1 & H2 & H3 & H4 & H5 & H6 & H7 & H8). rewrite H1 in E.
  destruct (accounts d !! acc_ID a) as [old|] eqn:Ea; simplify_eq; [|by left].
  destruct (name_taken _ _ _) eqn:En; simplify_eq; [by left|right].
  exists old, (MkAccount (acc_ID a) (acc_Name a) (acc_Provider a) (acc_Credentials a) (acc_CreatedAt old) now).
  do 3 (split; [done|]). split; [by apply name_taken_false|]. unfold same_tables. cbn. by split_and!.
Qed.

Lemma Accounts_Delete_spec id d r d' :
  Accounts_Delete id d = (r, d') ->
  same_tables d d' \/ r = Ok tt /\ same_tables (set_orders (forget_account id <$> orders d) (set_accounts (delete id (accounts d)) d)) d'.
Proof.
  unfold Accounts_Delete. intros [[-> ?]|(d0 & Hs & _ & E)]%execute_cases; [by left|].
  pose proof Hs as (H1 & H2 & H3 & H4 & H5 & H6 & H7 & H8). rewrite H1, H2 in E.
  destruct (accounts d !! id) as [a|]; simplify_eq; [right|by left]. split; [done|]. unfold same_tables. cbn. by split_and!.
Qed.

Lemma Orders_Create_spec now o d r d' :
  Orders_Create now o d = (r, d') -> o_State o = [] ->
  same_tables d d' /\ is_ok r = false
  \/ exists o', let id := last_order d + 1 in
    r = Ok o' /\ o_ID o' = id
    /\ (forall a, nullableID (o_AccountID o) = Some a -> is_Some (accounts d !! a))
    /\ orders d' = <[id := MkOrderRow (o_Domains o) (o_KeyType o) (o_CA o) (nullableID (o_AccountID o)) (o_Email o)
                             (default true (o_AutoRenew o)) StatePending [] [] [] None None now now]> (orders d)
    /\ last_order d' = id /\ accounts d' = accounts d /\ events d' = events d /\ acme d' = acme d
    /\ last_account d' = last_account d /\ last_acme d' = last_acme d.
Proof.
  unfold Orders_Create. intros [[-> ?]|(d0 & Hs & _ & E)]%execute_cases Hst; [by left|].
  pose proof Hs as (H1 & H2 & H3 & H4 & H5 & H6 & H7 & H8). rewrite H1, H2, H6, Hst in E.
  rewrite bool_decide_eq_true_2 in E by done.
  destruct (nullableID (o_AccountID o)) as [a|] eqn:En.
  - case_bool_decide as Ha; simplify_eq/=; [right|left; by split]. eexists. cbn. split_and!; try done. by intros a' [= <-].
  - simplify_eq/=. right. eexists. cbn. by split_and!.
Qed.

Lemma Orders_Delete_spec id d r d' :
  Orders_Delete id d = (r, d') ->
  same_tables d d'
  \/ same_tables (set_events (filter (fun e => e_order e <> id) (events d)) (set_orders (delete id (orders d)) d)) d'.
Proof.
  unfold Orders_Delete. intros [[-> ?]|(d0 & Hs & _ & E)]%execute_cases; [by left|].
  pose proof Hs as (H1 & H2 & H3 & H4 & H5 & H6 & H7 & H8). rewrite H2, H3 in E.
  destruct (orders d !! id) as [a|]; simplify_eq; [right|by left]. unfold same_tables. cbn. by split_and!.
Qed.
