(* ===== verification/Accounts.v ===== *)
(** DNS accounts: [internal/manage/dns.go] over the table of
    [repo/account.go].

    [reg] is the registry of providers.  The views the interface shows leave the
    secrets out; an update that sends a view back keeps them. *)
From S2P Require Import Prelude GoStrings Schema Dns Storage.

Inductive accounterr : Type :=
  | AccountDB (e : dberr)
  | AccountForm (e : formerr)
  | AccountDns (e : dnserr)
  | NoSuchProvider (key : bytes)
  | NoAccountName.

Record AccountView := MkAccountView {
  v_ID : Z; v_Name : bytes; v_Provider : bytes; v_ProviderLabel : bytes;
  v_Credentials : gmap bytes bytes; v_SecretsSet : list bytes; v_CreatedAt : Z; v_UpdatedAt : Z
}.

Record AccountInput := MkAccountInput {
  in_ID : Z; in_Name : bytes; in_Provider : bytes; in_Credentials : gmap bytes bytes
}.

Section accounts.
Context {I : Type} `{Regexp}.
Variable reg : gmap bytes (registration (I:=I)).

Definition redact (a : Account) : AccountView :=
  match Describe (acc_Provider a) reg with
  | None =>
      MkAccountView (acc_ID a) (acc_Name a) (acc_Provider a) (acc_Provider a)
        ((fun _ => []) <$> acc_Credentials a) [] (acc_CreatedAt a) (acc_UpdatedAt a)
  | Some d =>
      let secret := SecretNames (d_Form d) in
      MkAccountView (acc_ID a) (acc_Name a) (acc_Provider a) (d_Label d)
        (filter (fun kv => kv.1 ∉ secret) (acc_Credentials a))
        (filter (fun name => value_of (acc_Credentials a) name <> []) secret)
        (acc_CreatedAt a) (acc_UpdatedAt a)
  end.

Definition ListAccounts (d : DB) : res accounterr (list AccountView) * DB :=
  let '(r, d) := Accounts_List d in
  (match r with Ok l => Ok (redact <$> l) | Err e => Err (AccountDB e) end, d).

Definition CreateAccount (now : Z) (inp : AccountInput) (d : DB) : res accounterr AccountView * DB :=
  match Describe (in_Provider inp) reg with
  | None => (Err (NoSuchProvider (in_Provider inp)), d)
  | Some desc =>
      if bool_decide (in_Name inp = []) then (Err NoAccountName, d)
      else
        let values := ApplyDefaults (d_Form desc) (in_Credentials inp) in
        match Schema.Validate (d_Form desc) values with
        | Err e => (Err (AccountForm e), d)
        | Ok _ =>
            match Accounts_Create now (MkAccount 0 (in_Name inp) (in_Provider inp) values 0 0) d with
            | (Err e, d) => (Err (AccountDB e), d)
            | (Ok created, d) => (Ok (redact created), d)
            end
        end
  end.

(** A secret left empty, or sent back as the marker, is the stored one. *)
Definition keep_secret (stored values : gmap bytes bytes) (name : bytes) : gmap bytes bytes :=
  if bool_decide (value_of values name = []) || bool_decide (value_of values name = RedactedMarker)
  then <[name := value_of stored name]> values else values.

Definition UpdateAccount (now : Z) (inp : AccountInput) (d : DB) : res accounterr AccountView * DB :=
  match Accounts_Get (in_ID inp) d with
  | (Err e, d) => (Err (AccountDB e), d)
  | (Ok existing, d) =>
      let provider := if bool_decide (in_Provider inp = []) then acc_Provider existing else in_Provider inp in
      match Describe provider reg with
      | None => (Err (NoSuchProvider provider), d)
      | Some desc =>
          let values :=
            if bool_decide (provider = acc_Provider existing)
            then foldl (keep_secret (acc_Credentials existing)) (in_Credentials inp) (SecretNames (d_Form desc))
            else in_Credentials inp in
          let values := ApplyDefaults (d_Form desc) values in
          match Schema.Validate (d_Form desc) values with
          | Err e => (Err (AccountForm e), d)
          | Ok _ =>
              let name := if bool_decide (in_Name inp = []) then acc_Name existing else in_Name inp in
              let updated := MkAccount (in_ID inp) name provider values 0 0 in
              match Accounts_Update now updated d with
              | (Err e, d) => (Err (AccountDB e), d)
              | (Ok _, d) => (Ok (redact updated), d)
              end
          end
      end
  end.

Definition DeleteAccount (id : Z) (d : DB) : res accounterr unit * DB :=
  let '(r, d) := Accounts_Delete id d in (map_err AccountDB r, d).

(** [Service.provider]: the client an account's credentials build. *)
Definition provider (accountID : Z) (d : DB) : res accounterr I * DB :=
  match Accounts_Get accountID d with
  | (Err e, d) => (Err (AccountDB e), d)
  | (Ok a, d) => (map_err AccountDns (New (acc_Provider a) (acc_Credentials a) reg), d)
  end.

Definition AccountCapabilities (accountID : Z) (d : DB) : res accounterr Capabilities * DB :=
  match Accounts_Get accountID d with
  | (Err e, d) => (Err (AccountDB e), d)
  | (Ok a, d) =>
      (match Describe (acc_Provider a) reg with
       | None => Err (NoSuchProvider (acc_Provider a))
       | Some desc => Ok (d_Caps desc)
       end, d)
  end.

(** ** What a view tells *)

(** The accounts differ in the values of their secrets only: the same secrets are set. *)
Definition same_but_secrets (a b : Account) : Prop :=
  acc_ID a = acc_ID b /\ acc_Name a = acc_Name b /\ acc_Provider a = acc_Provider b
  /\ acc_CreatedAt a = acc_CreatedAt b /\ acc_UpdatedAt a = acc_UpdatedAt b
  /\ match Describe (acc_Provider a) reg with
     | None => dom (acc_Credentials a) = dom (acc_Credentials b)
     | Some d => forall k,
         if bool_decide (k ∈ SecretNames (d_Form d))
         then (value_of (acc_Credentials a) k = [] <-> value_of (acc_Credentials b) k = [])
         else acc_Credentials a !! k = acc_Credentials b !! k
     end.

(** What the interface shows of an account does not depend on its secrets,
    only on which of them are set: accounts that differ in nothing else have the
    same view.  Of an account whose provider is unknown no credential is shown
    at all. *)
Theorem redact_hides_secrets a b : same_but_secrets a b -> redact a = redact b.
Proof.
  intros (Hid & Hn & Hp & Hc & Hu & Hs). unfold redact. rewrite <- Hp, Hid, Hn, Hc, Hu.
  destruct (Describe (acc_Provider a) reg) as [d|].
  - f_equal.
    + apply map_eq. intros k. specialize (Hs k). apply option_eq. intros v.
      rewrite !map_lookup_filter_Some. cbn [fst]. case_bool_decide as Hk; [naive_solver|by rewrite Hs].
    + apply list_filter_iff. intros k. specialize (Hs k). case_bool_decide; [tauto|]. unfold value_of. by rewrite Hs.
  - f_equal. apply map_eq. intros k. rewrite !lookup_fmap.
    assert (k ∈ dom (acc_Credentials a) <-> k ∈ dom (acc_Credentials b)) as Hk by by rewrite Hs.
    rewrite !elem_of_dom in Hk.
    destruct (acc_Credentials a !! k), (acc_Credentials b !! k); simpl; try done; exfalso; destruct Hk as [H1 H2];
      [destruct H1|destruct H2]; eauto; done.
Qed.

(** ** A view sent back *)

Lemma keep_secrets_lookup stored values names k :
  foldl (keep_secret stored) values names !! k
  = if bool_decide (k ∈ names /\ (value_of values k = [] \/ value_of values k = RedactedMarker))
    then Some (value_of stored k) else values !! k.
Proof.
  revert values; induction names as [|n names IH]; intros values; cbn [foldl].
  - rewrite bool_decide_eq_false_2; [done|]. set_solver.
  - rewrite IH. unfold keep_secret.
    destruct (bool_decide (value_of values n = []) || bool_decide (value_of values n = RedactedMarker)) eqn:E.
    + destruct (decide (k = n)) as [->|Hk].
      * assert (value_of values n = [] \/ value_of values n = RedactedMarker) as Hn.
        { bool_facts. destruct E; bool_facts; auto. }
        rewrite (bool_decide_eq_true_2 (n ∈ n :: names /\ (value_of values n = [] \/ value_of values n = RedactedMarker)))
          by (split; [set_solver|done]).
        rewrite lookup_insert_eq. by case_match.
      * unfold value_of. rewrite lookup_insert_ne by done.
        rewrite (bool_decide_ext (k ∈ names /\ _) (k ∈ n :: names /\ (value_of values k = [] \/ value_of values k = RedactedMarker))); [done|].
        rewrite elem_of_cons. unfold value_of. naive_solver.
    + rewrite (bool_decide_ext (k ∈ names /\ _) (k ∈ n :: names /\ (value_of values k = [] \/ value_of values k = RedactedMarker))); [done|].
      rewrite elem_of_cons. bool_facts. naive_solver.
Qed.

Lemma ApplyDefaults_id f values :
  Forall (fun field => f_Default field <> [] -> is_Some (values !! f_Name field)) f -> ApplyDefaults f values = values.
Proof.
  unfold ApplyDefaults. induction 1 as [|field f Hf _ IH]; [done|]. cbn [foldl].
  assert (default_field values field = values) as ->; [|done].
  unfold default_field. destruct (values !! f_Name field); [done|]. case_bool_decide as Hd; [done|].
  by destruct (Hf Hd).
Qed.

Lemma default_field_keeps values field k : is_Some (values !! k) -> is_Some (default_field values field !! k).
Proof.
  intros Hk. unfold default_field. destruct (values !! f_Name field) eqn:E; [done|].
  case_bool_decide; [done|]. destruct (decide (k = f_Name field)) as [->|]; [rewrite lookup_insert_eq; eauto|].
  by rewrite lookup_insert_ne.
Qed.

Lemma ApplyDefaults_keeps f values k : is_Some (values !! k) -> is_Some (ApplyDefaults f values !! k).
Proof.
  unfold ApplyDefaults. revert values; induction f as [|field f IH]; intros values Hk; cbn [foldl]; [done|].
  by apply IH, default_field_keeps.
Qed.

(** The accounts [CreateAccount] makes have every default of their form. *)
Lemma ApplyDefaults_defaulted f values :
  Forall (fun field => f_Default field <> [] -> is_Some (ApplyDefaults f values !! f_Name field)) f.
Proof.
  unfold ApplyDefaults. revert values; induction f as [|field f IH]; intros values; [constructor|]. cbn [foldl].
  constructor; [|apply IH]. intros Hd. apply ApplyDefaults_keeps. unfold default_field.
  destruct (values !! f_Name field) eqn:E; [eauto|]. rewrite bool_decide_eq_false_2 by done.
  rewrite lookup_insert_eq. eauto.
Qed.

Lemma Visible_ext condition v1 v2 :
  (forall k, value_of v1 k = value_of v2 k) -> Visible condition v1 = Visible condition v2.
Proof.
  intros Hv.
  assert (Hc : forall atom op f l, compare_atom atom op v1 f l = compare_atom atom op v2 f l).
  { intros. unfold compare_atom. by rewrite Hv. }
  assert (Ha : forall atom, evalAtom atom v1 = evalAtom atom v2).
  { intros atom. unfold evalAtom. destruct (Cut _ _) as [[? ?] []]; [done|]. by destruct (Cut _ _) as [[? ?] []]. }
  assert (Ht : forall atoms, all_atoms atoms v1 = all_atoms atoms v2).
  { induction atoms as [|a l IH]; [done|]. cbn [all_atoms]. rewrite Ha. destruct (evalAtom a v2) as [[]|]; simpl; done. }
  unfold Visible. case_bool_decide; [done|]. induction (splitTop _ _) as [|t l IH]; [done|]. cbn [any_term].
  unfold evalTerm. rewrite Ht. destruct (all_atoms _ v2) as [[]|]; simpl; done.
Qed.

Lemma Validate_ext f v1 v2 :
  (forall k, value_of v1 k = value_of v2 k) -> Schema.Validate f v1 = Schema.Validate f v2.
Proof.
  intros Hv. unfold Schema.Validate. induction f as [|field f IH]; [done|]. cbn [first_err].
  assert (validate_field v1 field = validate_field v2 field) as ->; [|by rewrite IH].
  unfold validate_field. by rewrite (Visible_ext _ v1 v2 Hv), Hv.
Qed.

(** Sending back what the interface shows of an account, its secrets left empty
    or as the marker, changes nothing: the stored credentials read as before,
    the secrets among them, and the account shows as before (the view this call
    itself answers has its times zero). *)
Theorem view_sent_back now inp d a desc :
  works d = [] -> accounts d !! in_ID inp = Some a -> acc_ID a = in_ID inp ->
  Describe (acc_Provider a) reg = Some desc ->
  Schema.Validate (d_Form desc) (acc_Credentials a) = Ok tt ->
  Forall (fun field => f_Default field <> [] -> is_Some (acc_Credentials a !! f_Name field)) (d_Form desc) ->
  name_taken (in_ID inp) (acc_Name a) (accounts d) = false ->
  in_Name inp = v_Name (redact a) -> in_Provider inp = v_Provider (redact a) ->
  (forall k, k ∉ SecretNames (d_Form desc) -> in_Credentials inp !! k = v_Credentials (redact a) !! k) ->
  (forall k, k ∈ SecretNames (d_Form desc) -> value_of (in_Credentials inp) k = []
                                          \/ value_of (in_Credentials inp) k = RedactedMarker) ->
  exists a' view d', UpdateAccount now inp d = (Ok view, d') /\ accounts d' = <[in_ID inp := a']> (accounts d)
    /\ (forall k, value_of (acc_Credentials a') k = value_of (acc_Credentials a) k)
    /\ acc_Name a' = acc_Name a /\ acc_Provider a' = acc_Provider a /\ acc_CreatedAt a' = acc_CreatedAt a
    /\ v_SecretsSet view = v_SecretsSet (redact a) /\ v_CreatedAt view = 0.
Proof.
  intros Hw Ha Hid Hdesc Hval Hdef Hname Hn Hp Hpub Hsec.
  unfold redact in Hn, Hp, Hpub. rewrite Hdesc in Hn, Hp, Hpub. cbn in Hn, Hp, Hpub.
  unfold UpdateAccount, Accounts_Get, execute, statement. rewrite Hw, Ha, Hn, Hp.
  assert ((if bool_decide (acc_Provider a = []) then acc_Provider a else acc_Provider a) = acc_Provider a) as -> by by case_bool_decide.
  assert ((if bool_decide (acc_Name a = []) then acc_Name a else acc_Name a) = acc_Name a) as -> by by case_bool_decide.
  rewrite Hdesc, (bool_decide_eq_true_2 (acc_Provider a = acc_Provider a)) by done.
  set (values := foldl (keep_secret (acc_Credentials a)) (in_Credentials inp) (SecretNames (d_Form desc))).
  assert (Hk : forall k, values !! k = if bool_decide (k ∈ SecretNames (d_Form desc))
            then Some (value_of (acc_Credentials a) k) else acc_Credentials a !! k).
  { intros k. unfold values. rewrite keep_secrets_lookup. destruct (decide (k ∈ SecretNames (d_Form desc))) as [Hk|Hk].
    - rewrite !bool_decide_eq_true_2 by auto. done.
    - rewrite !bool_decide_eq_false_2 by tauto. rewrite (Hpub k Hk). apply option_eq. intros v.
      rewrite map_lookup_filter_Some. cbn [fst]. tauto. }
  assert (Hread : forall k, value_of values k = value_of (acc_Credentials a) k).
  { intros k. unfold value_of at 1. rewrite Hk. by case_bool_decide. }
  rewrite ApplyDefaults_id.
  2: { eapply Forall_impl; [exact Hdef|]. intros field Hf Hd. rewrite Hk. case_bool_decide; [eauto|by apply Hf]. }
  rewrite (Validate_ext _ _ _ Hread), Hval. unfold Accounts_Update, execute, statement. rewrite Hw. cbn [acc_ID].
  rewrite Ha. cbn [acc_Name]. rewrite Hname. eexists _, _, _. split; [reflexivity|]. split; [reflexivity|].
  cbn. do 4 (split; [done|]). unfold redact. cbn. rewrite Hdesc. cbn. split; [|done].
  apply list_filter_iff. intros k. by rewrite Hread.
Qed.
End accounts.

(** ** An account of the cloudflare form *)

Definition any_regexp : Regexp := {| Compile _ := Some (fun _ => true) |}.

Definition cloudflare_form : Form :=
  [MkField (go "auth") (go "Authentication") KindSelect true (go "token")
     [MkOption (go "token") [] []; MkOption (go "key") [] []] [] false [];
   MkField (go "token") (go "API token") (go "password") true [] [] (go "auth == 'token'") true [];
   MkField (go "key") (go "API key") (go "password") true [] [] (go "auth == 'key'") true []].

Definition cloudflare : Descriptor :=
  MkDescriptor (go "cloudflare") (go "Cloudflare") cloudflare_form
    (MkCapabilities 1 false false false false true true true 60 [LineDefault]).

Definition example_registry : gmap bytes (registration (I:=unit)) :=
  <[go "cloudflare" := MkRegistration cloudflare (fun _ => Ok tt)]> ∅.

Definition example_account (token : string) : Account :=
  MkAccount 1 (go "home") (go "cloudflare") (<[go "auth" := go "token"]> {[go "token" := go token]}) 5 5.

Definition example_db : DB := MkDB {[1 := example_account "s3cret"]} ∅ [] ∅ 1 0 0 0 [].

Definition example_input : AccountInput :=
  MkAccountInput 1 (go "home") (go "cloudflare") (<[go "auth" := go "token"]> {[go "token" := RedactedMarker]}).

Lemma cloudflare_secrets : SecretNames (d_Form cloudflare) = [go "key"; go "token"].
Proof. by vm_compute. Qed.

(** Beside its secrets the account holds one value. *)
Lemma example_credentials token k :
  k <> go "token" ->
  (<[go "auth" := go "token"]> {[go "token" := token]} : gmap bytes bytes) !! k
  = if bool_decide (k = go "auth") then Some (go "token") else None.
Proof.
  intros Hk. case_bool_decide as Ha; [subst k; by rewrite lookup_insert_eq|].
  by rewrite lookup_insert_ne, lookup_singleton_ne by done.
Qed.

Lemma redact_hides_secrets_witness :
  redact example_registry (example_account "s3cret") = redact example_registry (example_account "other").
Proof.
  apply redact_hides_secrets. do 5 (split; [done|]).
  change (Describe (acc_Provider (example_account "s3cret")) example_registry) with (Some cloudflare).
  cbv iota. rewrite cloudflare_secrets. intros k. case_bool_decide as Hk.
  - apply elem_of_cons in Hk as [->|Hk%list_elem_of_singleton]; [by vm_compute|subst k; by vm_compute].
  - cbn [acc_Credentials example_account]. rewrite !example_credentials; [done|set_solver..].
Defined.

Lemma view_sent_back_witness :
  exists a' view d', UpdateAccount (H:=any_regexp) example_registry 9 example_input example_db = (Ok view, d')
    /\ accounts d' = <[1 := a']> (accounts example_db)
    /\ value_of (acc_Credentials a') (go "token") = go "s3cret".
Proof.
  destruct (view_sent_back (H:=any_regexp) example_registry 9 example_input example_db (example_account "s3cret")
    cloudflare) as (a' & v & d' & H1 & H2 & H3 & _).
  - done.
  - done.
  - done.
  - done.
  - by vm_compute.
  - apply Forall_cons. split; [by exists (go "token")|]. repeat constructor; by intros [].
  - by vm_compute.
  - done.
  - done.
  - rewrite cloudflare_secrets. intros k Hk. unfold redact.
    change (Describe (acc_Provider (example_account "s3cret")) example_registry) with (Some cloudflare).
    cbn [v_Credentials]. rewrite cloudflare_secrets. apply option_eq. intros v.
    rewrite map_lookup_filter_Some. cbn [fst in_Credentials example_input acc_Credentials example_account].
    rewrite !example_credentials by set_solver. tauto.
  - rewrite cloudflare_secrets. intros k [->|Hk%list_elem_of_singleton]%elem_of_cons; [|subst k]; vm_compute; auto.
  - exists a', v, d'. split_and!; [done..|]. rewrite H3. by vm_compute.
Defined.
