(* ===== verification/Cert.v ===== *)
(** Certificates: [internal/cert] (certificate.go, keytype.go, issuer.go,
    renewer.go, dns01.go).

    A [time.Time] is its nanoseconds since the zero time.  PEM, X.509, the keys
    and the JSON of a registration are the standard library's and the ACME
    client is lego's: classes [CertText] and [Acme].  The operations of [Acme]
    run in a world [W], which holds the directories, their accounts and whatever
    the challenge solvers touch. *)
From S2P Require Import Prelude GoStrings.
From Stdlib Require Import Floats.SpecFloat.

(** ** Time *)

Definition IsZero (t : Z) : bool := t =? 0.
(** [Time.Unix] of a time after 1970. *)
Definition Unix (t : Z) : Z := t / Second - 62135596800.

(** [float64] of an [int64], and the operations the code uses, rounding to nearest even. *)
Definition f64_of_Z (z : Z) : spec_float := binary_normalize 53 1024 z 0 false.
Definition f64_add : spec_float -> spec_float -> spec_float := SFadd 53 1024.
Definition f64_div : spec_float -> spec_float -> spec_float := SFdiv 53 1024.
(** [int(x)] truncates. *)
Definition f64_trunc (x : spec_float) : Z :=
  match x with
  | S754_finite s m e => (if s then Z.opp else id) (if 0 <=? e then Z.shiftl (Zpos m) e else Z.shiftr (Zpos m) (- e))
  | _ => 0
  end.

(** [Duration.Hours]. *)
Definition Hours (d : Z) : spec_float :=
  f64_add (f64_of_Z (godiv d Hour)) (f64_div (f64_of_Z (Z.rem d Hour)) (f64_of_Z 3600000000000)).

(** ** Certificates (certificate.go) *)

Record leaf := MkLeaf {
  l_NotBefore : Z; l_NotAfter : Z; l_CommonName : bytes; l_Serial : bytes; l_DNSNames : list bytes
}.

Class CertText := {
  pem_Decode : bytes -> option (bytes * bytes);
  x509_ParseCertificate : bytes -> option leaf
}.

Record Certificate := MkCertificate {
  Domains : list bytes; FullchainPEM : bytes; PrivateKeyPEM : bytes;
  IssuedAt : Z; NotAfter : Z; Issuer : bytes; SerialNumber : bytes
}.

(** An answer of an ACME directory that is an error, with its HTTP status if it is a problem document. *)
Record acmeerr := MkAcmeErr { http_status : option Z; acme_text : bytes }.

Inductive certerr : Type :=
  | ErrNoPEM
  | ErrNotCertificate (kind : bytes)
  | ErrParseLeaf
  | ErrNoDomains
  | ErrWildcardNeedsDNS (wildcards : list bytes)
  | ErrNoChallenge
  | ErrUnknownCA (value : bytes)
  | ErrNoAccountSupplied
  | ErrAccountKey
  | ErrKeyType (k : bytes)
  | ErrClient (e : acmeerr)
  | ErrConfigure (e : acmeerr)
  | ErrNeedsEAB (ca : bytes)
  | ErrRegister (ca : bytes) (e : acmeerr)
  | ErrRegistration
  | ErrObtain (domains : list bytes) (e : acmeerr)
  | ErrCancelled
  | ErrSolver (text : bytes)
  | ErrWildcardNoAccount
  | ErrInstall (text : bytes)
  | ErrStore (text : bytes).

Definition Leaf `{CertText} (fullchain : bytes) : res certerr leaf :=
  match pem_Decode fullchain with
  | None => Err ErrNoPEM
  | Some (kind, der) =>
      if negb (bool_decide (kind = go "CERTIFICATE")) then Err (ErrNotCertificate kind)
      else match x509_ParseCertificate der with Some l => Ok l | None => Err ErrParseLeaf end
  end.

Definition Populate `{CertText} (c : Certificate) : res certerr Certificate :=
  l ← Leaf (FullchainPEM c);
  Ok (MkCertificate (match Domains c with [] => l_DNSNames l | ds => ds end) (FullchainPEM c) (PrivateKeyPEM c)
        (l_NotBefore l) (l_NotAfter l) (l_CommonName l) (l_Serial l)).

Definition days_between (t now : Z) : Z := f64_trunc (f64_div (Hours (time_Sub t now)) (f64_of_Z 24)).
Definition DaysRemaining (now : Z) (c : Certificate) : Z := days_between (NotAfter c) now.

Definition NeedsRenewal (now threshold : Z) (c : Certificate) : bool :=
  if IsZero (NotAfter c) then true else DaysRemaining now c <=? threshold.

Definition matchesName (pattern host : bytes) : bool :=
  if bool_decide (pattern = host) then true
  else if negb (HasPrefix pattern (go "*.")) then false
  else
    let suffix := drop 1 pattern in
    if negb (HasSuffix host suffix) then false
    else
      let prefix := take (length host - length suffix) host in
      negb (bool_decide (prefix = [])) && negb (Contains prefix (go ".")).

Section names.
Context `{Unicode}.

Definition Covers `{CertText} (c : Certificate) (host : bytes) : bool :=
  match Leaf (FullchainPEM c) with
  | Err _ => false
  | Ok l =>
      let host := ToLower (TrimSuffix host (go ".")) in
      existsb (fun name => matchesName (ToLower name) host) (l_DNSNames l)
  end.

Definition normal_name (domain : bytes) : bytes := ToLower (TrimSuffix (TrimSpace domain) (go ".")).

(** One turn of the loop of [NormaliseDomains]: the seen names and the output. *)
Definition normalise_step (acc : gset bytes * list bytes) (domain : bytes) : gset bytes * list bytes :=
  let domain := normal_name domain in
  if bool_decide (domain = []) then acc
  else if bool_decide (domain ∈ acc.1) then acc
  else ({[domain]} ∪ acc.1, acc.2 ++ [domain]).

Definition NormaliseDomains (domains : list bytes) : list bytes :=
  SortStrings (foldl normalise_step (∅, []) domains).2.
End names.

Definition is_wildcard (domain : bytes) : bool := HasPrefix domain (go "*.").
Definition NeedsDNSChallenge (domains : list bytes) : bool := existsb is_wildcard domains.

(** ** Key types (keytype.go) *)

Definition KeyRSA2048 : bytes := go "rsa2048".
Definition KeyRSA3072 : bytes := go "rsa3072".
Definition KeyRSA4096 : bytes := go "rsa4096".
Definition KeyECDSA256 : bytes := go "ec256".
Definition KeyECDSA384 : bytes := go "ec384".

Definition KeyTypes : list bytes := [KeyECDSA256; KeyECDSA384; KeyRSA2048; KeyRSA3072; KeyRSA4096].

Definition Valid (k : bytes) : bool :=
  bool_decide (k ∈ [KeyRSA2048; KeyRSA3072; KeyRSA4096; KeyECDSA256; KeyECDSA384]).

Definition KeyLabel (k : bytes) : bytes :=
  if bool_decide (k = KeyRSA2048) then go "RSA 2048"
  else if bool_decide (k = KeyRSA3072) then go "RSA 3072"
  else if bool_decide (k = KeyRSA4096) then go "RSA 4096"
  else if bool_decide (k = KeyECDSA256) then go "ECDSA P-256"
  else if bool_decide (k = KeyECDSA384) then go "ECDSA P-384"
  else k.

(** lego's names of the key types. *)
Inductive lego_key : Type := RSA2048 | RSA3072 | RSA4096 | EC256 | EC384.

Definition legoKeyType (k : bytes) : res certerr lego_key :=
  if bool_decide (k = KeyRSA2048) then Ok RSA2048
  else if bool_decide (k = KeyRSA3072) then Ok RSA3072
  else if bool_decide (k = KeyRSA4096) then Ok RSA4096
  else if bool_decide (k = KeyECDSA256) || bool_decide (k = []) then Ok EC256
  else if bool_decide (k = KeyECDSA384) then Ok EC384
  else Err (ErrKeyType k).

(** ** Authorities (issuer.go) *)

Record CA := MkCA { ca_Key : bytes; ca_Label : bytes; ca_Directory : bytes; RequiresEAB : bool }.

Definition CAs : list CA :=
  [MkCA (go "letsencrypt") (go "Let's Encrypt") (go "https://acme-v02.api.letsencrypt.org/directory") false;
   MkCA (go "letsencrypt-staging") (go "Let's Encrypt (staging)")
     (go "https://acme-staging-v02.api.letsencrypt.org/directory") false;
   MkCA (go "zerossl") (go "ZeroSSL") (go "https://acme.zerossl.com/v2/DV90") true;
   MkCA (go "google") (go "Google Trust Services") (go "https://dv.acme-v02.api.pki.goog/directory") true].

Definition LookupCA (key : bytes) : option CA := find (fun ca => bool_decide (ca_Key ca = key)) CAs.

Definition resolveCA (value : bytes) : res certerr CA :=
  let value := if bool_decide (value = []) then go "letsencrypt" else value in
  if HasPrefix value (go "http://") || HasPrefix value (go "https://") then
    match find (fun ca => bool_decide (ca_Directory ca = value)) CAs with
    | Some ca => Ok ca
    | None => Ok (MkCA value value value false)
    end
  else match LookupCA value with Some ca => Ok ca | None => Err (ErrUnknownCA value) end.

(** ** Accounts (issuer.go) *)

(** A [registration.Resource]: lego needs its URI. *)
Record resource := MkResource { URI : bytes; res_body : bytes }.

Record AcmeAccount (Key : Type) := MkAcmeAccount {
  Email : bytes; PrivateKey : bytes; Registration : bytes; EABKeyID : bytes; EABHMAC : bytes;
  key : option Key; registration : option resource
}.
Arguments MkAcmeAccount {Key} _ _ _ _ _ _ _.
Arguments Email {Key} _.
Arguments PrivateKey {Key} _.
Arguments Registration {Key} _.
Arguments EABKeyID {Key} _.
Arguments EABHMAC {Key} _.
Arguments key {Key} _.
Arguments registration {Key} _.

(** The two kinds of solvers. *)
Inductive solver (D H : Type) : Type :=
  | DNS01 (d : D)
  | HTTP01 (h : H).
Arguments DNS01 {D H} _.
Arguments HTTP01 {D H} _.

(** A [lego.Client]: the account it signs with, its directory, the key type of
    the certificates it orders. *)
Record client (Key : Type) := MkClient { cl_account : AcmeAccount Key; cl_dir : bytes; cl_keytype : lego_key }.
Arguments MkClient {Key} _ _ _.
Arguments cl_account {Key} _.
Arguments cl_dir {Key} _.
Arguments cl_keytype {Key} _.

Record ObtainRequest := MkObtain { or_Domains : list bytes; or_Bundle : bool; or_PreferredChain : bytes }.

(** lego, and the keys and JSON it is used with. *)
Class Acme (Key D H W : Type) := {
  ParseECPrivateKey : bytes -> option Key;
  GenerateKey : W -> option Key * W;
  MarshalECPrivateKey : Key -> option bytes;
  UnmarshalResource : bytes -> option resource;
  MarshalResource : resource -> bytes;
  NewClient : client Key -> W -> res acmeerr unit * W;
  SetProvider : solver D H -> client Key -> W -> res acmeerr unit * W;
  Register : client Key -> W -> res acmeerr resource * W;
  RegisterEAB : bytes -> bytes -> client Key -> W -> res acmeerr resource * W;
  Obtain : solver D H -> client Key -> ObtainRequest -> W -> res acmeerr (bytes * bytes) * W
}.

Record IssueRequest (D H : Type) := MkIssueRequest {
  ir_Domains : list bytes; ir_CA : bytes; ir_KeyType : bytes;
  ir_Solver : option D; ir_HTTPSolver : option H; ir_PreferredChain : bytes
}.
Arguments MkIssueRequest {D H} _ _ _ _ _ _.
Arguments ir_Domains {D H} _.
Arguments ir_CA {D H} _.
Arguments ir_KeyType {D H} _.
Arguments ir_Solver {D H} _.
Arguments ir_HTTPSolver {D H} _.
Arguments ir_PreferredChain {D H} _.

Definition obtainAttempts : nat := 4.
Definition obtainRetryDelay : Z := 20 * Second.

Definition transientACME (e : acmeerr) : bool :=
  match http_status e with
  | Some s => bool_decide (s ∈ [429; 500; 502; 503; 504])
  | None => false
  end.

Section issuer.
Context {Key D H W : Type} `{U : Unicode} `{X : CertText} `{Lego : Acme Key D H W}.

Abbreviation account := (AcmeAccount Key).

Definition with_registration (raw : bytes) (r : option resource) (a : account) : account :=
  MkAcmeAccount (Email a) (PrivateKey a) raw (EABKeyID a) (EABHMAC a) (key a) r.

Definition LoadRegistration (raw : bytes) (a : account) : res certerr account :=
  match raw with
  | [] => Ok a
  | _ =>
      match UnmarshalResource raw with
      | None => Err ErrRegistration
      | Some r => if bool_decide (URI r = []) then Ok a else Ok (with_registration raw (Some r) a)
      end
  end.

Definition MarshalRegistration (a : account) : bytes :=
  match registration a with None => Registration a | Some r => MarshalResource r end.

Definition with_key (pem : bytes) (k : Key) (a : account) : account :=
  MkAcmeAccount (Email a) pem (Registration a) (EABKeyID a) (EABHMAC a) (Some k) (registration a).

Definition ensureKey (a : account) (w : W) : res certerr unit * account * W :=
  match key a with
  | Some _ => (Ok tt, a, w)
  | None =>
      match PrivateKey a with
      | _ :: _ =>
          match pem_Decode (PrivateKey a) with
          | None => (Err ErrAccountKey, a, w)
          | Some (_, der) =>
              match ParseECPrivateKey der with
              | None => (Err ErrAccountKey, a, w)
              | Some k => (Ok tt, with_key (PrivateKey a) k a, w)
              end
          end
      | [] =>
          match GenerateKey w with
          | (None, w) => (Err ErrAccountKey, a, w)
          | (Some k, w) =>
              match MarshalECPrivateKey k with
              | None => (Err ErrAccountKey, with_key [] k a, w)
              | Some pem => (Ok tt, with_key pem k a, w)
              end
          end
      end
  end.

Definition register (cl : client Key) (ca : CA) (a : account) (w : W) : res certerr account * W :=
  match registration a with
  | Some _ => (Ok a, w)
  | None =>
      if RequiresEAB ca then
        if bool_decide (EABKeyID a = []) || bool_decide (EABHMAC a = []) then (Err (ErrNeedsEAB (ca_Label ca)), w)
        else match RegisterEAB (EABKeyID a) (EABHMAC a) cl w with
             | (Err e, w) => (Err (ErrRegister (ca_Label ca) e), w)
             | (Ok r, w) => (Ok (with_registration (Registration a) (Some r) a), w)
             end
      else match Register cl w with
           | (Err e, w) => (Err (ErrRegister (ca_Label ca) e), w)
           | (Ok r, w) => (Ok (with_registration (Registration a) (Some r) a), w)
           end
  end.

(** The loop of [obtain] with [n] attempts left, numbered from [attempt];
    [cancelled i] tells whether the context ends during the wait after attempt
    [i].  The waits are answered too. *)
Fixpoint obtain_loop (cancelled : nat -> bool) (sol : solver D H) (cl : client Key) (request : ObtainRequest)
  (n attempt : nat) (lastErr : certerr) (w : W) : res certerr (bytes * bytes) * list Z * W :=
  match n with
  | O => (Err lastErr, [], w)
  | S n =>
      match Obtain sol cl request w with
      | (Ok r, w) => (Ok r, [], w)
      | (Err e, w) =>
          let lastErr := ErrObtain (or_Domains request) e in
          if negb (transientACME e) || (attempt =? obtainAttempts)%nat then (Err lastErr, [], w)
          else
            let wait := Z.of_nat attempt * obtainRetryDelay in
            if cancelled attempt then (Err ErrCancelled, [wait], w)
            else
              let '(r, ws, w) := obtain_loop cancelled sol cl request n (S attempt) lastErr w in (r, wait :: ws, w)
      end
  end.

Definition obtain (cancelled : nat -> bool) (sol : solver D H) (cl : client Key) (request : ObtainRequest) (w : W)
  : res certerr (bytes * bytes) * list Z * W :=
  obtain_loop cancelled sol cl request obtainAttempts 1 ErrCancelled w.

(** The solver [Issue] uses: DNS before HTTP. *)
Definition choose_solver (req : IssueRequest D H) : option (solver D H) :=
  match ir_Solver req, ir_HTTPSolver req with
  | Some d, _ => Some (DNS01 d)
  | None, Some h => Some (HTTP01 h)
  | None, None => None
  end.

(** The second half of [Issue], from [lego.NewConfig] on. *)
Definition issue_with (cancelled : nat -> bool) (req : IssueRequest D H) (domains : list bytes) (sol : solver D H)
  (ca : CA) (kt : lego_key) (a : account) (w : W) : res certerr Certificate * account * W :=
  match NewClient (MkClient a (ca_Directory ca) kt) w with
  | (Err e, w) => (Err (ErrClient e), a, w)
  | (Ok _, w) =>
      match SetProvider sol (MkClient a (ca_Directory ca) kt) w with
      | (Err e, w) => (Err (ErrConfigure e), a, w)
      | (Ok _, w) =>
          match register (MkClient a (ca_Directory ca) kt) ca a w with
          | (Err e, w) => (Err e, a, w)
          | (Ok a, w) =>
              match obtain cancelled sol (MkClient a (ca_Directory ca) kt)
                      (MkObtain domains true (ir_PreferredChain req)) w with
              | (Err e, _, w) => (Err e, a, w)
              | (Ok (certificate, privateKey), _, w) =>
                  (Populate (MkCertificate domains certificate privateKey 0 0 [] []), a, w)
              end
          end
      end
  end.

(** [Issue] works on the account it is given; the account after it is part of
    its result. *)
Definition Issue (cancelled : nat -> bool) (req : IssueRequest D H) (acc : option account) (w : W)
  : res certerr Certificate * option account * W :=
  let domains := NormaliseDomains (ir_Domains req) in
  if bool_decide (domains = []) then (Err ErrNoDomains, acc, w)
  else if NeedsDNSChallenge domains && negb (bool_decide (is_Some (ir_Solver req)))
  then (Err (ErrWildcardNeedsDNS (filter (fun d => is_wildcard d = true) domains)), acc, w)
  else match choose_solver req with
  | None => (Err ErrNoChallenge, acc, w)
  | Some sol =>
      match resolveCA (ir_CA req) with
      | Err e => (Err e, acc, w)
      | Ok ca =>
          match acc with
          | None => (Err ErrNoAccountSupplied, acc, w)
          | Some a =>
              match ensureKey a w with
              | (Err e, a, w) => (Err e, Some a, w)
              | (Ok _, a, w) =>
                  match legoKeyType (ir_KeyType req) with
                  | Err e => (Err e, Some a, w)
                  | Ok kt =>
                      let '(r, a, w) := issue_with cancelled req domains sol ca kt a w in (r, Some a, w)
                  end
              end
          end
      end
  end.
End issuer.

(** ** Renewal (renewer.go) *)

Definition DefaultRenewBefore : Z := 30.
Definition DefaultCheckInterval : Z := 12 * Hour.
Definition retryBackoff : Z := 6 * Hour.

(** [LastError] is the error whose text the store keeps; no text is empty. *)
Record Managed := MkManaged {
  m_ID : bytes; m_Domains : list bytes; m_CA : bytes; m_KeyType : bytes; m_DNSAccount : bytes;
  m_Certificate : option Certificate; m_AutoRenew : bool; m_RenewBefore : Z;
  m_LastAttempt : Z; m_LastError : option certerr
}.

Definition threshold (m : Managed) : Z := if 0 <? m_RenewBefore m then m_RenewBefore m else DefaultRenewBefore.

Definition Due (m : Managed) (now : Z) : bool :=
  if negb (m_AutoRenew m) then false
  else match m_Certificate m with
       | None => true
       | Some c =>
           if negb (IsZero (m_LastAttempt m)) && bool_decide (is_Some (m_LastError m))
              && (time_Sub now (m_LastAttempt m) <? retryBackoff)
           then false else NeedsRenewal now (threshold m) c
       end.

Definition with_attempt (t : Z) (m : Managed) : Managed :=
  MkManaged (m_ID m) (m_Domains m) (m_CA m) (m_KeyType m) (m_DNSAccount m) (m_Certificate m) (m_AutoRenew m)
    (m_RenewBefore m) t (m_LastError m).
Definition with_error (e : option certerr) (m : Managed) : Managed :=
  MkManaged (m_ID m) (m_Domains m) (m_CA m) (m_KeyType m) (m_DNSAccount m) (m_Certificate m) (m_AutoRenew m)
    (m_RenewBefore m) (m_LastAttempt m) e.
Definition with_certificate (c : Certificate) (m : Managed) : Managed :=
  MkManaged (m_ID m) (m_Domains m) (m_CA m) (m_KeyType m) (m_DNSAccount m) (Some c) (m_AutoRenew m)
    (m_RenewBefore m) (m_LastAttempt m) (m_LastError m).

(** What a renewer is built from: the Go interfaces [Store] and [Installer], the
    [SolverFactory], the clock; [None] is the nil value. *)
Class Renewal (D W : Type) := {
  store_List : W -> res bytes (list Managed) * W;
  store_Save : Managed -> W -> res bytes unit * W;
  installer : option (Managed -> W -> res bytes unit * W);
  solvers : option (Managed -> W -> res bytes (option D) * W);
  now : W -> Z * W
}.

Section renewer.
Context {Key D H W : Type} `{U : Unicode} `{X : CertText} `{Lego : Acme Key D H W} `{Ren : Renewal D W}.

(** [&Account{}]. *)
Definition empty_account : AcmeAccount Key := MkAcmeAccount [] [] [] [] [] None None.

Definition save (m : Managed) (e : option certerr) (w : W) : res certerr unit * W :=
  let '(_, w) := store_Save (with_error e m) w in
  (match e with Some e => Err e | None => Ok tt end, w).

Definition build_solver (m : Managed) (w : W) : res bytes (option D) * W :=
  match solvers with None => (Ok None, w) | Some build => build m w end.

Definition install (m : Managed) (w : W) : res bytes unit * W :=
  match installer with None => (Ok tt, w) | Some f => f m w end.

Definition renewOne (cancelled : nat -> bool) (m : Managed) (w : W) : res certerr unit * W :=
  let '(t, w) := now w in
  let m := with_attempt t m in
  match build_solver m w with
  | (Err e, w) => save m (Some (ErrSolver e)) w
  | (Ok sol, w) =>
      if NeedsDNSChallenge (m_Domains m) && negb (bool_decide (is_Some sol)) then save m (Some ErrWildcardNoAccount) w
      else
        let '(r, _, w) := Issue cancelled (MkIssueRequest (m_Domains m) (m_CA m) (m_KeyType m) sol (None : option H) [])
                            (Some empty_account) w in
        match r with
        | Err e => save m (Some e) w
        | Ok issued =>
            let m := with_certificate issued m in
            match install m w with
            | (Err e, w) => save m (Some (ErrInstall e)) w
            | (Ok _, w) => save m None w
            end
        end
  end.

(** The loop over the due certificates, with the number of failures so far;
    [ended n] tells whether the context has ended before the [n]th.  The answer
    is [None] when it has. *)
Fixpoint renew_loop (cancelled ended : nat -> bool) (n : nat) (due : list Managed) (failures : nat) (w : W)
  : option nat * W :=
  match due with
  | [] => (Some failures, w)
  | item :: due =>
      if ended n then (None, w)
      else
        let '(r, w) := renewOne cancelled item w in
        renew_loop cancelled ended (S n) due (if is_ok r then failures else S failures) w
  end.

Inductive runerr : Type :=
  | RunList (e : bytes)
  | RunEnded
  | RunFailed (failures due : nat).

(** [Run], with the flag that keeps two runs apart before and after it. *)
Definition Run (cancelled ended : nat -> bool) (running : bool) (w : W) : res runerr unit * bool * W :=
  if running then (Ok tt, true, w)
  else
    match store_List w with
    | (Err e, w) => (Err (RunList e), false, w)
    | (Ok managed, w) =>
        let '(t, w) := now w in
        let due := filter (fun m => Due m t = true) managed in
        let '(r, w) := renew_loop cancelled ended 0 due 0 w in
        (match r with
         | None => Err RunEnded
         | Some O => Ok tt
         | Some n => Err (RunFailed n (length due))
         end, false, w)
    end.
End renewer.

(** ** Names *)

Section name_lemmas.
Context `{Unicode}.

Lemma normalise_fold domains seen out :
  (forall d, d ∈ out <-> d ∈ seen) -> NoDup out ->
  let '(_, out') := foldl normalise_step (seen, out) domains in
  NoDup out' /\ forall d, d ∈ out' <-> d ∈ out \/ (d <> [] /\ d ∈ normal_name <$> domains).
Proof.
  revert seen out; induction domains as [|x domains IH]; intros seen out Hs Hn; simpl.
  - split; [done|]. intros d. rewrite elem_of_nil. tauto.
  - unfold normalise_step at 2. cbn [fst snd].
    case_bool_decide as He; [|case_bool_decide as Hi].
    + specialize (IH seen out Hs Hn). destruct (foldl _ _ _) as [? out']. destruct IH as [? IH]. split; [done|].
      intros d. rewrite IH, elem_of_cons. naive_solver.
    + specialize (IH seen out Hs Hn). destruct (foldl _ _ _) as [? out']. destruct IH as [? IH]. split; [done|].
      intros d. rewrite IH, elem_of_cons. apply Hs in Hi. naive_solver.
    + specialize (IH ({[normal_name x]} ∪ seen) (out ++ [normal_name x])).
      destruct (foldl _ _ _) as [? out']. destruct IH as [? IH].
      * intros d. rewrite elem_of_app, list_elem_of_singleton, Hs. set_solver.
      * apply NoDup_app. split; [done|]. split; [|apply NoDup_singleton].
        intros d Hd Hx%list_elem_of_singleton. subst d. by apply Hi, Hs.
      * split; [done|]. intros d. rewrite IH, elem_of_app, list_elem_of_singleton, elem_of_cons. naive_solver.
Qed.

(** The names of a request are normalised to a strictly increasing list (no
    name twice) of exactly the non-empty normal forms of what was asked for. *)
Theorem NormaliseDomains_spec domains :
  Sorted bytes_le (NormaliseDomains domains) /\ NoDup (NormaliseDomains domains)
  /\ forall d, d ∈ NormaliseDomains domains <-> d <> [] /\ exists x, x ∈ domains /\ d = normal_name x.
Proof.
  pose proof (normalise_fold domains ∅ []) as Hf. unfold NormaliseDomains, SortStrings.
  destruct (foldl normalise_step (∅, []) domains) as [seen out]. destruct Hf as [Hn Hin]; [set_solver|apply NoDup_nil_2|].
  split_and!.
  - apply Sorted_merge_sort. apply _.
  - rewrite merge_sort_Permutation. done.
  - intros d. cbn [snd]. rewrite (merge_sort_Permutation bytes_le out), Hin, list_elem_of_fmap. set_solver.
Qed.
End name_lemmas.

(** A certificate's name matches a host exactly when it is the host, or a
    wildcard whose star stands for one non-empty label of it. *)
Theorem matchesName_spec pattern host :
  matchesName pattern host = true <->
  pattern = host \/ exists label zone, label <> [] /\ x2e ∉ label
    /\ pattern = go "*." ++ zone /\ host = label ++ go "." ++ zone.
Proof.
  unfold matchesName. case_bool_decide as He; [by split; auto|].
  destruct (HasPrefix pattern (go "*.")) eqn:Hp; simpl negb; cbv iota.
  - apply HasPrefix_true in Hp as [zone ->]. change (drop 1 (go "*." ++ zone)) with (go "." ++ zone).
    destruct (HasSuffix host (go "." ++ zone)) eqn:Hs; simpl negb; cbv iota.
    + apply HasSuffix_true in Hs as [label ->]. rewrite length_app, Nat.add_sub, take_app_length.
      rewrite andb_true_iff, !negb_true_iff, bool_decide_eq_false. unfold Contains. rewrite bool_decide_eq_false.
      change (go ".") with [x2e]. rewrite Index_single, <- eq_None_not_Some, IndexByte_None. split.
      * intros [Hl Hd]. right. by exists label, zone.
      * intros [Hx|(l & z & Hl & Hd & Hz & Ha)]; [done|]. apply (inj (app _)) in Hz as <-.
        by apply (inj (.++ _)) in Ha as ->.
    + split; [done|]. intros [Hx|(l & z & _ & _ & Hz & ->)]; [done|]. apply (inj (app _)) in Hz as <-.
      by rewrite HasSuffix_app in Hs.
  - split; [done|]. intros [Hx|(l & z & _ & _ & -> & _)]; [done|]. by rewrite HasPrefix_app in Hp.
Qed.

(** ** Obtaining a certificate *)

Section obtaining.
Context {Key D H W : Type} `{U : Unicode} `{X : CertText} `{Lego : Acme Key D H W}.
Variables (sol : solver D H) (cl : client Key) (request : ObtainRequest).

(** [n] requests in a row that the directory answers with an error to retry. *)
Inductive refused : nat -> W -> W -> Prop :=
  | refused_0 w : refused 0 w w
  | refused_S n w w1 w2 e :
      Obtain sol cl request w = (Err e, w1) -> transientACME e = true -> refused n w1 w2 -> refused (S n) w w2.

(** The waits after the first [n] attempts. *)
Definition waits (first n : nat) : list Z := (fun i => Z.of_nat i * obtainRetryDelay) <$> seq first n.

Lemma obtain_loop_spec cancelled n attempt lastErr w r ws w' :
  (attempt + n = 5)%nat -> (0 < n)%nat ->
  obtain_loop cancelled sol cl request n attempt lastErr w = (r, ws, w') ->
  exists k w1 ans, refused k w w1 /\ (k < n)%nat /\ Obtain sol cl request w1 = (ans, w')
    /\ (forall i, (attempt <= i < attempt + k)%nat -> cancelled i = false)
    /\ match ans with
       | Ok x => r = Ok x /\ ws = waits attempt k
       | Err e =>
           if transientACME e && (S k <? n)%nat
           then cancelled (attempt + k)%nat = true /\ r = Err ErrCancelled /\ ws = waits attempt (S k)
           else r = Err (ErrObtain (or_Domains request) e) /\ ws = waits attempt k
       end.
Proof.
  revert attempt lastErr w r ws; induction n as [|n IH]; intros attempt lastErr w r ws Hn Hpos Hr; [lia|].
  simpl in Hr. destruct (Obtain sol cl request w) as [[x|e] w1] eqn:E.
  - simplify_eq. exists 0%nat, w, (Ok x). split_and!; [constructor|lia|done|lia|done..].
  - destruct (negb (transientACME e) || (attempt =? obtainAttempts)%nat) eqn:Hstop.
    + simplify_eq. exists 0%nat, w, (Err e). split_and!; [constructor|lia|done|lia|].
      apply orb_true_iff in Hstop as [->%negb_true_iff|Ha%Nat.eqb_eq]; [done|].
      rewrite (proj2 (Nat.ltb_ge 1 (S n))) by (unfold obtainAttempts in Ha; lia). by rewrite andb_false_r.
    + apply orb_false_iff in Hstop as [Ht%negb_false_iff Ha%Nat.eqb_neq]. unfold obtainAttempts in Ha.
      destruct (cancelled attempt) eqn:Hc.
      * simplify_eq. exists 0%nat, w, (Err e). split_and!; [constructor|lia|done|lia|].
        rewrite Ht, (proj2 (Nat.ltb_lt 1 (S n))) by lia. by rewrite Nat.add_0_r.
      * destruct (obtain_loop _ _ _ _ n _ _ w1) as [[r' ws'] w2] eqn:Hl. simplify_eq.
        apply IH in Hl as (k & w3 & ans & Hk & Hkn & Hans & Hcs & Hres); [|lia|lia].
        exists (S k), w3, ans. split_and!; [by econstructor|lia|done| |].
        { intros i Hi. destruct (decide (i = attempt)) as [->|]; [done|]. apply Hcs. lia. }
        unfold waits in *. destruct ans as [x|e']; [destruct Hres as [-> ->]; done|].
        change (S (S k) <? S n)%nat with (S k <? n)%nat. rewrite <- plus_n_Sm.
        destruct (transientACME e' && (S k <? n)%nat); [destruct Hres as (? & -> & ->)|destruct Hres as [-> ->]]; done.
Qed.

(** C27: [obtain] asks the directory at most four times: again only after an
    answer that says to retry, having waited 20, 40, then 60 seconds.  It ends
    with the first certificate, the first error that is final, the fourth
    error, or the end of the context during a wait. *)
Theorem obtain_retries cancelled w r ws w' :
  obtain cancelled sol cl request w = (r, ws, w') ->
  exists k w1 ans, refused k w w1 /\ (k < 4)%nat /\ Obtain sol cl request w1 = (ans, w')
    /\ (forall i, (1 <= i <= k)%nat -> cancelled i = false)
    /\ match ans with
       | Ok x => r = Ok x /\ ws = waits 1 k
       | Err e =>
           if transientACME e && (k <? 3)%nat
           then cancelled (S k) = true /\ r = Err ErrCancelled /\ ws = waits 1 (S k)
           else r = Err (ErrObtain (or_Domains request) e) /\ ws = waits 1 k
       end.
Proof.
  intros Hr. apply obtain_loop_spec in Hr as (k & w1 & ans & Hk & Hlt & Hans & Hc & Hres); [|done|unfold obtainAttempts; lia].
  exists k, w1, ans. split_and!; [done..| |exact Hres]. intros i Hi. apply Hc. lia.
Qed.
End obtaining.

(** ** Issuing *)

Section issuing.
Context {Key D H W : Type} `{U : Unicode} `{X : CertText} `{Lego : Acme Key D H W}.

Lemma register_ok (cl : client Key) ca a w a' w' :
  register cl ca a w = (Ok a', w') ->
  is_Some (registration a') /\ key a' = key a /\ PrivateKey a' = PrivateKey a /\ Email a' = Email a
  /\ EABKeyID a' = EABKeyID a /\ EABHMAC a' = EABHMAC a
  /\ (is_Some (registration a) -> a' = a /\ w' = w)
  /\ (registration a = None -> RequiresEAB ca = true -> EABKeyID a <> [] /\ EABHMAC a <> []).
Proof.
  unfold register. intros Hr. destruct (registration a) as [r|] eqn:Hreg.
  - simplify_eq. rewrite Hreg. naive_solver.
  - destruct (RequiresEAB ca).
    + destruct (bool_decide _ || bool_decide _) eqn:He; [done|]. bool_facts.
      destruct (RegisterEAB _ _ cl w) as [[r|e] w1]; simplify_eq. simpl. split_and!; try done; by intros [].
    + destruct (Register cl w) as [[r|e] w1]; simplify_eq. simpl. split_and!; try done; by intros [].
Qed.

Lemma ensureKey_ok a w a' w' :
  ensureKey (D:=D) (H:=H) a w = (Ok tt, a', w') ->
  is_Some (key a') /\ registration a' = registration a /\ Email a' = Email a
  /\ EABKeyID a' = EABKeyID a /\ EABHMAC a' = EABHMAC a
  /\ (key a = None -> PrivateKey a <> [] -> w' = w /\ PrivateKey a' = PrivateKey a).
Proof.
  unfold ensureKey. intros Hr. destruct (key a) as [k|] eqn:Hk.
  - simplify_eq. rewrite Hk. naive_solver.
  - destruct (PrivateKey a) as [|b bs] eqn:Hp.
    + destruct (GenerateKey w) as [[k|] w1]; [|done]. destruct (MarshalECPrivateKey k); simplify_eq. done.
    + destruct (pem_Decode _) as [[kind der]|]; [|done]. destruct (ParseECPrivateKey der); simplify_eq. done.
Qed.

(** What a certificate says is what its leaf says. *)
Definition populated (c : Certificate) : Prop :=
  exists l, Leaf (FullchainPEM c) = Ok l /\ IssuedAt c = l_NotBefore l /\ NotAfter c = l_NotAfter l
    /\ Issuer c = l_CommonName l /\ SerialNumber c = l_Serial l.

Lemma Populate_ok c c' :
  Populate c = Ok c' -> Domains c <> [] ->
  populated c' /\ Domains c' = Domains c /\ FullchainPEM c' = FullchainPEM c /\ PrivateKeyPEM c' = PrivateKeyPEM c.
Proof.
  unfold Populate, populated. destruct (Leaf (FullchainPEM c)) as [l|e] eqn:El; [|done]. simpl.
  intros [= <-] Hd. simpl. split_and!; [by exists l|by destruct (Domains c)|done..].
Qed.

Lemma issue_with_ok cancelled (req : IssueRequest D H) domains sol ca kt (a a' : AcmeAccount Key) w c w' :
  domains <> [] -> issue_with cancelled req domains sol ca kt a w = (Ok c, a', w') ->
  is_Some (registration a') /\ key a' = key a /\ PrivateKey a' = PrivateKey a /\ Email a' = Email a
  /\ EABKeyID a' = EABKeyID a /\ EABHMAC a' = EABHMAC a
  /\ (registration a = None -> RequiresEAB ca = true -> EABKeyID a <> [] /\ EABHMAC a <> [])
  /\ populated c /\ Domains c = domains
  /\ exists w1, Obtain sol (MkClient a' (ca_Directory ca) kt) (MkObtain domains true (ir_PreferredChain req)) w1
                = (Ok (FullchainPEM c, PrivateKeyPEM c), w').
Proof.
  intros Hd. unfold issue_with. destruct (NewClient _ w) as [[u|e] w1]; [|done].
  destruct (SetProvider _ _ w1) as [[u'|e] w2]; [|done].
  destruct (register _ ca a w2) as [[a1|e] w3] eqn:Hr; [|done].
  destruct (obtain _ _ _ _ w3) as [[[[chain pk]|e] ws] w4] eqn:Ho; [|done].
  intros [= Hp -> ->]. apply register_ok in Hr as (? & ? & ? & ? & ? & ? & _ & ?).
  apply Populate_ok in Hp as (? & ? & Hf & Hk); [|done]. cbn in Hf, Hk.
  split_and!; try done. apply obtain_retries in Ho as (k & w5 & ans & _ & _ & Hans & _ & Hres).
  exists w5. rewrite Hf, Hk, Hans. destruct ans as [x|e]; [by destruct Hres as [[= ->] _]|].
  destruct (transientACME e && _); naive_solver.
Qed.

(** A certificate is only issued for the normalised names asked for, at least
    one, with a DNS solver if one is a wildcard, from the authority asked for,
    signed for by a registered account that has a key (and, where the authority
    wants one, an external binding); its material is what the directory gave
    for exactly these names, and its dates and issuer are its leaf's. *)
Theorem Issue_sound cancelled (req : IssueRequest D H) acc w c acc' w' :
  Issue (Key:=Key) cancelled req acc w = (Ok c, acc', w') ->
  Domains c = NormaliseDomains (ir_Domains req) /\ Domains c <> []
  /\ (NeedsDNSChallenge (Domains c) = true -> is_Some (ir_Solver req))
  /\ populated c
  /\ exists a a' sol ca kt w1, acc = Some a /\ acc' = Some a' /\ choose_solver req = Some sol
       /\ resolveCA (ir_CA req) = Ok ca /\ legoKeyType (ir_KeyType req) = Ok kt
       /\ is_Some (registration a') /\ is_Some (key a')
       /\ (registration a = None -> RequiresEAB ca = true -> EABKeyID a <> [] /\ EABHMAC a <> [])
       /\ Obtain sol (MkClient a' (ca_Directory ca) kt) (MkObtain (Domains c) true (ir_PreferredChain req)) w1
          = (Ok (FullchainPEM c, PrivateKeyPEM c), w').
Proof.
  unfold Issue. case_bool_decide as Hd; [done|].
  destruct (NeedsDNSChallenge _ && _) eqn:Hw; [done|].
  destruct (choose_solver req) as [sol|] eqn:Hs; [|done].
  destruct (resolveCA (ir_CA req)) as [ca|e] eqn:Hca; [|done].
  destruct acc as [a|]; [|done]. destruct (ensureKey a w) as [[[[]|e] a1] w1] eqn:Hk; [|done].
  destruct (legoKeyType (ir_KeyType req)) as [kt|e] eqn:Hkt; [|done].
  destruct (issue_with _ _ _ _ _ _ _ w1) as [[r a2] w2] eqn:Hi. intros [= -> <- ->].
  apply issue_with_ok in Hi as (? & Hkey & _ & _ & _ & _ & Heab & ? & -> & w3 & Ho); [|done].
  apply ensureKey_ok in Hk as (? & Hreg & _ & Hid & Hmac & _).
  split_and!; try done.
  - intros Hn. rewrite Hn in Hw. simpl in Hw. bool_facts. by destruct (ir_Solver req).
  - rewrite Hreg, Hid, Hmac in Heab. exists a, a2, sol, ca, kt, w3. split_and!; try done. by rewrite Hkey.
Qed.
End issuing.

(** What lego and the key and JSON packages document of an account: a registration
    names the account, and what is written reads back. *)
Class AcmeLaws (Key D H W : Type) `{X : CertText} `{Lego : Acme Key D H W} := {
  Register_URI cl w r w' : Register cl w = (Ok r, w') -> URI r <> [];
  RegisterEAB_URI i m cl w r w' : RegisterEAB i m cl w = (Ok r, w') -> URI r <> [];
  resource_roundtrip r : UnmarshalResource (MarshalResource r) = Some r;
  resource_text r : MarshalResource r <> [];
  key_roundtrip k pem : MarshalECPrivateKey k = Some pem ->
    pem <> [] /\ exists kind der, pem_Decode pem = Some (kind, der) /\ ParseECPrivateKey der = Some k
}.

(** The PEM text of the account is its key. *)
Definition key_text {Key D H W : Type} `{X : CertText} `{Lego : Acme Key D H W} (pem : bytes) (k : Key) : Prop :=
  pem <> [] /\ exists kind der, pem_Decode pem = Some (kind, der) /\ ParseECPrivateKey der = Some k.

Section accounts_of_issuing.
Context {Key D H W : Type} `{U : Unicode} `{X : CertText} `{Lego : Acme Key D H W} `{Laws : !AcmeLaws Key D H W}.

Lemma register_usable (cl : client Key) ca a w a' w' :
  register cl ca a w = (Ok a', w') -> (forall r, registration a = Some r -> URI r <> []) ->
  exists r, registration a' = Some r /\ URI r <> [].
Proof.
  unfold register. intros Hr Ha. destruct (registration a) as [r|] eqn:Hreg; [simplify_eq; rewrite Hreg; eauto|].
  destruct (RequiresEAB ca).
  - destruct (_ || _); [done|]. destruct (RegisterEAB _ _ cl w) as [[r|e] w1] eqn:E; simplify_eq/=.
    exists r. split; [done|]. by eapply RegisterEAB_URI.
  - destruct (Register cl w) as [[r|e] w1] eqn:E; simplify_eq/=. exists r. split; [done|]. by eapply Register_URI.
Qed.

Lemma ensureKey_text (a a' : AcmeAccount Key) w w' :
  ensureKey a w = (Ok tt, a', w') -> key a = None ->
  exists k, key a' = Some k /\ key_text (Lego:=Lego) (PrivateKey a') k /\ (PrivateKey a <> [] -> PrivateKey a' = PrivateKey a).
Proof.
  unfold ensureKey, key_text. intros Hk Hn. rewrite Hn in Hk. destruct (PrivateKey a) as [|b l] eqn:Hp.
  - destruct (GenerateKey w) as [[k|] w1]; [|done]. destruct (MarshalECPrivateKey k) as [pem|] eqn:Em; simplify_eq/=.
    exists k. split; [done|]. split; [by apply key_roundtrip|done].
  - rewrite <- Hp in *. destruct (pem_Decode (PrivateKey a)) as [[kind der]|] eqn:Ed; [|done].
    destruct (ParseECPrivateKey der) as [k|] eqn:Ek; simplify_eq/=.
    exists k. split_and!; [done|by rewrite Hp|by exists kind, der|done].
Qed.

(** The account a certificate was issued to: registered, with a key that reads
    back, and the stored key if there was one. *)
Lemma Issue_account cancelled (req : IssueRequest D H) a w c acc' w' :
  Issue cancelled req (Some a) w = (Ok c, acc', w') -> key a = None -> (forall r, registration a = Some r -> URI r <> []) ->
  exists a' r k, acc' = Some a' /\ Email a' = Email a /\ registration a' = Some r /\ URI r <> []
    /\ key a' = Some k /\ key_text (Lego:=Lego) (PrivateKey a') k.
Proof.
  unfold Issue. intros Hi Hnk Hr. case_bool_decide; [done|]. destruct (_ && _); [done|].
  destruct (choose_solver req) as [sol|]; [|done]. destruct (resolveCA (ir_CA req)) as [ca|]; [|done].
  destruct (ensureKey a w) as [[[[]|e] a1] w1] eqn:Hk; [|done].
  destruct (legoKeyType (ir_KeyType req)) as [kt|]; [|done].
  pose proof (ensureKey_ok _ _ _ _ Hk) as (_ & Hreg & He & _).
  apply ensureKey_text in Hk as (k & Hk1 & Htext & _); [|done].
  unfold issue_with in Hi. destruct (NewClient _ w1) as [[u|e] w2]; [|done].
  destruct (SetProvider _ _ w2) as [[u'|e] w3]; [|done].
  destruct (register _ ca a1 w3) as [[a2|e] w4] eqn:Hg; [|done].
  destruct (obtain _ _ _ _ w4) as [[[[chain pk]|e] ws] w5]; [|done]. injection Hi as _ <- _.
  pose proof (register_ok _ _ _ _ _ _ Hg) as (_ & Hk2 & Hp2 & He2 & _).
  apply register_usable in Hg as (r & Hr2 & Hu); [|by rewrite Hreg].
  exists a2, r, k. rewrite Hk2, Hp2, He2. by split_and!.
Qed.
End accounts_of_issuing.

(** ** Renewing *)

(** What a store promises, and what everything else a renewal calls leaves
    alone: [view] is the managed certificates by their identifier. *)
Class RenewalLaws (Key D H W : Type) `{Acme Key D H W} `{Renewal D W} := {
  view : W -> gmap bytes Managed;
  List_view w : view (store_List w).2 = view w;
  List_ok w ms : (store_List w).1 = Ok ms ->
    NoDup (m_ID <$> ms) /\ forall m, m ∈ ms <-> view w !! m_ID m = Some m;
  Save_ok m w : (store_Save m w).1 = Ok tt -> view (store_Save m w).2 = <[m_ID m := m]> (view w);
  Save_err m w e : (store_Save m w).1 = Err e -> view (store_Save m w).2 = view w;
  install_view f m w : installer = Some f -> view (f m w).2 = view w;
  solvers_view f m w : solvers = Some f -> view (f m w).2 = view w;
  now_view w : view (now w).2 = view w;
  GenerateKey_view w : view (GenerateKey w).2 = view w;
  NewClient_view cl w : view (NewClient cl w).2 = view w;
  SetProvider_view s cl w : view (SetProvider s cl w).2 = view w;
  Register_view cl w : view (Register cl w).2 = view w;
  RegisterEAB_view i m cl w : view (RegisterEAB i m cl w).2 = view w;
  Obtain_view s cl r w : view (Obtain s cl r w).2 = view w
}.

Section renewing.
Context {Key D H W : Type} `{U : Unicode} `{X : CertText} `{Lego : Acme Key D H W} `{Ren : Renewal D W}
  `{Laws : !RenewalLaws Key D H W}.

Lemma ensureKey_view (a : AcmeAccount Key) w : view (ensureKey a w).2 = view w.
Proof.
  unfold ensureKey. destruct (key a); [done|]. destruct (PrivateKey a).
  - pose proof (GenerateKey_view w). destruct (GenerateKey w) as [[k|] w1]; [|done].
    by destruct (MarshalECPrivateKey k).
  - destruct (pem_Decode _) as [[]|]; [|done]. by destruct (ParseECPrivateKey _).
Qed.

Lemma register_view (cl : client Key) ca a w : view (register cl ca a w).2 = view w.
Proof.
  unfold register. destruct (registration a); [done|]. destruct (RequiresEAB ca).
  - destruct (_ || _); [done|]. pose proof (RegisterEAB_view (EABKeyID a) (EABHMAC a) cl w).
    by destruct (RegisterEAB _ _ cl w) as [[] ?].
  - pose proof (Register_view cl w). by destruct (Register cl w) as [[] ?].
Qed.

Lemma obtain_loop_view cancelled sol (cl : client Key) rq n k e w :
  view (obtain_loop cancelled sol cl rq n k e w).2 = view w.
Proof.
  revert k e w; induction n as [|n IH]; intros k e w; simpl; [done|].
  pose proof (Obtain_view sol cl rq w) as Ho. destruct (Obtain sol cl rq w) as [[x|e'] w1]; [done|].
  destruct (_ || _); [done|]. destruct (cancelled k); [done|].
  specialize (IH (S k) (ErrObtain (or_Domains rq) e') w1).
  destruct (obtain_loop _ _ _ _ _ _ _ w1) as [[r ws] w2]. simpl in *. congruence.
Qed.

Lemma issue_with_view cancelled (req : IssueRequest D H) domains sol ca kt (a : AcmeAccount Key) w :
  view (issue_with cancelled req domains sol ca kt a w).2 = view w.
Proof.
  unfold issue_with. pose proof (NewClient_view (MkClient a (ca_Directory ca) kt) w) as V1.
  destruct (NewClient _ w) as [[u|e] w1]; [|done].
  pose proof (SetProvider_view sol (MkClient a (ca_Directory ca) kt) w1) as V2.
  destruct (SetProvider _ _ w1) as [[u'|e] w2]; [|simpl in *; congruence].
  pose proof (register_view (MkClient a (ca_Directory ca) kt) ca a w2) as V3.
  destruct (register _ ca a w2) as [[a1|e] w3]; [|simpl in *; congruence].
  pose proof (obtain_loop_view cancelled sol (MkClient a1 (ca_Directory ca) kt)
    (MkObtain domains true (ir_PreferredChain req)) obtainAttempts 1 ErrCancelled w3) as V4.
  unfold obtain. destruct (obtain_loop _ _ _ _ _ _ _ w3) as [[[[c pk]|e] ws] w4]; simpl in *; congruence.
Qed.

Lemma Issue_view cancelled (req : IssueRequest D H) (acc : option (AcmeAccount Key)) w :
  view (Issue cancelled req acc w).2 = view w.
Proof.
  unfold Issue. case_bool_decide; [done|]. destruct (_ && _); [done|].
  destruct (choose_solver req) as [sol|]; [|done]. destruct (resolveCA _) as [ca|]; [|done].
  destruct acc as [a|]; [|done]. pose proof (ensureKey_view a w) as V1.
  destruct (ensureKey a w) as [[[u|e] a1] w1]; [|done]. destruct (legoKeyType _) as [kt|]; [|done].
  pose proof (issue_with_view cancelled req (NormaliseDomains (ir_Domains req)) sol ca kt a1 w1) as V2.
  destruct (issue_with _ _ _ _ _ _ _ w1) as [[r a2] w2]. simpl in *. congruence.
Qed.

(** What one attempt at time [t] makes of a managed certificate. *)
Definition attempted (m : Managed) (t : Z) (r : res certerr unit) (m' : Managed) : Prop :=
  m' = with_error (m_LastError m') (with_attempt t
         (match m_Certificate m' with Some c => with_certificate c m | None => m end))
  /\ match r with
     | Ok _ => m_LastError m' = None
               /\ exists c, m_Certificate m' = Some c /\ populated c /\ Domains c = NormaliseDomains (m_Domains m)
     | Err e => m_LastError m' = Some e
                /\ (m_Certificate m' = m_Certificate m
                    \/ exists text c, e = ErrInstall text /\ m_Certificate m' = Some c /\ populated c)
     end.

(** Where the outcome came from: a success from the authority's answer for the
    names of the certificate, and an installation that worked where there is an
    installer; a failure from what it names. *)
Definition outcome_of (cancelled : nat -> bool) (m : Managed) (r : res certerr unit) (m' : Managed) : Prop :=
  match r with
  | Ok _ =>
      exists c sol cl w0 w1, m_Certificate m' = Some c
      /\ Obtain sol cl (MkObtain (NormaliseDomains (m_Domains m)) true []) w0 = (Ok (FullchainPEM c, PrivateKeyPEM c), w1)
      /\ forall f, installer = Some f -> exists m1 w2, m_Certificate m1 = Some c /\ (f m1 w2).1 = Ok tt
  | Err e =>
      (exists f m1 w0 text, solvers = Some f /\ (f m1 w0).1 = Err text /\ e = ErrSolver text)
      \/ (e = ErrWildcardNoAccount /\ NeedsDNSChallenge (m_Domains m) = true)
      \/ (exists sol w0, (Issue (Key:=Key) (H:=H) cancelled (MkIssueRequest (m_Domains m) (m_CA m) (m_KeyType m) sol None [])
                           (Some empty_account) w0).1.1 = Err e)
      \/ (exists f m1 w0 text, installer = Some f /\ (f m1 w0).1 = Err text /\ e = ErrInstall text)
  end.

(** How a renewal ended: its answer, the certificate it saved, and whether the
    store took that. *)
Abbreviation ending := (res certerr unit * Managed * bool)%type.

(** The renewals of a run, one after the other, from world to world: each reads
    the clock, comes to its outcome, and ends by saving it. *)
Inductive renewals (cancelled : nat -> bool) : list Managed -> list ending -> W -> W -> Prop :=
  | no_renewals w : renewals cancelled [] [] w w
  | one_renewal m due r rs t m' saved w w0 w1 w2 w' :
      now w = (t, w0) -> attempted m t r m' -> outcome_of cancelled m r m' ->
      store_Save m' w1 = (saved, w2) -> renewals cancelled due rs w2 w' ->
      renewals cancelled (m :: due) ((r, m', is_ok saved) :: rs) w w'.

(** What is stored of a certificate that was tried: what was saved, unless the
    store refused it. *)
Definition recorded (w : W) (m : Managed) (o : ending) : Prop :=
  view w !! m_ID m = Some (if o.2 then o.1.2 else m).

Lemma save_saves m e w r w' :
  save m e w = (r, w') ->
  r = match e with Some e => Err e | None => Ok tt end
  /\ exists saved, store_Save (with_error e m) w = (saved, w')
     /\ view w' = if is_ok saved then <[m_ID m := with_error e m]> (view w) else view w.
Proof.
  unfold save. destruct (store_Save (with_error e m) w) as [saved w1] eqn:E; intros [= <- <-]. split; [done|].
  exists saved. split; [done|]. destruct saved as [[]|err].
  - pose proof (Save_ok (with_error e m) w) as S. rewrite E in S. by apply S.
  - pose proof (Save_err (with_error e m) w err) as S. rewrite E in S. by apply S.
Qed.

Lemma build_solver_view m w : view (build_solver m w).2 = view w.
Proof. unfold build_solver. destruct solvers as [f|] eqn:E; [by apply solvers_view|done]. Qed.

Lemma install_step_view m w : view (install m w).2 = view w.
Proof. unfold install. destruct installer as [f|] eqn:E; [by apply install_view|done]. Qed.

Lemma build_solver_fails m w text w' : build_solver m w = (Err text, w') -> exists f, solvers = Some f /\ (f m w).1 = Err text.
Proof. unfold build_solver. destruct solvers as [f|]; [|done]. intros E. exists f. by rewrite E. Qed.

Lemma install_cases m w r w' : install m w = (r, w') ->
  match r with
  | Ok _ => forall f, installer = Some f -> (f m w).1 = Ok tt
  | Err text => exists f, installer = Some f /\ (f m w).1 = Err text
  end.
Proof.
  unfold install. destruct installer as [f|]; [|by intros [= <- <-]].
  intros E. destruct r as [[]|text]; [intros f' [= <-]; by rewrite E|exists f; by rewrite E].
Qed.

Lemma renewOne_spec cancelled m w r w' :
  renewOne (Key:=Key) (H:=H) cancelled m w = (r, w') ->
  exists t w0 m' saved w1, now w = (t, w0) /\ attempted m t r m' /\ outcome_of cancelled m r m'
    /\ store_Save m' w1 = (saved, w') /\ view w' = if is_ok saved then <[m_ID m := m']> (view w) else view w.
Proof.
  unfold renewOne. pose proof (now_view w) as V0. destruct (now w) as [t w0] eqn:En. simpl in V0.
  assert (Hfail : forall e w1, view w1 = view w -> (forall m', outcome_of cancelled m (Err e) m') ->
    save (with_attempt t m) (Some e) w1 = (r, w') ->
    exists t' w0' m' saved w2, (t, w0) = (t', w0') /\ attempted m t' r m' /\ outcome_of cancelled m r m'
      /\ store_Save m' w2 = (saved, w') /\ view w' = if is_ok saved then <[m_ID m := m']> (view w) else view w).
  { intros e w1 V Ho Hs. apply save_saves in Hs as [-> (saved & Hs & Hv)]. rewrite V in Hv.
    exists t, w0, (with_error (Some e) (with_attempt t m)), saved, w1. split; [done|]. split; [|by split_and!].
    unfold attempted. simpl. destruct m; simpl. destruct m_Certificate0; naive_solver. }
  pose proof (build_solver_view (with_attempt t m) w0) as V1.
  destruct (build_solver (with_attempt t m) w0) as [[sol|e] w1] eqn:Eb; simpl in V1.
  2: { apply build_solver_fails in Eb as (f & Hf & Hfe). apply Hfail; [congruence|]. intros m'. left. by eexists f, _, _, _. }
  destruct (NeedsDNSChallenge _ && _) eqn:Ew.
  { apply andb_true_iff in Ew as [Ew _]. apply Hfail; [congruence|]. intros m'. right. by left. }
  pose proof (Issue_view cancelled (MkIssueRequest (m_Domains (with_attempt t m)) (m_CA (with_attempt t m))
    (m_KeyType (with_attempt t m)) sol (None : option H) []) (Some empty_account) w1) as V2.
  destruct (Issue _ _ _ w1) as [[[c|e] acc] w2] eqn:Hi; simpl in V2.
  2: { apply Hfail; [congruence|]. intros m'. right. right. left. exists sol, w1. cbn in Hi |- *. by rewrite Hi. }
  apply Issue_sound in Hi as (Hd & _ & _ & Hp & a & a' & so & ca & kt & wo & _ & _ & _ & _ & _ & _ & _ & _ & Ho). cbn in Hd, Ho.
  rewrite Hd in Ho.
  pose proof (install_step_view (with_certificate c (with_attempt t m)) w2) as V3.
  destruct (install _ w2) as [ri w3] eqn:Ei. apply install_cases in Ei. simpl in V3.
  destruct ri as [u|text]; intros Hs; apply save_saves in Hs as [-> (saved & Hs & Hv)]; rewrite V3, V2, V1, V0 in Hv; simpl in Hv.
  - exists t, w0, (with_error None (with_certificate c (with_attempt t m))), saved, w3. split; [done|]. split; [|split; [|by split]].
    + unfold attempted. simpl. split; [done|]. split; [done|]. by exists c.
    + exists c, so, (MkClient a' (ca_Directory ca) kt), wo, w2. split; [done|]. split; [exact Ho|].
      intros f Hf. exists (with_certificate c (with_attempt t m)), w2. split; [done|]. by apply Ei.
  - exists t, w0, (with_error (Some (ErrInstall text)) (with_certificate c (with_attempt t m))), saved, w3. split; [done|]. split; [|split; [|by split]].
    + unfold attempted. simpl. split; [done|]. split; [done|]. right. by exists text, c.
    + destruct Ei as (f & Hf & He). do 3 right. by eexists f, _, _, _.
Qed.

Lemma renew_loop_spec cancelled n due failures w f w' :
  NoDup (m_ID <$> due) -> (forall m, m ∈ due -> view w !! m_ID m = Some m) ->
  renew_loop (Key:=Key) (H:=H) cancelled (fun _ => false) n due failures w = (f, w') ->
  exists rs, renewals cancelled due rs w w' /\ Forall2 (recorded w') due rs
    /\ (forall id, id ∉ m_ID <$> due -> view w' !! id = view w !! id)
    /\ f = Some (failures + length (filter (fun o => is_ok o.1.1 = false) rs))%nat.
Proof.
  revert n failures w; induction due as [|m due IH]; intros n failures w Hnd Hin Hl; simpl in Hl.
  - simplify_eq. exists []. split_and!; [constructor|constructor|done|]. f_equal. simpl. lia.
  - destruct (renewOne cancelled m w) as [r w1] eqn:Hr.
    apply renewOne_spec in Hr as (t & w0 & m' & saved & ws & Hn & Ha & Ho & Hs & Hv).
    rewrite fmap_cons in Hnd. apply NoDup_cons in Hnd as [Hm Hnd].
    assert (Hother : forall id, id <> m_ID m -> view w1 !! id = view w !! id).
    { intros id Hne. rewrite Hv. destruct (is_ok saved); [|done]. by rewrite lookup_insert_ne. }
    apply IH in Hl as (rs & Hch & Hrs & Hrest & ->); [|done|].
    + exists ((r, m', is_ok saved) :: rs). split_and!.
      * by eapply one_renewal.
      * constructor; [|done]. unfold recorded. cbn [fst snd]. rewrite Hrest by done.
        rewrite Hv. destruct (is_ok saved); [by rewrite lookup_insert_eq|apply Hin; set_solver].
      * intros id Hid. rewrite fmap_cons in Hid. rewrite Hrest by set_solver. apply Hother. set_solver.
      * f_equal. rewrite filter_cons. destruct r; simpl; lia.
    + intros x Hx. rewrite Hother; [apply Hin; set_solver|]. intros E. apply Hm. rewrite <- E. set_solver.
Qed.

End renewing.

(** ** What renewal cannot do *)

Section limits_of_renewal.
Context {Key D H W : Type} `{U : Unicode} `{X : CertText} `{Lego : Acme Key D H W} `{Ren : Renewal D W}.

Lemma save_error m e w : (save m (Some e) w).1 = Err e.
Proof. unfold save. by destruct (store_Save _ w). Qed.

(** [renewOne] passes an empty account, so an authority that wants an external
    account binding never renews: [zerossl] and [google] certificates expire. *)
Theorem bound_account_never_renewed cancelled m w ca :
  resolveCA (m_CA m) = Ok ca -> RequiresEAB ca = true ->
  is_ok (renewOne (Key:=Key) (H:=H) cancelled m w).1 = false.
Proof.
  intros Hca Heab. unfold renewOne. destruct (now w) as [t w0].
  destruct (build_solver _ w0) as [[sol|e] w1]; [|by rewrite save_error].
  destruct (_ && _); [by rewrite save_error|].
  destruct (Issue _ _ _ w1) as [[[c|e] acc] w2] eqn:Hi; [|by rewrite save_error].
  apply Issue_sound in Hi as (_ & _ & _ & _ & a & a' & s & ca' & kt & w3 & [= <-] & _ & _ & Hca' & _ & _ & _ & He & _).
  cbn in Hca'. rewrite Hca in Hca'. injection Hca' as <-. by destruct (He eq_refl Heab).
Qed.

(** [renewOne] offers no HTTP solver, so a certificate without a DNS account,
    which was issued over HTTP, never renews. *)
Theorem http_certificate_never_renewed cancelled m w :
  (forall t w, (build_solver (with_attempt t m) w).1 = Ok None) ->
  is_ok (renewOne (Key:=Key) (H:=H) cancelled m w).1 = false.
Proof.
  intros Hb. unfold renewOne. destruct (now w) as [t w0]. specialize (Hb t w0).
  destruct (build_solver _ w0) as [r w1]. simpl in Hb. subst r.
  destruct (_ && _); [by rewrite save_error|].
  destruct (Issue _ _ _ w1) as [[[c|e] acc] w2] eqn:Hi; [|by rewrite save_error].
  apply Issue_sound in Hi as (_ & _ & _ & _ & a & a' & s & ca' & kt & w3 & _ & _ & Hs & _). done.
Qed.
End limits_of_renewal.

(** ** A small world *)

(** One directory that gives everybody the certificate "chain", and a store in memory. *)
Record world := MkWorld { w_store : gmap bytes Managed; w_now : Z; w_orders : nat }.

Definition example_text : CertText := {|
  pem_Decode b := if bool_decide (b = []) then None else Some (go "CERTIFICATE", b);
  x509_ParseCertificate der := Some (MkLeaf (1000 * Hour) (3160 * Hour) (go "Example CA") (go "1") [go "example.com"])
|}.

Definition example_acme : Acme unit unit unit world := {|
  ParseECPrivateKey _ := Some tt;
  GenerateKey w := (Some tt, w);
  MarshalECPrivateKey _ := Some (go "key");
  UnmarshalResource b := Some (MkResource b b);
  MarshalResource r := URI r;
  NewClient _ w := (Ok tt, w);
  SetProvider _ _ w := (Ok tt, w);
  Register _ w := (Ok (MkResource (go "acct") []), w);
  RegisterEAB _ _ _ w := (Ok (MkResource (go "acct") []), w);
  Obtain _ _ _ w :=
    (if (w_orders w =? 0)%nat then Err (MkAcmeErr (Some 503) (go "busy")) else Ok (go "chain", go "pk"),
     MkWorld (w_store w) (w_now w) (S (w_orders w)))
|}.

Definition stored_list (m : gmap bytes Managed) : list Managed :=
  (filter (fun kv => kv.1 = m_ID kv.2) (map_to_list m)).*2.

Definition example_renewal : Renewal unit world := {|
  store_List w := (Ok (stored_list (w_store w)), w);
  store_Save m w := (Ok tt, MkWorld (<[m_ID m := m]> (w_store w)) (w_now w) (w_orders w));
  installer := None;
  solvers := Some (fun m w => (Ok (if bool_decide (m_DNSAccount m = []) then None else Some tt), w));
  now w := (w_now w, w)
|}.

Lemma stored_list_ok m0 :
  NoDup (m_ID <$> stored_list m0) /\ forall m, m ∈ stored_list m0 <-> m0 !! m_ID m = Some m.
Proof.
  unfold stored_list. split.
  - assert (m_ID <$> (filter (fun kv => kv.1 = m_ID kv.2) (map_to_list m0)).*2
            = (filter (fun kv => kv.1 = m_ID kv.2) (map_to_list m0)).*1) as ->.
    { induction (map_to_list m0) as [|[k x] l IH]; [done|]. rewrite filter_cons. cbn [fst snd].
      case_decide as Hk; [|done]. cbn. by rewrite IH, Hk. }
    pose proof (NoDup_fst_map_to_list m0) as Hnd. induction (map_to_list m0) as [|[k x] l IH]; [constructor|].
    rewrite filter_cons. cbn in Hnd. apply NoDup_cons in Hnd as [Hk Hnd]. case_decide; [|by apply IH].
    cbn. apply NoDup_cons. split; [|by apply IH].
    intros ([k' x'] & -> & [_ Hin]%list_elem_of_filter)%list_elem_of_fmap. apply Hk. by apply (list_elem_of_fmap_2 fst) in Hin.
  - intros m. rewrite list_elem_of_fmap. split.
    + intros ([k x] & -> & [Hk Hin]%list_elem_of_filter). cbn in *. subst k. by apply elem_of_map_to_list.
    + intros Hm. exists (m_ID m, m). split; [done|]. apply list_elem_of_filter. split; [done|].
      by apply elem_of_map_to_list.
Qed.

Definition example_laws : @RenewalLaws unit unit unit world example_acme example_renewal.
Proof.
  refine {| view := w_store |}; try done.
  - intros w ms [= <-]. apply stored_list_ok.
  - intros f m w [= <-]. done.
Defined.

Definition example_managed (name ca : string) (c : option Certificate) : Managed :=
  MkManaged (go name) [go name] (go ca) [] (go "1") c true 0 0 None.

Definition fresh_certificate : Certificate :=
  MkCertificate [go "b.com"] (go "old") (go "old") (500 * Hour) (3000 * Hour) [] [].

(** Of three certificates one is missing, one is not due, one is zerossl's. *)
Definition example_world : world :=
  MkWorld (list_to_map [(go "a.com", example_managed "a.com" "letsencrypt" None);
                        (go "b.com", example_managed "b.com" "letsencrypt" (Some fresh_certificate));
                        (go "c.com", example_managed "c.com" "zerossl" None)]) (1000 * Hour) 0.


Lemma obtain_retries_witness :
  let cl := MkClient (MkAcmeAccount [] [] [] [] [] (Some tt) None) (go "dir") EC256 in
  let o := @obtain unit unit unit world example_acme (fun _ => false) (DNS01 tt) cl (MkObtain [go "a.com"] true []) example_world in
  o.1.2 = [20 * Second]
  /\ exists k w1 ans, @refused unit unit unit world example_acme (DNS01 tt) cl (MkObtain [go "a.com"] true []) k example_world w1
       /\ (k < 4)%nat /\ @Obtain unit unit unit world example_acme (DNS01 tt) cl (MkObtain [go "a.com"] true []) w1 = (ans, o.2).
Proof.
  intros cl o. split; [by vm_compute|].
  destruct (obtain_retries (Lego:=example_acme) (DNS01 tt) cl (MkObtain [go "a.com"] true []) (fun _ => false)
    example_world o.1.1 o.1.2 o.2) as (k & w1 & ans & H1 & H2 & H3 & _).
  - unfold o. by destruct (obtain _ _ _ _ _) as [[? ?] ?].
  - by exists k, w1, ans.
Defined.

Definition example_request : IssueRequest unit unit :=
  MkIssueRequest [go "Example.com."; go "*.example.com"; go "example.com"] [] [] (Some tt) None [].

Lemma Issue_sound_witness :
  let i := @Issue unit unit unit world no_unicode example_text example_acme (fun _ => false) example_request
             (Some empty_account) example_world in
  Domains <$> i.1.1 = Ok [go "*.example.com"; go "example.com"]
  /\ forall c, i.1.1 = Ok c -> @populated example_text c.
Proof.
  intros i. split; [by vm_compute|]. intros c Hc.
  destruct (Issue_sound (U:=no_unicode) (X:=example_text) (Lego:=example_acme) (fun _ => false) example_request
    (Some empty_account) example_world c i.1.2 i.2) as (_ & _ & _ & Hp & _).
  - unfold i in *. destruct (Issue _ _ _ _) as [[? ?] ?]. simpl in *. by subst.
  - exact Hp.
Defined.
