(* ===== verification/Http01.v ===== *)
(** Proving a domain over HTTP: [internal/manage/http01.go] and reachable.go.

    The authority fetches a file from the address a domain has, so the answer
    must be on the tunnel servers the domain points at.  [Resolver] is what the
    name servers answer during one call, [Announcer] what [client.Announce]
    ([Client.Announce]) does over a network whose state is [W]. *)
From S2P Require Import Prelude GoStrings Messages Config.

Class Resolver := {
  (** [net.ParseIP] and [String]. *)
  ip_text : bytes -> option bytes;
  (** [httpSolver.lookup]: the addresses of a name, sorted. *)
  lookup_host : bytes -> list bytes
}.

Class Announcer (W : Type) := {
  announce : Upstream -> Message -> W -> res bytes Message * W
}.

Record httpSolver := MkHttpSolver { h_servers : list Upstream }.

(** [SetHTTPChallengeServers]. *)
Definition SetHTTPChallengeServers (servers : list Upstream) : option httpSolver :=
  match servers with [] => None | _ => Some (MkHttpSolver servers) end.

Section reachable.
Context `{Resolver}.

Definition addressesOf (server : Upstream) : list bytes :=
  match ip_text (Addr server) with Some ip => [ip] | None => lookup_host (Addr server) end.

Definition serverAddresses (h : httpSolver) : gset bytes :=
  foldl (fun out server => out ∪ list_to_set (addressesOf server)) ∅ (h_servers h).

Definition intersects (addresses : list bytes) (expected : gset bytes) : bool :=
  existsb (fun a => bool_decide (a ∈ expected)) addresses.

Inductive verdict : Type := Problem | Confirmed | Unknown.

Definition classify (expected : gset bytes) (domain : bytes) : verdict :=
  match lookup_host domain with
  | [] => Unknown
  | addresses => if intersects addresses expected then Confirmed else Problem
  end.

Inductive note : Type :=
  | CouldNotTell
  | Unverified (domains : list bytes)
  | PointsHere (domains : list bytes).

#[export] Instance verdict_eq_dec : EqDecision verdict.
Proof. solve_decision. Defined.

(** The domains that point elsewhere are the error. *)
Definition checkReachable (h : httpSolver) (domains : list bytes) : res (list bytes) note :=
  let expected := serverAddresses h in
  if bool_decide (expected = ∅) then Ok CouldNotTell
  else
    let having v := filter (fun d => classify expected d = v) domains in
    match having Problem with
    | (_ :: _) as problems => Err problems
    | [] => match having Unknown with
            | (_ :: _) as unknown => Ok (Unverified unknown)
            | [] => Ok (PointsHere (having Confirmed))
            end
    end.

Definition serversFor (h : httpSolver) (domain : bytes) : list Upstream :=
  match lookup_host domain with
  | [] => []
  | addresses => filter (fun server => existsb (fun a => bool_decide (a ∈ addresses)) (addressesOf server) = true)
                   (h_servers h)
  end.

Definition others (h : httpSolver) (exclude : list Upstream) : list Upstream :=
  filter (fun server => u_Name server ∉ u_Name <$> exclude) (h_servers h).
End reachable.

Section solver.
Context `{Resolver} {W : Type} `{Ann : Announcer W}.

(** Did the server take the message? *)
Definition refusal (reply : res bytes Message) : option bytes :=
  match reply with
  | Err e => Some e
  | Ok (MHTTPChallengeResp ((_ :: _) as e)) => Some e
  | Ok _ => None
  end.

(** The loop of [send]: the failures, by server. *)
Fixpoint send_loop (servers : list Upstream) (message : Message) (w : W) : list (bytes * bytes) * W :=
  match servers with
  | [] => ([], w)
  | server :: servers =>
      let '(reply, w) := announce server message w in
      let '(failures, w) := send_loop servers message w in
      (match refusal reply with Some e => (u_Name server, e) :: failures | None => failures end, w)
  end.

Definition send (servers : list Upstream) (message : Message) (w : W) : res (list (bytes * bytes)) unit * W :=
  match servers with
  | [] => (Ok tt, w)
  | _ =>
      let '(failures, w) := send_loop servers message w in
      (if (length failures =? length servers)%nat then Err failures else Ok tt, w)
  end.

Definition Present (h : httpSolver) (domain token keyAuth : bytes) (w : W) : res (list (bytes * bytes)) unit * W :=
  let message := MHTTPChallenge (MkHTTPChallenge domain token keyAuth false) in
  match serversFor h domain with
  | (_ :: _) as required =>
      match send required message w with
      | (Err e, w) => (Err e, w)
      | (Ok _, w) => let '(_, w) := send (others h required) message w in (Ok tt, w)
      end
  | [] => send (h_servers h) message w
  end.

Definition CleanUp (h : httpSolver) (domain token keyAuth : bytes) (w : W) : res (list (bytes * bytes)) unit * W :=
  let '(_, w) := send (h_servers h) (MHTTPChallenge (MkHTTPChallenge domain token [] true)) w in (Ok tt, w).
End solver.

(** ** Which domains are refused *)

Section reachable_lemmas.
Context `{Resolver}.

Lemma serverAddresses_in h (a : bytes) : a ∈ serverAddresses h <-> exists s, s ∈ h_servers h /\ a ∈ addressesOf s.
Proof.
  unfold serverAddresses.
  assert (forall out : gset bytes, a ∈ foldl (fun out server => out ∪ list_to_set (addressesOf server)) out (h_servers h)
    <-> a ∈ out \/ exists s, s ∈ h_servers h /\ a ∈ addressesOf s) as E.
  { induction (h_servers h) as [|s l IH]; intros out; simpl; [set_solver|]. rewrite IH. set_solver. }
  rewrite E. set_solver.
Qed.

(** The domain points at one of the servers. *)
Definition points_here (h : httpSolver) (domain : bytes) : Prop :=
  exists (a : bytes) s, a ∈ lookup_host domain /\ s ∈ h_servers h /\ a ∈ addressesOf s.

Lemma intersects_points h domain :
  intersects (lookup_host domain) (serverAddresses h) = true <-> points_here h domain.
Proof.
  unfold intersects, points_here. rewrite existsb_exists. split.
  - intros (a & Ha%list_elem_of_In & (s & Hs & Has)%bool_decide_eq_true%serverAddresses_in). eauto.
  - intros (a & s & Ha & Hs & Has). exists a. split; [by apply list_elem_of_In|].
    apply bool_decide_eq_true, serverAddresses_in. eauto.
Qed.

(** A validation over HTTP is refused beforehand exactly when the servers'
    addresses are known and some domain resolves, but to none of them; the
    error names exactly these domains.  It is confirmed only if every domain
    points at a server. *)
Theorem checkReachable_spec h domains :
  match checkReachable h domains with
  | Err problems =>
      problems <> [] /\ forall d, d ∈ problems <-> d ∈ domains /\ lookup_host d <> [] /\ ~ points_here h d
  | Ok (PointsHere here) => here = domains /\ Forall (points_here h) domains
  | Ok (Unverified unknown) =>
      (forall d, d ∈ unknown <-> d ∈ domains /\ lookup_host d = []) /\ Forall (fun d => lookup_host d = [] \/ points_here h d) domains
  | Ok CouldNotTell => forall s, s ∈ h_servers h -> addressesOf s = []
  end.
Proof.
  unfold checkReachable.
  assert (Hc : forall d, match classify (serverAddresses h) d with
                         | Unknown => lookup_host d = []
                         | Confirmed => lookup_host d <> [] /\ points_here h d
                         | Problem => lookup_host d <> [] /\ ~ points_here h d
                         end).
  { intros d. pose proof (intersects_points h d) as Hp. unfold classify.
    destruct (lookup_host d) as [|a l] eqn:E; [done|].
    destruct (intersects (a :: l) (serverAddresses h)); (split; [done|]); naive_solver. }
  cbv zeta beta. case_bool_decide as He.
  { intros s Hs. destruct (addressesOf s) as [|a l] eqn:E; [done|].
    assert (a ∈ serverAddresses h) as Ha by (apply serverAddresses_in; exists s; rewrite E; set_solver).
    rewrite He in Ha. set_solver. }
  destruct (filter (fun d => classify (serverAddresses h) d = Problem) domains) as [|p ps] eqn:Ep.
  - assert (Hno : forall d, d ∈ domains -> classify (serverAddresses h) d <> Problem).
    { intros d Hd Hcl. assert (d ∈ filter (fun d => classify (serverAddresses h) d = Problem) domains) as Hin.
      { by apply list_elem_of_filter. }
      rewrite Ep in Hin. set_solver. }
    destruct (filter (fun d => classify (serverAddresses h) d = Unknown) domains) as [|u us] eqn:Eu.
    + assert (Hall : Forall (fun d => classify (serverAddresses h) d = Confirmed) domains).
      { apply Forall_forall. intros d Hd. specialize (Hno d Hd).
        destruct (classify (serverAddresses h) d) eqn:Hcl; [done|done|].
        assert (d ∈ filter (fun d => classify (serverAddresses h) d = Unknown) domains) as Hin by by apply list_elem_of_filter.
        rewrite Eu in Hin. set_solver. }
      split.
      * clear -Hall. induction Hall as [|d l Hd _ IH]; [done|]. by rewrite filter_cons_True, IH.
      * eapply Forall_impl; [exact Hall|]. intros d Hd. specialize (Hc d). rewrite Hd in Hc. apply Hc.
    + split.
      * intros d. rewrite <- Eu, list_elem_of_filter. specialize (Hc d).
        destruct (classify _ d); split; naive_solver.
      * apply Forall_forall. intros d Hd. specialize (Hc d). specialize (Hno d Hd).
        destruct (classify _ d); naive_solver.
  - split; [done|]. intros d. rewrite <- Ep, list_elem_of_filter. specialize (Hc d).
    destruct (classify _ d); split; naive_solver.
Qed.
End reachable_lemmas.

(** ** Who takes a challenge *)

Section publishing.
Context `{Resolver} {W : Type} `{Ann : Announcer W}.

(** A run of announcements of one message to the servers, in order, with every answer. *)
Inductive announced (message : Message) : list Upstream -> W -> list (res bytes Message) -> W -> Prop :=
  | announced_nil w : announced message [] w [] w
  | announced_cons s servers w r w1 rs w2 :
      announce s message w = (r, w1) -> announced message servers w1 rs w2 ->
      announced message (s :: servers) w (r :: rs) w2.

Definition takes (r : res bytes Message) : bool := bool_decide (refusal r = None).

Lemma send_loop_announced servers message w failures w' :
  send_loop servers message w = (failures, w') ->
  exists rs, announced message servers w rs w' /\ (length failures <= length servers)%nat
    /\ (length failures = length servers <-> Forall (fun r => takes r = false) rs).
Proof.
  revert w failures; induction servers as [|s servers IH]; intros w failures Hs; simpl in Hs.
  - simplify_eq. exists []. split_and!; [constructor|simpl; lia|]. by split; [constructor|].
  - destruct (announce s message w) as [r w1] eqn:Ea.
    destruct (send_loop servers message w1) as [fs w2] eqn:El. simplify_eq.
    apply IH in El as (rs & Hrs & Hle & Hall). exists (r :: rs). split; [by econstructor|].
    rewrite Forall_cons. destruct (refusal r) eqn:Er; simpl; (split; [lia|]).
    + assert (takes r = false) as -> by (unfold takes; by rewrite Er). rewrite <- Hall. naive_solver lia.
    + assert (takes r = true) as -> by (unfold takes; by rewrite Er). split; [lia|naive_solver].
Qed.

Lemma send_spec servers message w r w' :
  send servers message w = (r, w') ->
  exists rs, announced message servers w rs w'
    /\ (is_ok r = true <-> servers = [] \/ Exists (fun r => takes r = true) rs).
Proof.
  unfold send. destruct servers as [|s servers].
  - intros [= <- <-]. exists []. split; [constructor|]. simpl. naive_solver.
  - destruct (send_loop (s :: servers) message w) as [fs w1] eqn:El. intros [= <- <-].
    apply send_loop_announced in El as (rs & Hrs & Hle & Hall). exists rs. split; [done|].
    assert (Exists (fun r => takes r = true) rs <-> ~ Forall (fun r => takes r = false) rs) as ->.
    { clear. induction rs as [|r rs IH]; [rewrite Exists_nil; split; [done|intros []; constructor]|].
      rewrite Exists_cons, Forall_cons. destruct (takes r); naive_solver. }
    rewrite <- Hall. cbn [length]. destruct (Nat.eqb_spec (length fs) (S (length servers))) as [E|E]; cbv iota; unfold is_ok.
    + split; [done|]. by intros [?|[]].
    + split; [by right|done].
Qed.

(** A challenge counts as published exactly when one of the servers the
    domain points at took it, and it was offered to all of them and then to the
    others; when the domain points at none that is known, when one of all the
    servers took it. *)
Theorem Present_publishes h domain token keyAuth w r w' :
  Present h domain token keyAuth w = (r, w') ->
  let message := MHTTPChallenge (MkHTTPChallenge domain token keyAuth false) in
  match serversFor h domain with
  | [] => exists rs, announced message (h_servers h) w rs w'
            /\ (is_ok r = true <-> h_servers h = [] \/ Exists (fun r => takes r = true) rs)
  | required => exists rs w1, announced message required w rs w1
            /\ (is_ok r = true <-> Exists (fun r => takes r = true) rs)
            /\ (is_ok r = true -> exists rs', announced message (others h required) w1 rs' w')
  end.
Proof.
  unfold Present. destruct (serversFor h domain) as [|s required]; [by apply send_spec|].
  destruct (send (s :: required) _ w) as [[u|e] w1] eqn:Es; apply send_spec in Es as (rs & Hrs & Hok).
  - destruct (send (others h (s :: required)) _ w1) as [r2 w2] eqn:Eo. intros [= <- <-].
    apply send_spec in Eo as (rs' & Hrs' & _). exists rs, w1. split_and!; [done|naive_solver|eauto].
  - intros [= <- <-]. exists rs, w1. split_and!; [done|naive_solver|done].
Qed.
End publishing.

Definition example_resolver : Resolver := {|
  ip_text s := if bool_decide (s = go "192.0.2.1") then Some s else None;
  lookup_host s := if bool_decide (s = go "a.com") then [go "192.0.2.1"] else if bool_decide (s = go "b.com") then [go "192.0.2.9"] else []
|}.

Definition example_server (name addr : string) : Upstream :=
  MkUpstream (go name) [] [] [] (go addr) 7000 [] [] 0 0 (MkTransport [] true 0 0 false 0 0 0).

Definition example_solver : httpSolver :=
  MkHttpSolver [example_server "one" "192.0.2.1"; example_server "two" "nowhere"].

(** The servers take everything; the state counts the messages. *)
Definition example_announcer : Announcer nat := {| announce _ _ n := (Ok (MHTTPChallengeResp []), S n) |}.

Lemma Present_publishes_witness :
  let p := Present (H:=example_resolver) (Ann:=example_announcer) example_solver (go "a.com") (go "t") (go "k") 0%nat in
  p = (Ok tt, 2%nat)
  /\ exists rs w1, announced (Ann:=example_announcer) (MHTTPChallenge (MkHTTPChallenge (go "a.com") (go "t") (go "k") false))
       [example_server "one" "192.0.2.1"] 0%nat rs w1 /\ Exists (fun r => takes r = true) rs.
Proof.
  intros p. split; [by vm_compute|].
  destruct (Present_publishes (H:=example_resolver) (Ann:=example_announcer) example_solver (go "a.com") (go "t") (go "k")
    0%nat (Ok tt) 2%nat) as (rs & w1 & H1 & H2 & _); [by vm_compute|].
  exists rs, w1. split; [exact H1|by apply H2].
Defined.
