(* ===== verification/Orders.v ===== *)
(** Certificate orders: [internal/manage/cert.go] and certsource.go, over the
    database ([Storage]), the issuer ([Cert]), the DNS accounts ([Accounts]) and
    the HTTP solver ([Http01]).

    The state of the service is the database and the world [W] the ACME client
    works in.  Class [Outside] reads off the world what the rest of the service
    sees of it: the clock of SQLite and the state of the DNS providers. *)
From S2P Require Import Prelude GoStrings Schema Dns Storage Accounts Cert Http01.

Inductive ordererr : Type :=
  | OrderDB (e : dberr)
  | OrderCert (e : certerr)
  | OrderAccount (e : accounterr)
  | OrderZone (domain : bytes) (e : dnserr)
  | OrderNoDomain
  | OrderNoEmail
  | OrderKeyType (k : bytes)
  | OrderUnknownCA (ca : bytes)
  | OrderWildcardNeedsAccount
  | OrderNoServer
  | OrderUnreachable (domains : list bytes)
  | OrderNeedsBinding (ca : bytes)
  | OrderNotIssued (id : Z)
  | OrderPanic.

Record OrderInput := MkOrderInput {
  oi_Domains : list bytes; oi_KeyType : bytes; oi_CA : bytes; oi_Email : bytes; oi_AccountID : Z;
  oi_AutoRenew : option bool
}.

Record OrderView := MkOrderView {
  ov_ID : Z; ov_Domains : list bytes; ov_KeyType : bytes; ov_CA : bytes; ov_CALabel : bytes; ov_Email : bytes;
  ov_AccountID : Z; ov_AccountName : bytes; ov_State : bytes; ov_LastError : bytes; ov_AutoRenew : bool;
  ov_IssuedAt : Z; ov_ExpiresAt : Z; ov_DaysRemaining : Z; ov_Issuer : bytes; ov_SerialNumber : bytes
}.

(** [I] are provider instances over the remote state [P]. *)
Class Outside (I P W : Type) := {
  instance_provider : I -> Provider P;
  remote : W -> P;
  unixepoch : W -> Z;
  error_text : ordererr -> bytes;
  valid_until : Z -> bytes
}.

Section orders.
Context {I P Key W : Type} `{U : Unicode} `{Rx : Regexp} `{X : CertText} `{Res : Resolver}
  `{Lego : Acme Key (I * Solver) httpSolver W} `{Out : Outside I P W}.
Variable reg : gmap bytes (Dns.registration (I:=I)).
Variable http : option httpSolver.

(** [time.Unix(seconds, 0)], on the clock that starts at the zero time. *)
Definition from_unix (s : Z) : Z := (s + 62135596800) * Second.

Definition view_order (names : gmap Z bytes) (now : Z) (o : Order) : OrderView :=
  let ca := LookupCA (o_CA o) in
  let material := match o_Certificate o with
                  | [] => None
                  | chain => match Populate (MkCertificate [] chain [] 0 0 [] []) with Ok c => Some c | Err _ => None end
                  end in
  MkOrderView (o_ID o) (o_Domains o) (o_KeyType o) (o_CA o)
    (match ca with Some ca => ca_Label ca | None => o_CA o end) (o_Email o) (o_AccountID o)
    (default [] (names !! o_AccountID o)) (o_State o) (o_LastError o) (default false (o_AutoRenew o))
    (o_IssuedAt o) (o_ExpiresAt o)
    (if 0 <? o_ExpiresAt o then days_between (from_unix (o_ExpiresAt o)) now else 0)
    (match material with Some c => Issuer c | None => [] end)
    (match material with Some c => SerialNumber c | None => [] end).

(** A failure to list the accounts only loses their names. *)
Definition ListOrders (now : Z) (d : DB) : res ordererr (list OrderView) * DB :=
  match Orders_List d with
  | (Err e, d) => (Err (OrderDB e), d)
  | (Ok l, d) =>
      let '(accounts, d) := Accounts_List d in
      let names := match accounts with
                   | Ok l => foldl (fun m a => <[acc_ID a := acc_Name a]> m) ∅ l
                   | Err _ => ∅
                   end in
      (Ok (view_order names now <$> l), d)
  end.

(** ** Ordering *)

Definition CreateOrder (now : Z) (inp : OrderInput) (d : DB) (w : W) : res ordererr OrderView * DB :=
  let domains := NormaliseDomains (oi_Domains inp) in
  if bool_decide (domains = []) then (Err OrderNoDomain, d)
  else if bool_decide (oi_Email inp = []) then (Err OrderNoEmail, d)
  else
    let keyType := if bool_decide (oi_KeyType inp = []) then KeyECDSA256 else oi_KeyType inp in
    if negb (Valid keyType) then (Err (OrderKeyType (oi_KeyType inp)), d)
    else
      let ca := if bool_decide (oi_CA inp = []) then go "letsencrypt" else oi_CA inp in
      if negb (bool_decide (is_Some (LookupCA ca))) then (Err (OrderUnknownCA ca), d)
      else if NeedsDNSChallenge domains && (oi_AccountID inp =? 0) then (Err OrderWildcardNeedsAccount, d)
      else if (oi_AccountID inp =? 0) && negb (bool_decide (is_Some http)) then (Err OrderNoServer, d)
      else
        match (if oi_AccountID inp =? 0 then (Ok tt, d)
               else let '(r, d) := Accounts_Get (oi_AccountID inp) d in ((fun _ => tt) <$> r, d)) with
        | (Err e, d) => (Err (OrderDB e), d)
        | (Ok _, d) =>
            match Orders_Create (unixepoch w)
                    (MkOrder 0 domains keyType ca (oi_AccountID inp) (oi_Email inp) (oi_AutoRenew inp) [] [] [] [] 0 0 0 0) d with
            | (Err e, d) => (Err (OrderDB e), d)
            | (Ok created, d) =>
                let '(_, d) := AppendEvent (unixepoch w) (o_ID created) (go "requested") [] d in
                (Ok (view_order ∅ now created), d)
            end
        end.

Definition DeleteOrder (id : Z) (d : DB) : res ordererr unit * DB :=
  let '(r, d) := Orders_Delete id d in (map_err OrderDB r, d).

Definition Material (id : Z) (d : DB) : res ordererr bytes * DB :=
  match Orders_Get id d with
  | (Err e, d) => (Err (OrderDB e), d)
  | (Ok o, d) => (match o_Certificate o with [] => Err (OrderNotIssued id) | c => Ok c end, d)
  end.

(** ** The ACME account of an order *)

(** The binding of the authority, if the database has one. *)
Definition find_binding (ca : bytes) (d : DB) : option (bytes * bytes) * DB :=
  let '(r, d) := FindEAB ca d in (match r with Ok b => Some b | Err _ => None end, d).

Definition acmeAccount (ca email : bytes) (d : DB) : res ordererr (AcmeAccount Key) * DB :=
  match Find ca email d with
  | (Err _, d) =>
      let '(b, d) := find_binding ca d in
      (Ok (MkAcmeAccount email [] [] (match b with Some b => b.1 | None => [] end)
             (match b with Some b => b.2 | None => [] end) None None), d)
  | (Ok stored, d) =>
      let '(ids, d) := match am_EABKeyID stored with
                       | [] => let '(b, d) := find_binding ca d in
                               (default (am_EABKeyID stored, am_EABHMAC stored) b, d)
                       | _ => ((am_EABKeyID stored, am_EABHMAC stored), d)
                       end in
      (map_err OrderCert (LoadRegistration (am_Registration stored)
         (MkAcmeAccount (am_Email stored) (am_PrivateKey stored) [] ids.1 ids.2 None None)), d)
  end.

Definition saveACMEAccount (ca : bytes) (a : AcmeAccount Key) (d : DB) (w : W) : res ordererr unit * DB :=
  let '(r, d) := Save (unixepoch w) (MkACMEAccount 0 ca (Email a) (PrivateKey a) (MarshalRegistration a)
                                  (EABKeyID a) (EABHMAC a) 0) d in
  ((fun _ => tt) <$> map_err OrderDB r, d).

(** ** Issuing *)

(** How the order proves its domains. *)
Definition challenge_of (o : Order) (d : DB) (w : W)
  : res ordererr (option (I * Solver) * option httpSolver) * DB :=
  if negb (o_AccountID o =? 0) then
    match provider reg (o_AccountID o) d with
    | (Err e, d) => (Err (OrderAccount e), d)
    | (Ok i, d) =>
        match o_Domains o with
        | [] => (Err OrderPanic, d)
        | domain :: _ =>
            match RegistrableZone (Prov:=instance_provider i) domain (remote w) with
            | Err e => (Err (OrderZone domain e), d)
            | Ok zone => (Ok (Some (i, NewSolver zone), None), d)
            end
        end
    end
  else if NeedsDNSChallenge (o_Domains o) then (Err OrderWildcardNeedsAccount, d)
  else match http with
       | None => (Err OrderNoServer, d)
       | Some h => match checkReachable h (o_Domains o) with
                   | Err problems => (Err (OrderUnreachable problems), d)
                   | Ok _ => (Ok (None, Some h), d)
                   end
       end.

Definition issue (cancelled : nat -> bool) (o : Order) (d : DB) (w : W) : res ordererr Certificate * DB * W :=
  match LookupCA (o_CA o) with
  | None => (Err (OrderUnknownCA (o_CA o)), d, w)
  | Some ca =>
      match acmeAccount (ca_Key ca) (o_Email o) d with
      | (Err e, d) => (Err e, d, w)
      | (Ok account, d) =>
          if RequiresEAB ca && bool_decide (EABKeyID account = []) then (Err (OrderNeedsBinding (ca_Label ca)), d, w)
          else match challenge_of o d w with
          | (Err e, d) => (Err e, d, w)
          | (Ok (dns, http), d) =>
              match Cert.Issue cancelled (MkIssueRequest (o_Domains o) (ca_Key ca) (o_KeyType o) dns http []) (Some account) w with
              | (Err e, _, w) => (Err (OrderCert e), d, w)
              | (Ok certificate, account', w) =>
                  match saveACMEAccount (ca_Key ca) (default account account') d w with
                  | (Err e, d) => (Err e, d, w)
                  | (Ok _, d) => (Ok certificate, d, w)
                  end
              end
          end
      end
  end.

Definition Issue (cancelled : nat -> bool) (id : Z) (d : DB) (w : W) : res ordererr unit * DB * W :=
  match Orders_Get id d with
  | (Err e, d) => (Err (OrderDB e), d, w)
  | (Ok order, d) =>
      match SetState (unixepoch w) id StateIssuing [] d with
      | (Err e, d) => (Err (OrderDB e), d, w)
      | (Ok _, d) =>
          match issue cancelled order d w with
          | (Err e, d, w) =>
              let '(_, d) := SetState (unixepoch w) id StateFailed (error_text e) d in
              let '(_, d) := AppendEvent (unixepoch w) id (go "failed") (error_text e) d in
              (Err e, d, w)
          | (Ok c, d, w) =>
              match StoreCertificate (unixepoch w) id (FullchainPEM c) (PrivateKeyPEM c) (Unix (IssuedAt c))
                      (Unix (NotAfter c)) d with
              | (Err e, d) => (Err (OrderDB e), d, w)
              | (Ok _, d) =>
                  let kind := if 0 <? o_IssuedAt order then go "renewed" else go "issued" in
                  let '(_, d) := AppendEvent (unixepoch w) id kind (valid_until (NotAfter c)) d in
                  (Ok tt, d, w)
              end
          end
      end
  end.

(** ** External account bindings *)

Record EABState := MkEABState {
  eab_Required : bool; eab_Present : bool; eab_CA : bytes; eab_CALabel : bytes; eab_Email : bytes; eab_HowToGet : bytes
}.

Definition eabSource (ca : bytes) : bytes :=
  if bool_decide (ca = go "zerossl") then go "https://app.zerossl.com/developer"
  else if bool_decide (ca = go "google") then go "https://console.cloud.google.com/security/publicca"
  else [].

Definition EABStatusFor (caKey email : bytes) (d : DB) : res ordererr EABState * DB :=
  match LookupCA caKey with
  | None => (Err (OrderUnknownCA caKey), d)
  | Some ca =>
      if negb (RequiresEAB ca) then (Ok (MkEABState false false (ca_Key ca) (ca_Label ca) email []), d)
      else
        let '(r, d) := FindEAB (ca_Key ca) d in
        let present := match r with Ok (keyID, _) => negb (bool_decide (keyID = [])) | Err _ => false end in
        (Ok (MkEABState true present (ca_Key ca) (ca_Label ca) email (eabSource (ca_Key ca))), d)
  end.

Definition EABStatus (orderID : Z) (d : DB) : res ordererr EABState * DB :=
  match Orders_Get orderID d with
  | (Err e, d) => (Err (OrderDB e), d)
  | (Ok o, d) => EABStatusFor (o_CA o) (o_Email o) d
  end.

Definition SetEAB (ca email keyID hmac : bytes) (d : DB) (w : W) : res ordererr unit * DB :=
  let '(r, d) := Find ca email d in
  let existing := match r with Ok a => a | Err _ => MkACMEAccount 0 ca email [] [] [] [] 0 end in
  let '(r, d) := Save (unixepoch w) (MkACMEAccount (am_ID existing) (am_CA existing) (am_Email existing)
                   (am_PrivateKey existing) (am_Registration existing) keyID hmac (am_CreatedAt existing)) d in
  ((fun _ => tt) <$> map_err OrderDB r, d).

(** ** What the tunnel client serves (certsource.go) *)

Record served := MkServed { sv_Domains : list bytes; sv_Fullchain : bytes; sv_PrivateKey : bytes; sv_NotAfter : Z }.

Definition CertSource_Certificate (id : Z) (d : DB) : res ordererr served * DB :=
  match Orders_Get id d with
  | (Err e, d) => (Err (OrderDB e), d)
  | (Ok o, d) =>
      if bool_decide (o_Certificate o = []) || bool_decide (o_PrivateKey o = []) then (Err (OrderNotIssued id), d)
      else
        (Ok match Populate (MkCertificate [] (o_Certificate o) (o_PrivateKey o) 0 0 [] []) with
            | Ok c => MkServed (Domains c) (o_Certificate o) (o_PrivateKey o) (Unix (NotAfter c))
            | Err _ => MkServed (o_Domains o) (o_Certificate o) (o_PrivateKey o) (o_ExpiresAt o)
            end, d)
  end.
End orders.

(** ** What issuing touches *)

(** Nothing but the ACME accounts differs. *)
Definition same_but_acme (d d' : DB) : Prop :=
  accounts d' = accounts d /\ orders d' = orders d /\ events d' = events d
  /\ last_account d' = last_account d /\ last_order d' = last_order d.

Lemma same_tables_but_acme d d' : same_tables d d' -> same_but_acme d d'.
Proof. unfold same_tables, same_but_acme. tauto. Qed.

Lemma same_but_acme_trans d d1 d2 : same_but_acme d d1 -> same_but_acme d1 d2 -> same_but_acme d d2.
Proof. unfold same_but_acme. intuition congruence. Qed.

Lemma same_tables_acme_ok d d' : same_tables d d' -> acme_ok d -> acme_ok d'.
Proof. intros (_ & _ & _ & H4 & _ & _ & _ & H8). unfold acme_ok. by rewrite H4, H8. Qed.

Lemma LookupCA_key key ca : LookupCA key = Some ca -> ca_Key ca = key.
Proof. intros [_ Hk]%find_some. by bool_facts. Qed.

Section issuing.
Context {I P Key W : Type} `{U : Unicode} `{Rx : Regexp} `{X : CertText} `{Res : Resolver}
  `{Lego : Acme Key (I * Solver) httpSolver W} `{Out : Outside I P W}.
Variable reg : gmap bytes (Dns.registration (I:=I)).
Variable http : option httpSolver.

Lemma provider_same id d r d' : provider reg id d = (r, d') -> same_tables d d'.
Proof.
  unfold provider. destruct (Accounts_Get id d) as [[a|e] d1] eqn:E; apply Accounts_Get_same in E;
    intros [= _ <-]; done.
Qed.

Lemma challenge_of_same o d w r d' : challenge_of reg http o d w = (r, d') -> same_tables d d'.
Proof.
  unfold challenge_of. destruct (negb (o_AccountID o =? 0)).
  - destruct (provider reg (o_AccountID o) d) as [[i|e] d1] eqn:E; apply provider_same in E; [|by intros [= _ <-]].
    destruct (o_Domains o) as [|x l]; [by intros [= _ <-]|]. destruct (RegistrableZone _ _); by intros [= _ <-].
  - destruct (NeedsDNSChallenge _); [by intros [= _ <-]|]. destruct http as [h|]; [|by intros [= _ <-]].
    destruct (checkReachable h _); by intros [= _ <-].
Qed.

Lemma find_binding_same ca d r d' : find_binding ca d = (r, d') -> same_tables d d'.
Proof.
  unfold find_binding. destruct (FindEAB ca d) as [x d1] eqn:E. apply FindEAB_same in E. by intros [= _ <-].
Qed.

(** An account as the database gives it: the stored key, and a registration that is usable. *)
Definition loaded (a : AcmeAccount Key) : Prop :=
  key a = None /\ forall r, registration a = Some r -> URI r <> [].

Lemma LoadRegistration_ok raw a a' :
  LoadRegistration raw a = Ok a' -> registration a = None ->
  Email a' = Email a /\ PrivateKey a' = PrivateKey a /\ key a' = key a /\ EABKeyID a' = EABKeyID a
  /\ (forall r, registration a' = Some r -> URI r <> []).
Proof.
  unfold LoadRegistration. intros Hl Hn. destruct raw as [|b raw]; [by simplify_eq; rewrite Hn|].
  destruct (UnmarshalResource _) as [r|]; [|done]. case_bool_decide; simplify_eq; [by rewrite Hn|].
  cbn. split_and!; try done. by intros r' [= <-].
Qed.

Lemma acmeAccount_ok ca email d r d' :
  acmeAccount ca email d = (r, d') -> same_tables d d' /\ forall a, r = Ok a -> Email a = email /\ loaded a.
Proof.
  unfold acmeAccount. destruct (Find ca email d) as [[stored|e] d1] eqn:Ef; apply Find_spec in Ef as [Hs Hf].
  - specialize (Hf stored eq_refl). apply acme_of_Some in Hf as (_ & He & _).
    assert (Hids : exists ids d2, same_tables d1 d2 /\ match am_EABKeyID stored with
                       | [] => let '(b, d) := find_binding ca d1 in (default (am_EABKeyID stored, am_EABHMAC stored) b, d)
                       | _ => ((am_EABKeyID stored, am_EABHMAC stored), d1)
                       end = (ids, d2)).
    { destruct (am_EABKeyID stored); [|by exists (b :: l, am_EABHMAC stored), d1].
      destruct (find_binding ca d1) as [b d2] eqn:E. apply find_binding_same in E. by exists (default ([], am_EABHMAC stored) b), d2. }
    destruct Hids as (ids & d2 & Hs2 & ->). intros [= <- <-]. split; [by etrans|].
    intros a Ha. destruct (LoadRegistration _ _) as [a'|] eqn:El; [|done]. simplify_eq/=.
    apply LoadRegistration_ok in El as (E1 & _ & E3 & _ & E5); [|done]. by rewrite E1.
  - destruct (find_binding ca d1) as [b d2] eqn:E. apply find_binding_same in E. intros [= <- <-].
    split; [by etrans|]. intros a [= <-]. by split_and!.
Qed.

Lemma saveACMEAccount_spec ca (a : AcmeAccount Key) d w r d' :
  acme_ok d -> saveACMEAccount ca a d w = (r, d') ->
  acme_ok d' /\ same_but_acme d d'
  /\ (r = Ok tt -> exists row, acme_of ca (Email a) (acme d') = Some row
        /\ am_CA row = ca /\ am_Email row = Email a /\ am_EABKeyID row = EABKeyID a
        /\ (PrivateKey a <> [] -> am_PrivateKey row = PrivateKey a)
        /\ (MarshalRegistration a <> [] -> am_Registration row = MarshalRegistration a)).
Proof.
  intros Hok. unfold saveACMEAccount. destruct (Save _ _ d) as [rs d1] eqn:E.
  apply Save_spec in E as (Hok' & H1 & H2 & H3 & H4 & H5 & Hrow); [|done]. intros [= <- <-].
  split; [done|]. split; [by unfold same_but_acme|]. destruct Hrow as [[Hr _]|(Hr & row & Hsaved & Hof)]; [by destruct rs|].
  intros _. exists row. cbn in Hof, Hsaved. destruct Hsaved as (S1 & S2 & S3 & _ & S5 & S6). cbn in *.
  split_and!; try done.
  - intros Hp. rewrite S5. by destruct (PrivateKey a).
  - intros Hm. rewrite S6. by destruct (MarshalRegistration a).
Qed.

(** The authority's answer to a request for a certificate of these names, after
    which the world is [w']. *)
Definition authority_gave (names : list bytes) (m : bytes * bytes) (w' : W) : Prop :=
  exists sol cl w0, Obtain sol cl (MkObtain (NormaliseDomains names) true []) w0 = (Ok m, w').

(** What [issue] does to the database, and what it gives. *)
Lemma issue_spec cancelled o d w r d' w' :
  acme_ok d -> issue reg http cancelled o d w = (r, d', w') ->
  acme_ok d' /\ same_but_acme d d'
  /\ forall c, r = Ok c -> populated c /\ Domains c = NormaliseDomains (o_Domains o) /\ Domains c <> []
     /\ authority_gave (o_Domains o) (FullchainPEM c, PrivateKeyPEM c) w'.
Proof.
  intros Hok. unfold issue. destruct (LookupCA (o_CA o)) as [ca|]; [|by intros [= <- <- <-]].
  destruct (acmeAccount _ _ d) as [[a|e] d1] eqn:Ea; apply acmeAccount_ok in Ea as [Hs1 _].
  2: { intros [= <- <- <-]. split_and!; [by eapply same_tables_acme_ok|by apply same_tables_but_acme|done]. }
  destruct (_ && _); [intros [= <- <- <-]; split_and!; [by eapply same_tables_acme_ok|by apply same_tables_but_acme|done]|].
  destruct (challenge_of _ _ o d1 w) as [[[dns ht]|e] d2] eqn:Ec; apply challenge_of_same in Ec;
    assert (Hs2 : same_tables d d2) by (by etrans).
  2: { intros [= <- <- <-]. split_and!; [by eapply same_tables_acme_ok|by apply same_tables_but_acme|done]. }
  destruct (Cert.Issue _ _ _ w) as [[[c|e] acc] w1] eqn:Ei.
  2: { intros [= <- <- <-]. split_and!; [by eapply same_tables_acme_ok|by apply same_tables_but_acme|done]. }
  apply Issue_sound in Ei as (Hd & Hne & _ & Hp & a0 & a1 & sol & ca0 & kt & w2 & _ & _ & _ & _ & _ & _ & _ & _ & Hgave). cbn in Hd, Hgave.
  rewrite Hd in Hgave.
  destruct (saveACMEAccount _ _ d2 w1) as [rs d3] eqn:Es.
  apply saveACMEAccount_spec in Es as (Hok3 & Hs3 & _); [|by eapply same_tables_acme_ok].
  assert (same_but_acme d d3) by (eapply same_but_acme_trans; [by apply same_tables_but_acme|done]).
  destruct rs as [[]|e]; intros [= <- <- <-]; (split_and!; [done..|]); [|done].
  intros c' [= <-]. split_and!; [done..|]. by eexists _, _, _.
Qed.

(** Once a certificate was issued, the account it was issued to is the one every
    later order of this authority and address is signed with: it comes back from
    the database registered, with its key, and nothing is registered again. *)
Theorem account_reused `{Laws : !AcmeLaws Key (I * Solver) httpSolver W} cancelled o d w c d' w' :
  acme_ok d -> issue reg http cancelled o d w = (Ok c, d', w') -> works d' = [] ->
  exists (a : AcmeAccount Key) k d2, acmeAccount (o_CA o) (o_Email o) d' = (Ok a, d2)
    /\ key_text (Lego:=Lego) (PrivateKey a) k
    /\ (forall w, ensureKey a w = (Ok tt, with_key (PrivateKey a) k a, w))
    /\ (forall cl ca w, register cl ca (with_key (PrivateKey a) k a) w = (Ok (with_key (PrivateKey a) k a), w)).
Proof.
  intros Hok Hi Hw. unfold issue in Hi. destruct (LookupCA (o_CA o)) as [ca|] eqn:Hca; [|done].
  apply LookupCA_key in Hca. rewrite Hca in Hi.
  destruct (acmeAccount _ _ d) as [[a|e] d1] eqn:Ea; [|done]. apply acmeAccount_ok in Ea as [Hs1 Ha].
  destruct (Ha a eq_refl) as [Hemail [Hnokey Huri]]. destruct (_ && _); [done|].
  destruct (challenge_of _ _ o d1 w) as [[[dns ht]|e] d2] eqn:Ec; [|done]. apply challenge_of_same in Ec.
  destruct (Cert.Issue _ _ _ w) as [[[c1|e] acc] w1] eqn:Ei; [|done].
  apply Issue_account in Ei as (a' & r & k & -> & He & Hr & Hu & Hk & Htext); [|done..].
  destruct (saveACMEAccount _ _ d2 w1) as [[[]|e] d3] eqn:Es; [|done]. injection Hi as -> -> ->.
  apply saveACMEAccount_spec in Es as (_ & _ & Hrow); [|eapply same_tables_acme_ok; [exact (same_tables_trans _ _ _ Hs1 Ec)|done]].
  destruct (Hrow eq_refl) as (row & Hof & _ & Hre & _ & Hpk & Hreg). cbn in Hof, Hpk, Hreg, Hre.
  rewrite He, Hemail in Hof. unfold MarshalRegistration in Hreg. rewrite Hr in Hreg.
  specialize (Hreg (resource_text r)). destruct Htext as [Hne Hparse]. specialize (Hpk Hne).
  unfold acmeAccount, Find. rewrite execute_works, Hof by done.
  set (ids := match am_EABKeyID row with [] => _ | _ => _ end). destruct ids as [ids d4].
  unfold LoadRegistration. rewrite Hreg, resource_roundtrip.
  destruct (MarshalResource r) as [|b l] eqn:Em; [by destruct (resource_text r)|]. rewrite <- Em.
  rewrite bool_decide_eq_false_2 by done. cbn.
  eexists _, k, d4. split; [reflexivity|]. cbn. rewrite Hpk. split; [by split|]. split.
  - intros w2. unfold ensureKey. cbn. destruct (PrivateKey a') as [|b' l'] eqn:Ep; [done|].
    destruct Hparse as (kind & der & -> & ->). done.
  - intros cl ca' w2. unfold register. cbn. done.
Qed.
End issuing.

(** ** The life of an order *)

(** What issuing makes of a row: everything ordered stays; the material is kept,
    or replaced together with the dates by a certificate that was issued, which
    is one it [got]. *)
Definition progress `{Unicode} `{CertText} (got : bytes * bytes -> Prop) (row row' : order_row) : Prop :=
  r_domains row' = r_domains row /\ r_key_type row' = r_key_type row /\ r_ca row' = r_ca row
  /\ r_account row' = r_account row /\ r_email row' = r_email row /\ r_auto_renew row' = r_auto_renew row
  /\ r_created_at row' = r_created_at row
  /\ ((r_state row' = StateIssuing \/ r_state row' = StateFailed)
        /\ r_certificate row' = r_certificate row /\ r_private_key row' = r_private_key row
        /\ r_issued_at row' = r_issued_at row /\ r_expires_at row' = r_expires_at row
      \/ exists c, populated c /\ Domains c = NormaliseDomains (r_domains row) /\ got (FullchainPEM c, PrivateKeyPEM c)
        /\ r_state row' = StateIssued
        /\ r_last_error row' = []
        /\ r_certificate row' = FullchainPEM c /\ r_private_key row' = PrivateKeyPEM c
        /\ r_issued_at row' = Some (Unix (IssuedAt c)) /\ r_expires_at row' = Some (Unix (NotAfter c))).

(** What an operation on order [id] may do to the database, [got] saying which
    material it got for the names of the order. *)
Definition order_effect `{Unicode} `{CertText} (got : list bytes -> bytes * bytes -> Prop) (id : Z) (d d' : DB) : Prop :=
  accounts d' = accounts d /\ last_account d' = last_account d /\ last_order d' = last_order d
  /\ (events d' = events d \/ exists e, e_order e = id /\ is_Some (orders d !! id) /\ events d' = events d ++ [e])
  /\ (orders d' = orders d
      \/ exists row row', orders d !! id = Some row /\ progress (got (r_domains row)) row row' /\ orders d' = <[id := row']> (orders d)).

Section life.
Context {I P Key W : Type} `{U : Unicode} `{Rx : Regexp} `{X : CertText} `{Res : Resolver}
  `{Lego : Acme Key (I * Solver) httpSolver W} `{Out : Outside I P W}.
Variable reg : gmap bytes (Dns.registration (I:=I)).
Variable http : option httpSolver.

(** The database [d0] with row [row] for order [id]. *)
Definition at_row (id : Z) (d0 : DB) (row : order_row) (d : DB) : Prop :=
  same_but_acme (set_orders (<[id := row]> (orders d0)) d0) d /\ acme_ok d.

Lemma at_row_start id d0 row d : orders d0 !! id = Some row -> same_tables d0 d -> acme_ok d0 -> at_row id d0 row d.
Proof.
  intros Hr Hs Hok. split; [|by eapply same_tables_acme_ok].
  apply same_tables_but_acme in Hs. unfold same_but_acme in *. cbn. rewrite insert_id by done. done.
Qed.

Lemma at_row_issue cancelled id d0 row o d w r d' w' :
  at_row id d0 row d -> issue reg http cancelled o d w = (r, d', w') -> at_row id d0 row d'.
Proof.
  intros [Hs Hok] Hi. apply issue_spec in Hi as (Hok' & Hs' & _); [|done].
  split; [|done]. by eapply same_but_acme_trans.
Qed.

Lemma at_row_update id d0 row d f r d' :
  at_row id d0 row d -> update_order id f d = (r, d') -> at_row id d0 (if is_ok r then f row else row) d'.
Proof.
  intros [Hs Hok] [[Hs' ->]|(row1 & -> & Hr & Hs')]%update_order_spec; cbn.
  - split; [|by eapply same_tables_acme_ok]. eapply same_but_acme_trans; [done|by apply same_tables_but_acme].
  - assert (Ho : orders d = <[id := row]> (orders d0)) by apply Hs.
    rewrite Ho, lookup_insert_eq in Hr. injection Hr as <-. rewrite Ho, insert_insert_eq in Hs'. split.
    + destruct Hs as (A1 & A2 & A3 & A4 & A5). destruct Hs' as (B1 & B2 & B3 & B4 & B5 & B6 & B7 & B8). cbn in *.
      unfold same_but_acme. cbn. by split_and!; congruence.
    + destruct Hs' as (_ & _ & _ & B4 & _ & _ & _ & B8). unfold acme_ok in *. cbn in *. by rewrite B4, B8.
Qed.

Lemma at_row_append got now kind detail id d0 row row' d r d' :
  orders d0 !! id = Some row -> progress (got (r_domains row)) row row' \/ row' = row -> at_row id d0 row' d ->
  AppendEvent now id kind detail d = (r, d') -> acme_ok d' /\ order_effect got id d0 d'.
Proof.
  intros Hr Hp [(A1 & A2 & A3 & A4 & A5) Hok] Ha. cbn in *.
  assert (Hord : orders d' = <[id := row']> (orders d0) -> orders d' = orders d0
    \/ exists row row', orders d0 !! id = Some row /\ progress (got (r_domains row)) row row' /\ orders d' = <[id := row']> (orders d0)).
  { intros Ho. destruct Hp as [Hp| ->]; [right; by exists row, row'|left]. by rewrite Ho, insert_id. }
  apply AppendEvent_spec in Ha as [Hs|(_ & e & He & _ & B1 & B2 & B3 & B4 & B5 & B6 & B7)].
  - split; [by eapply same_tables_acme_ok|]. destruct Hs as (B1 & B2 & B3 & _ & B5 & B6 & _).
    unfold order_effect. split_and!; [congruence..|left; congruence|]. apply Hord. congruence.
  - split; [unfold acme_ok in *; by rewrite B4, B7|]. unfold order_effect.
    split_and!; [congruence..|right; exists e; split_and!; [done|eauto|congruence]|]. apply Hord. congruence.
Qed.

(** No event: the row alone. *)
Lemma at_row_effect got id d0 row row' d :
  orders d0 !! id = Some row -> progress (got (r_domains row)) row row' \/ row' = row -> at_row id d0 row' d ->
  acme_ok d /\ order_effect got id d0 d.
Proof.
  intros Hr Hp [(A1 & A2 & A3 & A4 & A5) Hok]. cbn in *. split; [done|]. unfold order_effect.
  split_and!; [done..|by left|]. destruct Hp as [Hp| ->]; [right; by exists row, row'|left]. by rewrite A2, insert_id.
Qed.

Lemma progress_state got row text now1 :
  progress got row (set_state StateIssuing text now1 row).
Proof. unfold progress. cbn. split_and!; try done. left. auto. Qed.

Lemma progress_failed got row t1 n1 t2 n2 b :
  progress got row (if b : bool then set_state StateFailed t2 n2 (set_state StateIssuing t1 n1 row) else set_state StateIssuing t1 n1 row).
Proof. unfold progress. destruct b; cbn; split_and!; try done; left; auto. Qed.

Lemma progress_stored (got : bytes * bytes -> Prop) row t1 n1 n2 c (b : bool) :
  populated c -> Domains c = NormaliseDomains (r_domains row) -> got (FullchainPEM c, PrivateKeyPEM c) ->
  progress got row (if b then store_certificate (FullchainPEM c) (PrivateKeyPEM c) (Unix (IssuedAt c)) (Unix (NotAfter c)) n2
                         (set_state StateIssuing t1 n1 row) else set_state StateIssuing t1 n1 row).
Proof.
  intros Hc Hd Hg. unfold progress. destruct b; cbn; split_and!; try done; [right|left; auto]. by exists c.
Qed.

Lemma Issue_effect cancelled id d w r d' w' :
  acme_ok d -> Issue reg http cancelled id d w = (r, d', w') ->
  acme_ok d' /\ order_effect (fun names m => authority_gave names m w') id d d'.
Proof.
  intros Hok. unfold Issue.
  destruct (Orders_Get id d) as [[o|e] d1] eqn:Eg; apply Orders_Get_spec in Eg as [Hs1 Ho].
  2: { intros [= <- <- <-]. split; [by eapply same_tables_acme_ok|].
       destruct Hs1 as (H1 & H2 & H3 & _ & H5 & H6 & _). unfold order_effect. auto 10. }
  destruct (Ho o eq_refl) as (row & Hrow & ->). clear Ho.
  pose proof (at_row_start id d row d1 Hrow Hs1 Hok) as R1.
  destruct (SetState _ id StateIssuing [] d1) as [rs d2] eqn:Es. apply (at_row_update _ _ _ _ _ _ _ R1) in Es as R2.
  cbn [is_ok] in R2. destruct rs as [[]|e]; [|intros [= <- <- <-]; by eapply at_row_effect; eauto].
  destruct (issue reg http cancelled (scanOrder id row) d2 w) as [[ri d3] w3] eqn:Ei.
  pose proof (at_row_issue _ _ _ _ _ _ _ _ _ _ R2 Ei) as R3.
  apply issue_spec in Ei as (_ & _ & Hc); [|apply R2]. destruct ri as [c|e].
  - destruct (Hc c eq_refl) as (Hp & Hd & _ & Hgave). cbn in Hd, Hgave.
    destruct (StoreCertificate _ id _ _ _ _ d3) as [rs d4] eqn:Ec. apply (at_row_update _ _ _ _ _ _ _ R3) in Ec as R4.
    destruct rs as [[]|e]; [|intros [= <- <- <-]; eapply at_row_effect; [done| |exact R4]; left; apply progress_state].
    destruct (AppendEvent _ id _ _ d4) as [ra d5] eqn:Ea. intros [= <- <- <-].
    eapply at_row_append; [done| |exact R4|exact Ea]. left. by apply (progress_stored _ _ _ _ _ _ true).
  - destruct (SetState _ id StateFailed _ d3) as [rs d4] eqn:Ec. apply (at_row_update _ _ _ _ _ _ _ R3) in Ec as R4.
    destruct (AppendEvent _ id _ _ d4) as [ra d5] eqn:Ea. intros [= <- <- <-].
    eapply at_row_append; [done| |exact R4|exact Ea]. left. apply progress_failed.
Qed.
End life.

(** ** The invariant of the database *)

Definition states : list bytes := [StatePending; StateIssuing; StateIssued; StateFailed].

(** An order asks for something an authority can be asked for; it has material
    exactly when it has dates, and it has material when it is issued. *)
Definition row_ok (r : order_row) : Prop :=
  r_domains r <> [] /\ Valid (r_key_type r) = true /\ is_Some (LookupCA (r_ca r)) /\ r_email r <> []
  /\ r_state r ∈ states
  /\ (r_certificate r <> [] <-> is_Some (r_issued_at r)) /\ (is_Some (r_issued_at r) <-> is_Some (r_expires_at r))
  /\ (r_state r = StateIssued -> r_certificate r <> []).

Definition accounts_ok (d : DB) : Prop :=
  (forall k a, accounts d !! k = Some a -> acc_ID a = k /\ k <= last_account d)
  /\ (forall k1 k2 a1 a2, accounts d !! k1 = Some a1 -> accounts d !! k2 = Some a2 -> acc_Name a1 = acc_Name a2 -> k1 = k2).

Definition orders_ok (d : DB) : Prop :=
  (forall k r, orders d !! k = Some r -> row_ok r /\ k <= last_order d
     /\ forall a, r_account r = Some a -> is_Some (accounts d !! a))
  /\ (forall e, e ∈ events d -> is_Some (orders d !! e_order e)).

Definition db_ok (d : DB) : Prop := accounts_ok d /\ orders_ok d /\ acme_ok d.

Inductive service_op : Type :=
  | OpCreateAccount (now : Z) (inp : AccountInput)
  | OpUpdateAccount (now : Z) (inp : AccountInput)
  | OpDeleteAccount (id : Z)
  | OpCreateOrder (now : Z) (inp : OrderInput)
  | OpIssue (cancelled : nat -> bool) (id : Z)
  | OpDeleteOrder (id : Z)
  | OpSetEAB (ca email keyID hmac : bytes)
  | OpServe (id : Z).

Section service.
Context {I P Key W : Type} `{U : Unicode} `{Rx : Regexp} `{X : CertText} `{Res : Resolver}
  `{Lego : Acme Key (I * Solver) httpSolver W} `{Out : Outside I P W}.
Variable reg : gmap bytes (Dns.registration (I:=I)).
Variable http : option httpSolver.

Definition run_op (o : service_op) (st : DB * W) : DB * W :=
  let '(d, w) := st in
  match o with
  | OpCreateAccount now inp => ((CreateAccount reg now inp d).2, w)
  | OpUpdateAccount now inp => ((UpdateAccount reg now inp d).2, w)
  | OpDeleteAccount id => ((DeleteAccount id d).2, w)
  | OpCreateOrder now inp => ((CreateOrder http now inp d w).2, w)
  | OpIssue cancelled id => let '(_, d, w) := Issue reg http cancelled id d w in (d, w)
  | OpDeleteOrder id => ((DeleteOrder id d).2, w)
  | OpSetEAB ca email k h => ((SetEAB ca email k h d w).2, w)
  | OpServe id => ((CertSource_Certificate id d).2, w)
  end.

Definition run_ops (os : list service_op) (st : DB * W) : DB * W := foldl (fun st o => run_op o st) st os.

Lemma same_tables_db_ok d d' : same_tables d d' -> db_ok d -> db_ok d'.
Proof.
  intros (H1 & H2 & H3 & H4 & H5 & H6 & H7 & H8). unfold db_ok, accounts_ok, orders_ok, acme_ok.
  by rewrite H1, H2, H3, H4, H5, H6, H8.
Qed.

Lemma CreateAccount_cases now inp d :
  same_tables d (CreateAccount reg now inp d).2
  \/ exists a r d1, Accounts_Create now a d = (r, d1) /\ d1 = (CreateAccount reg now inp d).2.
Proof.
  unfold CreateAccount. destruct (Describe _ reg); [|by left]. case_bool_decide; [by left|].
  destruct (Schema.Validate _ _); [|by left].
  destruct (Accounts_Create _ _ d) as [[a'|e] d'] eqn:E; right; by eexists _, _, _.
Qed.

Lemma UpdateAccount_cases now inp d :
  same_tables d (UpdateAccount reg now inp d).2
  \/ exists a r d0 d1, same_tables d d0 /\ Accounts_Update now a d0 = (r, d1) /\ d1 = (UpdateAccount reg now inp d).2.
Proof.
  unfold UpdateAccount. destruct (Accounts_Get _ d) as [[x|e] d0] eqn:E; apply Accounts_Get_same in E; [|by left].
  destruct (Describe _ reg); [|by left]. destruct (Schema.Validate _ _); [|by left].
  destruct (Accounts_Update _ _ d0) as [[a'|e] d'] eqn:E1; right; by eexists _, _, d0, _.
Qed.

Lemma Accounts_Create_ok now a d r d' : db_ok d -> Accounts_Create now a d = (r, d') -> db_ok d'.
Proof.
  intros Hok [Hs|(a' & Hid & Hn & _ & _ & _ & Hfree & Ha & Hl & Ho & He & Hm & Hlo & Hlm)]%Accounts_Create_spec;
    [by eapply same_tables_db_ok|].
  destruct Hok as ([A1 A2] & [O1 O2] & Hacme). cbn zeta in *. unfold db_ok, accounts_ok, orders_ok, acme_ok in *.
  rewrite Ha, Hl, Ho, He, Hm, Hlo, Hlm. split_and!; [| | |done|apply Hacme..].
  - intros k b [[<- <-]|[Hne Hb]]%lookup_insert_Some; [split; [done|lia]|]. destruct (A1 _ _ Hb). split; [done|lia].
  - intros k1 k2 a1 a2 [[<- <-]|[N1 L1]]%lookup_insert_Some [[<- <-]|[N2 L2]]%lookup_insert_Some; [done|..].
    + intros E. symmetry. eapply Hfree; [done|congruence].
    + intros E. eapply Hfree; [done|congruence].
    + by eapply A2.
  - intros k row Hr. destruct (O1 _ _ Hr) as (R1 & R2 & R3). split_and!; [done..|].
    intros x Hx. destruct (decide (x = last_account d + 1)) as [->|]; [rewrite lookup_insert_eq; eauto|].
    rewrite lookup_insert_ne by done. by apply R3.
Qed.

Lemma Accounts_Update_ok now a d r d' : db_ok d -> Accounts_Update now a d = (r, d') -> db_ok d'.
Proof.
  intros Hok [Hs|(old & a' & Hold & Hid & Hn & Hfree & Hs)]%Accounts_Update_spec; (eapply same_tables_db_ok; [exact Hs|]); [done|].
  destruct Hok as ([A1 A2] & [O1 O2] & Hacme). unfold db_ok, accounts_ok, orders_ok. cbn.
  split_and!; [| | |done|done].
  - intros k b [[<- <-]|[Hne Hb]]%lookup_insert_Some; [|by apply A1]. split; [done|]. by apply (A1 _ _ Hold).
  - intros k1 k2 a1 a2 [[<- <-]|[N1 L1]]%lookup_insert_Some [[<- <-]|[N2 L2]]%lookup_insert_Some; [done|..].
    + intros E. symmetry. eapply Hfree; [done|congruence].
    + intros E. eapply Hfree; [done|congruence].
    + by eapply A2.
  - intros k row Hr. destruct (O1 _ _ Hr) as (R1 & R2 & R3). split_and!; [done..|].
    intros x Hx. destruct (decide (x = acc_ID a)) as [->|]; [rewrite lookup_insert_eq; eauto|].
    rewrite lookup_insert_ne by done. by apply R3.
Qed.

Lemma Accounts_Delete_ok id d r d' : db_ok d -> Accounts_Delete id d = (r, d') -> db_ok d'.
Proof.
  intros Hok [Hs|[_ Hs]]%Accounts_Delete_spec; (eapply same_tables_db_ok; [exact Hs|]); [done|].
  destruct Hok as ([A1 A2] & [O1 O2] & Hacme). unfold db_ok, accounts_ok, orders_ok. cbn. split_and!; [| | | |done].
  - intros k b [_ Hb]%lookup_delete_Some. by apply A1.
  - intros k1 k2 a1 a2 [_ L1]%lookup_delete_Some [_ L2]%lookup_delete_Some. by eapply A2.
  - intros k row (old & <- & Hr)%lookup_fmap_Some. destruct (O1 _ _ Hr) as (R1 & R2 & R3). split_and!; [done..|].
    intros x. cbn. case_bool_decide as Hx; [done|]. intros Hx'. rewrite lookup_delete_ne by congruence. by apply R3.
  - intros e He. rewrite lookup_fmap, fmap_is_Some. by apply O2.
Qed.

Lemma Orders_Delete_ok id d r d' : db_ok d -> Orders_Delete id d = (r, d') -> db_ok d'.
Proof.
  intros Hok [Hs|Hs]%Orders_Delete_spec; (eapply same_tables_db_ok; [exact Hs|]); [done|].
  destruct Hok as (Ha & [O1 O2] & Hacme). unfold db_ok, orders_ok. cbn. split_and!; [done| | |done].
  - intros k row [_ Hr]%lookup_delete_Some. by apply O1.
  - intros e [Hne He]%list_elem_of_filter. rewrite lookup_delete_ne by done. by apply O2.
Qed.

Lemma progress_ok got row row' :
  pem_Decode [] = None -> progress got row row' -> row_ok row -> row_ok row'.
Proof.
  intros Hpem (E1 & E2 & E3 & E4 & E5 & E6 & E7 & Hp) (R1 & R2 & R3 & R4 & R5 & R6 & R7 & R8).
  unfold row_ok. rewrite E1, E2, E3, E5. destruct Hp as [(Hst & C1 & C2 & C3 & C4)|(c & Hc & _ & _ & Hst & _ & C1 & C2 & C3 & C4)].
  - rewrite C1, C3, C4. do 4 (split; [done|]). split; [unfold states; destruct Hst as [-> | ->]; set_solver|].
    do 2 (split; [done|]). intros Hi. rewrite Hi in Hst. by destruct Hst.
  - rewrite C1, C3, C4. assert (FullchainPEM c <> []) as Hne.
    { intros En. destruct Hc as (l & Hl & _). unfold Leaf in Hl. by rewrite En, Hpem in Hl. }
    do 4 (split; [done|]). split; [unfold states; rewrite Hst; set_solver|].
    split; [by split; eauto|]. split; [by split; eauto|done].
Qed.

Lemma order_effect_ok got id d d' :
  pem_Decode [] = None -> db_ok d -> acme_ok d' -> order_effect got id d d' -> db_ok d'.
Proof.
  intros Hpem (Ha & [O1 O2] & _) Hacme (E1 & E2 & E3 & Hev & Hord).
  assert (Hdom : forall k, is_Some (orders d !! k) -> is_Some (orders d' !! k)).
  { intros k Hk. destruct Hord as [->|(row & row' & Hr & _ & ->)]; [done|].
    destruct (decide (k = id)) as [->|]; [rewrite lookup_insert_eq; eauto|by rewrite lookup_insert_ne]. }
  split; [unfold accounts_ok in *; by rewrite E1, E2|]. split; [|done]. unfold orders_ok. rewrite E1, E3. split.
  - intros k r Hr. destruct Hord as [Hs|(row & row' & Hrow & Hp & Hs)]; rewrite Hs in Hr; [by apply O1|].
    apply lookup_insert_Some in Hr as [[<- <-]|[_ Hr]]; [|by apply O1]. destruct (O1 _ _ Hrow) as (R1 & R2 & R3).
    split_and!; [by eapply progress_ok|done|]. destruct Hp as (_ & _ & _ & -> & _). done.
  - intros e He. apply Hdom. destruct Hev as [Hs|(x & Hx & Hid & Hs)]; rewrite Hs in He; [by apply O2|].
    apply elem_of_app in He as [He|He%list_elem_of_singleton]; [by apply O2|]. subst e. by rewrite Hx.
Qed.

(** An order that is accepted asks for something that can be issued. *)
Definition acceptable (inp : OrderInput) (o : Order) : Prop :=
  o_Domains o = NormaliseDomains (oi_Domains inp) /\ o_Domains o <> [] /\ Valid (o_KeyType o) = true
  /\ is_Some (LookupCA (o_CA o)) /\ o_Email o = oi_Email inp /\ o_Email o <> [] /\ o_AccountID o = oi_AccountID inp
  /\ (NeedsDNSChallenge (o_Domains o) = true -> o_AccountID o <> 0)
  /\ (o_AccountID o = 0 -> is_Some http) /\ o_State o = [] /\ o_AutoRenew o = oi_AutoRenew inp.

Lemma CreateOrder_cases now inp d w r d' :
  CreateOrder http now inp d w = (r, d') ->
  same_tables d d' /\ is_ok r = false
  \/ exists d0 d1 o o', same_tables d d0 /\ Orders_Create (unixepoch w) o d0 = (Ok o', d1) /\ is_ok r = true
       /\ d' = (AppendEvent (unixepoch w) (o_ID o') (go "requested") [] d1).2 /\ acceptable inp o.
Proof.
  unfold CreateOrder. intros Hc. case_bool_decide as Hd; [by left; simplify_eq|].
  case_bool_decide as He; [by left; simplify_eq|].
  set (kt := if bool_decide (oi_KeyType inp = []) then KeyECDSA256 else oi_KeyType inp) in Hc.
  destruct (Valid kt) eqn:Hk; cbn [negb] in Hc; [|by left; simplify_eq].
  set (ca := if bool_decide (oi_CA inp = []) then go "letsencrypt" else oi_CA inp) in Hc.
  case_bool_decide as Hca; cbn [negb] in Hc; [|by left; simplify_eq].
  destruct (NeedsDNSChallenge _ && _) eqn:Hn; [by left; simplify_eq|].
  destruct ((oi_AccountID inp =? 0) && negb _) eqn:Hh; [by left; simplify_eq|].
  destruct (if oi_AccountID inp =? 0 then _ else _) as [ra d0] eqn:Eacc.
  assert (Hs0 : same_tables d d0).
  { destruct (oi_AccountID inp =? 0); [by simplify_eq|]. destruct (Accounts_Get _ d) as [x dx] eqn:Ex.
    apply Accounts_Get_same in Ex. by simplify_eq. }
  destruct ra as [u|e]; [|left; by simplify_eq].
  destruct (Orders_Create _ _ d0) as [[o'|e] d1] eqn:Eo.
  - destruct (AppendEvent _ _ _ _ d1) as [re d2] eqn:Ee. injection Hc as <- <-. right.
    eexists d0, d1, _, o'. split_and!; [done|exact Eo|done|by rewrite Ee|].
    unfold acceptable. cbn [o_Domains o_KeyType o_CA o_Email o_AccountID o_State o_AutoRenew]. split_and!; try done.
    + intros Hw Hz. rewrite Hw, Hz in Hn. done.
    + intros Hz. rewrite Hz in Hh. destruct http; [done|]. by cbn in Hh.
  - left. injection Hc as <- <-. apply Orders_Create_spec in Eo as [[Hs _]|(x & Hx & _)]; [|done|done].
    split; [by etrans|done].
Qed.

Lemma CreateOrder_ok now inp d w r d' : db_ok d -> CreateOrder http now inp d w = (r, d') -> db_ok d'.
Proof.
  intros Hok [[Hs _]|(d0 & d1 & o & o' & Hs & Hc & _ & -> & Hacc)]%CreateOrder_cases; [by eapply same_tables_db_ok|].
  pose proof (same_tables_db_ok _ _ Hs Hok) as (Ha & [O1 O2] & Hacme).
  destruct Hacc as (_ & A2 & A3 & A4 & A5 & A6 & _ & _ & _ & A9 & _).
  apply Orders_Create_spec in Hc as [[_ ?]|(x & [= <-] & Hid & Hfk & Hord & Hl & Hacs & Hev & Hacm & Hla & Hlm)]; [done| |done].
  assert (Hok1 : db_ok d1).
  { unfold db_ok, accounts_ok, orders_ok, acme_ok. rewrite Hord, Hl, Hacs, Hev, Hacm, Hla, Hlm.
    split; [done|]. split; [split|done].
    - intros k row [[<- <-]|[Hne Hr]]%lookup_insert_Some.
      + split; [|split; [lia|done]]. unfold row_ok. cbn [r_domains r_key_type r_ca r_email r_state r_certificate r_issued_at r_expires_at].
        do 4 (split; [done|]). split; [unfold states; set_solver|]. split; [by split; [|intros []]|]. by split; [split|].
      + destruct (O1 _ _ Hr) as (R1 & R2 & R3). split_and!; [done|lia|done].
    - intros e He. destruct (decide (e_order e = last_order d0 + 1)) as [->|]; [rewrite lookup_insert_eq; eauto|].
      rewrite lookup_insert_ne by done. by apply O2. }
  destruct (AppendEvent _ _ _ _ d1) as [re d2] eqn:Ee. cbn [snd].
  apply AppendEvent_spec in Ee as [Hs2|(Hsome & e & He & _ & B1 & B2 & B3 & B4 & B5 & B6 & B7)]; [by eapply same_tables_db_ok|].
  destruct Hok1 as (H1 & [H2 H3] & H4). unfold db_ok, accounts_ok, orders_ok, acme_ok in *. rewrite B1, B2, B3, B4, B5, B6, B7.
  split; [done|]. split; [split; [done|]|done]. intros y [Hy|Hy%list_elem_of_singleton]%elem_of_app; [by apply H3|].
  subst y. by rewrite He.
Qed.

Lemma SetEAB_effect ca email k h d w r d' :
  acme_ok d -> SetEAB ca email k h d w = (r, d') -> acme_ok d' /\ same_but_acme d d'.
Proof.
  intros Hok. unfold SetEAB. destruct (Find ca email d) as [x d1] eqn:Ef. apply Find_spec in Ef as [Hs _].
  destruct (Save _ _ d1) as [y d2] eqn:Es. apply Save_spec in Es as (Hok' & H1 & H2 & H3 & H4 & H5 & _);
    [|by eapply same_tables_acme_ok]. intros [= _ <-]. split; [done|].
  eapply same_but_acme_trans; [by apply same_tables_but_acme|]. by unfold same_but_acme.
Qed.

Lemma CertSource_same id d r d' : CertSource_Certificate id d = (r, d') -> same_tables d d'.
Proof.
  unfold CertSource_Certificate. destruct (Orders_Get id d) as [[o|e] d1] eqn:E; apply Orders_Get_spec in E as [Hs _];
    [destruct (_ || _)|]; by intros [= _ <-].
Qed.

Lemma run_op_ok o d w : pem_Decode [] = None -> db_ok d -> db_ok (run_op o (d, w)).1.
Proof.
  intros Hpem Hok. destruct o as [now inp|now inp|id|now inp|cancelled id|id|ca email k h|id]; cbn [run_op fst].
  - destruct (CreateAccount_cases now inp d) as [Hs|(a & r & d1 & E & <-)]; [by eapply same_tables_db_ok|].
    by eapply Accounts_Create_ok.
  - destruct (UpdateAccount_cases now inp d) as [Hs|(a & r & d0 & d1 & Hs & E & <-)]; [by eapply same_tables_db_ok|].
    eapply Accounts_Update_ok; [by eapply same_tables_db_ok|exact E].
  - unfold DeleteAccount. destruct (Accounts_Delete id d) as [r d1] eqn:E. by eapply Accounts_Delete_ok.
  - destruct (CreateOrder http now inp d w) as [r d1] eqn:E. by eapply CreateOrder_ok.
  - destruct (Issue reg http cancelled id d w) as [[r d1] w1] eqn:E. cbn [fst].
    pose proof Hok as (_ & _ & Hacme). apply Issue_effect in E as [? ?]; [|done]. by eapply order_effect_ok.
  - unfold DeleteOrder. destruct (Orders_Delete id d) as [r d1] eqn:E. by eapply Orders_Delete_ok.
  - destruct (SetEAB ca email k h d w) as [r d1] eqn:E. pose proof Hok as (Ha & Ho & Hacme).
    apply SetEAB_effect in E as [Hacme' (H1 & H2 & H3 & H4 & H5)]; [|done]. cbn [snd].
    unfold db_ok, accounts_ok, orders_ok in *. by rewrite H1, H2, H3, H4, H5.
  - destruct (CertSource_Certificate id d) as [r d1] eqn:E. apply CertSource_same in E. by eapply same_tables_db_ok.
Qed.

(** C24: Whatever statements fail, after any operations on accounts and orders the
    database is in order: every order asks for a key and an authority that
    exist, is in one of the four states, has material when it is issued and
    dates exactly with its material; accounts have their identifiers and names of
    their own, no order refers to an account that is gone, no event to an order,
    and an authority knows an address under one ACME account. *)
Theorem database_invariant faults os w :
  pem_Decode [] = None -> db_ok (run_ops os (empty_db faults, w)).1.
Proof.
  intros Hpem. assert (Hok : db_ok (empty_db faults)).
  { unfold db_ok, accounts_ok, orders_ok, acme_ok. cbn. split_and!; intros; simplify_map_eq; set_solver. }
  unfold run_ops. revert Hok. generalize (empty_db faults) as d. revert w.
  induction os as [|o os IH]; intros w d Hok; cbn [foldl]; [done|].
  destruct (run_op o (d, w)) as [d1 w1] eqn:E. apply IH.
  replace d1 with (run_op o (d, w)).1 by by rewrite E. by apply run_op_ok.
Qed.

(** What an operation leaves of order [id], whose row is [row]: its names, and its
    material or what the authority gave for them. *)
Definition keeps_material (o : service_op) (id : Z) (row : order_row) (d' : DB) (w' : W) : Prop :=
  exists row', orders d' !! id = Some row' /\ r_domains row' = r_domains row
    /\ ((r_certificate row', r_private_key row') = (r_certificate row, r_private_key row)
        \/ exists cancelled, o = OpIssue cancelled id
             /\ authority_gave (r_domains row) (r_certificate row', r_private_key row') w').

Lemma keeps_row o id row d' w' : orders d' !! id = Some row -> keeps_material o id row d' w'.
Proof. intros Hr. exists row. by split_and!; [| |left]. Qed.

Lemma order_effect_material cancelled id0 id row d d' w' :
  order_effect (fun names m => authority_gave names m w') id0 d d' -> orders d !! id = Some row ->
  keeps_material (OpIssue cancelled id0) id row d' w'.
Proof.
  intros (_ & _ & _ & _ & [Hs|(row0 & row' & Hr & Hp & Hs)]) Hrow; [by apply keeps_row; rewrite Hs|].
  destruct (decide (id = id0)) as [->|Hne]; [|by apply keeps_row; rewrite Hs, lookup_insert_ne].
  rewrite Hr in Hrow. injection Hrow as ->. exists row'. rewrite Hs, lookup_insert_eq. split; [done|].
  destruct Hp as (E1 & _ & _ & _ & _ & _ & _ & Hp). split; [congruence|].
  destruct Hp as [(_ & C1 & C2 & _)|(c & _ & _ & Hg & _ & _ & C1 & C2 & _)]; [left; by rewrite C1, C2|].
  right. exists cancelled. by rewrite C1, C2.
Qed.

Lemma run_op_material o id row d w :
  db_ok d -> o <> OpDeleteOrder id -> orders d !! id = Some row ->
  keeps_material o id row (run_op o (d, w)).1 (run_op o (d, w)).2.
Proof.
  intros Hok Hne Hr. destruct o as [now inp|now inp|aid|now inp|cancelled id'|id'|ca email k h|id']; cbn [run_op fst snd].
  - apply keeps_row. rewrite <- Hr. f_equal.
    destruct (CreateAccount_cases now inp d) as [Hs|(a & r & d1 & E & <-)]; [by apply Hs|].
    apply Accounts_Create_spec in E as [Hs|(a' & E)]; [by apply Hs|]. cbn zeta in E. by apply E.
  - apply keeps_row. rewrite <- Hr. f_equal.
    destruct (UpdateAccount_cases now inp d) as [Hs|(a & r & d0 & d1 & Hs & E & <-)]; [by apply Hs|].
    assert (orders d0 = orders d) as <- by apply Hs.
    apply Accounts_Update_spec in E as [Hs1|(old & a' & _ & _ & _ & _ & Hs1)]; by apply Hs1.
  - unfold DeleteAccount. destruct (Accounts_Delete aid d) as [r d1] eqn:E. cbn [snd].
    apply Accounts_Delete_spec in E as [Hs|[_ (_ & Ho & _)]]; [apply keeps_row; rewrite <- Hr; f_equal; by apply Hs|].
    exists (forget_account aid row). rewrite Ho. cbn. rewrite lookup_fmap, Hr. by split_and!; [| |left].
  - destruct (CreateOrder http now inp d w) as [r d1] eqn:E. cbn [snd].
    apply CreateOrder_cases in E as [[Hs _]|(d0 & d2 & o & o' & Hs & Hc & _ & -> & Hacc)];
      [apply keeps_row; rewrite <- Hr; f_equal; by apply Hs|].
    apply Orders_Create_spec in Hc as [[_ ?]|(x & [= <-] & _ & _ & Ho & _)]; [done| |by apply Hacc].
    assert (orders (AppendEvent (unixepoch w) (o_ID o') (go "requested") [] d2).2 = orders d2) as E.
    { destruct (AppendEvent _ _ _ _ d2) as [re d3] eqn:Ee. cbn [snd].
      apply AppendEvent_spec in Ee as [Hs2|(_ & e & _ & _ & _ & B2 & _)]; [by apply Hs2|done]. }
    apply keeps_row. rewrite E, Ho.
    assert (orders d0 = orders d) as -> by apply Hs. assert (last_order d0 = last_order d) as -> by apply Hs.
    rewrite lookup_insert_ne; [done|]. destruct Hok as (_ & [O1 _] & _). destruct (O1 _ _ Hr) as (_ & ? & _). lia.
  - destruct (Issue reg http cancelled id' d w) as [[r d1] w1] eqn:E. cbn [fst snd].
    pose proof Hok as (_ & _ & Hacme). apply Issue_effect in E as [_ He]; [|done]. by eapply order_effect_material.
  - unfold DeleteOrder. destruct (Orders_Delete id' d) as [r d1] eqn:E. cbn [snd].
    apply Orders_Delete_spec in E as [Hs|(_ & Ho & _)]; [apply keeps_row; rewrite <- Hr; f_equal; by apply Hs|].
    apply keeps_row. rewrite Ho. cbn. by rewrite lookup_delete_ne by congruence.
  - destruct (SetEAB ca email k h d w) as [r d1] eqn:E. pose proof Hok as (_ & _ & Hacme).
    apply SetEAB_effect in E as [_ (_ & H2 & _)]; [|done]. apply keeps_row. cbn [snd]. by rewrite H2.
  - destruct (CertSource_Certificate id' d) as [r d1] eqn:E. apply CertSource_same in E.
    apply keeps_row. rewrite <- Hr. f_equal. by apply E.
Qed.

Lemma run_ops_snoc os o st : run_ops (os ++ [o]) st = run_op o (run_ops os st).
Proof. unfold run_ops. by rewrite foldl_app. Qed.

Lemma run_ops_ok os d w : pem_Decode [] = None -> db_ok d -> db_ok (run_ops os (d, w)).1.
Proof.
  intros Hpem Hok. induction os as [|o os IH] using rev_ind; [done|]. rewrite run_ops_snoc.
  destruct (run_ops os (d, w)) as [d1 w1]. by apply run_op_ok.
Qed.

(** C25: An order that has a certificate keeps having one: whatever happens to
    accounts and orders, whichever statements and issuings fail, until it is
    itself deleted it asks for the names it asked for, and its material is the
    old one, or what the authority answered, in one of the issuings of this
    order among the operations, to a request for exactly these names
    (normalised). *)
Theorem certificate_never_lost os id row d w :
  pem_Decode [] = None -> db_ok d -> orders d !! id = Some row -> OpDeleteOrder id ∉ os ->
  exists row', orders (run_ops os (d, w)).1 !! id = Some row' /\ r_domains row' = r_domains row
  /\ ((r_certificate row', r_private_key row') = (r_certificate row, r_private_key row)
      \/ exists earlier cancelled later, os = earlier ++ OpIssue cancelled id :: later
           /\ authority_gave (r_domains row) (r_certificate row', r_private_key row')
                (run_ops (earlier ++ [OpIssue cancelled id]) (d, w)).2).
Proof.
  intros Hpem Hok Hr. induction os as [|o os IH] using rev_ind; intros Hnot; [exists row; by split_and!; [| |left]|].
  rewrite not_elem_of_app, list_elem_of_singleton in Hnot. destruct Hnot as [Hnot Hne].
  destruct (IH Hnot) as (row1 & H1 & Hd1 & Hm1). pose proof (run_ops_ok os d w Hpem Hok) as Hok1.
  rewrite run_ops_snoc. destruct (run_ops os (d, w)) as [d1 w1] eqn:Eo. cbn [fst] in *.
  destruct (run_op_material o id row1 d1 w1 Hok1 (not_eq_sym Hne) H1) as (row' & H' & Hd' & Hm').
  exists row'. split; [done|]. split; [congruence|]. destruct Hm' as [Hm'|(cancelled & -> & Hg)].
  - destruct Hm1 as [Hm1|(earlier & cancelled & later & -> & Hg)]; [left; congruence|right].
    exists earlier, cancelled, (later ++ [o]). rewrite <- app_assoc. split; [done|]. by rewrite Hm'.
  - right. exists os, cancelled, []. split; [done|]. rewrite run_ops_snoc, Eo. by rewrite <- Hd1.
Qed.

Lemma update_works id f d row :
  works d = [] -> orders d !! id = Some row -> update_order id f d = (Ok tt, set_orders (<[id := f row]> (orders d)) d).
Proof. intros Hw Hr. unfold update_order. by rewrite execute_works, Hr. Qed.

Lemma append_works now id kind detail d :
  works d = [] -> is_Some (orders d !! id) ->
  exists d', AppendEvent now id kind detail d = (Ok tt, d') /\ orders d' = orders d /\ accounts d' = accounts d
    /\ events d' = events d ++ [MkEvent (last_event d + 1) id kind detail now].
Proof.
  intros Hw Hs. unfold AppendEvent. rewrite execute_works, bool_decide_eq_true_2 by done. by eexists.
Qed.

Lemma find_binding_works ca d : works d = [] -> works (find_binding ca d).2 = [].
Proof.
  intros Hw. unfold find_binding, FindEAB. rewrite execute_works by done. by destruct (merge_sort _ _).
Qed.

Lemma acmeAccount_works ca email d : works d = [] -> works (acmeAccount (Key:=Key) ca email d).2 = [].
Proof.
  intros Hw. unfold acmeAccount, Find. rewrite execute_works by done.
  pose proof (find_binding_works ca d Hw) as Hb. destruct (find_binding ca d) as [b d1] eqn:Eb.
  destruct (acme_of ca email (acme d)) as [stored|]; [|rewrite Eb; done].
  destruct (am_EABKeyID stored); [rewrite Eb|]; done.
Qed.

Lemma challenge_of_works o d w : works d = [] -> works (challenge_of reg http o d w).2 = [].
Proof.
  intros Hw. unfold challenge_of. destruct (negb _).
  - assert (works (provider reg (o_AccountID o) d).2 = []) as Hp.
    { unfold provider, Accounts_Get. rewrite execute_works by done. by destruct (accounts d !! _). }
    destruct (provider reg (o_AccountID o) d) as [[i|e] d1]; [|done]. destruct (o_Domains o); [done|].
    by destruct (RegistrableZone _ _).
  - destruct (NeedsDNSChallenge _); [done|]. destruct http as [h|]; [|done]. by destruct (checkReachable h _).
Qed.

Lemma issue_works cancelled o d w : works d = [] -> works (issue reg http cancelled o d w).1.2 = [].
Proof.
  intros Hw. unfold issue. destruct (LookupCA _) as [ca|]; [|done].
  pose proof (acmeAccount_works (ca_Key ca) (o_Email o) d Hw) as Hw1.
  destruct (acmeAccount _ _ d) as [[a|e] d1]; [|done]. destruct (_ && _); [done|].
  pose proof (challenge_of_works o d1 w Hw1) as Hw2.
  destruct (challenge_of _ _ o d1 w) as [[[dns ht]|e] d2]; [|done].
  destruct (Cert.Issue _ _ _ w) as [[[c|e] acc] w1]; [|done].
  assert (forall a, works (saveACMEAccount (ca_Key ca) a d2 w1).2 = []) as Hw3.
  { intros a'. unfold saveACMEAccount, Save. rewrite execute_works by done. by destruct (acme_of _ _ _). }
  specialize (Hw3 (default a acc)). by destruct (saveACMEAccount _ _ d2 w1) as [[u|e] d3].
Qed.

(** When the database works, issuing an order leaves exactly one of two things
    of it.  A certificate: its material and dates are those of a certificate for
    the ordered names, its state is issued and its error gone, and an event says
    issued, or renewed if it had been before.  Or the error: its state is
    failed with the error's text, which an event repeats, and its old material
    and dates are as they were.  No other order changes. *)
Theorem Issue_records cancelled id d w r d' w' row :
  acme_ok d -> works d = [] -> orders d !! id = Some row ->
  Issue reg http cancelled id d w = (r, d', w') ->
  exists row' kind detail e, orders d' = <[id := row']> (orders d) /\ accounts d' = accounts d
    /\ events d' = events d ++ [e] /\ e_order e = id /\ e_Kind e = kind /\ e_Detail e = detail
    /\ r_domains row' = r_domains row /\ r_account row' = r_account row
    /\ match r with
       | Ok _ => exists c, populated c /\ Domains c = NormaliseDomains (r_domains row)
           /\ r_state row' = StateIssued /\ r_last_error row' = []
           /\ (r_certificate row', r_private_key row') = (FullchainPEM c, PrivateKeyPEM c)
           /\ r_expires_at row' = Some (Unix (NotAfter c)) /\ detail = valid_until (NotAfter c)
           /\ kind = (if 0 <? default 0 (r_issued_at row) then go "renewed" else go "issued")
       | Err err => r_state row' = StateFailed /\ r_last_error row' = error_text err
           /\ (r_certificate row', r_private_key row') = (r_certificate row, r_private_key row)
           /\ r_expires_at row' = r_expires_at row /\ detail = error_text err /\ kind = go "failed"
       end.
Proof.
  intros Hok Hw Hr. unfold Issue, Orders_Get. rewrite execute_works, Hr by done.
  unfold SetState at 1. rewrite (update_works _ _ _ _ Hw Hr).
  set (d2 := set_orders _ d).
  pose proof (issue_works cancelled (scanOrder id row) d2 w Hw) as Hw3.
  destruct (issue reg http cancelled (scanOrder id row) d2 w) as [[ri d3] w3] eqn:Ei. cbn [fst snd] in Hw3.
  apply issue_spec in Ei as (_ & (S1 & S2 & S3 & _) & Hc); [|done]. unfold d2 in S1, S2, S3. cbn [accounts orders events set_orders] in S1, S2, S3.
  assert (Hr3 : orders d3 !! id = Some (set_state StateIssuing [] (unixepoch w) row)) by (rewrite S2; apply lookup_insert_eq).
  destruct ri as [c|err].
  - destruct (Hc c eq_refl) as (Hp & Hd & _). cbn [o_Domains scanOrder] in Hd.
    unfold StoreCertificate. rewrite (update_works _ _ _ _ Hw3 Hr3).
    match goal with |- context [AppendEvent ?n id ?k ?t ?d] =>
      destruct (append_works n id k t d) as (d5 & -> & E1 & E2 & E3); [done|cbn; rewrite lookup_insert_eq; eauto|] end.
    intros [= <- <- <-]. cbn [orders accounts events set_orders] in E1, E2, E3.
    rewrite S2, insert_insert_eq in E1. eexists _, _, _, _. rewrite E1, E2, E3, S1, S3.
    do 8 (split; [reflexivity|]). exists c. cbn. by split_and!.
  - unfold SetState. rewrite (update_works _ _ _ _ Hw3 Hr3).
    match goal with |- context [AppendEvent ?n id ?k ?t ?d] =>
      destruct (append_works n id k t d) as (d5 & -> & E1 & E2 & E3); [done|cbn; rewrite lookup_insert_eq; eauto|] end.
    intros [= <- <- <-]. cbn [orders accounts events set_orders] in E1, E2, E3.
    rewrite S2, insert_insert_eq in E1. eexists _, _, _, _. rewrite E1, E2, E3, S1, S3.
    do 8 (split; [reflexivity|]). cbn. by split_and!.
Qed.

(** A query of the stored account that fails once, not only one that finds
    nothing, gives a new account without key or registration; if the certificate
    is then issued, the new key is saved over the stored one. *)
Theorem failed_query_forgets_account ca email d stored :
  acme_of ca email (acme d) = Some stored -> works d = [false] ->
  exists (a : AcmeAccount Key) d', acmeAccount ca email d = (Ok a, d') /\ PrivateKey a = [] /\ registration a = None
    /\ acme d' = acme d.
Proof.
  intros _ Hw. unfold acmeAccount, Find. unfold execute at 1, statement at 1. rewrite Hw.
  destruct (find_binding ca _) as [b d2] eqn:E. apply find_binding_same in E as (_ & _ & _ & E & _).
  eexists _, d2. split; [reflexivity|]. by split_and!.
Qed.
End service.

(** Deleting a DNS account leaves its orders without one: they are not refused
    with its name, as the schema's comment says, but validated over HTTP. *)
Theorem deleted_account_is_not_named id d r d' k row :
  Accounts_Delete id d = (r, d') -> is_ok r = true -> orders d !! k = Some row -> r_account row = Some id ->
  exists row', orders d' !! k = Some row' /\ o_AccountID (scanOrder k row') = 0.
Proof.
  intros Hd Hok Hr Ha. unfold Accounts_Delete in Hd.
  apply execute_cases in Hd as [[-> _]|(d0 & Hs & _ & E)]; [done|].
  assert (orders d0 = orders d) as Ho by apply Hs.
  destruct (accounts d0 !! id); [|by simplify_eq]. injection E as _ <-. cbn. rewrite lookup_fmap, Ho, Hr.
  exists (forget_account id row). split; [done|]. cbn. by rewrite bool_decide_eq_true_2.
Qed.

(** The zone of the first name is used for every name of an order: the challenge
    for a name of another zone is written below the wrong one. *)
Theorem second_zone_challenge_misplaced :
  let s := NewSolver (H:=no_unicode) (go "a.com") in
  FQDN (challenge_record (H:=no_unicode) 600 (zone s) (go "_acme-challenge.b.org.") (go "v")) (zone s)
  = go "_acme-challenge.b.org.a.com".
Proof. by vm_compute. Qed.

(** ** A service with one account and one provider *)

Definition one_zone : Provider unit := {|
  MinTTL := 600;
  AddRecord _ _ p := (Ok (go "1"), p);
  DeleteRecord _ _ p := (Ok tt, p);
  ListDomains _ _ := Ok [MkDomain (go "1") (go "example.com") 0]
|}.

(** A registration as text: the length of its URI in strokes, then its URI and the rest. *)
Definition resource_out (r : resource) : bytes := replicate (length (URI r)) x31 ++ x7c :: URI r ++ res_body r.
Definition resource_in (b : bytes) : option resource :=
  n ← IndexByte b x7c; Some (MkResource (take n (drop (S n) b)) (drop (n + S n) b)).

Lemma resource_in_out r : resource_in (resource_out r) = Some r.
Proof.
  unfold resource_in, resource_out. set (s := replicate (length (URI r)) x31).
  assert (length s = length (URI r)) as Hl by apply length_replicate.
  rewrite IndexByte_app by (intros [? _]%elem_of_replicate; done). cbn.
  rewrite Hl. assert (forall k, drop (k + S (length (URI r))) (s ++ x7c :: URI r ++ res_body r) = drop k (URI r ++ res_body r)) as E.
  { intros k. rewrite (cons_middle x7c s), app_assoc. rewrite drop_app_ge by (rewrite length_app; cbn; lia).
    f_equal. rewrite length_app. cbn. lia. }
  rewrite (E (length (URI r))), (E 0%nat : drop (S (length (URI r))) _ = _), drop_0, take_app_length, drop_app_length.
  by destruct r.
Qed.

(** The world counts the requests and the registrations. *)
Definition counting_acme : Acme unit (unit * Solver) httpSolver (nat * nat) := {|
  ParseECPrivateKey _ := Some tt;
  GenerateKey w := (Some tt, w);
  MarshalECPrivateKey _ := Some (go "key");
  UnmarshalResource := resource_in;
  MarshalResource := resource_out;
  NewClient _ w := (Ok tt, w);
  SetProvider _ _ w := (Ok tt, w);
  Register _ w := (Ok (MkResource (go "https://ca/acct/1") (go "{}")), (w.1, S w.2));
  RegisterEAB _ _ _ w := (Ok (MkResource (go "https://ca/acct/1") (go "{}")), (w.1, S w.2));
  Obtain _ _ _ w := (Ok (go "chain", go "pk"), (S w.1, w.2))
|}.

Definition example_outside : Outside unit unit (nat * nat) := {|
  instance_provider _ := one_zone;
  remote _ := tt;
  unixepoch w := 1700000000 + Z.of_nat w.1;
  error_text _ := go "error";
  valid_until _ := go "valid"
|}.

Definition example_order : order_row :=
  MkOrderRow [go "*.example.com"; go "example.com"] KeyECDSA256 (go "letsencrypt") (Some 1) (go "me@example.com") true
    StateIssued [] (go "old chain") (go "old key") (Some 1600000000) (Some 1607776000) 0 0.

Definition service_db : DB :=
  MkDB {[1 := example_account "s3cret"]} {[1 := example_order]} [] ∅ 1 1 0 0 [].

Definition example_issue (d : DB) (w : nat * nat) : res ordererr unit * DB * (nat * nat) :=
  Issue (U:=no_unicode) (Rx:=any_regexp) (X:=example_text) (Res:=example_resolver) (Lego:=counting_acme)
    (Out:=example_outside) example_registry None (fun _ => false) 1 d w.

Lemma Issue_records_witness :
  (example_issue service_db (0, 0)%nat).1.1 = Ok tt
  /\ exists row', orders (example_issue service_db (0, 0)%nat).1.2 !! 1 = Some row'
       /\ r_state row' = StateIssued /\ (r_certificate row', r_private_key row') = (go "chain", go "pk").
Proof.
  split; [by vm_compute|].
  destruct (Issue_records (U:=no_unicode) (Rx:=any_regexp) (X:=example_text) (Res:=example_resolver)
    (Lego:=counting_acme) (Out:=example_outside) example_registry None (fun _ => false) 1 service_db (0, 0)%nat
    (Ok tt) (example_issue service_db (0, 0)%nat).1.2 (example_issue service_db (0, 0)%nat).2 example_order)
    as (row' & k & t & e & Ho & _ & _ & _ & _ & _ & _ & _ & c & _ & _ & Hst & _).
  - split; cbn; intros; simplify_map_eq.
  - done.
  - done.
  - by vm_compute.
  - exists row'. rewrite Ho, lookup_insert_eq. split; [done|]. split; [done|].
    assert (E : orders (example_issue service_db (0, 0)%nat).1.2 !! 1 = Some row') by (rewrite Ho; apply lookup_insert_eq).
    vm_compute in E. injection E as <-. by vm_compute.
Defined.

Definition counting_laws : AcmeLaws unit (unit * Solver) httpSolver (nat * nat) (X:=example_text) (Lego:=counting_acme).
Proof.
  split.
  - by intros cl w r w' [= <- _].
  - by intros i m cl w r w' [= <- _].
  - apply resource_in_out.
  - intros r. unfold MarshalResource. cbn. unfold resource_out. by destruct (URI r).
  - intros [] pem [= <-]. split; [done|]. by exists (go "CERTIFICATE"), (go "key").
Defined.

Definition example_issue_order : res ordererr Certificate * DB * (nat * nat) :=
  issue (U:=no_unicode) (Rx:=any_regexp) (X:=example_text) (Res:=example_resolver) (Lego:=counting_acme)
    (Out:=example_outside) example_registry None (fun _ => false) (scanOrder 1 example_order) service_db (0, 0)%nat.

Lemma account_reused_witness :
  is_ok example_issue_order.1.1 = true /\ example_issue_order.2 = (1, 1)%nat
  /\ exists a d2, acmeAccount (Lego:=counting_acme) (go "letsencrypt") (go "me@example.com")
                    example_issue_order.1.2 = (Ok a, d2)
       /\ forall cl ca w, register (Lego:=counting_acme) cl ca (with_key (PrivateKey a) tt a) w
                         = (Ok (with_key (PrivateKey a) tt a), w).
Proof.
  split; [by vm_compute|]. split; [by vm_compute|].
  destruct (account_reused (U:=no_unicode) (Rx:=any_regexp) (X:=example_text) (Res:=example_resolver)
    (Lego:=counting_acme) (Out:=example_outside) (Laws:=counting_laws) example_registry None (fun _ => false)
    (scanOrder 1 example_order) service_db (0, 0)%nat
    (MkCertificate [go "*.example.com"; go "example.com"] (go "chain") (go "pk") (1000 * Hour) (3160 * Hour)
       (go "Example CA") (go "1")) example_issue_order.1.2 example_issue_order.2)
    as (a & [] & d2 & Ha & _ & _ & Hr).
  - split; cbn; intros; simplify_map_eq.
  - by vm_compute.
  - by vm_compute.
  - exists a, d2. split; [exact Ha|exact Hr].
Defined.

(** An order placed, issued while the disk fails, served, its account deleted. *)
Definition example_ops : list service_op :=
  [OpCreateAccount 5 (MkAccountInput 0 (go "home") (go "cloudflare") {[go "token" := go "s3cret"]});
   OpCreateOrder 6 (MkOrderInput [go "example.com"; go "*.example.com"] [] [] (go "me@example.com") 1 None);
   OpIssue (fun _ => false) 1; OpServe 1; OpDeleteAccount 1; OpIssue (fun _ => false) 1].

Definition run_example (faults : list bool) : DB * (nat * nat) :=
  run_ops (U:=no_unicode) (Rx:=any_regexp) (X:=example_text) (Res:=example_resolver) (Lego:=counting_acme)
    (Out:=example_outside) example_registry None example_ops (empty_db faults, (0, 0)%nat).

Lemma database_invariant_witness :
  (r_state <$> orders (run_example []).1 !! 1) = Some StateFailed
  /\ db_ok (run_example []).1 /\ db_ok (run_example [true; true; true; true; true; true; false]).1.
Proof.
  split; [by vm_compute|].
  pose proof (fun faults => database_invariant (U:=no_unicode) (Rx:=any_regexp) (X:=example_text)
    (Res:=example_resolver) (Lego:=counting_acme) (Out:=example_outside) example_registry None faults example_ops
    (0, 0)%nat eq_refl) as Hok.
  unfold run_example. split; apply Hok.
Defined.

Lemma service_db_ok : db_ok service_db.
Proof.
  unfold db_ok, accounts_ok, orders_ok, acme_ok, service_db. cbn [accounts orders events acme last_account last_order last_acme].
  split_and!; try (intros; simplify_map_eq; set_solver).
  intros k r Hr. apply lookup_singleton_Some in Hr as [<- <-]. split; [|split; [lia|]].
  - unfold row_ok. do 2 (split; [done|]). split; [by vm_compute; eauto|]. split; [done|].
    split; [unfold states; set_solver|]. cbn. split; [by split|]. by split; [split|].
  - intros a [= <-]. by eexists.
Qed.

Lemma certificate_never_lost_witness :
  let os := [OpDeleteAccount 1; OpIssue (fun _ => false) 1; OpDeleteOrder 2] in
  let final := (run_ops (U:=no_unicode) (Rx:=any_regexp) (X:=example_text) (Res:=example_resolver) (Lego:=counting_acme)
       (Out:=example_outside) example_registry None os (service_db, (0, 0)%nat)).1 in
  exists row', orders final !! 1 = Some row' /\ r_domains row' = [go "*.example.com"; go "example.com"].
Proof.
  intros os final.
  destruct (certificate_never_lost (U:=no_unicode) (Rx:=any_regexp) (X:=example_text) (Res:=example_resolver)
    (Lego:=counting_acme) (Out:=example_outside) example_registry None os 1 example_order service_db (0, 0)%nat)
    as (row' & Hr & Hd & _).
  - done.
  - apply service_db_ok.
  - done.
  - intros Hin. repeat (apply elem_of_cons in Hin as [Hin|Hin]; [discriminate|]). by apply elem_of_nil in Hin.
  - exists row'. split; [exact Hr|exact Hd].
Defined.
