(* ===== verification/Migrate.v ===== *)
(** Migrations of the database: [internal/storage/migrate/migrate.go].

    [S] is what the migrations build, the schema and its data; class [Sql] is
    SQLite executing the body of a migration, which fails or gives the new
    state.  The versions applied are a set beside it.  Every statement may fail
    for other reasons too: the list [works] says which do.  A transaction that
    does not commit leaves nothing. *)
From S2P Require Import Prelude GoStrings.

Class Sql (S : Type) := { exec_body : bytes -> S -> option S }.

Record migration := MkMigration { m_version : Z; m_name : bytes; m_body : bytes }.

Inductive migrateerr : Type :=
  | ErrCreateTable
  | ErrName (name : bytes)
  | ErrNumber (name : bytes)
  | ErrReadFile (name : bytes)
  | ErrShared (a b : bytes)
  | ErrReadVersions
  | ErrBegin (name : bytes)
  | ErrApply (name : bytes)
  | ErrRecord (name : bytes)
  | ErrCommit (name : bytes).

(** One embedded file: its name and what reading it gives. *)
Definition load_entry (e : bytes * option bytes) : res migrateerr migration :=
  match Cut e.1 (go "_") with
  | (_, _, false) => Err (ErrName e.1)
  | (digits, _, true) =>
      match Atoi digits with
      | None => Err (ErrNumber e.1)
      | Some version =>
          match e.2 with
          | None => Err (ErrReadFile e.1)
          | Some body => Ok (MkMigration version e.1 body)
          end
      end
  end.

Definition older (a b : migration) : Prop := m_version a <= m_version b.
#[export] Instance older_dec a b : Decision (older a b) := Z_le_dec _ _.
#[export] Instance older_total : Total older.
Proof. intros a b. unfold older. lia. Qed.
#[export] Instance older_trans : Transitive older.
Proof. intros a b c. unfold older. lia. Qed.

(** Neighbours of the sorted list that share a version. *)
Fixpoint check_distinct (ms : list migration) : res migrateerr unit :=
  match ms with
  | a :: (b :: _) as rest =>
      if m_version b =? m_version a then Err (ErrShared (m_name a) (m_name b)) else check_distinct rest
  | _ => Ok tt
  end.

Definition load (entries : list (bytes * option bytes)) : res migrateerr (list migration) :=
  out ← map_res load_entry entries;
  let out := merge_sort older out in
  _ ← check_distinct out;
  Ok out.

Section migrate.
Context {S : Type} `{Sql S}.

Record database := MkDatabase { state : S; versions : gset Z; works : list bool }.

Definition next (d : database) : bool * database :=
  match works d with
  | [] => (true, d)
  | w :: ws => (w, MkDatabase (state d) (versions d) ws)
  end.

(** [apply]: begin, the body, the record, commit. *)
Definition apply (m : migration) (d : database) : res migrateerr unit * database :=
  let '(ok, d) := next d in
  if negb ok then (Err (ErrBegin (m_name m)), d)
  else
    let '(ok, d) := next d in
    match (if ok : bool then exec_body (m_body m) (state d) else None) with
    | None => (Err (ErrApply (m_name m)), d)
    | Some s =>
        let '(ok, d) := next d in
        if negb ok || bool_decide (m_version m ∈ versions d) then (Err (ErrRecord (m_name m)), d)
        else
          let '(ok, d) := next d in
          if negb ok then (Err (ErrCommit (m_name m)), d)
          else (Ok tt, MkDatabase s ({[m_version m]} ∪ versions d) (works d))
    end.

Fixpoint apply_all (applied : gset Z) (ms : list migration) (d : database) : res migrateerr unit * database :=
  match ms with
  | [] => (Ok tt, d)
  | m :: ms =>
      if bool_decide (m_version m ∈ applied) then apply_all applied ms d
      else match apply m d with
           | (Err e, d) => (Err e, d)
           | (Ok _, d) => apply_all applied ms d
           end
  end.

Definition Run (entries : list (bytes * option bytes)) (d : database) : res migrateerr unit * database :=
  let '(ok, d) := next d in
  if negb ok then (Err ErrCreateTable, d)
  else
    let '(ok, d) := next d in
    if negb ok then (Err ErrReadVersions, d)
    else
      let applied := versions d in
      match load entries with
      | Err e => (Err e, d)
      | Ok pending => apply_all applied pending d
      end.

(** ** The database is always at a version *)

(** The state after the bodies of [ms], from [s]. *)
Fixpoint bodies (ms : list migration) (s : S) : option S :=
  match ms with
  | [] => Some s
  | m :: ms => s ← exec_body (m_body m) s; bodies ms s
  end.

Lemma bodies_snoc ms m s : bodies (ms ++ [m]) s = (s ← bodies ms s; exec_body (m_body m) s).
Proof.
  revert s; induction ms as [|x ms IH]; intros s; simpl.
  - by destruct (exec_body (m_body m) s).
  - destruct (exec_body (m_body x) s); simpl; [apply IH|done].
Qed.

(** The database holds the first [k] of the migrations [ms]: these versions, and
    what their bodies, each once and in order, make of [s0]. *)
Definition at_version (ms : list migration) (s0 : S) (k : nat) (d : database) : Prop :=
  (k <= length ms)%nat /\ versions d = list_to_set (m_version <$> take k ms) /\ bodies (take k ms) s0 = Some (state d).

Lemma next_same d ok d' : next d = (ok, d') -> state d' = state d /\ versions d' = versions d.
Proof. unfold next. destruct (works d); by intros [= <- <-]. Qed.

Lemma apply_spec m d r d' :
  apply m d = (r, d') ->
  is_ok r = false /\ state d' = state d /\ versions d' = versions d
  \/ r = Ok tt /\ m_version m ∉ versions d /\ exec_body (m_body m) (state d) = Some (state d')
     /\ versions d' = {[m_version m]} ∪ versions d.
Proof.
  unfold apply. destruct (next d) as [ok d1] eqn:E1. apply next_same in E1 as [S1 V1].
  destruct ok; cbn [negb]; [|by intros [= <- <-]; left].
  destruct (next d1) as [ok d2] eqn:E2. apply next_same in E2 as [S2 V2].
  destruct (if ok : bool then _ else _) as [s|] eqn:Eb; [|intros [= <- <-]; left; by rewrite S2, V2].
  destruct ok; [|done]. destruct (next d2) as [ok d3] eqn:E3. apply next_same in E3 as [S3 V3].
  destruct (negb ok || _) eqn:Ei; [intros [= <- <-]; left; by rewrite S3, V3, S2, V2|].
  destruct (next d3) as [ok' d4] eqn:E4. apply next_same in E4 as [S4 V4].
  destruct ok'; cbn [negb]; intros [= <- <-]; [right|left; by rewrite S4, V4, S3, V3, S2, V2]. cbn.
  bool_facts. rewrite <- S1, <- S2, Eb, V4, V3, V2, V1. rewrite V3, V2, V1 in *. done.
Qed.

(** The versions of a list that loads grow strictly. *)
Definition increasing (ms : list migration) : Prop := StronglySorted (fun a b => m_version a < m_version b) ms.

Lemma check_distinct_ok ms : Sorted older ms -> check_distinct ms = Ok tt -> increasing ms.
Proof.
  unfold increasing. intros Hs Hc. apply Sorted_StronglySorted; [intros a b c; lia|].
  induction Hs as [|a ms Hs IH Hr]; [constructor|]. destruct ms as [|b ms]; [by repeat constructor|].
  simpl in Hc. destruct (Z.eqb_spec (m_version b) (m_version a)) as [|Hne]; [done|].
  constructor; [by apply IH|]. constructor. inversion Hr as [|? ? Hle]; subst. unfold older in Hle. lia.
Qed.

Lemma load_increasing entries ms : load entries = Ok ms -> increasing ms.
Proof.
  unfold load. destruct (map_res load_entry entries) as [out|e]; [|done]. simpl.
  destruct (check_distinct _) as [[]|e] eqn:Ec; [|done]. simpl. intros [= <-].
  apply check_distinct_ok; [|done]. apply Sorted_merge_sort. apply _.
Qed.

Lemma increasing_unique ms i j a b :
  increasing ms -> ms !! i = Some a -> ms !! j = Some b -> m_version a = m_version b -> i = j.
Proof.
  intros Hi Ha Hb Hv. destruct (decide (i = j)) as [|Hne]; [done|exfalso]. unfold increasing in Hi.
  assert (forall i j a b, (i < j)%nat -> ms !! i = Some a -> ms !! j = Some b -> m_version a < m_version b) as Hlt.
  { clear -Hi. induction Hi as [|x l Hs IH Hf]; intros i j a b Hij Ha Hb; [done|].
    destruct j as [|j]; [lia|]. destruct i as [|i]; simpl in *.
    - simplify_eq. rewrite Forall_lookup in Hf. by eapply Hf.
    - apply (IH i j); [lia|done|done]. }
  destruct (decide (i < j)%nat); [pose proof (Hlt _ _ _ _ l Ha Hb)|pose proof (Hlt j i b a ltac:(lia) Hb Ha)]; lia.
Qed.

(** A migration is applied in the database at version [k] exactly when it is one of the first [k]. *)
Lemma at_version_applied ms s0 k d i m :
  increasing ms -> at_version ms s0 k d -> ms !! i = Some m -> m_version m ∈ versions d <-> (i < k)%nat.
Proof.
  intros Hi (Hk & Hv & _) Hm. rewrite Hv, elem_of_list_to_set, list_elem_of_fmap. split.
  - intros (x & Hx & (j & Hj)%list_elem_of_lookup). apply lookup_take_Some in Hj as [Hj Hjk].
    by rewrite (increasing_unique ms i j m x Hi Hm Hj Hx).
  - intros Hik. exists m. split; [done|]. apply list_elem_of_lookup. exists i. by apply lookup_take_Some.
Qed.

Lemma at_version_step ms s0 k m d d' :
  at_version ms s0 k d -> ms !! k = Some m -> exec_body (m_body m) (state d) = Some (state d') ->
  versions d' = {[m_version m]} ∪ versions d -> at_version ms s0 (Datatypes.S k) d'.
Proof.
  intros (Hk & Hv & Hb) Hm He Hv'. unfold at_version. rewrite (take_S_r _ _ _ Hm).
  split; [by apply lookup_lt_Some in Hm|]. split.
  - rewrite Hv', Hv, fmap_app, list_to_set_app_L. cbn. set_solver.
  - by rewrite bodies_snoc, Hb.
Qed.

(** The loop, having passed the first [i] migrations; those below [k0] were
    applied when it started. *)
Lemma apply_all_at ms s0 k0 applied i d r d' :
  increasing ms -> (forall j m, ms !! j = Some m -> m_version m ∈ applied <-> (j < k0)%nat) ->
  at_version ms s0 (Nat.max k0 i) d -> (i <= length ms)%nat -> (k0 <= length ms)%nat ->
  apply_all applied (drop i ms) d = (r, d') ->
  exists k, (Nat.max k0 i <= k)%nat /\ at_version ms s0 k d' /\ (r = Ok tt <-> k = length ms).
Proof.
  intros Hinc Happ Hat Hi Hk0 Hr. remember (drop i ms) as rest eqn:Erest.
  revert i d Erest Hat Hi Hr. induction rest as [|m rest IH]; intros i d Erest Hat Hi Hr.
  - simplify_eq/=. assert (i = length ms) as ->.
    { apply (f_equal length) in Erest. rewrite length_drop in Erest. simpl in Erest. lia. }
    exists (Nat.max k0 (length ms)). split; [lia|]. split; [done|]. split; [lia|done].
  - assert (ms !! i = Some m) as Hm.
    { rewrite <- (Nat.add_0_r i), <- lookup_drop, <- Erest. done. }
    assert (rest = drop (Datatypes.S i) ms) as Er.
    { rewrite (drop_S _ _ _ Hm) in Erest. by injection Erest. }
    assert (i < length ms)%nat as Hlt by by apply lookup_lt_Some in Hm.
    simpl in Hr. destruct (bool_decide (m_version m ∈ applied)) eqn:Ea; bool_facts.
    + apply (Happ i m Hm) in Ea. apply (IH (Datatypes.S i) d Er) in Hr as (k & Hk & Hat' & Hrk); [|by rewrite Nat.max_l in * by lia|lia].
      exists k. split; [lia|done].
    + rewrite (Happ i m Hm) in Ea. assert (Nat.max k0 i = i) as Emax by lia. rewrite Emax in Hat.
      destruct (apply m d) as [[[]|e] d1] eqn:E1; apply apply_spec in E1 as [(Hok & HS & HV)|(Hok & Hn & He & HV)]; try done.
      * apply (IH (Datatypes.S i) d1 Er) in Hr as (k & Hk & Hat' & Hrk); [exists k; split; [lia|done]| |lia].
        rewrite Nat.max_r by lia. by eapply at_version_step.
      * simplify_eq. exists i. split; [lia|]. split; [unfold at_version in *; by rewrite HS, HV|]. split; [done|lia].
Qed.

(** Whatever statements fail, a run of the migrations leaves the database at a
    version: it holds the first so many migrations, each applied exactly once
    and in order, never half of one, and at least those it held.  It succeeds
    only when that is all of them, and once it is, running again changes
    nothing; so a run after a failure goes on where that one stopped. *)
Theorem Run_at_version entries ms s0 k d r d' :
  load entries = Ok ms -> at_version ms s0 k d -> Run entries d = (r, d') ->
  exists k', (k <= k')%nat /\ at_version ms s0 k' d' /\ (r = Ok tt -> k' = length ms)
    /\ (k = length ms -> state d' = state d /\ versions d' = versions d).
Proof.
  intros Hl Hat. unfold Run. pose proof (load_increasing _ _ Hl) as Hinc. pose proof Hat as (Hk & _ & Hst).
  assert (Hfix : forall k' d', (k <= k')%nat -> at_version ms s0 k' d' -> k = length ms ->
    state d' = state d /\ versions d' = versions d).
  { intros k' x Hle (Hk' & Hv' & Hst') Hkl. assert (k' = k) as -> by lia. rewrite Hst in Hst'. injection Hst' as ->.
    split; [done|]. destruct Hat as (_ & -> & _). done. }
  destruct (next d) as [ok d1] eqn:E1. apply next_same in E1 as [S1 V1].
  assert (Hat1 : at_version ms s0 k d1) by (unfold at_version in *; by rewrite S1, V1).
  destruct ok; cbn [negb]; [|intros [= <- <-]; exists k; by split_and!].
  destruct (next d1) as [ok d2] eqn:E2. apply next_same in E2 as [S2 V2].
  assert (Hat2 : at_version ms s0 k d2) by (unfold at_version in *; by rewrite S2, V2).
  destruct ok; cbn [negb]; [|intros [= <- <-]; exists k; split_and!; try done; by apply (Hfix k)].
  rewrite Hl. intros Hr. rewrite <- (drop_0 ms) in Hr at 1.
  apply (apply_all_at ms s0 k (versions d2) 0) in Hr as (k' & Hk' & Hat' & Hrk); try done.
  - exists k'. split_and!; [lia|done|apply Hrk|]. apply (Hfix k'); [lia|done].
  - intros j m Hm. by eapply at_version_applied.
  - by rewrite Nat.max_0_r.
  - lia.
Qed.
End migrate.

(** ** The migrations of the repository, by name *)

(** A state that is the bodies applied so far. *)
Definition log_sql : Sql (list bytes) := {| exec_body b s := if bool_decide (b ∈ s) then None else Some (s ++ [b]) |}.

Definition embedded : list (bytes * option bytes) :=
  [(go "0001_init.sql", Some (go "init")); (go "0002_acme_account.sql", Some (go "acme"));
   (go "0003_acme_key_optional.sql", Some (go "optional")); (go "0004_traffic_daily.sql", Some (go "traffic"))].

Definition loaded : list migration :=
  [MkMigration 1 (go "0001_init.sql") (go "init"); MkMigration 2 (go "0002_acme_account.sql") (go "acme");
   MkMigration 3 (go "0003_acme_key_optional.sql") (go "optional"); MkMigration 4 (go "0004_traffic_daily.sql") (go "traffic")].

(** The second commit fails; the next run does the rest. *)
Lemma Run_at_version_witness :
  let first := Run (S:=list bytes) (H:=log_sql) embedded (MkDatabase [] ∅ [true; true; true; true; true; true; true; true; true; false]) in
  let second := Run (S:=list bytes) (H:=log_sql) embedded first.2 in
  first.1 = Err (ErrCommit (go "0002_acme_account.sql")) /\ state first.2 = [go "init"]
  /\ state second.2 = [go "init"; go "acme"; go "optional"; go "traffic"]
  /\ exists k', (1 <= k')%nat /\ at_version (H:=log_sql) loaded [] k' second.2.
Proof.
  intros first second. split; [by vm_compute|]. split; [by vm_compute|]. split; [by vm_compute|].
  destruct (Run_at_version (S:=list bytes) (H:=log_sql) embedded loaded [] 1 first.2 second.1 second.2)
    as (k' & Hk & Hat & _).
  - by vm_compute.
  - split; [simpl; lia|]. split; [|by vm_compute]. vm_compute. reflexivity.
  - unfold second. by destruct (Run embedded first.2).
  - by exists k'.
Defined.
