(* ===== verification/Scheduler.v ===== *)
(** The scheduler of recurring jobs: [internal/scheduler/scheduler.go].

    Time is in nanoseconds.  A job's loop is told, round by round, how long it
    needs to reach its [select] again, which channel that takes when both are
    ready, and how long the job runs and how it ends.  The context is cancelled
    at a time or never.  The loops share nothing but the context. *)
From S2P Require Import Prelude GoStrings.

Record Job := MkJob { Name : bytes; Interval : Z }.

(** How [job.Run] ends. *)
Inductive outcome : Type := Returned | Failed | Panicked.

Record round := MkRound { busy : Z; timer_first : bool; took : Z; ended : outcome }.

(** What the loop logs of an invocation; [None]: the error is the cancellation's. *)
Inductive report : Type := Completed | JobFailed | JobPanicked.

Record invocation := MkInvocation { started : Z; finished : Z; logged : option report }.

(** [ctx.Err() != nil] at [t]. *)
Definition done (ctx : option Z) (t : Z) : bool :=
  match ctx with Some c => c <=? t | None => false end.

(** [draw n] is [rand.Int64N(n)]. *)
Definition jitter (draw : Z -> Z) (d : Z) : Z :=
  if d <=? 0 then Second
  else
    let half := Z.quot d 2 in
    half + draw (half + 1).

Definition invoke (ctx : option Z) (r : round) (t : Z) : invocation :=
  let t' := t + took r in
  MkInvocation t t'
    match ended r with
    | Panicked => Some JobPanicked
    | Failed => if done ctx t' then None else Some JobFailed
    | Returned => Some Completed
    end.

(** The [select] reached at [t] with a timer that fires at [fire]: the time it
    takes the timer, or [None] when it takes the context. *)
Definition select (ctx : option Z) (t fire : Z) (timer_first : bool) : option Z :=
  let ready := Z.max t fire in
  match ctx with
  | None => Some ready
  | Some c =>
      let cancelled := Z.max t c in
      if (ready <? cancelled) || ((ready =? cancelled) && timer_first) then Some ready else None
  end.

(** The loop, its timer set at [t] to fire at [fire]: the invocations, and
    whether it returned. *)
Fixpoint loop (ctx : option Z) (interval t fire : Z) (rounds : list round) : list invocation * bool :=
  match rounds with
  | [] => ([], false)
  | r :: rounds =>
      match select ctx (t + busy r) fire (timer_first r) with
      | None => ([], true)
      | Some start =>
          let i := invoke ctx r start in
          let '(invs, returned) := loop ctx interval (finished i) (finished i + interval) rounds in
          (i :: invs, returned)
      end
  end.

Definition runJob (ctx : option Z) (draw : Z -> Z) (job : Job) (t : Z) (rounds : list round) : list invocation * bool :=
  let interval := Interval job in
  if interval <=? 0 then ([], true)
  else
    let initial := jitter draw (Z.quot interval 10) in
    loop ctx interval t (t + initial) rounds.

(** [Run]: every job in a goroutine of its own; it returns when all loops have. *)
Definition Run (ctx : option Z) (jobs : list (Job * (Z -> Z) * list round)) (t : Z) : list (list invocation) * bool :=
  let runs := (fun '(job, draw, rounds) => runJob ctx draw job t rounds) <$> jobs in
  (runs.*1, forallb snd runs).

(** ** The timetable a job is meant to keep *)

(** The first run at [t], each next one an interval after the end of the one
    before, whatever these end with. *)
Fixpoint timetable (interval t : Z) (rounds : list round) : list (Z * round) :=
  match rounds with
  | [] => []
  | r :: rounds => (t, r) :: timetable interval (t + took r + interval) rounds
  end.

(** A run takes place unless the context is cancelled before it (at its very
    moment, as the [select] falls). *)
Definition takes_place (ctx : option Z) (e : Z * round) : bool :=
  match ctx with
  | None => true
  | Some c => (e.1 <? c) || ((e.1 =? c) && timer_first e.2)
  end.

Fixpoint take_while {A} (p : A -> bool) (l : list A) : list A :=
  match l with
  | [] => []
  | x :: l => if p x then x :: take_while p l else []
  end.

(** The loop is back at its [select] before the timer fires. *)
Definition prompt (wait : Z) (rounds : list round) : Prop :=
  Forall (fun r => 0 <= busy r < wait /\ 0 <= took r) rounds.

(** [rand.Int64N] draws below its bound. *)
Definition fair (draw : Z -> Z) : Prop := forall n, 0 < n -> 0 <= draw n < n.

Lemma take_while_all {A} (p : A -> bool) l : forallb p l = true -> take_while p l = l.
Proof. induction l as [|x l IH]; simpl; [done|]. destruct (p x); simpl; [|done]. intros H. by rewrite IH. Qed.

Lemma take_while_forall {A} (p : A -> bool) l : Forall (fun x => p x = true) (take_while p l).
Proof. induction l as [|x l IH]; simpl; [done|]. destruct (p x) eqn:E; by constructor. Qed.

Lemma jitter_bounds draw d :
  fair draw -> (d <= 0 -> jitter draw d = Second) /\ (0 < d -> Z.quot d 2 <= jitter draw d <= d).
Proof.
  intros Hf. unfold jitter. destruct (Z.leb_spec d 0); split; try lia; intros Hd.
  rewrite Z.quot_div_nonneg by lia. pose proof (Hf (d / 2 + 1)). pose proof (Z.div_mod d 2). pose proof (Z.mod_pos_bound d 2). lia.
Qed.

Lemma select_prompt ctx t fire r :
  t + busy r < fire -> select ctx (t + busy r) fire (timer_first r) = if takes_place ctx (fire, r) then Some fire else None.
Proof.
  intros Ht. unfold select, takes_place. destruct ctx as [c|]; cbn; [|by rewrite Z.max_r by lia].
  rewrite (Z.max_r _ fire) by lia. destruct (Z.ltb_spec fire c) as [Hc|Hc]; cbn.
  - destruct (Z.ltb_spec fire (Z.max (t + busy r) c)); [done|lia].
  - destruct (Z.ltb_spec fire (Z.max (t + busy r) c)); [lia|].
    destruct (Z.eqb_spec fire c), (Z.eqb_spec fire (Z.max (t + busy r) c)); cbn; try lia; done.
Qed.

Definition entry_of (ctx : option Z) (e : Z * round) : invocation := invoke ctx e.2 e.1.

Lemma loop_timetable ctx interval t wait rounds :
  prompt (Z.min wait interval) rounds ->
  let table := timetable interval (t + wait) rounds in
  loop ctx interval t (t + wait) rounds
  = (entry_of ctx <$> take_while (takes_place ctx) table, negb (forallb (takes_place ctx) table)).
Proof.
  revert t wait; induction rounds as [|r rounds IH]; intros t wait Hp; [done|].
  inversion Hp as [|? ? [Hb Ht] Hp']; subst. cbn zeta. cbn [loop timetable take_while forallb].
  rewrite select_prompt by lia. destruct (takes_place ctx (t + wait, r)); [|done].
  cbn [invoke finished]. rewrite IH; [done|]. eapply Forall_impl; [exact Hp'|]. cbn. intros r' ?. lia.
Qed.

(** The runs of a timetable are an interval apart at least, so the [n]th is that late. *)
Lemma timetable_late interval t wait rounds :
  0 < interval -> prompt wait rounds -> rounds <> [] ->
  exists e, e ∈ timetable interval t rounds /\ t + (Z.of_nat (length rounds) - 1) * interval <= e.1.
Proof.
  intros Hi. revert t; induction rounds as [|r rounds IH]; intros t Hp Hn; [done|].
  inversion Hp as [|? ? [Hb Ht] Hp']; subst. cbn [timetable length].
  destruct (decide (rounds = [])) as [->|Hr]; [exists (t, r); split; [left|cbn; lia]|].
  destruct (IH (t + took r + interval) Hp' Hr) as (e & He & Hle). exists e. split; [by right|lia].
Qed.

(** The jobs of a scheduler: their intervals, draws and rounds. *)
Definition scheduled (t : Z) (j : Job * (Z -> Z) * list round) : list (Z * round) :=
  let '(job, draw, rounds) := j in
  timetable (Interval job) (t + jitter draw (Z.quot (Interval job) 10)) rounds.

Definition on_time (j : Job * (Z -> Z) * list round) : Prop :=
  let '(job, draw, rounds) := j in
  0 < Interval job /\ fair draw /\ prompt (Z.min (jitter draw (Z.quot (Interval job) 10)) (Interval job)) rounds.

Lemma runJob_timetable ctx t j :
  on_time j ->
  (let '(job, draw, rounds) := j in runJob ctx draw job t rounds)
  = (entry_of ctx <$> take_while (takes_place ctx) (scheduled t j), negb (forallb (takes_place ctx) (scheduled t j))).
Proof.
  destruct j as [[job draw] rounds]. intros (Hi & Hf & Hp). unfold runJob, scheduled.
  destruct (Z.leb_spec (Interval job) 0); [lia|]. by apply loop_timetable.
Qed.

(** Rounds enough to pass the cancellation. *)
Lemma cancelled_in_time c t j :
  on_time j -> t <= c < t + (Z.of_nat (length j.2) - 1) * Interval j.1.1 ->
  forallb (takes_place (Some c)) (scheduled t j) = false.
Proof.
  destruct j as [[job draw] rounds]. intros (Hi & Hf & Hp). cbn [fst snd]. unfold scheduled.
  set (t0 := t + jitter draw _). assert (t <= t0) as Ht0.
  { unfold t0. pose proof (jitter_bounds draw (Z.quot (Interval job) 10) Hf) as [Hs Hb].
    destruct (Z.leb_spec (Z.quot (Interval job) 10) 0); [rewrite Hs by done; unfold Second, Millisecond; lia|].
    pose proof (Z.quot_pos (Z.quot (Interval job) 10) 2). lia. }
  intros Hc. destruct (forallb _ _) eqn:E; [exfalso|done]. rewrite forallb_forall in E.
  destruct (timetable_late (Interval job) t0 _ rounds Hi Hp) as (e & He & Hle); [intros ->; cbn in Hc; lia|].
  apply list_elem_of_In, E in He. unfold takes_place in He.
  destruct (Z.ltb_spec e.1 c), (Z.eqb_spec e.1 c); try done; lia.
Qed.

(** Every job runs by its timetable and by nothing else: first after a tenth of
    its interval at most (a second, for an interval below ten nanoseconds), then
    an interval after each run has ended, so it never overlaps itself, and
    however its runs or those of other jobs end, in errors and panics too.  The
    runs are those before the cancellation, none comes after, and [Run] returns
    once it has passed. *)
Theorem Run_keeps_timetables ctx jobs t :
  Forall on_time jobs ->
  let '(runs, returned) := Run ctx jobs t in
  runs = (fun j => entry_of ctx <$> take_while (takes_place ctx) (scheduled t j)) <$> jobs
  /\ (ctx = None -> Forall2 (fun invs j => length invs = length j.2) runs jobs)
  /\ (forall c, ctx = Some c ->
        Forall (Forall (fun i => started i <= c)) runs
        /\ (Forall (fun j => t <= c < t + (Z.of_nat (length j.2) - 1) * Interval j.1.1) jobs -> returned = true)).
Proof.
  intros Hon. unfold Run. set (one := fun j => (entry_of ctx <$> take_while (takes_place ctx) (scheduled t j), negb (forallb (takes_place ctx) (scheduled t j)))).
  assert ((fun '(job, draw, rounds) => runJob ctx draw job t rounds) <$> jobs = one <$> jobs) as ->.
  { apply list_fmap_ext. intros i j Hj. rewrite Forall_lookup in Hon. apply Hon in Hj.
    unfold one. destruct j as [[job draw] rounds]. by apply (runJob_timetable ctx t (job, draw, rounds)). }
  rewrite <- list_fmap_compose. split; [done|]. split.
  - intros ->. apply Forall2_fmap_l, Forall_Forall2_diag, Forall_true. intros [[job draw] rounds]. cbn.
    rewrite length_fmap, take_while_all by (apply forallb_forall; by intros [] _).
    unfold scheduled. generalize (t + jitter draw (Z.quot (Interval job) 10)).
    induction rounds as [|r rounds IH]; intros t0; cbn; [done|]. by rewrite IH.
  - intros c ->. split.
    + apply Forall_fmap, Forall_true. intros j. unfold one, compose. cbn [fst]. apply Forall_fmap. eapply Forall_impl; [apply take_while_forall|].
      intros [t0 r]. unfold takes_place. cbn. intros [H|[H _]%andb_true_iff]%orb_true_iff; lia.
    + intros Hlong. apply forallb_forall. intros [invs b] (j & [= -> ->] & Hj)%list_elem_of_In%list_elem_of_fmap.
      cbn. rewrite Forall_forall in Hon, Hlong. by rewrite (cancelled_in_time c t j (Hon j Hj) (Hlong j Hj)).
Qed.

(** A job that panics beside one that fails, cancelled in the second round. *)
Definition sample_jobs : list (Job * (Z -> Z) * list round) :=
  [(MkJob (go "a") 100, fun n => Z.min 2 (n - 1), [MkRound 1 true 30 Panicked; MkRound 1 true 30 Panicked; MkRound 0 true 5 Returned]);
   (MkJob (go "b") 200, fun _ => 0, [MkRound 3 true 10 Failed; MkRound 3 false 10 Failed; MkRound 3 true 0 Failed])].

Lemma Run_keeps_timetables_witness :
  (Run (Some 137) sample_jobs 0).1
    = [[MkInvocation 7 37 (Some JobPanicked); MkInvocation 137 167 (Some JobPanicked)]; [MkInvocation 10 20 (Some JobFailed)]]
  /\ (Run (Some 137) sample_jobs 0).2 = true.
Proof.
  assert (Forall on_time sample_jobs) as Hon.
  { repeat constructor; cbn; try lia; intros n Hn; cbn in *; lia. }
  split; [by vm_compute|].
  pose proof (Run_keeps_timetables (Some 137) sample_jobs 0 Hon) as H.
  destruct (Run (Some 137) sample_jobs 0) as [runs returned]. destruct H as (_ & _ & H).
  apply (H 137 eq_refl). repeat constructor; cbn; lia.
Defined.
