(* ===== verification/Url.v ===== *)
(** The parts of Go's [net/url] the signing code and the DNS providers use:
    escaping, query values, and the reading of an absolute URL.

    [url.Values] is a map from a key to its values in order; Go's map gives
    its keys in no order, and every function here sorts them. *)
From S2P Require Import Prelude GoStrings.

(** ** Escaping ([escape], [unescape], [shouldEscape]) *)

Inductive encoding : Type := encodePath | encodePathSegment | encodeHost | encodeQueryComponent.

#[export] Instance encoding_eq_dec : EqDecision encoding.
Proof. solve_decision. Defined.

Definition is_alnum (c : byte) : bool :=
  let z := b2z c in
  ((97 <=? z) && (z <=? 122)) || ((65 <=? z) && (z <=? 90)) || ((48 <=? z) && (z <=? 57)).

Definition shouldEscape (c : byte) (mode : encoding) : bool :=
  if is_alnum c then false
  else if bool_decide (mode = encodeHost) && ContainsByte (go "!$&'()*+,;=:[]<>") c then false
  else if bool_decide (mode = encodeHost) && bool_decide (c = x22) then false
  else if ContainsByte (go "-_.~") c then false
  else if ContainsByte (go "$&+,/:;=?@") c then
    match mode with
    | encodePath => bool_decide (c = x3f)
    | encodePathSegment => ContainsByte (go "/;,?") c
    | encodeQueryComponent => true
    | encodeHost => true
    end
  else true.

Definition upperhex (n : Z) : byte := if n <? 10 then z2b (48 + n) else z2b (55 + n).

(** [%XX] *)
Definition percent (c : byte) : bytes := [x25; upperhex (b2z c / 16); upperhex (b2z c mod 16)].

Definition escape_byte (mode : encoding) (c : byte) : bytes :=
  if bool_decide (c = x20) && bool_decide (mode = encodeQueryComponent) then go "+"
  else if shouldEscape c mode then percent c
  else [c].

Definition escape (s : bytes) (mode : encoding) : bytes := concat (escape_byte mode <$> s).

Definition ishex (c : byte) : bool :=
  let z := b2z c in
  ((48 <=? z) && (z <=? 57)) || ((97 <=? z) && (z <=? 102)) || ((65 <=? z) && (z <=? 70)).

Definition unhex (c : byte) : Z :=
  let z := b2z c in
  if (48 <=? z) && (z <=? 57) then z - 48
  else if (97 <=? z) && (z <=? 102) then z - 97 + 10
  else z - 65 + 10.

(** A host may escape only bytes that are not ASCII, and a percent sign. *)
Definition host_escape_ok (mode : encoding) (a b : byte) : bool :=
  negb (bool_decide (mode = encodeHost)) || (8 <=? unhex a) || bool_decide ([a; b] = go "25").

Fixpoint unescape (s : bytes) (mode : encoding) : option bytes :=
  match s with
  | [] => Some []
  | x25 :: a :: b :: r =>
      if ishex a && ishex b && host_escape_ok mode a b then
        cons (z2b (16 * unhex a + unhex b)) <$> unescape r mode
      else None
  | x25 :: _ => None
  | x2b :: r =>
      cons (if bool_decide (mode = encodeQueryComponent) then x20 else x2b) <$> unescape r mode
  | c :: r =>
      if bool_decide (mode = encodeHost) && (b2z c <? 128) && shouldEscape c mode then None
      else cons c <$> unescape r mode
  end.

Definition QueryEscape (s : bytes) : bytes := escape s encodeQueryComponent.
Definition QueryUnescape (s : bytes) : option bytes := unescape s encodeQueryComponent.
Definition PathEscape (s : bytes) : bytes := escape s encodePathSegment.

(** ** [strings.ReplaceAll] of a text that is not empty *)

(** [skip] bytes belong to an occurrence that was replaced. *)
Fixpoint replace_from (skip : nat) (s old new : bytes) : bytes :=
  match s with
  | [] => []
  | c :: r =>
      match skip with
      | S k => replace_from k r old new
      | O => if HasPrefix s old then new ++ replace_from (length old - 1) r old new
             else c :: replace_from 0 r old new
      end
  end.

Definition ReplaceAll (s old new : bytes) : bytes := replace_from 0 s old new.

(** ** Values *)

Abbreviation Values := (gmap bytes (list bytes)).

Definition Values_Get (v : Values) (key : bytes) : bytes :=
  match v !! key with Some (x :: _) => x | _ => [] end.
Definition Values_Set (v : Values) (key value : bytes) : Values := <[key := [value]]> v.
Definition Values_Add (v : Values) (key value : bytes) : Values := <[key := v !!! key ++ [value]]> v.

Definition sorted_keys {A} (m : gmap bytes A) : list bytes := SortStrings (elements (dom m)).

(** The loop that [Encode] and the canonical query share: [esc] escapes a key or
    a value, [order] arranges the values of a key. *)
Definition write_pair (esc : bytes -> bytes) (out : bytes) (kv : bytes * bytes) : bytes :=
  out ++ (match out with [] => [] | _ => go "&" end) ++ esc kv.1 ++ go "=" ++ esc kv.2.

Definition pairs (order : list bytes -> list bytes) (v : Values) : list (bytes * bytes) :=
  k ← sorted_keys v; pair k <$> order (v !!! k).

Definition encode_with (esc : bytes -> bytes) (order : list bytes -> list bytes) (v : Values) : bytes :=
  foldl (write_pair esc) [] (pairs order v).

Definition Encode (v : Values) : bytes := encode_with QueryEscape id v.

(** One [key=value] of [ParseQuery]; the second component says whether an error
    was met, which [URL.Query] ignores. *)
Definition parse_pair (acc : Values * bool) (part : bytes) : Values * bool :=
  let '(m, bad) := acc in
  if ContainsByte part x3b then (m, true)
  else if bool_decide (part = []) then (m, bad)
  else
    let '(key, value, _) := Cut part (go "=") in
    match QueryUnescape key, QueryUnescape value with
    | Some key, Some value => (Values_Add m key value, bad)
    | _, _ => (m, true)
    end.

Definition ParseQuery (query : bytes) : Values * bool := foldl parse_pair (∅, false) (Split query x26).

(** ** URLs *)

Record URL := MkURL { Scheme : bytes; Host : bytes; Path : bytes; RawPath : bytes; RawQuery : bytes }.

Definition Query (u : URL) : Values := (ParseQuery (RawQuery u)).1.

(** [validEncoded] with [encodePath]. *)
Definition validEncoded (s : bytes) : bool :=
  forallb (fun c => ContainsByte (go "!$&'()*+,;=:@[]%") c || negb (shouldEscape c encodePath)) s.

Definition EscapedPath (u : URL) : bytes :=
  if negb (bool_decide (RawPath u = [])) && validEncoded (RawPath u)
     && bool_decide (unescape (RawPath u) encodePath = Some (Path u)) then RawPath u
  else if bool_decide (Path u = go "*") then go "*"
  else escape (Path u) encodePath.

Definition is_ctl (c : byte) : bool := (b2z c <? 32) || (b2z c =? 127).

Definition is_scheme_byte (c : byte) : bool := is_alnum c || ContainsByte (go "+-.") c.

(** [getScheme] of a text that has one. *)
Definition getScheme (raw : bytes) : option (bytes * bytes) :=
  match IndexByte raw x3a with
  | Some (S i) =>
      let scheme := take (S i) raw in
      match scheme with
      | c :: _ =>
          if forallb is_scheme_byte scheme && is_alnum c && negb ((48 <=? b2z c) && (b2z c <=? 57))
          then Some (lower_byte <$> scheme, drop (S (S i)) raw) else None
      | [] => None
      end
  | _ => None
  end.

Definition validOptionalPort (port : bytes) : bool :=
  match port with
  | [] => true
  | c :: r => bool_decide (c = x3a) && forallb (fun b => (48 <=? b2z b) && (b2z b <=? 57)) r
  end.

(** [parseHost]; the zone of a bracketed address is read as the rest of it. *)
Definition parseHost (host : bytes) : option bytes :=
  let port :=
    if HasPrefix host (go "[") then
      match LastIndexByte host x5d with Some i => Some (drop (S i) host) | None => None end
    else
      match LastIndexByte host x3a with Some i => Some (drop i host) | None => Some [] end in
  match port with
  | Some port => if validOptionalPort port then unescape host encodeHost else None
  | None => None
  end.

Definition validUserinfo (s : bytes) : bool :=
  forallb (fun c => is_alnum c || ContainsByte (go "-._:~!$&'()*+,;=%@") c) s.

(** [parseAuthority]: the user is checked and not kept, nothing reads it. *)
Definition parseAuthority (authority : bytes) : option bytes :=
  match LastIndexByte authority x40 with
  | None => parseHost authority
  | Some i =>
      let userinfo := take i authority in
      let '(username, password, _) := Cut userinfo (go ":") in
      host ← parseHost (drop (S i) authority);
      if validUserinfo userinfo && bool_decide (is_Some (unescape username encodePath))
         && bool_decide (is_Some (unescape password encodePath)) then Some host else None
  end.

Definition setPath (p : bytes) : option (bytes * bytes) :=
  path ← unescape p encodePath;
  Some (path, if bool_decide (escape path encodePath = p) then [] else p).

(** [url.Parse] of a URL with a scheme and an authority, the only ones a request
    can be made with; others are [None]. *)
Definition Parse (raw : bytes) : option URL :=
  let '(raw, fragment, _) := Cut raw (go "#") in
  if existsb is_ctl raw || bool_decide (unescape fragment encodePath = None) then None
  else
    '(scheme, rest) ← getScheme raw;
    let '(rest, query, _) := Cut rest (go "?") in
    if negb (HasPrefix rest (go "//")) then None
    else
      let rest := drop 2 rest in
      let '(authority, path) :=
        match IndexByte rest x2f with Some i => (take i rest, drop i rest) | None => (rest, []) end in
      host ← parseAuthority authority;
      '(path, rawpath) ← setPath path;
      Some (MkURL scheme host path rawpath query).

(** ** Escaping, byte by byte *)

Lemma escape_cons c s mode : escape (c :: s) mode = escape_byte mode c ++ escape s mode.
Proof. done. Qed.

Lemma unescape_escape_byte mode c t :
  mode <> encodeHost ->
  unescape (escape_byte mode c ++ t) mode = cons c <$> unescape t mode.
Proof. destruct mode; [..|done|]; intros _; destruct c; reflexivity. Qed.

Lemma unescape_escape mode s : mode <> encodeHost -> unescape (escape s mode) mode = Some s.
Proof.
  intros Hm. induction s as [|c s IH]; [by destruct mode|].
  by rewrite escape_cons, unescape_escape_byte, IH.
Qed.

(** An escaper of query keys and values: what it writes decodes to what it was
    given and is made of letters, digits and the bytes below. *)
Definition esc_byte (c : byte) : bool := is_alnum c || ContainsByte (go "-_.~%+") c.

Class QueryEscaper (esc : bytes -> bytes) : Prop := {
  esc_decodes : forall s, QueryUnescape (esc s) = Some s;
  esc_clean : forall s, Forall (fun c => esc_byte c = true) (esc s)
}.

Lemma concat_clean (f : byte -> bytes) (P : byte -> Prop) s :
  (forall c, Forall P (f c)) -> Forall P (concat (f <$> s)).
Proof. intros H. induction s; simpl; [constructor|]. by apply Forall_app. Qed.

Lemma clean_no (P : byte -> bool) s c : Forall (fun c => P c = true) s -> P c = false -> c ∉ s.
Proof. rewrite Forall_forall. intros H Hc Hs. rewrite H in Hc by done. done. Qed.

#[export] Instance QueryEscape_escaper : QueryEscaper QueryEscape.
Proof.
  split; [intros s; by apply unescape_escape|].
  intros s. apply concat_clean. intros c. destruct c; apply (bool_decide_unpack _); by vm_compute.
Qed.

(** ** [ReplaceAll] on a text made of tokens *)

Lemma ReplaceAll_tokens (f g : byte -> bytes) old new s :
  (forall c t, replace_from 0 (f c ++ t) old new = g c ++ replace_from 0 t old new) ->
  ReplaceAll (concat (f <$> s)) old new = concat (g <$> s).
Proof.
  intros H. unfold ReplaceAll. induction s as [|c s IH]; [done|].
  change (concat (f <$> c :: s)) with (f c ++ concat (f <$> s)). by rewrite H, IH.
Qed.

(** ** What the writers write, the reader reads *)

Section pairs_text.
Context (esc : bytes -> bytes) `{QueryEscaper esc}.

Definition pair_text (kv : bytes * bytes) : bytes := esc kv.1 ++ go "=" ++ esc kv.2.

Lemma write_pairs ps out :
  foldl (write_pair esc) out ps
  = match ps, out with
    | [], _ => out
    | _, [] => Join (pair_text <$> ps) (go "&")
    | _, _ => out ++ go "&" ++ Join (pair_text <$> ps) (go "&")
    end.
Proof.
  revert out. induction ps as [|p ps IH]; intros out; [done|].
  cbn [foldl]. rewrite IH. unfold write_pair at 1 2 3. fold (pair_text p).
  destruct ps as [|q ps].
  - destruct out; [by rewrite app_nil_l|]. by cbn.
  - assert (pair_text p <> []) as Hne. { unfold pair_text. by destruct (esc p.1). }
    change (Join (pair_text <$> p :: q :: ps) (go "&"))
      with (pair_text p ++ go "&" ++ Join (pair_text <$> q :: ps) (go "&")).
    destruct out as [|x out].
    + cbn [app]. destruct (pair_text p); [done|]. done.
    + change ((x :: out) ++ go "&" ++ pair_text p) with (x :: out ++ go "&" ++ pair_text p).
      cbn [app]. f_equal. by rewrite <- !app_assoc.
Qed.

Definition text_byte (c : byte) : bool := esc_byte c || bool_decide (c = x3d).

Lemma pair_text_clean kv : Forall (fun c => text_byte c = true) (pair_text kv).
Proof.
  assert (forall s, Forall (fun c => text_byte c = true) (esc s)) as He.
  { intros s. eapply Forall_impl; [apply esc_clean|]. intros c Hc. unfold text_byte. by rewrite Hc. }
  unfold pair_text. apply Forall_app. split; [apply He|]. apply Forall_app. split; [by repeat constructor|apply He].
Qed.

Lemma encode_clean ps : Forall (fun c => text_byte c = true \/ c = x26) (foldl (write_pair esc) [] ps).
Proof.
  assert (forall out, Forall (fun c => text_byte c = true \/ c = x26) out ->
    Forall (fun c => text_byte c = true \/ c = x26) (foldl (write_pair esc) out ps)) as Hgen; [|by apply Hgen].
  induction ps as [|kv ps IH]; intros out Ho; [done|]. apply IH. unfold write_pair.
  apply Forall_app. split; [done|]. apply Forall_app. split.
  - destruct out; [constructor|]. apply Forall_singleton. by right.
  - fold (pair_text kv). eapply Forall_impl; [apply pair_text_clean|]. by left.
Qed.

Lemma parse_pair_text m bad kv :
  parse_pair (m, bad) (pair_text kv) = (Values_Add m kv.1 kv.2, bad).
Proof.
  unfold parse_pair, ContainsByte.
  rewrite (bool_decide_eq_false_2 (x3b ∈ _)) by exact (clean_no _ _ x3b (pair_text_clean kv) eq_refl).
  rewrite bool_decide_eq_false_2 by (unfold pair_text; by destruct (esc kv.1)).
  change (Cut (pair_text kv) (go "=")) with (Cut (esc kv.1 ++ x3d :: esc kv.2) [x3d]).
  rewrite Cut_app.
  - by rewrite !esc_decodes.
  - exact (clean_no _ _ x3d (esc_clean _) eq_refl).
Qed.

Definition add_pair (m : Values) (kv : bytes * bytes) : Values := Values_Add m kv.1 kv.2.

Lemma ParseQuery_pairs ps :
  ParseQuery (foldl (write_pair esc) [] ps) = (foldl add_pair ∅ ps, false).
Proof.
  unfold ParseQuery. rewrite write_pairs. destruct ps as [|p ps]; [done|].
  change (go "&") with [x26]. rewrite Split_Join.
  - generalize (∅ : Values). generalize (p :: ps). clear p ps.
    intros l. induction l as [|p ps IH]; intros m; [done|].
    change (foldl parse_pair (m, false) (pair_text <$> p :: ps))
      with (foldl parse_pair (parse_pair (m, false) (pair_text p)) (pair_text <$> ps)).
    by rewrite parse_pair_text, IH.
  - done.
  - apply Forall_fmap, Forall_true. intros kv. exact (clean_no _ _ x26 (pair_text_clean kv) eq_refl).
Qed.
End pairs_text.

Lemma add_values k l m :
  foldl add_pair m (pair k <$> l) = if bool_decide (l = []) then m else <[k := m !!! k ++ l]> m.
Proof.
  revert m. induction l as [|x l IH]; intros m; [done|].
  rewrite bool_decide_eq_false_2 by done.
  change (foldl add_pair m (pair k <$> x :: l)) with (foldl add_pair (add_pair m (k, x)) (pair k <$> l)).
  rewrite IH. unfold add_pair, Values_Add. cbn [fst snd]. destruct l as [|y l].
  - done.
  - rewrite bool_decide_eq_false_2 by done.
    by rewrite lookup_total_insert_eq, insert_insert_eq, <- app_assoc.
Qed.

Lemma add_keys (order : list bytes -> list bytes) (v m : Values) ks k :
  (forall l, order l = [] -> l = []) -> NoDup ks ->
  (forall k, k ∈ ks -> m !! k = None) ->
  (forall k, k ∈ ks -> exists l, v !! k = Some l /\ l <> []) ->
  foldl add_pair m (k ← ks; pair k <$> order (v !!! k)) !! k
  = if bool_decide (k ∈ ks) then order <$> v !! k else m !! k.
Proof.
  intros Ho. revert m. induction ks as [|k' ks IH]; intros m Hnd Hm Hv; [done|].
  apply NoDup_cons in Hnd as [Hk' Hnd].
  cbn [mbind list_bind]. rewrite foldl_app, add_values.
  destruct (Hv k' ltac:(set_solver)) as (l & Hl & Hne).
  assert (v !!! k' = l) as -> by (by apply lookup_total_correct).
  assert (m !!! k' = []) as -> by (unfold lookup_total, map_lookup_total; by rewrite Hm by set_solver).
  rewrite bool_decide_eq_false_2 by auto. rewrite app_nil_l. rewrite IH; [|done|..].
  - destruct (decide (k = k')) as [->|Hk].
    + rewrite bool_decide_eq_false_2, bool_decide_eq_true_2 by set_solver.
      by rewrite lookup_insert_eq, Hl.
    + rewrite lookup_insert_ne by done.
      destruct (decide (k ∈ ks)).
      * by rewrite !bool_decide_eq_true_2 by set_solver.
      * by rewrite !bool_decide_eq_false_2 by set_solver.
  - intros k1 Hk1. rewrite lookup_insert_ne by (intros ->; done). apply Hm. set_solver.
  - intros k1 Hk1. apply Hv. set_solver.
Qed.

Definition no_empty_key (v : Values) : Prop := map_Forall (fun _ l => l <> []) v.

#[export] Instance no_empty_key_dec v : Decision (no_empty_key v).
Proof. apply _. Defined.

Lemma sorted_keys_elem {A} (m : gmap bytes A) k : k ∈ sorted_keys m <-> is_Some (m !! k).
Proof. unfold sorted_keys. by rewrite SortStrings_perm, elem_of_elements, elem_of_dom. Qed.

Lemma sorted_keys_NoDup {A} (m : gmap bytes A) : NoDup (sorted_keys m).
Proof. unfold sorted_keys. rewrite SortStrings_perm. apply NoDup_elements. Qed.

Lemma encode_with_parse esc `{QueryEscaper esc} (order : list bytes -> list bytes) v :
  (forall l, order l = [] -> l = []) -> no_empty_key v ->
  ParseQuery (encode_with esc order v) = (order <$> v, false).
Proof.
  intros Ho Hv. unfold encode_with. rewrite (ParseQuery_pairs esc).
  enough (foldl add_pair ∅ (pairs order v) = order <$> v) as -> by done.
  apply map_eq. intros k. unfold pairs. rewrite add_keys.
  - rewrite lookup_fmap. case_bool_decide as Hk; [done|].
    rewrite sorted_keys_elem in Hk. apply eq_None_not_Some in Hk. by rewrite Hk, lookup_empty.
  - done.
  - apply sorted_keys_NoDup.
  - intros k1 _. apply lookup_empty.
  - intros k1 [l Hl]%sorted_keys_elem. exists l. split; [done|]. exact (Hv k1 l Hl).
Qed.

(** Query values survive their encoding: what [ParseQuery] reads from what
    [Encode] wrote is the values, without an error, whatever bytes the keys and
    values hold, for values in which every key has one. *)
Theorem Encode_roundtrip v : no_empty_key v -> ParseQuery (Encode v) = (v, false).
Proof.
  intros Hv. unfold Encode. rewrite (encode_with_parse QueryEscape) by done.
  assert (id <$> v = v) as -> by apply map_fmap_id. done.
Qed.

Lemma Encode_roundtrip_witness :
  ParseQuery (Encode {[ go "a b" := [go "1&2"; go "x=y"]; go "z" := [[]] ]})
  = ({[ go "a b" := [go "1&2"; go "x=y"]; go "z" := [[]] ]}, false).
Proof. apply Encode_roundtrip. apply (bool_decide_unpack _). by vm_compute. Defined.

(** ** Parsing what was put together *)

Lemma EscapedPath_setPath p path rawpath scheme host query :
  setPath p = Some (path, rawpath) -> validEncoded p = true ->
  EscapedPath (MkURL scheme host path rawpath query) = p \/ p = [] \/ path = go "*".
Proof.
  unfold setPath. intros H Hv. destruct (unescape p encodePath) as [u|] eqn:Hu; simplify_eq/=.
  unfold EscapedPath. cbn [RawPath Path].
  destruct (decide (escape path encodePath = p)) as [He|He].
  - rewrite (bool_decide_eq_true_2 (escape path encodePath = p)) by done.
    rewrite (bool_decide_eq_true_2 ([] = [])) by done. cbn [negb andb].
    case_bool_decide; [by right; right|by left].
  - rewrite (bool_decide_eq_false_2 (escape path encodePath = p)) by done.
    destruct p as [|c p]; [by right; left|]. rewrite Hv, Hu.
    rewrite bool_decide_eq_false_2, bool_decide_eq_true_2 by done. by left.
Qed.

(** What a URL gives back is clean. *)
Lemma EscapedPath_clean u : x0a ∉ EscapedPath u.
Proof.
  assert (forall s, x0a ∉ escape s encodePath) as He.
  { intros s. apply (clean_no (fun c => negb (bool_decide (c = x0a)))); [|done]. apply concat_clean.
    intros c. destruct c; apply (bool_decide_unpack _); by vm_compute. }
  unfold EscapedPath. destruct (negb _ && _ && _) eqn:E.
  - rewrite !andb_true_iff in E. destruct E as [[_ Hv] _]. intros Hin. unfold validEncoded in Hv.
    rewrite forallb_forall in Hv. apply list_elem_of_In in Hin. by specialize (Hv _ Hin).
  - destruct (bool_decide (Path u = go "*")); [|apply He]. apply (bool_decide_unpack _). by vm_compute.
Qed.

Lemma ParseQuery_no_empty q : no_empty_key (ParseQuery q).1.
Proof.
  unfold ParseQuery. assert (no_empty_key (∅ : Values, false).1) as H by apply map_Forall_empty.
  revert H. generalize (∅ : Values, false). induction (Split q x26) as [|part ps IH]; intros [m bad] Hm; [done|].
  cbn [foldl]. apply IH. cbn [fst] in Hm. unfold parse_pair. case_match; [done|]. case_match; [done|].
  destruct (Cut part _) as [[key value] ?].
  destruct (QueryUnescape key) as [k|], (QueryUnescape value) as [v|]; try done.
  intros k' l. cbn [fst]. unfold Values_Add. rewrite lookup_insert. case_decide; [|apply Hm].
  intros [= <-] E. by destruct (m !!! k).
Qed.

(** ** Reading back [https://host/path?query] *)

(** Bytes that stand for themselves everywhere in a URL. *)
Definition plain_url_byte (c : byte) : bool := is_alnum c || ContainsByte (go "-._~") c.
Definition path_byte (c : byte) : bool := plain_url_byte c || bool_decide (c = x2f).
Definition query_byte (c : byte) : bool := text_byte c || bool_decide (c = x26).

Abbreviation all_bytes P s := (Forall (fun c => P c = true) s).

Lemma escape_id mode s : (forall c, c ∈ s -> escape_byte mode c = [c]) -> escape s mode = s.
Proof.
  induction s as [|c s IH]; intros H; [done|]. rewrite escape_cons, H, IH by set_solver. done.
Qed.

Lemma plain_escape s : all_bytes path_byte s -> escape s encodePath = s.
Proof.
  rewrite Forall_forall. intros H. apply escape_id. intros c Hc. specialize (H c Hc). revert H.
  clear. destruct c; vm_compute; done.
Qed.

Lemma plain_unescape_path s : all_bytes path_byte s -> unescape s encodePath = Some s.
Proof. intros H. rewrite <- (plain_escape s H) at 1. by apply unescape_escape. Qed.

Lemma plain_unescape_host s : all_bytes plain_url_byte s -> unescape s encodeHost = Some s.
Proof.
  induction 1 as [|c s Hc Hs IH]; [done|].
  assert (unescape (c :: s) encodeHost = cons c <$> unescape s encodeHost) as ->; [|by rewrite IH].
  revert Hc. clear. destruct c; cbn; done.
Qed.

Lemma LastIndexByte_none s c : c ∉ s -> LastIndexByte s c = None.
Proof.
  induction s as [|x s IH]; intros H; [done|]. simpl. rewrite IH by set_solver.
  case_decide; [set_solver|done].
Qed.

Lemma parseAuthority_plain host : all_bytes plain_url_byte host -> parseAuthority host = Some host.
Proof.
  intros H. unfold parseAuthority. rewrite LastIndexByte_none by exact (clean_no _ _ x40 H eq_refl).
  unfold parseHost. rewrite (LastIndexByte_none _ x3a) by exact (clean_no _ _ x3a H eq_refl).
  assert (HasPrefix host (go "[") = false) as ->.
  { destruct host as [|c host]; [done|]. apply HasPrefix_cons_ne. intros ->. by inversion H. }
  cbn. by apply plain_unescape_host.
Qed.

Lemma setPath_plain p : all_bytes path_byte p -> setPath p = Some (p, []).
Proof.
  intros H. unfold setPath. rewrite plain_unescape_path by done. cbn.
  by rewrite bool_decide_eq_true_2 by (by apply plain_escape).
Qed.

Lemma Forall_weaken (P Q : byte -> bool) s : (forall c, P c = true -> Q c = true) -> all_bytes P s -> all_bytes Q s.
Proof. intros H Hs. eapply Forall_impl; [exact Hs|]. exact H. Qed.

Definition url_byte (c : byte) : bool := path_byte c || query_byte c || ContainsByte (go ":?") c.

Lemma Parse_https host path query :
  all_bytes plain_url_byte host -> all_bytes path_byte path -> all_bytes query_byte query ->
  Parse (go "https://" ++ host ++ go "/" ++ path ++ go "?" ++ query)
  = Some (MkURL (go "https") host (go "/" ++ path) [] query).
Proof.
  intros Hh Hp Hq.
  assert (all_bytes url_byte (go "https://" ++ host ++ go "/" ++ path ++ go "?" ++ query)) as Hall.
  { repeat (apply Forall_app; split);
      [apply (bool_decide_unpack _); by vm_compute| |by repeat constructor| |by repeat constructor| ].
    - eapply Forall_weaken; [|exact Hh]. intros c. destruct c; vm_compute; done.
    - eapply Forall_weaken; [|exact Hp]. intros c. destruct c; vm_compute; done.
    - eapply Forall_weaken; [|exact Hq]. intros c. destruct c; vm_compute; done. }
  unfold Parse. rewrite (Cut_none _ x23) by exact (clean_no _ _ x23 Hall eq_refl).
  assert (existsb is_ctl (go "https://" ++ host ++ go "/" ++ path ++ go "?" ++ query) = false) as ->.
  { apply not_true_iff_false. intros (c & Hc & Hctl)%existsb_exists. rewrite Forall_forall in Hall.
    apply list_elem_of_In in Hc. specialize (Hall c Hc). revert Hall Hctl. clear. destruct c; vm_compute; done. }
  cbn [orb]. rewrite bool_decide_eq_false_2 by done.
  assert (getScheme (go "https://" ++ host ++ go "/" ++ path ++ go "?" ++ query)
          = Some (go "https", go "//" ++ host ++ go "/" ++ path ++ go "?" ++ query)) as -> by done.
  cbn [mbind option_bind].
  replace (go "//" ++ host ++ go "/" ++ path ++ go "?" ++ query)
    with ((go "//" ++ host ++ go "/" ++ path) ++ x3f :: query) by (by rewrite <- !app_assoc).
  assert (all_bytes path_byte (go "//" ++ host ++ go "/" ++ path)) as Hr.
  { repeat (apply Forall_app; split); [by repeat constructor| |by repeat constructor|done].
    eapply Forall_weaken; [|exact Hh]. intros c Hc. unfold path_byte. by rewrite Hc. }
  change (go "?") with [x3f]. rewrite Cut_app by exact (clean_no _ _ x3f Hr eq_refl).
  cbv zeta. rewrite (HasPrefix_app (go "//")). cbn [negb].
  change (drop 2 (go "//" ++ host ++ go "/" ++ path)) with (host ++ x2f :: path).
  rewrite IndexByte_app by exact (clean_no _ _ x2f Hh eq_refl).
  rewrite take_app_length, drop_app_length, parseAuthority_plain by done. cbn [mbind option_bind].
  rewrite setPath_plain; [done|]. by constructor.
Qed.
