(* ===== verification/Http.v ===== *)
(** Requests to a service: [http.Header] of [net/http], JSON documents of
    [encoding/json], and [internal/dns/httpclient.go].

    The service and the network between are the class [Service]: what they
    answer to a request, and what they hold afterwards.  The JSON text format is
    the class [JsonText]; the model works on documents ([json]). *)
From S2P Require Import Prelude GoStrings Schema Dns Url.

(** ** Headers *)

Abbreviation Header := (gmap bytes (list bytes)).

Definition validHeaderFieldByte (c : byte) : bool := is_alnum c || ContainsByte (go "!#$%&'*+-.^_`|~") c.

Definition upper_byte (b : byte) : byte := if (97 <=? b2z b) && (b2z b <=? 122) then z2b (b2z b - 32) else b.

(** [strings.ToUpper]: the tables of Unicode are a parameter, as in [ToLower]. *)
Class UnicodeUpper := { unicode_upper : bytes -> bytes }.
Definition ToUpper `{UnicodeUpper} (s : bytes) : bytes := if is_ascii s then upper_byte <$> s else unicode_upper s.

Fixpoint canonical_case (upper : bool) (s : bytes) : bytes :=
  match s with
  | [] => []
  | c :: r =>
      let c := if upper then upper_byte c else lower_byte c in
      c :: canonical_case (bool_decide (c = x2d)) r
  end.

Definition CanonicalMIMEHeaderKey (s : bytes) : bytes :=
  if forallb validHeaderFieldByte s then canonical_case true s else s.

Definition Header_Set (h : Header) (key value : bytes) : Header := <[CanonicalMIMEHeaderKey key := [value]]> h.
Definition Header_Get (h : Header) (key : bytes) : bytes := Values_Get h (CanonicalMIMEHeaderKey key).

(** ** JSON documents *)

Inductive json : Type :=
  | JNull
  | JBool (b : bool)
  | JInt (z : Z)
  | JReal (text : bytes)
  | JString (s : bytes)
  | JArray (l : list json)
  | JObject (fields : list (bytes * json)).

#[export] Instance json_inhabited : Inhabited json := populate JNull.

Class JsonText := {
  json_text : json -> bytes;
  json_parse : bytes -> option json
}.

(** What [encoding/json] documents: what it wrote, it reads back. *)
Class JsonTextLaws `{JsonText} : Prop := {
  json_parse_text : forall j, json_parse (json_text j) = Some j;
  json_text_not_empty : forall j, json_text j <> []
}.

(** [json.Marshal] of a [map[string]any] writes its keys in order. *)
Definition map_json (m : gmap bytes json) : json := JObject ((fun k => (k, m !!! k)) <$> sorted_keys m).

(** Decoding into a Go value: [None] is the error of a value of the wrong kind;
    [null] and a missing field leave the zero value.  A field is matched by its
    name, whatever the case; the last one counts. *)
Definition same_field (name key : bytes) : bool := bool_decide ((lower_byte <$> key) = (lower_byte <$> name)).

Definition lookup_field (name : bytes) (fields : list (bytes * json)) : option json :=
  snd <$> last (filter (fun f => same_field name f.1 = true) fields).

Definition as_string (j : json) : option bytes :=
  match j with JString s => Some s | JNull => Some [] | _ => None end.
Definition as_int (j : json) : option Z :=
  match j with JInt z => if bool_decide (in_i64 z) then Some z else None | JNull => Some 0 | _ => None end.
Definition as_uint (j : json) : option Z :=
  match j with JInt z => if (0 <=? z) && (z <? 2 ^ 64) then Some z else None | JNull => Some 0 | _ => None end.
Definition as_bool (j : json) : option bool :=
  match j with JBool b => Some b | JNull => Some false | _ => None end.
Definition as_list {A} (elem : json -> option A) (j : json) : option (list A) :=
  match j with JArray l => mapM elem l | JNull => Some [] | _ => None end.

Definition as_struct {A} (decode : list (bytes * json) -> option A) (j : json) : option A :=
  match j with JObject fields => decode fields | JNull => decode [] | _ => None end.

Definition field {A} (name : string) (as_ : json -> option A) (fields : list (bytes * json)) : option A :=
  as_ (default JNull (lookup_field (go name) fields)).

(** ** Requests and the service *)

(** A request as it goes out. *)
Record wire := MkWire { w_Method : bytes; w_URL : bytes; w_Header : Header; w_Body : bytes }.

(** An answer: its status and its body; [a_Read] is false when the body could
    not be read to its end. *)
Record answer := MkAnswer { StatusCode : Z; a_Body : bytes; a_Read : res bytes unit }.

Class Service (S : Type) := {
  exchange : wire -> S -> res bytes answer * S;
  (** [time.Now] and [crypto/rand], as they are when a request is made. *)
  s_now : S -> Z;
  s_random : S -> res bytes bytes
}.

(** [dns.Request]: no method is GET. *)
Record Request := MkRequest { r_Method : bytes; r_URL : bytes; r_Headers : gmap bytes bytes; r_Body : bytes }.

Definition maxErrorBody : Z := 2048.
Definition maxBody : Z := 4194304.

(** [io.LimitReader]: the first [n] bytes. *)
Definition limited (n : Z) (b : bytes) : bytes := if Z.of_nat (length b) <=? n then b else take (Z.to_nat n) b.

Definition snippet (payload : bytes) : bytes :=
  let text := TrimSpace payload in
  if Z.of_nat (length text) <=? maxErrorBody then text else limited maxErrorBody text ++ go "…".

(** [range] over the headers of a request: no two keys the program uses have
    one canonical form, so the order is of no account ([set_headers_perm]). *)
Definition set_headers (kvs : list (bytes * bytes)) (h : Header) : Header :=
  foldl (fun h kv => Header_Set h kv.1 kv.2) h kvs.

Definition UserAgent : bytes := go "openfrp/dns".

(** The headers a request goes out with. *)
Definition sent_headers (req : Request) : Header :=
  set_headers (map_to_list (r_Headers req))
    (Header_Set (Header_Set ∅ (go "User-Agent") UserAgent) (go "Accept") (go "application/json")).

Definition sent_method (req : Request) : bytes := match r_Method req with [] => go "GET" | m => m end.

Definition sent (req : Request) : wire := MkWire (sent_method req) (r_URL req) (sent_headers req) (r_Body req).

Section client.
Context `{JT : JsonText}.

(** [Request.JSONBody]: a document of the kinds above is always encoded. *)
Definition JSONBody (j : json) (req : Request) : Request :=
  MkRequest (r_Method req) (r_URL req) (<[go "Content-Type" := go "application/json"]> (r_Headers req)) (json_text j).

Context {S : Type} `{Sv : Service S}.

Definition http_error (req : Request) (text : bytes) : dnserr :=
  ErrProvider (go "dns: " ++ sent_method req ++ go " " ++ hostOf (r_URL req) ++ go ": " ++ text).

(** [HTTPClient.Do] up to the decoding: the body of a successful answer. *)
Definition Do_body (req : Request) (s : S) : res dnserr bytes * S :=
  if negb (forallb validHeaderFieldByte (sent_method req)) || bool_decide (Parse (r_URL req) = None)
  then (Err (ErrProvider (go "dns: build request: invalid")), s)
  else
    match exchange (sent req) s with
    | (Err text, s) => (Err (http_error req text), s)
    | (Ok resp, s) =>
        let payload := limited maxBody (a_Body resp) in
        match a_Read resp with
        | Err text => (Err (ErrProvider (go "dns: read response: " ++ text)), s)
        | Ok _ =>
            if (StatusCode resp <? 200) || (300 <=? StatusCode resp)
            then (Err (http_error req (go "HTTP " ++ Itoa (StatusCode resp) ++ go ": " ++ snippet payload)), s)
            else (Ok payload, s)
        end
    end.

Definition decode_error (req : Request) (payload : bytes) : dnserr :=
  ErrProvider (go "dns: decode response from " ++ hostOf (r_URL req) ++ go ": " ++ snippet payload).

(** [HTTPClient.Do] into a value that decodes as [decode] says; [zero] is the
    value before, which an answer without a body leaves as it is. *)
Definition Do {A} (req : Request) (decode : json -> option A) (zero : A) (s : S) : res dnserr A * S :=
  match Do_body req s with
  | (Err e, s) => (Err e, s)
  | (Ok [], s) => (Ok zero, s)
  | (Ok payload, s) =>
      match json_parse payload ≫= decode with
      | Some a => (Ok a, s)
      | None => (Err (decode_error req payload), s)
      end
  end.

(** [HTTPClient.Do] with no value to fill. *)
Definition Do_nil (req : Request) (s : S) : res dnserr unit * S :=
  match Do_body req s with
  | (Err e, s) => (Err e, s)
  | (Ok _, s) => (Ok tt, s)
  end.
End client.

(** ** Headers: names that differ only in case are one header *)

Lemma canonical_case_lower s : forall upper, canonical_case upper (lower_byte <$> s) = canonical_case upper s.
Proof.
  induction s as [|c s IH]; intros upper; [done|]. cbn [fmap list_fmap canonical_case].
  assert ((if upper then upper_byte (lower_byte c) else lower_byte (lower_byte c))
          = if upper then upper_byte c else lower_byte c) as -> by (destruct upper; destruct c; reflexivity).
  by rewrite IH.
Qed.

Lemma lower_byte_valid c : validHeaderFieldByte (lower_byte c) = validHeaderFieldByte c.
Proof. by destruct c; vm_compute. Qed.

Lemma canonical_lower s : forallb validHeaderFieldByte s = true ->
  CanonicalMIMEHeaderKey (lower_byte <$> s) = CanonicalMIMEHeaderKey s.
Proof.
  intros H. unfold CanonicalMIMEHeaderKey.
  assert (forallb validHeaderFieldByte (lower_byte <$> s) = true) as ->.
  { rewrite !forallb_forall in *. intros x Hx%list_elem_of_In. apply list_elem_of_fmap in Hx as (c & -> & Hc).
    rewrite lower_byte_valid. by apply H, list_elem_of_In. }
  by rewrite H, canonical_case_lower.
Qed.

Lemma canonical_case_idem s : forall upper, canonical_case upper (canonical_case upper s) = canonical_case upper s.
Proof.
  induction s as [|c s IH]; intros upper; [done|]. cbn [canonical_case].
  assert ((if upper then upper_byte (if upper then upper_byte c else lower_byte c)
           else lower_byte (if upper then upper_byte c else lower_byte c))
          = if upper then upper_byte c else lower_byte c) as -> by (destruct upper; destruct c; reflexivity).
  by rewrite IH.
Qed.

Lemma canonical_case_valid s : forall upper, forallb validHeaderFieldByte (canonical_case upper s) = forallb validHeaderFieldByte s.
Proof.
  induction s as [|c s IH]; intros upper; [done|]. cbn [canonical_case forallb]. rewrite IH. f_equal.
  destruct upper; destruct c; reflexivity.
Qed.

Lemma CanonicalMIMEHeaderKey_idem s : CanonicalMIMEHeaderKey (CanonicalMIMEHeaderKey s) = CanonicalMIMEHeaderKey s.
Proof.
  unfold CanonicalMIMEHeaderKey at 2 3. case_match eqn:E.
  - unfold CanonicalMIMEHeaderKey. by rewrite canonical_case_valid, E, canonical_case_idem.
  - unfold CanonicalMIMEHeaderKey. by rewrite E.
Qed.

Lemma Get_Set h k v k' :
  Header_Get (Header_Set h k v) k'
  = if bool_decide (CanonicalMIMEHeaderKey k = CanonicalMIMEHeaderKey k') then v else Header_Get h k'.
Proof.
  unfold Header_Get, Header_Set, Values_Get. rewrite lookup_insert. by repeat case_decide; case_bool_decide.
Qed.

Lemma set_headers_lookup (kvs : list (bytes * bytes)) h k :
  NoDup (CanonicalMIMEHeaderKey <$> kvs.*1) ->
  set_headers kvs h !! k
  = match find (fun kv => bool_decide (CanonicalMIMEHeaderKey kv.1 = k)) kvs with
    | Some kv => Some [kv.2]
    | None => h !! k
    end.
Proof.
  revert h. induction kvs as [|kv kvs IH]; intros h Hnd; [done|].
  cbn [fmap list_fmap] in Hnd. apply NoDup_cons in Hnd as [Hn Hnd].
  change (set_headers (kv :: kvs) h) with (set_headers kvs (Header_Set h kv.1 kv.2)). rewrite IH by done.
  cbn [find]. unfold Header_Set. case_bool_decide as Hk.
  - destruct (find _ kvs) as [kv'|] eqn:E.
    + apply find_some in E as [Hin He]. apply bool_decide_eq_true_1 in He. exfalso. apply Hn.
      apply list_elem_of_fmap. exists kv'.1. split; [congruence|]. apply list_elem_of_fmap. exists kv'. split; [done|].
      by apply list_elem_of_In.
    + by rewrite Hk, lookup_insert_eq.
  - by rewrite lookup_insert_ne.
Qed.

(** Without two keys of one canonical form the order of the range is of no account. *)
Lemma set_headers_perm (kvs kvs' : list (bytes * bytes)) h :
  kvs ≡ₚ kvs' -> NoDup (CanonicalMIMEHeaderKey <$> kvs.*1) -> set_headers kvs h = set_headers kvs' h.
Proof.
  intros Hp Hnd. assert (NoDup (CanonicalMIMEHeaderKey <$> kvs'.*1)) as Hnd' by (by rewrite <- Hp).
  apply map_eq. intros k. rewrite !set_headers_lookup by done.
  destruct (find _ kvs) as [kv|] eqn:E.
  - apply find_some in E as [Hin He].
    assert (In kv kvs') as Hin' by (apply list_elem_of_In; rewrite <- Hp; by apply list_elem_of_In).
    destruct (find _ kvs') as [kv'|] eqn:E'; [|by rewrite (find_none _ _ E' _ Hin') in He].
    apply find_some in E' as [Hin2 He2]. apply bool_decide_eq_true_1 in He, He2. do 2 f_equal.
    apply list_elem_of_In, list_elem_of_lookup in Hin' as [i Hi], Hin2 as [j Hj].
    assert (i = j) as ->; [|congruence].
    apply (NoDup_lookup _ _ _ (CanonicalMIMEHeaderKey kv.1) Hnd').
    + by rewrite !list_lookup_fmap, Hi.
    + rewrite !list_lookup_fmap, Hj. cbn. congruence.
  - destruct (find _ kvs') as [kv'|] eqn:E'; [|done].
    apply find_some in E' as [Hin' He']. exfalso.
    assert (In kv' kvs) as Hin by (apply list_elem_of_In; rewrite Hp; by apply list_elem_of_In).
    by rewrite (find_none _ _ E _ Hin) in He'.
Qed.

(** ** Provider operations

    An operation of a provider works on the provider and on the service:
    [prov P A] is a function of both that gives a result or an error. *)

Definition prov (P A : Type) : Type := P -> res dnserr A * P.

#[export] Instance prov_ret {P} : MRet (prov P) := fun A a p => (Ok a, p).
#[export] Instance prov_bind {P} : MBind (prov P) := fun A B f m p =>
  match m p with (Ok a, p) => f a p | (Err e, p) => (Err e, p) end.

Definition pfail {P A} (e : dnserr) : prov P A := fun p => (Err e, p).
Definition of_res {P A} (r : res dnserr A) : prov P A := fun p => (r, p).

(** [fmt.Errorf] around an error. *)
Definition wrap_error {P A} (f : dnserr -> dnserr) (m : prov P A) : prov P A := fun p =>
  let '(r, p) := m p in (map_err f r, p).

(** [for range] with an operation for every element. *)
Fixpoint each {P A B} (f : A -> prov P B) (xs : list A) : prov P (list B) :=
  match xs with
  | [] => mret []
  | x :: xs => y ← f x; ys ← each f xs; mret (y :: ys)
  end.

(** A request on the service of a provider. *)
Section on_service.
Context `{JT : JsonText} {S : Type} `{Sv : Service S} {X : Type}.

Definition do_json {A} (req : Request) (decode : json -> option A) (zero : A) : prov (X * S) A :=
  fun '(x, s) => let '(r, s) := Do req decode zero s in (r, (x, s)).

Definition do_nil (req : Request) : prov (X * S) unit :=
  fun '(x, s) => let '(r, s) := Do_nil req s in (r, (x, s)).
End on_service.

(** A text format for examples: objects of texts, and a table of what is read. *)
Definition table_text (table : list (bytes * json)) : JsonText := {|
  json_text j := match j with
                 | JObject fields => go "{" ++ concat ((fun f => f.1 ++ go "=" ++ (match f.2 with JString s => s | _ => go "?" end) ++ go ";") <$> fields) ++ go "}"
                 | _ => go "doc" end;
  json_parse b := snd <$> find (fun e => bool_decide (e.1 = b)) table
|}.

(** ** A text format that satisfies the laws

    Documents are countable; the format writes the number of a document in
    binary. *)

Abbreviation leaf := (unit + bool + Z + bytes + bytes)%type.

Fixpoint json_tree (j : json) : gen_tree leaf :=
  match j with
  | JNull => GenLeaf (inl (inl (inl (inl tt))))
  | JBool b => GenLeaf (inl (inl (inl (inr b))))
  | JInt z => GenLeaf (inl (inl (inr z)))
  | JReal t => GenLeaf (inl (inr t))
  | JString s => GenLeaf (inr s)
  | JArray l => GenNode 0 (json_tree <$> l)
  | JObject fields => GenNode 1 ((fun f => GenNode 2 [GenLeaf (inr f.1); json_tree f.2]) <$> fields)
  end.

Fixpoint tree_json (t : gen_tree leaf) : json :=
  match t with
  | GenLeaf (inl (inl (inl (inl _)))) => JNull
  | GenLeaf (inl (inl (inl (inr b)))) => JBool b
  | GenLeaf (inl (inl (inr z))) => JInt z
  | GenLeaf (inl (inr t)) => JReal t
  | GenLeaf (inr s) => JString s
  | GenNode 0 ts => JArray (tree_json <$> ts)
  | GenNode _ ts =>
      JObject ((fun t => match t with
                         | GenNode _ [GenLeaf (inr k); v] => (k, tree_json v)
                         | _ => ([], JNull)
                         end) <$> ts)
  end.

Fixpoint json_tree_id (j : json) : tree_json (json_tree j) = j.
Proof.
  destruct j as [|b|z|t|s|l|fields]; [reflexivity..| |].
  - cbn. f_equal. induction l as [|j l IH]; [reflexivity|]. cbn. f_equal; [apply json_tree_id|exact IH].
  - cbn. f_equal. induction fields as [|[k j] l IH]; [reflexivity|]. cbn. f_equal; [f_equal; apply json_tree_id|exact IH].
Qed.

#[export] Instance json_eq_dec : EqDecision json.
Proof.
  intros j j'. destruct (decide (json_tree j = json_tree j')) as [E|E].
  - left. by rewrite <- (json_tree_id j), E, json_tree_id.
  - right. congruence.
Defined.

#[export] Instance json_countable : Countable json.
Proof. exact (inj_countable' json_tree tree_json json_tree_id). Defined.

Fixpoint bits (p : positive) : bytes :=
  match p with xH => [] | xO p => x30 :: bits p | xI p => x31 :: bits p end.
Fixpoint of_bits (s : bytes) : option positive :=
  match s with
  | [] => Some xH
  | x30 :: s => xO <$> of_bits s
  | x31 :: s => xI <$> of_bits s
  | _ => None
  end.

Lemma of_bits_bits p : of_bits (bits p) = Some p.
Proof. induction p as [p IH|p IH|]; simpl; [by rewrite IH..|done]. Qed.

Definition binary_text : JsonText := {|
  json_text j := x31 :: bits (encode j);
  json_parse b := match b with x31 :: b => of_bits b ≫= decode | _ => None end
|}.

Lemma binary_text_laws : @JsonTextLaws binary_text.
Proof.
  split; [|done]. intros j. change (of_bits (bits (encode j)) ≫= decode = Some j).
  rewrite of_bits_bits. apply decode_encode.
Qed.
