(* ===== verification/Clock.v ===== *)
(** Calendar dates: what the code uses of [time.Time.Format] and [Time.Unix],
    in UTC.  An instant is in nanoseconds since January 1 of year 1, as in
    [Protocol]. *)
From S2P Require Import Prelude GoStrings Protocol.

Definition IsZero (t : Z) : bool := t =? 0.
Definition UnixSeconds (t : Z) : Z := t / Second - unixToInternal.
Definition UnixMilli (t : Z) : Z := t / Millisecond - unixToInternal * 1000.

(** ** The civil calendar *)

Record date := MkDate { year : Z; month : Z; day : Z }.

Definition is_leap (y : Z) : bool := (y mod 4 =? 0) && (negb (y mod 100 =? 0) || (y mod 400 =? 0)).

Definition days_in (y m : Z) : Z :=
  if m =? 2 then if is_leap y then 29 else 28
  else if (m =? 4) || (m =? 6) || (m =? 9) || (m =? 11) then 30 else 31.

Definition valid_date (d : date) : bool := (1 <=? month d) && (month d <=? 12) && (1 <=? day d) && (day d <=? days_in (year d) (month d)).

(** Days since January 1 of year 1, counted over eras of 400 years that start
    in March. *)
Definition days_of (d : date) : Z :=
  let y := if month d <=? 2 then year d - 1 else year d in
  let era := y / 400 in
  let yoe := y mod 400 in
  let doy := (153 * (if 2 <? month d then month d - 3 else month d + 9) + 2) / 5 + day d - 1 in
  era * 146097 + yoe * 365 + yoe / 4 - yoe / 100 + doy - 306.

Definition date_of_era_day (era doe : Z) : date :=
  let yoe := (doe - doe / 1460 + doe / 36524 - doe / 146096) / 365 in
  let doy := doe - (365 * yoe + yoe / 4 - yoe / 100) in
  let mp := (5 * doy + 2) / 153 in
  let m := if mp <? 10 then mp + 3 else mp - 9 in
  MkDate (yoe + era * 400 + (if m <=? 2 then 1 else 0)) m (doy - (153 * mp + 2) / 5 + 1).

Definition date_of (days : Z) : date :=
  let z := days + 306 in date_of_era_day (z / 146097) (z mod 146097).

(** The year of the era and the day of that year, which starts in March. *)
Lemma era_year doe (yoe := (doe - doe / 1460 + doe / 36524 - doe / 146096) / 365)
  (doy := doe - (365 * yoe + yoe / 4 - yoe / 100)) :
  0 <= doe < 146097 ->
  0 <= yoe < 400 /\ 0 <= doy <= 365 /\ (doy = 365 -> is_leap (yoe + 1) = true).
Proof.
  intros H.
  assert (0 <= yoe < 400) as Hy by (subst yoe; Z.div_mod_to_equations; lia).
  assert (0 <= doy <= 365) as Hd by (subst doy yoe; Z.div_mod_to_equations; lia).
  split; [done|]. split; [done|]. intros He.
  assert (((yoe + 1) mod 4 = 0 /\ (yoe + 1) mod 100 <> 0) \/ (yoe + 1) mod 400 = 0) as Hl.
  { subst doy. clear Hd. subst yoe. Z.div_mod_to_equations. lia. }
  unfold is_leap. destruct Hl as [[H4 H100]|H400].
  - apply Z.eqb_eq in H4. apply Z.eqb_neq in H100. by rewrite H4, H100.
  - assert ((yoe + 1) mod 4 = 0) as H4 by (Z.div_mod_to_equations; lia).
    apply Z.eqb_eq in H4, H400. by rewrite H4, H400, orb_true_r.
Qed.

Lemma is_leap_shift y era : is_leap (y + era * 400) = is_leap y.
Proof.
  unfold is_leap.
  replace ((y + era * 400) mod 4) with (y mod 4) by (Z.div_mod_to_equations; lia).
  replace ((y + era * 400) mod 100) with (y mod 100) by (Z.div_mod_to_equations; lia).
  by rewrite Z_mod_plus_full.
Qed.

(** The month and the day of a day of the year. *)
Lemma year_day doy (mp := (5 * doy + 2) / 153) (d := doy - (153 * mp + 2) / 5 + 1) y :
  0 <= doy <= 365 -> (doy = 365 -> is_leap y = true) ->
  0 <= mp < 12 /\ 1 <= d <= days_in y (if mp <? 10 then mp + 3 else mp - 9).
Proof.
  intros H Hl.
  assert (0 <= mp < 12) as Hm by (subst mp; Z.div_mod_to_equations; lia). split; [done|].
  assert (d <= 29 \/ mp <> 11) as H1 by (subst d mp; Z.div_mod_to_equations; lia).
  assert (mp = 11 -> d = 29 -> is_leap y = true) as H2.
  { intros E1 E2. apply Hl. subst d mp. Z.div_mod_to_equations. lia. }
  assert (mp = 0 \/ mp = 1 \/ mp = 2 \/ mp = 3 \/ mp = 4 \/ mp = 5 \/ mp = 6 \/ mp = 7 \/ mp = 8 \/ mp = 9
    \/ mp = 10 \/ mp = 11) as Hc by lia.
  assert (1 <= d) by (subst d mp; Z.div_mod_to_equations; lia).
  split; [done|].
  assert (153 * mp <= 5 * doy + 2 < 153 * mp + 153) as Hb by (subst mp; Z.div_mod_to_equations; lia).
  clearbody mp. destruct Hc as [E|[E|[E|[E|[E|[E|[E|[E|[E|[E|[E|E]]]]]]]]]]];
    subst mp; clear Hm; subst d; unfold days_in; destruct (is_leap y);
    match goal with |- _ <= ?r => let v := eval vm_compute in r in change r with v end;
    Z.div_mod_to_equations; lia.
Qed.

Lemma date_of_valid n : valid_date (date_of n) = true /\ days_of (date_of n) = n.
Proof.
  unfold date_of. set (era := (n + 306) / 146097). set (doe := (n + 306) mod 146097).
  assert (0 <= doe < 146097) as Hd by (apply Z.mod_pos_bound; lia).
  assert (n = era * 146097 + doe - 306) as Hn by (subst era doe; Z.div_mod_to_equations; lia).
  clearbody era doe. subst n.
  unfold date_of_era_day. destruct (era_year doe Hd) as (Hy & Hdy & Hl).
  set (yoe := (doe - doe / 1460 + doe / 36524 - doe / 146096) / 365) in *.
  set (doy := doe - (365 * yoe + yoe / 4 - yoe / 100)) in *.
  destruct (year_day doy (yoe + 1) Hdy Hl) as [Hm Hday].
  set (mp := (5 * doy + 2) / 153) in *.
  assert (doe = doy + (365 * yoe + yoe / 4 - yoe / 100)) as Hdoe by lia.
  clearbody yoe doy. clear Hd. subst doe.
  split.
  - unfold valid_date. cbn [year month day].
    assert (days_in (yoe + era * 400 + (if (if mp <? 10 then mp + 3 else mp - 9) <=? 2 then 1 else 0)) (if mp <? 10 then mp + 3 else mp - 9)
      = days_in (yoe + 1) (if mp <? 10 then mp + 3 else mp - 9)) as ->.
    { unfold days_in. destruct (Z.ltb_spec mp 10).
      - by rewrite (proj2 (Z.eqb_neq (mp + 3) 2)) by lia.
      - rewrite (proj2 (Z.leb_le (mp - 9) 2)) by lia.
        replace (yoe + era * 400 + 1) with (yoe + 1 + era * 400) by lia. by rewrite is_leap_shift. }
    rewrite !andb_true_iff, !Z.leb_le. destruct (Z.ltb_spec mp 10); lia.
  - unfold days_of. cbn [year month day].
    assert (forall a b, a = era * 400 + yoe -> 153 * mp + 2 = b ->
      a / 400 * 146097 + a mod 400 * 365 + a mod 400 / 4 - a mod 400 / 100 + (b / 5 + (doy - (153 * mp + 2) / 5 + 1) - 1) - 306
      = era * 146097 + (doy + (365 * yoe + yoe / 4 - yoe / 100)) - 306) as Hgen.
    { intros a b -> <-. replace (era * 400 + yoe) with (yoe + era * 400) by lia.
      rewrite Z_div_plus_full, Z_mod_plus_full by lia. rewrite (Z.div_small yoe), (Z.mod_small yoe) by lia. lia. }
    destruct (Z.ltb_spec mp 10).
    + rewrite (proj2 (Z.leb_gt (mp + 3) 2)), (proj2 (Z.ltb_lt 2 (mp + 3))) by lia. apply Hgen; lia.
    + rewrite (proj2 (Z.leb_le (mp - 9) 2)), (proj2 (Z.ltb_ge 2 (mp - 9))) by lia. apply Hgen; lia.
Qed.

(** ** Formatting *)

(** The parts of a layout the code uses; other bytes stand for themselves. *)
Inductive std : Type := StdYear | StdMonth | StdDay | StdHour | StdMinute | StdSecond.

Definition chunks : list (bytes * std) :=
  [(go "2006", StdYear); (go "01", StdMonth); (go "02", StdDay);
   (go "15", StdHour); (go "04", StdMinute); (go "05", StdSecond)].

(** A number with leading zeros up to [width]. *)
Definition pad (width : nat) (n : Z) : bytes :=
  let text := Itoa (Z.abs n) in
  (if n <? 0 then go "-" else []) ++ replicate (width - length text) x30 ++ text.

Definition std_text (t : Z) (c : std) : bytes :=
  let seconds := t / Second in
  let d := date_of (seconds / 86400) in
  let tod := seconds mod 86400 in
  match c with
  | StdYear => pad 4 (year d)
  | StdMonth => pad 2 (month d)
  | StdDay => pad 2 (day d)
  | StdHour => pad 2 (tod / 3600)
  | StdMinute => pad 2 (tod / 60 mod 60)
  | StdSecond => pad 2 (tod mod 60)
  end.

Fixpoint format_from (t : Z) (skip : nat) (layout : bytes) : bytes :=
  match layout with
  | [] => []
  | c :: r =>
      match skip with
      | S k => format_from t k r
      | O =>
          match find (fun e => HasPrefix layout e.1) chunks with
          | Some (text, part) => std_text t part ++ format_from t (length text - 1) r
          | None => c :: format_from t 0 r
          end
      end
  end.

Definition Format (t : Z) (layout : bytes) : bytes := format_from t 0 layout.

Example Format_example :
  Format ((1551113065 + unixToInternal) * Second) (go "20060102T150405Z") = go "20190225T164425Z".
Proof. by vm_compute. Qed.

Example Format_example_rfc3339 :
  Format ((1551113065 + unixToInternal) * Second) (go "2006-01-02T15:04:05Z") = go "2019-02-25T16:44:25Z".
Proof. by vm_compute. Qed.
