(* ===== verification/CloudApi.v ===== *)
(** Signing of requests to cloud services: [pkg/cloudapi] (sigv4.go,
    aliyun.go).

    The hashes are the classes [Hmac] and [Hashes]; everything else is
    computed. *)
From S2P Require Import Prelude GoStrings Protocol Url Http Clock.

Class Hashes := {
  sha256_sum : bytes -> bytes;
  hmac_sha1 : bytes -> bytes -> bytes;
  md5_sum : bytes -> bytes
}.

(** ** [base64.StdEncoding] *)

Definition base64_digit (n : Z) : byte :=
  if n <? 26 then z2b (65 + n) else if n <? 52 then z2b (71 + n) else if n <? 62 then z2b (n - 4)
  else if n =? 62 then x2b else x2f.

Fixpoint base64_encode (s : bytes) : bytes :=
  match s with
  | a :: b :: c :: r =>
      let n := b2z a * 65536 + b2z b * 256 + b2z c in
      base64_digit (n / 262144) :: base64_digit (n / 4096 mod 64) :: base64_digit (n / 64 mod 64)
        :: base64_digit (n mod 64) :: base64_encode r
  | [a; b] =>
      let n := b2z a * 65536 + b2z b * 256 in
      [base64_digit (n / 262144); base64_digit (n / 4096 mod 64); base64_digit (n / 64 mod 64); x3d]
  | [a] =>
      let n := b2z a * 65536 in [base64_digit (n / 262144); base64_digit (n / 4096 mod 64); x3d; x3d]
  | [] => []
  end.

(** ** Encoding (sigv4.go) *)

Definition PercentEncode (value : bytes) : bytes :=
  let escaped := QueryEscape value in
  let escaped := ReplaceAll escaped (go "+") (go "%20") in
  let escaped := ReplaceAll escaped (go "*") (go "%2A") in
  ReplaceAll escaped (go "%7E") (go "~").

Definition CanonicalQuery (values : Values) : bytes := encode_with PercentEncode SortStrings values.

(** ** Signatures of the SigV4 family (sigv4.go) *)

Record SigV4Profile := MkProfile {
  Algorithm : bytes; KeyPrefix : bytes; Terminator : bytes; DateHeader : bytes; DateFormat : bytes;
  TimestampHeader : bytes; ScopeDate : bool; ScopeRegionService : bool; SignedHeaderPrefix : bytes
}.

Record SigV4Request := MkSigV4 {
  Method : bytes; sv_URL : option URL; Headers : Header; Payload : bytes;
  AccessKey : bytes; SecretKey : bytes; Region : bytes; sv_Service : bytes; Now : Z
}.

Definition with_headers (h : Header) (r : SigV4Request) : SigV4Request :=
  MkSigV4 (Method r) (sv_URL r) h (Payload r) (AccessKey r) (SecretKey r) (Region r) (sv_Service r) (Now r).

Section sign.
Context `{U : Unicode} `{UU : UnicodeUpper} `{HM : Hmac} `{HS : Hashes}.

Definition sha256Hex (data : bytes) : bytes := hex_encode (sha256_sum data).

(** Whether a header, its name in lower case, is signed. *)
Definition is_signed (profile : SigV4Profile) (lower : bytes) : bool :=
  if bool_decide (lower = go "authorization") then false
  else if negb (bool_decide (SignedHeaderPrefix profile = [])) && negb (bool_decide (lower = go "host"))
          && negb (bool_decide (lower = go "content-type")) && negb (HasPrefix lower (SignedHeaderPrefix profile))
  then false
  else true.

Definition signed_names (profile : SigV4Profile) (h : Header) : list bytes :=
  SortStrings (filter (fun lower => is_signed profile lower = true) (ToLower <$> elements (dom h))).

Definition header_line (h : Header) (name : bytes) : bytes :=
  name ++ go ":" ++ TrimSpace (Header_Get h name) ++ [x0a].

Definition canonicalRequest (profile : SigV4Profile) (u : URL) (req : SigV4Request) : bytes * bytes :=
  let path := match EscapedPath u with [] => go "/" | p => p end in
  let names := signed_names profile (Headers req) in
  let canonicalHeaders := concat (header_line (Headers req) <$> names) in
  let signedHeaders := Join names (go ";") in
  (Join [ToUpper (Method req); path; CanonicalQuery (Query u); canonicalHeaders; signedHeaders;
         sha256Hex (Payload req)] [x0a],
   signedHeaders).

Definition credentialScope (profile : SigV4Profile) (now : Z) (req : SigV4Request) : bytes :=
  let some_text s := match s with [] => [] | _ => [s] end in
  Join ((if ScopeDate profile then [Format now (go "20060102")] else [])
        ++ (if ScopeRegionService profile then some_text (Region req) ++ some_text (sv_Service req)
            else some_text (sv_Service req))
        ++ some_text (Terminator profile)) (go "/").

Definition timestampForSigning (profile : SigV4Profile) (now : Z) : bytes :=
  if negb (bool_decide (TimestampHeader profile = [])) then Itoa (UnixSeconds now)
  else if negb (bool_decide (DateFormat profile = [])) then Format now (DateFormat profile)
  else Format now (go "20060102T150405Z").

Definition deriveKey (profile : SigV4Profile) (now : Z) (req : SigV4Request) : bytes :=
  match KeyPrefix profile with
  | [] => SecretKey req
  | _ =>
      let key := KeyPrefix profile ++ SecretKey req in
      let key := if ScopeDate profile then hmac_sha256 key (Format now (go "20060102")) else key in
      let key := if ScopeRegionService profile && negb (bool_decide (Region req = []))
                 then hmac_sha256 key (Region req) else key in
      let key := if bool_decide (sv_Service req = []) then key else hmac_sha256 key (sv_Service req) in
      if bool_decide (Terminator profile = []) then key else hmac_sha256 key (Terminator profile)
  end.

(** The headers of the date, as [SignSigV4] sets them. *)
Definition date_headers (profile : SigV4Profile) (now : Z) (h : Header) : Header :=
  let h := if negb (bool_decide (DateHeader profile = [])) && negb (bool_decide (DateFormat profile = []))
           then Header_Set h (DateHeader profile) (Format now (DateFormat profile)) else h in
  if negb (bool_decide (TimestampHeader profile = []))
  then Header_Set h (TimestampHeader profile) (Itoa (UnixSeconds now)) else h.

Definition stringToSign (profile : SigV4Profile) (now : Z) (u : URL) (req : SigV4Request) : bytes :=
  Join [Algorithm profile; timestampForSigning profile now; credentialScope profile now req;
        sha256Hex (canonicalRequest profile u req).1] [x0a].

Definition signature (profile : SigV4Profile) (now : Z) (u : URL) (req : SigV4Request) : bytes :=
  hex_encode (hmac_sha256 (deriveKey profile now req) (stringToSign profile now u req)).

Definition authorization (profile : SigV4Profile) (now : Z) (u : URL) (req : SigV4Request) : bytes :=
  let scope := credentialScope profile now req in
  let credential := AccessKey req ++ (match scope with [] => [] | _ => go "/" ++ scope end) in
  Algorithm profile ++ go " Credential=" ++ credential ++ go ", SignedHeaders="
  ++ (canonicalRequest profile u req).2 ++ go ", Signature=" ++ signature profile now u req.

(** [SignSigV4] at the time [clock]: [None] is the error of a request without a URL. *)
Definition SignSigV4 (profile : SigV4Profile) (clock : Z) (req : SigV4Request) : option SigV4Request :=
  let now := if IsZero (Now req) then clock else Now req in
  match sv_URL req with
  | None => None
  | Some u =>
      let h := Header_Set (Headers req) (go "Host") (Host u) in
      let req := with_headers (date_headers profile now h) req in
      Some (with_headers (Header_Set (Headers req) (go "Authorization") (authorization profile now u req)) req)
  end.
End sign.

Definition TencentProfile : SigV4Profile :=
  MkProfile (go "TC3-HMAC-SHA256") (go "TC3") (go "tc3_request") [] [] (go "X-TC-Timestamp") true false [].
Definition HuaweiProfile : SigV4Profile :=
  MkProfile (go "SDK-HMAC-SHA256") [] [] (go "X-Sdk-Date") (go "20060102T150405Z") [] false false [].
Definition VolcengineProfile : SigV4Profile :=
  MkProfile (go "HMAC-SHA256") [] (go "request") (go "X-Date") (go "20060102T150405Z") [] true true [].
Definition JDCloudProfile : SigV4Profile :=
  MkProfile (go "JDCLOUD2-HMAC-SHA256") (go "JDCLOUD2") (go "jdcloud2_request") (go "X-Jdcloud-Date")
    (go "20060102T150405Z") [] true true [].

(** ** Aliyun's RPC signature (aliyun.go) *)

Record AliyunRPCRequest := MkAliyun {
  Endpoint : bytes; Action : bytes; Version : bytes; Params : gmap bytes bytes;
  AccessKeyID : bytes; AccessKeySecret : bytes; al_Now : Z; Nonce : bytes
}.

Inductive signerr : Type := ErrIncomplete | ErrNonce (text : bytes).

Section aliyun.
Context `{U : Unicode} `{UU : UnicodeUpper} `{HM : Hmac} `{HS : Hashes}.

(** The parameters of a request that are not empty, one value each. *)
Definition param_values (params : gmap bytes bytes) : Values := (fun v => [v]) <$> filter (fun kv => kv.2 <> []) params.

Definition aliyun_values (r : AliyunRPCRequest) (now : Z) (nonce : bytes) : Values :=
  let values := param_values (Params r) in
  let values := Values_Set values (go "Action") (Action r) in
  let values := Values_Set values (go "Version") (Version r) in
  let values := Values_Set values (go "Format") (go "JSON") in
  let values := Values_Set values (go "AccessKeyId") (AccessKeyID r) in
  let values := Values_Set values (go "SignatureMethod") (go "HMAC-SHA1") in
  let values := Values_Set values (go "SignatureVersion") (go "1.0") in
  let values := Values_Set values (go "SignatureNonce") nonce in
  Values_Set values (go "Timestamp") (Format now (go "2006-01-02T15:04:05Z")).

Definition aliyun_signature (secret canonical : bytes) : bytes :=
  base64_encode (hmac_sha1 (secret ++ go "&") (go "GET&" ++ PercentEncode (go "/") ++ go "&" ++ PercentEncode canonical)).

(** [SignedURL] at the time [clock], where [random] is what [crypto/rand] gives. *)
Definition SignedURL (r : AliyunRPCRequest) (clock : Z) (random : res bytes bytes) : res signerr bytes :=
  if bool_decide (Endpoint r = []) || bool_decide (Action r = []) || bool_decide (Version r = []) then Err ErrIncomplete
  else
    let now := if IsZero (al_Now r) then clock else al_Now r in
    nonce ← (match Nonce r with [] => match random with Ok buf => Ok (hex_encode buf) | Err e => Err (ErrNonce e) end
             | n => Ok n end);
    let canonical := CanonicalQuery (aliyun_values r now nonce) in
    Ok (go "https://" ++ Endpoint r ++ go "/?Signature=" ++ PercentEncode (aliyun_signature (AccessKeySecret r) canonical)
        ++ go "&" ++ canonical).

(** ** Baidu's signature (aliyun.go) *)

Record BaiduBCERequest := MkBaidu {
  b_Method : bytes; b_Host : bytes; b_Path : bytes; b_Query : Values; b_Headers : gmap bytes bytes;
  b_AccessKeyID : bytes; SecretAccessKey : bytes; ExpiresSeconds : Z; b_Now : Z
}.

(** [sortStrings]: the values before [i], last first, and the insertion of the next. *)
Fixpoint sift (x : bytes) (sorted_rev : list bytes) : list bytes :=
  match sorted_rev with
  | y :: r => if bytes_ltb x y then y :: sift x r else x :: y :: r
  | [] => [x]
  end.
Definition sortStrings (values : list bytes) : list bytes := reverse (foldl (fun l x => sift x l) [] values).

(** The headers to sign; [range] is the order in which the map is walked. *)
Definition baidu_headers (host : bytes) (range : list (bytes * bytes)) : gmap bytes bytes :=
  foldl (fun h kv => <[ToLower kv.1 := kv.2]> h) {[ go "host" := host ]} range.

Definition baidu_prefix (r : BaiduBCERequest) (clock : Z) : bytes :=
  let now := if IsZero (b_Now r) then clock else b_Now r in
  let expires := if ExpiresSeconds r <=? 0 then 1800 else ExpiresSeconds r in
  go "bce-auth-v1/" ++ b_AccessKeyID r ++ go "/" ++ Format now (go "2006-01-02T15:04:05Z") ++ go "/" ++ Itoa expires.

Definition baidu_canonical (r : BaiduBCERequest) (headers : gmap bytes bytes) : bytes :=
  let names := sortStrings (elements (dom headers)) in
  let line name := PercentEncode name ++ go ":" ++ PercentEncode (TrimSpace (headers !!! name)) in
  Join [ToUpper (b_Method r); match b_Path r with [] => go "/" | p => p end; CanonicalQuery (b_Query r);
        Join (line <$> names) [x0a]] [x0a].

Definition AuthorizationHeader (r : BaiduBCERequest) (clock : Z) (range : list (bytes * bytes)) : bytes :=
  let prefix := baidu_prefix r clock in
  let signingKey := hex_encode (hmac_sha256 (SecretAccessKey r) prefix) in
  let headers := baidu_headers (b_Host r) range in
  prefix ++ go "/" ++ Join (sortStrings (elements (dom headers))) (go ";") ++ go "/"
  ++ hex_encode (hmac_sha256 signingKey (baidu_canonical r headers)).
End aliyun.

(** ** Percent encoding is RFC 3986's *)

(** The unreserved characters of RFC 3986 stand for themselves; any other byte
    is a percent sign and two upper-case hexadecimal digits. *)
Definition rfc3986 (c : byte) : bytes :=
  if is_alnum c || ContainsByte (go "-._~") c then [c] else percent c.

(** What the three replacements make of a byte. *)
Definition no_plus (c : byte) : bytes := if bool_decide (c = x20) then go "%20" else escape_byte encodeQueryComponent c.

Lemma PercentEncode_tokens value : PercentEncode value = concat (rfc3986 <$> value).
Proof.
  unfold PercentEncode, QueryEscape, escape.
  rewrite (ReplaceAll_tokens _ no_plus) by (intros c t; destruct c; reflexivity).
  rewrite (ReplaceAll_tokens _ no_plus) by (intros c t; destruct c; reflexivity).
  apply ReplaceAll_tokens. intros c t. destruct c; reflexivity.
Qed.

#[export] Instance PercentEncode_escaper : QueryEscaper PercentEncode.
Proof.
  split; intros s; rewrite PercentEncode_tokens.
  - unfold QueryUnescape. induction s as [|c s IH]; [done|].
    change (concat (rfc3986 <$> c :: s)) with (rfc3986 c ++ concat (rfc3986 <$> s)).
    assert (forall t, unescape (rfc3986 c ++ t) encodeQueryComponent = cons c <$> unescape t encodeQueryComponent) as ->
      by (intros t; destruct c; reflexivity).
    by rewrite IH.
  - apply concat_clean. intros c. destruct c; apply (bool_decide_unpack _); by vm_compute.
Qed.

(** The encoding the signatures use is the percent encoding of RFC 3986: the
    escaping of a query followed by three textual replacements keeps exactly
    the unreserved characters, writes every other byte as a percent sign and
    two upper-case hexadecimal digits, and decodes to what was encoded. *)
Theorem PercentEncode_rfc3986 value :
  PercentEncode value = concat (rfc3986 <$> value) /\ QueryUnescape (PercentEncode value) = Some value.
Proof. split; [apply PercentEncode_tokens|apply esc_decodes]. Qed.

(** ** The canonical query *)

Lemma SortStrings_ext l l' : l ≡ₚ l' -> SortStrings l = SortStrings l'.
Proof.
  intros H. apply (Sorted_unique bytes_le); [apply (Sorted_merge_sort bytes_le)|apply (Sorted_merge_sort bytes_le)|].
  by rewrite !SortStrings_perm.
Qed.

Lemma SortStrings_nil l : SortStrings l = [] -> l = [].
Proof. intros H. apply Permutation_nil. by rewrite <- H, SortStrings_perm. Qed.

Lemma CanonicalQuery_parse v : no_empty_key v -> ParseQuery (CanonicalQuery v) = (SortStrings <$> v, false).
Proof. intros Hv. unfold CanonicalQuery. by apply encode_with_parse; [apply _|apply SortStrings_nil|]. Qed.

Lemma CanonicalQuery_sorted v w : SortStrings <$> v = SortStrings <$> w -> CanonicalQuery v = CanonicalQuery w.
Proof.
  intros H. unfold CanonicalQuery, encode_with. f_equal. unfold pairs, sorted_keys.
  assert (dom v = dom w) as Hd by (rewrite <- (dom_fmap_L SortStrings v), H; apply dom_fmap_L).
  rewrite Hd.
  assert (forall k, SortStrings (v !!! k) = SortStrings (w !!! k)) as Hk.
  { intros k. assert ((SortStrings <$> v) !! k = (SortStrings <$> w) !! k) as E by (by rewrite H).
    rewrite !lookup_fmap in E. unfold lookup_total, map_lookup_total.
    destruct (v !! k), (w !! k); simpl in *; congruence. }
  apply list_bind_ext; [|done]. intros k. by rewrite Hk.
Qed.

(** The canonical query is canonical: two sets of values in which every key
    has a value have one canonical query exactly when every key has the same
    values in both, in any order; and the query decodes, without an error, to
    those values. *)
Theorem CanonicalQuery_canonical v w :
  no_empty_key v -> no_empty_key w ->
  ParseQuery (CanonicalQuery v) = (SortStrings <$> v, false)
  /\ (CanonicalQuery v = CanonicalQuery w <-> dom v = dom w /\ forall k, v !!! k ≡ₚ w !!! k).
Proof.
  intros Hv Hw. split; [by apply CanonicalQuery_parse|]. split.
  - intros H. assert (SortStrings <$> v = SortStrings <$> w) as E.
    { pose proof (CanonicalQuery_parse v Hv) as H1. rewrite H, CanonicalQuery_parse in H1 by done. congruence. }
    split; [by rewrite <- (dom_fmap_L SortStrings v), E; apply dom_fmap_L|]. intros k.
    rewrite <- (SortStrings_perm (v !!! k)), <- (SortStrings_perm (w !!! k)).
    assert ((SortStrings <$> v) !! k = (SortStrings <$> w) !! k) as Ek by (by rewrite E).
    rewrite !lookup_fmap in Ek. unfold lookup_total, map_lookup_total.
    destruct (v !! k), (w !! k); simpl in *; by simplify_eq/=; try rewrite Ek.
  - intros [Hd Hk]. apply CanonicalQuery_sorted. apply map_eq. intros k. rewrite !lookup_fmap.
    specialize (Hk k). assert (is_Some (v !! k) <-> is_Some (w !! k)) as Hs by (rewrite <- !elem_of_dom; by rewrite Hd).
    unfold lookup_total, map_lookup_total in Hk. destruct (v !! k) as [l|], (w !! k) as [l'|]; simpl in *.
    + f_equal. by apply SortStrings_ext.
    + destruct Hs as [Hs _]. by destruct (Hs ltac:(eauto)).
    + destruct Hs as [_ Hs]. by destruct (Hs ltac:(eauto)).
    + done.
Qed.

Definition query_example : Values := {[ go "k" := [go "z"; go "a b"]; go "n" := [[]] ]}.
Definition query_example_again : Values := {[ go "k" := [go "a b"; go "z"]; go "n" := [[]] ]}.

Lemma CanonicalQuery_canonical_witness :
  CanonicalQuery query_example = go "k=a%20b&k=z&n="
  /\ (ParseQuery (CanonicalQuery query_example) = (SortStrings <$> query_example, false)
      /\ (CanonicalQuery query_example = CanonicalQuery query_example_again
          <-> dom query_example = dom query_example_again
              /\ forall k, query_example !!! k ≡ₚ query_example_again !!! k)).
Proof.
  split; [by vm_compute|].
  apply (CanonicalQuery_canonical query_example query_example_again);
    apply (bool_decide_unpack _); by vm_compute.
Defined.

(** ** The insertion sort of aliyun.go *)

Lemma sift_perm x l : sift x l ≡ₚ x :: l.
Proof.
  induction l as [|y l IH]; [done|]. simpl. destruct (bytes_ltb x y); [|done].
  rewrite IH. apply perm_swap.
Qed.

(** Last first: every element is at least the next. *)
Lemma sift_sorted x l : Sorted (flip bytes_le) l -> Sorted (flip bytes_le) (sift x l).
Proof.
  induction l as [|y l IH]; intros Hs; simpl; [by repeat constructor|].
  apply Sorted_inv in Hs as [Hs Hy]. destruct (bytes_ltb x y) eqn:E.
  - constructor; [by apply IH|]. destruct l as [|z l]; simpl.
    + constructor. by apply bytes_ltb_asym.
    + destruct (bytes_ltb x z); constructor; [by inversion Hy|]. by apply bytes_ltb_asym.
  - by constructor; [constructor|constructor].
Qed.

Lemma sifted values acc :
  Sorted (flip bytes_le) acc ->
  Sorted (flip bytes_le) (foldl (fun l x => sift x l) acc values)
  /\ foldl (fun l x => sift x l) acc values ≡ₚ acc ++ values.
Proof.
  revert acc. induction values as [|x values IH]; intros acc Hs; [by rewrite app_nil_r|].
  cbn [foldl]. destruct (IH (sift x acc) (sift_sorted x acc Hs)) as [H1 H2]. split; [done|].
  rewrite H2, sift_perm. simpl. by rewrite Permutation_middle.
Qed.

Lemma sorted_reverse (l : list bytes) : Sorted (flip bytes_le) l -> Sorted bytes_le (reverse l).
Proof.
  intros H. apply Sorted_StronglySorted in H; [|intros x y z Hxy Hyz; unfold flip in *; by etrans].
  apply StronglySorted_Sorted. induction H as [|x l Hl IH Hx]; [constructor|].
  rewrite reverse_cons. apply StronglySorted_app_2; [|done|by repeat constructor].
  intros a b Ha Hb. apply list_elem_of_singleton in Hb as ->. rewrite elem_of_reverse in Ha.
  rewrite Forall_forall in Hx. exact (Hx _ Ha).
Qed.

(** The insertion sort of the Baidu signer is [sort.Strings]. *)
Theorem sortStrings_sorts values : sortStrings values = SortStrings values.
Proof.
  unfold sortStrings. destruct (sifted values []) as [H1 H2]; [constructor|].
  apply (Sorted_unique bytes_le); [by apply sorted_reverse|apply (Sorted_merge_sort bytes_le)|].
  by rewrite reverse_Permutation, H2, SortStrings_perm.
Qed.

(** ** What a signature covers *)

Section covers.
Context `{U : Unicode} `{UU : UnicodeUpper} `{HM : Hmac} `{HS : Hashes}.

(** Headers whose names and values can go into a request: no colon, semicolon
    or line end in the name of one, no line end in its value. *)
Definition clean_headers (profile : SigV4Profile) (h : Header) : Prop :=
  Forall (fun name => x3a ∉ name /\ x3b ∉ name /\ x0a ∉ name /\ x0a ∉ TrimSpace (Header_Get h name)) (signed_names profile h).

Definition signed_header (h : Header) (name : bytes) : bytes * bytes := (name, TrimSpace (Header_Get h name)).

Lemma hex_encode_no bs : x0a ∉ hex_encode bs.
Proof.
  unfold hex_encode. apply (clean_no (fun c => negb (bool_decide (c = x0a)))); [|done].
  apply concat_clean. intros c. destruct c; apply (bool_decide_unpack _); by vm_compute.
Qed.

Lemma CanonicalQuery_no v : x0a ∉ CanonicalQuery v.
Proof.
  pose proof (encode_clean PercentEncode (pairs SortStrings v)) as H. rewrite Forall_forall in H.
  intros Hin. destruct (H _ Hin) as [E|E]; done.
Qed.

(** The header lines, and the empty text after the last of them. *)
Lemma Join_lines (pre : list bytes) (lines : list bytes) (rest : list bytes) :
  rest <> [] ->
  Join (pre ++ concat ((fun l => l ++ [x0a]) <$> lines) :: rest) [x0a] = Join (pre ++ lines ++ [] :: rest) [x0a].
Proof.
  intros Hr. induction pre as [|p pre IH].
  - cbn [app]. destruct rest as [|r rest]; [done|]. induction lines as [|l lines IH]; [done|].
    cbn [fmap list_fmap concat]. cbn [app].
    assert (forall a b t, Join ((a ++ [x0a] ++ b) :: r :: t) [x0a] = a ++ [x0a] ++ Join (b :: r :: t) [x0a]) as Hj.
    { intros a b t. cbn [Join]. by rewrite <- !app_assoc. }
    rewrite <- app_assoc, Hj, IH. cbn [Join]. destruct lines; done.
  - cbn [app]. destruct pre as [|q pre]; cbn [app] in *.
    + cbn [Join]. cbn [Join] in IH. destruct (lines ++ [] :: rest) eqn:E; [by destruct lines|].
      destruct rest; [done|]. by rewrite IH.
    + cbn [Join]. cbn [Join] in IH. by rewrite IH.
Qed.
Definition canonical_path (u : URL) : bytes := match EscapedPath u with [] => go "/" | p => p end.

Definition name_value (nv : bytes * bytes) : bytes := nv.1 ++ go ":" ++ nv.2.

Definition signed_headers (profile : SigV4Profile) (h : Header) : list (bytes * bytes) :=
  signed_header h <$> signed_names profile h.

(** The lines of a canonical request. *)
Definition request_lines (profile : SigV4Profile) (u : URL) (req : SigV4Request) : list bytes :=
  [ToUpper (Method req); canonical_path u; CanonicalQuery (Query u)]
  ++ (name_value <$> signed_headers profile (Headers req))
  ++ [[]; Join (signed_names profile (Headers req)) (go ";"); sha256Hex (Payload req)].

Lemma canonicalRequest_lines profile u req :
  (canonicalRequest profile u req).1 = Join (request_lines profile u req) [x0a].
Proof.
  unfold canonicalRequest, request_lines. cbv zeta. cbn [fst]. fold (canonical_path u).
  assert (header_line (Headers req) <$> signed_names profile (Headers req)
          = (fun l => l ++ [x0a]) <$> (name_value <$> signed_headers profile (Headers req))) as ->.
  { unfold signed_headers. rewrite <- !list_fmap_compose. apply list_fmap_ext. intros _ name _.
    unfold header_line, name_value, signed_header. cbn. by rewrite <- !app_assoc. }
  exact (Join_lines [ToUpper (Method req); canonical_path u; CanonicalQuery (Query u)] _
    [Join (signed_names profile (Headers req)) (go ";"); sha256Hex (Payload req)] ltac:(done)).
Qed.

Lemma Join_no (c : byte) ps sep : c ∉ sep -> Forall (fun p => c ∉ p) ps -> c ∉ Join ps sep.
Proof.
  intros Hs H. induction H as [|p ps Hp Hps IH]; [by apply not_elem_of_nil|]. cbn [Join]. destruct ps; [done|].
  rewrite !elem_of_app. tauto.
Qed.

Lemma request_lines_clean profile u req :
  x0a ∉ ToUpper (Method req) -> clean_headers profile (Headers req) ->
  Forall (fun l => x0a ∉ l) (request_lines profile u req).
Proof.
  intros Hm Hh. unfold request_lines. apply Forall_app. split; [|apply Forall_app; split].
  - constructor; [done|]. constructor; [|constructor; [apply CanonicalQuery_no|constructor]].
    unfold canonical_path. pose proof (EscapedPath_clean u) as Hp. destruct (EscapedPath u); [|done].
    apply (bool_decide_unpack _). by vm_compute.
  - unfold signed_headers. rewrite <- list_fmap_compose. apply Forall_fmap. eapply Forall_impl; [exact Hh|].
    intros name (_ & _ & Hn & Hv). unfold compose, name_value, signed_header. cbn [fst snd].
    rewrite !elem_of_app. intros [?|[E|?]]; [done| |done].
    by apply list_elem_of_singleton in E.
  - constructor; [by apply not_elem_of_nil|]. constructor; [|constructor; [apply hex_encode_no|constructor]].
    apply Join_no; [apply (bool_decide_unpack _); by vm_compute|]. eapply Forall_impl; [exact Hh|].
    by intros name (_ & _ & ? & _).
Qed.

Lemma name_value_inj profile h profile' h' :
  clean_headers profile h -> clean_headers profile' h' ->
  name_value <$> signed_headers profile h = name_value <$> signed_headers profile' h' ->
  signed_headers profile h = signed_headers profile' h'.
Proof.
  unfold clean_headers, signed_headers. intros H H' E. revert E H'. generalize (signed_names profile' h').
  induction H as [|name names (Hn & _) Hs IH]; intros [|name' names'] E H'; try done.
  cbn [fmap list_fmap] in *. injection E as E1 E2. apply Forall_cons in H' as [(Hn' & _) H'].
  rewrite (IH names') by done. f_equal.
  assert (Cut (name_value (signed_header h name)) [x3a] = Cut (name_value (signed_header h' name')) [x3a]) as Ec by congruence.
  unfold name_value, signed_header in *. cbn [fst snd] in *.
  change (name ++ go ":" ++ TrimSpace (Header_Get h name)) with (name ++ x3a :: TrimSpace (Header_Get h name)) in Ec.
  change (name' ++ go ":" ++ TrimSpace (Header_Get h' name')) with (name' ++ x3a :: TrimSpace (Header_Get h' name')) in Ec.
  rewrite !Cut_app in Ec by done. congruence.
Qed.

(** C34: a signature covers the whole request: two requests with one canonical
    request have one method, one path, the same query values up to the order of
    the values of a key, the same signed headers with the same values, and
    payloads of one hash; for methods without a line end and headers whose
    names and values can be sent. *)
Theorem canonicalRequest_covers profile u req u' req' :
  x0a ∉ ToUpper (Method req) -> x0a ∉ ToUpper (Method req') ->
  clean_headers profile (Headers req) -> clean_headers profile (Headers req') ->
  (canonicalRequest profile u req).1 = (canonicalRequest profile u' req').1 ->
  ToUpper (Method req) = ToUpper (Method req') /\ canonical_path u = canonical_path u'
  /\ SortStrings <$> Query u = SortStrings <$> Query u'
  /\ signed_headers profile (Headers req) = signed_headers profile (Headers req')
  /\ sha256Hex (Payload req) = sha256Hex (Payload req').
Proof.
  intros Hm Hm' Hh Hh'. rewrite !canonicalRequest_lines. intros E.
  assert (Split (Join (request_lines profile u req) [x0a]) x0a = Split (Join (request_lines profile u' req') [x0a]) x0a)
    as Es by congruence.
  rewrite !Split_Join in Es by (done || by apply request_lines_clean).
  unfold request_lines in Es. cbn [app] in Es. injection Es as E1 E2 E3 E4.
  apply app_inj_2 in E4 as [E4 E5]; [|done]. injection E5 as _ E6.
  split_and!; [done|done| |by apply name_value_inj|done].
  pose proof (CanonicalQuery_parse _ (ParseQuery_no_empty (RawQuery u))) as H1.
  pose proof (CanonicalQuery_parse _ (ParseQuery_no_empty (RawQuery u'))) as H2.
  fold (Query u) in H1. fold (Query u') in H2. rewrite E3 in H1. congruence.
Qed.
End covers.

(** ** What the service checks *)

Section service.
Context `{U : Unicode} `{UU : UnicodeUpper} `{HM : Hmac} `{HS : Hashes}.

(** The authorization a service expects of the request [w] whose signed headers
    it is told, computed from the request alone. *)
Definition expected_authorization (profile : SigV4Profile) (account : SigV4Request) (now : Z) (names : list bytes) (w : wire)
  : option bytes :=
  u ← Parse (w_URL w);
  let canonical :=
    Join [ToUpper (w_Method w); canonical_path u; CanonicalQuery (Query u);
          concat (header_line (w_Header w) <$> names); Join names (go ";"); sha256Hex (w_Body w)] [x0a] in
  let toSign := Join [Algorithm profile; timestampForSigning profile now; credentialScope profile now account;
                      sha256Hex canonical] [x0a] in
  let scope := credentialScope profile now account in
  Some (Algorithm profile ++ go " Credential=" ++ (AccessKey account ++ (match scope with [] => [] | _ => go "/" ++ scope end))
        ++ go ", SignedHeaders=" ++ Join names (go ";") ++ go ", Signature="
        ++ hex_encode (hmac_sha256 (deriveKey profile now account) toSign)).

(** The loop of the Huawei and DNSPod clients: the signed headers as the headers
    of a [dns.Request]. *)
Definition header_map (h : Header) : gmap bytes bytes := map_imap (fun name _ => Some (Header_Get h name)) h.

Lemma header_map_lookup h k : header_map h !! k = (fun _ => Header_Get h k) <$> h !! k.
Proof. unfold header_map. rewrite map_lookup_imap. by destruct (h !! k). Qed.

(** The names of the headers, no two of which are one header. *)
Definition distinct_names (h : Header) : Prop := NoDup (CanonicalMIMEHeaderKey <$> (map_to_list (header_map h)).*1).

Lemma header_map_sent h base k :
  distinct_names h -> is_Some (h !! k) ->
  forall k', CanonicalMIMEHeaderKey k' = CanonicalMIMEHeaderKey k ->
  Header_Get (set_headers (map_to_list (header_map h)) base) k' = Header_Get h k'.
Proof.
  intros Hd [l Hl] k' Hk.
  assert (In (k, Header_Get h k) (map_to_list (header_map h))) as Hin.
  { apply list_elem_of_In, elem_of_map_to_list. by rewrite header_map_lookup, Hl. }
  unfold Header_Get at 1, Values_Get. rewrite set_headers_lookup, Hk by done.
  destruct (find _ _) as [kv|] eqn:E.
  - apply find_some in E as [Hin2 He]. apply bool_decide_eq_true_1 in He.
    assert (kv = (k, Header_Get h k)) as ->; [|by unfold Header_Get; cbn [snd]; rewrite Hk].
    apply list_elem_of_In, list_elem_of_lookup in Hin as [i Hi], Hin2 as [j Hj].
    assert (i = j) as ->; [|congruence].
    apply (NoDup_lookup _ _ _ (CanonicalMIMEHeaderKey k) Hd).
    + by rewrite !list_lookup_fmap, Hi.
    + rewrite !list_lookup_fmap, Hj. cbn. congruence.
  - pose proof (find_none _ _ E _ Hin) as He. by apply bool_decide_eq_false_1 in He.
Qed.

(** A header that is there and whose lower-case name is known. *)
Lemma header_line_sent h base k :
  distinct_names h -> is_Some (h !! k) -> is_ascii k = true -> forallb validHeaderFieldByte k = true ->
  header_line (set_headers (map_to_list (header_map h)) base) (ToLower k) = header_line h (ToLower k).
Proof.
  intros Hd Hk Ha Hv. unfold header_line. do 4 f_equal. apply (header_map_sent h base k); [done|done|].
  unfold ToLower. rewrite Ha. by apply canonical_lower.
Qed.

(** The names a request is signed with are names of its headers. *)
Lemma signed_names_spec profile h name :
  name ∈ signed_names profile h <-> is_signed profile name = true /\ exists k, is_Some (h !! k) /\ name = ToLower k.
Proof.
  unfold signed_names. rewrite SortStrings_perm, list_elem_of_filter, list_elem_of_fmap.
  split; intros [H1 (k & H2 & H3)]; (split; [done|]; exists k); rewrite ?elem_of_elements, ?elem_of_dom in *; done.
Qed.

Definition sendable (h : Header) : Prop :=
  distinct_names h /\ forall k, is_Some (h !! k) -> is_ascii k = true /\ forallb validHeaderFieldByte k = true.

(** Headers with names among [names] can be sent when those can. *)
Definition sendable_names (names : list bytes) : bool :=
  bool_decide (NoDup (CanonicalMIMEHeaderKey <$> names))
  && forallb (fun k => is_ascii k && forallb validHeaderFieldByte k) names.

Lemma names_distinct names k k' :
  NoDup (CanonicalMIMEHeaderKey <$> names) -> k ∈ names -> k' ∈ names ->
  CanonicalMIMEHeaderKey k = CanonicalMIMEHeaderKey k' -> k = k'.
Proof.
  intros Hnd [i Hi]%list_elem_of_lookup [j Hj]%list_elem_of_lookup E.
  assert (i = j) as ->; [|congruence].
  apply (NoDup_lookup _ _ _ (CanonicalMIMEHeaderKey k) Hnd); rewrite list_lookup_fmap.
  - by rewrite Hi.
  - rewrite Hj. cbn. congruence.
Qed.

Lemma sendable_of_names names h :
  sendable_names names = true -> (forall k, is_Some (h !! k) -> k ∈ names) -> sendable h.
Proof.
  unfold sendable_names. rewrite andb_true_iff, forallb_forall. intros [Hnd%bool_decide_eq_true_1 Hv] Hin. split.
  - unfold distinct_names. apply NoDup_fmap_2_strong; [|apply NoDup_fst_map_to_list].
    assert (forall k, k ∈ (map_to_list (header_map h)).*1 -> k ∈ names) as Hk.
    { intros k ([k' v] & -> & Hkv)%list_elem_of_fmap. apply elem_of_map_to_list in Hkv. apply Hin.
      rewrite header_map_lookup in Hkv. cbn [fst]. apply fmap_Some in Hkv as (l & -> & _). eauto. }
    intros k k' H1 H2. apply (names_distinct names); auto.
  - intros k Hk. specialize (Hv k ltac:(apply list_elem_of_In, Hin, Hk)). by apply andb_true_iff in Hv.
Qed.

(** Adding the authorization changes none of what is signed. *)
Lemma signed_names_authorization profile h a :
  signed_names profile (<[go "Authorization" := a]> h) = signed_names profile h.
Proof.
  unfold signed_names. apply SortStrings_ext. rewrite dom_insert.
  destruct (decide (go "Authorization" ∈ dom h)) as [Hin|Hin].
  - by rewrite subseteq_union_1_L by set_solver.
  - rewrite elements_union_singleton by done. cbn [fmap list_fmap]. rewrite filter_cons_False; [done|].
    assert (is_signed profile (ToLower (go "Authorization")) = false) as -> by done. done.
Qed.

Lemma lower_canonical_case s : forall upper, lower_byte <$> canonical_case upper s = lower_byte <$> s.
Proof.
  induction s as [|c s IH]; intros upper; [done|]. cbn [canonical_case fmap list_fmap].
  assert (lower_byte (if upper then upper_byte c else lower_byte c) = lower_byte c) as -> by (destruct upper; destruct c; reflexivity).
  f_equal. apply IH.
Qed.

Lemma lower_canonical k : lower_byte <$> CanonicalMIMEHeaderKey k = lower_byte <$> k.
Proof. unfold CanonicalMIMEHeaderKey. case_match; [apply lower_canonical_case|done]. Qed.

Lemma header_line_authorization profile h a name :
  sendable h -> name ∈ signed_names profile h ->
  header_line (<[go "Authorization" := a]> h) name = header_line h name.
Proof.
  intros [_ Hs] (Hn & k & Hk & ->)%signed_names_spec. destruct (Hs k Hk) as [Ha Hv].
  unfold header_line, Header_Get, Values_Get. rewrite lookup_insert_ne; [done|].
  intros E. apply (f_equal (fmap lower_byte)) in E. rewrite lower_canonical in E.
  unfold ToLower in Hn, E. rewrite Ha in Hn, E.
  assert (lower_byte <$> k = go "authorization") as Ek.
  { transitivity (lower_byte <$> (lower_byte <$> k)); [|by rewrite <- E].
    rewrite <- list_fmap_compose. apply list_fmap_ext. intros _ c _. by destruct c. }
  unfold is_signed in Hn. by rewrite bool_decide_eq_true_2 in Hn.
Qed.

(** What is sent of a signed request carries the authorization the service
    expects of it. *)
Lemma signed_request_expected profile now u req base w :
  sendable (Headers req) ->
  Parse (w_URL w) = Some u -> w_Method w = Method req -> w_Body w = Payload req ->
  w_Header w = set_headers (map_to_list (header_map (<[go "Authorization" := [authorization profile now u req]]> (Headers req)))) base ->
  (forall k, is_Some (Headers req !! k) -> CanonicalMIMEHeaderKey k = go "Authorization" -> k = go "Authorization") ->
  expected_authorization profile req now (signed_names profile (Headers req)) w
  = Some (Header_Get (w_Header w) (go "Authorization")).
Proof.
  intros Hs Hu Hm Hb Hh Hauth. set (h := <[go "Authorization" := _]> (Headers req)) in *.
  assert (sendable h) as Hs'.
  { apply (sendable_of_names (elements (dom h))); [|intros k; by rewrite elem_of_elements, elem_of_dom].
    unfold sendable_names. rewrite andb_true_iff, bool_decide_eq_true, forallb_forall. split.
    - apply NoDup_fmap_2_strong; [|apply NoDup_elements]. intros k k'. rewrite !elem_of_elements, !elem_of_dom.
      intros Hk Hk' E. destruct Hs as [Hd _]. subst h. apply lookup_insert_is_Some in Hk, Hk'.
      assert (forall k, is_Some (Headers req !! k) -> k ∈ (map_to_list (header_map (Headers req))).*1) as Hin.
      { intros k0 [v Hv]. apply list_elem_of_fmap. exists (k0, Header_Get (Headers req) k0). split; [done|].
        apply elem_of_map_to_list. by rewrite header_map_lookup, Hv. }
      destruct Hk as [<-|[Hne Hk]], Hk' as [<-|[Hne' Hk']]; [done| | |].
      + by rewrite (Hauth k' Hk' (eq_sym E)).
      + by rewrite (Hauth k Hk E).
      + by apply (names_distinct _ _ _ Hd); [apply Hin|apply Hin|].
    - intros k Hk%list_elem_of_In. rewrite elem_of_elements, elem_of_dom in Hk. subst h.
      apply lookup_insert_is_Some in Hk as [<-|[_ Hk]]; [done|]. destruct Hs as [_ Hs]. by destruct (Hs k Hk) as [-> ->]. }
  assert (Header_Get (w_Header w) (go "Authorization") = authorization profile now u req) as ->.
  { rewrite Hh, (header_map_sent h base (go "Authorization")); [|apply Hs'|subst h; by rewrite lookup_insert_eq|done].
    unfold Header_Get, Values_Get. subst h.
    change (CanonicalMIMEHeaderKey (go "Authorization")) with (go "Authorization"). by rewrite lookup_insert_eq. }
  unfold expected_authorization. rewrite Hu, Hm, Hb. cbn [mbind option_bind].
  assert (header_line (w_Header w) <$> signed_names profile (Headers req)
          = header_line (Headers req) <$> signed_names profile (Headers req)) as Hlines.
  { apply list_fmap_ext. intros i name Hname%list_elem_of_lookup_2.
    pose proof Hname as (_ & k & Hk & ->)%signed_names_spec.
    assert (is_Some (h !! k)) as Hk' by (subst h; apply lookup_insert_is_Some'; by right).
    destruct Hs' as [Hd Hv]. destruct (Hv k Hk') as [Ha Hva].
    rewrite Hh, header_line_sent by done. subst h. by apply (header_line_authorization profile). }
  rewrite Hlines. reflexivity.
Qed.
End service.

(** ** A signed Aliyun URL *)

Section aliyun_url.
Context `{U : Unicode} `{UU : UnicodeUpper} `{HM : Hmac} `{HS : Hashes}.

Lemma param_values_single params k l : param_values params !! k = Some l -> exists v, l = [v] /\ params !! k = Some v /\ v <> [].
Proof.
  unfold param_values. rewrite lookup_fmap. intros (v & Hv & ->)%fmap_Some.
  apply map_lookup_filter_Some in Hv as [Hv Hne]. by exists v.
Qed.

Definition singletons (v : Values) : Prop := map_Forall (fun _ l => exists x, l = [x]) v.

Lemma singletons_Set v k x : singletons v -> singletons (Values_Set v k x).
Proof.
  intros H k' l. unfold Values_Set. rewrite lookup_insert. case_decide; [|apply H]. intros [= <-]. by exists x.
Qed.

Lemma aliyun_values_single r now nonce : singletons (aliyun_values r now nonce).
Proof.
  unfold aliyun_values. cbv zeta. repeat apply singletons_Set.
  intros k l Hl. destruct (param_values_single _ _ _ Hl) as (v & -> & _). by exists v.
Qed.

Lemma singletons_sorted v : singletons v -> SortStrings <$> v = v.
Proof.
  intros H. apply map_eq. intros k. rewrite lookup_fmap. destruct (v !! k) as [l|] eqn:E; [|done].
  destruct (H k l E) as [x ->]. done.
Qed.

Lemma aliyun_values_signature r now nonce :
  Params r !! go "Signature" = None -> aliyun_values r now nonce !! go "Signature" = None.
Proof.
  intros H. unfold aliyun_values, Values_Set. cbv zeta. rewrite !lookup_insert_ne by done.
  unfold param_values. rewrite lookup_fmap, fmap_None. apply map_lookup_filter_None. by left.
Qed.

(** The query of the URL, as pairs. *)
Lemma signed_query sig ps :
  ps <> [] ->
  foldl (write_pair PercentEncode) [] ((go "Signature", sig) :: ps)
  = go "Signature=" ++ PercentEncode sig ++ go "&" ++ foldl (write_pair PercentEncode) [] ps.
Proof.
  intros Hps. rewrite !write_pairs. destruct ps as [|p ps]; [done|]. cbn [fmap list_fmap].
  assert (forall a b l, Join (a :: b :: l) (go "&") = a ++ go "&" ++ Join (b :: l) (go "&")) as -> by done.
  unfold pair_text at 1. cbn [fst snd].
  assert (PercentEncode (go "Signature") = go "Signature") as -> by (by vm_compute).
  by rewrite <- !app_assoc.
Qed.

Lemma signed_query_parse sig v :
  no_empty_key v -> v !! go "Signature" = None ->
  (ParseQuery (foldl (write_pair PercentEncode) [] ((go "Signature", sig) :: pairs SortStrings v))).1
  = <[go "Signature" := [sig]]> (SortStrings <$> v).
Proof.
  intros Hv Hs. rewrite (ParseQuery_pairs PercentEncode). cbn [fst foldl].
  apply map_eq. intros k. unfold pairs.
  assert (add_pair ∅ (go "Signature", sig) = {[go "Signature" := [sig]]}) as -> by done.
  assert (go "Signature" ∉ sorted_keys v) as Hn.
  { rewrite sorted_keys_elem, Hs. apply is_Some_None. }
  rewrite add_keys.
  - rewrite lookup_insert, lookup_fmap. case_bool_decide as Hk.
    + destruct (decide (go "Signature" = k)) as [<-|]; [done|done].
    + rewrite lookup_singleton. case_decide; [done|].
      rewrite sorted_keys_elem in Hk. apply eq_None_not_Some in Hk. by rewrite Hk.
  - apply SortStrings_nil.
  - apply sorted_keys_NoDup.
  - intros k' Hk'. rewrite lookup_singleton. case_decide as E; [by rewrite <- E in Hk'|done].
  - intros k' [l Hl]%sorted_keys_elem. exists l. split; [done|]. exact (Hv k' l Hl).
Qed.

(** The URL of a signature and the parameters it is over. *)
Lemma signed_url_parses host sig v :
  all_bytes plain_url_byte host -> singletons v -> v !! go "Signature" = None -> (exists k, is_Some (v !! k)) ->
  exists u, Parse (go "https://" ++ host ++ go "/?Signature=" ++ PercentEncode sig ++ go "&" ++ CanonicalQuery v) = Some u
  /\ Scheme u = go "https" /\ Host u = host /\ Query u = <[go "Signature" := [sig]]> v.
Proof.
  intros He Hsing Hnone [k0 Hk0].
  assert (no_empty_key v) as Hv by (intros k l Hl; by destruct (Hsing k l Hl) as [x ->]).
  assert (pairs SortStrings v <> []) as Hne.
  { intros E. assert (CanonicalQuery v = []) as Ec by (unfold CanonicalQuery, encode_with; by rewrite E).
    pose proof (CanonicalQuery_parse v Hv) as Hp. rewrite Ec, singletons_sorted in Hp by done.
    assert (ParseQuery [] = (∅, false)) as E0 by (by vm_compute). rewrite E0 in Hp.
    assert (v = ∅) as Hv0 by congruence. rewrite Hv0, lookup_empty in Hk0. by destruct Hk0. }
  set (q := foldl (write_pair PercentEncode) [] ((go "Signature", sig) :: pairs SortStrings v)).
  assert (go "https://" ++ host ++ go "/?Signature=" ++ PercentEncode sig ++ go "&" ++ CanonicalQuery v
          = go "https://" ++ host ++ go "/" ++ [] ++ go "?" ++ q) as ->.
  { subst q. rewrite signed_query by done. done. }
  rewrite Parse_https; [|done|constructor|].
  2: { eapply Forall_impl; [apply (encode_clean PercentEncode)|]. intros c [Hc| ->]; [|done].
       unfold query_byte. by rewrite Hc. }
  eexists. split; [done|]. split; [done|]. split; [done|]. unfold Query. cbn [RawQuery].
  subst q. by rewrite signed_query_parse, singletons_sorted by done.
Qed.

(** *** What the service does with a request

    Written from the signature rules of the service ("RPC signature, version
    1.0"), not from the client: it reads the parameters from the query, takes
    the signature away, puts the others in the order of their names, each name
    and value in the percent encoding of RFC 3986, and takes the HMAC-SHA1 of
    the method, the path and that text, each encoded in turn, under the secret
    and an ampersand. *)
Definition rpc_encoded (s : bytes) : bytes := concat (rfc3986 <$> s).
Definition rpc_canonical (given : Values) : bytes :=
  Join ((fun name => rpc_encoded name ++ go "=" ++ rpc_encoded (Values_Get given name))
          <$> SortStrings (elements (dom given))) (go "&").
Definition rpc_signature (secret : bytes) (given : Values) : bytes :=
  base64_encode (hmac_sha1 (secret ++ go "&") (go "GET&%2F&" ++ rpc_encoded (rpc_canonical given))).

(** The service takes the request for one of the holder of the secret. *)
Definition rpc_accepts (secret : bytes) (given : Values) : Prop :=
  given !! go "Signature" = Some [rpc_signature secret (delete (go "Signature") given)].

(** The parameters every request of the service must have, and what they are
    to say of this one. *)
Definition rpc_common (r : AliyunRPCRequest) (now : Z) (nonce : bytes) : list (bytes * bytes) :=
  [(go "Action", Action r); (go "Version", Version r); (go "Format", go "JSON"); (go "AccessKeyId", AccessKeyID r);
   (go "SignatureMethod", go "HMAC-SHA1"); (go "SignatureVersion", go "1.0"); (go "SignatureNonce", nonce);
   (go "Timestamp", Format now (go "2006-01-02T15:04:05Z"))].

Lemma rpc_canonical_query v : singletons v -> CanonicalQuery v = rpc_canonical v.
Proof.
  intros Hv. unfold CanonicalQuery, encode_with. rewrite write_pairs.
  assert (pairs SortStrings v = (fun k => (k, Values_Get v k)) <$> sorted_keys v) as ->.
  { unfold pairs. assert (forall k, k ∈ sorted_keys v -> is_Some (v !! k)) as Hk by (intros k; by rewrite sorted_keys_elem).
    revert Hk. generalize (sorted_keys v). intros ks Hk. induction ks as [|k ks IH]; [done|].
    change ((pair k <$> SortStrings (v !!! k)) ++ (k ← ks; pair k <$> SortStrings (v !!! k))
            = (k, Values_Get v k) :: ((fun k => (k, Values_Get v k)) <$> ks)).
    rewrite IH by (intros k' Hk'; apply Hk; by right). destruct (Hk k) as [l Hl]; [by left|].
    destruct (Hv k l Hl) as [x ->]. unfold lookup_total, map_lookup_total, Values_Get. rewrite Hl. done. }
  transitivity (Join (pair_text PercentEncode <$> ((fun k => (k, Values_Get v k)) <$> sorted_keys v)) (go "&")); [by destruct (sorted_keys v)|].
  unfold rpc_canonical. f_equal. rewrite <- list_fmap_compose. apply list_fmap_ext. intros _ k _.
  unfold pair_text, compose, rpc_encoded. cbn [fst snd]. by rewrite !PercentEncode_tokens.
Qed.

Lemma rpc_signature_agrees secret v : singletons v -> aliyun_signature secret (CanonicalQuery v) = rpc_signature secret v.
Proof.
  intros Hv. unfold aliyun_signature, rpc_signature. rewrite rpc_canonical_query by done. unfold rpc_encoded at 1.
  rewrite <- PercentEncode_tokens. assert (PercentEncode (go "/") = go "%2F") as -> by (by vm_compute). done.
Qed.

(** The parameters of the protocol and those of the request. *)
Lemma aliyun_values_common r now nonce k x : (k, x) ∈ rpc_common r now nonce -> aliyun_values r now nonce !! k = Some [x].
Proof.
  unfold rpc_common, aliyun_values, Values_Set. cbv zeta. rewrite !elem_of_cons, elem_of_nil. intros H.
  repeat destruct H as [[= -> ->]|H]; try done;
    repeat (rewrite lookup_insert_eq || (rewrite lookup_insert_ne by done)); done.
Qed.

Lemma aliyun_values_other r now nonce k :
  k ∉ (rpc_common r now nonce).*1 ->
  aliyun_values r now nonce !! k = match Params r !! k with Some (c :: x) => Some [c :: x] | _ => None end.
Proof.
  unfold rpc_common, aliyun_values, Values_Set. cbv zeta. cbn [fmap list_fmap fst]. rewrite !not_elem_of_cons. intros H.
  destruct_and! H. rewrite !lookup_insert_ne by done. unfold param_values. rewrite lookup_fmap, map_lookup_filter.
  destruct (Params r !! k) as [[|c x]|]; [done| |done]. cbn [mbind option_bind]. by rewrite option_guard_True.
Qed.

(** C33: an Aliyun request is one the service accepts: the URL parses and goes
    over HTTPS to the endpoint; the service, reading the query and computing
    the signature by its own rules, finds the one that was sent; each of the
    eight parameters of its protocol is there once with what it must say (the
    action and version asked for, JSON, the access key, HMAC-SHA1, version 1.0,
    the nonce and the time in UTC), and every other parameter is there exactly
    when the request has one that is not empty, with that value.  The endpoint
    is a host name, and no parameter is called [Signature]. *)
Theorem SignedURL_verifies r clock random url :
  SignedURL r clock random = Ok url ->
  all_bytes plain_url_byte (Endpoint r) -> Params r !! go "Signature" = None ->
  exists u nonce,
    Parse url = Some u /\ Scheme u = go "https" /\ Host u = Endpoint r
    /\ rpc_accepts (AccessKeySecret r) (Query u)
    /\ (forall k x, (k, x) ∈ rpc_common r (if IsZero (al_Now r) then clock else al_Now r) nonce -> Query u !! k = Some [x])
    /\ (forall k, k ∉ (rpc_common r 0 nonce).*1 -> k <> go "Signature" ->
          Query u !! k = match Params r !! k with Some (c :: x) => Some [c :: x] | _ => None end)
    /\ (nonce = Nonce r \/ Nonce r = [] /\ exists buf, random = Ok buf /\ nonce = hex_encode buf).
Proof.
  unfold SignedURL. case_match; [done|]. set (now := if IsZero (al_Now r) then clock else al_Now r).
  intros Hok He Hsig.
  assert (exists nonce, (nonce = Nonce r \/ Nonce r = [] /\ exists buf, random = Ok buf /\ nonce = hex_encode buf)
    /\ url = go "https://" ++ Endpoint r ++ go "/?Signature="
         ++ PercentEncode (aliyun_signature (AccessKeySecret r) (CanonicalQuery (aliyun_values r now nonce)))
         ++ go "&" ++ CanonicalQuery (aliyun_values r now nonce)) as (nonce & Hn & ->).
  { destruct (Nonce r) as [|c n] eqn:En.
    - destruct random as [buf|e]; [|done]. apply (inj Ok) in Hok. exists (hex_encode buf). split; [right|]; eauto.
    - apply (inj Ok) in Hok. exists (c :: n). split; [by left|done]. }
  set (v := aliyun_values r now nonce). set (sig := aliyun_signature _ _).
  pose proof (aliyun_values_single r now nonce) as Hsing. fold v in Hsing.
  pose proof (aliyun_values_signature r now nonce Hsig) as Hnone. fold v in Hnone.
  destruct (signed_url_parses (Endpoint r) sig v) as (u & Hu & Hs & Hh & Hq); try done.
  { exists (go "Timestamp"). unfold v, aliyun_values, Values_Set. cbv zeta. by rewrite lookup_insert_eq. }
  exists u, nonce. rewrite Hq. split_and!; [done|done|done| | | |done].
  - unfold rpc_accepts. rewrite lookup_insert_eq, delete_insert_id by done. unfold sig. by rewrite rpc_signature_agrees.
  - intros k x Hk. rewrite lookup_insert_ne; [by apply aliyun_values_common|].
    intros <-. apply aliyun_values_common in Hk. fold v in Hk. congruence.
  - intros k Hk Hks. rewrite lookup_insert_ne by done. by apply aliyun_values_other.
Qed.
End aliyun_url.

(** ** Examples *)

Section examples.
#[local] Existing Instance no_unicode.
#[local] Existing Instance toy_hmac.
#[local] Instance ascii_upper : UnicodeUpper := {| unicode_upper s := s |}.
#[local] Instance toy_hashes : Hashes :=
  {| sha256_sum s := reverse s; hmac_sha1 k m := reverse k ++ m; md5_sum s := s |}.

Definition example_request : SigV4Request :=
  MkSigV4 (go "post") (Parse (go "https://cvm.example.com/v2/zones?b=two+words&a=1"))
    {[ go "Content-Type" := [go " application/json "]; go "X-Tc-Action" := [go "Describe"] ]}
    (go "{}") (go "AK") (go "SK") [] (go "cvm") ((1551113065 + unixToInternal) * Second).

Definition example_url : URL := default (MkURL [] [] [] [] []) (sv_URL example_request).

Example example_canonical :
  (canonicalRequest TencentProfile example_url example_request).1
  = Join [go "POST"; go "/v2/zones"; go "a=1&b=two%20words"; go "content-type:application/json";
          go "x-tc-action:Describe"; []; go "content-type;x-tc-action"; go "7d7b"] [x0a].
Proof. by vm_compute. Qed.

Example example_scope :
  credentialScope TencentProfile (Now example_request) example_request = go "20190225/cvm/tc3_request".
Proof. by vm_compute. Qed.

#[local] Instance clean_headers_dec profile h : Decision (clean_headers profile h).
Proof. unfold clean_headers. apply _. Defined.

Definition example_request_again : SigV4Request :=
  with_headers {[ go "Content-Type" := [go "application/json"]; go "X-Tc-Action" := [go "Describe"; go "ignored"] ]} example_request.

Lemma canonicalRequest_covers_witness :
  Headers example_request <> Headers example_request_again
  /\ ToUpper (Method example_request) = ToUpper (Method example_request_again)
  /\ canonical_path example_url = canonical_path example_url
  /\ SortStrings <$> Query example_url = SortStrings <$> Query example_url
  /\ signed_headers TencentProfile (Headers example_request) = signed_headers TencentProfile (Headers example_request_again)
  /\ sha256Hex (Payload example_request) = sha256Hex (Payload example_request_again).
Proof.
  split; [apply (bool_decide_unpack _); by vm_compute|].
  apply (canonicalRequest_covers TencentProfile example_url example_request example_url example_request_again);
    apply (bool_decide_unpack _); by vm_compute.
Defined.

Definition example_aliyun : AliyunRPCRequest :=
  MkAliyun (go "alidns.aliyuncs.com") (go "DescribeDomainRecords") (go "2015-01-09")
    {[ go "DomainName" := go "example.com"; go "KeyWord" := [] ]} (go "testid") (go "testsecret")
    ((1551113065 + unixToInternal) * Second) (go "fixednonce").

Definition example_aliyun_url : bytes :=
  match SignedURL example_aliyun 0 (Err []) with Ok url => url | Err _ => [] end.

Lemma SignedURL_verifies_witness :
  exists u nonce,
    Parse example_aliyun_url = Some u /\ Scheme u = go "https" /\ Host u = go "alidns.aliyuncs.com"
    /\ rpc_accepts (go "testsecret") (Query u)
    /\ (forall k x, (k, x) ∈ rpc_common example_aliyun (al_Now example_aliyun) nonce -> Query u !! k = Some [x])
    /\ (forall k, k ∉ (rpc_common example_aliyun 0 nonce).*1 -> k <> go "Signature" ->
          Query u !! k = match Params example_aliyun !! k with Some (c :: x) => Some [c :: x] | _ => None end)
    /\ (nonce = go "fixednonce" \/ go "fixednonce" = [] /\ exists buf, (Err [] : res bytes bytes) = Ok buf /\ nonce = hex_encode buf).
Proof.
  apply (SignedURL_verifies example_aliyun 0 (Err []) example_aliyun_url); [by vm_compute| |by vm_compute].
  apply (bool_decide_unpack _). by vm_compute.
Defined.

Example base64_examples :
  base64_encode (go "Man") = go "TWFu" /\ base64_encode (go "light w") = go "bGlnaHQgdw==" /\ base64_encode [] = [].
Proof. by vm_compute. Qed.
End examples.
