(* ===== verification/Cloudflare.v ===== *)
(** The Cloudflare DNS client: [internal/dns/providers/cloudflare/cloudflare.go].

    The provider's state is its credentials and its cache of zone ids; the
    service is behind [Http.Service]. *)
From S2P Require Import Prelude GoStrings Schema Dns Url Http.

Definition apiBase : bytes := go "https://api.cloudflare.com/client/v4".

(** [zoneIDs]: a nil map and an empty one are the same to its readers. *)
Record provider := MkProvider { auth : bytes; token : bytes; email : bytes; apiKey : bytes; zoneIDs : gmap bytes bytes }.

(** The factory of the registration. *)
Definition new_provider (values : gmap bytes bytes) : provider :=
  MkProvider (values !!! go "auth") (values !!! go "api_token") (values !!! go "email") (values !!! go "api_key") ∅.

Definition headers (p : provider) : gmap bytes bytes :=
  if bool_decide (auth p = go "key") then {[ go "X-Auth-Email" := email p; go "X-Auth-Key" := apiKey p ]}
  else {[ go "Authorization" := go "Bearer " ++ token p ]}.

(** ** The envelope of every answer *)

Record envelope := MkEnvelope { Success : bool; Errors : list (Z * bytes) }.

Definition envelope_err (e : envelope) : res dnserr unit :=
  if Success e then Ok tt
  else match Errors e with
       | [] => Err (ErrProvider (go "cloudflare: request failed with no reason given"))
       | errors => Err (ErrProvider (go "cloudflare: "
                          ++ Join ((fun item => Itoa item.1 ++ go ": " ++ item.2) <$> errors) (go "; ")))
       end.

Definition decode_error_item (fields : list (bytes * json)) : option (Z * bytes) :=
  code ← field "code" as_int fields; message ← field "message" as_string fields; Some (code, message).

(** An answer with its envelope and its result. *)
Definition decode_reply {A} (decode_result : json -> option A) : json -> option (envelope * A) :=
  as_struct (fun fields =>
    success ← field "success" as_bool fields;
    errors ← field "errors" (as_list (as_struct decode_error_item)) fields;
    result ← field "result" decode_result fields;
    Some (MkEnvelope success errors, result)).

Definition decode_zone : json -> option (bytes * bytes) :=
  as_struct (fun fields => id ← field "id" as_string fields; name ← field "name" as_string fields; Some (id, name)).

Definition decode_nothing (j : json) : option unit := Some tt.

Definition decode_record (U : Unicode) (zone : bytes) : json -> option DnsRecord :=
  as_struct (fun fields =>
    id ← field "id" as_string fields;
    name ← field "name" as_string fields;
    kind ← field "type" as_string fields;
    content ← field "content" as_string fields;
    ttl ← field "ttl" as_int fields;
    priority ← field "priority" as_int fields;
    comment ← field "comment" as_string fields;
    proxied ← field "proxied" as_bool fields;
    Some (MkRecord id (NormaliseName name zone) kind content ttl LineDefault priority 0 comment true (Some proxied))).

(** ** Records *)

Definition proxiable (kind : bytes) : bool := bool_decide (kind ∈ [go "A"; go "AAAA"; go "CNAME"]).

Definition record_name (zone : bytes) (r : DnsRecord) : bytes :=
  if bool_decide (Name r = go "@") || bool_decide (Name r = []) then zone
  else if negb (HasSuffix (Name r) zone) then Name r ++ go "." ++ zone
  else Name r.

Definition recordBody (zone : bytes) (r : DnsRecord) : res dnserr (gmap bytes json) :=
  match Validate r with
  | Err e => Err e
  | Ok _ =>
      if negb (bool_decide (Line r = [])) && negb (bool_decide (Line r = LineDefault))
      then Err (ErrProvider (go "cloudflare: carrier lines are not supported"))
      else
        let body : gmap bytes json :=
          {[ go "type" := JString (Type' r); go "name" := JString (record_name zone r); go "content" := JString (Value r) ]} in
        let body := <[go "ttl" := JInt (if 60 <=? TTL r then TTL r else 1)]> body in
        let body := if bool_decide (Type' r = TypeMX) then <[go "priority" := JInt (Priority r)]> body else body in
        let body := if bool_decide (Remark r = []) then body else <[go "comment" := JString (Remark r)]> body in
        Ok (if proxiable (Type' r) then <[go "proxied" := JBool (default false (Proxied r))]> body else body)
  end.

Definition with_proxied (b : option bool) (r : DnsRecord) : DnsRecord :=
  MkRecord (ID r) (Name r) (Type' r) (Value r) (TTL r) (Line r) (Priority r) (Weight r) (Remark r) (Enabled r) b.

(** ** Requests *)

Section operations.
Context `{U : Unicode} `{JT : JsonText} {S : Type} `{Sv : Service S}.

Abbreviation cf := (prov (provider * S)).

Definition get_headers : cf (gmap bytes bytes) := fun ps => (Ok (headers ps.1), ps).

(** The request, the check of the answer and its result. *)
Definition call {A} (method url : bytes) (body : option json) (decode_result : json -> option A) (zero : A) : cf A :=
  h ← get_headers;
  let req := MkRequest method url h [] in
  let req := match body with Some j => JSONBody j req | None => req end in
  reply ← do_json req (decode_reply decode_result) (MkEnvelope false [], zero);
  _ ← of_res (envelope_err reply.1);
  mret reply.2.

Definition Check : cf unit :=
  h ← get_headers;
  reply ← wrap_error (fun e => match e with
                               | ErrProvider t => ErrProvider (go "cloudflare: credentials rejected: " ++ t)
                               | e => e end)
            (do_json (MkRequest [] (apiBase ++ go "/zones?per_page=1") h []) (decode_reply decode_nothing)
               (MkEnvelope false [], tt));
  of_res (envelope_err reply.1).

Definition cacheZone (name id : bytes) : cf unit := fun '(p, s) =>
  (Ok tt, (MkProvider (auth p) (token p) (email p) (apiKey p) (<[ToLower name := id]> (zoneIDs p)), s)).

Definition ListDomains (opts : ListOptions) : cf (list Domain) :=
  let opts := ListOptions_Normalise opts in
  let query : Values := {[ go "page" := [Itoa (Page opts)]; go "per_page" := [Itoa (PageSize opts)] ]} in
  let query := if bool_decide (Keyword opts = []) then query
               else Values_Set query (go "name") (go "contains:" ++ Keyword opts) in
  zones ← call [] (apiBase ++ go "/zones?" ++ Encode query) None (as_list decode_zone) [];
  each (fun z => _ ← cacheZone z.2 z.1; mret (MkDomain z.1 z.2 0)) zones.

Definition zoneID (zone : bytes) : cf bytes := fun '(p, s) =>
  let zone := ToLower (TrimSuffix zone (go ".")) in
  match zoneIDs p !! zone with
  | Some id => (Ok id, (p, s))
  | None =>
      (result ← call [] (apiBase ++ go "/zones?name=" ++ QueryEscape zone) None (as_list decode_zone) [];
       match result with
       | [] => pfail (ErrProvider (go "cloudflare: zone is not in this account"))
       | z :: _ => _ ← cacheZone z.2 z.1; mret z.1
       end) (p, s)
  end.

Definition records_url (id : bytes) : bytes := apiBase ++ go "/zones/" ++ id ++ go "/dns_records".
Definition record_url (id record : bytes) : bytes := records_url id ++ go "/" ++ record.

Definition ListRecords (zone : bytes) (opts : ListOptions) : cf (list DnsRecord) :=
  let opts := ListOptions_Normalise opts in
  id ← zoneID zone;
  let query : Values := {[ go "page" := [Itoa (Page opts)]; go "per_page" := [Itoa (PageSize opts)] ]} in
  let query := if bool_decide (lo_Type opts = []) then query else Values_Set query (go "type") (lo_Type opts) in
  let query := if bool_decide (Keyword opts = []) then query
               else Values_Set query (go "name") (go "contains:" ++ Keyword opts) in
  call [] (records_url id ++ go "?" ++ Encode query) None (as_list (decode_record U zone)) [].

Definition decode_id : json -> option bytes := as_struct (field "id" as_string).
Definition decode_proxied : json -> option bool := as_struct (field "proxied" as_bool).

Definition AddRecord (zone : bytes) (r : DnsRecord) : cf bytes :=
  id ← zoneID zone;
  body ← of_res (recordBody zone r);
  call (go "POST") (records_url id) (Some (map_json body)) decode_id [].

Definition recordByID (zoneid recordid : bytes) : cf bool :=
  call (go "GET") (record_url zoneid recordid) None decode_proxied false.

(** What the record is now, for an update that does not say whether it is
    proxied; an answer that is an error leaves it unsaid. *)
Definition current_proxied (zoneid : bytes) (r : DnsRecord) : cf DnsRecord := fun ps =>
  if bool_decide (Proxied r = None) && proxiable (Type' r) then
    match recordByID zoneid (ID r) ps with
    | (Ok current, ps) => (Ok (with_proxied (Some current) r), ps)
    | (Err _, ps) => (Ok r, ps)
    end
  else (Ok r, ps).

Definition UpdateRecord (zone : bytes) (r : DnsRecord) : cf unit :=
  if bool_decide (ID r = []) then pfail (ErrProvider (go "cloudflare: cannot update a record without an ID"))
  else
    id ← zoneID zone;
    r ← current_proxied id r;
    body ← of_res (recordBody zone r);
    call (go "PUT") (record_url id (ID r)) (Some (map_json body)) decode_nothing tt.

Definition DeleteRecord (zone recordID : bytes) : cf unit :=
  id ← zoneID zone;
  call (go "DELETE") (record_url id recordID) None decode_nothing tt.

(** What the ACME bridge uses of the provider. *)
#[export] Instance cloudflare_provider : Provider (provider * S) := {
  MinTTL := 60;
  Dns.AddRecord := AddRecord;
  Dns.DeleteRecord := DeleteRecord;
  Dns.ListDomains opts ps := (ListDomains opts ps).1
}.
End operations.

(** ** What a successful call means *)

Section outcome.
Context `{U : Unicode} `{JT : JsonText} {S : Type} `{Sv : Service S}.

(** The result an answer carries, when it says that the request succeeded. *)
Definition outcome {A} (decode_result : json -> option A) (zero : A) (ra : res bytes answer) : option A :=
  match ra with
  | Err _ => None
  | Ok a =>
      if is_ok (a_Read a) && (200 <=? StatusCode a) && (StatusCode a <? 300) then
        match limited maxBody (a_Body a) with
        | [] => None
        | payload =>
            reply ← json_parse payload ≫= decode_reply decode_result;
            if Success reply.1 then Some reply.2 else None
        end
      else None
  end.

Definition request (p : provider) (method url : bytes) (body : option json) : Request :=
  let req := MkRequest method url (headers p) [] in
  match body with Some j => JSONBody j req | None => req end.

Lemma call_Ok {A} method url body (dec : json -> option A) zero p s x p' s' :
  call method url body dec zero (p, s) = (Ok x, (p', s')) ->
  p' = p /\ exists ra, exchange (sent (request p method url body)) s = (ra, s') /\ outcome dec zero ra = Some x.
Proof.
  unfold call, get_headers, do_json, of_res. cbv [mbind prov_bind mret prov_ret]. cbn [fst].
  fold (request p method url body). unfold Do, Do_body.
  destruct (negb _ || _); [done|].
  destruct (exchange (sent (request p method url body)) s) as [[a|e] s1]; [|done].
  destruct (a_Read a) eqn:Ea; [|done].
  destruct (StatusCode a <? 200) eqn:E1; [done|]. destruct (300 <=? StatusCode a) eqn:E2; [done|]. cbn [orb].
  destruct (limited maxBody (a_Body a)) as [|c payload] eqn:Ep; [done|].
  destruct (json_parse (c :: payload) ≫= decode_reply dec) as [[env res]|] eqn:Er; [|done].
  cbn [fst snd]. unfold envelope_err. destruct (Success env) eqn:Es; [|by destruct (Errors env)].
  intros [= -> -> ->]. split; [done|]. eexists. split; [done|]. unfold outcome. rewrite Ea, Ep, Er.
  cbn [is_ok andb].
  assert ((200 <=? StatusCode a) && (StatusCode a <? 300) = true) as -> by (bool_facts; lia).
  cbn. by rewrite Es.
Qed.
(** A call reaches the service once or not at all. *)
Lemma call_state {A} method url body (dec : json -> option A) zero p s r p' s' :
  call method url body dec zero (p, s) = (r, (p', s')) ->
  p' = p /\ (s' = s \/ exists ra, exchange (sent (request p method url body)) s = (ra, s')).
Proof.
  unfold call, get_headers, do_json, of_res. cbv [mbind prov_bind mret prov_ret]. cbn [fst].
  fold (request p method url body). unfold Do, Do_body.
  destruct (negb _ || _); [intros [= <- <- <-]; auto|].
  destruct (exchange (sent (request p method url body)) s) as [[a|e] s1]; [|intros [= <- <- <-]; eauto].
  intros H. assert ((p', s') = (p, s1)) as [= -> ->]; [|eauto].
  destruct (a_Read a); [|congruence].
  destruct (_ || _); [congruence|].
  destruct (limited maxBody (a_Body a)) as [|c payload].
  - unfold envelope_err in H. cbn in H. congruence.
  - destruct (json_parse (c :: payload) ≫= decode_reply dec) as [[env res]|]; [|congruence].
    cbn [fst snd] in H. destruct (envelope_err env); congruence.
Qed.
End outcome.

(** ** The service *)

(** What the API documents of the requests above: the zones and records of the
    account ([recs]: for a record id, its zone and the body it was written
    with), and what a request that succeeds does to them. *)
Class CloudflareDocs (S : Type) `{U : Unicode} `{JT : JsonText} `{Sv : Service S} := {
  zones : S -> gmap bytes bytes;
  recs : S -> gmap bytes (bytes * bytes);
  (** An id holds no slash. *)
  zone_ids : forall s name zid, zones s !! name = Some zid -> x2f ∉ zid;
  (** Looking up a zone by its name finds that zone. *)
  zone_doc : forall name h s, let '(ra, s') := exchange (MkWire (go "GET") (apiBase ++ go "/zones?name=" ++ QueryEscape name) h []) s in
    zones s' = zones s /\ recs s' = recs s
    /\ forall zs, outcome (as_list decode_zone) [] ra = Some zs -> Forall (fun z => ToLower z.2 = name /\ zones s !! name = Some z.1) zs;
  (** A record that was added has an id no record has. *)
  add_doc : forall zid h body s, x2f ∉ zid -> let '(ra, s') := exchange (MkWire (go "POST") (records_url zid) h body) s in
    zones s' = zones s
    /\ forall id, outcome decode_id [] ra = Some id -> x2f ∉ id /\ recs s !! id = None /\ recs s' = <[id := (zid, body)]> (recs s);
  get_doc : forall zid id h s, x2f ∉ zid -> x2f ∉ id -> let '(ra, s') := exchange (MkWire (go "GET") (record_url zid id) h []) s in
    zones s' = zones s /\ recs s' = recs s
    /\ forall b, outcome decode_proxied false ra = Some b ->
         exists body, recs s !! id = Some (zid, body) /\ json_parse body ≫= decode_proxied = Some b;
  update_doc : forall zid id h body s, x2f ∉ zid -> x2f ∉ id -> let '(ra, s') := exchange (MkWire (go "PUT") (record_url zid id) h body) s in
    zones s' = zones s
    /\ (is_Some (outcome decode_nothing tt ra) ->
        (exists old, recs s !! id = Some (zid, old)) /\ recs s' = <[id := (zid, body)]> (recs s));
  delete_doc : forall zid id h s, x2f ∉ zid -> x2f ∉ id -> let '(ra, s') := exchange (MkWire (go "DELETE") (record_url zid id) h []) s in
    zones s' = zones s
    /\ (is_Some (outcome decode_nothing tt ra) ->
        (exists body, recs s !! id = Some (zid, body)) /\ recs s' = delete id (recs s))
}.

Section client.
Context `{U : Unicode} `{JT : JsonText} {S : Type} `{Sv : Service S} `{Docs : !CloudflareDocs S}.

(** The cache knows zones of the account, by the names they have there. *)
Definition cache_ok (ps : provider * S) : Prop := zoneIDs ps.1 ⊆ zones ps.2.

Definition zone_key (zone : bytes) : bytes := ToLower (TrimSuffix zone (go ".")).

Lemma zoneID_Ok zone ps id ps' :
  cache_ok ps -> zoneID zone ps = (Ok id, ps') ->
  cache_ok ps' /\ recs ps'.2 = recs ps.2 /\ zones ps'.2 = zones ps.2 /\ zones ps.2 !! zone_key zone = Some id
  /\ headers ps'.1 = headers ps.1.
Proof.
  destruct ps as [p s]. unfold cache_ok, zoneID. fold (zone_key zone). cbn [fst snd]. intros Hc.
  destruct (zoneIDs p !! zone_key zone) as [cached|] eqn:Ec.
  - intros [= <- <-]. split_and!; try done. by apply (lookup_weaken _ _ _ _ Ec).
  - cbv [mbind prov_bind mret prov_ret]. destruct (call _ _ _ _ _ (p, s)) as [[zs|e] [p1 s1]] eqn:E; [|done].
    apply call_Ok in E as (-> & ra & Hx & Ho).
    pose proof (zone_doc (zone_key zone) (sent_headers (request p [] (apiBase ++ go "/zones?name=" ++ QueryEscape (zone_key zone)) None)) s) as Hd.
    change (MkWire (go "GET") _ _ []) with (sent (request p [] (apiBase ++ go "/zones?name=" ++ QueryEscape (zone_key zone)) None)) in Hd.
    rewrite Hx in Hd. destruct Hd as (Hz & Hr & Hzs). specialize (Hzs zs Ho).
    destruct zs as [|z zs]; [done|]. apply Forall_cons in Hzs as [[Hn Hi] _].
    unfold cacheZone. intros [= <- <-]. cbn [fst snd zoneIDs]. rewrite Hz. split_and!; try done.
    rewrite Hn. by apply insert_subseteq_l.
Qed.

Lemma AddRecord_Ok zone r ps id ps' :
  cache_ok ps -> AddRecord zone r ps = (Ok id, ps') ->
  cache_ok ps' /\ x2f ∉ id /\ exists zid body, zones ps.2 !! zone_key zone = Some zid /\ recordBody zone r = Ok body
  /\ recs ps.2 !! id = None /\ recs ps'.2 = <[id := (zid, json_text (map_json body))]> (recs ps.2)
  /\ zones ps'.2 = zones ps.2.
Proof.
  intros Hc. unfold AddRecord. cbv [mbind prov_bind mret prov_ret].
  destruct (zoneID zone ps) as [[zid|e] ps1] eqn:Ez; [|done].
  destruct (zoneID_Ok _ _ _ _ Hc Ez) as (Hc1 & Hr1 & Hz1 & Hzid & _).
  unfold of_res. destruct (recordBody zone r) as [body|e]; [|done].
  destruct ps1 as [p1 s1], ps' as [p2 s2]. intros (-> & ra & Hx & Ho)%call_Ok.
  pose proof (add_doc zid (sent_headers (request p1 (go "POST") (records_url zid) (Some (map_json body)))) (json_text (map_json body)) s1 (zone_ids _ _ _ Hzid)) as Hd.
  change (MkWire _ _ _ _) with (sent (request p1 (go "POST") (records_url zid) (Some (map_json body)))) in Hd.
  rewrite Hx in Hd. destruct Hd as (Hz & Hd). destruct (Hd _ Ho) as (Hid & Hnone & Hrecs).
  unfold cache_ok in *. cbn [fst snd] in *. rewrite Hz, Hz1 in *. split; [done|]. split; [done|]. exists zid, body.
  rewrite <- Hr1. done.
Qed.

Lemma DeleteRecord_Ok zone id ps ps' :
  cache_ok ps -> x2f ∉ id -> DeleteRecord zone id ps = (Ok tt, ps') ->
  cache_ok ps' /\ recs ps'.2 = delete id (recs ps.2) /\ zones ps'.2 = zones ps.2
  /\ exists zid body, zones ps.2 !! zone_key zone = Some zid /\ recs ps.2 !! id = Some (zid, body).
Proof.
  intros Hc Hid. unfold DeleteRecord. cbv [mbind prov_bind mret prov_ret].
  destruct (zoneID zone ps) as [[zid|e] ps1] eqn:Ez; [|done].
  destruct (zoneID_Ok _ _ _ _ Hc Ez) as (Hc1 & Hr1 & Hz1 & Hzid & _).
  destruct ps1 as [p1 s1], ps' as [p2 s2]. intros (-> & ra & Hx & Ho)%call_Ok.
  pose proof (delete_doc zid id (sent_headers (request p1 (go "DELETE") (record_url zid id) None)) s1 (zone_ids _ _ _ Hzid) Hid) as Hd.
  change (MkWire _ _ _ _) with (sent (request p1 (go "DELETE") (record_url zid id) None)) in Hd.
  rewrite Hx in Hd. destruct Hd as (Hz & Hd). destruct Hd as ((body & Hb) & Hrecs); [by rewrite Ho|].
  unfold cache_ok in *. cbn [fst snd] in *. rewrite Hz, Hz1, Hr1 in *. split_and!; [done|done|done|].
  by exists zid, body.
Qed.
Definition proxied_of (body : bytes) : option bool := json_parse body ≫= decode_proxied.

Lemma recordBody_proxied zone r body :
  recordBody zone r = Ok body -> proxiable (Type' r) = true -> body !! go "proxied" = Some (JBool (default false (Proxied r))).
Proof.
  unfold recordBody. intros H Hp. destruct (Validate r); [|done]. case_match; [done|].
  rewrite Hp in H. apply (inj Ok) in H. rewrite <- H. apply lookup_insert_eq.
Qed.

Lemma current_proxied_Ok zid r r' ps ps' :
  x2f ∉ zid -> x2f ∉ ID r ->
  cache_ok ps -> Proxied r = None -> proxiable (Type' r) = true ->
  current_proxied zid r ps = (Ok r', ps') ->
  cache_ok ps' /\ recs ps'.2 = recs ps.2 /\ zones ps'.2 = zones ps.2
  /\ (r' = r \/ exists b body, r' = with_proxied (Some b) r /\ recs ps.2 !! ID r = Some (zid, body) /\ proxied_of body = Some b).
Proof.
  intros Hslash Hid0 Hc Hnone Hp. unfold current_proxied. rewrite Hnone, Hp. cbn [bool_decide andb].
  destruct ps as [p s], ps' as [p2 s2].
  destruct (recordByID zid (ID r) (p, s)) as [res [p1 s1]] eqn:E.
  pose proof E as (-> & Hs)%call_state.
  pose proof (get_doc zid (ID r) (sent_headers (request p (go "GET") (record_url zid (ID r)) None)) s Hslash Hid0) as Hd.
  change (MkWire _ _ _ _) with (sent (request p (go "GET") (record_url zid (ID r)) None)) in Hd.
  assert (zones s1 = zones s /\ recs s1 = recs s) as [Hz Hr].
  { destruct Hs as [->|[ra Hs]]; [done|]. rewrite Hs in Hd. by destruct Hd as (? & ? & _). }
  destruct res as [b|e]; intros [= <- <- <-]; unfold cache_ok in *; cbn [fst snd] in *; rewrite Hz, Hr.
  - split_and!; [done|done|done|]. right. apply call_Ok in E as (_ & ra & Hx & Ho). rewrite Hx in Hd.
    destruct Hd as (_ & _ & Hd). destruct (Hd b Ho) as (body & H1 & H2). by exists b, body.
  - split_and!; [done|done|done|]. by left.
Qed.

(** Updating a record that may be proxied, without saying whether it is,
    keeps it as it was: after a successful update the service holds, under the
    same id and zone, the body of the new record, whose [proxied] is what the
    service said of the old one; only when the service would not say is it
    false. *)
Theorem UpdateRecord_keeps_proxied zone r ps ps' :
  x2f ∉ ID r -> cache_ok ps -> Proxied r = None -> proxiable (Type' r) = true ->
  UpdateRecord zone r ps = (Ok tt, ps') ->
  cache_ok ps' /\ exists zid old body b,
    zones ps.2 !! zone_key zone = Some zid /\ recs ps.2 !! ID r = Some (zid, old)
    /\ recs ps'.2 = <[ID r := (zid, json_text (map_json body))]> (recs ps.2)
    /\ recordBody zone (with_proxied (Some b) r) = Ok body /\ body !! go "proxied" = Some (JBool b)
    /\ (proxied_of old = Some b \/ b = false).
Proof.
  intros Hid0 Hc Hnone Hp. unfold UpdateRecord. case_match; [done|]. cbv [mbind prov_bind mret prov_ret].
  destruct (zoneID zone ps) as [[zid|e] ps1] eqn:Ez; [|done].
  destruct (zoneID_Ok _ _ _ _ Hc Ez) as (Hc1 & Hr1 & Hz1 & Hzid & _).
  pose proof (zone_ids _ _ _ Hzid) as Hslash.
  destruct (current_proxied zid r ps1) as [[r'|e] ps2] eqn:Er; [|done].
  destruct (current_proxied_Ok _ _ _ _ _ Hslash Hid0 Hc1 Hnone Hp Er) as (Hc2 & Hr2 & Hz2 & Hr').
  assert (ID r' = ID r /\ proxiable (Type' r') = true
    /\ recordBody zone r' = recordBody zone (with_proxied (Some (default false (Proxied r'))) r)) as (Hid & Hp' & Hbody).
  { destruct Hr' as [->|(b & body & -> & _)]; [|done]. split_and!; [done|done|]. rewrite Hnone.
    unfold recordBody. cbn [default with_proxied Proxied Type' Value Line TTL Remark Priority Name]. by rewrite Hnone. }
  unfold of_res. destruct (recordBody zone r') as [body|e] eqn:Eb; [|done].
  destruct ps2 as [p2 s2], ps' as [p3 s3]. rewrite Hid. intros (-> & ra & Hx & Ho)%call_Ok.
  pose proof (update_doc zid (ID r) (sent_headers (request p2 (go "PUT") (record_url zid (ID r)) (Some (map_json body)))) (json_text (map_json body)) s2 Hslash Hid0) as Hd.
  change (MkWire _ _ _ _) with (sent (request p2 (go "PUT") (record_url zid (ID r)) (Some (map_json body)))) in Hd.
  rewrite Hx in Hd. destruct Hd as (Hz & Hd). destruct Hd as ((old & Hold) & Hrecs); [by rewrite Ho|].
  unfold cache_ok in *. cbn [fst snd] in *. rewrite Hz, Hz2, Hz1 in *. split; [done|].
  exists zid, old, body, (default false (Proxied r')). rewrite Hrecs, Hr2, Hr1 in *. split_and!; try done.
  - by apply (recordBody_proxied zone).
  - destruct Hr' as [->|(b & obody & -> & Ho1 & Ho2)]; [right; by rewrite Hnone|]. left. cbn. congruence.
Qed.
Lemma recordBody_fields zone r body :
  recordBody zone r = Ok body ->
  body !! go "type" = Some (JString (Type' r)) /\ body !! go "name" = Some (JString (record_name zone r))
  /\ body !! go "content" = Some (JString (Value r)).
Proof.
  unfold recordBody. intros H. destruct (Validate r); [|done]. case_match; [done|]. apply (inj Ok) in H. rewrite <- H.
  by repeat case_match; rewrite ?lookup_insert_ne by done.
Qed.

(** A challenge presented to Cloudflare is one new record: when presenting
    succeeds the account has the records it had and, under an id none had, a TXT
    record with the value of the challenge in the zone of the solver, whose name
    is the full name of the challenge unless its relative name ends like the
    zone; and cleaning up after it, when that succeeds, leaves exactly the
    records there were. *)
Theorem challenge_round_trip fqdn value sv ps sv' ps' :
  cache_ok ps -> Present fqdn value sv ps = (Ok tt, sv', ps') ->
  let r := challenge_record MinTTL (zone sv) fqdn value in
  exists zid id body,
    zones ps.2 !! zone_key (zone sv) = Some zid /\ recs ps.2 !! id = None
    /\ recs ps'.2 = <[id := (zid, json_text (map_json body))]> (recs ps.2)
    /\ body !! go "type" = Some (JString TypeTXT) /\ body !! go "content" = Some (JString value)
    /\ (Name r <> go "@" -> Name r <> [] -> HasSuffix (Name r) (zone sv) = false ->
        body !! go "name" = Some (JString (Name r ++ go "." ++ zone sv)))
    /\ forall sv'' ps'', CleanUp fqdn value sv' ps' = (Ok tt, sv'', ps'') -> recs ps''.2 = recs ps.2.
Proof.
  intros Hc. unfold Present. cbv zeta. set (r := challenge_record MinTTL (zone sv) fqdn value).
  destruct (Dns.AddRecord (zone sv) r ps) as [[id|e] ps1] eqn:Ha; [|done]. intros [= <- <-].
  destruct (AddRecord_Ok (zone sv) r ps id ps1 Hc Ha) as (Hc1 & Hid & zid & body & Hzid & Hb & Hnone & Hrecs & Hz).
  destruct (recordBody_fields _ _ _ Hb) as (Ht & Hn & Hv).
  exists zid, id, body. split_and!; [done|done|done|done|done| |].
  - intros H1 H2 H3. rewrite Hn. unfold record_name. by rewrite !bool_decide_eq_false_2, H3 by done.
  - intros sv2 ps2. unfold CleanUp. cbn [created zone]. rewrite lookup_insert_eq.
    destruct (Dns.DeleteRecord _ _ ps1) as [[[]|e] ps3] eqn:Hd; [|done]. intros [= <- <-].
    destruct (DeleteRecord_Ok (zone sv) id ps1 ps3 Hc1 Hid Hd) as (_ & -> & _). rewrite Hrecs. by rewrite delete_insert_id.
Qed.
End client.

(** A relative name that ends like the zone goes out as it is, without the zone
    behind it. *)
Theorem suffix_name_misplaced zone r body :
  recordBody zone r = Ok body -> HasSuffix (Name r) zone = true -> Name r <> [] -> Name r <> go "@" ->
  body !! go "name" = Some (JString (Name r)) /\ (HasSuffix zone (go ".") = false -> FQDN r zone = Name r ++ go "." ++ zone).
Proof.
  intros Hb Hs H1 H2. destruct (recordBody_fields _ _ _ Hb) as (_ & -> & _). split.
  - unfold record_name. by rewrite !bool_decide_eq_false_2, Hs by done.
  - intros Hz. unfold FQDN. by rewrite !bool_decide_eq_false_2, TrimSuffix_none by done.
Qed.

Section examples.
#[local] Existing Instance no_unicode.

(** An account with the zone [example.com]; the answers are words a table reads. *)
#[local] Instance example_json : JsonText := {|
  json_text j := match j with
                 | JObject fields => concat ((fun f => f.1 ++ go "=" ++ (match f.2 with JString s => s | JBool true => go "yes" | _ => go "no" end) ++ go ";") <$> fields)
                 | _ => go "doc" end;
  json_parse b :=
    snd <$> find (fun e => bool_decide (e.1 = b))
      [(go "done", JObject [(go "success", JBool true)]);
       (go "zone", JObject [(go "success", JBool true);
                            (go "result", JArray [JObject [(go "id", JString (go "Z")); (go "name", JString (go "example.com"))]])]);
       (go "added", JObject [(go "success", JBool true); (go "result", JObject [(go "id", JString (go "new"))])]);
       (go "proxied", JObject [(go "success", JBool true); (go "result", JObject [(go "proxied", JBool true)])]);
       (go "old", JObject [(go "proxied", JBool true)])]
|}.

Abbreviation account := (gmap bytes (bytes * bytes)).

Definition says (text : string) : res bytes answer := Ok (MkAnswer 200 (go text) (Ok tt)).
Definition refuses : res bytes answer := Ok (MkAnswer 403 [] (Ok tt)).

(** The zone and the record a URL names. *)
Definition url_parts (url : bytes) : bytes * bytes :=
  let '(zid, rest, _) := Cut (TrimPrefix url (apiBase ++ go "/zones/")) (go "/") in
  (zid, TrimPrefix rest (go "dns_records/")).

Definition zones_url : bytes := apiBase ++ go "/zones?name=" ++ QueryEscape (go "example.com").

#[local] Instance example_service : Service account := {|
  exchange w s :=
    let '(zid, id) := url_parts (w_URL w) in
    if bool_decide (w_Method w = go "POST") then
      if bool_decide (w_URL w = records_url (go "Z")) && bool_decide (s !! go "new" = None)
      then (says "added", <[go "new" := (go "Z", w_Body w)]> s) else (refuses, s)
    else if bool_decide (w_URL w = zones_url) then (says "zone", s)
    else match s !! id with
         | Some (zid', old) =>
             if bool_decide (zid = zid') then
               if bool_decide (w_Method w = go "PUT") then (says "done", <[id := (zid, w_Body w)]> s)
               else if bool_decide (w_Method w = go "DELETE") then (says "done", delete id s)
               else if bool_decide (w_Method w = go "GET") && bool_decide (old = go "old") then (says "proxied", s)
               else (refuses, s)
             else (refuses, s)
         | None => (refuses, s)
         end;
  s_now _ := 0;
  s_random _ := Err []
|}.

Lemma url_parts_record zid id : x2f ∉ zid -> url_parts (record_url zid id) = (zid, id).
Proof.
  intros Hz. unfold url_parts, record_url, records_url.
  rewrite <- !app_assoc, (app_assoc apiBase), TrimPrefix_app.
  assert (forall t, Cut (zid ++ go "/dns_records" ++ t) (go "/") = (zid, go "dns_records" ++ t, true)) as ->.
  { intros t. change (go "/dns_records" ++ t) with (x2f :: go "dns_records" ++ t). by apply (Cut_app _ x2f). }
  change (go "dns_records" ++ go "/" ++ id) with (go "dns_records/" ++ id). by rewrite TrimPrefix_app.
Qed.

Lemma record_url_not_zones zid id : record_url zid id <> zones_url.
Proof. unfold record_url, records_url, zones_url. rewrite <- !app_assoc. intros E%app_inv_head. done. Qed.

Lemma zones_url_inj name : apiBase ++ go "/zones?name=" ++ QueryEscape name = zones_url -> name = go "example.com".
Proof.
  unfold zones_url. intros E%app_inv_head%app_inv_head. apply (f_equal QueryUnescape) in E.
  by rewrite !esc_decodes in E; injection E.
Qed.

Lemma outcome_refuses {A} (dec : json -> option A) zero : outcome dec zero refuses = None.
Proof. done. Qed.

#[local] Instance example_docs : CloudflareDocs account.
Proof.
  refine {| zones _ := {[ go "example.com" := go "Z" ]}; recs s := s |}.
  - intros _ name zid [<- <-]%lookup_singleton_Some. apply (bool_decide_unpack _). by vm_compute.
  - intros name h s. cbn [exchange example_service w_Method w_URL w_Body].
    destruct (url_parts _) as [zid id] eqn:Ep. rewrite (bool_decide_eq_false_2 (go "GET" = go "POST")) by done.
    destruct (decide (apiBase ++ go "/zones?name=" ++ QueryEscape name = zones_url)) as [E|E].
    + rewrite bool_decide_eq_true_2 by done. apply zones_url_inj in E as ->. split_and!; [done|done|].
      intros zs Hzs. vm_compute in Hzs. apply (inj Some) in Hzs as <-. apply Forall_singleton.
      split; [by vm_compute|by vm_compute].
    + rewrite bool_decide_eq_false_2 by done.
      destruct (s !! id) as [[zid' old]|]; [|by split_and!].
      destruct (bool_decide (zid = zid')); [|by split_and!].
      rewrite (bool_decide_eq_false_2 (go "GET" = go "PUT")), (bool_decide_eq_false_2 (go "GET" = go "DELETE")) by done.
      rewrite bool_decide_eq_true_2 by done. cbn [andb]. destruct (bool_decide (old = go "old")); [|by split_and!].
      split_and!; [done|done|]. intros zs Hzs. by vm_compute in Hzs.
  - intros zid h body s Hz. cbn [exchange example_service w_Method w_URL w_Body]. destruct (url_parts _).
    rewrite bool_decide_eq_true_2 by done.
    destruct (bool_decide (records_url zid = records_url (go "Z"))) eqn:E; cbn [andb]; [|by split].
    apply bool_decide_eq_true_1 in E. unfold records_url in E. apply app_inv_head, app_inv_head, app_inv_tail in E as ->.
    destruct (bool_decide (s !! go "new" = None)) eqn:En; [|by split]. apply bool_decide_eq_true_1 in En.
    split; [done|]. intros id Hid. vm_compute in Hid. apply (inj Some) in Hid as <-.
    split_and!; [|exact En|done]. apply (bool_decide_unpack _). by vm_compute.
  - intros zid id h s Hz Hi. cbn [exchange example_service w_Method w_URL w_Body]. rewrite url_parts_record by done.
    rewrite (bool_decide_eq_false_2 (go "GET" = go "POST")), (bool_decide_eq_false_2 _ (record_url_not_zones zid id)) by done.
    destruct (s !! id) as [[zid' old]|] eqn:Es; [|by split_and!].
    destruct (bool_decide (zid = zid')) eqn:Ez; [|by split_and!]. apply bool_decide_eq_true_1 in Ez as <-.
    rewrite (bool_decide_eq_false_2 (go "GET" = go "PUT")), (bool_decide_eq_false_2 (go "GET" = go "DELETE")) by done.
    rewrite bool_decide_eq_true_2 by done. cbn [andb].
    destruct (bool_decide (old = go "old")) eqn:Eo; [|by split_and!]. apply bool_decide_eq_true_1 in Eo as ->.
    split_and!; [done|done|]. intros b Hb. vm_compute in Hb. apply (inj Some) in Hb as <-. exists (go "old").
    split; [done|by vm_compute].
  - intros zid id h body s Hz Hi. cbn [exchange example_service w_Method w_URL w_Body]. rewrite url_parts_record by done.
    rewrite (bool_decide_eq_false_2 (go "PUT" = go "POST")), (bool_decide_eq_false_2 _ (record_url_not_zones zid id)) by done.
    destruct (s !! id) as [[zid' old]|] eqn:Es; [|split; [done|by intros [? ?]]].
    destruct (bool_decide (zid = zid')) eqn:Ez; [|split; [done|by intros [? ?]]]. apply bool_decide_eq_true_1 in Ez as <-.
    rewrite bool_decide_eq_true_2 by done. split; [done|]. intros _. split; [by exists old|done].
  - intros zid id h s Hz Hi. cbn [exchange example_service w_Method w_URL w_Body]. rewrite url_parts_record by done.
    rewrite (bool_decide_eq_false_2 (go "DELETE" = go "POST")), (bool_decide_eq_false_2 _ (record_url_not_zones zid id)) by done.
    destruct (s !! id) as [[zid' old]|] eqn:Es; [|split; [done|by intros [? ?]]].
    destruct (bool_decide (zid = zid')) eqn:Ez; [|split; [done|by intros [? ?]]]. apply bool_decide_eq_true_1 in Ez as <-.
    rewrite (bool_decide_eq_false_2 (go "DELETE" = go "PUT")), bool_decide_eq_true_2 by done.
    split; [done|]. intros _. split; [by exists old|done].
Defined.
Definition example_provider : provider :=
  new_provider {[ go "auth" := go "token"; go "api_token" := go "t" ]}.

Definition example_account : account := {[ go "r1" := (go "Z", go "old") ]}.

Lemma challenge_round_trip_witness :
  let sv := NewSolver (go "example.com") in
  let '(_, sv', ps') := Present (go "www.example.com") (go "v") sv (example_provider, example_account) in
  (let r := challenge_record MinTTL (zone sv) (go "www.example.com") (go "v") in
   exists zid id body,
     zones example_account !! zone_key (zone sv) = Some zid /\ recs example_account !! id = None
     /\ recs ps'.2 = <[id := (zid, json_text (map_json body))]> (recs example_account)
     /\ body !! go "type" = Some (JString TypeTXT) /\ body !! go "content" = Some (JString (go "v"))
     /\ (Name r <> go "@" -> Name r <> [] -> HasSuffix (Name r) (zone sv) = false ->
         body !! go "name" = Some (JString (Name r ++ go "." ++ zone sv)))
     /\ forall sv'' ps'', CleanUp (go "www.example.com") (go "v") sv' ps' = (Ok tt, sv'', ps'') -> recs ps''.2 = recs example_account)
  /\ (CleanUp (go "www.example.com") (go "v") sv' ps').1.1 = Ok tt.
Proof.
  cbv zeta. destruct (Present _ _ _ _) as [[r sv'] ps'] eqn:E.
  assert (r = Ok tt) as ->.
  { assert ((Present (go "www.example.com") (go "v") (NewSolver (go "example.com")) (example_provider, example_account)).1.1 = Ok tt)
      as H by (by vm_compute). by rewrite E in H. }
  split.
  - refine (challenge_round_trip (Docs := example_docs) (go "www.example.com") (go "v") _ (example_provider, example_account) sv' ps' _ E).
    apply map_empty_subseteq.
  - apply (f_equal (fun x => (CleanUp (go "www.example.com") (go "v") x.1.2 x.2).1.1)) in E. cbn [fst snd] in E.
    rewrite <- E. by vm_compute.
Defined.

Definition example_update : DnsRecord :=
  MkRecord (go "r1") (go "www") (go "A") (go "192.0.2.1") 300 LineDefault 0 0 [] true None.

Lemma UpdateRecord_keeps_proxied_witness :
  let '(res, ps') := UpdateRecord (go "example.com") example_update (example_provider, example_account) in
  res = Ok tt
  /\ cache_ok ps' /\ exists zid old body b,
    zones example_account !! zone_key (go "example.com") = Some zid /\ recs example_account !! ID example_update = Some (zid, old)
    /\ recs ps'.2 = <[ID example_update := (zid, json_text (map_json body))]> (recs example_account)
    /\ recordBody (go "example.com") (with_proxied (Some b) example_update) = Ok body /\ body !! go "proxied" = Some (JBool b)
    /\ (proxied_of old = Some b \/ b = false).
Proof.
  destruct (UpdateRecord _ _ _) as [res ps'] eqn:E.
  assert (res = Ok tt) as ->.
  { assert ((UpdateRecord (go "example.com") example_update (example_provider, example_account)).1 = Ok tt) as H by (by vm_compute).
    by rewrite E in H. }
  split; [done|].
  refine (UpdateRecord_keeps_proxied (Docs := example_docs) (go "example.com") example_update (example_provider, example_account) ps' _ _ _ _ E).
  - apply (bool_decide_unpack _). by vm_compute.
  - apply map_empty_subseteq.
  - done.
  - done.
Defined.
End examples.
