(* ===== verification/Huawei.v ===== *)
(** The Huawei Cloud DNS client: [internal/dns/providers/huawei/huawei.go]. *)
From S2P Require Import Prelude GoStrings Schema Dns Url Protocol Http Clock CloudApi.

Definition providerKey : bytes := go "huawei".

Record provider := MkProvider { keyID : bytes; secret : bytes; endpoint : bytes; zoneIDs : gmap bytes bytes }.

(** The factory of the registration. *)
Definition new_provider (values : gmap bytes bytes) : provider :=
  MkProvider (values !!! go "access_key_id") (values !!! go "secret_access_key")
    (match values !!! go "endpoint" with [] => go "dns.myhuaweicloud.com" | e => e end) ∅.

(** [strings.Trim(value, quote)] *)
Fixpoint trim_quotes_left (s : bytes) : bytes := match s with x22 :: r => trim_quotes_left r | s => s end.
Definition trim_quotes (s : bytes) : bytes := reverse (trim_quotes_left (reverse (trim_quotes_left s))).

Definition setID (id : bytes) : bytes := match IndexByte id x23 with Some i => take i id | None => id end.

Definition quoteForType (r : DnsRecord) : bytes :=
  if negb (bool_decide (Type' r = TypeTXT)) then Value r
  else if HasPrefix (Value r) [x22] then Value r
  else [x22] ++ Value r ++ [x22].

Record recordset := MkSet {
  s_ID : bytes; s_Name : bytes; s_Type : bytes; s_TTL : Z; s_Records : list bytes; s_Line : bytes;
  s_Status : bytes; s_Description : bytes; s_Weight : Z
}.

Section operations.
Context `{U : Unicode} `{UU : UnicodeUpper} `{HM : Hmac} `{HS : Hashes} `{JT : JsonText} {S : Type} `{Sv : Service S}.
(** The order in which [LineFromProvider] walks its table. *)
Context (order : list (bytes * bytes) -> list (bytes * bytes)).

Abbreviation hw := (prov (provider * S)).

(** The request of [call], signed at the time [now]. *)
Definition prepare (p : provider) (now : Z) (method path : bytes) (query : Values) (body : option json) : res dnserr Request :=
  let rawURL := go "https://" ++ endpoint p ++ path ++ (if bool_decide (query = ∅) then [] else go "?" ++ Encode query) in
  let req := MkRequest method rawURL ∅ [] in
  let req := match body with Some j => JSONBody j req | None => req end in
  match Parse rawURL with
  | None => Err (ErrProvider (go "parse url"))
  | Some target =>
      let h := if bool_decide (r_Body req = []) then ∅ else Header_Set ∅ (go "Content-Type") (go "application/json") in
      match SignSigV4 HuaweiProfile now (MkSigV4 method (Some target) h (r_Body req) (keyID p) (secret p) [] [] 0) with
      | None => Err (ErrProvider (go "cloudapi: no URL to sign"))
      | Some signing => Ok (MkRequest method rawURL (header_map (Headers signing)) (r_Body req))
      end
  end.

Definition call {A : Type} (method path : bytes) (query : Values) (body : option json) (decode : json -> option A) (zero : A) : hw A :=
  fun ps => (req ← of_res (prepare ps.1 (s_now ps.2) method path query body); do_json req decode zero) ps.

(** [call] with no value to fill. *)
Definition call_nil (method path : bytes) (query : Values) (body : option json) : hw unit :=
  fun ps => (req ← of_res (prepare ps.1 (s_now ps.2) method path query body); do_nil req) ps.

Definition Check : hw unit :=
  wrap_error (fun e => match e with
                       | ErrProvider t => ErrProvider (go "huawei: credentials rejected: " ++ t)
                       | e => e end)
    (call (go "GET") (go "/v2/zones") {[ go "limit" := [go "1"] ]} None (as_struct (fun _ => Some tt)) tt).

Definition cacheZone (name id : bytes) : hw unit := fun '(p, s) =>
  (Ok tt, (MkProvider (keyID p) (secret p) (endpoint p) (<[ToLower (TrimSuffix name (go ".")) := id]> (zoneIDs p)), s)).

Definition decode_zone : json -> option (bytes * bytes * Z) :=
  as_struct (fun fields =>
    id ← field "id" as_string fields; name ← field "name" as_string fields;
    count ← field "record_num" as_int fields; Some (id, name, count)).

Definition decode_zones {A : Type} (zone : json -> option A) : json -> option (list A) := as_struct (field "zones" (as_list zone)).

Definition page_values (opts : ListOptions) : Values :=
  {[ go "limit" := [Itoa (PageSize opts)]; go "offset" := [Itoa (i64 (i64 (Page opts - 1) * PageSize opts))] ]}.

Definition ListDomains (opts : ListOptions) : hw (list Domain) :=
  let opts := ListOptions_Normalise opts in
  let query := page_values opts in
  let query := if bool_decide (Keyword opts = []) then query else Values_Set query (go "name") (Keyword opts) in
  zones ← call (go "GET") (go "/v2/zones") query None (decode_zones decode_zone) [];
  each (fun z => let name := TrimSuffix z.1.2 (go ".") in _ ← cacheZone name z.1.1; mret (MkDomain z.1.1 name z.2)) zones.

Definition decode_zone_id : json -> option (bytes * bytes) :=
  as_struct (fun fields => id ← field "id" as_string fields; name ← field "name" as_string fields; Some (id, name)).

Definition zoneID (zone : bytes) : hw bytes := fun '(p, s) =>
  let key := ToLower (TrimSuffix zone (go ".")) in
  match zoneIDs p !! key with
  | Some id => (Ok id, (p, s))
  | None =>
      (zones ← call (go "GET") (go "/v2/zones") {[ go "name" := [key ++ go "."] ]} None (decode_zones decode_zone_id) [];
       match find (fun z => bool_decide (TrimSuffix (ToLower z.2) (go ".") = key)) zones with
       | Some z => _ ← cacheZone key z.1; mret z.1
       | None => pfail (ErrProvider (go "huawei: zone is not in this account"))
       end) (p, s)
  end.

Definition decode_set : json -> option recordset :=
  as_struct (fun fields =>
    id ← field "id" as_string fields; name ← field "name" as_string fields; kind ← field "type" as_string fields;
    ttl ← field "ttl" as_int fields; records ← field "records" (as_list as_string) fields;
    line ← field "line" as_string fields; status ← field "status" as_string fields;
    description ← field "description" as_string fields; weight ← field "weight" as_int fields;
    Some (MkSet id name kind ttl records line status description weight)).

(** A record for every value of a set. *)
Definition set_records (zone : bytes) (set : recordset) : list DnsRecord :=
  imap (fun index value =>
    MkRecord (s_ID set ++ go "#" ++ Itoa (Z.of_nat index)) (NormaliseName (s_Name set) zone) (s_Type set)
      (trim_quotes value) (s_TTL set) (LineFromProvider order providerKey (s_Line set)) 0 (s_Weight set)
      (s_Description set) (negb (bool_decide (s_Status set = go "DISABLE"))) None) (s_Records set).

Definition ListRecords (zone : bytes) (opts : ListOptions) : hw (list DnsRecord) :=
  let opts := ListOptions_Normalise opts in
  id ← zoneID zone;
  let query := page_values opts in
  let query := if bool_decide (lo_Type opts = []) then query else Values_Set query (go "type") (lo_Type opts) in
  sets ← call (go "GET") (go "/v2.1/zones/" ++ id ++ go "/recordsets") query None
           (as_struct (field "recordsets" (as_list decode_set))) [];
  mret (concat (set_records zone <$> sets)).

Definition ttl_or_default (r : DnsRecord) : Z := if TTL r <=? 0 then 300 else TTL r.

Definition add_body (zone line : bytes) (r : DnsRecord) : gmap bytes json :=
  let body : gmap bytes json :=
    {[ go "name" := JString (FQDN r zone ++ go "."); go "type" := JString (Type' r); go "ttl" := JInt (ttl_or_default r);
       go "records" := JArray [JString (quoteForType r)]; go "line" := JString line ]} in
  if bool_decide (Remark r = []) then body else <[go "description" := JString (Remark r)]> body.

Definition AddRecord (zone : bytes) (r : DnsRecord) : hw bytes :=
  _ ← of_res (Validate r);
  id ← zoneID zone;
  match ProviderLine providerKey (Line r) with
  | None => pfail (ErrProvider (go "huawei: does not support the " ++ Label (Line r) ++ go " line"))
  | Some line =>
      id ← call (go "POST") (go "/v2.1/zones/" ++ id ++ go "/recordsets") ∅ (Some (map_json (add_body zone line r)))
             (as_struct (field "id" as_string)) [];
      mret (id ++ go "#0")
  end.

Definition update_body (r : DnsRecord) : gmap bytes json :=
  let body : gmap bytes json := {[ go "ttl" := JInt (ttl_or_default r); go "records" := JArray [JString (quoteForType r)] ]} in
  if bool_decide (Remark r = []) then body else <[go "description" := JString (Remark r)]> body.

Definition UpdateRecord (zone : bytes) (r : DnsRecord) : hw unit :=
  if bool_decide (ID r = []) then pfail (ErrProvider (go "huawei: cannot update a record without an ID"))
  else
    _ ← of_res (Validate r);
    id ← zoneID zone;
    call_nil (go "PUT") (go "/v2.1/zones/" ++ id ++ go "/recordsets/" ++ setID (ID r)) ∅ (Some (map_json (update_body r))).

Definition DeleteRecord (zone recordID : bytes) : hw unit :=
  id ← zoneID zone;
  call_nil (go "DELETE") (go "/v2.1/zones/" ++ id ++ go "/recordsets/" ++ setID recordID) ∅ None.

Definition SetRecordStatus (zone recordID : bytes) (enabled : bool) : hw unit :=
  call_nil (go "PUT") (go "/v2.1/recordsets/" ++ setID recordID ++ go "/statuses/set") ∅
    (Some (map_json {[ go "status" := JString (if enabled then go "ENABLE" else go "DISABLE") ]})).

(** What the ACME bridge uses of the provider. *)
#[export] Instance huawei_provider : Provider (provider * S) := {
  MinTTL := 1;
  Dns.AddRecord := AddRecord;
  Dns.DeleteRecord := DeleteRecord;
  Dns.ListDomains opts ps := (ListDomains opts ps).1
}.

(** ** Every request is signed *)

Lemma huawei_headers (target : URL) (body : bytes) (now : Z) (h : Header) :
  h = (if bool_decide (body = []) then ∅ else Header_Set ∅ (go "Content-Type") (go "application/json")) ->
  forall k, is_Some (date_headers HuaweiProfile now (Header_Set h (go "Host") (Host target)) !! k) ->
  k ∈ [go "Content-Type"; go "Host"; go "X-Sdk-Date"].
Proof.
  intros -> k. unfold date_headers. cbn [DateHeader DateFormat TimestampHeader HuaweiProfile].
  assert (negb (bool_decide (go "X-Sdk-Date" = [])) && negb (bool_decide (go "20060102T150405Z" = [])) = true) as -> by done.
  assert (negb (bool_decide (([] : bytes) = [])) = false) as -> by done.
  unfold Header_Set.
  intros [<-|[_ [<-|[_ H]]%lookup_insert_is_Some]]%lookup_insert_is_Some; [apply (bool_decide_unpack _); by vm_compute..|].
  destruct (bool_decide (body = [])); [by rewrite lookup_empty in H; destruct H|].
  apply lookup_insert_is_Some in H as [<-|[_ H]]; [apply (bool_decide_unpack _); by vm_compute|].
  by rewrite lookup_empty in H; destruct H.
Qed.

(** Every request to Huawei can be checked by the service: what goes out has
    the date of its making in [X-Sdk-Date], the authorization that the service
    computes from what it receives (its method, path, query and body, and the
    headers the authorization names), and the host and the date are among those
    headers, whatever the credentials, the request and its body. *)
Theorem prepare_signed p now method path query body req :
  prepare p now method path query body = Ok req -> method <> [] ->
  exists names account,
    expected_authorization HuaweiProfile account now names (sent req) = Some (Header_Get (w_Header (sent req)) (go "Authorization"))
    /\ AccessKey account = keyID p /\ SecretKey account = secret p
    /\ go "host" ∈ names /\ go "x-sdk-date" ∈ names
    /\ Header_Get (w_Header (sent req)) (go "X-Sdk-Date") = Format now (go "20060102T150405Z").
Proof.
  unfold prepare. set (rawURL := go "https://" ++ _). intros H Hm.
  destruct (Parse rawURL) as [u|] eqn:Hu; [|done]. cbv zeta in H.
  set (b := r_Body (match body with Some j => JSONBody j (MkRequest method rawURL ∅ []) | None => MkRequest method rawURL ∅ [] end)) in *.
  set (h0 := if bool_decide (b = []) then ∅ else Header_Set ∅ (go "Content-Type") (go "application/json")) in *.
  unfold SignSigV4 in H. cbn [sv_URL Now] in H. change (IsZero 0) with true in H. cbv iota in H.
  set (hd := date_headers HuaweiProfile now _) in H.
  set (acct := with_headers hd _) in H. apply (inj Ok) in H. subst req.
  exists (signed_names HuaweiProfile (Headers acct)), acct.
  pose proof (huawei_headers u b now h0 eq_refl) as Hnames. fold hd in Hnames.
  assert (sendable (Headers acct)) as Hs.
  { apply (sendable_of_names [go "Content-Type"; go "Host"; go "X-Sdk-Date"]); [by vm_compute|exact Hnames]. }
  set (req := MkRequest _ _ _ _).
  assert (w_Header (sent req) = set_headers (map_to_list (header_map (<[go "Authorization" := [authorization HuaweiProfile now u acct]]> (Headers acct))))
     (Header_Set (Header_Set ∅ (go "User-Agent") UserAgent) (go "Accept") (go "application/json"))) as Hw by done.
  assert (is_Some (hd !! go "Host") /\ hd !! go "X-Sdk-Date" = Some [Format now (go "20060102T150405Z")]) as [Hhost Hdate].
  { subst hd. split; [|apply lookup_insert_eq]. apply lookup_insert_is_Some'. right. apply lookup_insert_is_Some'. by left. }
  split_and!; [|done|done| | |].
  - apply (signed_request_expected HuaweiProfile now u acct (Header_Set (Header_Set ∅ (go "User-Agent") UserAgent) (go "Accept") (go "application/json")));
      [done|done| |done|done|].
    + unfold sent, sent_method. cbn. by destruct method.
    + intros k Hk. specialize (Hnames k Hk). intros E.
      rewrite !elem_of_cons in Hnames. destruct Hnames as [->|[->|[->|Hn]]]; [by vm_compute in E..|by apply not_elem_of_nil in Hn].
  - apply signed_names_spec. split; [done|]. exists (go "Host"). by split.
  - apply signed_names_spec. split; [done|]. exists (go "X-Sdk-Date"). split; [by eexists; exact Hdate|done].
  - rewrite Hw. erewrite (header_map_sent _ _ (go "X-Sdk-Date")); [| | |done].
    + unfold Header_Get, Values_Get. change (CanonicalMIMEHeaderKey (go "X-Sdk-Date")) with (go "X-Sdk-Date").
      rewrite lookup_insert_ne by done. change (Headers acct) with hd. by rewrite Hdate.
    + apply (sendable_of_names [go "Authorization"; go "Content-Type"; go "Host"; go "X-Sdk-Date"]); [by vm_compute|].
      intros k [<-|[_ Hk]]%lookup_insert_is_Some; [by left|]. right. by apply Hnames.
    + apply lookup_insert_is_Some'. right. eexists. exact Hdate.
Qed.
End operations.

Section values_of_a_set.
Context `{U : Unicode} `{UU : UnicodeUpper} `{HM : Hmac} `{HS : Hashes} `{JT : JsonText} {S : Type} `{Sv : Service S}.
Context (order : list (bytes * bytes) -> list (bytes * bytes)).

Lemma setID_of id n : x23 ∉ id -> setID (id ++ go "#" ++ n) = id.
Proof.
  intros H. unfold setID. change (go "#" ++ n) with (x23 :: n).
  rewrite IndexByte_app by done. by rewrite take_app_length.
Qed.

(** Deleting one value of a record set deletes the set: the records listed for
    the values of a set are all deleted by one and the same request. *)
Theorem value_deletes_whole_set zone set r r' zone' (ps : provider * S) :
  x23 ∉ s_ID set -> r ∈ set_records order zone set -> r' ∈ set_records order zone set ->
  DeleteRecord zone' (ID r) ps = DeleteRecord zone' (ID r') ps.
Proof.
  intros Hid. unfold set_records. rewrite !elem_of_lookup_imap.
  intros (i & v & -> & _) (j & w & -> & _). unfold DeleteRecord. cbn [ID]. by rewrite !setID_of.
Qed.
End values_of_a_set.

Section examples.
#[local] Existing Instance no_unicode.
#[local] Existing Instance ascii_upper.
#[local] Existing Instance toy_hmac.
#[local] Existing Instance toy_hashes.
#[local] Instance example_text : JsonText := table_text [].

Definition example_provider : provider :=
  new_provider {[ go "access_key_id" := go "AK"; go "secret_access_key" := go "SK" ]}.

Definition example_now : Z := (1551113065 + unixToInternal) * Second.

Definition example_prepared : res dnserr Request :=
  prepare example_provider example_now (go "POST") (go "/v2.1/zones/z1/recordsets") ∅
    (Some (map_json {[ go "name" := JString (go "www.example.com.") ]})).

Lemma prepare_signed_witness :
  exists req, example_prepared = Ok req
  /\ (exists names account,
    expected_authorization HuaweiProfile account example_now names (sent req) = Some (Header_Get (w_Header (sent req)) (go "Authorization"))
    /\ AccessKey account = go "AK" /\ SecretKey account = go "SK"
    /\ go "host" ∈ names /\ go "x-sdk-date" ∈ names
    /\ Header_Get (w_Header (sent req)) (go "X-Sdk-Date") = Format example_now (go "20060102T150405Z"))
  /\ Header_Get (w_Header (sent req)) (go "X-Sdk-Date") = go "20190225T164425Z".
Proof.
  assert (is_ok example_prepared = true) as Hok by (by vm_compute).
  destruct example_prepared as [req|e] eqn:E; [|done]. exists req. split; [done|]. split.
  - apply (prepare_signed example_provider example_now (go "POST") (go "/v2.1/zones/z1/recordsets") ∅
      (Some (map_json {[ go "name" := JString (go "www.example.com.") ]})) req E). done.
  - assert (Header_Get (w_Header (match example_prepared with Ok req => sent req | Err _ => MkWire [] [] ∅ [] end)) (go "X-Sdk-Date")
      = go "20190225T164425Z") as H by (by vm_compute). by rewrite E in H.
Defined.
End examples.
