(* ===== verification/Dnspod.v ===== *)
(** The DNSPod client of Tencent Cloud: [internal/dns/providers/dnspod/dnspod.go]. *)
From S2P Require Import Prelude GoStrings Schema Dns Url Protocol Http Clock CloudApi.

Definition providerKey : bytes := go "dnspod".
Definition endpoint : bytes := go "dnspod.tencentcloudapi.com".
Definition service : bytes := go "dnspod".
Definition apiVersion : bytes := go "2021-03-23".

Record provider := MkProvider { secretID : bytes; secretKey : bytes }.

(** The factory of the registration. *)
Definition new_provider (values : gmap bytes bytes) : provider :=
  MkProvider (values !!! go "secret_id") (values !!! go "secret_key").

(** [strconv.ParseUint(s, 10, 64)] and [strconv.FormatUint]. *)
Definition ParseUint64 (s : bytes) : option Z :=
  n ← parse_uint s; if Z.of_N n <? 2 ^ 64 then Some (Z.of_N n) else None.
Definition FormatUint (n : Z) : bytes := utoa (Z.to_N n).

Definition lineName (line : bytes) : bytes :=
  if bool_decide (line = LineTelecom) then go "电信"
  else if bool_decide (line = LineUnicom) then go "联通"
  else if bool_decide (line = LineMobile) then go "移动"
  else if bool_decide (line = LineOverseas) then go "境外"
  else go "默认".

Section operations.
Context `{U : Unicode} `{UU : UnicodeUpper} `{HM : Hmac} `{HS : Hashes} `{JT : JsonText} {S : Type} `{Sv : Service S}.
(** The order in which [LineFromProvider] walks its table. *)
Context (order : list (bytes * bytes) -> list (bytes * bytes)).

Abbreviation dp := (prov (provider * S)).

(** The headers [call] hands to the signer, a literal of the source: its keys
    are taken as they are written. *)
Definition action_headers (action : bytes) : Header :=
  {[ go "Content-Type" := [go "application/json; charset=utf-8"]; go "X-TC-Action" := [action];
     go "X-TC-Version" := [apiVersion] ]}.

(** The request of [call], signed at the time [now]. *)
Definition prepare (p : provider) (now : Z) (action : bytes) (payload : gmap bytes json) : res dnserr Request :=
  let rawURL := go "https://" ++ endpoint ++ go "/" in
  let req := JSONBody (map_json payload) (MkRequest (go "POST") rawURL ∅ []) in
  match Parse rawURL with
  | None => Err (ErrProvider (go "parse url"))
  | Some target =>
      match SignSigV4 TencentProfile now
              (MkSigV4 (go "POST") (Some target) (action_headers action) (r_Body req) (secretID p) (secretKey p) [] service 0) with
      | None => Err (ErrProvider (go "cloudapi: no URL to sign"))
      | Some signing => Ok (MkRequest (go "POST") rawURL (header_map (Headers signing)) (r_Body req))
      end
  end.

(** What the [Response] of the envelope says of an error. *)
Definition decode_api_error : json -> option (option (bytes * bytes)) :=
  as_struct (fun fields =>
    match lookup_field (go "Error") fields with
    | None | Some JNull => Some None
    | Some j =>
        Some <$> as_struct (fun e => code ← field "Code" as_string e; message ← field "Message" as_string e; Some (code, message)) j
    end).

Definition decode_failed : dnserr := ErrProvider (go "dnspod: decode response").

Definition check_response (response : option json) : res dnserr json :=
  match response with
  | None => Err decode_failed
  | Some j =>
      match decode_api_error j with
      | None => Err decode_failed
      | Some (Some (code, message)) => Err (ErrProvider (go "dnspod: " ++ code ++ go ": " ++ message))
      | Some None => Ok j
      end
  end.

Definition post (action : bytes) (payload : gmap bytes json) : dp json :=
  fun ps =>
    (req ← of_res (prepare ps.1 (s_now ps.2) action payload);
     envelope ← do_json req (as_struct (fun fields => Some (lookup_field (go "Response") fields))) None;
     of_res (check_response envelope)) ps.

Definition call {A : Type} (action : bytes) (payload : gmap bytes json) (decode : json -> option A) : dp A :=
  j ← post action payload;
  match decode j with Some a => mret a | None => pfail decode_failed end.

(** [call] with no value to fill. *)
Definition call_nil (action : bytes) (payload : gmap bytes json) : dp unit := _ ← post action payload; mret tt.

Definition Check : dp unit :=
  wrap_error (fun e => match e with
                       | ErrProvider t => ErrProvider (go "dnspod: credentials rejected: " ++ t)
                       | e => e end)
    (call_nil (go "DescribeDomainList") {[ go "Limit" := JInt 1 ]}).

Definition page_payload (opts : ListOptions) : gmap bytes json :=
  {[ go "Offset" := JInt (i64 (i64 (Page opts - 1) * PageSize opts)); go "Limit" := JInt (PageSize opts) ]}.

Definition decode_domain : json -> option Domain :=
  as_struct (fun fields =>
    id ← field "DomainId" as_uint fields; name ← field "Name" as_string fields;
    count ← field "RecordCount" as_int fields; Some (MkDomain (FormatUint id) name count)).

Definition ListDomains (opts : ListOptions) : dp (list Domain) :=
  let opts := ListOptions_Normalise opts in
  let payload := page_payload opts in
  let payload := if bool_decide (Keyword opts = []) then payload else <[go "Keyword" := JString (Keyword opts)]> payload in
  call (go "DescribeDomainList") payload (as_struct (field "DomainList" (as_list decode_domain))).

Definition decode_record : json -> option DnsRecord :=
  as_struct (fun fields =>
    id ← field "RecordId" as_uint fields; name ← field "Name" as_string fields; kind ← field "Type" as_string fields;
    value ← field "Value" as_string fields; ttl ← field "TTL" as_int fields; mx ← field "MX" as_int fields;
    _ ← field "Line" as_string fields; lineid ← field "LineId" as_string fields; status ← field "Status" as_string fields;
    remark ← field "Remark" as_string fields; weight ← field "Weight" as_int fields;
    Some (MkRecord (FormatUint id) name kind value ttl (LineFromProvider order providerKey lineid) mx weight remark
            (bool_decide (status = go "ENABLE")) None)).

(** [err.Error()] of an error of [call]. *)
Definition error_text (e : dnserr) : bytes := match e with ErrProvider t => t | _ => [] end.

Definition ListRecords (zone : bytes) (opts : ListOptions) : dp (list DnsRecord) :=
  let opts := ListOptions_Normalise opts in
  let payload := <[go "Domain" := JString zone]> (page_payload opts) in
  let payload := if bool_decide (Keyword opts = []) then payload else <[go "Keyword" := JString (Keyword opts)]> payload in
  let payload := if bool_decide (lo_Type opts = []) then payload else <[go "RecordType" := JString (lo_Type opts)]> payload in
  fun ps =>
    match call (go "DescribeRecordList") payload (as_struct (field "RecordList" (as_list decode_record))) ps with
    | (Ok records, ps) => (Ok records, ps)
    | (Err e, ps) => if Contains (error_text e) (go "ResourceNotFound") then (Ok [], ps) else (Err e, ps)
    end.

Definition recordPayload (zone : bytes) (r : DnsRecord) : res dnserr (gmap bytes json) :=
  match Validate r with
  | Err e => Err e
  | Ok _ =>
      match ProviderLine providerKey (Line r) with
      | None => Err (ErrProvider (go "dnspod: does not support the " ++ Label (Line r) ++ go " line"))
      | Some line =>
          let payload : gmap bytes json :=
            {[ go "Domain" := JString zone; go "SubDomain" := JString (Name r); go "RecordType" := JString (Type' r);
               go "Value" := JString (Value r); go "RecordLine" := JString (lineName (Line r)); go "LineId" := JString line ]} in
          let payload := if 0 <? TTL r then <[go "TTL" := JInt (TTL r)]> payload else payload in
          let payload := if bool_decide (Type' r = TypeMX) then <[go "MX" := JInt (Priority r)]> payload else payload in
          Ok (if bool_decide (Remark r = []) then payload else <[go "Remark" := JString (Remark r)]> payload)
      end
  end.

Definition AddRecord (zone : bytes) (r : DnsRecord) : dp bytes :=
  payload ← of_res (recordPayload zone r);
  id ← call (go "CreateRecord") payload (as_struct (field "RecordId" as_uint));
  mret (FormatUint id).

Definition invalid_id : dnserr := ErrProvider (go "dnspod: invalid record id").

Definition UpdateRecord (zone : bytes) (r : DnsRecord) : dp unit :=
  if bool_decide (ID r = []) then pfail (ErrProvider (go "dnspod: cannot update a record without an ID"))
  else
    payload ← of_res (recordPayload zone r);
    match ParseUint64 (ID r) with
    | None => pfail invalid_id
    | Some id => call_nil (go "ModifyRecord") (<[go "RecordId" := JInt id]> payload)
    end.

Definition DeleteRecord (zone recordID : bytes) : dp unit :=
  match ParseUint64 recordID with
  | None => pfail invalid_id
  | Some id => call_nil (go "DeleteRecord") {[ go "Domain" := JString zone; go "RecordId" := JInt id ]}
  end.

Definition SetRecordStatus (zone recordID : bytes) (enabled : bool) : dp unit :=
  match ParseUint64 recordID with
  | None => pfail invalid_id
  | Some id =>
      call_nil (go "ModifyRecordStatus")
        {[ go "Domain" := JString zone; go "RecordId" := JInt id;
           go "Status" := JString (if enabled then go "ENABLE" else go "DISABLE") ]}
  end.

Definition AddDomain (zone : bytes) : dp unit := call_nil (go "CreateDomain") {[ go "Domain" := JString zone ]}.

(** What the ACME bridge uses of the provider. *)
#[export] Instance dnspod_provider : Provider (provider * S) := {
  MinTTL := 600;
  Dns.AddRecord := AddRecord;
  Dns.DeleteRecord := DeleteRecord;
  Dns.ListDomains opts ps := (ListDomains opts ps).1
}.

(** ** The action of a request *)

Definition base_headers : Header := Header_Set (Header_Set ∅ (go "User-Agent") UserAgent) (go "Accept") (go "application/json").

Definition signed_keys : list bytes :=
  [go "Content-Type"; go "X-TC-Action"; go "X-TC-Version"; go "Host"; go "X-Tc-Timestamp"].

Definition dated_headers (u : URL) (action : bytes) (now : Z) : Header :=
  date_headers TencentProfile now (Header_Set (action_headers action) (go "Host") (Host u)).

Lemma dated_keys u action now k : is_Some (dated_headers u action now !! k) -> k ∈ signed_keys.
Proof.
  unfold dated_headers, date_headers, action_headers. cbn [DateHeader DateFormat TimestampHeader TencentProfile].
  assert (negb (bool_decide (([] : bytes) = [])) = false) as -> by done. cbn [andb].
  assert (negb (bool_decide (go "X-TC-Timestamp" = [])) = true) as -> by done. unfold Header_Set.
  intros [<-|[_ H]]%lookup_insert_is_Some; [apply (bool_decide_unpack _); by vm_compute|].
  apply lookup_insert_is_Some in H as [<-|[_ H]]; [apply (bool_decide_unpack _); by vm_compute|].
  apply lookup_insert_is_Some in H as [<-|[_ H]]; [apply (bool_decide_unpack _); by vm_compute|].
  apply lookup_insert_is_Some in H as [<-|[_ H]]; [apply (bool_decide_unpack _); by vm_compute|].
  apply lookup_singleton_is_Some in H as <-. apply (bool_decide_unpack _); by vm_compute.
Qed.
Lemma prepare_Ok p now action payload req :
  prepare p now action payload = Ok req ->
  exists u account,
    Parse (w_URL (sent req)) = Some u /\ Headers account = dated_headers u action now
    /\ AccessKey account = secretID p /\ SecretKey account = secretKey p
    /\ w_Method (sent req) = Method account /\ w_Body (sent req) = Payload account
    /\ w_Header (sent req)
       = set_headers (map_to_list (header_map (<[go "Authorization" := [authorization TencentProfile now u account]]> (Headers account))))
           base_headers.
Proof.
  unfold prepare. destruct (Parse _) as [u|] eqn:Hu; [|done]. cbv zeta. unfold SignSigV4. cbn [sv_URL Now].
  change (IsZero 0) with true. cbv iota. intros H. apply (inj Ok) in H. subst req.
  exists u, (with_headers (dated_headers u action now)
    (MkSigV4 (go "POST") (Some u) (action_headers action) (json_text (map_json payload)) (secretID p) (secretKey p) [] service 0)).
  split_and!; [exact Hu|done..].
Qed.

Lemma dated_sendable u action now : sendable (dated_headers u action now).
Proof. apply (sendable_of_names signed_keys); [by vm_compute|apply dated_keys]. Qed.

Lemma sent_sendable u action now a : sendable (<[go "Authorization" := a]> (dated_headers u action now)).
Proof.
  apply (sendable_of_names (go "Authorization" :: signed_keys)); [by vm_compute|].
  intros k [<-|[_ Hk]]%lookup_insert_is_Some; [by left|]. right. by apply (dated_keys u action now).
Qed.

(** The keys of the literal are not in the form the headers are looked up in. *)
Lemma literal_lost u action now a key base :
  key ∈ [go "X-TC-Action"; go "X-TC-Version"] ->
  Header_Get (set_headers (map_to_list (header_map (<[go "Authorization" := a]> (dated_headers u action now)))) base) key = [].
Proof.
  intros Hk.
  assert (is_Some (dated_headers u action now !! key) /\ CanonicalMIMEHeaderKey key ∉ go "Authorization" :: signed_keys) as [Hs Hn].
  { unfold dated_headers, date_headers, action_headers. cbn [DateHeader DateFormat TimestampHeader TencentProfile].
    assert (negb (bool_decide (([] : bytes) = [])) = false) as -> by done. cbn [andb].
    assert (negb (bool_decide (go "X-TC-Timestamp" = [])) = true) as -> by done. unfold Header_Set.
    rewrite !elem_of_cons in Hk. destruct Hk as [->|[->|Hk]]; [| |by apply not_elem_of_nil in Hk];
      (split; [rewrite !lookup_insert_ne by done; by eexists|apply (bool_decide_unpack _); by vm_compute]). }
  rewrite (header_map_sent _ base key); [|apply sent_sendable| |done].
  - unfold Header_Get, Values_Get.
    destruct (<[go "Authorization" := a]> (dated_headers u action now) !! CanonicalMIMEHeaderKey key) eqn:E; [|done].
    exfalso. apply Hn. assert (is_Some (<[go "Authorization" := a]> (dated_headers u action now) !! CanonicalMIMEHeaderKey key)) as Hi
      by (by rewrite E).
    apply lookup_insert_is_Some in Hi as [<-|[_ Hi]]; [by left|right; by apply (dated_keys u action now)].
  - apply lookup_insert_is_Some'. by right.
Qed.

(** No request to DNSPod says what it asks for: whatever the action, the
    request goes out with an empty [X-TC-Action] and an empty [X-TC-Version],
    because the literal that holds them spells the keys in another form than the
    one headers are read in; and the signature, which covers the empty texts,
    is the one the service computes, so nothing else is wrong with it. *)
Theorem action_is_lost p now action payload req :
  prepare p now action payload = Ok req ->
  Header_Get (w_Header (sent req)) (go "X-TC-Action") = [] /\ Header_Get (w_Header (sent req)) (go "X-TC-Version") = []
  /\ exists names account,
    expected_authorization TencentProfile account now names (sent req) = Some (Header_Get (w_Header (sent req)) (go "Authorization"))
    /\ AccessKey account = secretID p /\ SecretKey account = secretKey p /\ go "x-tc-action" ∈ names.
Proof.
  intros (u & account & Hu & Hh & Hid & Hkey & Hm & Hb & Hw)%prepare_Ok. rewrite Hw, Hh.
  split; [|split].
  - apply literal_lost. apply (bool_decide_unpack _). by vm_compute.
  - apply literal_lost. apply (bool_decide_unpack _). by vm_compute.
  - exists (signed_names TencentProfile (Headers account)), account. split_and!; [|done|done|].
    + rewrite <- Hh, <- Hw. apply (signed_request_expected TencentProfile now u account base_headers); try done.
      * rewrite Hh. apply dated_sendable.
      * intros k. rewrite Hh. intros Hk%dated_keys E. exfalso. revert E.
        assert (Forall (fun k => CanonicalMIMEHeaderKey k <> go "Authorization") signed_keys) as Hall
          by (apply (bool_decide_unpack _); by vm_compute).
        rewrite Forall_forall in Hall. by apply Hall.
    + apply signed_names_spec. split; [done|]. exists (go "X-TC-Action"). split; [|done]. rewrite Hh.
      apply lookup_insert_is_Some'. right. apply lookup_insert_is_Some'. right.
      apply lookup_insert_is_Some'. right. apply lookup_insert_is_Some'. by left.
Qed.
End operations.

Section examples.
#[local] Existing Instance no_unicode.
#[local] Existing Instance ascii_upper.
#[local] Existing Instance toy_hmac.
#[local] Existing Instance toy_hashes.
#[local] Instance example_text : JsonText := table_text [].

Definition example_provider : provider := new_provider {[ go "secret_id" := go "AK"; go "secret_key" := go "SK" ]}.

Definition example_prepared : res dnserr Request :=
  prepare example_provider ((1551113065 + unixToInternal) * Second) (go "CreateRecord") {[ go "Domain" := JString (go "example.com") ]}.

Lemma action_is_lost_witness :
  exists req, example_prepared = Ok req
  /\ Header_Get (w_Header (sent req)) (go "X-TC-Action") = [] /\ Header_Get (w_Header (sent req)) (go "X-TC-Version") = []
  /\ exists names account,
    expected_authorization TencentProfile account ((1551113065 + unixToInternal) * Second) names (sent req)
      = Some (Header_Get (w_Header (sent req)) (go "Authorization"))
    /\ AccessKey account = go "AK" /\ SecretKey account = go "SK" /\ go "x-tc-action" ∈ names.
Proof.
  assert (is_ok example_prepared = true) as Hok by (by vm_compute).
  destruct example_prepared as [req|e] eqn:E; [|done]. exists req. split; [done|].
  exact (action_is_lost example_provider _ _ _ req E).
Defined.
End examples.
