(* ===== verification/Aliyun.v ===== *)
(** The Aliyun DNS client: [internal/dns/providers/aliyun/aliyun.go]. *)
From S2P Require Import Prelude GoStrings Schema Dns Url Protocol Http Clock CloudApi.

Definition providerKey : bytes := go "aliyun".
Definition endpoint : bytes := go "alidns.aliyuncs.com".
Definition apiVersion : bytes := go "2015-01-09".

Record provider := MkProvider { keyID : bytes; secret : bytes }.

(** The factory of the registration. *)
Definition new_provider (values : gmap bytes bytes) : provider :=
  MkProvider (values !!! go "access_key_id") (values !!! go "access_key_secret").

Section operations.
Context `{U : Unicode} `{HM : Hmac} `{HS : Hashes} `{JT : JsonText} {S : Type} `{Sv : Service S}.
(** The order in which [LineFromProvider] walks its table. *)
Context (order : list (bytes * bytes) -> list (bytes * bytes)).

Abbreviation al := (prov (provider * S)).

Definition rpc_request (p : provider) (action : bytes) (params : gmap bytes bytes) : AliyunRPCRequest :=
  MkAliyun endpoint action apiVersion params (keyID p) (secret p) 0 [].

(** The request of [call]. *)
Definition prepare (p : provider) (s : S) (action : bytes) (params : gmap bytes bytes) : res dnserr Request :=
  match SignedURL (rpc_request p action params) (s_now s) (s_random s) with
  | Ok signed => Ok (MkRequest [] signed ∅ [])
  | Err ErrIncomplete => Err (ErrProvider (go "cloudapi: aliyun request needs an endpoint, action and version"))
  | Err (ErrNonce text) => Err (ErrProvider (go "cloudapi: generate nonce: " ++ text))
  end.

Definition call {A : Type} (action : bytes) (params : gmap bytes bytes) (decode : json -> option A) (zero : A) : al A :=
  fun ps => (req ← of_res (prepare ps.1 ps.2 action params); do_json req decode zero) ps.

(** [call] with no value to fill. *)
Definition call_nil (action : bytes) (params : gmap bytes bytes) : al unit :=
  fun ps => (req ← of_res (prepare ps.1 ps.2 action params); do_nil req) ps.

Definition Check : al unit :=
  wrap_error (fun e => match e with
                       | ErrProvider t => ErrProvider (go "aliyun: credentials rejected: " ++ t)
                       | e => e end)
    (_ ← call (go "DescribeDomains") {[ go "PageSize" := go "1" ]} (as_struct (field "TotalCount" as_int)) 0; mret tt).

Definition decode_domain : json -> option Domain :=
  as_struct (fun fields =>
    name ← field "DomainName" as_string fields; id ← field "DomainId" as_string fields;
    count ← field "RecordCount" as_int fields; Some (MkDomain id name count)).

(** A list inside an object inside the answer. *)
Definition decode_nested {A : Type} (outer inner : string) (elem : json -> option A) : json -> option (list A) :=
  as_struct (field outer (as_struct (field inner (as_list elem)))).

Definition page_params (opts : ListOptions) : gmap bytes bytes :=
  {[ go "PageNumber" := Itoa (Page opts); go "PageSize" := Itoa (PageSize opts) ]}.

Definition ListDomains (opts : ListOptions) : al (list Domain) :=
  let opts := ListOptions_Normalise opts in
  let params := page_params opts in
  let params := if bool_decide (Keyword opts = []) then params else <[go "KeyWord" := Keyword opts]> params in
  call (go "DescribeDomains") params (decode_nested "Domains" "Domain" decode_domain) [].

Definition decode_record : json -> option DnsRecord :=
  as_struct (fun fields =>
    id ← field "RecordId" as_string fields; rr ← field "RR" as_string fields; kind ← field "Type" as_string fields;
    value ← field "Value" as_string fields; ttl ← field "TTL" as_int fields; priority ← field "Priority" as_int fields;
    line ← field "Line" as_string fields; status ← field "Status" as_string fields; remark ← field "Remark" as_string fields;
    weight ← field "Weight" as_int fields;
    Some (MkRecord id rr kind value ttl (LineFromProvider order providerKey line) priority weight remark
            (negb (bool_decide (status = go "DISABLE"))) None)).

Definition ListRecords (zone : bytes) (opts : ListOptions) : al (list DnsRecord) :=
  let opts := ListOptions_Normalise opts in
  let params := <[go "DomainName" := zone]> (page_params opts) in
  let params := if bool_decide (Keyword opts = []) then params else <[go "KeyWord" := Keyword opts]> params in
  let params := if bool_decide (lo_Type opts = []) then params else <[go "TypeKeyWord" := lo_Type opts]> params in
  call (go "DescribeDomainRecords") params (decode_nested "DomainRecords" "Record" decode_record) [].

Definition recordParams (r : DnsRecord) : res dnserr (gmap bytes bytes) :=
  match Validate r with
  | Err e => Err e
  | Ok _ =>
      match ProviderLine providerKey (Line r) with
      | None => Err (ErrProvider (go "aliyun: does not support the " ++ Label (Line r) ++ go " line"))
      | Some line =>
          let params : gmap bytes bytes :=
            {[ go "RR" := Name r; go "Type" := Type' r; go "Value" := Value r; go "Line" := line ]} in
          let params := if 0 <? TTL r then <[go "TTL" := Itoa (TTL r)]> params else params in
          Ok (if bool_decide (Type' r = TypeMX) then <[go "Priority" := Itoa (Priority r)]> params else params)
      end
  end.

Definition SetRecordRemark (id remark : bytes) : al unit :=
  call_nil (go "UpdateDomainRecordRemark") {[ go "RecordId" := id; go "Remark" := remark ]}.

(** An operation whose error is dropped. *)
Definition ignore {P : Type} (m : prov P unit) : prov P unit := fun p => (Ok tt, (m p).2).

Definition AddRecord (zone : bytes) (r : DnsRecord) : al bytes :=
  params ← of_res (recordParams r);
  id ← call (go "AddDomainRecord") (<[go "DomainName" := zone]> params) (as_struct (field "RecordId" as_string)) [];
  _ ← (if negb (bool_decide (Remark r = [])) && negb (bool_decide (id = []))
       then ignore (SetRecordRemark id (Remark r)) else mret tt);
  mret id.

Definition UpdateRecord (r : DnsRecord) : al unit :=
  if bool_decide (ID r = []) then pfail (ErrProvider (go "aliyun: cannot update a record without an ID"))
  else
    params ← of_res (recordParams r);
    _ ← call_nil (go "UpdateDomainRecord") (<[go "RecordId" := ID r]> params);
    if bool_decide (Remark r = []) then mret tt else ignore (SetRecordRemark (ID r) (Remark r)).

Definition DeleteRecord (id : bytes) : al unit := call_nil (go "DeleteDomainRecord") {[ go "RecordId" := id ]}.

Definition SetRecordStatus (id : bytes) (enabled : bool) : al unit :=
  call_nil (go "SetDomainRecordStatus") {[ go "RecordId" := id; go "Status" := if enabled then go "Enable" else go "Disable" ]}.

Definition AddDomain (zone : bytes) : al unit := call_nil (go "AddDomain") {[ go "DomainName" := zone ]}.

(** What the ACME bridge uses of the provider. *)
#[export] Instance aliyun_provider : Provider (provider * S) := {
  MinTTL := 600;
  Dns.AddRecord := AddRecord;
  Dns.DeleteRecord _ id := DeleteRecord id;
  Dns.ListDomains opts ps := (ListDomains opts ps).1
}.
End operations.
