(* ===== verification/West.v ===== *)
(** The West.cn DNS client: [internal/dns/providers/west/west.go]. *)
From S2P Require Import Prelude GoStrings Schema Dns Url Protocol Http Clock CloudApi.

Definition providerKey : bytes := go "west".
Definition apiBase : bytes := go "https://api.west.cn/API/v2".

Record provider := MkProvider { username : bytes; password : bytes }.

(** The factory of the registration. *)
Definition new_provider (values : gmap bytes bytes) : provider :=
  MkProvider (values !!! go "username") (values !!! go "api_password").

Record response := MkResponse { Result : Z; Msg : bytes; ClientID : bytes }.

Definition response_ok (r : response) : res dnserr unit :=
  if Result r =? 200 then Ok tt else Err (ErrProvider (go "west: " ++ Itoa (Result r) ++ go ": " ++ Msg r)).

Section operations.
Context `{U : Unicode} `{UU : UnicodeUpper} `{HS : Hashes} `{JT : JsonText} {S : Type} `{Sv : Service S}.
(** The order in which [LineFromProvider] walks its table. *)
Context (order : list (bytes * bytes) -> list (bytes * bytes)).

Abbreviation ws := (prov (provider * S)).

Definition authParams (p : provider) (now : Z) : Values :=
  let timestamp := Itoa (UnixMilli now) in
  {[ go "username" := [username p]; go "time" := [timestamp];
     go "token" := [hex_encode (md5_sum (username p ++ password p ++ timestamp))] ]}.

(** The form that goes out: the authentication and, added to it, the parameters. *)
Definition form (p : provider) (now : Z) (params : Values) : Values := foldl add_pair (authParams p now) (pairs id params).

Definition prepare (p : provider) (now : Z) (path : bytes) (params : Values) : Request :=
  MkRequest (go "POST") (apiBase ++ path) {[ go "Content-Type" := go "application/x-www-form-urlencoded" ]}
    (Encode (form p now params)).

(** An answer and its data. *)
Definition decode_reply {A : Type} (data : list (bytes * json) -> option A) : json -> option (response * A) :=
  as_struct (fun fields =>
    result ← field "result" as_int fields; msg ← field "msg" as_string fields;
    clientid ← field "clientid" as_string fields; a ← data fields; Some (MkResponse result msg clientid, a)).

Definition no_data (fields : list (bytes * json)) : option unit := Some tt.

(** [call], and the check of the answer every operation makes. *)
Definition call {A : Type} (path : bytes) (params : Values) (data : list (bytes * json) -> option A) (zero : A) : ws A :=
  fun ps =>
    (reply ← do_json (prepare ps.1 (s_now ps.2) path params) (decode_reply data) (MkResponse 0 [] [], zero);
     _ ← of_res (response_ok reply.1);
     mret reply.2) ps.

Definition Check : ws unit :=
  fun ps =>
    (reply ← wrap_error (fun e => match e with
                                  | ErrProvider t => ErrProvider (go "west: credentials rejected: " ++ t)
                                  | e => e end)
       (do_json (prepare ps.1 (s_now ps.2) (go "/domain/")
                   {[ go "act" := [go "getdomains"]; go "limit" := [go "1"]; go "page" := [go "1"] ]})
          (decode_reply no_data) (MkResponse 0 [] [], tt));
     of_res (response_ok reply.1)) ps.

(** The items of the data. *)
Definition items {A : Type} (elem : json -> option A) : list (bytes * json) -> option (list A) :=
  field "data" (as_struct (field "items" (as_list elem))).

Definition ListDomains (opts : ListOptions) : ws (list Domain) :=
  let opts := ListOptions_Normalise opts in
  let params : Values :=
    {[ go "act" := [go "getdomains"]; go "page" := [Itoa (Page opts)]; go "limit" := [Itoa (PageSize opts)] ]} in
  names ← call (go "/domain/") params (items (as_struct (field "domain" as_string))) [];
  mret ((fun name => MkDomain [] name 0) <$> names).

Definition decode_record : json -> option DnsRecord :=
  as_struct (fun fields =>
    id ← field "id" as_int fields; item ← field "item" as_string fields; kind ← field "type" as_string fields;
    value ← field "value" as_string fields; ttl ← field "ttl" as_int fields; level ← field "level" as_int fields;
    line ← field "line" as_string fields; pause ← field "pause" as_int fields;
    Some (MkRecord (Itoa id) item (ToUpper kind) value ttl (LineFromProvider order providerKey line) level 0 []
            (negb (pause =? 1)) None)).

Definition ListRecords (zone : bytes) (opts : ListOptions) : ws (list DnsRecord) :=
  let opts := ListOptions_Normalise opts in
  let params : Values :=
    {[ go "act" := [go "getdnsrecord"]; go "domain" := [zone]; go "page" := [Itoa (Page opts)];
       go "limit" := [Itoa (PageSize opts)] ]} in
  call (go "/domain/") params (items decode_record) [].

Definition recordParams (zone : bytes) (r : DnsRecord) : res dnserr Values :=
  match Validate r with
  | Err e => Err e
  | Ok _ =>
      match ProviderLine providerKey (Line r) with
      | None => Err (ErrProvider (go "west: does not support the " ++ Label (Line r) ++ go " line"))
      | Some line =>
          let ttl := if TTL r <=? 0 then 900 else TTL r in
          let params : Values :=
            {[ go "domain" := [zone]; go "host" := [Name r]; go "type" := [Type' r]; go "value" := [Value r];
               go "ttl" := [Itoa ttl] ]} in
          let params := if bool_decide (line = []) then params else Values_Set params (go "line") line in
          Ok (if bool_decide (Type' r = TypeMX) then Values_Set params (go "level") (Itoa (Priority r)) else params)
      end
  end.

Definition AddRecord (zone : bytes) (r : DnsRecord) : ws bytes :=
  params ← of_res (recordParams zone r);
  id ← call (go "/domain/") (Values_Set params (go "act") (go "adddnsrecord"))
         (field "data" (as_struct (field "id" as_int))) 0;
  mret (Itoa id).

Definition UpdateRecord (zone : bytes) (r : DnsRecord) : ws unit :=
  if bool_decide (ID r = []) then pfail (ErrProvider (go "west: cannot update a record without an ID"))
  else
    params ← of_res (recordParams zone r);
    call (go "/domain/") (Values_Set (Values_Set params (go "act") (go "moddnsrecord")) (go "id") (ID r)) no_data tt.

Definition DeleteRecord (zone recordID : bytes) : ws unit :=
  call (go "/domain/") {[ go "act" := [go "deldnsrecord"]; go "domain" := [zone]; go "id" := [recordID] ]} no_data tt.

Definition SetRecordStatus (zone recordID : bytes) (enabled : bool) : ws unit :=
  call (go "/domain/")
    {[ go "act" := [go "pausednsrecord"]; go "domain" := [zone]; go "id" := [recordID];
       go "pause" := [if enabled then go "0" else go "1"] ]} no_data tt.

(** What the ACME bridge uses of the provider. *)
#[export] Instance west_provider : Provider (provider * S) := {
  MinTTL := 60;
  Dns.AddRecord := AddRecord;
  Dns.DeleteRecord := DeleteRecord;
  Dns.ListDomains opts ps := (ListDomains opts ps).1
}.

(** ** The form as the service reads it *)

Lemma authParams_no_empty p now : no_empty_key (authParams p now).
Proof.
  intros k l H. unfold authParams in H.
  repeat (apply lookup_insert_Some in H as [[_ <-]|[_ H]]; [done|]). by apply lookup_singleton_Some in H as [_ <-].
Qed.

Lemma form_lookup p now params k :
  no_empty_key params -> (forall k, is_Some (params !! k) -> authParams p now !! k = None) ->
  form p now params !! k = match params !! k with Some l => Some l | None => authParams p now !! k end.
Proof.
  intros Hp Ha. unfold form, pairs. rewrite add_keys.
  - case_bool_decide as Hk.
    + apply sorted_keys_elem in Hk as [l Hl]. by rewrite Hl.
    + rewrite sorted_keys_elem in Hk. apply eq_None_not_Some in Hk. by rewrite Hk.
  - done.
  - apply sorted_keys_NoDup.
  - intros k' Hk'%sorted_keys_elem. by apply Ha.
  - intros k' [l Hl]%sorted_keys_elem. exists l. split; [done|]. exact (Hp k' l Hl).
Qed.

(** Every request carries its parameters and the token of its time: the body
    decodes, without an error, to the parameters and the three of the
    authentication, for parameters that have values and do not take a name of
    the authentication. *)
Theorem form_is_read p now path params :
  no_empty_key params -> (forall k, is_Some (params !! k) -> authParams p now !! k = None) ->
  ParseQuery (r_Body (prepare p now path params)) = (form p now params, false)
  /\ forall k, form p now params !! k = match params !! k with Some l => Some l | None => authParams p now !! k end.
Proof.
  intros Hp Ha. split; [|intros k; by apply form_lookup].
  unfold prepare. cbn [r_Body]. unfold Encode. rewrite (encode_with_parse QueryEscape); [|done|].
  - assert (id <$> form p now params = form p now params) as -> by apply map_fmap_id. done.
  - intros k l. rewrite form_lookup by done. destruct (params !! k) as [l'|] eqn:E.
    + intros [= <-]. exact (Hp k l' E).
    + apply authParams_no_empty.
Qed.
End operations.
