(* ===== verification/Namesilo.v ===== *)
(** The NameSilo client: [internal/dns/providers/namesilo/namesilo.go].

    The answers are XML, which [encoding/xml] reads: class [XmlReply]. *)
From S2P Require Import Prelude GoStrings Schema Dns Url Http.

Definition apiBase : bytes := go "https://www.namesilo.com/api".

Record provider := MkProvider { apiKey : bytes }.

(** The factory of the registration. *)
Definition new_provider (values : gmap bytes bytes) : provider := MkProvider (values !!! go "api_key").

Record resource := MkResource {
  rr_RecordID : bytes; rr_Type : bytes; rr_Host : bytes; rr_Value : bytes; rr_TTL : Z; rr_Distance : Z
}.

Record reply := MkReply { Code : Z; Detail : bytes; Domains : list bytes; ResourceRecord : list resource; RecordID : bytes }.

Class XmlReply := { xml_reply : bytes -> option reply }.

Definition reply_ok (r : reply) : res dnserr unit :=
  if Code r =? 300 then Ok tt else Err (ErrProvider (go "namesilo: " ++ Itoa (Code r) ++ go ": " ++ Detail r)).

(** The method of a nil pointer, which is what an answer without a body leaves. *)
Definition nil_reply : dnserr := ErrProvider (go "panic: nil pointer dereference").

Section operations.
Context `{U : Unicode} `{UU : UnicodeUpper} `{JT : JsonText} `{XR : XmlReply} {S : Type} `{Sv : Service S}.

Abbreviation ns := (prov (provider * S)).

Definition prepare (p : provider) (operation : bytes) (params : Values) : Request :=
  let values : Values := {[ go "version" := [go "1"]; go "type" := [go "xml"]; go "key" := [apiKey p] ]} in
  let values := foldl add_pair values (pairs id params) in
  MkRequest [] (apiBase ++ go "/" ++ operation ++ go "?" ++ Encode values) ∅ [].

(** [json.Unmarshal] into an [xmlBody]: the bytes are checked to be JSON before
    [UnmarshalJSON], which reads them as XML, is asked. *)
Definition unmarshal_body (payload : bytes) : option reply :=
  match json_parse payload with Some _ => xml_reply payload | None => None end.

(** [call]: [None] is a nil reply. *)
Definition call (operation : bytes) (params : Values) : ns (option reply) := fun '(p, s) =>
  let req := prepare p operation params in
  match Do_body req s with
  | (Err e, s) => (Err e, (p, s))
  | (Ok [], s) => (Ok None, (p, s))
  | (Ok payload, s) =>
      match unmarshal_body payload with
      | Some r => (Ok (Some r), (p, s))
      | None => (Err (decode_error req payload), (p, s))
      end
  end.

Definition ok (r : option reply) : ns reply :=
  match r with None => pfail nil_reply | Some r => _ ← of_res (reply_ok r); mret r end.

Definition Check : ns unit :=
  r ← wrap_error (fun e => match e with
                           | ErrProvider t => ErrProvider (go "namesilo: credentials rejected: " ++ t)
                           | e => e end) (call (go "listDomains") ∅);
  _ ← ok r; mret tt.

Definition ListDomains : ns (list Domain) :=
  r ← call (go "listDomains") ∅; r ← ok r;
  mret ((fun name => MkDomain [] name 0) <$> Domains r).

Definition record_of (zone : bytes) (r : resource) : DnsRecord :=
  MkRecord (rr_RecordID r) (NormaliseName (rr_Host r) zone) (ToUpper (rr_Type r)) (rr_Value r) (rr_TTL r) LineDefault
    (rr_Distance r) 0 [] true None.

Definition ListRecords (zone : bytes) : ns (list DnsRecord) :=
  r ← call (go "dnsListRecords") {[ go "domain" := [zone] ]}; r ← ok r;
  mret (record_of zone <$> ResourceRecord r).

Definition recordParams (zone : bytes) (r : DnsRecord) : res dnserr Values :=
  match Validate r with
  | Err e => Err e
  | Ok _ =>
      if negb (bool_decide (Line r = [])) && negb (bool_decide (Line r = LineDefault))
      then Err (ErrProvider (go "namesilo: carrier lines are not supported"))
      else
        let ttl := if TTL r <? 3600 then 3600 else TTL r in
        let host := if bool_decide (Name r = go "@") then [] else Name r in
        let params : Values :=
          {[ go "domain" := [zone]; go "rrtype" := [Type' r]; go "rrhost" := [host]; go "rrvalue" := [Value r];
             go "rrttl" := [Itoa ttl] ]} in
        Ok (if bool_decide (Type' r = TypeMX) then Values_Set params (go "rrdistance") (Itoa (Priority r)) else params)
  end.

Definition AddRecord (zone : bytes) (r : DnsRecord) : ns bytes :=
  params ← of_res (recordParams zone r);
  resp ← call (go "dnsAddRecord") params; resp ← ok resp;
  mret (RecordID resp).

Definition UpdateRecord (zone : bytes) (r : DnsRecord) : ns unit :=
  if bool_decide (ID r = []) then pfail (ErrProvider (go "namesilo: cannot update a record without an ID"))
  else
    params ← of_res (recordParams zone r);
    resp ← call (go "dnsUpdateRecord") (Values_Set params (go "rrid") (ID r)); _ ← ok resp;
    mret tt.

Definition DeleteRecord (zone recordID : bytes) : ns unit :=
  resp ← call (go "dnsDeleteRecord") {[ go "domain" := [zone]; go "rrid" := [recordID] ]}; _ ← ok resp;
  mret tt.

(** What the ACME bridge uses of the provider. *)
#[export] Instance namesilo_provider : Provider (provider * S) := {
  MinTTL := 3600;
  Dns.AddRecord := AddRecord;
  Dns.DeleteRecord := DeleteRecord;
  Dns.ListDomains _ ps := (ListDomains ps).1
}.

(** ** XML is not JSON *)

(** A service that answers in XML, as every request asks it to, and JSON, which
    no text that starts with an angle bracket is. *)
Context (answers_xml : forall w s a s', exchange w s = (Ok a, s') -> exists r, a_Body a = x3c :: r).
Context (json_strict : forall r, json_parse (x3c :: r) = None).

Lemma call_fails operation params ps : is_ok (call operation params ps).1 = false.
Proof.
  destruct ps as [p s]. unfold call, Do_body. destruct (_ || _); [done|].
  destruct (exchange _ s) as [[a|e] s'] eqn:E; [|done]. destruct (answers_xml _ _ _ _ E) as [r Hr].
  destruct (a_Read a); [|done]. destruct ((StatusCode a <? 200) || (300 <=? StatusCode a)); [done|].
  rewrite Hr. assert (exists r', limited maxBody (x3c :: r) = x3c :: r') as [r' ->].
  { unfold limited. case_match; [by eexists|]. unfold maxBody. destruct (Z.to_nat 4194304) eqn:En; [lia|]. by eexists. }
  unfold unmarshal_body. by rewrite json_strict.
Qed.

Lemma bind_fails {A B : Type} (m : ns A) (f : A -> ns B) ps : is_ok (m ps).1 = false -> is_ok ((m ≫= f) ps).1 = false.
Proof. cbv [mbind prov_bind]. by destruct (m ps) as [[a|e] ps']. Qed.

Lemma after_res {A B : Type} (r : res dnserr A) (f : A -> ns B) ps :
  (forall a, is_ok (f a ps).1 = false) -> is_ok ((of_res r ≫= f) ps).1 = false.
Proof. intros H. cbv [mbind prov_bind of_res]. by destruct r. Qed.

(** No operation on NameSilo succeeds: the answers are asked for in XML, and
    what reads them rejects every text that is not JSON before the code that
    would decode the XML is reached; so checking the credentials, listing,
    adding, updating and deleting all end in an error, whatever the service
    holds and answers. *)
Theorem xml_is_rejected zone id r ps :
  is_ok (Check ps).1 = false /\ is_ok (ListDomains ps).1 = false /\ is_ok (ListRecords zone ps).1 = false
  /\ is_ok (AddRecord zone r ps).1 = false /\ is_ok (UpdateRecord zone r ps).1 = false
  /\ is_ok (DeleteRecord zone id ps).1 = false.
Proof.
  split_and!.
  - unfold Check. apply bind_fails. unfold wrap_error. pose proof (call_fails (go "listDomains") ∅ ps) as H.
    by destruct (call (go "listDomains") ∅ ps) as [[a|e] ps'].
  - apply bind_fails, call_fails.
  - apply bind_fails, call_fails.
  - apply after_res. intros params. apply bind_fails, call_fails.
  - unfold UpdateRecord. case_match; [done|]. apply after_res. intros params. apply bind_fails, call_fails.
  - apply bind_fails, call_fails.
Qed.
End operations.

Section examples.
#[local] Existing Instance no_unicode.
#[local] Instance ascii_upper : UnicodeUpper := {| unicode_upper s := s |}.
#[local] Instance example_text : JsonText := table_text [(go "{}", JObject [])].
#[local] Instance example_xml : XmlReply := {| xml_reply _ := Some (MkReply 300 [] [go "example.com"] [] []) |}.
#[local] Instance example_service : Service unit := {|
  exchange w s := (Ok (MkAnswer 200 (go "<namesilo><reply><code>300</code></reply></namesilo>") (Ok tt)), s);
  s_now _ := 0; s_random _ := Err [] |}.

Definition example_record : DnsRecord := MkRecord (go "1") (go "www") (go "A") (go "192.0.2.1") 300 LineDefault 0 0 [] true None.

Lemma xml_is_rejected_witness :
  let ps := (MkProvider (go "key"), tt) in
  is_ok (Check ps).1 = false /\ is_ok (ListDomains ps).1 = false /\ is_ok (ListRecords (go "example.com") ps).1 = false
  /\ is_ok (AddRecord (go "example.com") example_record ps).1 = false
  /\ is_ok (UpdateRecord (go "example.com") example_record ps).1 = false
  /\ is_ok (DeleteRecord (go "example.com") (go "1") ps).1 = false.
Proof.
  cbv zeta. apply (xml_is_rejected (Sv := example_service)).
  - intros w s a s' [= <- <-]. by eexists.
  - intros r. done.
Defined.
End examples.
