(* ===== verification/PowerDns.v ===== *)
(** The PowerDNS client: [internal/dns/providers/powerdns/powerdns.go]. *)
From S2P Require Import Prelude GoStrings Schema Dns Url Http.

Record provider := MkProvider { base : bytes; apiKey : bytes; serverID : bytes }.

(** The factory of the registration. *)
Definition new_provider (values : gmap bytes bytes) : provider :=
  MkProvider (TrimSuffix (values !!! go "url") (go "/")) (values !!! go "api_key")
    (match values !!! go "server_id" with [] => go "localhost" | s => s end).

Definition canonical (zone : bytes) : bytes := TrimSuffix zone (go ".") ++ go ".".

(** [strings.Trim(value, quote)] *)
Fixpoint trim_quotes_left (s : bytes) : bytes := match s with x22 :: r => trim_quotes_left r | s => s end.
Definition trim_quotes (s : bytes) : bytes := reverse (trim_quotes_left (reverse (trim_quotes_left s))).

Record rrset := MkRRset { rs_Name : bytes; rs_Type : bytes; rs_TTL : Z; rs_Records : list (bytes * bool) }.

Section operations.
Context `{U : Unicode} `{JT : JsonText} {S : Type} `{Sv : Service S}.

Abbreviation pd := (prov (provider * S)).

Definition server_url (p : provider) (path : bytes) : bytes :=
  base p ++ go "/api/v1/servers/" ++ serverID p ++ path.

Definition prepare (p : provider) (method path : bytes) (body : option json) : Request :=
  let req := MkRequest method (server_url p path) {[ go "X-API-Key" := apiKey p ]} [] in
  match body with
  | None => req
  | Some j =>
      let req := JSONBody j req in
      MkRequest (r_Method req) (r_URL req) (<[go "X-API-Key" := apiKey p]> (r_Headers req)) (r_Body req)
  end.

Definition call {A : Type} (method path : bytes) (body : option json) (decode : json -> option A) (zero : A) : pd A :=
  fun ps => do_json (prepare ps.1 method path body) decode zero ps.

(** [call] with no value to fill. *)
Definition call_nil (method path : bytes) (body : option json) : pd unit := fun ps => do_nil (prepare ps.1 method path body) ps.

Definition Check : pd unit :=
  wrap_error (fun e => match e with
                       | ErrProvider t => ErrProvider (go "powerdns: unreachable or key rejected: " ++ t)
                       | e => e end)
    (_ ← call (go "GET") (go "/zones") None (as_list (as_struct (fun _ => Some tt))) []; mret tt).

Definition decode_zone : json -> option Domain :=
  as_struct (fun fields =>
    id ← field "id" as_string fields; name ← field "name" as_string fields; Some (MkDomain id (TrimSuffix name (go ".")) 0)).

Definition ListDomains : pd (list Domain) := call (go "GET") (go "/zones") None (as_list decode_zone) [].

Definition decode_rrset : json -> option rrset :=
  as_struct (fun fields =>
    name ← field "name" as_string fields; kind ← field "type" as_string fields; ttl ← field "ttl" as_int fields;
    records ← field "records" (as_list (as_struct (fun r =>
      content ← field "content" as_string r; disabled ← field "disabled" as_bool r; Some (content, disabled)))) fields;
    Some (MkRRset name kind ttl records)).

(** [fmt.Sprintf] of an id: name, type and position. *)
Definition record_id (name kind : bytes) (index : Z) : bytes := name ++ go "|" ++ kind ++ go "|" ++ Itoa index.

Definition set_records (zone : bytes) (set : rrset) : list DnsRecord :=
  imap (fun index record =>
    MkRecord (record_id (TrimSuffix (rs_Name set) (go ".")) (rs_Type set) (Z.of_nat index)) (NormaliseName (rs_Name set) zone)
      (rs_Type set) (trim_quotes record.1) (rs_TTL set) LineDefault 0 0 [] (negb record.2) None) (rs_Records set).

Definition ListRecords (zone : bytes) : pd (list DnsRecord) :=
  sets ← call (go "GET") (go "/zones/" ++ canonical zone) None (as_struct (field "rrsets" (as_list decode_rrset))) [];
  mret (concat (set_records zone <$> sets)).

Definition patch (zone : bytes) (set : gmap bytes json) : pd unit :=
  call_nil (go "PATCH") (go "/zones/" ++ canonical zone) (Some (map_json {[ go "rrsets" := JArray [map_json set] ]})).

Definition content_of (r : DnsRecord) : bytes :=
  if bool_decide (Type' r = TypeTXT) && negb (HasPrefix (Value r) [x22]) then [x22] ++ Value r ++ [x22] else Value r.

(** The change that puts one record in the place of a set. *)
Definition replace_set (name kind : bytes) (ttl : Z) (content : bytes) (disabled : bool) : gmap bytes json :=
  {[ go "name" := JString name; go "type" := JString kind; go "ttl" := JInt ttl; go "changetype" := JString (go "REPLACE");
     go "records" := JArray [map_json {[ go "content" := JString content; go "disabled" := JBool disabled ]}] ]}.

Definition rrsetFor (zone : bytes) (r : DnsRecord) : res dnserr (gmap bytes json) :=
  match Validate r with
  | Err e => Err e
  | Ok _ =>
      if negb (bool_decide (Line r = [])) && negb (bool_decide (Line r = LineDefault))
      then Err (ErrProvider (go "powerdns: carrier lines are not supported"))
      else Ok (replace_set (canonical (FQDN r zone)) (Type' r) (if TTL r <=? 0 then 300 else TTL r) (content_of r) (negb (Enabled r)))
  end.

Definition enabled (r : DnsRecord) : DnsRecord :=
  MkRecord (ID r) (Name r) (Type' r) (Value r) (TTL r) (Line r) (Priority r) (Weight r) (Remark r) true (Proxied r).

Definition AddRecord (zone : bytes) (r : DnsRecord) : pd bytes :=
  set ← of_res (rrsetFor zone (enabled r));
  _ ← patch zone set;
  mret (FQDN r zone ++ go "|" ++ Type' r ++ go "|0").

Definition UpdateRecord (zone : bytes) (r : DnsRecord) : pd unit :=
  set ← of_res (rrsetFor zone (enabled r)); patch zone set.

Definition delete_set (name kind : bytes) : gmap bytes json :=
  {[ go "name" := JString name; go "type" := JString kind; go "changetype" := JString (go "DELETE") ]}.

Definition DeleteRecord (zone recordID : bytes) : pd unit :=
  match Split recordID x7c with
  | name :: kind :: _ => patch zone (delete_set (canonical name) kind)
  | _ => pfail (ErrProvider (go "powerdns: malformed record id"))
  end.

Definition AddDomain (zone : bytes) : pd unit :=
  call_nil (go "POST") (go "/zones") (Some (map_json {[ go "name" := JString (canonical zone); go "kind" := JString (go "Native") ]})).

(** What the ACME bridge uses of the provider. *)
#[export] Instance powerdns_provider : Provider (provider * S) := {
  MinTTL := 1;
  Dns.AddRecord := AddRecord;
  Dns.DeleteRecord := DeleteRecord;
  Dns.ListDomains _ ps := (ListDomains ps).1
}.
End operations.

(** ** The service *)

Definition accepted (ra : res bytes answer) : Prop :=
  match ra with Ok a => is_ok (a_Read a) = true /\ 200 <= StatusCode a < 300 | Err _ => False end.

Definition patch_body (set : gmap bytes json) : json := map_json {[ go "rrsets" := JArray [map_json set] ]}.

(** What the API documents of a change: REPLACE puts the records of the change
    in the place of the set of that name and type, DELETE removes the set. *)
Class PdnsDocs (S : Type) `{JT : JsonText} `{Sv : Service S} := {
  rrsets : S -> gmap (bytes * bytes) (list (bytes * bool));
  replace_doc : forall url h name kind ttl content disabled s,
    let '(ra, s') := exchange (MkWire (go "PATCH") url h (json_text (patch_body (replace_set name kind ttl content disabled)))) s in
    accepted ra -> rrsets s' = <[(name, kind) := [(content, disabled)]]> (rrsets s);
  delete_doc : forall url h name kind s,
    let '(ra, s') := exchange (MkWire (go "PATCH") url h (json_text (patch_body (delete_set name kind)))) s in
    accepted ra -> rrsets s' = delete (name, kind) (rrsets s)
}.

Section challenges.
Context `{U : Unicode} `{JT : JsonText} {S : Type} `{Sv : Service S} `{Docs : !PdnsDocs S}.

Lemma do_nil_Ok {X : Type} (req : Request) (x : X) s u x' s' :
  do_nil req (x, s) = (Ok u, (x', s')) ->
  x' = x /\ exists ra, exchange (sent req) s = (ra, s') /\ accepted ra.
Proof.
  unfold do_nil, Do_nil, Do_body. destruct (negb _ || _); [done|].
  destruct (exchange (sent req) s) as [[a|e] s1]; [|done].
  destruct (a_Read a) eqn:Ea; [|done].
  destruct (StatusCode a <? 200) eqn:E1; [done|]. destruct (300 <=? StatusCode a) eqn:E2; [done|].
  cbn [orb]. intros [= _ -> ->]. split; [done|]. exists (Ok a). split; [done|]. cbn. rewrite Ea. bool_facts. by split.
Qed.

Lemma patch_Ok zone set ps ps' :
  patch zone set ps = (Ok tt, ps') ->
  ps'.1 = ps.1 /\ exists url h ra, exchange (MkWire (go "PATCH") url h (json_text (patch_body set))) ps.2 = (ra, ps'.2) /\ accepted ra.
Proof.
  destruct ps as [p s], ps' as [p' s']. intros (-> & ra & Hx & Ha)%do_nil_Ok. split; [done|].
  by eexists _, _, ra.
Qed.

Lemma replace_Ok zone r ps id ps' :
  AddRecord zone r ps = (Ok id, ps') ->
  id = FQDN r zone ++ go "|" ++ Type' r ++ go "|0"
  /\ rrsets ps'.2 = <[(canonical (FQDN r zone), Type' r) := [(content_of r, false)]]> (rrsets ps.2).
Proof.
  unfold AddRecord, rrsetFor. cbv [mbind prov_bind mret prov_ret of_res].
  destruct (Validate (enabled r)); [|done]. destruct (negb _ && negb _); [done|].
  change (FQDN (enabled r) zone) with (FQDN r zone). change (content_of (enabled r)) with (content_of r).
  cbn [Type' TTL Enabled enabled negb].
  destruct (patch zone _ ps) as [[[]|e] ps1] eqn:Ep; [|done]. intros [= <- <-]. split; [done|].
  apply patch_Ok in Ep as (_ & url & h & ra & Hx & Ha).
  pose proof (replace_doc url h (canonical (FQDN r zone)) (Type' r) (if TTL r <=? 0 then 300 else TTL r) (content_of r) false ps.2) as Hd.
  rewrite Hx in Hd. by apply Hd.
Qed.

Lemma delete_set_Ok zone name kind index ps ps' :
  x7c ∉ name -> x7c ∉ kind ->
  DeleteRecord zone (name ++ go "|" ++ kind ++ go "|" ++ index) ps = (Ok tt, ps') ->
  rrsets ps'.2 = delete (canonical name, kind) (rrsets ps.2).
Proof.
  intros Hn Hk. unfold DeleteRecord.
  change (name ++ go "|" ++ kind ++ go "|" ++ index) with (name ++ x7c :: (kind ++ x7c :: index)).
  rewrite Split_app, Split_app by done.
  intros (_ & url & h & ra & Hx & Ha)%patch_Ok. pose proof (delete_doc url h (canonical name) kind ps.2) as Hd.
  rewrite Hx in Hd. by apply Hd.
Qed.

(** PowerDNS holds one challenge at a time under a name: when a name and its
    wildcard are validated together, which both look under one name, presenting
    the second challenge leaves only its value there, and cleaning up after
    the first then removes the second as well; so such an order is never
    validated. *)
Theorem second_challenge_replaces_first base value value' sv ps sv1 ps1 sv2 ps2 :
  plain base -> HasPrefix base challengePrefix = false -> HasPrefix base (go "*.") = false ->
  x7c ∉ base -> x7c ∉ FQDN (challenge_record MinTTL (zone sv) base value) (zone sv) ->
  Present base value sv ps = (Ok tt, sv1, ps1) ->
  Present (go "*." ++ base) value' sv1 ps1 = (Ok tt, sv2, ps2) ->
  let name := canonical (FQDN (challenge_record MinTTL (zone sv) base value) (zone sv)) in
  rrsets ps2.2 !! (name, TypeTXT) = Some [(content_of (challenge_record MinTTL (zone sv) base value'), false)]
  /\ (forall sv3 ps3, CleanUp base value sv2 ps2 = (Ok tt, sv3, ps3) -> rrsets ps3.2 !! (name, TypeTXT) = None).
Proof.
  intros Hb Hc Hw Hv Hbar. unfold Present.
  destruct (Dns.AddRecord _ (challenge_record MinTTL (zone sv) base value) ps) as [[id|e] q1] eqn:H1; [|done].
  intros [= <- <-]. cbn [zone created].
  assert (challenge_record MinTTL (zone sv) (go "*." ++ base) value' = challenge_record MinTTL (zone sv) base value') as ->.
  { unfold challenge_record. by rewrite (challengeKey_plain base (go "*." ++ base)), (challengeKey_plain base base) by auto. }
  destruct (Dns.AddRecord _ (challenge_record MinTTL (zone sv) base value') q1) as [[id'|e] q2] eqn:H2; [|done].
  intros [= <- <-]. cbv zeta. apply replace_Ok in H1 as [Hid _], H2 as [_ Hr2].
  assert (forall v, FQDN (challenge_record MinTTL (zone sv) base v) (zone sv)
    = FQDN (challenge_record MinTTL (zone sv) base value) (zone sv)) as Hfq by (intros v; unfold FQDN; cbn [Name challenge_record]; reflexivity).
  rewrite Hfq in Hr2.
  set (full := FQDN (challenge_record MinTTL (zone sv) base value) (zone sv)) in *. split.
  - rewrite Hr2. apply lookup_insert_eq.
  - intros sv3 ps3. unfold CleanUp. cbn [created zone].
    rewrite lookup_insert_ne, lookup_insert_eq.
    + change (Dns.DeleteRecord (zone sv) id q2) with (DeleteRecord (zone sv) id q2).
      destruct (DeleteRecord (zone sv) id q2) as [[[]|e] q3] eqn:Hd; [|done]. intros [= <- <-].
      assert (id = full ++ go "|" ++ TypeTXT ++ go "|" ++ go "0") as Hid' by exact Hid. rewrite Hid' in Hd.
      assert (x7c ∉ TypeTXT) as Htxt by (apply (bool_decide_unpack _); by vm_compute).
      pose proof (delete_set_Ok (zone sv) full TypeTXT (go "0") q2 q3 Hbar Htxt Hd) as Hdel.
      rewrite Hdel. apply lookup_delete_eq.
    + destruct Hb as (Hb & Hne & Hdot).
      assert (TrimSuffix base (go ".") = base) as Ht by (by apply TrimSuffix_none).
      assert (TrimSuffix (go "*." ++ base) (go ".") = go "*." ++ base) as Ht'.
      { apply TrimSuffix_none. destruct base as [|c base]; [done|].
        rewrite HasSuffix_app_nonempty; [exact Hdot|done|simpl; lia]. }
      assert (Forall plain_byte (go "*." ++ base)) as Hb' by (apply Forall_app; split; [apply (bool_decide_unpack _); by vm_compute|done]).
      change (challengeToken (go "*." ++ base) value' <> challengeToken base value).
      unfold challengeToken. rewrite Ht, Ht', !plain_ToLower by done. intros E.
      apply (f_equal (fun s => Cut s [x7c])) in E.
      change (Cut ((go "*." ++ base) ++ x7c :: value') [x7c] = Cut (base ++ x7c :: value) [x7c]) in E.
      rewrite !Cut_app in E; [|done|].
      * injection E as E _. apply (f_equal length) in E. simpl in E. lia.
      * rewrite elem_of_app. intros [Hin|Hin]; [|done]. revert Hin. change (x7c ∉ go "*.").
        apply (bool_decide_unpack _). by vm_compute.
Qed.
End challenges.

Section examples.
#[local] Existing Instance no_unicode.
#[local] Existing Instance binary_text.
#[local] Existing Instance binary_text_laws.

Abbreviation sets := (gmap (bytes * bytes) (list (bytes * bool))).

(** A service that reads the change out of the body. *)
Definition decode_content : json -> option (bytes * bool) :=
  as_struct (fun r => content ← field "content" as_string r; disabled ← field "disabled" as_bool r; Some (content, disabled)).

Definition apply_change (s : sets) (fields : list (bytes * json)) : option sets :=
  name ← field "name" as_string fields; kind ← field "type" as_string fields;
  change ← field "changetype" as_string fields; records ← field "records" (as_list decode_content) fields;
  if bool_decide (change = go "REPLACE") then Some (<[(name, kind) := records]> s)
  else if bool_decide (change = go "DELETE") then Some (delete (name, kind) s) else None.

Definition read_patch (s : sets) (body : bytes) : option sets :=
  match json_parse body with
  | Some (JObject [(_, JArray [JObject fields])]) => apply_change s fields
  | _ => None
  end.

#[local] Instance example_service : Service sets := {|
  exchange w s := match read_patch s (w_Body w) with
                  | Some s' => (Ok (MkAnswer 204 [] (Ok tt)), s')
                  | None => (Ok (MkAnswer 422 [] (Ok tt)), s)
                  end;
  s_now _ := 0; s_random _ := Err [] |}.

#[local] Instance example_docs : PdnsDocs sets.
Proof.
  refine {| rrsets s := s |}.
  - intros url h name kind ttl content disabled s. unfold exchange, example_service. cbn [w_Body].
    unfold read_patch. rewrite json_parse_text.
    assert (patch_body (replace_set name kind ttl content disabled)
            = JObject [(go "rrsets", JArray [JObject [(go "changetype", JString (go "REPLACE")); (go "name", JString name);
                (go "records", JArray [JObject [(go "content", JString content); (go "disabled", JBool disabled)]]);
                (go "ttl", JInt ttl); (go "type", JString kind)]])]) as -> by (by vm_compute).
    done.
  - intros url h name kind s. unfold exchange, example_service. cbn [w_Body].
    unfold read_patch. rewrite json_parse_text.
    assert (patch_body (delete_set name kind)
            = JObject [(go "rrsets", JArray [JObject [(go "changetype", JString (go "DELETE")); (go "name", JString name);
                (go "type", JString kind)]])]) as -> by (by vm_compute).
    done.
Defined.

Definition example_provider : provider := new_provider {[ go "url" := go "http://127.0.0.1:8081/"; go "api_key" := go "k" ]}.

Definition example_solver : Solver := NewSolver (go "example.com").

Definition present_value (v : string) (sv : Solver) (ps : provider * sets) := Present (go "example.com") (go v) sv ps.

Lemma second_challenge_replaces_first_witness :
  let '(r1, sv1, ps1) := Present (go "example.com") (go "one") example_solver (example_provider, (∅ : sets)) in
  let '(r2, sv2, ps2) := Present (go "*." ++ go "example.com") (go "two") sv1 ps1 in
  r1 = Ok tt /\ r2 = Ok tt
  /\ (let name := canonical (FQDN (challenge_record MinTTL (zone example_solver) (go "example.com") (go "one")) (zone example_solver)) in
      rrsets ps2.2 !! (name, TypeTXT)
        = Some [(content_of (challenge_record MinTTL (zone example_solver) (go "example.com") (go "two")), false)]
      /\ (forall sv3 ps3, CleanUp (go "example.com") (go "one") sv2 ps2 = (Ok tt, sv3, ps3) -> rrsets ps3.2 !! (name, TypeTXT) = None)).
Proof.
  destruct (Present (go "example.com") (go "one") _ _) as [[r1 sv1] ps1] eqn:E1.
  assert (r1 = Ok tt) as ->.
  { assert ((Present (go "example.com") (go "one") example_solver (example_provider, (∅ : sets))).1.1 = Ok tt) as H by (by vm_compute).
    by rewrite E1 in H. }
  destruct (Present (go "*." ++ go "example.com") (go "two") sv1 ps1) as [[r2 sv2] ps2] eqn:E2.
  assert (r2 = Ok tt) as ->.
  { assert ((let q := Present (go "example.com") (go "one") example_solver (example_provider, (∅ : sets)) in
             (Present (go "*." ++ go "example.com") (go "two") q.1.2 q.2).1.1) = Ok tt) as H by (by vm_compute).
    rewrite E1 in H. cbn [fst snd] in H. by rewrite E2 in H. }
  split; [done|]. split; [done|].
  refine (second_challenge_replaces_first (Docs := example_docs) (go "example.com") (go "one") (go "two") example_solver
    (example_provider, (∅ : sets)) sv1 ps1 sv2 ps2 _ _ _ _ _ E1 E2);
    apply (bool_decide_unpack _); by vm_compute.
Defined.
End examples.
