(* ===== verification/Providers.v ===== *)
(** The providers the program is built with: the registrations of
    [internal/dns/providers] (providers.go and the [init] of every provider). *)
From S2P Require Import Prelude GoStrings Schema Dns.
From S2P Require Cloudflare Huawei Dnspod Aliyun West Namesilo PowerDns.

Definition RemarkUnsupported : Z := 0.
Definition RemarkSeparate : Z := 1.
Definition RemarkInline : Z := 2.

(** A text field, and a secret one. *)
Definition text_field (name label : string) (required : bool) (default : string) (show : string) : Field :=
  MkField (go name) (go label) (go "text") required (go default) [] (go show) false [].
Definition secret_field (name label : string) (show : string) : Field :=
  MkField (go name) (go label) (go "password") true [] [] (go show) true [].

(** ** The descriptors *)

Definition aliyun : Descriptor :=
  MkDescriptor Aliyun.providerKey (go "阿里云 DNS")
    [text_field "access_key_id" "AccessKey ID" true "" ""; secret_field "access_key_secret" "AccessKey Secret" ""]
    (MkCapabilities RemarkSeparate true true true true false false true 600 []).

Definition cloudflare : Descriptor :=
  MkDescriptor (go "cloudflare") (go "Cloudflare")
    [MkField (go "auth") (go "Authentication") KindSelect true (go "token")
       [MkOption (go "token") (go "API Token") (go "Scoped to specific zones. Strongly preferred.");
        MkOption (go "key") (go "Global API Key") (go "Full account access. Use only if a token will not do.")] [] false [];
     secret_field "api_token" "API Token" "auth == 'token'";
     text_field "email" "Account email" true "" "auth == 'key'";
     secret_field "api_key" "Global API Key" "auth == 'key'"]
    (MkCapabilities RemarkInline false false false false true false true 60 []).

Definition dnspod : Descriptor :=
  MkDescriptor Dnspod.providerKey (go "腾讯云 DNSPod")
    [text_field "secret_id" "SecretId" true "" ""; secret_field "secret_key" "SecretKey" ""]
    (MkCapabilities RemarkInline true true true false false false true 600 []).

Definition huawei : Descriptor :=
  MkDescriptor Huawei.providerKey (go "华为云 DNS")
    [text_field "access_key_id" "Access Key Id" true "" ""; secret_field "secret_access_key" "Secret Access Key" "";
     text_field "endpoint" "Endpoint" false "dns.myhuaweicloud.com" ""]
    (MkCapabilities RemarkInline true false false false false false true 1 []).

Definition namesilo : Descriptor :=
  MkDescriptor (go "namesilo") (go "NameSilo") [secret_field "api_key" "API Key" ""]
    (MkCapabilities RemarkUnsupported false false false false false false false 3600 []).

Definition powerdns : Descriptor :=
  MkDescriptor (go "powerdns") (go "PowerDNS")
    [text_field "url" "API URL" true "" ""; secret_field "api_key" "API Key" "";
     text_field "server_id" "Server ID" false "localhost" ""]
    (MkCapabilities RemarkUnsupported false false false false false true false 1 []).

Definition west : Descriptor :=
  MkDescriptor West.providerKey (go "西部数码")
    [text_field "username" "用户名" true "" ""; secret_field "api_password" "API 密码" ""]
    (MkCapabilities RemarkUnsupported true false false false false false true 60 []).

(** ** The registrations *)

Inductive instance : Type :=
  | IAliyun (p : Aliyun.provider)
  | ICloudflare (p : Cloudflare.provider)
  | IDnspod (p : Dnspod.provider)
  | IHuawei (p : Huawei.provider)
  | INamesilo (p : Namesilo.provider)
  | IPowerDns (p : PowerDns.provider)
  | IWest (p : West.provider).

(** Packages are initialised in the order of their import paths. *)
Definition registrations : list (Descriptor * (gmap bytes bytes -> instance)) :=
  [(aliyun, fun v => IAliyun (Aliyun.new_provider v)); (cloudflare, fun v => ICloudflare (Cloudflare.new_provider v));
   (dnspod, fun v => IDnspod (Dnspod.new_provider v)); (huawei, fun v => IHuawei (Huawei.new_provider v));
   (namesilo, fun v => INamesilo (Namesilo.new_provider v)); (powerdns, fun v => IPowerDns (PowerDns.new_provider v));
   (west, fun v => IWest (West.new_provider v))].

Definition register_one (reg : option (gmap bytes registration)) (e : Descriptor * (gmap bytes bytes -> instance))
  : option (gmap bytes registration) :=
  reg ← reg; Register e.1 (fun v => Ok (e.2 v)) reg.

(** [None] is the panic of a registration. *)
Definition init : option (gmap bytes registration) := foldl register_one (Some ∅) registrations.

(** ** What the forms ask for *)

(** A field whose own definition cannot fail. *)
Definition plain_field (field : Field) : Prop :=
  f_Pattern field = [] /\ forall values, exists b, Visible (f_ShowIf field) values = Ok b.

Lemma no_condition values : Visible [] values = Ok true.
Proof. done. Qed.

Lemma single_condition atom values :
  TrimSpace atom = atom -> atom <> [] -> splitTop atom (go "||") = [atom] -> splitTop atom (go "&&") = [atom] ->
  Visible atom values = evalAtom atom values.
Proof.
  intros Ht Hne Hor Hand. unfold Visible. rewrite Ht, bool_decide_eq_false_2 by done. rewrite Hor.
  cbn [any_term]. unfold evalTerm. rewrite Hand. cbn [all_atoms].
  destruct (evalAtom atom values) as [[]|e]; done.
Qed.

Lemma token_condition values :
  Visible (go "auth == 'token'") values = Ok (bool_decide (value_of values (go "auth") = go "token")).
Proof. rewrite single_condition; [done|by vm_compute..]. Qed.

Lemma key_condition values :
  Visible (go "auth == 'key'") values = Ok (bool_decide (value_of values (go "auth") = go "key")).
Proof. rewrite single_condition; [done|by vm_compute..]. Qed.

(** What a form says of values when its own definition cannot fail: a field
    that shows and is required has a value, a choice is one of the choices. *)
Definition field_ok (values : gmap bytes bytes) (field : Field) (shown : bool) : Prop :=
  shown = true ->
  let value := TrimSpace (value_of values (f_Name field)) in
  (f_Required field = true -> value <> [])
  /\ (value <> [] -> f_Kind field = KindSelect -> f_Options field <> [] -> value ∈ (o_Value <$> f_Options field)).

Lemma validate_field_ok `{Regexp} values field shown :
  f_Pattern field = [] -> Visible (f_ShowIf field) values = Ok shown ->
  is_ok (validate_field values field) = true <-> field_ok values field shown.
Proof.
  intros Hp Hv. unfold validate_field, field_ok. rewrite Hv. destruct shown; [|by split].
  rewrite Hp. rewrite (bool_decide_eq_true_2 (([] : bytes) = [])) by done.
  set (value := TrimSpace _). destruct (decide (value = [])) as [E|E].
  - rewrite bool_decide_eq_true_2 by done. destruct (f_Required field); split; try done.
    intros Hf. by destruct (proj1 (Hf eq_refl)).
  - rewrite bool_decide_eq_false_2 by done. unfold check_choice.
    destruct (decide (f_Kind field = KindSelect)) as [Hk|Hk]; [|rewrite bool_decide_eq_false_2 by done; split; [by split|done]].
    rewrite bool_decide_eq_true_2 by done. destruct (decide (f_Options field = [])) as [Ho|Ho].
    { rewrite bool_decide_eq_true_2 by done. split; [by split|done]. }
    rewrite bool_decide_eq_false_2 by done. cbn [negb andb].
    destruct (existsb _ (f_Options field)) eqn:Ex; split; try done.
    + intros _ _. split; [done|]. intros _ _ _. apply existsb_exists in Ex as (o & Ho2 & Heq).
      apply bool_decide_eq_true_1 in Heq as <-. apply list_elem_of_fmap. exists o. split; [done|]. by apply list_elem_of_In.
    + intros Hf. destruct (Hf eq_refl) as [_ Hc]. specialize (Hc E Hk Ho). apply list_elem_of_fmap in Hc as (o & Heq & Hin).
      assert (existsb (fun o => bool_decide (o_Value o = value)) (f_Options field) = true); [|congruence].
      apply existsb_exists. exists o. split; [by apply list_elem_of_In|]. by apply bool_decide_eq_true_2.
Qed.

(** ** The registry *)

(** A descriptor as it is registered. *)
Definition lined (d : Descriptor) : Descriptor :=
  match c_Lines (d_Caps d) with
  | [] => MkDescriptor (Key d) (d_Label d) (d_Form d) (with_lines (SupportedLines (Key d)) (d_Caps d))
  | _ => d
  end.

Definition entry (e : Descriptor * (gmap bytes bytes -> instance)) : registration :=
  MkRegistration (lined e.1) (fun v => Ok (e.2 v)).

Lemma register_all (es : list (Descriptor * (gmap bytes bytes -> instance))) (reg : gmap bytes registration) :
  NoDup (Key <$> es.*1) -> Forall (fun e => Key e.1 <> [] /\ reg !! Key e.1 = None) es ->
  exists reg', foldl register_one (Some reg) es = Some reg' /\ forall e, e ∈ es -> reg' !! Key e.1 = Some (entry e).
Proof.
  enough (forall (es : list (Descriptor * (gmap bytes bytes -> instance))) (reg : gmap bytes registration), NoDup (Key <$> es.*1) -> Forall (fun e => Key e.1 <> [] /\ reg !! Key e.1 = None) es ->
    exists reg', foldl register_one (Some reg) es = Some reg' /\ (forall e, e ∈ es -> reg' !! Key e.1 = Some (entry e))
    /\ forall k, is_Some (reg !! k) -> reg' !! k = reg !! k) as H.
  { intros Hnd Hes. destruct (H es reg Hnd Hes) as (reg' & ? & ? & _). eauto. }
  clear es reg. induction es as [|e es IH]; intros reg Hnd Hes.
  { exists reg. split; [done|]. split; [|done]. intros e He. by apply not_elem_of_nil in He. }
  cbn [fmap list_fmap] in Hnd. apply NoDup_cons in Hnd as [Hn Hnd]. apply Forall_cons in Hes as [[Hk Hnone] Hes].
  assert (register_one (Some reg) e = Some (<[Key e.1 := entry e]> reg)) as Hone.
  { unfold register_one, Register. cbn [mbind option_bind]. rewrite bool_decide_eq_false_2, Hnone by done.
    unfold entry, lined. by destruct (c_Lines (d_Caps e.1)). }
  cbn [foldl]. rewrite Hone.
  destruct (IH (<[Key e.1 := entry e]> reg) Hnd) as (reg' & H1 & H2 & H3).
  - rewrite Forall_forall in *. intros e' He'. destruct (Hes e' He') as [? ?]. split; [done|].
    rewrite lookup_insert_ne; [done|]. intros E. apply Hn. rewrite E. apply list_elem_of_fmap. exists e'.1. split; [done|].
    apply list_elem_of_fmap. by exists e'.
  - exists reg'. split; [done|]. split.
    + intros e' [->|He']%elem_of_cons; [|by apply H2]. rewrite H3 by (rewrite lookup_insert_eq; eauto). apply lookup_insert_eq.
    + intros k Hs. rewrite H3; [|apply lookup_insert_is_Some'; by right].
      rewrite lookup_insert_ne; [done|]. intros <-. rewrite Hnone in Hs. by destruct Hs.
Qed.

Section accounts.
Context `{RX : Regexp}.

Definition form_ok (f : Form) (values : gmap bytes bytes) : Prop :=
  Forall (fun field => exists shown, Visible (f_ShowIf field) values = Ok shown /\ field_ok values field shown) f.

Lemma Validate_ok f values :
  Forall plain_field f -> is_ok (Schema.Validate f values) = true <-> form_ok f values.
Proof.
  intros Hf. unfold form_ok, Schema.Validate. transitivity (Forall (fun x => is_ok (validate_field values x) = true) f).
  - rewrite <- Forall_iff with (P := fun x => validate_field values x = Ok tt).
    + rewrite <- first_err_ok. split; [by destruct (first_err _ _) as [[]|]|by intros ->].
    + intros x. split; [by intros ->|]. by destruct (validate_field values x) as [[]|].
  - rewrite !Forall_forall in *. split; intros H x Hx; destruct (Hf x Hx) as [Hp Hv]; destruct (Hv values) as [b Hb].
    + exists b. split; [done|]. by apply validate_field_ok, H.
    + destruct (H x Hx) as (b' & Hb' & Hok). assert (b' = b) as -> by congruence. by eapply validate_field_ok.
Qed.

Lemma forms_plain : Forall (fun e : Descriptor * (gmap bytes bytes -> instance) => Forall plain_field (d_Form e.1)) registrations.
Proof.
  assert (Forall (fun f => Forall (fun field => f_Pattern field = []
            /\ f_ShowIf field ∈ [[]; go "auth == 'token'"; go "auth == 'key'"]) f) (d_Form <$> registrations.*1)) as H
    by (apply (bool_decide_unpack _); by vm_compute).
  rewrite !Forall_fmap in H. eapply Forall_impl; [exact H|]. intros e He. eapply Forall_impl; [exact He|].
  intros field [Hp Hs]. split; [done|]. intros values.
  rewrite !elem_of_cons in Hs. destruct Hs as [->|[->|[->|Hs]]];
    [eexists; apply no_condition|eexists; apply token_condition|eexists; apply key_condition|by apply not_elem_of_nil in Hs].
Qed.

(** The program has its seven providers: registering them does not panic,
    the registry lists them in order, each with the lines its service knows; an
    account of one of them is opened exactly when, after the defaults, every
    field that shows and is required has a value and every choice is one of the
    form's, whatever is in it, and the provider then has the values of the
    account; and no form is at fault itself. *)
Theorem providers_registered :
  exists reg, init = Some reg
  /\ Keys reg = [go "aliyun"; go "cloudflare"; go "dnspod"; go "huawei"; go "namesilo"; go "powerdns"; go "west"]
  /\ forall d new values, (d, new) ∈ registrations ->
       Describe (Key d) reg = Some (lined d)
       /\ let v := ApplyDefaults (d_Form d) values in
          (form_ok (d_Form d) v -> New (Key d) values reg = Ok (new v))
          /\ (forall i, New (Key d) values reg = Ok i -> form_ok (d_Form d) v /\ i = new v).
Proof.
  destruct (register_all registrations ∅) as (reg & Hinit & Hreg).
  - apply (bool_decide_unpack _). by vm_compute.
  - rewrite Forall_forall. intros e He. split; [|apply lookup_empty].
    assert (Forall (fun k => k <> []) (Key <$> registrations.*1)) as Hne by (apply (bool_decide_unpack _); by vm_compute).
    rewrite Forall_forall in Hne. apply Hne, list_elem_of_fmap. exists e.1. split; [done|]. apply list_elem_of_fmap. by exists e.
  - exists reg. split; [done|]. split.
    + assert (Keys <$> init = Some [go "aliyun"; go "cloudflare"; go "dnspod"; go "huawei"; go "namesilo"; go "powerdns"; go "west"])
        as Hk by (by vm_compute).
      unfold init in Hk. rewrite Hinit in Hk. by injection Hk.
    + intros d new values He. pose proof (Hreg _ He) as Hl. cbn [fst] in Hl.
      pose proof forms_plain as Hp. rewrite Forall_forall in Hp. specialize (Hp _ He). cbn [fst] in Hp.
      assert (d_Form (lined d) = d_Form d) as Hform by (unfold lined; by destruct (c_Lines (d_Caps d))).
      unfold Describe, New. rewrite Hl. cbn [fmap option_fmap option_map desc entry fst snd factory].
      split; [done|]. cbv zeta. rewrite Hform. pose proof (Validate_ok (d_Form d) (ApplyDefaults (d_Form d) values) Hp) as Hv.
      destruct (Schema.Validate _ _) as [u|e].
      * split; [done|]. intros i [= <-]. split; [by apply Hv|done].
      * split; [|done]. intros Hok. by apply Hv in Hok.
Qed.
End accounts.
