(* ===== verification/Records.v ===== *)
(** Records at the services: the calls of [internal/manage/dns.go] that open the
    provider of a stored account and use it, and the [dns] command
    ([cmd/openfrpc/cmd/dns.go], manage.go) in front of them.

    The database is [Storage], the registry [Providers], and every provider
    talks to one outside world [S].  A provider lives as long as one call, so
    what it caches is gone after it.  [order] is the order a map gives its keys
    in; the JSON a command reads from its input is given decoded. *)
From S2P Require Import Prelude GoStrings Schema Dns Storage Accounts Url Http Protocol CloudApi.
From S2P Require Cloudflare Huawei Dnspod Aliyun West Namesilo PowerDns.
From S2P Require Import Providers.

Inductive manerr : Type :=
  | ManageErr (e : accounterr)
  | ManageDns (e : dnserr)
  | CannotPause
  | NeedsZone (action : bytes)
  | UnknownAction (action : bytes)
  | BadRequest (e : bytes)
  | NoDatabase (e : bytes).

Section records.
Context `{RX : Regexp} `{U : Unicode} `{UU : UnicodeUpper} `{HM : Hmac} `{HS : Hashes} `{JT : JsonText} `{XR : Namesilo.XmlReply}
  {S : Type} `{Sv : Service S}.
Context (order : list (bytes * bytes) -> list (bytes * bytes)).

(** ** An operation of whichever provider it is *)

(** An operation of one provider, with nothing cached. *)
Definition fresh {X A} (op : prov (X * S) A) (p : X) (s : S) : res dnserr A * S :=
  let '(r, (_, s)) := op (p, s) in (r, s).

Definition Check (i : instance) : S -> res dnserr unit * S :=
  match i with
  | IAliyun p => fresh Aliyun.Check p
  | ICloudflare p => fresh Cloudflare.Check p
  | IDnspod p => fresh Dnspod.Check p
  | IHuawei p => fresh Huawei.Check p
  | INamesilo p => fresh Namesilo.Check p
  | IPowerDns p => fresh PowerDns.Check p
  | IWest p => fresh West.Check p
  end.

Definition ListDomains (opts : ListOptions) (i : instance) : S -> res dnserr (list Domain) * S :=
  match i with
  | IAliyun p => fresh (Aliyun.ListDomains opts) p
  | ICloudflare p => fresh (Cloudflare.ListDomains opts) p
  | IDnspod p => fresh (Dnspod.ListDomains opts) p
  | IHuawei p => fresh (Huawei.ListDomains opts) p
  | INamesilo p => fresh Namesilo.ListDomains p
  | IPowerDns p => fresh PowerDns.ListDomains p
  | IWest p => fresh (West.ListDomains opts) p
  end.

Definition ListRecords (zone : bytes) (opts : ListOptions) (i : instance) : S -> res dnserr (list DnsRecord) * S :=
  match i with
  | IAliyun p => fresh (Aliyun.ListRecords order zone opts) p
  | ICloudflare p => fresh (Cloudflare.ListRecords zone opts) p
  | IDnspod p => fresh (Dnspod.ListRecords order zone opts) p
  | IHuawei p => fresh (Huawei.ListRecords order zone opts) p
  | INamesilo p => fresh (Namesilo.ListRecords zone) p
  | IPowerDns p => fresh (PowerDns.ListRecords zone) p
  | IWest p => fresh (West.ListRecords order zone opts) p
  end.

Definition AddRecord (zone : bytes) (r : DnsRecord) (i : instance) : S -> res dnserr bytes * S :=
  match i with
  | IAliyun p => fresh (Aliyun.AddRecord zone r) p
  | ICloudflare p => fresh (Cloudflare.AddRecord zone r) p
  | IDnspod p => fresh (Dnspod.AddRecord zone r) p
  | IHuawei p => fresh (Huawei.AddRecord zone r) p
  | INamesilo p => fresh (Namesilo.AddRecord zone r) p
  | IPowerDns p => fresh (PowerDns.AddRecord zone r) p
  | IWest p => fresh (West.AddRecord zone r) p
  end.

Definition UpdateRecord (zone : bytes) (r : DnsRecord) (i : instance) : S -> res dnserr unit * S :=
  match i with
  | IAliyun p => fresh (Aliyun.UpdateRecord r) p
  | ICloudflare p => fresh (Cloudflare.UpdateRecord zone r) p
  | IDnspod p => fresh (Dnspod.UpdateRecord zone r) p
  | IHuawei p => fresh (Huawei.UpdateRecord zone r) p
  | INamesilo p => fresh (Namesilo.UpdateRecord zone r) p
  | IPowerDns p => fresh (PowerDns.UpdateRecord zone r) p
  | IWest p => fresh (West.UpdateRecord zone r) p
  end.

Definition DeleteRecord (zone id : bytes) (i : instance) : S -> res dnserr unit * S :=
  match i with
  | IAliyun p => fresh (Aliyun.DeleteRecord id) p
  | ICloudflare p => fresh (Cloudflare.DeleteRecord zone id) p
  | IDnspod p => fresh (Dnspod.DeleteRecord zone id) p
  | IHuawei p => fresh (Huawei.DeleteRecord zone id) p
  | INamesilo p => fresh (Namesilo.DeleteRecord zone id) p
  | IPowerDns p => fresh (PowerDns.DeleteRecord zone id) p
  | IWest p => fresh (West.DeleteRecord zone id) p
  end.

(** [client.(dns.StatusSetter)]: the providers that can pause a record. *)
Definition StatusSetter (i : instance) : option (bytes -> bytes -> bool -> S -> res dnserr unit * S) :=
  match i with
  | IAliyun p => Some (fun _ id enabled => fresh (Aliyun.SetRecordStatus id enabled) p)
  | IDnspod p => Some (fun zone id enabled => fresh (Dnspod.SetRecordStatus zone id enabled) p)
  | IHuawei p => Some (fun zone id enabled => fresh (Huawei.SetRecordStatus zone id enabled) p)
  | IWest p => Some (fun zone id enabled => fresh (West.SetRecordStatus zone id enabled) p)
  | _ => None
  end.

(** ** The calls of the management (manage/dns.go) *)

Context (reg : gmap bytes (registration (I := instance))).

(** What all of them do: open the provider of the account and use it. *)
Definition on_provider {A} (accountID : Z) (f : instance -> S -> res manerr A * S) (d : DB) (s : S) : res manerr A * DB * S :=
  match provider reg accountID d with
  | (Err e, d) => (Err (ManageErr e), d, s)
  | (Ok client, d) => let '(r, s) := f client s in (r, d, s)
  end.

Definition dns_op {A} (f : S -> res dnserr A * S) (s : S) : res manerr A * S :=
  let '(r, s) := f s in (map_err ManageDns r, s).

Definition svc_TestAccount (id : Z) : DB -> S -> res manerr unit * DB * S := on_provider id (fun i => dns_op (Check i)).
Definition svc_ListDomains (id : Z) (opts : ListOptions) : DB -> S -> res manerr (list Domain) * DB * S :=
  on_provider id (fun i => dns_op (ListDomains opts i)).
Definition svc_ListRecords (id : Z) (zone : bytes) (opts : ListOptions) : DB -> S -> res manerr (list DnsRecord) * DB * S :=
  on_provider id (fun i => dns_op (ListRecords zone opts i)).

Definition svc_AddRecord (id : Z) (zone : bytes) (r : DnsRecord) (d : DB) (s : S) : res manerr bytes * DB * S :=
  match Dns.Validate r with
  | Err e => (Err (ManageDns e), d, s)
  | Ok _ => on_provider id (fun i => dns_op (AddRecord zone r i)) d s
  end.
Definition svc_UpdateRecord (id : Z) (zone : bytes) (r : DnsRecord) (d : DB) (s : S) : res manerr unit * DB * S :=
  match Dns.Validate r with
  | Err e => (Err (ManageDns e), d, s)
  | Ok _ => on_provider id (fun i => dns_op (UpdateRecord zone r i)) d s
  end.
Definition svc_DeleteRecord (id : Z) (zone rid : bytes) : DB -> S -> res manerr unit * DB * S :=
  on_provider id (fun i => dns_op (DeleteRecord zone rid i)).

Definition svc_SetRecordStatus (id : Z) (zone rid : bytes) (enabled : bool) : DB -> S -> res manerr unit * DB * S :=
  on_provider id (fun i s =>
    match StatusSetter i with
    | None => (Err CannotPause, s)
    | Some setter => dns_op (setter zone rid enabled) s
    end).

(** ** The command *)

Inductive dns_data : Type :=
  | DNothing
  | DProviders (l : list Descriptor)
  | DAccounts (l : list AccountView)
  | DAccount (v : AccountView)
  | DText (key value : bytes)
  | DCapabilities (c : Capabilities)
  | DDomains (l : list Domain)
  | DRecords (l : list DnsRecord).

Record dns_flags := MkFlags { fl_id : Z; fl_zone : bytes; fl_record : bytes; fl_enabled : bool; fl_opts : ListOptions }.

Definition of_service {A} (to : A -> dns_data) (r : res manerr A * DB * S) : res manerr dns_data * DB * S :=
  let '(r, d, s) := r in (to <$> r, d, s).
Definition of_accounts {A} (to : A -> dns_data) (r : res accounterr A * DB) (s : S) : res manerr dns_data * DB * S :=
  let '(r, d) := r in (to <$> map_err ManageErr r, d, s).

(** What the action answers: [account_in] and [record_in] are what
    [readStdinJSON] gives. *)
Definition dns_action (now : Z) (action : bytes) (fl : dns_flags) (account_in : res bytes AccountInput) (record_in : res bytes DnsRecord)
  (d : DB) (s : S) : res manerr dns_data * DB * S :=
  if bool_decide (action = go "providers") then (Ok (DProviders (Descriptors reg)), d, s)
  else if bool_decide (action = go "accounts") then of_accounts DAccounts (ListAccounts reg d) s
  else if bool_decide (action = go "account-add") then
    match account_in with
    | Err e => (Err (BadRequest e), d, s)
    | Ok inp => of_accounts DAccount (CreateAccount reg now inp d) s
    end
  else if bool_decide (action = go "account-update") then
    match account_in with
    | Err e => (Err (BadRequest e), d, s)
    | Ok inp => of_accounts DAccount (UpdateAccount reg now inp d) s
    end
  else if bool_decide (action = go "account-delete") then of_accounts (fun _ => DNothing) (DeleteAccount (fl_id fl) d) s
  else if bool_decide (action = go "account-test") then
    of_service (fun _ => DText (go "result") (go "the credentials work")) (svc_TestAccount (fl_id fl) d s)
  else if bool_decide (action = go "capabilities") then of_accounts DCapabilities (AccountCapabilities reg (fl_id fl) d) s
  else if bool_decide (action = go "domains") then of_service DDomains (svc_ListDomains (fl_id fl) (fl_opts fl) d s)
  else if bool_decide (action = go "records") then
    if bool_decide (fl_zone fl = []) then (Err (NeedsZone action), d, s)
    else of_service DRecords (svc_ListRecords (fl_id fl) (fl_zone fl) (fl_opts fl) d s)
  else if bool_decide (action = go "record-add") then
    match record_in with
    | Err e => (Err (BadRequest e), d, s)
    | Ok r => of_service (DText (go "id")) (svc_AddRecord (fl_id fl) (fl_zone fl) r d s)
    end
  else if bool_decide (action = go "record-update") then
    match record_in with
    | Err e => (Err (BadRequest e), d, s)
    | Ok r => of_service (fun _ => DNothing) (svc_UpdateRecord (fl_id fl) (fl_zone fl) r d s)
    end
  else if bool_decide (action = go "record-delete") then
    of_service (fun _ => DNothing) (svc_DeleteRecord (fl_id fl) (fl_zone fl) (fl_record fl) d s)
  else if bool_decide (action = go "record-status") then
    of_service (fun _ => DNothing) (svc_SetRecordStatus (fl_id fl) (fl_zone fl) (fl_record fl) (fl_enabled fl) d s)
  else (Err (UnknownAction action), d, s).

(** The document on the output; a command that failed also exits with an error. *)
Record reply := MkReply { rp_OK : bool; rp_Data : dns_data; rp_Error : option manerr }.

Definition emit (r : res manerr dns_data) : reply * bool :=
  match r with
  | Ok data => (MkReply true data None, true)
  | Err e => (MkReply false DNothing (Some e), false)
  end.

(** [withService]: [opened] is the error of opening the database. *)
Definition runDNS (opened : option bytes) (now : Z) (action : bytes) (fl : dns_flags) account_in record_in (d : DB) (s : S)
  : (reply * bool) * DB * S :=
  match opened with
  | Some e => (emit (Err (NoDatabase e)), d, s)
  | None => let '(r, d, s) := dns_action now action fl account_in record_in d s in (emit r, d, s)
  end.
End records.

(** ** What a command touches *)

Section effects.
Context `{RX : Regexp} `{U : Unicode} `{UU : UnicodeUpper} `{HM : Hmac} `{HS : Hashes} `{JT : JsonText} `{XR : Namesilo.XmlReply}
  {S : Type} `{Sv : Service S}.
Context (order : list (bytes * bytes) -> list (bytes * bytes)) (reg : gmap bytes (registration (I := instance))).

(** The stored account can be opened. *)
Definition opens (id : Z) (d : DB) : Prop :=
  exists a i, accounts d !! id = Some a /\ New (acc_Provider a) (acc_Credentials a) reg = Ok i.

Lemma provider_spec id d r d' : provider reg id d = (r, d') ->
  same_tables d d' /\ forall i, r = Ok i -> exists a, accounts d !! id = Some a /\ New (acc_Provider a) (acc_Credentials a) reg = Ok i.
Proof.
  unfold provider, Accounts_Get. destruct (execute _ d) as [r0 d0] eqn:E.
  apply execute_cases in E as [[-> Hs]|(d1 & Hs & _ & E)]; [by intros [= <- <-]|].
  assert (accounts d1 = accounts d) as Ha by apply Hs. rewrite Ha in E.
  destruct (accounts d !! id) as [a|] eqn:Ea; injection E as <- <-; intros [= <- <-]; (split; [done|]); [|done].
  intros i Hi. exists a. split; [done|]. by destruct (New _ _ _) as [i'|e]; [injection Hi as ->|].
Qed.

Lemma on_provider_effects {A} id (f : instance -> S -> res manerr A * S) d s r d' s' :
  on_provider reg id f d s = (r, d', s') -> same_tables d d' /\ (s' = s \/ opens id d).
Proof.
  unfold on_provider. destruct (provider reg id d) as [[i|e] d1] eqn:E; apply provider_spec in E as [Hs Hi].
  - destruct (f i s) as [r1 s1]. intros [= <- <- <-]. split; [done|]. right. destruct (Hi i eq_refl) as (a & ? & ?). by exists a, i.
  - intros [= <- <- <-]. split; [done|by left].
Qed.

Lemma of_service_inv {A} (to : A -> dns_data) x out d' s' : of_service (S := S) to x = (out, d', s') -> exists r, x = (r, d', s').
Proof. destruct x as [[r d1] s1]. unfold of_service. intros [= _ <- <-]. by exists r. Qed.

Lemma of_accounts_inv {A} (to : A -> dns_data) x s out d' s' : of_accounts (S := S) to x s = (out, d', s') -> s' = s /\ exists r, x = (r, d').
Proof. destruct x as [r d1]. unfold of_accounts. intros [= _ <- <-]. split; [done|by exists r]. Qed.

Lemma record_call_effects {A} id (rec : DnsRecord) (f : instance -> S -> res manerr A * S) d s r d' s' :
  match Dns.Validate rec with Err e => (Err (ManageDns e), d, s) | Ok _ => on_provider reg id f d s end = (r, d', s') ->
  same_tables d d' /\ (s' = s \/ opens id d /\ Dns.Validate rec = Ok tt).
Proof.
  destruct (Dns.Validate rec) as [[]|e] eqn:E; [|intros [= _ <- <-]; split; [done|by left]].
  intros [Hs [->|Ho]]%on_provider_effects; (split; [done|]); [by left|by right].
Qed.

Definition account_changes : list bytes := [go "account-add"; go "account-update"; go "account-delete"].
Definition service_actions : list bytes :=
  [go "account-test"; go "domains"; go "records"; go "record-add"; go "record-update"; go "record-delete"; go "record-status"].

Definition touches (action : bytes) (fl : dns_flags) (record_in : res bytes DnsRecord) (d : DB) (s : S) (d' : DB) (s' : S) : Prop :=
  (action ∈ account_changes \/ same_tables d d')
  /\ (s' = s \/ action ∈ service_actions /\ opens (fl_id fl) d
      /\ (action ∈ [go "record-add"; go "record-update"] -> exists r, record_in = Ok r /\ Dns.Validate r = Ok tt)).

Ltac member := repeat (first [apply list_elem_of_here | apply list_elem_of_further]).
Ltac no_member := let Hin := fresh in intros Hin; exfalso; revert Hin; apply (bool_decide_unpack _); by vm_compute.

(** An action that only looks at the database. *)
Lemma touches_read action fl record_in d s d' : same_tables d d' -> touches action fl record_in d s d' s.
Proof. intros Hs. split; [by right|by left]. Qed.

Lemma touches_service action fl record_in d s d' s' :
  action ∈ service_actions -> action ∉ [go "record-add"; go "record-update"] ->
  same_tables d d' /\ (s' = s \/ opens (fl_id fl) d) -> touches action fl record_in d s d' s'.
Proof. intros Ha Hn [Hs Ho]. split; [by right|]. destruct Ho as [->|Ho]; [by left|right]. by split_and!. Qed.

Lemma touches_record action fl r d s d' s' :
  action ∈ service_actions ->
  same_tables d d' /\ (s' = s \/ opens (fl_id fl) d /\ Dns.Validate r = Ok tt) -> touches action fl (Ok r) d s d' s'.
Proof. intros Ha [Hs Ho]. split; [by right|]. destruct Ho as [->|[Ho Hv]]; [by left|right]. split_and!; [done|done|by exists r]. Qed.

Lemma dns_action_touches now action fl account_in record_in d s out d' s' :
  dns_action order reg now action fl account_in record_in d s = (out, d', s') -> touches action fl record_in d s d' s'.
Proof.
  unfold dns_action.
  case_bool_decide as HactA; [intros [= _ <- <-]; by apply touches_read|].
  case_bool_decide as HactB.
  { intros [-> [r E]]%of_accounts_inv. apply touches_read. revert E. unfold ListAccounts. destruct (Accounts_List d) as [r1 d1] eqn:E.
    intros [= _ <-]. revert E. unfold Accounts_List. apply (read_same (fun d => Ok _)). }
  case_bool_decide as Hact1.
  { subst. destruct account_in; [|intros [= _ <- <-]; by apply touches_read].
    intros [-> _]%of_accounts_inv. split; [left; member|by left]. }
  case_bool_decide as Hact2.
  { subst. destruct account_in; [|intros [= _ <- <-]; by apply touches_read].
    intros [-> _]%of_accounts_inv. split; [left; member|by left]. }
  case_bool_decide as Hact3; [subst; intros [-> _]%of_accounts_inv; split; [left; member|by left]|].
  case_bool_decide as Hact4.
  { subst. intros [r E%on_provider_effects]%of_service_inv. apply touches_service; [member|no_member|done]. }
  case_bool_decide as HactC.
  { intros [-> [r E]]%of_accounts_inv. apply touches_read. revert E. unfold AccountCapabilities.
    destruct (Accounts_Get (fl_id fl) d) as [[a|e] d1] eqn:E; intros [= _ <-]; by apply Accounts_Get_same in E. }
  case_bool_decide as Hact5.
  { subst. intros [r E%on_provider_effects]%of_service_inv. apply touches_service; [member|no_member|done]. }
  case_bool_decide as Hact6.
  { subst. case_bool_decide; [intros [= _ <- <-]; by apply touches_read|].
    intros [r E%on_provider_effects]%of_service_inv. apply touches_service; [member|no_member|done]. }
  case_bool_decide as Hact7.
  { subst. destruct record_in as [rec|]; [|intros [= _ <- <-]; by apply touches_read].
    intros [r E%record_call_effects]%of_service_inv. apply touches_record; [member|done]. }
  case_bool_decide as Hact8.
  { subst. destruct record_in as [rec|]; [|intros [= _ <- <-]; by apply touches_read].
    intros [r E%record_call_effects]%of_service_inv. apply touches_record; [member|done]. }
  case_bool_decide as Hact9.
  { subst. intros [r E%on_provider_effects]%of_service_inv. apply touches_service; [member|no_member|done]. }
  case_bool_decide as Hact10.
  { subst. intros [r E%on_provider_effects]%of_service_inv. apply touches_service; [member|no_member|done]. }
  intros [= _ <- <-]. by apply touches_read.
Qed.

(** What a [dns] command can touch.  Whatever the action, its flags, its
    input and the services, only the three actions that edit accounts change
    the tables; a service is only asked by the seven actions that need one,
    and only when the stored account exists and its credentials pass the form
    of its provider; a record that is added or updated was valid first.  And
    the document on the output says it is well exactly when the command exits
    well. *)
Theorem runDNS_touches opened now action fl account_in record_in d s rp ok d' s' :
  runDNS order reg opened now action fl account_in record_in d s = (rp, ok, d', s') ->
  (action ∈ account_changes \/ same_tables d d')
  /\ (s' = s \/ action ∈ service_actions /\ opens (fl_id fl) d
      /\ (action ∈ [go "record-add"; go "record-update"] -> exists r, record_in = Ok r /\ Dns.Validate r = Ok tt))
  /\ rp_OK rp = ok /\ (ok = true <-> rp_Error rp = None).
Proof.
  unfold runDNS. destruct opened as [e|]; [intros [= <- <- <- <-]; split_and!; [by right|by left|done|by split]|].
  destruct (dns_action order reg now action fl account_in record_in d s) as [[r d1] s1] eqn:E.
  apply dns_action_touches in E as [H1 H2]. intros Hr. assert (emit r = (rp, ok) /\ d1 = d' /\ s1 = s') as (He & <- & <-).
  { destruct (emit r). by injection Hr as <- <- <- <-. }
  split_and!; [exact H1|exact H2|..]; destruct r; by injection He as <- <-.
Qed.
End effects.

(** ** The registry the program has *)

Lemma register_one_entries (es : list (Descriptor * (gmap bytes bytes -> instance))) r0 reg :
  foldl register_one (Some r0) es = Some reg ->
  forall k en, reg !! k = Some en -> r0 !! k = Some en \/ exists e, e ∈ es /\ k = Key e.1 /\ en = entry e.
Proof.
  revert r0. induction es as [|e es IH]; intros r0; [intros [= ->]; by left|]. cbn [foldl].
  destruct (register_one (Some r0) e) as [r1|] eqn:E.
  2: { intros H. exfalso. revert H. clear. induction es as [|e es IH]; [done|]. exact IH. }
  assert (r1 = <[Key e.1 := entry e]> r0) as ->.
  { revert E. unfold register_one, Register. cbn [mbind option_bind]. case_bool_decide; [done|]. destruct (r0 !! Key e.1); [done|].
    intros [= <-]. unfold entry, lined. by destruct (c_Lines (d_Caps e.1)). }
  intros H k en Hk. destruct (IH _ H k en Hk) as [Hl|(e' & ? & ? & ?)].
  - destruct (decide (k = Key e.1)) as [->|Hne]; [|left; by rewrite lookup_insert_ne in Hl].
    rewrite lookup_insert_eq in Hl. injection Hl as <-. right. exists e. split; [apply list_elem_of_here|done].
  - right. exists e'. split; [by apply list_elem_of_further|done].
Qed.

Lemma init_entries reg k en : init = Some reg -> reg !! k = Some en -> exists e, e ∈ registrations /\ k = Key e.1 /\ en = entry e.
Proof. intros Hi Hk. destruct (register_one_entries _ _ _ Hi k en Hk) as [H|?]; [by rewrite lookup_empty in H|done]. Qed.

Lemma entry_form e : d_Form (desc (entry e)) = d_Form e.1.
Proof. unfold entry. cbn [desc]. unfold lined. by destruct (c_Lines (d_Caps e.1)). Qed.

Lemma New_init `{Regexp} reg key values i : init = Some reg -> New key values reg = Ok i ->
  exists e, e ∈ registrations /\ Key e.1 = key /\ i = e.2 (ApplyDefaults (d_Form e.1) values).
Proof.
  intros Hi. unfold New. destruct (reg !! key) as [en|] eqn:E; [|done].
  destruct (init_entries _ _ _ Hi E) as (e & He & -> & ->). rewrite entry_form.
  destruct (Schema.Validate _ _); [|done]. intros [= <-]. by exists e.
Qed.

(** An account that was stored can be used.  When the program has stored an
    account, then, as long as its row is there, its provider is opened, and it
    is the one of the account's kind with the values that were typed, and
    the defaults of the form for those that were not. *)
Theorem account_opens `{Regexp} reg now inp d v d1 d2 :
  init = Some reg -> CreateAccount reg now inp d = (Ok v, d1) ->
  accounts d2 !! v_ID v = accounts d1 !! v_ID v -> works d2 = [] ->
  exists e, e ∈ registrations /\ Key e.1 = in_Provider inp
  /\ (provider reg (v_ID v) d2).1 = Ok (e.2 (ApplyDefaults (d_Form e.1) (in_Credentials inp))).
Proof.
  intros Hi. unfold CreateAccount, Describe. destruct (reg !! in_Provider inp) as [en|] eqn:E; [|done].
  destruct (init_entries _ _ _ Hi E) as (e & He & Hk & ->). cbn [fmap option_fmap option_map]. case_bool_decide; [done|].
  rewrite entry_form. set (values := ApplyDefaults (d_Form e.1) (in_Credentials inp)).
  destruct (Schema.Validate (d_Form e.1) values) as [[]|] eqn:Ev; [|done].
  destruct (Accounts_Create now _ d) as [[a|er] d0] eqn:Ec; [|done]. intros [= <- <-] Hrow Hw.
  assert (exists a', a = a' /\ acc_Provider a = in_Provider inp /\ acc_Credentials a = values /\ accounts d0 !! acc_ID a = Some a)
    as (_ & _ & Hp & Hcr & Hrow0).
  { revert Ec. unfold Accounts_Create. intros [[Hbad _]|(d3 & _ & _ & Ec)]%execute_cases; [done|].
    destruct (name_taken _ _ _); [done|]. injection Ec as <- <-. eexists. split_and!; [done..|]. cbn. apply lookup_insert_eq. }
  assert (v_ID (redact reg a) = acc_ID a) as Hid by (unfold redact; by destruct (Describe _ reg)). rewrite Hid in *.
  exists e. split; [done|]. split; [done|]. unfold provider, Accounts_Get. rewrite execute_works by done. rewrite Hrow, Hrow0.
  cbn [fst]. rewrite Hp, Hcr. unfold New. rewrite E, entry_form.
  assert (ApplyDefaults (d_Form e.1) values = values) as Hid2 by (apply ApplyDefaults_id, ApplyDefaults_defaulted).
  rewrite Hid2, Ev. done.
Qed.

(** ** A record at Cloudflare *)

Section cloudflare.
Context `{RX : Regexp} `{U : Unicode} `{UU : UnicodeUpper} `{HM : Hmac} `{HS : Hashes} `{JT : JsonText} `{XR : Namesilo.XmlReply}
  {S : Type} `{Sv : Service S} `{Docs : !Cloudflare.CloudflareDocs S}.
Context (reg : gmap bytes (registration (I := instance))).

Lemma open_cloudflare id a d i d' : init = Some reg -> accounts d !! id = Some a -> acc_Provider a = go "cloudflare" ->
  provider reg id d = (Ok i, d') ->
  accounts d' = accounts d /\ exists v, i = ICloudflare (Cloudflare.new_provider v).
Proof.
  intros Hi Ha Hp [Hs Ho]%provider_spec. split; [apply Hs|]. destruct (Ho i eq_refl) as (a' & Ha' & Hn).
  assert (a' = a) as -> by congruence. rewrite Hp in Hn. destruct (New_init _ _ _ _ Hi Hn) as (e & He & Hk & ->).
  unfold registrations in He. rewrite !elem_of_cons in He.
  destruct He as [->|[->|[->|[->|[->|[->|[->|He]]]]]]]; try (vm_compute in Hk; discriminate Hk); [by eexists|by apply elem_of_nil in He].
Qed.

Lemma fresh_cache_ok v (s : S) : Cloudflare.cache_ok (Cloudflare.new_provider v, s).
Proof. unfold Cloudflare.cache_ok. apply map_empty_subseteq. Qed.

(** *** What was asked for

    Written from the record and the documents of the service, not from the
    request: the name a record of a zone has there, and the fields the service
    is to keep of it. *)
Definition name_at_service (zone name : bytes) : bytes :=
  if bool_decide (name = [] \/ name = go "@") then zone
  else if bool_decide (name = zone) || HasSuffix name (go "." ++ zone) then name
  else name ++ go "." ++ zone.

(** A name that ends like the zone is in the zone: [www.example.com], and not
    [myexample.com], which the client sends as it is. *)
Definition name_in_zone (zone name : bytes) : Prop :=
  HasSuffix name zone = true -> name = zone \/ HasSuffix name (go "." ++ zone) = true.

Definition asked_field (zone : bytes) (r : DnsRecord) (key : bytes) : option json :=
  if bool_decide (key = go "type") then Some (JString (Type' r))
  else if bool_decide (key = go "name") then Some (JString (name_at_service zone (Name r)))
  else if bool_decide (key = go "content") then Some (JString (Value r))
  else if bool_decide (key = go "ttl") then Some (JInt (if TTL r <? 60 then 1 else TTL r))
  else if bool_decide (key = go "priority") then if bool_decide (Type' r = go "MX") then Some (JInt (Priority r)) else None
  else if bool_decide (key = go "comment") then match Remark r with [] => None | c :: t => Some (JString (c :: t)) end
  else if bool_decide (key = go "proxied") then
    if bool_decide (Type' r ∈ [go "A"; go "AAAA"; go "CNAME"]) then Some (JBool (bool_decide (Proxied r = Some true))) else None
  else None.

Lemma record_name_meant zone r : name_in_zone zone (Name r) -> Cloudflare.record_name zone r = name_at_service zone (Name r).
Proof.
  unfold name_in_zone, Cloudflare.record_name, name_at_service. intros H.
  destruct (decide (Name r = [] \/ Name r = go "@")) as [[E|E]|Hn]; [by rewrite E..|].
  rewrite (bool_decide_eq_false_2 (_ \/ _)) by done. apply Decidable.not_or in Hn as [H1 H2].
  rewrite (bool_decide_eq_false_2 (Name r = [])), (bool_decide_eq_false_2 (Name r = go "@")) by done. cbn [orb].
  destruct (HasSuffix (Name r) zone) eqn:E; cbn [negb].
  - destruct (H eq_refl) as [->|Hs]; [by rewrite bool_decide_eq_true_2|]. by rewrite Hs, orb_true_r.
  - rewrite bool_decide_eq_false_2; [|intros Hz; rewrite Hz in E; pose proof (HasSuffix_app zone []); simpl in *; congruence].
    cbn [orb]. destruct (HasSuffix (Name r) (go "." ++ zone)) eqn:E2; [|done].
    apply HasSuffix_true in E2 as [p E2]. rewrite E2, app_assoc, HasSuffix_app in E. done.
Qed.

#[local] Ltac lookup_fields :=
  repeat first [rewrite lookup_insert_eq | rewrite lookup_insert_ne by congruence].

Lemma recordBody_asked zone r body :
  Cloudflare.recordBody zone r = Ok body -> name_in_zone zone (Name r) -> forall key, body !! key = asked_field zone r key.
Proof.
  unfold Cloudflare.recordBody. intros H Hn key. destruct (Dns.Validate r); [|done]. case_match; [done|]. apply (inj Ok) in H.
  rewrite <- H, (record_name_meant _ _ Hn). clear. unfold asked_field, Cloudflare.proxiable.
  assert ((if 60 <=? TTL r then TTL r else 1) = (if TTL r <? 60 then 1 else TTL r)) as -> by (repeat case_match; lia).
  assert (default false (Proxied r) = bool_decide (Proxied r = Some true)) as -> by (by destruct (Proxied r) as [[]|]).
  change TypeMX with (go "MX"). generalize (name_at_service zone (Name r)). intros name.
  destruct (bool_decide (Type' r = go "MX")), (Remark r) as [|c t], (bool_decide (Type' r ∈ [go "A"; go "AAAA"; go "CNAME"]));
    rewrite ?(bool_decide_eq_true_2 ([] = [])) by done; rewrite ?(bool_decide_eq_false_2 (c :: t = [])) by done.
  all: repeat match goal with
         | |- context [bool_decide (?x = ?k)] => is_var x;
             destruct (decide (x = k)) as [->|?];
               [rewrite (bool_decide_eq_true_2 (k = k)) by done; lookup_fields; reflexivity
               |rewrite (bool_decide_eq_false_2 (x = k)) by done]
         end.
  all: lookup_fields; by apply lookup_singleton_ne; congruence.
Qed.

(** C35: a record goes through the whole program and back.  For an account at
    Cloudflare, adding a record leaves the service, in the zone that was named
    and under the id that is reported and that no record had, with what was
    asked for and nothing else: its type, its content, its TTL (the service's
    automatic one below a minute), the priority of an MX record, its remark if it has one,
    whether it is proxied where that can be, and as its name the full name, the
    zone behind it unless it is there already ([name_in_zone]).  Nothing else at
    the service has changed, and deleting by that id, in a call of its own,
    leaves what there was before. *)
Theorem record_round_trip id a zone r d s rid d1 s1 :
  init = Some reg -> accounts d !! id = Some a -> acc_Provider a = go "cloudflare" -> name_in_zone zone (Name r) ->
  svc_AddRecord reg id zone r d s = (Ok rid, d1, s1) ->
  same_tables d d1
  /\ (exists zid body, Cloudflare.zones s !! Cloudflare.zone_key zone = Some zid /\ Cloudflare.recs s !! rid = None
      /\ (forall key, body !! key = asked_field zone r key)
      /\ Cloudflare.recs s1 = <[rid := (zid, json_text (map_json body))]> (Cloudflare.recs s))
  /\ forall d2 s2, svc_DeleteRecord reg id zone rid d1 s1 = (Ok tt, d2, s2) -> Cloudflare.recs s2 = Cloudflare.recs s.
Proof.
  intros Hi Ha Hp Hname. unfold svc_AddRecord. destruct (Dns.Validate r) as [[]|]; [|done]. unfold on_provider at 1.
  destruct (provider reg id d) as [[i|] d0] eqn:Eo; [|done].
  destruct (open_cloudflare _ _ _ _ _ Hi Ha Hp Eo) as [Hacc [v ->]]. pose proof (proj1 (provider_spec _ _ _ _ _ Eo)) as Hs.
  unfold dns_op at 1. cbn [AddRecord]. unfold fresh at 1.
  destruct (Cloudflare.AddRecord zone r (Cloudflare.new_provider v, s)) as [[rid'|] [p' s']] eqn:Ea; [|done]. intros [= <- <- <-].
  destruct (Cloudflare.AddRecord_Ok zone r _ _ _ (fresh_cache_ok v s) Ea) as (_ & Hbar & zid & body & Hz & Hb & Hn & Hr & _). cbn [snd] in *.
  split; [exact Hs|]. split.
  { exists zid, body. split_and!; [done|done| |done]. by apply recordBody_asked. }
  intros d2 s2. unfold svc_DeleteRecord, on_provider.
  destruct (provider reg id d0) as [[i|] d3] eqn:Eo2; [|done]. rewrite <- Hacc in Ha.
  destruct (open_cloudflare _ _ _ _ _ Hi Ha Hp Eo2) as [_ [v2 ->]]. unfold dns_op. cbn [DeleteRecord]. unfold fresh.
  destruct (Cloudflare.DeleteRecord zone rid' (Cloudflare.new_provider v2, s')) as [[[]|] [p2 s3]] eqn:Ed; [|done]. intros [= <- <-].
  destruct (Cloudflare.DeleteRecord_Ok zone rid' _ _ (fresh_cache_ok v2 s') Hbar Ed) as (_ & Hd & _). cbn [snd] in *.
  rewrite Hd, Hr. by apply delete_insert_id.
Qed.
End cloudflare.

(** ** Witnesses *)

Section examples.
#[local] Existing Instance no_unicode.
#[local] Existing Instance ascii_upper.
#[local] Existing Instance toy_hmac.
#[local] Existing Instance toy_hashes.
#[local] Existing Instance Cloudflare.example_json.
#[local] Existing Instance Cloudflare.example_service.
#[local] Existing Instance Cloudflare.example_docs.
#[local] Instance no_regexp : Regexp := {| Compile _ := None |}.
#[local] Instance no_xml : Namesilo.XmlReply := {| Namesilo.xml_reply _ := None |}.

Definition the_registry : gmap bytes (registration (I := instance)) := default ∅ init.

Lemma the_registry_init : init = Some the_registry.
Proof.
  unfold the_registry. destruct init as [reg|] eqn:E; [done|]. exfalso.
  assert (match init with Some _ => true | None => false end = true) as H by (by vm_compute). rewrite E in H. discriminate H.
Qed.

Definition credentials : gmap bytes bytes := {[ go "api_token" := go "t" ]}.
Definition typed : AccountInput := MkAccountInput 0 (go "home") (go "cloudflare") credentials.
Abbreviation created := (CreateAccount the_registry 5 typed (empty_db [])).

Lemma account_opens_witness :
  exists v e, created.1 = Ok v /\ Key e.1 = go "cloudflare"
  /\ (provider the_registry (v_ID v) created.2).1 = Ok (e.2 (ApplyDefaults (d_Form e.1) credentials)).
Proof.
  destruct created as [[v|er] d1] eqn:E.
  - assert (works d1 = []) as Hw by (apply (f_equal (fun x => works x.2)) in E; cbn [snd] in E; rewrite <- E; by vm_compute).
    destruct (account_opens the_registry 5 typed (empty_db []) v d1 d1 the_registry_init E eq_refl Hw) as (e & _ & Hk & Ho).
    exists v, e. split; [done|]. split; [exact Hk|exact Ho].
  - exfalso. apply (f_equal (fun x => is_ok x.1)) in E. vm_compute in E. discriminate E.
Defined.

Definition stored : DB := created.2.
Definition new_record : DnsRecord := MkRecord [] (go "www") (go "A") (go "192.0.2.1") 300 LineDefault 0 0 [] true None.
Abbreviation added := (svc_AddRecord the_registry 1 (go "example.com") new_record stored Cloudflare.example_account).

Lemma record_round_trip_witness :
  (exists rid zid body, added.1.1 = Ok rid /\ Cloudflare.example_account !! rid = None
    /\ (forall key, body !! key = asked_field (go "example.com") new_record key)
    /\ body !! go "name" = Some (JString (go "www.example.com"))
    /\ added.2 = <[rid := (zid, json_text (map_json body))]> Cloudflare.example_account)
  /\ forall rid d2 s2, added.1.1 = Ok rid ->
     svc_DeleteRecord the_registry 1 (go "example.com") rid added.1.2 added.2 = (Ok tt, d2, s2) -> s2 = Cloudflare.example_account.
Proof.
  assert (exists a, accounts stored !! 1 = Some a /\ acc_Provider a = go "cloudflare") as (a & Ha & Hp)
    by (eexists; split; [vm_compute; reflexivity|by vm_compute]).
  assert (name_in_zone (go "example.com") (Name new_record)) as Hname by (intros Hs; vm_compute in Hs; discriminate Hs).
  destruct added as [[[rid|er] d1] s1] eqn:E; cbn [fst snd].
  - destruct (record_round_trip (Docs := Cloudflare.example_docs) the_registry 1 a (go "example.com") new_record stored Cloudflare.example_account rid d1 s1
      the_registry_init Ha Hp Hname E) as (_ & (zid & body & _ & Hn & Hb & Hr) & Hdel).
    split; [exists rid, zid, body; split_and!; [done|exact Hn|exact Hb|by rewrite Hb; vm_compute|exact Hr]|].
    intros rid' d2 s2 Hrid Hd. apply (inj Ok) in Hrid. subst rid'.
    exact (Hdel d2 s2 Hd).
  - exfalso. apply (f_equal (fun x => is_ok x.1.1)) in E. vm_compute in E. discriminate E.
Defined.

Abbreviation listed := (runDNS (fun l => l) the_registry None 5 (go "domains") (MkFlags 1 [] [] true (MkListOptions [] [] 0 0))
  (Err []) (Err []) stored Cloudflare.example_account).

Lemma runDNS_touches_witness : same_tables stored listed.1.2.
Proof.
  destruct listed as [[[rp ok] d'] s'] eqn:E. apply runDNS_touches in E as ([Hin|Hs] & _); [|exact Hs].
  exfalso. revert Hin. apply (bool_decide_unpack _). by vm_compute.
Defined.
End examples.
