(* ===== verification/Lmo.v ===== *)
(** Compiled translation catalogues: [tools/luci-i18n/lmo.go].

    Texts are UTF-8: the functions that walk over runes are written on bytes,
    which is the same for them as long as the text is valid. *)
From S2P Require Import Prelude GoStrings.

(** ** Machine words *)

Definition add32 (a b : Z) : Z := u32 (a + b).
Definition shl32 (a : Z) (n : Z) : Z := u32 (Z.shiftl a n).
Definition shr32 (a : Z) (n : Z) : Z := Z.shiftr a n.

(** ** The hash *)

Definition get16 (a b : byte) : Z := Z.lor (b2z a) (Z.shiftl (b2z b) 8).

(** The loop over blocks of four bytes; what is left has less than four. *)
Fixpoint sfh_blocks (hash : Z) (data : bytes) : Z * bytes :=
  match data with
  | a :: b :: c :: d :: r =>
      let hash := add32 hash (get16 a b) in
      let tmp := Z.lxor (u32 (Z.shiftl (get16 c d) 11)) hash in
      let hash := Z.lxor (shl32 hash 16) tmp in
      sfh_blocks (add32 hash (shr32 hash 11)) r
  | _ => (hash, data)
  end.

Definition sfh_rest (hash : Z) (rest : bytes) : Z :=
  match rest with
  | [a; b; c] =>
      let hash := add32 hash (get16 a b) in
      let hash := Z.lxor hash (shl32 hash 16) in
      let hash := Z.lxor hash (u32 (Z.shiftl (b2z c) 18)) in
      add32 hash (shr32 hash 11)
  | [a; b] =>
      let hash := add32 hash (get16 a b) in
      let hash := Z.lxor hash (shl32 hash 11) in
      add32 hash (shr32 hash 17)
  | [a] =>
      let hash := add32 hash (b2z a) in
      let hash := Z.lxor hash (shl32 hash 10) in
      add32 hash (shr32 hash 1)
  | _ => hash
  end.

Definition sfh_finish (hash : Z) : Z :=
  let hash := Z.lxor hash (shl32 hash 3) in
  let hash := add32 hash (shr32 hash 5) in
  let hash := Z.lxor hash (shl32 hash 4) in
  let hash := add32 hash (shr32 hash 17) in
  let hash := Z.lxor hash (shl32 hash 25) in
  add32 hash (shr32 hash 6).

Definition sfhHash (data : bytes) : Z :=
  match data with
  | [] => 0
  | _ => let '(hash, rest) := sfh_blocks (u32 (Z.of_nat (length data))) data in sfh_finish (sfh_rest hash rest)
  end.

(** ** White space *)

(** What [TrimFunc] trims: the white space of Unicode and the byte order mark. *)
Definition trimmed_runes : list bytes := space_runes ++ [[xef; xbb; xbf]].

Fixpoint trim_front (fuel : nat) (s : bytes) : bytes :=
  match fuel with
  | O => s
  | S k => match find (HasPrefix s) trimmed_runes with Some r => trim_front k (drop (length r) s) | None => s end
  end.

Fixpoint trim_back (fuel : nat) (s : bytes) : bytes :=
  match fuel with
  | O => s
  | S k => match find (HasSuffix s) trimmed_runes with
           | Some r => trim_back k (take (length s - length r) s)
           | None => s
           end
  end.

Definition TrimFunc (s : bytes) : bytes := let s := trim_front (length s) s in trim_back (length s) s.

Definition is_blank (c : byte) : bool := bool_decide (c ∈ [x20; x09; x0a]).

(** The loop: [space] says that a run of blanks was passed. *)
Fixpoint collapse (space : bool) (s : bytes) : bytes :=
  match s with
  | [] => []
  | c :: r =>
      if is_blank c then collapse true r
      else (if space then [x20] else []) ++ c :: collapse false r
  end.

Definition collapseWhitespace (msgid : bytes) : bytes := collapse false (TrimFunc msgid).

Definition hashKey (msgid : bytes) : Z := sfhHash (collapseWhitespace msgid).

(** ** Compiling *)

Record message := MkMessage { id : bytes; str : bytes; references : list bytes }.

Record entry := MkEntry { keyID : Z; valID : Z; offset : Z; length' : Z }.

Definition entrySize : nat := 16.

Inductive lmoerr : Type :=
  | ErrParse (text : bytes)
  | ErrEmpty
  | ErrCollision (previous id : bytes)
  | ErrShort
  | ErrIndexOffset (offset : Z)
  | ErrIndexSize (size : Z).

(** [for len(data)%4 != 0 { data = append(data, 0) }] *)
Definition padded (data : bytes) : bytes := data ++ replicate ((4 - length data mod 4) mod 4) x00.

Record building := MkBuilding { data : bytes; entries : list entry; seen : gmap Z bytes }.

Definition add_message (b : building) (msg : message) : res lmoerr building :=
  let key := hashKey (id msg) in
  match seen b !! key with
  | Some previous =>
      if bool_decide (previous = id msg) then Ok tt else Err (ErrCollision previous (id msg))
  | None => Ok tt
  end ≫= fun _ =>
  let e := MkEntry key (sfhHash (str msg)) (u32 (Z.of_nat (length (data b)))) (u32 (Z.of_nat (length (str msg)))) in
  Ok (MkBuilding (padded (data b ++ str msg)) (entries b ++ [e]) (<[key := id msg]> (seen b))).

Fixpoint add_messages (b : building) (msgs : list message) : res lmoerr building :=
  match msgs with
  | [] => Ok b
  | msg :: msgs => b ← add_message b msg; add_messages b msgs
  end.

Definition key_le (a b : entry) : Prop := keyID a <= keyID b.
#[export] Instance key_le_dec a b : Decision (key_le a b).
Proof. unfold key_le. apply _. Defined.

Definition entry_bytes (e : entry) : bytes := be_put 4 (keyID e) ++ be_put 4 (valID e) ++ be_put 4 (offset e) ++ be_put 4 (length' e).

(** The catalogue of messages.  [sort.Slice] leaves entries of one key in any
    order; only messages of one id have one. *)
Definition compile (messages : list message) : res lmoerr bytes :=
  match messages with
  | [] => Err ErrEmpty
  | _ =>
      b ← add_messages (MkBuilding [] [] ∅) messages;
      let sorted := merge_sort key_le (entries b) in
      Ok (data b ++ concat (entry_bytes <$> sorted) ++ be_put 4 (u32 (Z.of_nat (length (data b)))))
  end.

(** ** Reading *)

(** The catalogue and its index. *)
Definition readCatalogue (raw : bytes) : res lmoerr (bytes * bytes) :=
  if (length raw <? 4)%nat then Err ErrShort
  else
    let body := take (length raw - 4) raw in
    let indexOffset := be_get (drop (length raw - 4) raw) in
    if Z.of_nat (length body) <? indexOffset then Err (ErrIndexOffset indexOffset)
    else
      let index := drop (Z.to_nat indexOffset) body in
      if (length index mod entrySize =? 0)%nat then Ok (raw, index) else Err (ErrIndexSize (Z.of_nat (length index))).

(** [raw[low:high]]: [None] is a panic. *)
Definition slice (raw : bytes) (low high : Z) : option bytes :=
  if (0 <=? low) && (low <=? high) && (high <=? Z.of_nat (length raw))
  then Some (take (Z.to_nat (high - low)) (drop (Z.to_nat low) raw)) else None.

Inductive found : Type :=
  | Found (text : bytes)
  | Missing
  | Panics.

Fixpoint lookup_from (count : nat) (raw index : bytes) (want : Z) : found :=
  match count with
  | O => Missing
  | S count =>
      if be_get (take 4 index) =? want then
        let offset := be_get (take 4 (drop 8 index)) in
        let len := be_get (take 4 (drop 12 index)) in
        match slice raw offset (u32 (offset + len)) with Some text => Found text | None => Panics end
      else lookup_from count raw (drop entrySize index) want
  end.

Definition lookupOne (raw index : bytes) (msgid : bytes) : found :=
  lookup_from (length index / entrySize) raw index (hashKey msgid).

(** What [dump] shows of an entry: [None] is a panic. *)
Inductive shown : Type :=
  | Shown (key : Z) (text : bytes)
  | Outside
  | DumpPanics.

Definition dump_entry (raw index : bytes) : shown :=
  let key := be_get (take 4 index) in
  let offset := be_get (take 4 (drop 8 index)) in
  let len := be_get (take 4 (drop 12 index)) in
  if Z.of_nat (length raw) <? u32 (offset + len) then Outside
  else match slice raw offset (u32 (offset + len)) with Some text => Shown key text | None => DumpPanics end.

(** The first eight entries, up to one that is at fault. *)
Fixpoint dump_from (count : nat) (raw index : bytes) : list shown :=
  match count with
  | O => []
  | S count =>
      let e := dump_entry raw index in
      e :: match e with Shown _ _ => dump_from count raw (drop entrySize index) | _ => [] end
  end.

Definition dump (raw : bytes) : res lmoerr (list shown) :=
  '(raw, index) ← readCatalogue raw; Ok (dump_from (Nat.min 8 (length index / entrySize)) raw index).

(** ** Examples: the hashes LuCI computes *)

Example hash_golden :
  sfhHash (go "Save") = 0x219966c7 /\ sfhHash (go "Hostname") = 0xd5a3a8d6 /\ sfhHash (go "Interface") = 0xd3e54c60
  /\ sfhHash (go "Password") = 0x8f9289a4 /\ sfhHash (go "Reboot") = 0xc755ff17 /\ sfhHash (go "Firewall") = 0x34f9da4c.
Proof. by vm_compute. Qed.

Example collapse_cases :
  collapseWhitespace (go "  padded  ") = go "padded" /\ collapseWhitespace (go "one  two") = go "one two".
Proof. by vm_compute. Qed.

Example catalogue_example :
  match compile [MkMessage (go "Save") (go "Speichern") []; MkMessage (go "Two  words") (go "Zwei") []] with
  | Ok out => match readCatalogue out with
              | Ok (raw, index) => (lookupOne raw index (go "Save"), lookupOne raw index (go "Two words"), lookupOne raw index (go "x"))
                                   = (Found (go "Speichern"), Found (go "Zwei"), Missing)
              | Err _ => False
              end
  | Err _ => False
  end.
Proof. by vm_compute. Qed.

(** ** A compiled catalogue gives back its messages *)

Lemma length_padded d : (length d <= length (padded d))%nat /\ (length (padded d) mod 4 = 0)%nat.
Proof.
  unfold padded. rewrite length_app, length_replicate. split; [lia|].
  pose proof (Nat.mod_upper_bound (length d) 4 ltac:(lia)) as H.
  pose proof (Nat.div_mod_eq (length d) 4) as Hd.
  set (q := (length d / 4)%nat) in *. set (r := (length d mod 4)%nat) in *.
  assert (exists k, (length d + (4 - r) mod 4 = k * 4)%nat) as [k ->]; [|by rewrite Nat.Div0.mod_mul].
  clearbody q. assert (r = 0 \/ r = 1 \/ r = 2 \/ r = 3)%nat as Hr by lia. clearbody r.
  destruct Hr as [->|[->|[->| ->]]]; [exists q|exists (q + 1)%nat..];
    match goal with |- (_ + ?x = _)%nat => let v := eval vm_compute in x in change x with v end; lia.
Qed.

Lemma slice_app raw rest low high text : slice raw low high = Some text -> slice (raw ++ rest) low high = Some text.
Proof.
  unfold slice. intros H. destruct ((0 <=? low) && (low <=? high) && (high <=? Z.of_nat (length raw))) eqn:E; [|done].
  bool_facts. rewrite length_app.
  assert ((0 <=? low) && (low <=? high) && (high <=? Z.of_nat (length raw + length rest)) = true) as ->.
  { rewrite !andb_true_iff, !Z.leb_le. lia. }
  rewrite drop_app_le by lia. rewrite take_app_le; [done|]. rewrite length_drop. lia.
Qed.

Lemma slice_here pre text : slice (pre ++ text) (Z.of_nat (length pre)) (Z.of_nat (length pre) + Z.of_nat (length text)) = Some text.
Proof.
  unfold slice. rewrite length_app.
  assert ((0 <=? Z.of_nat (length pre)) && (Z.of_nat (length pre) <=? Z.of_nat (length pre) + Z.of_nat (length text))
          && (Z.of_nat (length pre) + Z.of_nat (length text) <=? Z.of_nat (length pre + length text)) = true) as ->.
  { rewrite !andb_true_iff, !Z.leb_le. lia. }
  rewrite Nat2Z.id, drop_app_length. rewrite Z.add_simpl_l, Nat2Z.id. by rewrite take_ge.
Qed.

(** What an entry says of its message. *)
Definition entry_for (raw : bytes) (e : entry) (m : message) : Prop :=
  keyID e = hashKey (id m) /\ valID e = sfhHash (str m) /\ 0 <= offset e /\ 0 <= length' e
  /\ offset e + length' e < 2 ^ 32 /\ slice raw (offset e) (offset e + length' e) = Some (str m).

Definition building_ok (b : building) (ms : list message) : Prop :=
  Forall2 (entry_for (data b)) (entries b) ms
  /\ (forall key previous, seen b !! key = Some previous -> exists m, m ∈ ms /\ hashKey (id m) = key /\ id m = previous)
  /\ (forall m, m ∈ ms -> seen b !! hashKey (id m) = Some (id m)).

Lemma padded_app d : exists z, padded d = d ++ z.
Proof. by eexists. Qed.

Lemma add_message_ok b ms msg b' :
  building_ok b ms -> add_message b msg = Ok b' -> Z.of_nat (length (data b')) < 2 ^ 32 -> building_ok b' (ms ++ [msg]).
Proof.
  intros (He & Hs & Hm) H Hlen. unfold add_message in H.
  assert (seen b !! hashKey (id msg) = None \/ seen b !! hashKey (id msg) = Some (id msg)) as Hseen.
  { destruct (seen b !! hashKey (id msg)) as [previous|]; [|by left]. right. case_bool_decide; [by subst|done]. }
  assert (b' = MkBuilding (padded (data b ++ str msg))
            (entries b ++ [MkEntry (hashKey (id msg)) (sfhHash (str msg)) (u32 (Z.of_nat (length (data b)))) (u32 (Z.of_nat (length (str msg))))])
            (<[hashKey (id msg) := id msg]> (seen b))) as ->.
  { destruct (seen b !! hashKey (id msg)) as [previous|]; [case_bool_decide; [|done]|]; by apply (inj Ok) in H. }
  clear H. cbn [data] in Hlen. pose proof (length_padded (data b ++ str msg)) as [Hp _]. rewrite length_app in Hp.
  destruct (padded_app (data b ++ str msg)) as [z Hz]. split_and!; cbn [data entries seen].
  - apply Forall2_app.
    + eapply Forall2_impl; [exact He|]. intros e m (? & ? & ? & ? & ? & Hsl). split_and!; try done.
      rewrite Hz, <- app_assoc. by apply slice_app.
    + apply Forall2_cons. split; [|constructor]. unfold entry_for. cbn [keyID valID offset length'].
      rewrite !u32_id by lia. split_and!; [done|done|lia|lia|lia|]. rewrite Hz. apply slice_app, slice_here.
  - intros key previous. rewrite lookup_insert. case_decide as Hk.
    + intros [= <-]. exists msg. split; [set_solver|done].
    + intros Hl. destruct (Hs key previous Hl) as (m & ? & ? & ?). exists m. split; [set_solver|done].
  - intros m Hin. rewrite lookup_insert. apply elem_of_app in Hin as [Hin|Hin].
    + pose proof (Hm m Hin) as Hl. case_decide as Hk; [|done]. rewrite Hk, Hl in Hseen.
      by destruct Hseen as [?|[= ->]].
    + apply list_elem_of_singleton in Hin as ->. by rewrite decide_True.
Qed.

Lemma add_message_grows b msg b' : add_message b msg = Ok b' -> (length (data b) <= length (data b'))%nat.
Proof.
  unfold add_message. intros H. pose proof (length_padded (data b ++ str msg)) as [Hp _]. rewrite length_app in Hp.
  destruct (seen b !! hashKey (id msg)) as [previous|]; [case_bool_decide; [|done]|]; apply (inj Ok) in H; rewrite <- H; cbn [data]; lia.
Qed.

Lemma add_messages_ok b ms msgs b' :
  building_ok b ms -> add_messages b msgs = Ok b' -> Z.of_nat (length (data b')) < 2 ^ 32 ->
  building_ok b' (ms ++ msgs) /\ (length (data b) <= length (data b'))%nat.
Proof.
  revert b ms. induction msgs as [|msg msgs IH]; intros b ms Hb H Hlen.
  - apply (inj Ok) in H as <-. by rewrite app_nil_r.
  - cbn [add_messages] in H. destruct (add_message b msg) as [b1|e] eqn:E; [|done]. change (add_messages b1 msgs = Ok b') in H.
    pose proof (add_message_grows _ _ _ E) as Hg.
    assert (length (data b1) <= length (data b'))%nat as Hg1.
    { clear IH Hb E Hg. revert b1 H. induction msgs as [|m l IH]; intros b1 H; [by apply (inj Ok) in H as <-|].
      cbn [add_messages] in H. destruct (add_message b1 m) as [b2|] eqn:E2; [|done].
      pose proof (add_message_grows _ _ _ E2). specialize (IH b2 H). lia. }
    destruct (IH b1 (ms ++ [msg])) as [H1 H2]; [by eapply add_message_ok; [done|done|lia]|done|done|].
    rewrite <- app_assoc in H1. split; [done|lia].
Qed.

Lemma be_get_field (z : Z) rest : 0 <= z < 2 ^ 32 -> be_get (take 4 (be_put 4 z ++ rest)) = z.
Proof.
  intros H. rewrite take_app_le by (by rewrite length_be_put). rewrite take_ge by (by rewrite length_be_put).
  apply be_get_put_small. done.
Qed.

Lemma entry_bytes_fields e rest :
  0 <= keyID e < 2 ^ 32 -> 0 <= offset e < 2 ^ 32 -> 0 <= length' e < 2 ^ 32 ->
  be_get (take 4 (entry_bytes e ++ rest)) = keyID e
  /\ be_get (take 4 (drop 8 (entry_bytes e ++ rest))) = offset e
  /\ be_get (take 4 (drop 12 (entry_bytes e ++ rest))) = length' e
  /\ drop entrySize (entry_bytes e ++ rest) = rest.
Proof.
  intros Hk Ho Hl. unfold entry_bytes, entrySize. rewrite <- !app_assoc.
  assert (forall n (a b : bytes), length a = n -> drop n (a ++ b) = b) as Hdrop by (intros n a b <-; apply drop_app_length).
  split_and!.
  - by apply be_get_field.
  - rewrite app_assoc, Hdrop by (by rewrite length_app, !length_be_put). by apply be_get_field.
  - rewrite app_assoc, (app_assoc _ (be_put 4 (offset e))), Hdrop by (by rewrite !length_app, !length_be_put). by apply be_get_field.
  - rewrite 3!app_assoc, Hdrop by (by rewrite !length_app, !length_be_put). done.
Qed.

Lemma length_entry_bytes e : length (entry_bytes e) = entrySize.
Proof. unfold entry_bytes. by rewrite !length_app, !length_be_put. Qed.

Lemma length_index es : length (concat (entry_bytes <$> es)) = (length es * entrySize)%nat.
Proof. induction es as [|e es IH]; [done|]. cbn. rewrite length_app, length_entry_bytes, IH. done. Qed.

Definition entry_in_range (e : entry) : Prop := 0 <= keyID e < 2 ^ 32 /\ 0 <= offset e /\ 0 <= length' e /\ offset e + length' e < 2 ^ 32.

Lemma lookup_from_find raw es want :
  Forall entry_in_range es ->
  lookup_from (length es) raw (concat (entry_bytes <$> es)) want
  = match find (fun e => keyID e =? want) es with
    | Some e => match slice raw (offset e) (offset e + length' e) with Some text => Found text | None => Panics end
    | None => Missing
    end.
Proof.
  induction 1 as [|e es He Hes IH]; [done|]. cbn [length lookup_from fmap list_fmap concat find].
  destruct He as (Hk & Ho & Hl & Hs).
  destruct (entry_bytes_fields e (concat (entry_bytes <$> es))) as (-> & -> & -> & ->); [lia..|].
  destruct (keyID e =? want); [|done]. by rewrite u32_id by lia.
Qed.

Lemma sfhHash_range s : 0 <= sfhHash s < 2 ^ 32.
Proof. unfold sfhHash. destruct s; [done|]. destruct (sfh_blocks _ _). apply u32_range. Qed.

Lemma Forall2_partner {A B : Type} (P : A -> B -> Prop) l k :
  Forall2 P l k -> (forall x, x ∈ l -> exists y, y ∈ k /\ P x y) /\ (forall y, y ∈ k -> exists x, x ∈ l /\ P x y).
Proof.
  induction 1 as [|x y l k Hxy _ [IHl IHk]]; [by split; intros ? ?%not_elem_of_nil|].
  split; intros z [->|Hin]%elem_of_cons; try (eexists; split; [left|done]).
  - destruct (IHl z Hin) as (y' & ? & ?). exists y'. split; [by right|done].
  - destruct (IHk z Hin) as (x' & ? & ?). exists x'. split; [by right|done].
Qed.

Lemma compiled out ms :
  compile ms = Ok out -> Z.of_nat (length out) < 2 ^ 32 ->
  exists d es,
    out = d ++ concat (entry_bytes <$> es) ++ be_put 4 (Z.of_nat (length d))
    /\ Z.of_nat (length d) < 2 ^ 32
    /\ (forall e, e ∈ es -> exists m, m ∈ ms /\ entry_for d e m) /\ (forall m, m ∈ ms -> exists e, e ∈ es /\ entry_for d e m)
    /\ (forall m m', m ∈ ms -> m' ∈ ms -> hashKey (id m) = hashKey (id m') -> id m = id m').
Proof.
  intros H Hlen. unfold compile in H. destruct ms as [|m0 ms0]; [done|]. set (ms := m0 :: ms0) in *.
  destruct (add_messages (MkBuilding [] [] ∅) ms) as [b|e] eqn:E; [|done]. apply (inj Ok) in H.
  assert (length (data b) <= length out)%nat as Hd by (rewrite <- H, !length_app; lia).
  destruct (add_messages_ok (MkBuilding [] [] ∅) [] ms b) as [(He & Hs & Hm) _]; [|done|lia|].
  { split_and!; [constructor|done|]. intros m Hin. by apply not_elem_of_nil in Hin. }
  exists (data b), (merge_sort key_le (entries b)). rewrite app_nil_l in *. split_and!.
  - rewrite <- H. rewrite u32_id by lia. done.
  - lia.
  - intros e Hin. rewrite merge_sort_Permutation in Hin. exact (proj1 (Forall2_partner _ _ _ He) e Hin).
  - intros m Hin. destruct (proj2 (Forall2_partner _ _ _ He) m Hin) as (e & ? & ?). exists e. rewrite merge_sort_Permutation. eauto.
  - intros m m' Hin Hin' Hk. pose proof (Hm m Hin) as H1. pose proof (Hm m' Hin') as H2. congruence.
Qed.

Lemma readCatalogue_compiled d es :
  Z.of_nat (length d) < 2 ^ 32 ->
  let out := d ++ concat (entry_bytes <$> es) ++ be_put 4 (Z.of_nat (length d)) in
  readCatalogue out = Ok (out, concat (entry_bytes <$> es)).
Proof.
  intros Hd out. set (index := concat (entry_bytes <$> es)) in *.
  assert (length out = length d + length index + 4)%nat as Hl by (subst out; rewrite !length_app, length_be_put; lia).
  assert (out = (d ++ index) ++ be_put 4 (Z.of_nat (length d))) as Ho by (subst out; by rewrite app_assoc).
  assert (length out - 4 = length (d ++ index))%nat as Hl4 by (rewrite length_app; lia).
  assert (take (length out - 4) out = d ++ index) as Ht by (rewrite Hl4, Ho; apply take_app_length).
  assert (drop (length out - 4) out = be_put 4 (Z.of_nat (length d))) as Hr by (rewrite Hl4, Ho; apply drop_app_length).
  assert (be_get (be_put 4 (Z.of_nat (length d))) = Z.of_nat (length d)) as Hg.
  { apply be_get_put_small. change (256 ^ Z.of_nat 4) with (2 ^ 32). lia. }
  unfold readCatalogue. rewrite (proj2 (Nat.ltb_ge _ _)) by lia. rewrite Ht, Hr, Hg. cbv zeta.
  rewrite (proj2 (Z.ltb_ge _ _)) by (rewrite length_app; lia). rewrite Nat2Z.id, drop_app_length.
  assert (length index mod entrySize = 0)%nat as ->; [|done].
  subst index. rewrite length_index. by rewrite Nat.Div0.mod_mul.
Qed.

Lemma compile_lookup_all ms out :
  compile ms = Ok out -> Z.of_nat (length out) < 2 ^ 32 ->
  exists index, readCatalogue out = Ok (out, index)
  /\ (forall msgid, match lookupOne out index msgid with
       | Found text => exists m, m ∈ ms /\ hashKey (id m) = hashKey msgid /\ str m = text
       | Missing => forall m, m ∈ ms -> hashKey (id m) <> hashKey msgid
       | Panics => False
       end)
  /\ (forall m m', m ∈ ms -> m' ∈ ms -> hashKey (id m) = hashKey (id m') -> id m = id m')
  /\ (forall m, m ∈ ms -> (forall m', m' ∈ ms -> id m' = id m -> m' = m) -> lookupOne out index (id m) = Found (str m)).
Proof.
  intros Hc Hlen. destruct (compiled out ms Hc Hlen) as (d & es & Hout & Hd & He & Hm & Hk).
  exists (concat (entry_bytes <$> es)).
  assert (readCatalogue out = Ok (out, concat (entry_bytes <$> es))) as Hr by (rewrite Hout; by apply readCatalogue_compiled).
  assert (Forall entry_in_range es) as Hrange.
  { apply Forall_forall. intros e Hin. destruct (He e Hin) as (m & _ & Hkey & _ & ? & ? & ? & _). unfold entry_in_range.
    rewrite Hkey. split_and!; try done; apply sfhHash_range. }
  assert (forall msgid, match lookupOne out (concat (entry_bytes <$> es)) msgid with
       | Found text => exists m, m ∈ ms /\ hashKey (id m) = hashKey msgid /\ str m = text
       | Missing => forall m, m ∈ ms -> hashKey (id m) <> hashKey msgid
       | Panics => False
       end) as Hlookup.
  { intros msgid. unfold lookupOne. rewrite length_index, Nat.div_mul by done. rewrite lookup_from_find by done.
    destruct (find _ es) as [e|] eqn:Ef.
    - apply find_some in Ef as [Hin Hkey]. apply list_elem_of_In in Hin. apply Z.eqb_eq in Hkey.
      destruct (He e Hin) as (m & Hinm & Hkm & _ & _ & _ & _ & Hsl). rewrite Hout.
      rewrite (slice_app d _ _ _ _ Hsl). exists m. split_and!; [done|congruence|done].
    - intros m Hinm Hkey. destruct (Hm m Hinm) as (e & Hin & Hke & _). apply list_elem_of_In in Hin.
      pose proof (find_none _ _ Ef e Hin) as Hn. apply Z.eqb_neq in Hn. congruence. }
  split_and!; [done|done|done|].
  intros m Hin Huniq. specialize (Hlookup (id m)). destruct (lookupOne _ _ (id m)) as [text| |].
  - destruct Hlookup as (m' & Hin' & Hkey & <-). by rewrite (Huniq m' Hin' (Hk m' m Hin' Hin Hkey)).
  - by destruct (Hlookup m Hin).
  - done.
Qed.

(** A compiled catalogue gives back its messages: it reads as a catalogue,
    and looking a text up in it never panics and finds a message with the key
    of the text, and no message has the key when it finds none; and messages of
    one key have one id, so a message that alone has its id is found by it.
    For catalogues below four gigabytes. *)
Theorem compile_lookup ms out :
  compile ms = Ok out -> Z.of_nat (length out) < 2 ^ 32 ->
  exists index, readCatalogue out = Ok (out, index)
  /\ (forall msgid, match lookupOne out index msgid with
       | Found text => exists m, m ∈ ms /\ hashKey (id m) = hashKey msgid /\ str m = text
       | Missing => forall m, m ∈ ms -> hashKey (id m) <> hashKey msgid
       | Panics => False
       end)
  /\ (forall m m', m ∈ ms -> m' ∈ ms -> hashKey (id m) = hashKey (id m') -> id m = id m')
  /\ (forall m, m ∈ ms -> (forall m', m' ∈ ms -> id m' = id m -> m' = m) -> lookupOne out index (id m) = Found (str m)).
Proof. apply compile_lookup_all. Qed.

Definition catalogue_messages : list message :=
  [MkMessage (go "Save") (go "Speichern") []; MkMessage (go "Two  words") (go "Zwei") []].

Definition catalogue_bytes : bytes := match compile catalogue_messages with Ok out => out | Err _ => [] end.

Lemma compile_lookup_witness :
  exists index, readCatalogue catalogue_bytes = Ok (catalogue_bytes, index)
  /\ (forall msgid, match lookupOne catalogue_bytes index msgid with
       | Found text => exists m, m ∈ catalogue_messages /\ hashKey (id m) = hashKey msgid /\ str m = text
       | Missing => forall m, m ∈ catalogue_messages -> hashKey (id m) <> hashKey msgid
       | Panics => False
       end)
  /\ (forall m m', m ∈ catalogue_messages -> m' ∈ catalogue_messages -> hashKey (id m) = hashKey (id m') -> id m = id m')
  /\ (forall m, m ∈ catalogue_messages -> (forall m', m' ∈ catalogue_messages -> id m' = id m -> m' = m) ->
       lookupOne catalogue_bytes index (id m) = Found (str m)).
Proof. apply (compile_lookup catalogue_messages catalogue_bytes); [by vm_compute|by vm_compute]. Defined.

(** ** A damaged catalogue *)

(** [dump] checks an entry with a sum that wraps around at [2^32]: a catalogue
    whose entry has an offset near there passes the check and panics. *)
Theorem dump_check_wraps : exists raw, dump raw = Ok [DumpPanics].
Proof.
  exists (replicate 8 x00 ++ be_put 4 (2 ^ 32 - 1) ++ be_put 4 2 ++ be_put 4 0). by vm_compute.
Qed.
