(* ===== verification/Po.v ===== *)
(** Message files: [tools/luci-i18n] (po.go, extract.go).  The texts the pages
    ask to translate are read out of their JavaScript, written as a template,
    and read back from the translated files for [Lmo.compile].

    Texts are UTF-8: what the code does rune by rune is written on bytes.  The
    files of a walk are given in its order. *)
From S2P Require Import Prelude GoStrings Url Lmo.

(** ** Quoted texts *)

Definition hexval (c : byte) : option Z :=
  let v := b2z c in
  if (48 <=? v) && (v <=? 57) then Some (v - 48)
  else if (97 <=? v) && (v <=? 102) then Some (v - 87)
  else if (65 <=? v) && (v <=? 70) then Some (v - 55)
  else None.

Definition octval (c : byte) : option Z := let v := b2z c in if (48 <=? v) && (v <=? 55) then Some (v - 48) else None.

(** The number of hexadecimal digits. *)
Definition hexnum (ds : list byte) : option Z :=
  foldl (fun acc d => a ← acc; v ← hexval d; Some (a * 16 + v)) (Some 0) ds.

(** [utf8.AppendRune] of a valid rune. *)
Definition encode_rune (r : Z) : option bytes :=
  if r <? 128 then Some [z2b r]
  else if r <? 2048 then Some [z2b (192 + r / 64); z2b (128 + r mod 64)]
  else if (55296 <=? r) && (r <? 57344) then None
  else if r <? 65536 then Some [z2b (224 + r / 4096); z2b (128 + r / 64 mod 64); z2b (128 + r mod 64)]
  else if r <? 1114112 then
    Some [z2b (240 + r / 262144); z2b (128 + r / 4096 mod 64); z2b (128 + r / 64 mod 64); z2b (128 + r mod 64)]
  else None.

(** The escapes of one letter. *)
Definition letter_escape (c : byte) : option byte :=
  match c with
  | x61 => Some x07 | x62 => Some x08 | x66 => Some x0c | x6e => Some x0a | x72 => Some x0d | x74 => Some x09
  | x76 => Some x0b | x5c => Some x5c | x22 => Some x22 | _ => None
  end.

(** [strconv.Unquote] of what stands between two double quotes. *)
Fixpoint unquote_body (s : bytes) : option bytes :=
  match s with
  | [] => Some []
  | c :: r =>
      if bool_decide (c = x22) || bool_decide (c = x0a) then None
      else if negb (bool_decide (c = x5c)) then cons c <$> unquote_body r
      else
        match r with
        | [] => None
        | x78 :: r =>
            match r with
            | a :: b :: r => v ← hexnum [a; b]; cons (z2b v) <$> unquote_body r
            | _ => None
            end
        | x75 :: r =>
            match r with
            | a :: b :: c :: d :: r => v ← hexnum [a; b; c; d]; t ← encode_rune v; app t <$> unquote_body r
            | _ => None
            end
        | x55 :: r =>
            match r with
            | a :: b :: c :: d :: e :: f :: g :: h :: r =>
                v ← hexnum [a; b; c; d; e; f; g; h]; t ← encode_rune v; app t <$> unquote_body r
            | _ => None
            end
        | d :: r =>
            match octval d, r with
            | Some x, a :: b :: r =>
                y ← octval a; z ← octval b;
                if 255 <? x * 64 + y * 8 + z then None else cons (z2b (x * 64 + y * 8 + z)) <$> unquote_body r
            | Some _, _ => None
            | None, _ => v ← letter_escape d; cons v <$> unquote_body r
            end
        end
  end.

Definition middle (s : bytes) : bytes := take (length s - 2) (drop 1 s).

(** [strconv.Unquote] of a text that starts and ends with a double quote. *)
Definition Unquote (s : bytes) : option bytes := if (length s <? 2)%nat then None else unquote_body (middle s).

(** The replacer [unquotePO] falls back on. *)
Fixpoint replace_escapes (s : bytes) : bytes :=
  match s with
  | x5c :: x6e :: r => x0a :: replace_escapes r
  | x5c :: x74 :: r => x09 :: replace_escapes r
  | x5c :: x72 :: r => x0d :: replace_escapes r
  | x5c :: x22 :: r => x22 :: replace_escapes r
  | x5c :: x5c :: r => x5c :: replace_escapes r
  | c :: r => c :: replace_escapes r
  | [] => []
  end.

Inductive poerr : Type :=
  | PoMalformed (s : bytes)
  | PoTooLong
  | PoPanics.

(** A lone quote both starts and ends with one: cutting both off panics. *)
Definition unquotePO (s : bytes) : res poerr bytes :=
  let s := TrimSpace s in
  if bool_decide (s = []) then Ok []
  else if negb (HasPrefix s [x22]) || negb (HasSuffix s [x22]) then Err (PoMalformed s)
  else match Unquote s with
       | Some v => Ok v
       | None => if (length s <? 2)%nat then Err PoPanics else Ok (replace_escapes (middle s))
       end.

Definition po_escape_char (c : byte) : bytes :=
  match c with
  | x22 => [x5c; x22] | x5c => [x5c; x5c] | x0a => [x5c; x6e] | x09 => [x5c; x74] | _ => [c]
  end.
Definition po_escape (s : bytes) : bytes := concat (po_escape_char <$> s).

(** [strings.SplitAfter] at spaces. *)
Fixpoint SplitAfter (s : bytes) : list bytes :=
  match s with
  | [] => [[]]
  | c :: r =>
      if bool_decide (c = x20) then [c] :: SplitAfter r
      else match SplitAfter r with w :: ws => (c :: w) :: ws | [] => [[c]] end
  end.

(** The words of a long text, packed into lines. *)
Fixpoint wrap (line : bytes) (words : list bytes) : list bytes :=
  match words with
  | [] => if (0 <? length line)%nat then [line] else []
  | w :: ws =>
      if (0 <? length line)%nat && (72 <? length line + length w)%nat then line :: wrap w ws
      else wrap (line ++ w) ws
  end.

Definition po_quoted (l : bytes) : bytes := [x22] ++ po_escape l ++ [x22].

Definition quotePO (s : bytes) : bytes :=
  if (length s <=? 72)%nat then po_quoted s
  else [x22; x22] ++ concat ((fun l => [x0a] ++ po_quoted l) <$> wrap [] (SplitAfter s)).

(** ** Reading *)

Inductive pofield : Type := NoField | FieldId | FieldStr.

Record parsing := MkParsing { messages : list message; current : message; pfield : pofield; plural : bool }.

Definition empty_message : message := MkMessage [] [] [].

(** [flush], which leaves the field as it is. *)
Definition flush (p : parsing) : parsing :=
  let keep := negb (bool_decide (id (current p) = [])) && negb (bool_decide (str (current p) = [])) && negb (plural p) in
  MkParsing (if keep then messages p ++ [current p] else messages p) empty_message (pfield p) false.

Definition set_id (v : bytes) (m : message) : message := MkMessage v (str m) (references m).
Definition set_str (v : bytes) (m : message) : message := MkMessage (id m) v (references m).

Definition po_line (p : parsing) (raw : bytes) : res poerr parsing :=
  let line := TrimSpace raw in
  if bool_decide (line = []) then let p := flush p in Ok (MkParsing (messages p) (current p) NoField (plural p))
  else if HasPrefix line (go "#") then Ok p
  else if HasPrefix line (go "msgid_plural") || HasPrefix line (go "msgstr[") then
    Ok (MkParsing (messages p) (current p) NoField true)
  else if HasPrefix line (go "msgid") then
    let p := flush p in
    value ← unquotePO (TrimSpace (drop 5 line));
    Ok (MkParsing (messages p) (set_id value (current p)) FieldId (plural p))
  else if HasPrefix line (go "msgstr") then
    value ← unquotePO (TrimSpace (drop 6 line));
    Ok (MkParsing (messages p) (set_str value (current p)) FieldStr (plural p))
  else if HasPrefix line [x22] then
    value ← unquotePO line;
    Ok match pfield p with
       | FieldId => MkParsing (messages p) (set_id (id (current p) ++ value) (current p)) FieldId (plural p)
       | FieldStr => MkParsing (messages p) (set_str (str (current p) ++ value) (current p)) FieldStr (plural p)
       | NoField => p
       end
  else Ok p.

(** [bufio.Scanner] with a buffer of a megabyte: a line that fills it is an
    error, and what follows the last newline is a line unless it is empty. *)
Definition maxLine : Z := Z.shiftl 1 20.
Definition drop_return (line : bytes) : bytes := TrimSuffix line [x0d].

Fixpoint po_lines (p : parsing) (lines : list bytes) : res poerr parsing :=
  match lines with
  | [] => Ok p
  | line :: rest =>
      if match rest with [] => bool_decide (line = []) | _ => false end then Ok p
      else if maxLine <=? Z.of_nat (length line) then Err PoTooLong
      else p ← po_line p (drop_return line); po_lines p rest
  end.

Definition parsePO (raw : bytes) : res poerr (list message) :=
  p ← po_lines (MkParsing [] empty_message NoField false) (Split raw x0a); Ok (messages (flush p)).

(** ** Writing the template *)

Definition id_le (a b : message) : Prop := bytes_le (id a) (id b).
#[export] Instance id_le_dec a b : Decision (id_le a b).
Proof. unfold id_le. apply _. Defined.

Definition pot_header : list bytes :=
  [go "# Translation template for luci-app-openfrp."; go "#";
   go "# Regenerate with:  go run ./tools/luci-i18n extract \";
   go "#   openwrt/luci/luci-app-openfrp/po/templates/openfrp.pot \";
   go "#   openwrt/luci/luci-app-openfrp/htdocs"; go "#";
   go "msgid " ++ [x22; x22]; go "msgstr " ++ [x22; x22];
   [x22] ++ go "Content-Type: text/plain; charset=UTF-8\n" ++ [x22];
   [x22] ++ go "Content-Transfer-Encoding: 8bit\n" ++ [x22]].

Definition text_of (lines : list bytes) : bytes := concat ((fun l => l ++ [x0a]) <$> lines).

(** An entry of the template with the text [msgstr] has. *)
Definition pot_entry (m : message) (msgstr : bytes) : bytes :=
  [x0a] ++ text_of (app (go "#: ") <$> references m)
  ++ go "msgid " ++ quotePO (id m) ++ [x0a] ++ go "msgstr " ++ msgstr ++ [x0a].

(** What [writePOT] writes. *)
Definition writePOT (ms : list message) : bytes :=
  text_of pot_header ++ concat ((fun m => pot_entry m [x22; x22]) <$> merge_sort id_le ms).

(** ** Reading JavaScript (extract.go) *)

Definition isIdentChar (c : byte) : bool := bool_decide (c = x5f) || bool_decide (c = x24) || is_alnum c.

(** What follows the newline or the end of a line comment. *)
Fixpoint to_newline (s : bytes) : bytes :=
  match s with [] => [] | c :: r => if bool_decide (c = x0a) then s else to_newline r end.

(** What follows the end of a block comment, and the newlines before it. *)
Fixpoint block_end (s : bytes) : option (Z * bytes) :=
  match s with
  | [] => None
  | c :: r =>
      match c, r with
      | x2a, x2f :: r => Some (0, r)
      | _, _ => '(n, k) ← block_end r; Some (if bool_decide (c = x0a) then n + 1 else n, k)
      end
  end.

(** [readJSString] after its quote: the text, what follows, the newlines. *)
Fixpoint js_string (quote : byte) (s : bytes) : bytes * bytes * Z :=
  match s with
  | [] => ([], [], 0)
  | c :: r =>
      if bool_decide (c = x5c) then
        match r with
        | [] => ([c], [], 0)
        | d :: r =>
            let '(t, k, n) := js_string quote r in
            match d with
            | x6e => (x0a :: t, k, n)
            | x74 => (x09 :: t, k, n)
            | x72 => (x0d :: t, k, n)
            | x0a => (t, k, n + 1)
            | _ => (d :: t, k, n)
            end
        end
      else if bool_decide (c = quote) then ([], r, 0)
      else let '(t, k, n) := js_string quote r in (c :: t, k, if bool_decide (c = x0a) then n + 1 else n)
  end.

Fixpoint skipSpace (fuel : nat) (s : bytes) : bytes :=
  match fuel with
  | O => s
  | S fuel =>
      match s with
      | [] => []
      | c :: r =>
          if bool_decide (c ∈ [x20; x09; x0a; x0d]) then skipSpace fuel r
          else if HasPrefix s (go "//") then skipSpace fuel (to_newline s)
          else if HasPrefix s (go "/*") then match block_end (drop 2 s) with Some (_, k) => skipSpace fuel k | None => [] end
          else s
      end
  end.
Definition skip_space (s : bytes) : bytes := skipSpace (S (length s)) s.

(** [readConcatenatedStrings]: the texts joined by plus signs up to a comma or
    the closing parenthesis. *)
Fixpoint js_concat (fuel : nat) (want : bool) (acc s : bytes) : option bytes :=
  match fuel with
  | O => None
  | S fuel =>
      match skip_space s with
      | [] => None
      | c :: r =>
          if want then
            if bool_decide (c = x27) || bool_decide (c = x22) then
              let '(t, k, _) := js_string c r in js_concat fuel false (acc ++ t) k
            else None
          else if bool_decide (c = x2b) then js_concat fuel true acc r
          else if bool_decide (c = x29) || bool_decide (c = x2c) then
            if bool_decide (acc = []) then None else Some acc
          else None
      end
  end.
Definition readConcatenatedStrings (s : bytes) : option bytes := js_concat (S (length s)) true [] s.

Record occurrence := MkOccurrence { text : bytes; line : Z }.

(** The text of a call that starts here, behind the underscore. *)
Definition call_text (r : bytes) : option bytes :=
  match skip_space r with
  | c :: k => if bool_decide (c = x28) then readConcatenatedStrings k else None
  | [] => None
  end.

(** [scanJS]: [prev] is the byte before [s]. *)
Fixpoint scan (fuel : nat) (prev : option byte) (n : Z) (s : bytes) : list occurrence :=
  match fuel with
  | O => []
  | S fuel =>
      match s with
      | [] => []
      | c :: r =>
          if bool_decide (c = x0a) then scan fuel (Some c) (n + 1) r
          else if HasPrefix s (go "//") then scan fuel (Some x0a) (n + 1) (drop 1 (to_newline s))
          else if HasPrefix s (go "/*") then
            match block_end (drop 2 s) with Some (m, k) => scan fuel (Some x2f) (n + m) k | None => [] end
          else if bool_decide (c ∈ [x27; x22; x60]) then
            let '(_, k, m) := js_string c r in scan fuel (Some c) (n + m) k
          else if bool_decide (c = x5f) && negb (match prev with Some p => isIdentChar p | None => false end) then
            match call_text r with
            | Some t => MkOccurrence t n :: scan fuel (Some c) n r
            | None => scan fuel (Some c) n r
            end
          else scan fuel (Some c) n r
      end
  end.
Definition scanJS (source : bytes) : list occurrence := scan (S (length source)) None 1 source.

(** [extract] on the JavaScript files of the roots, by path and content: the
    texts with the places they were found at. *)
Definition place (path : bytes) (hit : occurrence) : bytes := path ++ go ":" ++ Itoa (line hit).

Definition add_hit (path : bytes) (found : gmap bytes (list bytes)) (hit : occurrence) : gmap bytes (list bytes) :=
  <[text hit := default [] (found !! text hit) ++ [place path hit]]> found.

Definition found_in (files : list (bytes * bytes)) : gmap bytes (list bytes) :=
  foldl (fun found f => foldl (add_hit f.1) found (scanJS f.2)) ∅ files.

Definition extracted (files : list (bytes * bytes)) : list message :=
  (fun f => MkMessage f.1 [] (SortStrings f.2)) <$> map_to_list (found_in files).

Definition extract (files : list (bytes * bytes)) : option bytes :=
  match extracted files with [] => None | ms => Some (writePOT ms) end.

Example scans :
  scanJS (go "o.description = _('first half ' /* aside */ + 'second half');") = [MkOccurrence (go "first half second half") 1]
  /\ (text <$> scanJS (go "x_('no'); _('yes', 1); // _('no')")) = [go "yes"].
Proof. by vm_compute. Qed.

Example po_example :
  parsePO (text_of [go "msgid " ++ quotePO (go "Save"); go "msgstr " ++ quotePO (go "Sichern"); []; go "msgid " ++ quotePO (go "x");
                    go "msgstr " ++ quotePO []])
  = Ok [MkMessage (go "Save") (go "Sichern") []]
  /\ parsePO (go "msgid " ++ [x22]) = Err PoPanics.
Proof. by vm_compute. Qed.

(** ** What was quoted is read back *)

Lemma po_escape_app s t : po_escape (s ++ t) = po_escape s ++ po_escape t.
Proof. unfold po_escape. by rewrite fmap_app, concat_app. Qed.

Lemma unquote_escape_char c r : unquote_body (po_escape_char c ++ r) = cons c <$> unquote_body r.
Proof. by destruct c. Qed.

Lemma unquote_escape s : unquote_body (po_escape s) = Some s.
Proof.
  induction s as [|c s IH]; [done|]. unfold po_escape. cbn [fmap list_fmap concat].
  rewrite unquote_escape_char. fold (po_escape s). by rewrite IH.
Qed.

Lemma middle_quoted s : middle ([x22] ++ s ++ [x22]) = s.
Proof.
  unfold middle. rewrite !length_app. cbn [length]. replace (1 + (length s + 1) - 2)%nat with (length s) by lia.
  change (drop 1 ([x22] ++ s ++ [x22])) with (s ++ [x22]). by rewrite take_app_length.
Qed.

Lemma TrimSpace_framed c s d : no_space c -> no_space d -> TrimSpace (c :: s ++ [d]) = c :: s ++ [d].
Proof.
  intros Hc Hd. apply TrimSpace_id; [by apply leading_space_cons|].
  by apply (trailing_space_app (c :: s) d []).
Qed.

Lemma no_space_quote : no_space x22. Proof. by apply (bool_decide_unpack _); vm_compute. Qed.

Lemma unquotePO_quoted s : unquotePO (po_quoted s) = Ok s.
Proof.
  unfold unquotePO, po_quoted. change ([x22] ++ po_escape s ++ [x22]) with (x22 :: po_escape s ++ [x22]).
  rewrite TrimSpace_framed by apply no_space_quote. rewrite bool_decide_eq_false_2 by done.
  assert (HasPrefix (x22 :: po_escape s ++ [x22]) [x22] = true) as -> by (by apply (HasPrefix_app [x22])).
  assert (HasSuffix (x22 :: po_escape s ++ [x22]) [x22] = true) as -> by (by apply (HasSuffix_app [x22] (x22 :: po_escape s))).
  cbn [negb orb]. unfold Unquote. change (x22 :: po_escape s ++ [x22]) with ([x22] ++ po_escape s ++ [x22]).
  rewrite (proj2 (Nat.ltb_ge _ _)) by (rewrite !length_app; cbn; lia). by rewrite middle_quoted, unquote_escape.
Qed.

Lemma SplitAfter_concat s : concat (SplitAfter s) = s.
Proof.
  induction s as [|c s IH]; [done|]. cbn [SplitAfter]. case_bool_decide; [cbn; by rewrite IH|].
  destruct (SplitAfter s) as [|w ws]; cbn in *; by rewrite <- IH.
Qed.

Lemma wrap_concat line words : concat (wrap line words) = line ++ concat words.
Proof.
  revert line. induction words as [|w ws IH]; intros line; cbn [wrap concat].
  - destruct line; [done|]. cbn. by rewrite !app_nil_r.
  - destruct (_ && _); cbn [concat]; rewrite IH; [done|]. by rewrite app_assoc.
Qed.

(** The lines a quoted text takes after its keyword, and the first of them. *)
Definition quote_first (s : bytes) : bytes := if (length s <=? 72)%nat then s else [].
Definition quote_more (s : bytes) : list bytes := if (length s <=? 72)%nat then [] else wrap [] (SplitAfter s).

Lemma quote_parts s : quote_first s ++ concat (quote_more s) = s.
Proof.
  unfold quote_first, quote_more. destruct (_ <=? _)%nat; [by rewrite app_nil_r|].
  by rewrite wrap_concat, SplitAfter_concat.
Qed.

Lemma quotePO_lines s : quotePO s ++ [x0a] = text_of (po_quoted (quote_first s) :: (po_quoted <$> quote_more s)).
Proof.
  unfold quotePO, quote_first, quote_more, text_of. destruct (_ <=? _)%nat; [by cbn; rewrite app_nil_r|].
  cbn [fmap list_fmap concat]. change (po_quoted []) with [x22; x22]. rewrite <- !app_assoc. f_equal.
  induction (wrap [] (SplitAfter s)) as [|l ls IH]; [done|]. cbn [fmap list_fmap concat]. rewrite <- !app_assoc, IH. done.
Qed.

(** ** Lines *)

Lemma po_escape_clean s : x0a ∉ po_escape s.
Proof.
  unfold po_escape. intros (l & Hl & Hin)%list_elem_of_In%in_concat.
  apply list_elem_of_In, list_elem_of_fmap in Hl as (c & -> & _). apply list_elem_of_In in Hin. revert Hin.
  apply (bool_decide_unpack _). destruct c; by vm_compute.
Qed.

Lemma text_of_app a b : text_of (a ++ b) = text_of a ++ text_of b.
Proof. unfold text_of. by rewrite fmap_app, concat_app. Qed.

Lemma text_of_cons p l ls : p ++ text_of (l :: ls) = text_of ((p ++ l) :: ls).
Proof. unfold text_of. cbn [fmap list_fmap concat]. by rewrite <- !app_assoc. Qed.

Lemma Split_text_of lines : Forall (fun l => x0a ∉ l) lines -> Split (text_of lines) x0a = lines ++ [[]].
Proof.
  induction 1 as [|l lines Hl _ IH]; [done|]. unfold text_of in *. cbn [fmap list_fmap concat]. rewrite <- app_assoc.
  change ([x0a] ++ ?x) with (x0a :: x). by rewrite Split_app, IH.
Qed.

(** A line the scanner takes. *)
Definition good_line (l : bytes) : Prop := x0a ∉ l /\ Z.of_nat (length l) < maxLine.

(** Whatever follows, reading [ls] takes [p] to [p']. *)
Definition runs (p : parsing) (ls : list bytes) (p' : parsing) : Prop :=
  forall rest, rest <> [] -> po_lines p (ls ++ rest) = po_lines p' rest.

Lemma runs_nil p : runs p [] p.
Proof. by intros rest. Qed.

Lemma runs_cons p l ls p1 p' : good_line l -> po_line p (drop_return l) = Ok p1 -> runs p1 ls p' -> runs p (l :: ls) p'.
Proof.
  intros [_ Hl] Hp Hr rest Hne. cbn [app po_lines].
  assert (match ls ++ rest with [] => bool_decide (l = []) | _ => false end = false) as ->.
  { destruct (ls ++ rest) eqn:E; [|done]. by apply app_eq_nil in E as [_ ?]. }
  rewrite (proj2 (Z.leb_gt _ _)) by exact Hl. rewrite Hp. cbn [mbind res_bind]. by apply Hr.
Qed.

Lemma runs_app p ls ks p1 p' : runs p ls p1 -> runs p1 ks p' -> runs p (ls ++ ks) p'.
Proof. intros H1 H2 rest Hne. rewrite <- app_assoc, H1, H2; [done|done|]. intros [_ ?]%app_eq_nil. done. Qed.

Lemma runs_parse lines p :
  Forall good_line lines -> runs (MkParsing [] empty_message NoField false) lines p ->
  parsePO (text_of lines) = Ok (messages (flush p)).
Proof.
  intros Hg Hr. unfold parsePO. rewrite Split_text_of, Hr; [done|done|].
  eapply Forall_impl; [exact Hg|]. by intros l [? _].
Qed.

(** ** One line *)

Lemma trim_right_first fuel c s : no_space c -> exists s', trim_right fuel (c :: s) = c :: s'.
Proof.
  intros Hc. revert s. induction fuel as [|fuel IH]; intros s; [by exists s|]. cbn [trim_right].
  destruct (trailing_space (c :: s)) as [r|] eqn:E; [|by exists s]. pose proof (trailing_space_length _ _ E) as Hl.
  apply find_some in E as [Hin [k Hk]%HasSuffix_true]. apply list_elem_of_In in Hin. unfold no_space in Hc. rewrite Forall_forall in Hc.
  destruct k as [|c' k]; [cbn in Hk; subst r; destruct (Hc _ Hin); constructor|]. injection Hk as <- ->.
  replace (length (c :: k ++ r) - length r)%nat with (S (length k)) by (cbn; rewrite length_app; lia). cbn [take]. apply IH.
Qed.

Lemma TrimSpace_first c s : no_space c -> exists s', TrimSpace (c :: s) = c :: s'.
Proof.
  intros Hc. unfold TrimSpace. assert (forall n, trim_left n (c :: s) = c :: s) as ->; [|by apply trim_right_first].
  intros [|n]; [done|]. cbn [trim_left]. by rewrite leading_space_cons.
Qed.

Lemma drop_return_framed s d : d <> x0d -> drop_return (s ++ [d]) = s ++ [d].
Proof.
  intros Hd. apply TrimSuffix_none. apply not_true_is_false. intros [k Hk]%HasSuffix_true.
  apply app_inj_tail in Hk as [_ ?]. congruence.
Qed.

Lemma drop_return_first c s : c <> x0d -> exists s', drop_return (c :: s) = c :: s'.
Proof.
  intros Hc. unfold drop_return. destruct (HasSuffix (c :: s) [x0d]) eqn:E; [|rewrite TrimSuffix_none by done; by exists s].
  apply HasSuffix_true in E as [k Hk]. rewrite Hk, TrimSuffix_app. destruct k as [|c' k]; [by injection Hk|].
  injection Hk as <- ->. by exists k.
Qed.

Lemma po_line_comment p s : po_line p (drop_return (x23 :: s)) = Ok p.
Proof.
  destruct (drop_return_first x23 s) as [s1 ->]; [done|]. unfold po_line.
  destruct (TrimSpace_first x23 s1) as [s2 ->]; [by apply (bool_decide_unpack _); vm_compute|].
  rewrite bool_decide_eq_false_2 by done.
  assert (HasPrefix (x23 :: s2) (go "#") = true) as -> by (by apply (HasPrefix_app [x23] s2)). done.
Qed.

Lemma po_line_blank p : po_line p (drop_return []) = Ok (MkParsing (messages (flush p)) empty_message NoField false).
Proof. done. Qed.

(** A line that is a keyword and a quoted text, or only the text. *)
Lemma framed_line kw v : Forall no_space (take 1 (kw ++ [x22])) ->
  drop_return (kw ++ po_quoted v) = kw ++ po_quoted v /\ TrimSpace (kw ++ po_quoted v) = kw ++ po_quoted v.
Proof.
  intros Hk. unfold po_quoted. assert (kw ++ [x22] ++ po_escape v ++ [x22] = (kw ++ [x22] ++ po_escape v) ++ [x22]) as E by (by rewrite <- !app_assoc).
  split; [rewrite E; by apply drop_return_framed|].
  destruct kw as [|c kw]; cbn [app] in *; [apply TrimSpace_framed; apply no_space_quote|].
  injection E as E. rewrite E. apply TrimSpace_framed; [|apply no_space_quote]. by apply Forall_cons in Hk as [? _].
Qed.

Lemma unquotePO_spaced v : unquotePO (TrimSpace (x20 :: po_quoted v)) = Ok v.
Proof.
  assert (TrimSpace (x20 :: po_quoted v) = po_quoted v) as ->; [|apply unquotePO_quoted].
  unfold po_quoted. change ([x22] ++ po_escape v ++ [x22]) with (x22 :: po_escape v ++ [x22]).
  set (q := x22 :: po_escape v ++ [x22]). unfold TrimSpace. cbn [length trim_left].
  assert (leading_space (x20 :: q) = Some [x20]) as ->.
  { unfold leading_space, space_runes. cbn [find]. assert (HasPrefix (x20 :: q) [x20] = true) as -> by (by apply (HasPrefix_app [x20] q)). done. }
  change (drop (length [x20]) (x20 :: q)) with q. assert (trim_left (length q) q = q) as ->.
  { subst q. cbn [length trim_left]. by rewrite leading_space_cons by apply no_space_quote. }
  assert (trailing_space q = None) as Ht by (apply (trailing_space_app (x22 :: po_escape v) x22 []); [apply no_space_quote|done]).
  subst q. cbn [length trim_right]. by rewrite Ht.
Qed.

Ltac no_prefix :=
  apply bool_decide_eq_false_2; let k := fresh in let Hk := fresh in intros [k Hk]; discriminate Hk.

Lemma po_line_msgid p v :
  po_line p (drop_return (go "msgid " ++ po_quoted v))
  = Ok (MkParsing (messages (flush p)) (MkMessage v [] []) FieldId false).
Proof.
  destruct (framed_line (go "msgid ") v) as [-> Ht]; [by apply (bool_decide_unpack _); vm_compute|].
  unfold po_line. rewrite Ht. rewrite bool_decide_eq_false_2 by done.
  assert (HasPrefix (go "msgid " ++ po_quoted v) (go "#") = false) as -> by no_prefix.
  assert (HasPrefix (go "msgid " ++ po_quoted v) (go "msgid_plural") = false) as -> by no_prefix.
  assert (HasPrefix (go "msgid " ++ po_quoted v) (go "msgstr[") = false) as -> by no_prefix.
  assert (HasPrefix (go "msgid " ++ po_quoted v) (go "msgid") = true) as -> by (by apply (HasPrefix_app (go "msgid") (x20 :: po_quoted v))).
  cbn [orb]. change (drop 5 (go "msgid " ++ po_quoted v)) with (x20 :: po_quoted v). by rewrite unquotePO_spaced.
Qed.

Lemma po_line_msgstr p v :
  po_line p (drop_return (go "msgstr " ++ po_quoted v)) = Ok (MkParsing (messages p) (set_str v (current p)) FieldStr (plural p)).
Proof.
  destruct (framed_line (go "msgstr ") v) as [-> Ht]; [by apply (bool_decide_unpack _); vm_compute|].
  unfold po_line. rewrite Ht. rewrite bool_decide_eq_false_2 by done.
  assert (HasPrefix (go "msgstr " ++ po_quoted v) (go "#") = false) as -> by no_prefix.
  assert (HasPrefix (go "msgstr " ++ po_quoted v) (go "msgid_plural") = false) as -> by no_prefix.
  assert (HasPrefix (go "msgstr " ++ po_quoted v) (go "msgstr[") = false) as -> by no_prefix.
  assert (HasPrefix (go "msgstr " ++ po_quoted v) (go "msgid") = false) as -> by no_prefix.
  assert (HasPrefix (go "msgstr " ++ po_quoted v) (go "msgstr") = true) as -> by (by apply (HasPrefix_app (go "msgstr") (x20 :: po_quoted v))).
  cbn [orb]. change (drop 6 (go "msgstr " ++ po_quoted v)) with (x20 :: po_quoted v). by rewrite unquotePO_spaced.
Qed.

(** A line that goes on with a text. *)
Definition goes_on (v : bytes) (p : parsing) : parsing :=
  match pfield p with
  | FieldId => MkParsing (messages p) (set_id (id (current p) ++ v) (current p)) FieldId (plural p)
  | FieldStr => MkParsing (messages p) (set_str (str (current p) ++ v) (current p)) FieldStr (plural p)
  | NoField => p
  end.

Lemma po_line_more p v : po_line p (drop_return (po_quoted v)) = Ok (goes_on v p).
Proof.
  destruct (framed_line [] v) as [E Ht]; [by apply (bool_decide_unpack _); vm_compute|]. cbn [app] in E, Ht. rewrite E.
  unfold po_line. rewrite Ht. rewrite bool_decide_eq_false_2 by done.
  assert (HasPrefix (po_quoted v) (go "#") = false) as -> by no_prefix.
  assert (HasPrefix (po_quoted v) (go "msgid_plural") = false) as -> by no_prefix.
  assert (HasPrefix (po_quoted v) (go "msgstr[") = false) as -> by no_prefix.
  assert (HasPrefix (po_quoted v) (go "msgid") = false) as -> by no_prefix.
  assert (HasPrefix (po_quoted v) (go "msgstr") = false) as -> by no_prefix.
  assert (HasPrefix (po_quoted v) [x22] = true) as -> by (apply HasPrefix_app).
  cbn [orb]. by rewrite unquotePO_quoted.
Qed.

Lemma runs_more p ls : Forall (fun l => good_line (po_quoted l)) ls -> runs p (po_quoted <$> ls) (goes_on (concat ls) p).
Proof.
  intros Hg. revert p. induction Hg as [|l ls Hl _ IH]; intros p.
  - assert (goes_on (concat []) p = p) as ->; [|apply runs_nil].
    destruct p as [ms [i s r] [| |] pl]; unfold goes_on, set_id, set_str; cbn; by rewrite ?app_nil_r.
  - cbn [fmap list_fmap]. eapply runs_cons; [exact Hl|apply po_line_more|].
    assert (goes_on (concat (l :: ls)) p = goes_on (concat ls) (goes_on l p)) as ->; [|apply IH].
    destruct p as [ms [i s r] [| |] pl]; unfold goes_on, set_id, set_str; cbn; by rewrite <- ?app_assoc.
Qed.

(** ** A translated template *)

(** The template with the texts a translator put in. *)
Definition translated (tr : bytes -> bytes) (ms : list message) : bytes :=
  text_of pot_header ++ concat ((fun m => pot_entry m (quotePO (tr (id m)))) <$> merge_sort id_le ms).

Lemma writePOT_translated ms : writePOT ms = translated (fun _ => []) ms.
Proof. done. Qed.

Definition quoted_lines (kw : bytes) (s : bytes) : list bytes := (kw ++ po_quoted (quote_first s)) :: (po_quoted <$> quote_more s).

Definition entry_lines (m : message) (t : bytes) : list bytes :=
  [] :: (app (go "#: ") <$> references m) ++ quoted_lines (go "msgid ") (id m) ++ quoted_lines (go "msgstr ") t.

Lemma pot_entry_lines m t : pot_entry m (quotePO t) = text_of (entry_lines m t).
Proof.
  unfold pot_entry, entry_lines, quoted_lines. change (text_of ([] :: ?l)) with ([x0a] ++ text_of l).
  rewrite !text_of_app, <- !text_of_cons, <- !quotePO_lines, <- !app_assoc. done.
Qed.

Lemma translated_lines tr ms :
  translated tr ms = text_of (pot_header ++ (merge_sort id_le ms ≫= fun m => entry_lines m (tr (id m)))).
Proof.
  unfold translated. rewrite text_of_app. f_equal. induction (merge_sort id_le ms) as [|m l IH]; [done|].
  cbn [fmap list_fmap concat mbind list_bind]. by rewrite pot_entry_lines, text_of_app, IH.
Qed.

(** Texts and places a line holds. *)
Definition short (s : bytes) : Prop := Z.of_nat (length s) < 2 ^ 18.
Definition fits (tr : bytes -> bytes) (m : message) : Prop :=
  short (id m) /\ short (tr (id m)) /\ Forall (fun r => x0a ∉ r /\ short r) (references m).

Lemma length_po_escape s : (length (po_escape s) <= 2 * length s)%nat.
Proof.
  induction s as [|c s IH]; [done|]. unfold po_escape in *. cbn [fmap list_fmap concat length]. rewrite length_app.
  assert (length (po_escape_char c) <= 2)%nat by (destruct c; cbn; lia). lia.
Qed.

Lemma good_quoted kw s : (length kw <= 8)%nat -> x0a ∉ kw -> short s -> good_line (kw ++ po_quoted s).
Proof.
  unfold short, good_line, po_quoted. intros Hk Hn Hs. split.
  - rewrite !elem_of_app, !list_elem_of_singleton. pose proof (po_escape_clean s). intros [?|[?|[?|?]]]; done.
  - pose proof (length_po_escape s). rewrite !length_app. cbn [length]. unfold maxLine. change (Z.shiftl 1 20) with 1048576.
    change (2 ^ 18) with 262144 in Hs. lia.
Qed.

Lemma in_concat_length (l : bytes) ls : l ∈ ls -> (length l <= length (concat ls))%nat.
Proof.
  induction ls as [|x ls IH]; [by intros ?%elem_of_nil|]. cbn [concat]. rewrite length_app.
  intros [->|H%IH]%elem_of_cons; lia.
Qed.

Lemma short_part s : short s -> short (quote_first s) /\ Forall short (quote_more s).
Proof.
  unfold short. intros Hs. pose proof (f_equal length (quote_parts s)) as Hl. rewrite length_app in Hl. split; [lia|].
  apply Forall_forall. intros l Hin%in_concat_length. lia.
Qed.

Lemma good_quoted_lines kw s : (length kw <= 8)%nat -> x0a ∉ kw -> short s ->
  Forall good_line (quoted_lines kw s) /\ Forall (fun l => good_line (po_quoted l)) (quote_more s).
Proof.
  intros Hk Hn [H1 H2]%short_part. assert (Forall (fun l => good_line (po_quoted l)) (quote_more s)) as H3.
  { eapply Forall_impl; [exact H2|]. intros l Hl. apply (good_quoted [] l); [cbn; lia|by intros ?%elem_of_nil|done]. }
  split; [|exact H3]. apply Forall_cons. split; [by apply good_quoted|]. by apply Forall_fmap.
Qed.

Lemma good_ref r : x0a ∉ r -> short r -> good_line (go "#: " ++ r).
Proof.
  unfold short, good_line. intros Hn Hs. split; [rewrite elem_of_app; intros [H|H]; [|done]; revert H; by apply (bool_decide_unpack _); vm_compute|].
  rewrite length_app. change (length (go "#: ")) with 3%nat. unfold maxLine. change (Z.shiftl 1 20) with 1048576.
  change (2 ^ 18) with 262144 in Hs. lia.
Qed.

Lemma go_clean_msgid : x0a ∉ go "msgid ". Proof. apply (bool_decide_unpack _). by vm_compute. Qed.
Lemma go_clean_msgstr : x0a ∉ go "msgstr ". Proof. apply (bool_decide_unpack _). by vm_compute. Qed.

Lemma good_entry tr m : fits tr m -> Forall good_line (entry_lines m (tr (id m))).
Proof.
  intros (Hi & Ht & Hr). unfold entry_lines. apply Forall_cons. split; [split; [by intros ?%elem_of_nil|done]|].
  rewrite !Forall_app. split_and!.
  - apply Forall_fmap. eapply Forall_impl; [exact Hr|]. intros r [? ?]. by apply good_ref.
  - apply good_quoted_lines; [cbn; lia|apply go_clean_msgid|done].
  - apply good_quoted_lines; [cbn; lia|apply go_clean_msgstr|done].
Qed.

Lemma runs_refs p refs : Forall (fun r => x0a ∉ r /\ short r) refs -> runs p (app (go "#: ") <$> refs) p.
Proof.
  induction 1 as [|r refs [Hn Hs] _ IH]; [apply runs_nil|]. cbn [fmap list_fmap]. eapply runs_cons; [by apply good_ref| |exact IH].
  change (go "#: " ++ r) with (x23 :: go ": " ++ r). apply po_line_comment.
Qed.

(** What a whole entry leaves. *)
Definition after_entry (p : parsing) (i t : bytes) : parsing := MkParsing (messages (flush p)) (MkMessage i t []) FieldStr false.

Lemma runs_entry tr p m : fits tr m -> runs p (entry_lines m (tr (id m))) (after_entry p (id m) (tr (id m))).
Proof.
  intros (Hi & Ht & Hr). unfold entry_lines.
  eapply runs_cons; [split; [by intros ?%elem_of_nil|done]|apply po_line_blank|].
  eapply runs_app; [by apply runs_refs|].
  destruct (good_quoted_lines (go "msgid ") (id m)) as [[Hg1 _]%Forall_cons Hm1]; [cbn; lia|apply go_clean_msgid|done|].
  destruct (good_quoted_lines (go "msgstr ") (tr (id m))) as [[Hg2 _]%Forall_cons Hm2]; [cbn; lia|apply go_clean_msgstr|done|].
  eapply runs_app; (eapply runs_cons; [done|first [apply po_line_msgid|apply po_line_msgstr]|]).
  - by apply runs_more.
  - eassert (after_entry p (id m) (tr (id m)) = goes_on (concat (quote_more (tr (id m)))) _) as ->; [|by apply runs_more].
    unfold after_entry, goes_on, set_id, set_str, flush. cbn [messages current pfield plural id str references].
    cbn [bool_decide decide_rel empty_message negb andb id str]. by rewrite !quote_parts.
Qed.

Definition kept (tr : bytes -> bytes) (m : message) : list message :=
  if bool_decide (id m = []) || bool_decide (tr (id m) = []) then [] else [MkMessage (id m) (tr (id m)) []].

Lemma flush_after_entry p tr m :
  messages (flush (after_entry p (id m) (tr (id m)))) = messages (flush p) ++ kept tr m.
Proof.
  unfold kept, after_entry. set (ms := messages (flush p)). unfold flush. cbn [messages current plural id str].
  repeat case_bool_decide; cbn; by rewrite ?app_nil_r.
Qed.

Lemma runs_entries tr p ms : Forall (fits tr) ms ->
  exists p', runs p (ms ≫= fun m => entry_lines m (tr (id m))) p' /\ messages (flush p') = messages (flush p) ++ (ms ≫= kept tr).
Proof.
  intros Hf. revert p. induction Hf as [|m ms Hm _ IH]; intros p; [exists p; split; [apply runs_nil|by rewrite app_nil_r]|].
  destruct (IH (after_entry p (id m) (tr (id m)))) as (p' & Hr & Hp). exists p'. split.
  - cbn [mbind list_bind]. eapply runs_app; [by apply runs_entry|exact Hr].
  - cbn [mbind list_bind]. by rewrite Hp, flush_after_entry, app_assoc.
Qed.

#[export] Instance good_line_dec l : Decision (good_line l).
Proof. unfold good_line. apply _. Defined.

Lemma pot_header_good : Forall good_line pot_header.
Proof. apply (bool_decide_unpack _). by vm_compute. Qed.

Lemma runs_header : exists p, runs (MkParsing [] empty_message NoField false) pot_header p /\ messages (flush p) = [].
Proof.
  pose proof pot_header_good as Hg. unfold pot_header in *. eexists. split.
  - repeat (apply Forall_cons in Hg as [Hl Hg]; eapply runs_cons; [exact Hl|vm_compute; reflexivity|clear Hl]). apply runs_nil.
  - done.
Qed.

Lemma parse_translated tr ms : Forall (fits tr) ms ->
  parsePO (translated tr ms) = Ok (merge_sort id_le ms ≫= kept tr).
Proof.
  intros Hf. assert (Forall (fits tr) (merge_sort id_le ms)) as Hs by (by rewrite merge_sort_Permutation).
  rewrite translated_lines. destruct runs_header as (p & Hp & Hm). destruct (runs_entries tr p _ Hs) as (p' & Hp' & Hm').
  rewrite (runs_parse _ p').
  - by rewrite Hm', Hm.
  - apply Forall_app. split; [apply pot_header_good|]. apply Forall_bind.
    eapply Forall_impl; [exact Hs|]. intros m. apply good_entry.
  - by eapply runs_app.
Qed.

(** ** What is extracted *)

Lemma js_concat_not_empty fuel want acc s t : js_concat fuel want acc s = Some t -> t <> [].
Proof.
  revert want acc s. induction fuel as [|fuel IH]; intros want acc s; [done|]. cbn [js_concat].
  destruct (skip_space s) as [|c r]; [done|]. destruct want.
  - destruct (_ || _); [|done]. destruct (js_string c r) as [[t' k] n]. apply IH.
  - destruct (bool_decide (c = x2b)); [apply IH|]. destruct (_ || _); [|done]. case_bool_decide; [done|]. by intros [= <-].
Qed.

Lemma scan_not_empty fuel prev n s hit : hit ∈ scan fuel prev n s -> text hit <> [].
Proof.
  revert prev n s. induction fuel as [|fuel IH]; intros prev n s; [by intros ?%elem_of_nil|]. cbn [scan].
  destruct s as [|c r]; [by intros ?%elem_of_nil|]. destruct (bool_decide (c = x0a)); [apply IH|].
  destruct (HasPrefix _ (go "//")); [apply IH|].
  destruct (HasPrefix _ (go "/*")); [destruct (block_end _) as [[m k]|]; [apply IH|by intros ?%elem_of_nil]|].
  destruct (bool_decide (c ∈ _)); [destruct (js_string c r) as [[t k] m]; apply IH|].
  destruct (_ && _); [|apply IH]. destruct (call_text r) as [t|] eqn:E; [|apply IH].
  intros [->|H]%elem_of_cons; [|by eapply IH]. cbn [text]. unfold call_text in E. destruct (skip_space r) as [|d k]; [done|].
  destruct (bool_decide (d = x28)); [|done]. by apply js_concat_not_empty in E.
Qed.

Lemma add_hits_lookup path hits m t :
  is_Some (foldl (add_hit path) m hits !! t) <-> is_Some (m !! t) \/ t ∈ text <$> hits.
Proof.
  revert m. induction hits as [|h hits IH]; intros m; [cbn; set_solver|]. cbn [foldl fmap list_fmap]. rewrite IH, elem_of_cons.
  unfold add_hit. destruct (decide (t = text h)) as [->|Hne]; [rewrite lookup_insert_eq; naive_solver|].
  rewrite lookup_insert_ne by done. naive_solver.
Qed.

Lemma found_in_lookup files t :
  is_Some (found_in files !! t) <-> exists path source hit, (path, source) ∈ files /\ hit ∈ scanJS source /\ text hit = t.
Proof.
  unfold found_in. assert (forall m, is_Some (foldl (fun found f => foldl (add_hit f.1) found (scanJS f.2)) m files !! t)
    <-> is_Some (m !! t) \/ exists path source hit, (path, source) ∈ files /\ hit ∈ scanJS source /\ text hit = t) as H.
  { induction files as [|[path source] files IH]; intros m; cbn [foldl fst snd].
    - split; [by left|]. intros [?|(? & ? & ? & ?%elem_of_nil & _)]; done.
    - rewrite IH, add_hits_lookup, list_elem_of_fmap. split.
      + intros [[?|(hit & -> & ?)]|(p & s & hit & ? & ?)]; [by left|right..].
        * exists path, source, hit. split; [apply list_elem_of_here|done].
        * exists p, s, hit. split; [by apply list_elem_of_further|done].
      + intros [?|(p & s & hit & [[= -> ->]|Hin]%elem_of_cons & Hh & <-)]; [by left; left| |].
        * left; right. by exists hit.
        * right. by exists p, s, hit. }
  rewrite H, lookup_empty. split; [|by right]. by intros [[? ?]|?].
Qed.

Lemma extracted_ids files t :
  t ∈ id <$> extracted files <-> exists path source hit, (path, source) ∈ files /\ hit ∈ scanJS source /\ text hit = t.
Proof.
  rewrite <- found_in_lookup. unfold extracted. rewrite <- list_fmap_compose, list_elem_of_fmap. split.
  - intros ([k refs] & -> & Hin). cbn. apply elem_of_map_to_list in Hin. by exists refs.
  - intros [refs Hr]. exists (t, refs). split; [done|]. by apply elem_of_map_to_list.
Qed.

(** C19: a translated text reaches the page.  Whatever JavaScript the pages are,
    the template written for them, once a translator has filled it in, is read
    back without an error, as exactly the texts it asks for and that were
    translated; and the catalogue compiled from it gives, for every text the
    scanner found in any file, its translation. *)
Theorem translations_found files tr :
  Forall (fits tr) (extracted files) ->
  exists ms, parsePO (translated tr (extracted files)) = Ok ms
  /\ (forall m, m ∈ ms <-> exists path source hit,
        (path, source) ∈ files /\ hit ∈ scanJS source /\ tr (text hit) <> [] /\ m = MkMessage (text hit) (tr (text hit)) [])
  /\ forall out, compile ms = Ok out -> Z.of_nat (length out) < 2 ^ 32 ->
     exists index, readCatalogue out = Ok (out, index)
     /\ forall path source hit, (path, source) ∈ files -> hit ∈ scanJS source -> tr (text hit) <> [] ->
          lookupOne out index (text hit) = Found (tr (text hit)).
Proof.
  intros Hf. eexists. split; [by apply parse_translated|].
  assert (forall m, m ∈ merge_sort id_le (extracted files) ≫= kept tr <-> exists path source hit,
        (path, source) ∈ files /\ hit ∈ scanJS source /\ tr (text hit) <> [] /\ m = MkMessage (text hit) (tr (text hit)) []) as Hm.
  { intros m. rewrite list_elem_of_bind. split.
    - intros (e & Hk & He). rewrite merge_sort_Permutation in He.
      assert (id e ∈ id <$> extracted files) as (path & source & hit & Hp & Hh & Ht)%extracted_ids by (by apply list_elem_of_fmap_2).
      unfold kept in Hk. rewrite <- Ht in Hk. destruct (bool_decide (text hit = [])) eqn:E1; [by apply elem_of_nil in Hk|].
      case_bool_decide as E2; [by apply elem_of_nil in Hk|]. apply list_elem_of_singleton in Hk. by exists path, source, hit.
    - intros (path & source & hit & Hp & Hh & Ht & ->).
      assert (text hit ∈ id <$> extracted files) as (e & He & Hin)%list_elem_of_fmap by (apply extracted_ids; by exists path, source, hit).
      exists e. rewrite merge_sort_Permutation. split; [|done]. unfold kept. rewrite <- He.
      rewrite !bool_decide_eq_false_2; [apply list_elem_of_here|done|by eapply scan_not_empty]. }
  split; [exact Hm|]. intros out Hc Hlen. destruct (compile_lookup_all _ _ Hc Hlen) as (index & Hr & _ & _ & Hl).
  exists index. split; [exact Hr|]. intros path source hit Hp Hh Ht.
  assert (MkMessage (text hit) (tr (text hit)) [] ∈ merge_sort id_le (extracted files) ≫= kept tr) as Hin
    by (apply Hm; by exists path, source, hit).
  apply (Hl _ Hin). cbn [id]. intros m' (p' & s' & hit' & _ & _ & _ & ->)%Hm. cbn [id]. by intros ->.
Qed.

#[export] Instance fits_dec tr m : Decision (fits tr m).
Proof. unfold fits, short. apply _. Defined.

Definition page_a : bytes :=
  go "o.title = _('Save'); // _('not this')" ++ [x0a] ++ go "o.help = _('A ' +" ++ [x0a] ++ go "'hint');".
Definition example_pages : list (bytes * bytes) :=
  [(go "view/a.js", page_a); (go "view/b.js", go "return _('Save') + x_('nor this');")].
Definition german (t : bytes) : bytes :=
  if bool_decide (t = go "Save") then go "Sichern" else if bool_decide (t = go "A hint") then go "Ein Hinweis" else [].

Example example_template : scanJS page_a = [MkOccurrence (go "Save") 1; MkOccurrence (go "A hint") 2].
Proof. by vm_compute. Qed.

Definition example_catalogue : bytes :=
  match parsePO (translated german (extracted example_pages)) with
  | Ok ms => match compile ms with Ok out => out | Err _ => [] end
  | Err _ => []
  end.

Lemma translations_found_witness :
  exists index, readCatalogue example_catalogue = Ok (example_catalogue, index)
  /\ lookupOne example_catalogue index (go "A hint") = Found (go "Ein Hinweis").
Proof.
  destruct (translations_found example_pages german) as (ms & Hp & _ & Hc); [by apply (bool_decide_unpack _); vm_compute|].
  assert (compile ms = Ok example_catalogue) as Hcomp.
  { unfold example_catalogue. rewrite Hp. destruct (compile ms) as [out|e] eqn:E; [done|].
    exfalso. assert (match parsePO (translated german (extracted example_pages)) with Ok ms => match compile ms with Ok _ => true | _ => false end | _ => false end = true) as Ht by (by vm_compute).
    rewrite Hp, E in Ht. discriminate Ht. }
  destruct (Hc _ Hcomp) as (index & Hr & Hl); [by vm_compute|]. exists index. split; [exact Hr|].
  apply (Hl (go "view/a.js") page_a (MkOccurrence (go "A hint") 2)); [apply list_elem_of_here| |].
  - rewrite example_template. apply list_elem_of_further, list_elem_of_here.
  - apply (bool_decide_unpack _). by vm_compute.
Defined.
