(* ===== verification/Ssh.v ===== *)
(** The session a deployment has with a server: [internal/deploy/session.go].

    A server is its files, which SFTP reads and writes, and the rest of its
    state, of any type; what a command does to both is the class [Remote], and
    so is whether an SFTP request or a connection fails.  An SFTP request that
    works does what the SFTP documents say: creating truncates, removing takes
    a file that is there, renaming takes a name that is free.  [log] remembers
    what was done to the server and what was reported, oldest first. *)
From S2P Require Import Prelude GoStrings Url Stream Protocol Client.

(** ** Errors and reports of the package *)

Inductive derr : Type :=
  | ErrNoHost
  | ErrReadKey (path e : bytes)
  | ErrParseKey (path e : bytes)
  | ErrNoCredentials
  | ErrDial (addr e : bytes)
  | ErrAuthenticate (addr e : bytes)
  | ErrHostKeyChanged (known presented : bytes)     (* inside the error of the authentication *)
  | ErrRefuseToContinue (e : derr)
  | ErrOpenSession (e : bytes)
  | ErrCommand (command e stderr : bytes)
  | ErrCancelled (e : bytes)
  | ErrStartSFTP (e : bytes)
  | ErrFile (what path e : bytes)                   (* create, write, close, chmod, install *)
  | ErrToken
  | ErrDetect (raw : bytes)
  | ErrNeedsRoot
  | ErrPortHeld (port : Z) (holder : bytes)
  | ErrServiceUser (e : derr)
  | ErrLocalBinary (path e : bytes)
  | ErrWrongMachine (machine : Z) (arch : bytes)
  | ErrUploadMismatch (got want : bytes)
  | ErrNoRelease (arch : bytes)
  | ErrDownload (e : derr)
  | ErrDownloadMismatch (got want : bytes)
  | ErrServerConfig
  | ErrEncodeConfig
  | ErrStateDir (e : derr)
  | ErrInit (init : bytes)
  | ErrTemplate (path : bytes)
  | ErrEnable (e : derr)
  | ErrStart (e : derr)
  | ErrNotListening
  | ErrGreeting (e : perr)
  | ErrSendLogin (e : perr)
  | ErrReadLogin (e : perr)
  | ErrUnexpectedReply (type : Z)
  | ErrRejected (text : bytes)
  | ErrUnusable (addr : bytes) (last : option derr).

(** A reported event; [e_Cause] is the error whose text ends the message. *)
Record Event := MkEvent {
  e_Step : bytes;
  e_Level : bytes;
  e_Message : bytes;
  e_Cause : option derr;
  e_Detail : gmap bytes bytes
}.

(** ** The server at the other end *)

(** How a command ends. *)
Inductive exit : Type :=
  | Exited
  | NoSession (e : bytes)          (* it never started *)
  | Cancelled (e : bytes)          (* the context ended first *)
  | Failed (e stderr : bytes).

Inductive sftp_op : Type :=
  | NewClient
  | MkdirAll (dir : bytes)
  | Create (path : bytes)
  | WriteTo (path content : bytes)
  | CloseFile (path : bytes)
  | Chmod (path : bytes) (mode : Z)
  | Remove (path : bytes)
  | Rename (old new : bytes).

Abbreviation rfiles := (gmap bytes (bytes * Z)).

Record Host (S : Type) := MkHost { files : rfiles; rest : S }.
Arguments MkHost {S} _ _.
Arguments files {S} _.
Arguments rest {S} _.

(** A connection to a port of the server: whether a deadline can be set, what
    is written, and what comes back for what was written. *)
Record conn := MkConn {
  c_deadline : option bytes;
  c_writer : writer;
  c_answer : bytes -> stream
}.

Class Remote (S : Type) := {
  exec : bytes -> Host S -> (bytes * exit) * Host S;
  sftp_fails : sftp_op -> Host S -> option (bytes * nat) * S;   (* the error, and how much of a write went through *)
  dial : bytes -> Host S -> res bytes conn * S;
  clock : Host S -> Z                                           (* here: seconds since 1970 *)
}.

(** What an SFTP request does, and the error it has by itself. *)
Definition sftp_effect (op : sftp_op) (fs : rfiles) : res bytes rfiles :=
  match op with
  | NewClient | MkdirAll _ | CloseFile _ => Ok fs
  | Create p => Ok (<[p := ([], default 420 (snd <$> fs !! p))]> fs)
  | WriteTo p b => Ok (alter (fun f => (f.1 ++ b, f.2)) p fs)
  | Chmod p m => match fs !! p with Some f => Ok (<[p := (f.1, m)]> fs) | None => Err (go "file does not exist") end
  | Remove p => match fs !! p with Some _ => Ok (delete p fs) | None => Err (go "file does not exist") end
  | Rename a b =>
      match fs !! a, fs !! b with
      | Some f, None => Ok (<[b := f]> (delete a fs))
      | None, _ => Err (go "file does not exist")
      | _, _ => Err (go "sftp: failure")
      end
  end.

(** What a failed request may leave behind: a part of what it was to write. *)
Definition sftp_partial (op : sftp_op) (n : nat) (fs : rfiles) : rfiles :=
  match op with WriteTo p b => alter (fun f => (f.1 ++ take n b, f.2)) p fs | _ => fs end.

(** ** The log and the session *)

Inductive action : Type :=
  | Ran (command out : bytes) (e : exit)
  | Sftp (op : sftp_op) (e : option bytes)
  | Shook (addr : bytes) (token : bytes) (e : option derr)
  | Reported (e : Event).

Record Session (S : Type) := MkSession { host : Host S; sftp : bool; log : list action }.
Arguments MkSession {S} _ _ _.
Arguments host {S} _.
Arguments sftp {S} _.
Arguments log {S} _.

(** A computation with the session that may fail. *)
Definition ses (S A : Type) : Type := Session S -> res derr A * Session S.

#[export] Instance ses_ret {S} : MRet (ses S) := fun A a s => (Ok a, s).
#[export] Instance ses_bind {S} : MBind (ses S) := fun A B f m s =>
  match m s with (Ok a, s) => f a s | (Err e, s) => (Err e, s) end.

Definition fails {S A} (e : derr) : ses S A := fun s => (Err e, s).
Definition lift {S A} (r : res derr A) : ses S A := fun s => (r, s).

(** The error of [m], if any; the caller goes on. *)
Definition attempt {S A} (m : ses S A) : ses S (res derr A) := fun s => let '(r, s) := m s in (Ok r, s).

Definition on_error {S A} (f : derr -> derr) (m : ses S A) : ses S A := fun s =>
  match m s with (Err e, s) => (Err (f e), s) | ok => ok end.

Definition note {S} (a : action) (s : Session S) : Session S := MkSession (host s) (sftp s) (log s ++ [a]).

Definition emit {S} (e : Event) : ses S unit := fun s => (Ok tt, note (Reported e) s).

(** [truncate]: the first [n] bytes and an ellipsis. *)
Definition truncate (s : bytes) (n : nat) : bytes :=
  if (length s <=? n)%nat then s else take n s ++ [xe2; x80; xa6].

Section session.
Context {S : Type} `{R : Remote S}.

(** [run]: what was printed, and the error. *)
Definition run_command (command : bytes) (s : Session S) : (bytes * option derr) * Session S :=
  let '((out, e), h) := exec command (host s) in
  (match e with
   | Exited => (out, None)
   | NoSession e => ([], Some (ErrOpenSession e))
   | Cancelled e => (out, Some (ErrCancelled e))
   | Failed e stderr => (out, Some (ErrCommand (truncate command 60) e (TrimSpace stderr)))
   end, MkSession h (sftp s) (log s ++ [Ran command out e])).

(** [Run], for a caller that returns the error. *)
Definition Run (command : bytes) : ses S bytes := fun s =>
  let '((out, e), s) := run_command command s in (match e with Some e => Err e | None => Ok out end, s).

(** [Run], for a caller that ignores the error. *)
Definition Run_ (command : bytes) : ses S unit := fun s => (Ok tt, (run_command command s).2).

Definition Output (command : bytes) : ses S bytes := fun s =>
  let '((out, _), s) := run_command command s in (Ok (TrimSpace out), s).

Definition ShellQuote (value : bytes) : bytes := go "'" ++ ReplaceAll value (go "'") (go "'\''") ++ go "'".

Definition exists_command (path : bytes) : bytes := go "test -e " ++ ShellQuote path ++ go " && echo yes || echo no".
Definition has_command (name : bytes) : bytes := go "command -v " ++ ShellQuote name ++ go " >/dev/null 2>&1 && echo yes || echo no".

Definition Exists (path : bytes) : ses S bool := out ← Output (exists_command path); mret (bool_decide (out = go "yes")).
Definition HasCommand (name : bytes) : ses S bool := out ← Output (has_command name); mret (bool_decide (out = go "yes")).

(** ** Writing a file *)

Definition request (op : sftp_op) : ses S unit := fun s =>
  match sftp_fails op (host s) with
  | (Some (e, n), x) =>
      (Err (ErrFile [] [] e), MkSession (MkHost (sftp_partial op n (files (host s))) x) (sftp s) (log s ++ [Sftp op (Some e)]))
  | (None, x) =>
      match sftp_effect op (files (host s)) with
      | Ok fs => (Ok tt, MkSession (MkHost fs x) (sftp s) (log s ++ [Sftp op None]))
      | Err e => (Err (ErrFile [] [] e), MkSession (MkHost (files (host s)) x) (sftp s) (log s ++ [Sftp op (Some e)]))
      end
  end.

(** The error of a request, with what it was for. *)
Definition failed_to (what path : bytes) (e : derr) : derr :=
  match e with ErrFile _ _ e => ErrFile what path e | e => e end.

Definition sftpClient : ses S unit := fun s =>
  if sftp s then (Ok tt, s)
  else match request NewClient s with
       | (Ok _, s) => (Ok tt, MkSession (host s) true (log s))
       | (Err (ErrFile _ _ e), s) => (Err (ErrStartSFTP e), s)
       | (Err e, s) => (Err e, s)
       end.

Definition parentDir (path : bytes) : bytes :=
  match LastIndexByte path x2f with Some (Datatypes.S i) => take (Datatypes.S i) path | _ => [] end.

Definition tmp_suffix : bytes := go ".openfrp-tmp".

(** A request whose failure takes the temporary file away. *)
Definition or_remove (tmp what path : bytes) (op : sftp_op) : ses S unit := fun s =>
  match request op s with
  | (Ok _, s) => (Ok tt, s)
  | (Err e, s) => (_ ← attempt (request (Remove tmp)); fails (failed_to what path e)) s
  end.

(** Up to the mode: the file is written under its temporary name. *)
Definition prepare_tmp (tmp dir content : bytes) (mode : Z) : ses S unit :=
  sftpClient ;;
  (if bool_decide (dir = []) then mret (Ok tt) else attempt (request (MkdirAll dir))) ;;
  on_error (failed_to (go "create") tmp) (request (Create tmp)) ;;
  (fun s => match request (WriteTo tmp content) s with
            | (Ok _, s) => (Ok tt, s)
            | (Err e, s) => (_ ← attempt (request (CloseFile tmp)); _ ← attempt (request (Remove tmp));
                             fails (failed_to (go "write") tmp e)) s
            end) ;;
  or_remove tmp (go "close") tmp (CloseFile tmp) ;;
  or_remove tmp (go "chmod") tmp (Chmod tmp mode).

Definition WriteFile (path content : bytes) (mode : Z) : ses S unit :=
  let tmp := path ++ tmp_suffix in
  prepare_tmp tmp (parentDir path) content mode ;;
  attempt (request (Remove path)) ;;
  or_remove tmp (go "install") path (Rename tmp path).
End session.

(** ** Connecting *)

Record Credentials := MkCredentials {
  cr_Host : bytes;
  cr_Port : Z;
  cr_User : bytes;
  cr_Password : bytes;
  KeyPath : bytes;
  KeyPassphrase : bytes;
  KnownFingerprint : bytes
}.

(** The files of this machine and the [ssh] package: reading a private key, and
    a connection, which presents a host key before it authenticates. *)
Inductive AuthMethod : Type :=
  | PublicKeys (signer : bytes)
  | Password (password : bytes)
  | KeyboardInteractive (answer : list bytes -> list bytes).

Inductive kex : Type :=
  | NoKey (e : bytes)                              (* failed before the host key *)
  | Presents (fingerprint : bytes) (authenticate : bytes -> list AuthMethod -> res bytes unit).

Class SshClient := {
  read_local : bytes -> res bytes bytes;
  ParsePrivateKey : bytes -> option bytes -> res bytes bytes;
  ssh_dial : bytes -> res bytes kex
}.

Definition authMethods `{SshClient} (creds : Credentials) : res derr (list AuthMethod) :=
  key ← (if bool_decide (KeyPath creds = []) then Ok []
         else
           pem ← map_err (ErrReadKey (KeyPath creds)) (read_local (KeyPath creds));
           signer ← map_err (ErrParseKey (KeyPath creds))
             (ParsePrivateKey pem (if bool_decide (KeyPassphrase creds = []) then None else Some (KeyPassphrase creds)));
           Ok [PublicKeys signer]);
  let methods :=
    key ++ (if bool_decide (cr_Password creds = []) then []
            else [Password (cr_Password creds); KeyboardInteractive (fun questions => (fun _ => cr_Password creds) <$> questions)]) in
  if bool_decide (length methods = 0%nat) then Err ErrNoCredentials else Ok methods.

Definition recordingHostKey (known fingerprint : bytes) : res derr unit :=
  if bool_decide (known = []) then Ok tt
  else if bool_decide (known = fingerprint) then Ok tt else Err (ErrHostKeyChanged known fingerprint).

Definition ssh_port (creds : Credentials) : Z := if cr_Port creds =? 0 then 22 else cr_Port creds.
Definition ssh_user (creds : Credentials) : bytes := if bool_decide (cr_User creds = []) then go "root" else cr_User creds.

(** The fingerprint the server presented. *)
Definition Connect `{SshClient} (creds : Credentials) : res derr bytes :=
  if bool_decide (cr_Host creds = []) then Err ErrNoHost
  else
    auth ← authMethods creds;
    let addr := JoinHostPort (cr_Host creds) (Itoa (ssh_port creds)) in
    match ssh_dial addr with
    | Err e => Err (ErrDial addr e)
    | Ok (NoKey e) => Err (ErrAuthenticate addr e)
    | Ok (Presents fingerprint authenticate) =>
        _ ← recordingHostKey (KnownFingerprint creds) fingerprint;
        _ ← map_err (ErrAuthenticate addr) (authenticate (ssh_user creds) auth);
        Ok fingerprint
    end.

(** ** What a shell reads

    The words of a command line by the quoting rules of POSIX (XCU 2.2): between
    single quotes every byte stands for itself, a backslash quotes the next,
    and blanks and operators end a word.  [None] is for what a shell would
    expand, and for a quote that is not closed. *)

Definition sh_blank (c : byte) : bool := bool_decide (c = x20) || bool_decide (c = x09).
Definition sh_operator (c : byte) : bool := ContainsByte (go "&|;<>()" ++ [x0a]) c.
Definition sh_special (c : byte) : bool := ContainsByte (go "$`*?[#~=%{}!" ++ [x22]) c.

Inductive sh_token : Type := Word (w : bytes) | Operator (c : byte).

(** The word so far, if one has begun. *)
Definition end_word (w : option bytes) : list sh_token := match w with Some w => [Word w] | None => [] end.

Fixpoint sh_read (quoted : bool) (s : bytes) (w : option bytes) : option (list sh_token) :=
  match s with
  | [] => if quoted then None else Some (end_word w)
  | c :: r =>
      if quoted then
        if bool_decide (c = x27) then sh_read false r w else sh_read true r (Some (default [] w ++ [c]))
      else if bool_decide (c = x27) then sh_read true r (Some (default [] w))
      else if bool_decide (c = x5c) then
        match r with [] => None | d :: r => sh_read false r (Some (default [] w ++ [d])) end
      else if sh_blank c then ts ← sh_read false r None; Some (end_word w ++ ts)
      else if sh_operator c then ts ← sh_read false r None; Some (end_word w ++ Operator c :: ts)
      else if sh_special c then None
      else sh_read false r (Some (default [] w ++ [c]))
  end.

Definition sh_words (command : bytes) : option (list sh_token) := sh_read false command None.

Example quote_cases :
  sh_words (go "rm -f " ++ ShellQuote (go "/tmp/it's; rm -rf $HOME")) = Some [Word (go "rm"); Word (go "-f"); Word (go "/tmp/it's; rm -rf $HOME")]
  /\ sh_words (go "a&&'b'") = Some [Word (go "a"); Operator x26; Operator x26; Word (go "b")]
  /\ sh_words (go "echo $x") = None.
Proof. by vm_compute. Qed.

(** ** Quoting *)

Definition quote_byte (c : byte) : bytes := if bool_decide (c = x27) then go "'\''" else [c].

Lemma ShellQuote_bytes v : ShellQuote v = go "'" ++ concat (quote_byte <$> v) ++ go "'".
Proof.
  unfold ShellQuote. do 2 f_equal. rewrite <- (ReplaceAll_tokens (fun c => [c]) quote_byte (go "'") (go "'\''") v).
  - f_equal. induction v as [|c v IH]; [done|]. cbn. by rewrite <- IH.
  - intros c t. unfold quote_byte. case_bool_decide as Hc.
    + rewrite Hc. reflexivity.
    + change ([c] ++ t) with (c :: t). cbn [replace_from]. unfold HasPrefix. rewrite bool_decide_eq_false_2; [done|].
      intros [k Hk]. by injection Hk as ->.
Qed.

(** A quoted value adds exactly itself to the word the shell is reading. *)
Lemma sh_read_quoted v k w : sh_read false (ShellQuote v ++ k) w = sh_read false k (Some (default [] w ++ v)).
Proof.
  rewrite ShellQuote_bytes, <- !app_assoc.
  change (sh_read false (go "'" ++ concat (quote_byte <$> v) ++ go "'" ++ k) w)
    with (sh_read true (concat (quote_byte <$> v) ++ go "'" ++ k) (Some (default [] w))).
  assert (forall w0, sh_read true (concat (quote_byte <$> v) ++ go "'" ++ k) (Some w0) = sh_read false k (Some (w0 ++ v))) as H.
  { induction v as [|c v IH]; intros w0; [by rewrite app_nil_r|].
    cbn [fmap list_fmap concat]. rewrite <- app_assoc. unfold quote_byte at 1. case_bool_decide as Hc.
    - rewrite Hc.
      change (sh_read true (go "'\''" ++ concat (quote_byte <$> v) ++ go "'" ++ k) (Some w0))
        with (sh_read true (concat (quote_byte <$> v) ++ go "'" ++ k) (Some (w0 ++ [x27]))).
      rewrite IH, <- app_assoc. done.
    - cbn [app sh_read]. rewrite bool_decide_eq_false_2 by done. cbn [default]. fold quote_byte.
      change (sh_read true (concat (quote_byte <$> v) ++ go "'" ++ k) (Some (w0 ++ [c])) = sh_read false k (Some (w0 ++ c :: v))).
      rewrite IH, <- app_assoc. done. }
  apply H.
Qed.

(** A text without quotes, blanks, operators or anything a shell would expand. *)
Definition sh_plain (c : byte) : bool :=
  negb (bool_decide (c = x27) || bool_decide (c = x5c) || sh_blank c || sh_operator c || sh_special c).

Lemma sh_read_plain p k w : Forall (fun c => sh_plain c = true) p -> p <> [] ->
  sh_read false (p ++ k) w = sh_read false k (Some (default [] w ++ p)).
Proof.
  intros H. revert w. induction H as [|c p Hc Hp IH]; [done|]. intros w _.
  unfold sh_plain in Hc. apply negb_true_iff in Hc. rewrite !orb_false_iff in Hc. destruct Hc as ((((H1 & H2) & H3) & H4) & H5).
  cbn [app sh_read]. rewrite H1, H2, H3, H4, H5. destruct p as [|d p]; [done|].
  rewrite IH by done. do 2 f_equal. exact (eq_sym (app_assoc _ [c] (d :: p))).
Qed.

(** ** What writing a file leaves *)

Section files.
Context {S : Type} `{R : Remote S}.

Abbreviation fs_of s := (files (host s)).

Lemma request_files op s r s' :
  request op s = (r, s') ->
  (r = Ok tt /\ sftp_effect op (fs_of s) = Ok (fs_of s'))
  \/ exists e, r = Err (ErrFile [] [] e) /\ (fs_of s' = fs_of s \/ exists n, fs_of s' = sftp_partial op n (fs_of s)).
Proof.
  unfold request. destruct (sftp_fails op (host s)) as [[[e n]|] x].
  - intros [= <- <-]. right. exists e. split; [done|]. right. by exists n.
  - destruct (sftp_effect op (fs_of s)) as [fs|e] eqn:E; intros [= <- <-]; [left; done|right; exists e; split; [done|by left]].
Qed.

(** The other files stay as they are. *)
Lemma request_elsewhere op s r s' p :
  request op s = (r, s') ->
  match op with
  | NewClient | MkdirAll _ | CloseFile _ => True
  | Create q | WriteTo q _ | Chmod q _ | Remove q => p <> q
  | Rename a b => p <> a /\ p <> b
  end -> fs_of s' !! p = fs_of s !! p.
Proof.
  intros H Hp. apply request_files in H as [[_ H]|(e & _ & [->|[n ->]])]; [|done|].
  - destruct op as [|dir|q|q b|q|q m|q|a b]; cbn in H.
    + by injection H as <-.
    + by injection H as <-.
    + injection H as <-. by rewrite lookup_insert_ne.
    + injection H as <-. by rewrite lookup_alter_ne.
    + by injection H as <-.
    + destruct (fs_of s !! q); [injection H as <-|done]. by rewrite lookup_insert_ne.
    + destruct (fs_of s !! q); [injection H as <-|done]. by rewrite lookup_delete_ne.
    + destruct Hp. destruct (fs_of s !! a), (fs_of s !! b); try done. injection H as <-. by rewrite lookup_insert_ne, lookup_delete_ne.
  - destruct op; try done. cbn. by rewrite lookup_alter_ne.
Qed.

(** A computation that leaves every file outside [T] as it is. *)
Definition changes (T : list bytes) {A : Type} (m : ses S A) : Prop :=
  forall s r s', m s = (r, s') -> forall p, p ∉ T -> fs_of s' !! p = fs_of s !! p.

Lemma changes_bind T {A B : Type} (m : ses S A) (f : A -> ses S B) :
  changes T m -> (forall a, changes T (f a)) -> changes T (m ≫= f).
Proof.
  intros Hm Hf s r s' H p Hp. unfold mbind, ses_bind in H. destruct (m s) as [[a|e] t] eqn:E.
  - rewrite (Hf a _ _ _ H p Hp). by eapply Hm.
  - injection H as _ <-. by eapply Hm.
Qed.

Lemma changes_attempt T {A : Type} (m : ses S A) : changes T m -> changes T (attempt m).
Proof. intros Hm s r s'. unfold attempt. destruct (m s) eqn:E. intros [= _ <-]. by eapply Hm. Qed.

Lemma changes_on_error T {A : Type} f (m : ses S A) : changes T m -> changes T (on_error f m).
Proof. intros Hm s r s'. unfold on_error. destruct (m s) as [[a|e] t] eqn:E; intros [= _ <-]; by eapply Hm. Qed.

Lemma changes_ret T {A : Type} (r : res derr A) : changes T (lift r).
Proof. by intros s r' s' [= _ <-]. Qed.

Lemma changes_request T op :
  match op with
  | NewClient | MkdirAll _ | CloseFile _ => True
  | Create q | WriteTo q _ | Chmod q _ | Remove q => q ∈ T
  | Rename a b => a ∈ T /\ b ∈ T
  end -> changes T (request op).
Proof.
  intros Hop s r s' H p Hp. eapply request_elsewhere; [exact H|].
  destruct op as [|dir|q|q b|q|q m|q|a b]; try done; [..|destruct Hop; split]; intros ->; contradiction.
Qed.

Lemma changes_or_remove T tmp what path op : tmp ∈ T -> changes T (request op) -> changes T (or_remove tmp what path op).
Proof.
  intros Ht Hop s r s' H p Hp. unfold or_remove in H. destruct (request op s) as [[[]|e] t] eqn:E.
  - injection H as _ <-. by eapply Hop.
  - rewrite <- (Hop _ _ _ E p Hp). revert H p Hp. apply (changes_bind T); [|intros a; apply (changes_ret T (Err _))].
    by apply changes_attempt, changes_request.
Qed.

Lemma changes_sftpClient T : changes T sftpClient.
Proof.
  intros s r s' H p Hp. unfold sftpClient in H. destruct (sftp s); [by injection H as _ <-|].
  destruct (request NewClient s) as [r1 t] eqn:E. pose proof (changes_request T NewClient I _ _ _ E p Hp) as Ht.
  destruct r1 as [[]|e]; [by injection H as _ <-|]. destruct e; by injection H as _ <-.
Qed.
End files.

#[export] Hint Resolve changes_bind changes_attempt changes_on_error changes_ret changes_or_remove changes_sftpClient : frp.

Lemma ses_bind_inv {S A B : Type} (m : ses S A) (f : A -> ses S B) s r s' :
  (m ≫= f) s = (r, s') -> (exists e, m s = (Err e, s') /\ r = Err e) \/ exists a t, m s = (Ok a, t) /\ f a t = (r, s').
Proof.
  unfold mbind, ses_bind. destruct (m s) as [[a|e] t]; intros H; [right; by exists a, t|].
  left. exists e. by injection H as <- <-.
Qed.

Section write_file.
Context {S : Type} `{R : Remote S}.

Abbreviation fs_of s := (files (host s)).

Lemma or_remove_inv tmp what path op s r s' :
  or_remove tmp what path op s = (r, s') ->
  (r = Ok tt /\ sftp_effect op (fs_of s) = Ok (fs_of s'))
  \/ exists e t, r = Err (ErrFile what path e) /\ request op s = (Err (ErrFile [] [] e), t) /\ (forall p, p <> tmp -> fs_of s' !! p = fs_of t !! p).
Proof.
  unfold or_remove. destruct (request op s) as [[[]|e] t] eqn:E.
  - intros [= <- <-]. left. split; [done|]. by apply request_files in E as [[_ H]|(? & ? & _)].
  - intros H. pose proof (request_files _ _ _ _ E) as [[? _]|(er & [= ->] & _)]; [done|]. right. exists er, t.
    unfold attempt, mbind, ses_bind, fails in H. destruct (request (Remove tmp) t) as [r1 t1] eqn:E1. injection H as <- <-.
    split_and!; [done|done|]. intros p Hp. apply (changes_request [tmp] (Remove tmp) ltac:(set_solver) _ _ _ E1 p). set_solver.
Qed.

Lemma prepare_tmp_changes tmp dir content mode : changes [tmp] (prepare_tmp tmp dir content mode).
Proof.
  assert (forall op, match op with Create q | WriteTo q _ | Chmod q _ | Remove q => q = tmp | Rename _ _ => False | _ => True end ->
    changes [tmp] (request (R:=R) op)) as Hr.
  { intros op Hop. apply changes_request. destruct op; set_solver. }
  unfold prepare_tmp. apply changes_bind; [apply changes_sftpClient|intros _].
  apply changes_bind; [case_bool_decide; [apply (changes_ret _ (Ok _))|by apply changes_attempt, Hr]|intros _].
  apply changes_bind; [by apply changes_on_error, Hr|intros _].
  apply changes_bind.
  2: { intros _. apply changes_bind; [apply changes_or_remove; [set_solver|by apply Hr]|intros _].
       apply changes_or_remove; [set_solver|by apply Hr]. }
  intros s r s' H p Hp. destruct (request (WriteTo tmp content) s) as [[[]|e] t] eqn:E.
  - injection H as _ <-. exact (Hr (WriteTo tmp content) eq_refl _ _ _ E p Hp).
  - rewrite <- (Hr (WriteTo tmp content) eq_refl _ _ _ E p Hp). revert H p Hp. apply (changes_bind [tmp]); [by apply changes_attempt, Hr|intros _].
    apply changes_bind; [by apply changes_attempt, Hr|intros _]. apply (changes_ret _ (Err _)).
Qed.

Lemma prepare_tmp_content tmp dir content mode s s' :
  prepare_tmp tmp dir content mode s = (Ok tt, s') -> fs_of s' !! tmp = Some (content, mode).
Proof.
  unfold prepare_tmp. intros H.
  apply ses_bind_inv in H as [(? & _ & ?)|(? & s1 & _ & H)]; [done|].
  apply ses_bind_inv in H as [(? & _ & ?)|(? & s2 & _ & H)]; [done|].
  apply ses_bind_inv in H as [(? & _ & ?)|(? & s3 & H3 & H)]; [done|].
  apply ses_bind_inv in H as [(? & _ & ?)|(? & s4 & H4 & H)]; [done|].
  apply ses_bind_inv in H as [(? & _ & ?)|(? & s5 & H5 & H)]; [done|].
  assert (exists m, fs_of s3 !! tmp = Some ([], m)) as [m H3'].
  { unfold on_error in H3. destruct (request (Create tmp) s2) as [[[]|e] t] eqn:E; [|done]. injection H3 as _ <-.
    apply request_files in E as [[_ E]|(? & ? & _)]; [|done]. injection E as <-. eexists. apply lookup_insert_eq. }
  assert (fs_of s4 !! tmp = Some (content, m)) as H4'.
  { destruct (request (WriteTo tmp content) s3) as [[[]|e] t] eqn:E.
    - injection H4 as _ <-. apply request_files in E as [[_ E]|(? & ? & _)]; [|done]. injection E as <-.
      rewrite lookup_alter_eq, H3'. done.
    - apply ses_bind_inv in H4 as [(? & _ & ?)|(? & ? & _ & H4)]; [done|].
      by apply ses_bind_inv in H4 as [(? & _ & ?)|(? & ? & _ & ?)]. }
  apply or_remove_inv in H5 as [[_ E5]|(? & ? & ? & _)]; [|done]. injection E5 as E5.
  apply or_remove_inv in H as [[_ E6]|(? & ? & ? & _)]; [|done]. cbn in E6. rewrite <- E5, H4' in E6. injection E6 as <-.
  apply lookup_insert_eq.
Qed.
End write_file.

(** C38: [WriteFile] installs a file whole or not at all.  Whatever requests fail,
    it touches only the file and its temporary; when it reports success the
    file has the content and the mode and the temporary is gone; when it fails
    the old file is there unchanged, unless it was the last request, the
    renaming, that failed: then the old file may be gone. *)
Theorem WriteFile_installs {S : Type} `{Remote S} path content mode (s : Session S) r s' :
  WriteFile path content mode s = (r, s') ->
  let fs := files (host s) in
  let fs' := files (host s') in
  (forall p, p <> path -> p <> path ++ tmp_suffix -> fs' !! p = fs !! p)
  /\ match r with
     | Ok _ => fs' !! path = Some (content, mode) /\ fs' !! (path ++ tmp_suffix) = None
     | Err e => fs' !! path = fs !! path \/ (fs' !! path = None /\ exists er, e = ErrFile (go "install") path er)
     end.
Proof.
  intros Hw fs fs'. set (tmp := path ++ tmp_suffix) in *.
  assert (path <> tmp) as Hne by (intros E; apply (f_equal length) in E; subst tmp; rewrite length_app in E; cbn in E; lia).
  unfold WriteFile in Hw. fold tmp in Hw. cbv zeta in Hw.
  assert (forall r1 s1, prepare_tmp tmp (parentDir path) content mode s = (r1, s1) ->
    forall p, p <> tmp -> files (host s1) !! p = fs !! p) as Hprep
    by (intros r1 s1 H1 p Hp; apply (prepare_tmp_changes _ _ _ _ _ _ _ H1); set_solver).
  apply ses_bind_inv in Hw as [(e & H1 & ->)|([] & s1 & H1 & Hw)]; pose proof (Hprep _ _ H1) as Hp1.
  { split; [intros p _ Hp; by apply Hp1|left; by apply Hp1]. }
  pose proof (prepare_tmp_content _ _ _ _ _ _ H1) as Htmp.
  apply ses_bind_inv in Hw as [(e & H2 & ->)|(r2 & s2 & H2 & Hw)]; [unfold attempt in H2; by destruct (request _ _)|].
  unfold attempt in H2. destruct (request (Remove path) s1) as [r2' s2'] eqn:E2. injection H2 as -> ->.
  assert (forall p, p <> path -> files (host s2) !! p = files (host s1) !! p) as Hp2
    by (intros p Hp; exact (request_elsewhere _ _ _ _ p E2 Hp)).
  apply or_remove_inv in Hw as [[-> E3]|(er & t & -> & E3 & Hp3)].
  - cbn in E3. rewrite (Hp2 tmp) in E3 by done. rewrite Htmp in E3. destruct (files (host s2) !! path); [done|]. injection E3 as E3.
    subst fs'. rewrite <- E3. split_and!.
    + intros p Hp Hpt. rewrite lookup_insert_ne, lookup_delete_ne by done. by rewrite Hp2, Hp1.
    + apply lookup_insert_eq.
    + rewrite lookup_insert_ne by done. apply lookup_delete_eq.
  - pose proof (request_files _ _ _ _ E3) as [[? _]|(? & _ & [Ht|[n Ht]])]; [done| |]; cbn in Ht;
      (split; [intros p Hp Hpt; subst fs'; rewrite Hp3, Ht, Hp2, Hp1; done|]; subst fs'; rewrite Hp3, Ht by done;
       apply request_files in E2 as [[_ E2]|(? & _ & [E2|[n2 E2]])];
       [right; split; [|by exists er]; cbn in E2; destruct (files (host s1) !! path); [injection E2 as <-; apply lookup_delete_eq|done]
       |left; rewrite E2; by apply Hp1|left; cbn in E2; rewrite E2; by apply Hp1]).
Qed.

(** ** A server for the examples *)

(** It knows what some commands print, the others print nothing; SFTP requests
    fail as [broken] says; a connection answers [reply]. *)
Definition canned (prints : list (bytes * bytes)) (broken : sftp_op -> bool) (reply : stream) : Remote unit := {|
  exec command h := ((default [] (snd <$> find (fun p => bool_decide (p.1 = command)) prints), Exited), h);
  sftp_fails op h := (if broken op then Some (go "failure", 3%nat) else None, tt);
  dial addr h := (Ok (MkConn None (Writer [] None) (fun _ => reply)), tt);
  clock h := 1700000000
|}.

Definition no_host : Host unit := MkHost {[ go "/etc/x" := (go "old", 420) ]} tt.
Definition fresh {S : Type} (h : Host S) : Session S := MkSession h false [].

Example write_cases :
  let f := fun broken => let '(r, s) := @WriteFile unit (canned [] broken (Stream [] EOF)) (go "/etc/x") (go "new text") 416 (fresh no_host) in
                         (is_ok r, files (host s) !! go "/etc/x", files (host s) !! go "/etc/x.openfrp-tmp") in
  f (fun _ => false) = (true, Some (go "new text", 416), None)
  /\ f (fun op => match op with WriteTo _ _ => true | _ => false end) = (false, Some (go "old", 420), None)
  /\ f (fun op => match op with Rename _ _ => true | _ => false end) = (false, None, None).
Proof. by vm_compute. Qed.

Lemma WriteFile_installs_witness :
  files (host (@WriteFile unit (canned [] (fun _ => false) (Stream [] EOF)) (go "/etc/x") (go "new") 416 (fresh no_host)).2) !! go "/etc/x"
  = Some (go "new", 416).
Proof.
  destruct (@WriteFile unit (canned [] (fun _ => false) (Stream [] EOF)) (go "/etc/x") (go "new") 416 (fresh no_host)) as [r s'] eqn:E.
  destruct (@WriteFile_installs unit (canned [] (fun _ => false) (Stream [] EOF)) _ _ _ _ _ _ E) as [_ H].
  pose proof (f_equal (fun x => is_ok x.1) E) as Hr. vm_compute in Hr. destruct r; [exact (proj1 H)|discriminate].
Defined.

(** ** Reading a command made of texts and quoted values *)

(** What a text without quotes leaves: the tokens ended, and the word begun. *)
Fixpoint sh_text (s : bytes) (w : option bytes) : option (list sh_token * option bytes) :=
  match s with
  | [] => Some ([], w)
  | c :: r =>
      if bool_decide (c = x27) || bool_decide (c = x5c) then None
      else if sh_blank c then '(ts, w') ← sh_text r None; Some (end_word w ++ ts, w')
      else if sh_operator c then '(ts, w') ← sh_text r None; Some (end_word w ++ Operator c :: ts, w')
      else if sh_special c then None
      else sh_text r (Some (default [] w ++ [c]))
  end.

Lemma sh_read_text l k w ts w' :
  sh_text l w = Some (ts, w') -> sh_read false (l ++ k) w = app ts <$> sh_read false k w'.
Proof.
  revert w ts. induction l as [|c l IH]; intros w ts Hl; cbn [sh_text] in Hl.
  - injection Hl as <- <-. cbn. by destruct (sh_read false k w).
  - cbn [app sh_read]. destruct (bool_decide (c = x27)); [done|]. destruct (bool_decide (c = x5c)); [done|]. cbn [orb] in Hl.
    destruct (sh_blank c); [|destruct (sh_operator c); [|destruct (sh_special c); [done|]]].
    + destruct (sh_text l None) as [[ts1 w1]|] eqn:E; [|done]. injection Hl as <- <-. rewrite (IH _ _ E).
      destruct (sh_read false k w1); cbn; [|done]. by rewrite app_assoc.
    + destruct (sh_text l None) as [[ts1 w1]|] eqn:E; [|done]. injection Hl as <- <-. rewrite (IH _ _ E).
      destruct (sh_read false k w1); cbn; [|done]. by rewrite <- app_assoc.
    + by apply IH.
Qed.

Lemma sh_read_text_end l w ts w' : sh_text l w = Some (ts, w') -> sh_read false l w = Some (ts ++ end_word w').
Proof. intros Hl. rewrite <- (app_nil_r l), (sh_read_text _ _ _ _ _ Hl). done. Qed.

Lemma sh_read_quoted_end v w : sh_read false (ShellQuote v) w = Some [Word (default [] w ++ v)].
Proof. rewrite <- (app_nil_r (ShellQuote v)), sh_read_quoted. done. Qed.

(** Reads a command word by word. *)
Ltac sh_step :=
  first
    [ rewrite sh_read_quoted
    | rewrite sh_read_quoted_end
    | erewrite sh_read_text by reflexivity
    | erewrite sh_read_text_end by reflexivity ].
Ltac sh_compute := unfold sh_words; rewrite <- ?app_assoc; repeat sh_step; cbn -[ShellQuote]; rewrite <- ?app_assoc; reflexivity.
