(* ===== verification/Detect.v ===== *)
(** What a deployment finds on a server: [internal/deploy/detect/detect.go].

    The interface [Runner] of the package is a class over the monad its methods
    run in: a session implements it, and so does a plain function from commands
    to what they print. *)
From S2P Require Import Update Prelude GoStrings Ssh.

(** ** The interface *)

Class Runner (M : Type -> Type) := {
  r_Output : bytes -> M bytes;
  r_HasCommand : bytes -> M bool;
  r_Exists : bytes -> M bool
}.

#[export] Instance session_runner {S : Type} `{Remote S} : Runner (ses S) := {|
  r_Output := Output;
  r_HasCommand := HasCommand;
  r_Exists := Exists
|}.

Definition InitSystemd : bytes := go "systemd".
Definition InitOpenRC : bytes := go "openrc".
Definition InitSysVInit : bytes := go "sysvinit".
Definition InitUnknown : bytes := go "unknown".

Definition FirewallFirewalld : bytes := go "firewalld".
Definition FirewallUFW : bytes := go "ufw".
Definition FirewallNftables : bytes := go "nftables".
Definition FirewallIptables : bytes := go "iptables".
Definition FirewallNone : bytes := go "none".

Record Result := MkResult {
  Arch : bytes;
  RawArch : bytes;
  Distro : bytes;
  d_Version : bytes;
  Init : bytes;
  Firewall : bytes;
  FirewallActive : bool;
  BBRLoaded : bool;
  BBRAvailable : bool;
  OccupiedPorts : gmap Z bytes;
  Root : bool
}.

(** ** Reading what the commands print *)

Definition goArch (raw : bytes) : res derr bytes :=
  let one (names : list string) := bool_decide (TrimSpace raw ∈ (go <$> names)) in
  if one ["x86_64"; "amd64"]%string then Ok (go "amd64")
  else if one ["aarch64"; "arm64"]%string then Ok (go "arm64")
  else if one ["armv7l"; "armv7"; "armhf"]%string then Ok (go "arm")
  else if one ["i386"; "i686"]%string then Ok (go "386")
  else if one ["mips"]%string then Ok (go "mips")
  else if one ["mipsel"]%string then Ok (go "mipsle")
  else if one ["riscv64"]%string then Ok (go "riscv64")
  else if one ["loongarch64"]%string then Ok (go "loong64")
  else Err (ErrDetect raw).

Definition users_mark : bytes := go "users:((" ++ [x22].

Definition processName (line : bytes) : bytes :=
  match (i ← Index line users_mark;
         let rest := drop (i + length users_mark) line in
         j ← IndexByte rest x22;
         if (0 <? j)%nat then Some (take j rest) else None) with
  | Some name => name
  | None =>
      match last (Fields line) with
      | Some field => match IndexByte field x2f with Some i => drop (i + 1) field | None => go "unknown" end
      | None => go "unknown"
      end
  end.

Definition port_of (field : bytes) : option Z :=
  i ← LastIndexByte field x3a;
  port ← Atoi (drop (i + 1) field);
  if (port <? 1) || (65535 <? port) then None else Some port.

Fixpoint first_port (fields : list bytes) : option Z :=
  match fields with
  | [] => None
  | field :: fields => match port_of field with Some port => Some port | None => first_port fields end
  end.

Definition add_line (ports : gmap Z bytes) (line : bytes) : gmap Z bytes :=
  let fields := Fields line in
  if (length fields <? 4)%nat then ports
  else match first_port fields with Some port => <[port := processName line]> ports | None => ports end.

Definition ports_of (out : bytes) : gmap Z bytes := foldl add_line ∅ (Split out x0a).

(** ** Inspecting *)

Definition cmd_arch : bytes := go "uname -m".
Definition cmd_root : bytes := go "id -u".
Definition cmd_distro : bytes :=
  go ". /etc/os-release 2>/dev/null && echo " ++ [x22] ++ go "$ID|$VERSION_ID|$PRETTY_NAME" ++ [x22].
Definition cmd_firewalld : bytes := go "firewall-cmd --state 2>/dev/null".
Definition cmd_ufw : bytes := go "ufw status 2>/dev/null | head -1".
Definition cmd_nft : bytes := go "nft list ruleset 2>/dev/null | wc -l".
Definition cmd_iptables : bytes := go "iptables -S 2>/dev/null | grep -c '^-A' || true".
Definition cmd_bbr : bytes := go "sysctl -n net.ipv4.tcp_available_congestion_control 2>/dev/null".
Definition cmd_bbr_module : bytes := go "modinfo -F filename tcp_bbr 2>/dev/null".
Definition cmd_ports : bytes := go "ss -lntp 2>/dev/null || netstat -lntp 2>/dev/null".

Section detect.
Context {M : Type -> Type} `{MRet M} `{MBind M} `{Runner M}.

Definition distro : M (bytes * bytes) :=
  out ← r_Output cmd_distro;
  let parts := Split out x7c in
  mret (match parts with
        | id :: version :: pretty :: _ =>
            if negb (bool_decide (pretty = [])) then (pretty, version)
            else if negb (bool_decide (id = [])) then (id, []) else (go "unknown", [])
        | id :: _ => if negb (bool_decide (id = [])) then (id, []) else (go "unknown", [])
        | [] => (go "unknown", [])
        end).

Definition initSystem : M bytes :=
  systemd ← r_Exists (go "/run/systemd/system");
  if (systemd : bool) then mret InitSystemd
  else
    openrc ← r_HasCommand (go "openrc");
    openrc ← ((if (openrc : bool) then mret true else r_Exists (go "/run/openrc/softlevel")) : M bool);
    if (openrc : bool) then mret InitOpenRC
    else
      sysv ← r_Exists (go "/etc/init.d");
      mret (if (sysv : bool) then InitSysVInit else InitUnknown).

(** [count, _ := strconv.Atoi(strings.TrimSpace(out))]: a number that does not
    fit gives the nearest that does. *)
Definition count_of (out : bytes) : Z :=
  let s := TrimSpace out in
  match Atoi s, s with
  | Some z, _ => z
  | None, x2d :: r => match parse_uint r with Some _ => min_i64 | None => 0 end
  | None, x2b :: r => match parse_uint r with Some _ => max_i64 | None => 0 end
  | None, _ => match parse_uint s with Some _ => max_i64 | None => 0 end
  end.

Definition firewall : M (bytes * bool) :=
  firewalld ← r_HasCommand (go "firewall-cmd");
  if (firewalld : bool) then
    out ← r_Output cmd_firewalld; mret (FirewallFirewalld, bool_decide (out = go "running"))
  else
    ufw ← r_HasCommand (go "ufw");
    if (ufw : bool) then
      out ← r_Output cmd_ufw; mret (FirewallUFW, Contains out (go "active"))
    else
      nft ← r_HasCommand (go "nft");
      if (nft : bool) then
        out ← r_Output cmd_nft; mret (FirewallNftables, 0 <? count_of out)
      else
        iptables ← r_HasCommand (go "iptables");
        if (iptables : bool) then
          out ← r_Output cmd_iptables; mret (FirewallIptables, 0 <? count_of out)
        else mret (FirewallNone, false).

Definition bbr : M (bool * bool) :=
  avail ← r_Output cmd_bbr;
  if Contains avail (go "bbr") then mret (true, true)
  else
    module ← r_Output cmd_bbr_module;
    mret (false, negb (bool_decide (module = [])) && negb (Contains module (go "ERROR"))).

Definition listeningPorts : M (gmap Z bytes) := out ← r_Output cmd_ports; mret (ports_of out).

Definition Detect : M (res derr Result) :=
  raw ← r_Output cmd_arch;
  match goArch raw with
  | Err e => mret (Err e)
  | Ok arch =>
      '(name, version) ← distro;
      init ← initSystem;
      '(fw, active) ← firewall;
      '(loaded, available) ← bbr;
      ports ← listeningPorts;
      id ← r_Output cmd_root;
      mret (Ok (MkResult arch raw name version init fw active loaded available ports (bool_decide (id = go "0"))))
  end.
End detect.

(** ** What is shown *)

Definition Summary (r : Result) : gmap bytes bytes :=
  let bbrState := if BBRLoaded r then go "loaded"
                  else if BBRAvailable r then go "available, needs modprobe" else go "unavailable" in
  let firewallState := Firewall r ++ (if negb (bool_decide (Firewall r = FirewallNone)) && negb (FirewallActive r)
                                      then go " (no rules)" else []) in
  {[ go "distro" := Distro r; go "arch" := Arch r ++ go " (" ++ RawArch r ++ go ")"; go "init" := Init r;
     go "firewall" := firewallState; go "bbr" := bbrState ]}.

Definition PortConflict (r : Result) (port : Z) : option bytes := OccupiedPorts r !! port.

(** ** A server given by what its commands print *)

#[export] Instance reader_ret {R : Type} : MRet (fun A => R -> A) := fun A a _ => a.
#[export] Instance reader_bind {R : Type} : MBind (fun A => R -> A) := fun A B f m r => f (m r) r.

Abbreviation printed := (fun A : Type => (bytes -> bytes) -> A).

#[export] Instance printed_runner : Runner printed := {|
  r_Output c prints := TrimSpace (prints c);
  r_HasCommand n prints := bool_decide (TrimSpace (prints (has_command n)) = go "yes");
  r_Exists p prints := bool_decide (TrimSpace (prints (exists_command p)) = go "yes")
|}.

Definition example_prints (c : bytes) : bytes :=
  if bool_decide (c = cmd_arch) then go "x86_64" ++ [x0a]
  else if bool_decide (c = cmd_root) then go "0"
  else if bool_decide (c = cmd_distro) then go "debian|12|Debian GNU/Linux 12"
  else if bool_decide (c = exists_command (go "/run/systemd/system")) then go "yes"
  else if bool_decide (c = has_command (go "ufw")) then go "yes"
  else if bool_decide (c = cmd_ufw) then go "Status: inactive"
  else if bool_decide (c = cmd_bbr) then go "reno cubic bbr"
  else if bool_decide (c = cmd_ports) then
    Join [go "State  Recv-Q Send-Q Local Address:Port Peer Address:Port Process";
          go "LISTEN 0      128    0.0.0.0:22         0.0.0.0:*    users:((" ++ [x22] ++ go "sshd" ++ [x22] ++ go ",pid=1,fd=3))";
          go "LISTEN 0      511    [::]:80            [::]:*       users:((" ++ [x22] ++ go "nginx" ++ [x22] ++ go ",pid=7,fd=6))";
          go "tcp 0 0 0.0.0.0:7000 0.0.0.0:* LISTEN 99/openfrps"] [x0a]
  else [].

Example detect_example :
  Detect (M := printed) example_prints
  = Ok (MkResult (go "amd64") (go "x86_64") (go "Debian GNU/Linux 12") (go "12") InitSystemd FirewallUFW true true true
          (<[22 := go "sshd"]> (<[80 := go "nginx"]> {[7000 := go "openfrps"]})) true).
Proof. by vm_compute. Qed.

(** ** [strings.Fields] of words between blanks *)

Definition word (w : bytes) : Prop := w <> [] /\ Forall no_space w.

Lemma leading_space_here s : leading_space (x20 :: s) = Some [x20].
Proof.
  unfold leading_space. destruct (find (HasPrefix (x20 :: s)) space_runes) as [r|] eqn:E.
  - apply find_some in E as [Hin Hp]. apply HasPrefix_true in Hp as [k Hk].
    apply list_elem_of_In in Hin. unfold space_runes in Hin.
    repeat (apply elem_of_cons in Hin as [->|Hin]; [try done|]). by apply not_elem_of_nil in Hin.
  - apply (find_none _ _) with (x := [x20]) in E; [done|]. unfold space_runes. cbn. tauto.
Qed.

Lemma fields_spaces n fuel s acc :
  (n <= fuel)%nat -> fields_from fuel (replicate n x20 ++ s) acc
  = match n with O => fields_from fuel s acc | _ => (if bool_decide (acc = []) then [] else [acc]) ++ fields_from (fuel - n) s [] end.
Proof.
  revert fuel acc. induction n as [|n IH]; intros fuel acc Hf; [done|]. destruct fuel as [|fuel]; [lia|].
  cbn [replicate app fields_from]. rewrite leading_space_here. f_equal.
  change (drop (length [x20]) (x20 :: replicate n x20 ++ s)) with (replicate n x20 ++ s).
  rewrite IH by lia. destruct n; [by replace (Datatypes.S fuel - 1)%nat with fuel by lia|]. rewrite bool_decide_eq_true_2 by done. done.
Qed.

Lemma fields_word w fuel s acc :
  Forall no_space w -> (length w <= fuel)%nat -> fields_from fuel (w ++ s) acc = fields_from (fuel - length w) s (acc ++ w).
Proof.
  intros H. revert fuel acc. induction H as [|c w Hc _ IH]; intros fuel acc Hf; [by rewrite app_nil_r, Nat.sub_0_r|].
  destruct fuel as [|fuel]; [cbn in Hf; lia|]. cbn in Hf. cbn [app fields_from]. rewrite leading_space_cons by done.
  rewrite IH by lia. by rewrite <- app_assoc.
Qed.

(** Words, each followed by blanks, and a last one. *)
Definition spaced (ws : list (bytes * nat)) (final : bytes) : bytes :=
  concat ((fun wn => wn.1 ++ replicate (Datatypes.S wn.2) x20) <$> ws) ++ final.

Lemma Fields_spaced ws final : Forall (fun wn => word wn.1) ws -> word final -> Fields (spaced ws final) = (ws.*1) ++ [final].
Proof.
  intros Hws [Hf1 Hf2]. unfold Fields.
  assert (forall fuel, (length (spaced ws final) <= fuel)%nat -> fields_from fuel (spaced ws final) [] = ws.*1 ++ [final]) as H; [|by apply H].
  induction Hws as [|[w n] ws [Hw1 Hw2] _ IH]; intros fuel Hlen.
  - unfold spaced in *. cbn [fmap list_fmap concat app] in *. rewrite <- (app_nil_r final) at 1.
    rewrite fields_word by done. rewrite app_nil_l. destruct (fuel - length final)%nat; cbn; by rewrite bool_decide_eq_false_2.
  - unfold spaced in *. cbn [fmap list_fmap concat fst snd app] in *. rewrite <- !app_assoc in *. rewrite !length_app, length_replicate in Hlen.
    rewrite fields_word by (done || lia). rewrite fields_spaces by lia. rewrite app_nil_l, bool_decide_eq_false_2 by done.
    cbn [app]. f_equal. apply IH. rewrite length_app. lia.
Qed.

(** ** The lines of [ss -lntp] *)

(** A line for a listening socket: its state and queues, the address it is
    bound to, the peer, and the process that holds it. *)
Record ss_row := MkRow {
  row_before : list (bytes * nat);
  row_addr : bytes;
  row_port : Z;
  row_gap : nat;
  row_peer : bytes * nat;
  row_process : bytes;
  row_tail : bytes
}.

Definition row_local (r : ss_row) : bytes := row_addr r ++ x3a :: Itoa (row_port r).
Definition row_users (r : ss_row) : bytes := users_mark ++ row_process r ++ x22 :: row_tail r.
Definition row_words (r : ss_row) : list (bytes * nat) := row_before r ++ [(row_local r, row_gap r); row_peer r].
Definition row_text (r : ss_row) : bytes := spaced (row_words r) (row_users r).

Definition plain_word (w : bytes) : Prop := word w /\ x22 ∉ w.

Record row_ok (r : ss_row) : Prop := {
  row_ok_before : Forall (fun wn => plain_word wn.1 /\ x3a ∉ wn.1) (row_before r);
  row_ok_addr : Forall no_space (row_addr r) /\ x22 ∉ row_addr r;
  row_ok_port : 1 <= row_port r <= 65535;
  row_ok_peer : plain_word (row_peer r).1;
  row_ok_process : plain_word (row_process r);
  row_ok_tail : Forall no_space (row_tail r);
  row_ok_fields : (1 <= length (row_before r))%nat
}.

Lemma Index_mark u c p k : c ∉ u -> c ∉ p -> Index (p ++ u ++ c :: k) (u ++ [c]) = Some (length p).
Proof.
  intros Hu. induction p as [|d p IH]; intros Hp.
  - rewrite app_nil_l, (cons_middle c), app_assoc. apply Index_here.
  - apply not_elem_of_cons in Hp as [Hd Hp]. cbn [app Index]. rewrite IH by done.
    assert (HasPrefix (d :: p ++ u ++ c :: k) (u ++ [c]) = false) as ->; [|done].
    apply not_true_iff_false. intros [j Hj]%HasPrefix_true. rewrite <- app_assoc in Hj. cbn [app] in Hj.
    pose proof (IndexByte_app u c j Hu) as H1. rewrite <- Hj in H1.
    change (d :: p ++ u ++ c :: k) with ((d :: p) ++ u ++ c :: k) in H1. rewrite app_assoc, IndexByte_app in H1; [|set_solver].
    injection H1 as H1. rewrite length_app in H1. cbn in H1. lia.
Qed.

Lemma Itoa_free_of c z : 0 <= z -> ~ is_digit c -> c ∉ Itoa z.
Proof.
  intros Hz Hc Hin. unfold Itoa in Hin. rewrite (proj2 (Z.ltb_ge _ _)) in Hin by done.
  pose proof (utoa_digits (Z.to_N z)) as Hd. rewrite Forall_forall in Hd. by apply Hc, Hd.
Qed.

Lemma processName_row r : row_ok r -> processName (row_text r) = row_process r.
Proof.
  intros [Hb Ha Hp Hpe Hpr Ht _]. unfold processName, row_text, spaced, row_users.
  set (front := concat _). assert (x22 ∉ front) as Hq.
  { subst front. intros Hin. apply list_elem_of_In, in_concat in Hin as (l & Hl & Hin). apply list_elem_of_In in Hl, Hin.
    apply list_elem_of_fmap in Hl as (wn & -> & Hl). apply elem_of_app in Hin as [Hin|Hin]; [|by apply elem_of_replicate in Hin as [? _]].
    unfold row_words in Hl. rewrite elem_of_app, !elem_of_cons, elem_of_nil in Hl. destruct Hl as [Hl|[->|[->|[]]]].
    - rewrite Forall_forall in Hb. by destruct (Hb _ Hl) as [[_ ?] _].
    - cbn [fst] in Hin. unfold row_local in Hin. apply elem_of_app in Hin as [Hin|Hin]; [by destruct Ha|].
      apply elem_of_cons in Hin as [?|Hin]; [done|]. by apply (Itoa_free_of x22) in Hin; [|lia|unfold is_digit; vm_compute; intuition congruence].
    - by destruct Hpe. }
  assert (Index (front ++ users_mark ++ row_process r ++ x22 :: row_tail r) users_mark = Some (length front)) as ->.
  { unfold users_mark. rewrite <- app_assoc. change ([x22] ++ row_process r ++ x22 :: row_tail r) with (x22 :: row_process r ++ x22 :: row_tail r).
    apply Index_mark; [|done]. apply (bool_decide_unpack _). by vm_compute. }
  cbn [mbind option_bind]. rewrite app_assoc, drop_app_length' by (by rewrite length_app). destruct Hpr as [[Hn _] Hq'].
  rewrite IndexByte_app by done. cbn [mbind option_bind]. rewrite (proj2 (Nat.ltb_lt _ _)) by (destruct (row_process r); [done|cbn; lia]).
  apply take_app_length.
Qed.

Lemma LastIndexByte_app s c r : c ∉ r -> LastIndexByte (s ++ c :: r) c = Some (length s).
Proof.
  intros Hr. assert (forall l, c ∉ l -> LastIndexByte l c = None) as Hn.
  { induction l as [|d l IH]; [done|]. intros [Hd Hl]%not_elem_of_cons. cbn. rewrite IH by done. by rewrite decide_False. }
  induction s as [|d s IH]; cbn [app LastIndexByte]; [by rewrite Hn, decide_True|by rewrite IH].
Qed.

Lemma port_of_local addr port : 1 <= port <= 65535 -> port_of (addr ++ x3a :: Itoa port) = Some port.
Proof.
  intros H. unfold port_of. rewrite LastIndexByte_app by (apply Itoa_free_of; [lia|unfold is_digit; vm_compute; intuition congruence]).
  cbn [mbind option_bind]. rewrite cons_middle, app_assoc, drop_app_length' by (rewrite length_app; cbn; lia).
  rewrite Atoi_Itoa by (unfold in_i64, min_i64, max_i64; lia). cbn [mbind option_bind].
  by rewrite (proj2 (Z.ltb_ge _ _)), (proj2 (Z.ltb_ge _ _)) by lia.
Qed.

Lemma port_of_none w : x3a ∉ w -> port_of w = None.
Proof.
  intros H. unfold port_of. assert (LastIndexByte w x3a = None) as ->; [|done].
  induction w as [|d w IH]; [done|]. apply not_elem_of_cons in H as [Hd Hw]. cbn. by rewrite IH, decide_False.
Qed.

Lemma row_fields r : row_ok r -> Fields (row_text r) = (row_before r).*1 ++ [row_local r; (row_peer r).1; row_users r].
Proof.
  intros [Hb [Ha _] Hp [Hpe _] [[_ Hpr] _] Ht _]. unfold row_text. rewrite Fields_spaced.
  - unfold row_words. rewrite fmap_app. cbn [fmap list_fmap fst]. by rewrite <- app_assoc.
  - unfold row_words. apply Forall_app. split; [eapply Forall_impl; [exact Hb|]; by intros ? [[? _] _]|].
    constructor; [|by constructor]. cbn [fst]. unfold row_local. split; [by destruct (row_addr r)|].
    apply Forall_app. split; [done|]. constructor; [apply (bool_decide_unpack _); by vm_compute|].
    unfold Itoa. rewrite (proj2 (Z.ltb_ge _ _)) by lia. eapply Forall_impl; [apply utoa_digits|].
    intros b Hd. unfold no_space. assert (forallb (fun b => negb ((48 <=? b2z b) && (b2z b <=? 57)) || bool_decide (no_space b))
      (z2b <$> seqZ 0 256) = true) as Hall by by vm_compute.
    rewrite forallb_forall in Hall. specialize (Hall b). rewrite orb_true_iff, negb_true_iff, andb_false_iff, !Z.leb_gt in Hall.
    destruct Hall as [H|H]; [|unfold is_digit in Hd; lia|by apply bool_decide_eq_true in H].
    apply list_elem_of_In, list_elem_of_fmap. exists (b2z b). rewrite z2b_b2z, elem_of_seqZ. pose proof (b2z_range b). split; [done|lia].
  - unfold row_users. split; [done|]. apply Forall_app. split; [apply (bool_decide_unpack _); by vm_compute|].
    apply Forall_app. split; [done|]. constructor; [apply (bool_decide_unpack _); by vm_compute|done].
Qed.

Lemma add_line_row ports r : row_ok r -> add_line ports (row_text r) = <[row_port r := row_process r]> ports.
Proof.
  intros H. unfold add_line. rewrite row_fields, processName_row by done. destruct H as [Hb _ Hp _ _ _ Hl].
  rewrite length_app, length_fmap. cbn [length]. rewrite (proj2 (Nat.ltb_ge _ _)) by lia.
  assert (first_port ((row_before r).*1 ++ [row_local r; (row_peer r).1; row_users r]) = Some (row_port r)) as ->; [|done].
  clear Hl. induction Hb as [|[w n] l [_ Hc] _ IH]; cbn [fmap list_fmap app first_port fst].
  - unfold row_local. by rewrite port_of_local.
  - by rewrite port_of_none.
Qed.

Lemma no_newline l : Forall no_space l -> x0a ∉ l.
Proof.
  intros H Hin. rewrite Forall_forall in H. specialize (H _ Hin). unfold no_space in H. rewrite Forall_forall in H.
  apply (H [x0a]); [|set_solver]. apply (bool_decide_unpack _). by vm_compute.
Qed.

Lemma row_no_newline r : row_ok r -> x0a ∉ row_text r.
Proof.
  intros H Hin. pose proof (row_fields r H) as Hf. destruct H as [Hb [Ha _] Hp [[_ Hpe] _] [[_ Hpr] _] Ht _].
  unfold row_text, spaced in Hin. apply elem_of_app in Hin as [Hin|Hin].
  - apply list_elem_of_In, in_concat in Hin as (l & Hl & Hin). apply list_elem_of_In in Hl, Hin.
    apply list_elem_of_fmap in Hl as (wn & -> & Hl). apply elem_of_app in Hin as [Hin|Hin]; [|by apply elem_of_replicate in Hin as [? _]].
    unfold row_words in Hl. rewrite elem_of_app, !elem_of_cons, elem_of_nil in Hl. destruct Hl as [Hl|[->|[->|[]]]].
    + rewrite Forall_forall in Hb. destruct (Hb _ Hl) as [[[_ Hw] _] _]. by apply no_newline in Hw.
    + cbn [fst] in Hin. unfold row_local in Hin. apply elem_of_app in Hin as [Hin|Hin]; [by apply no_newline in Ha|].
      apply elem_of_cons in Hin as [?|Hin]; [done|]. by apply (Itoa_free_of x0a) in Hin; [|lia|unfold is_digit; vm_compute; intuition congruence].
    + by apply no_newline in Hpe.
  - assert (x0a ∉ users_mark) as Hmark by (apply (bool_decide_unpack _); by vm_compute).
    unfold row_users in Hin. apply elem_of_app in Hin as [Hin|Hin]; [done|].
    apply elem_of_app in Hin as [Hin|Hin]; [by apply no_newline in Hpr|].
    apply elem_of_cons in Hin as [?|Hin]; [done|]. by apply no_newline in Ht.
Qed.

(** The ports read from a listing are those of its rows, each with the process
    of its last row. *)
Lemma ports_of_listing header rows :
  x0a ∉ header -> first_port (Fields header) = None -> Forall row_ok rows ->
  ports_of (Join (header :: (row_text <$> rows)) [x0a]) = foldl (fun ports r => <[row_port r := row_process r]> ports) ∅ rows.
Proof.
  intros Hh Hp Hr. unfold ports_of. rewrite Split_Join; [|done|].
  - cbn [foldl]. assert (add_line ∅ header = ∅) as ->.
    { unfold add_line. rewrite Hp. by destruct (length _ <? 4)%nat. }
    generalize (∅ : gmap Z bytes). induction Hr as [|r rows Hr _ IH]; intros m; [done|]. cbn [fmap list_fmap foldl]. by rewrite add_line_row, IH.
  - constructor; [done|]. apply Forall_fmap. eapply Forall_impl; [exact Hr|]. exact row_no_newline.
Qed.

(** An idle [ufw] says [Status: inactive], and is taken for an active one. *)
Lemma inactive_ufw_active prints :
  TrimSpace (prints (has_command (go "firewall-cmd"))) <> go "yes" -> TrimSpace (prints (has_command (go "ufw"))) = go "yes" ->
  prints cmd_ufw = go "Status: inactive" -> firewall (M := printed) prints = (FirewallUFW, true).
Proof.
  intros H1 H2 H3. unfold firewall, mbind, reader_bind. cbn [r_HasCommand printed_runner].
  rewrite bool_decide_eq_false_2 by done. rewrite bool_decide_eq_true_2 by done. unfold r_Output, printed_runner, mret, reader_ret.
  rewrite H3. by vm_compute.
Qed.
