(* ===== verification/Deploy.v ===== *)
(** Deploying the server over SSH: [internal/deploy] (deployer.go, existing.go,
    install.go, service.go, firewall.go, binary.go, progress.go and the
    templates).

    The text of a [%v] that ends a message is the error in [e_Cause]; texts that
    [%q] puts in errors are left out. *)
From S2P Require Import Pattern CertStore Server Update Config Prelude GoStrings Url Stream Messages Protocol Client Ssh Detect.

(** ** Reports (progress.go) *)

Definition LevelInfo : bytes := go "info".
Definition LevelWarn : bytes := go "warn".
Definition LevelError : bytes := go "error".
Definition LevelSuccess : bytes := go "success".

Section reports.
Context {S : Type}.

(** [stepReporter.Emit]: an event of a step. *)
Definition emit_step (step : bytes) (e : Event) : ses S unit :=
  emit (MkEvent (if bool_decide (e_Step e = []) then step else e_Step e) (e_Level e) (e_Message e) (e_Cause e) (e_Detail e)).

Definition message (level : bytes) (step text : bytes) : ses S unit := emit_step step (MkEvent [] level text None ∅).
Definition Infof : bytes -> bytes -> ses S unit := message LevelInfo.
Definition Warnf : bytes -> bytes -> ses S unit := message LevelWarn.
Definition Successf : bytes -> bytes -> ses S unit := message LevelSuccess.
Definition Errorf : bytes -> bytes -> ses S unit := message LevelError.
Definition Warnv (step text : bytes) (e : derr) : ses S unit := emit_step step (MkEvent [] LevelWarn text (Some e) ∅).
Definition Errorv (step text : bytes) (e : option derr) : ses S unit := emit_step step (MkEvent [] LevelError text e ∅).
Definition Detail (step text : bytes) (detail : gmap bytes bytes) : ses S unit := emit_step step (MkEvent [] LevelInfo text None detail).
End reports.

(** [TextReporter.Emit]; [text] is the message with the text of its cause, and
    [order] the order the map of details is walked in. *)
Definition markers : gmap bytes bytes :=
  {[ LevelInfo := go "  "; LevelWarn := go " !"; LevelError := go " " ++ [xe2; x9c; x97]; LevelSuccess := go " " ++ [xe2; x9c; x93] ]}.
Definition TextReporter_Emit (text : Event -> bytes) (order : gmap bytes bytes -> list (bytes * bytes)) (e : Event) : list bytes :=
  (default [] (markers !! e_Level e) ++ go " [" ++ e_Step e ++ go "] " ++ text e ++ [x0a])
  :: ((fun kv => go "        " ++ kv.1 ++ go ": " ++ kv.2 ++ [x0a]) <$> order (e_Detail e)).

(** ** Options *)

Record Options := MkOptions {
  o_Credentials : Credentials;
  o_Token : bytes;
  o_BindPort : Z;
  o_VhostHTTPPort : Z;
  o_VhostHTTPSPort : Z;
  BinaryPath : bytes;
  ConfigPath : bytes;
  StateDir : bytes;
  ServiceUser : bytes;
  LocalBinary : bytes;
  ReleaseURL : bytes;
  SHA256 : bytes;
  EnableBBR : bool;
  DryRun : bool
}.

Definition Options_ApplyDefaults (o : Options) : Options :=
  MkOptions (o_Credentials o) (o_Token o) (default_Z (o_BindPort o) 7000) (o_VhostHTTPPort o) (o_VhostHTTPSPort o)
    (default_bytes (BinaryPath o) (go "/usr/local/bin/openfrps")) (default_bytes (ConfigPath o) (go "/etc/openfrp/openfrps.json"))
    (default_bytes (StateDir o) (go "/var/lib/openfrp")) (default_bytes (ServiceUser o) (go "openfrp"))
    (LocalBinary o) (ReleaseURL o) (SHA256 o) (EnableBBR o) (DryRun o).

Definition set_token (t : bytes) (o : Options) : Options :=
  MkOptions (o_Credentials o) t (o_BindPort o) (o_VhostHTTPPort o) (o_VhostHTTPSPort o) (BinaryPath o) (ConfigPath o)
    (StateDir o) (ServiceUser o) (LocalBinary o) (ReleaseURL o) (SHA256 o) (EnableBBR o) (DryRun o).

Record Outcome := MkOutcome {
  Replaced : bool;
  Fingerprint : bytes;
  o_token : bytes;
  o_bind_port : Z;
  Detected : gmap bytes bytes;
  Verified : bool
}.

(** This machine: the files of [LocalBinary], what [debug/elf] says of the
    machine a file is for, the JSON of a configuration and a fresh token;
    [done] says whether the context is done at the wait before an attempt. *)
Inductive local_file : Type := NotThere | StatFails (e : bytes) | There (content : res bytes bytes).

Class Here := {
  local_stat : bytes -> local_file;
  elf_machine : bytes -> option Z;
  marshal_config : Config.Server -> option bytes;
  NewRunID : option bytes;
  done_before : nat -> option bytes
}.

(** ** binary.go *)

Definition elfMachines : gmap bytes Z :=
  {[ go "amd64" := 62; go "386" := 3; go "arm64" := 183; go "arm" := 40; go "riscv64" := 243; go "mips" := 8;
     go "mips64" := 8; go "ppc64le" := 21; go "s390x" := 22; go "loong64" := 258 ]}.

(** Whether the file may go there, and the mismatch. *)
Definition binaryMatchesArch `{Here} (path arch : bytes) : bool * option derr :=
  match elfMachines !! arch with
  | None => (true, None)
  | Some want =>
      match elf_machine path with
      | None => (true, None)
      | Some m => if m =? want then (true, None) else (false, Some (ErrWrongMachine m arch))
      end
  end.

(** ** existing.go *)

Record Existing := MkExisting {
  Found : bool;
  ex_BinaryPath : bytes;
  ex_Version : bytes;
  ServiceName : bytes;
  Running : bool;
  ex_ConfigPath : bytes;
  ex_Init : bytes
}.

Definition Describe (e : Existing) : bytes :=
  if negb (Found e) then go "nothing installed"
  else
    let parts :=
      (if bool_decide (ex_Version e = []) then [] else [go "version " ++ ex_Version e])
      ++ (if bool_decide (ServiceName e = []) then []
          else [ex_Init e ++ go " service " ++ (if Running e then go "running" else go "stopped")]) in
    Join (if bool_decide (length parts = 0%nat) then [go "files but no service"] else parts) (go ", ").

Definition cmd_binary (o : Options) : bytes :=
  go "command -v openfrps 2>/dev/null || ls " ++ ShellQuote (BinaryPath o) ++ go " 2>/dev/null".
Definition cmd_version (binary : bytes) : bytes :=
  go "timeout 5 " ++ ShellQuote binary ++ go " -version </dev/null 2>/dev/null | head -1".
Definition cmd_config (o : Options) : bytes := go "ls " ++ ShellQuote (ConfigPath o) ++ go " 2>/dev/null".
Definition cmd_unit : bytes := go "systemctl cat openfrps >/dev/null 2>&1 && echo yes".
Definition cmd_active : bytes := go "systemctl is-active openfrps 2>/dev/null".
Definition cmd_init_d : bytes := go "ls /etc/init.d/openfrps 2>/dev/null".
Definition cmd_rc_service : bytes := go "command -v rc-service 2>/dev/null".
Definition cmd_rc_status : bytes := go "rc-service openfrps status 2>/dev/null".
Definition cmd_init_status : bytes := go "/etc/init.d/openfrps status 2>/dev/null".

Section deployer.
Context {S : Type} `{Remote S}.

Definition find_service : ses S (option (bytes * bool)) :=
  unit ← Output cmd_unit;
  if bool_decide (unit = go "yes") then
    active ← Output cmd_active; mret (Some (go "systemd", bool_decide (active = go "active")))
  else
    init ← Output cmd_init_d;
    if negb (bool_decide (init = [])) then
      rc ← Output cmd_rc_service;
      if negb (bool_decide (rc = [])) then
        st ← Output cmd_rc_status; mret (Some (go "openrc", Contains st (go "started")))
      else
        st ← Output cmd_init_status; mret (Some (go "sysvinit", Contains st (go "running")))
    else mret None.

Definition findExisting (o : Options) : ses S Existing :=
  out ← Output (cmd_binary o);
  '(binary, version) ←
    (if bool_decide (out = []) then mret (BinaryPath o, [])
     else
       let path := TrimSpace (default [] (head (Split out x0a))) in
       version ← Output (cmd_version path);
       mret (path, TrimSpace version));
  config ← Output (cmd_config o);
  service ← find_service;
  let found := negb (bool_decide (out = [])) || negb (bool_decide (config = [])) || bool_decide (is_Some service) in
  mret (match service with
        | Some (init, running) => MkExisting found binary version (go "openfrps") running (ConfigPath o) init
        | None => MkExisting found binary version [] false (ConfigPath o) []
        end).

Fixpoint run_all (commands : list bytes) : ses S unit :=
  match commands with [] => mret tt | c :: cs => Run_ c ;; run_all cs end.

Definition removal (init : bytes) : list bytes :=
  if bool_decide (init = go "systemd") then
    [go "systemctl stop openfrps 2>/dev/null || true"; go "systemctl disable openfrps 2>/dev/null || true";
     go "rm -f /etc/systemd/system/openfrps.service /lib/systemd/system/openfrps.service";
     go "systemctl daemon-reload 2>/dev/null || true"]
  else if bool_decide (init = go "openrc") then
    [go "rc-service openfrps stop 2>/dev/null || true"; go "rc-update del openfrps default 2>/dev/null || true";
     go "rm -f /etc/init.d/openfrps"]
  else [go "/etc/init.d/openfrps stop 2>/dev/null || true"; go "rm -f /etc/init.d/openfrps"].

Definition drop_config (path : bytes) : bytes := go "rm -f " ++ ShellQuote path.

Definition removeExisting (step : bytes) (found : Existing) : ses S unit :=
  if negb (Found found) then mret tt
  else
    Infof step (go "found an existing installation: " ++ Describe found) ;;
    (if bool_decide (ServiceName found = []) then mret tt
     else run_all (removal (ex_Init found)) ;; Infof step (go "removed the " ++ ex_Init found ++ go " service")) ;;
    Run_ (go "pkill -x openfrps 2>/dev/null || true") ;;
    (if bool_decide (ex_ConfigPath found = []) then mret tt else Run_ (drop_config (ex_ConfigPath found))) ;;
    Successf step (go "cleared the previous installation").

(** ** The service user (service.go) *)

Definition cmd_user (user : bytes) : bytes := go "id " ++ ShellQuote user ++ go " >/dev/null 2>&1 && echo yes || echo no".
Definition add_user (user : bytes) : bytes :=
  go "useradd --system --no-create-home --shell /usr/sbin/nologin " ++ ShellQuote user ++ go " 2>/dev/null || adduser -S -D -H -s /sbin/nologin "
  ++ ShellQuote user ++ go " 2>/dev/null || true".

Definition ensureServiceUser (o : Options) (step : bytes) : ses S unit :=
  let user := ServiceUser o in
  if bool_decide (user = go "root") then Warnf step (go "running the server as root; set a service user instead")
  else
    out ← Output (cmd_user user);
    if bool_decide (out = go "yes") then mret tt
    else if DryRun o then Infof step (go "would create system user " ++ user)
    else
      on_error ErrServiceUser (Run (add_user user)) ;;
      Infof step (go "created system user " ++ user).

(** ** The binary (install.go) *)

Definition cmd_sum (path : bytes) : bytes := go "sha256sum " ++ ShellQuote path ++ go " 2>/dev/null | cut -d' ' -f1".
Definition cmd_sum_tmp (path : bytes) : bytes := go "sha256sum " ++ ShellQuote (path ++ go ".tmp") ++ go " | cut -d' ' -f1".
Definition cmd_stop : bytes :=
  go "systemctl stop openfrps 2>/dev/null || rc-service openfrps stop 2>/dev/null || /etc/init.d/openfrps stop 2>/dev/null || true".
Definition fetch (path url : bytes) : bytes :=
  go "curl -fsSL -o " ++ ShellQuote path ++ go ".tmp " ++ ShellQuote url ++ go " || wget -qO " ++ ShellQuote path ++ go ".tmp " ++ ShellQuote url.
Definition move (path : bytes) : bytes :=
  go "chmod 0755 " ++ ShellQuote path ++ go ".tmp && mv " ++ ShellQuote path ++ go ".tmp " ++ ShellQuote path.
Definition drop_tmp (path : bytes) : bytes := go "rm -f " ++ ShellQuote (path ++ go ".tmp").

(** [strings.NewReplacer(a, x, b, y).Replace]: from the left, the first pair
    that matches. *)
Fixpoint replace_pairs (skip : nat) (s : bytes) (pairs : list (bytes * bytes)) : bytes :=
  match s with
  | [] => []
  | c :: r =>
      match skip with
      | Datatypes.S k => replace_pairs k r pairs
      | O => match find (fun p => HasPrefix s p.1) pairs with
             | Some (a, x) => x ++ replace_pairs (length a - 1) r pairs
             | None => c :: replace_pairs 0 r pairs
             end
      end
  end.

Definition release_url (template arch : bytes) : bytes := replace_pairs 0 template [(go "{arch}", arch); (go "{os}", go "linux")].

Context `{Hr : Here} `{Sha256}.

Definition uploadBinary (o : Options) (step : bytes) (read : res bytes bytes) : ses S unit :=
  match read with
  | Err e => fails (ErrLocalBinary (LocalBinary o) e)
  | Ok content =>
      let want := sha256_hex content in
      existing ← Output (cmd_sum (BinaryPath o));
      if bool_decide (existing = want) then
        Infof step (go "server binary is already current (" ++ take 12 want ++ [xe2; x80; xa6] ++ go ")")
      else
        Infof step (go "uploading " ++ Itoa (Z.of_nat (length content) / 1024) ++ go " KiB to " ++ BinaryPath o) ;;
        Run_ cmd_stop ;;
        WriteFile (BinaryPath o) content 493 ;;
        got ← Output (cmd_sum (BinaryPath o));
        if negb (bool_decide (got = [])) && negb (bool_decide (got = want)) then fails (ErrUploadMismatch got want)
        else Successf step (go "uploaded and verified (sha256 " ++ take 12 want ++ [xe2; x80; xa6] ++ go ")")
  end.

Definition downloadBinary (o : Options) (step arch : bytes) : ses S unit :=
  if bool_decide (ReleaseURL o = []) then fails (ErrNoRelease arch)
  else
    let url := release_url (ReleaseURL o) arch in
    Infof step (go "downloading " ++ url) ;;
    on_error ErrDownload (Run (fetch (BinaryPath o) url)) ;;
    (if negb (bool_decide (SHA256 o = [])) then
       got ← Output (cmd_sum_tmp (BinaryPath o));
       if negb (bool_decide (got = SHA256 o)) then Run_ (drop_tmp (BinaryPath o)) ;; fails (ErrDownloadMismatch got (SHA256 o))
       else Infof step (go "checksum verified")
     else Warnf step (go "no checksum configured; the download was not verified")) ;;
    Run (move (BinaryPath o)) ;;
    Successf step (go "installed " ++ BinaryPath o).

Definition installBinary (o : Options) (step arch : bytes) : ses S unit :=
  if DryRun o then Infof step (go "would install the " ++ arch ++ go " server binary at " ++ BinaryPath o)
  else if bool_decide (LocalBinary o = []) then downloadBinary o step arch
  else
    match local_stat (LocalBinary o) with
    | There read =>
        match binaryMatchesArch (LocalBinary o) arch with
        | (true, _) => uploadBinary o step read
        | (false, mismatch) =>
            emit_step step (MkEvent [] LevelWarn (go "bundled binary does not fit this server: ") mismatch ∅) ;;
            downloadBinary o step arch
        end
    | StatFails e => fails (ErrLocalBinary (LocalBinary o) e)
    | NotThere => Infof step (go "no local binary at " ++ LocalBinary o) ;; downloadBinary o step arch
    end.

(** ** The configuration (install.go) *)

Definition server_config (o : Options) : Config.Server :=
  Server_ApplyDefaults (MkServer (go "0.0.0.0") (o_BindPort o) (o_Token o) (o_VhostHTTPPort o) (o_VhostHTTPSPort o) 0 0).

Definition own_config (o : Options) : bytes :=
  go "chown " ++ ShellQuote (ServiceUser o) ++ go ": " ++ ShellQuote (ConfigPath o) ++ go " 2>/dev/null || true".
Definition make_state (o : Options) : bytes :=
  go "mkdir -p " ++ ShellQuote (StateDir o) ++ go " && chown " ++ ShellQuote (ServiceUser o) ++ go ": " ++ ShellQuote (StateDir o)
  ++ go " && chmod 0750 " ++ ShellQuote (StateDir o).

Definition installConfig (o : Options) (step : bytes) : ses S unit :=
  match Server_Validate (server_config o) with
  | Err _ => fails ErrServerConfig
  | Ok _ =>
      match marshal_config (server_config o) with
      | None => fails ErrEncodeConfig
      | Some content =>
          if DryRun o then Infof step (go "would write " ++ ConfigPath o)
          else
            WriteFile (ConfigPath o) (content ++ [x0a]) 416 ;;
            Run_ (own_config o) ;;
            on_error ErrStateDir (Run (make_state o)) ;;
            Successf step (go "wrote " ++ ConfigPath o)
      end
  end.
End deployer.

(** ** The service (service.go and templates)

    The templates, with a backquote for each double quote. *)

Definition quotes (s : string) : bytes := ReplaceByte (go s) x60 x22.

Definition template_systemd : bytes := quotes "[Unit]
Description=OpenFrp server
Documentation=https://github.com/zoefix/openfrp
After=network-online.target
Wants=network-online.target

[Service]
Type=simple
User={{.User}}
Group={{.User}}
ExecStart={{.BinaryPath}} -c {{.ConfigPath}}
Restart=on-failure
RestartSec=5s

# Binding 80 and 443 needs privilege the service otherwise does not have.
# Granting just this capability is what lets it run as a non-root user.
AmbientCapabilities=CAP_NET_BIND_SERVICE
CapabilityBoundingSet=CAP_NET_BIND_SERVICE

# The server moves bytes and reads one config file. Everything below is
# unnecessary for that and is therefore denied.
NoNewPrivileges=true
PrivateTmp=true
ProtectSystem=strict
ProtectHome=true
ProtectKernelTunables=true
ProtectKernelModules=true
ProtectControlGroups=true
RestrictSUIDSGID=true
RestrictRealtime=true
ReadWritePaths={{.StateDir}}

# A tunnel server is a file-descriptor-bound workload: one or two per proxied
# connection, plus the warm pool of every client.
LimitNOFILE=1048576

[Install]
WantedBy=multi-user.target
".

Definition template_openrc : bytes := quotes "#!/sbin/openrc-run
# OpenFrp server.

name=`openfrps`
description=`OpenFrp server`

command=`{{.BinaryPath}}`
command_args=`-c {{.ConfigPath}}`
command_user=`{{.User}}:{{.User}}`
command_background=true
pidfile=`/run/openfrps.pid`

output_log=`/var/log/openfrps.log`
error_log=`/var/log/openfrps.log`

depend() {
	need net
	after firewall
}

start_pre() {
	checkpath --directory --owner `{{.User}}:{{.User}}` --mode 0750 `{{.StateDir}}`
	checkpath --file --owner `{{.User}}:{{.User}}` --mode 0640 `$output_log`

	# OpenRC has no equivalent of AmbientCapabilities, so grant the binary
	# itself the right to bind privileged ports. Without this the service
	# cannot listen on 80 or 443 as a non-root user.
	if command -v setcap >/dev/null 2>&1; then
		setcap 'cap_net_bind_service=+ep' `{{.BinaryPath}}` 2>/dev/null || true
	fi
}
".

Definition template_sysvinit : bytes := quotes "#!/bin/sh
### BEGIN INIT INFO
# Provides:          openfrps
# Required-Start:    $network $remote_fs
# Required-Stop:     $network $remote_fs
# Default-Start:     2 3 4 5
# Default-Stop:      0 1 6
# Short-Description: OpenFrp server
### END INIT INFO

NAME=openfrps
DAEMON={{.BinaryPath}}
CONFIG={{.ConfigPath}}
RUNAS={{.User}}
PIDFILE=/run/$NAME.pid
LOGFILE=/var/log/$NAME.log

start() {
	if [ -f `$PIDFILE` ] && kill -0 `$(cat `$PIDFILE`)` 2>/dev/null; then
		echo `$NAME is already running`
		return 0
	fi

	# No capability mechanism here either; setcap is the portable way to let a
	# non-root process bind 80 and 443.
	if command -v setcap >/dev/null 2>&1; then
		setcap 'cap_net_bind_service=+ep' `$DAEMON` 2>/dev/null || true
	fi

	echo `Starting $NAME`
	su -s /bin/sh -c `$DAEMON -c $CONFIG >> $LOGFILE 2>&1 & echo \$!` `$RUNAS` > `$PIDFILE`
}

stop() {
	[ -f `$PIDFILE` ] || { echo `$NAME is not running`; return 0; }
	echo `Stopping $NAME`
	kill `$(cat `$PIDFILE`)` 2>/dev/null
	rm -f `$PIDFILE`
}

status() {
	if [ -f `$PIDFILE` ] && kill -0 `$(cat `$PIDFILE`)` 2>/dev/null; then
		echo `$NAME is running`
		return 0
	fi
	echo `$NAME is not running`
	return 3
}

case `$1` in
	start)   start ;;
	stop)    stop ;;
	restart) stop; sleep 1; start ;;
	status)  status ;;
	*)       echo `usage: $0 {start|stop|restart|status}`; exit 2 ;;
esac
".


Record serviceParams := MkParams { sp_BinaryPath : bytes; sp_ConfigPath : bytes; sp_StateDir : bytes; sp_User : bytes }.

Definition param (name : bytes) (p : serviceParams) : option bytes :=
  if bool_decide (name = go "BinaryPath") then Some (sp_BinaryPath p)
  else if bool_decide (name = go "ConfigPath") then Some (sp_ConfigPath p)
  else if bool_decide (name = go "StateDir") then Some (sp_StateDir p)
  else if bool_decide (name = go "User") then Some (sp_User p)
  else None.

(** [text/template] on texts whose only actions are fields, [{{.Name}}]. *)
Fixpoint render (fuel : nat) (s : bytes) (p : serviceParams) : option bytes :=
  match fuel with
  | O => None
  | Datatypes.S fuel =>
      let '(before, after, found) := Cut s (go "{{.") in
      if negb found then Some s
      else
        let '(name, r, closed) := Cut after (go "}}") in
        if negb closed then None
        else value ← param name p; t ← render fuel r p; Some (before ++ value ++ t)
  end.

Record serviceUnit := MkUnit { su_template : bytes; su_path : bytes; su_mode : Z; su_enable : list bytes; su_restart : list bytes }.

Definition unitFor (init : bytes) : res derr serviceUnit :=
  if bool_decide (init = InitSystemd) then
    Ok (MkUnit template_systemd (go "/etc/systemd/system/openfrps.service") 420
          [go "systemctl daemon-reload"; go "systemctl enable openfrps"] [go "systemctl restart openfrps"])
  else if bool_decide (init = InitOpenRC) then
    Ok (MkUnit template_openrc (go "/etc/init.d/openfrps") 493
          [go "rc-update add openfrps default"] [go "rc-service openfrps restart"])
  else if bool_decide (init = InitSysVInit) then
    Ok (MkUnit template_sysvinit (go "/etc/init.d/openfrps") 493
          [go "update-rc.d openfrps defaults 2>/dev/null || chkconfig --add openfrps 2>/dev/null || true"] [go "/etc/init.d/openfrps restart"])
  else Err (ErrInit init).

Definition renderUnit (init : bytes) (p : serviceParams) : res derr (bytes * serviceUnit) :=
  unit ← unitFor init;
  match render (length (su_template unit)) (su_template unit) p with
  | Some content => Ok (content, unit)
  | None => Err (ErrTemplate (su_path unit))
  end.

Definition service_params (o : Options) : serviceParams := MkParams (BinaryPath o) (ConfigPath o) (StateDir o) (ServiceUser o).

Definition chmod_unit (unit : serviceUnit) : bytes := go "chmod 755 " ++ ShellQuote (su_path unit).

Section service.
Context {S : Type} `{Remote S}.

Fixpoint run_each (f : derr -> derr) (commands : list bytes) : ses S unit :=
  match commands with [] => mret tt | c :: cs => on_error f (Run c) ;; run_each f cs end.

Definition installService (o : Options) (step init : bytes) : ses S unit :=
  match renderUnit init (service_params o) with
  | Err e => fails e
  | Ok (content, unit) =>
      if DryRun o then Infof step (go "would install " ++ su_path unit ++ go " (" ++ init ++ go ") and enable it")
      else
        WriteFile (su_path unit) content 420 ;;
        (if negb (su_mode unit =? 420) then (_ ← Run (chmod_unit unit); mret tt) else mret tt) ;;
        Infof step (go "installed " ++ su_path unit) ;;
        run_each ErrEnable (su_enable unit) ;;
        run_each ErrStart (su_restart unit) ;;
        Successf step (go "service enabled and started under " ++ init)
  end.

(** ** The firewall and BBR (firewall.go) *)

Definition firewallCommands (fw : bytes) (port : Z) : list bytes :=
  let p := Itoa port in
  if bool_decide (fw = FirewallFirewalld) then [go "firewall-cmd --permanent --add-port=" ++ p ++ go "/tcp"; go "firewall-cmd --reload"]
  else if bool_decide (fw = FirewallUFW) then [go "ufw allow " ++ p ++ go "/tcp"]
  else if bool_decide (fw = FirewallNftables) then [go "nft add rule inet filter input tcp dport " ++ p ++ go " accept"]
  else if bool_decide (fw = FirewallIptables) then
    [go "iptables -C INPUT -p tcp --dport " ++ p ++ go " -j ACCEPT 2>/dev/null || iptables -I INPUT -p tcp --dport " ++ p ++ go " -j ACCEPT"]
  else [].

(** The commands up to one that fails. *)
Fixpoint open_with (step : bytes) (port : Z) (commands : list bytes) : ses S unit :=
  match commands with
  | [] => mret tt
  | c :: cs =>
      r ← attempt (Run c);
      match r with
      | Err e => Warnv step (go "could not open port " ++ Itoa port ++ go ": ") e
      | Ok _ => open_with step port cs
      end
  end.

Fixpoint open_each (o : Options) (step fw : bytes) (ports : list Z) : ses S unit :=
  match ports with
  | [] => mret tt
  | port :: ports =>
      (match firewallCommands fw port with
       | [] => Warnf step (go "cannot open port " ++ Itoa port ++ go " automatically under " ++ fw ++ go "; open it by hand")
       | commands =>
           if DryRun o then Infof step (go "would open port " ++ Itoa port ++ go " via " ++ fw)
           else open_with step port commands ;; Infof step (go "opened port " ++ Itoa port)
       end) ;;
      open_each o step fw ports
  end.

Definition openPorts (o : Options) (step : bytes) (info : Result) (ports : list Z) : ses S unit :=
  if bool_decide (length ports = 0%nat) then mret tt
  else if bool_decide (Firewall info = FirewallNone) then Infof step (go "no firewall found; nothing to open")
  else if negb (FirewallActive info) then Infof step (Firewall info ++ go " is installed but has no rules; leaving it alone")
  else open_each o step (Firewall info) ports.

Definition cmd_congestion : bytes := go "sysctl -n net.ipv4.tcp_congestion_control".
Definition bbr_commands : list bytes :=
  [go "echo tcp_bbr > /etc/modules-load.d/openfrp-bbr.conf 2>/dev/null || echo tcp_bbr >> /etc/modules 2>/dev/null || true";
   go "printf 'net.core.default_qdisc=fq\nnet.ipv4.tcp_congestion_control=bbr\n' > /etc/sysctl.d/99-openfrp-bbr.conf";
   go "sysctl -w net.core.default_qdisc=fq"; go "sysctl -w net.ipv4.tcp_congestion_control=bbr"].

Fixpoint tune (step : bytes) (commands : list bytes) : ses S bool :=
  match commands with
  | [] => mret true
  | c :: cs =>
      r ← attempt (Run c);
      match r with
      | Err e => Warnv step (go "BBR tuning step failed: ") e ;; mret false
      | Ok _ => tune step cs
      end
  end.

Definition switch_bbr (step : bytes) (info : Result) : ses S unit :=
  loaded ← (if BBRLoaded info then mret true
            else r ← attempt (Run (go "modprobe tcp_bbr"));
                 match r with
                 | Err e => Warnv step (go "could not load tcp_bbr: ") e ;; mret false
                 | Ok _ => mret true
                 end);
  if negb loaded then mret tt
  else
    tuned ← tune step bbr_commands;
    if negb tuned then mret tt
    else
      active ← Output cmd_congestion;
      if bool_decide (active = go "bbr") then Successf step (go "congestion control switched to BBR with fq")
      else Warnf step (go "BBR did not take effect; congestion control is " ++ active).

Definition enableBBR (o : Options) (step : bytes) (info : Result) : ses S unit :=
  if negb (EnableBBR o) then mret tt
  else
    current ← (if BBRLoaded info then Output cmd_congestion else mret []);
    if BBRLoaded info && bool_decide (current = go "bbr") then Infof step (go "BBR is already in use")
    else if negb (BBRLoaded info) && negb (BBRAvailable info) then
      Warnf step (go "BBR is not available on this kernel; leaving congestion control alone")
    else if DryRun o then Infof step (go "would load tcp_bbr and switch congestion control to BBR")
    else switch_bbr step info.
End service.

(** ** The deployer (deployer.go) *)

Definition wantedPorts (o : Options) : list Z :=
  [o_BindPort o] ++ (if o_VhostHTTPPort o =? 0 then [] else [o_VhostHTTPPort o])
  ++ (if o_VhostHTTPSPort o =? 0 then [] else [o_VhostHTTPSPort o]).

Definition check_port (info : Result) (port : Z) : res derr unit :=
  match PortConflict info port with
  | None => Ok tt
  | Some holder => if bool_decide (holder = go "openfrps") then Ok tt else Err (ErrPortHeld port holder)
  end.
Definition checkPorts (o : Options) (info : Result) : res derr unit := first_err (check_port info) (wantedPorts o).

Section run.
Context {S : Type} `{Remote S} `{Hr : Here} `{Sha256} `{J : JsonCodec} `{Hmac} `{SshClient}.

(** What the login of the check says. *)
Definition verify_login (token : bytes) (timestamp : Z) : Login :=
  MkLogin Version (go "deploy-verify") [] [] [] timestamp (AuthKey token timestamp) 1 [].

(** The exchange over a connection, at a time. *)
Definition handshake_on (c : conn) (token : bytes) (timestamp : Z) : res derr unit :=
  match c_deadline c with
  | Some e => Err (ErrDial [] e)   (* of [SetDeadline] *)
  | None =>
      match WritePreamble (MkPreamble Version ModePlain) (c_writer c) with
      | (Err e, _) => Err (ErrGreeting e)
      | (Ok _, w) =>
          match WriteMessage (MLogin (verify_login token timestamp)) w with
          | (Err e, _) => Err (ErrSendLogin e)
          | (Ok _, w) =>
              match ReadMessage (c_answer c (output w)) with
              | (Err e, _) => Err (ErrReadLogin e)
              | (Ok (MLoginResp resp), _) => if bool_decide (lr_Error resp = []) then Ok tt else Err (ErrRejected (lr_Error resp))
              | (Ok m, _) => Err (ErrUnexpectedReply (Type_ m))
              end
          end
      end
  end.

Definition handshake (addr token : bytes) : ses S unit := fun s =>
  let '(c, x) := dial addr (host s) in
  let r := match c with
           | Err e => Err (ErrDial addr e)
           | Ok c => handshake_on c token (clock (host s))
           end in
  (r, MkSession (MkHost (files (host s)) x) (sftp s)
        (log s ++ [Shook addr token (match r with Ok _ => None | Err e => Some e end)])).

Definition cmd_listening (o : Options) : bytes :=
  go "ss -lnt 2>/dev/null | grep -c ':" ++ Itoa (o_BindPort o) ++ go "' || true".
Definition cmd_logs : bytes := go "journalctl -u openfrps -n 20 --no-pager 2>/dev/null || tail -20 /var/log/openfrps.log 2>/dev/null".

Definition server_addr (o : Options) : bytes := JoinHostPort (cr_Host (o_Credentials o)) (Itoa (o_BindPort o)).

(** The attempts from the [n]th on: [last] is the error of the one before. *)
Fixpoint knock (o : Options) (step : bytes) (tries n : nat) (last : option derr) : ses S (option derr + unit) :=
  match tries with
  | O => mret (inl last)
  | Datatypes.S tries =>
      match (if bool_decide (n = 0%nat) then None else done_before n) with
      | Some e => fails (ErrCancelled e)
      | None =>
          r ← attempt (handshake (server_addr o) (o_Token o));
          match r with
          | Err e => knock o step tries (n + 1) (Some e)
          | Ok _ => Successf step (go "completed a protocol handshake with " ++ server_addr o) ;; mret (inr tt)
          end
      end
  end.

Definition verify (o : Options) (step : bytes) : ses S unit :=
  status ← Output (cmd_listening o);
  if bool_decide (status = go "0") then
    logs ← Output cmd_logs;
    Errorf step (go "the server is not listening") ;;
    (if bool_decide (logs = []) then mret tt else Infof step (go "recent server log:" ++ [x0a] ++ logs)) ;;
    fails ErrNotListening
  else
    Infof step (go "the server is listening on the target port") ;;
    r ← knock o step 10 0 None;
    match r with
    | inr _ => mret tt
    | inl last =>
        Errorv step (go "the server is listening locally but unreachable from here: ") last ;;
        Infof step (go "this is normally a firewall in front of the host " ++ [xe2; x80; x94]
                    ++ go " a cloud provider security group, or a network filter on the path. Allow inbound TCP on the ports above and run this again.") ;;
        fails (ErrUnusable (server_addr o) last)
    end.

(** What is known of the server before anything changes there. *)
Definition inspect (o : Options) (fingerprint : bytes) : ses S (Result * Existing) :=
  (if bool_decide (KnownFingerprint (o_Credentials o) = [])
   then Warnf (go "connect") (go "trusting host key on first use: " ++ fingerprint) else mret tt) ;;
  Successf (go "connect") (go "connected") ;;
  info ← (r ← Detect (M := ses S); lift r);
  existing ← findExisting o;
  (if Found existing then Infof (go "detect") (go "an OpenFrp server is already installed: " ++ Describe existing) else mret tt) ;;
  Detail (go "detect") (go "inspected the server") (Summary info) ;;
  (if negb (Root info) then fails ErrNeedsRoot else mret tt) ;;
  lift (checkPorts o info) ;;
  mret (info, existing).

(** The changes. *)
Definition put_in_place (o : Options) (info : Result) (existing : Existing) : ses S unit :=
  let step := go "install" in
  (if DryRun o then
     (if Found existing then Infof step (go "would remove the existing installation: " ++ Describe existing) else mret tt)
   else removeExisting step existing) ;;
  ensureServiceUser o step ;;
  installBinary o step (Arch info) ;;
  installConfig o step ;;
  installService o (go "service") (Init info) ;;
  openPorts o (go "network") info (wantedPorts o) ;;
  enableBBR o (go "network") info.

Definition outcome (o : Options) (fingerprint : bytes) (info : Result) (existing : Existing) (verified : bool) : Outcome :=
  MkOutcome (Found existing) fingerprint (o_Token o) (o_BindPort o) (Summary info) verified.

(** A connected session: the result, the error, or both when only the check at
    the end failed. *)
Definition run_connected (o : Options) (fingerprint : bytes) (s : Session S) : (option Outcome * option derr) * Session S :=
  match (inspected ← inspect o fingerprint; put_in_place o inspected.1 inspected.2 ;; mret inspected) s with
  | (Err e, s) => ((None, Some e), s)
  | (Ok (info, existing), s) =>
      if DryRun o then
        ((Some (outcome o fingerprint info existing false), None), (Infof (S := S) (go "verify") (go "dry run: nothing was changed") s).2)
      else
        match verify o (go "verify") s with
        | (Err e, s) => ((Some (outcome o fingerprint info existing false), Some e), s)
        | (Ok _, s) =>
            ((Some (outcome o fingerprint info existing true), None),
             (Successf (S := S) (go "done") (go "server is deployed and reachable on port " ++ Itoa (o_BindPort o)) s).2)
        end
  end.

Definition with_token (o : Options) : option Options :=
  if bool_decide (o_Token o = []) then (fun t => set_token t o) <$> NewRunID else Some o.

(** [New] and [Run]: [s] is the session a connection would open. *)
Definition Deploy (opts : Options) (s : Session S) : (option Outcome * option derr) * Session S :=
  match with_token (Options_ApplyDefaults opts) with
  | None => ((None, Some ErrToken), s)
  | Some o =>
      let s := (Infof (S := S) (go "connect") (go "connecting to " ++ cr_Host (o_Credentials o)) s).2 in
      match Connect (o_Credentials o) with
      | Err (ErrHostKeyChanged known presented as e) =>
          ((None, Some (ErrRefuseToContinue e)), (Errorv (S := S) (go "connect") [] (Some e) s).2)
      | Err e => ((None, Some e), s)
      | Ok fingerprint => run_connected o fingerprint s
      end
  end.
End run.

(** ** What a computation does to the server *)

Definition logs {S A : Type} (P : action -> Prop) (m : ses S A) : Prop :=
  forall s r s', m s = (r, s') -> exists t, log s' = log s ++ t /\ Forall P t.

Section logs.
Context {S : Type} `{Remote S} (P : action -> Prop).

Lemma logs_ret {A : Type} (a : A) : logs (S := S) P (mret a).
Proof. intros s r s' [= _ <-]. exists []. by rewrite app_nil_r. Qed.

Lemma logs_fails {A : Type} e : logs (S := S) (A := A) P (fails e).
Proof. intros s r s' [= _ <-]. exists []. by rewrite app_nil_r. Qed.

Lemma logs_lift {A : Type} (x : res derr A) : logs (S := S) P (lift x).
Proof. intros s r s' [= _ <-]. exists []. by rewrite app_nil_r. Qed.

Lemma logs_bind {A B : Type} (m : ses S A) (f : A -> ses S B) : logs P m -> (forall a, logs P (f a)) -> logs P (m ≫= f).
Proof.
  intros Hm Hf s r s' E. unfold mbind, ses_bind in E. destruct (m s) as [[a|e] s1] eqn:E1.
  - apply Hm in E1 as (t1 & H1 & Ht1). apply Hf in E as (t2 & H2 & Ht2). exists (t1 ++ t2).
    rewrite H2, H1, <- app_assoc. split; [done|]. by apply Forall_app.
  - injection E as _ <-. by apply Hm in E1.
Qed.

Lemma logs_emit e : P (Reported e) -> logs (S := S) P (emit e).
Proof. intros He s r s' [= _ <-]. exists [Reported e]. split; [done|by constructor]. Qed.

Lemma logs_run_command c s x s' :
  run_command c s = (x, s') -> exists out e, log s' = log s ++ [Ran c out e].
Proof. unfold run_command. destruct (exec c (host s)) as [[out e] h]. intros [= _ <-]. by exists out, e. Qed.

Lemma logs_Output c : (forall out e, P (Ran c out e)) -> logs (S := S) P (Output c).
Proof.
  intros Hc s r s'. unfold Output. destruct (run_command c s) as [[out e] s1] eqn:E. intros [= _ <-].
  apply logs_run_command in E as (out' & e' & ->). exists [Ran c out' e']. split; [done|by constructor].
Qed.

Lemma logs_Exists p : (forall out e, P (Ran (exists_command p) out e)) -> logs (S := S) P (Exists p).
Proof. intros Hc. apply logs_bind; [by apply logs_Output|intros a; apply logs_ret]. Qed.

Lemma logs_HasCommand n : (forall out e, P (Ran (has_command n) out e)) -> logs (S := S) P (HasCommand n).
Proof. intros Hc. apply logs_bind; [by apply logs_Output|intros a; apply logs_ret]. Qed.
End logs.

(** ** The commands that only look *)

Definition probes (o : Options) : list bytes :=
  [cmd_arch; cmd_root; cmd_distro; cmd_firewalld; cmd_ufw; cmd_nft; cmd_iptables; cmd_bbr; cmd_bbr_module; cmd_ports;
   exists_command (go "/run/systemd/system"); exists_command (go "/run/openrc/softlevel"); exists_command (go "/etc/init.d");
   has_command (go "openrc"); has_command (go "firewall-cmd"); has_command (go "ufw"); has_command (go "nft"); has_command (go "iptables");
   cmd_binary o; cmd_config o; cmd_unit; cmd_active; cmd_init_d; cmd_rc_service; cmd_rc_status; cmd_init_status;
   cmd_user (ServiceUser o); cmd_congestion].

(** Reporting, a probe, or asking an installed binary for its version. *)
Definition looks (o : Options) (a : action) : Prop :=
  match a with
  | Reported _ => True
  | Ran c _ _ => c ∈ probes o \/ exists binary, c = cmd_version binary
  | Sftp _ _ | Shook _ _ _ => False
  end.

Create HintDb looks.
#[export] Hint Resolve logs_ret logs_fails logs_lift : looks.

Ltac in_list :=
  match goal with
  | |- ?x ∈ ?x :: _ => apply list_elem_of_here
  | |- _ ∈ _ :: _ => apply list_elem_of_further; in_list
  end.

(** Proves that a computation only looks, by its structure. *)
Ltac only_looks :=
  repeat first
    [ progress eauto 1 with looks
    | apply logs_emit; exact I
    | apply logs_Output; intros; left; unfold probes; in_list
    | apply logs_Output; intros; right; by eexists
    | apply logs_Exists; intros; left; unfold probes; in_list
    | apply logs_HasCommand; intros; left; unfold probes; in_list
    | apply logs_bind; [|intros ?]
    | case_match
    | progress cbv zeta ].

Section looking.
Context {S : Type} `{Remote S} (o : Options).

Lemma looks_message level step text : logs (S := S) (looks o) (message level step text).
Proof. by apply logs_emit. Qed.
Lemma looks_Infof step text : logs (S := S) (looks o) (Infof step text).
Proof. by apply logs_emit. Qed.
Lemma looks_Warnf step text : logs (S := S) (looks o) (Warnf step text).
Proof. by apply logs_emit. Qed.
Lemma looks_Successf step text : logs (S := S) (looks o) (Successf step text).
Proof. by apply logs_emit. Qed.
Lemma looks_Detail step text d : logs (S := S) (looks o) (Detail step text d).
Proof. by apply logs_emit. Qed.
Lemma looks_emit_step step e : logs (S := S) (looks o) (emit_step step e).
Proof. by apply logs_emit. Qed.
End looking.

#[export] Hint Resolve looks_message looks_Infof looks_Warnf looks_Successf looks_Detail looks_emit_step : looks.

Section inspecting.
Context {S : Type} `{Remote S} (o : Options).

Lemma looks_Detect : logs (looks o) (Detect (M := ses S)).
Proof.
  unfold Detect, distro, initSystem, firewall, bbr, listeningPorts. cbn [r_Output r_HasCommand r_Exists session_runner].
  only_looks.
Qed.

Lemma looks_findExisting : logs (looks o) (findExisting o).
Proof. unfold findExisting, find_service. only_looks. Qed.

Lemma looks_inspect fingerprint : logs (looks o) (inspect o fingerprint).
Proof.
  unfold inspect. pose proof looks_Detect. pose proof looks_findExisting. only_looks.
Qed.

Context `{Hr : Here} `{Sha256} (Hdry : DryRun o = true).

Lemma looks_open_each step fw ports : logs (looks o) (open_each o step fw ports).
Proof. induction ports as [|port ports IH]; cbn [open_each]; rewrite ?Hdry; only_looks. Qed.

Lemma looks_put_in_place info existing : logs (looks o) (put_in_place o info existing).
Proof.
  pose proof looks_open_each.
  unfold put_in_place, ensureServiceUser, installBinary, installConfig, installService, openPorts, enableBBR. rewrite Hdry.
  only_looks.
Qed.
End inspecting.

(** Everything done is logged. *)
Section appends.
Context {S : Type} `{Remote S}.

Abbreviation appends m := (logs (S := S) (fun _ => True) m).

Lemma logs_weaken {A : Type} (P : action -> Prop) (m : ses S A) : logs P m -> appends m.
Proof. intros Hm s r s' E. apply Hm in E as (t & -> & _). exists t. split; [done|]. by apply Forall_true. Qed.

Lemma appends_Run_ c : appends (Run_ c).
Proof.
  intros s r s' [= _ <-]. destruct (run_command c s) as [x s1] eqn:E. cbn [snd]. apply logs_run_command in E as (out & e & ->).
  exists [Ran c out e]. split; [done|by constructor].
Qed.
Lemma appends_Run c : appends (Run c).
Proof.
  intros s r s'. unfold Run. destruct (run_command c s) as [[out e] s1] eqn:E. intros [= _ <-].
  apply logs_run_command in E as (out' & e' & ->). exists [Ran c out' e']. split; [done|by constructor].
Qed.
Lemma appends_request op : appends (request op).
Proof.
  intros s r s' E. unfold request in E. destruct (sftp_fails op (host s)) as [[[e n]|] x]; [|destruct (sftp_effect op _)];
    injection E as _ <-; eexists [_]; (split; [done|by constructor]).
Qed.
Lemma appends_attempt {A : Type} (m : ses S A) : appends m -> appends (attempt m).
Proof. intros Hm s r s'. unfold attempt. destruct (m s) eqn:E. intros [= _ <-]. by eapply Hm. Qed.
Lemma appends_on_error {A : Type} f (m : ses S A) : appends m -> appends (on_error f m).
Proof. intros Hm s r s'. unfold on_error. destruct (m s) as [[a|e] t] eqn:E; intros [= _ <-]; by eapply Hm. Qed.
Lemma appends_or_remove tmp what path op : appends (or_remove tmp what path op).
Proof.
  intros s r s' E. unfold or_remove in E. destruct (request op s) as [[[]|e] t] eqn:E1.
  - injection E as _ <-. by eapply appends_request.
  - apply appends_request in E1 as (t1 & H1 & _). unfold attempt, mbind, ses_bind, fails in E.
    destruct (request (Remove tmp) t) as [r2 t2] eqn:E2. injection E as _ <-. apply appends_request in E2 as (t3 & -> & _).
    exists (t1 ++ t3). rewrite H1, <- app_assoc. split; [done|by apply Forall_true].
Qed.
Lemma appends_sftpClient : appends sftpClient.
Proof.
  intros s r s' E. unfold sftpClient in E. destruct (sftp s).
  - injection E as _ <-. exists []. by rewrite app_nil_r.
  - destruct (request NewClient s) as [[[]|e] t] eqn:E1; apply appends_request in E1 as (t1 & H1 & _); exists t1.
    + injection E as _ <-. split; [done|by apply Forall_true].
    + destruct e; injection E as _ <-; (split; [done|by apply Forall_true]).
Qed.
Lemma appends_write tmp content : appends (fun s : Session S =>
  match request (WriteTo tmp content) s with
  | (Ok _, s) => (Ok tt, s)
  | (Err e, s) => (_ ← attempt (request (CloseFile tmp)); _ ← attempt (request (Remove tmp)); fails (A := unit) (failed_to (go "write") tmp e)) s
  end).
Proof.
  intros s r s' E. destruct (request (WriteTo tmp content) s) as [[[]|e] t] eqn:E1; apply appends_request in E1 as (t1 & H1 & _).
  - injection E as _ <-. exists t1. split; [done|by apply Forall_true].
  - eapply (logs_bind (fun _ => True)) in E as (t2 & -> & _).
    + exists (t1 ++ t2). rewrite H1, <- app_assoc. split; [done|by apply Forall_true].
    + apply appends_attempt, appends_request.
    + intros _. apply logs_bind; [apply appends_attempt, appends_request|intros _; apply logs_fails].
Qed.
Lemma appends_emit e : appends (emit e).
Proof. by apply logs_emit. Qed.
Lemma appends_Output c : appends (Output c).
Proof. by apply logs_Output. Qed.
End appends.

Create HintDb appends.
#[export] Hint Resolve logs_ret logs_fails logs_lift appends_Run_ appends_Run appends_request appends_or_remove appends_sftpClient
  appends_write appends_emit appends_Output : appends.

(** Proves that a computation appends, by its structure. *)
Ltac only_appends :=
  repeat first
    [ progress eauto 1 with appends
    | apply logs_emit; exact I
    | apply appends_attempt
    | apply appends_on_error
    | apply logs_bind; [|intros ?]
    | case_match
    | progress cbv zeta ].

Section deploying.
Context {S : Type} `{Remote S} `{Hr : Here} `{Sha256} `{J : JsonCodec} `{Hmac} `{SshClient} (o : Options).

Abbreviation appends m := (logs (S := S) (fun _ => True) m).

Lemma appends_WriteFile path content mode : appends (WriteFile path content mode).
Proof. unfold WriteFile, prepare_tmp. only_appends. Qed.

Lemma appends_run_all cs : appends (run_all cs).
Proof. induction cs; cbn [run_all]; only_appends. Qed.
Lemma appends_run_each f cs : appends (run_each f cs).
Proof. induction cs; cbn [run_each]; only_appends. Qed.
Lemma appends_open_with step port cs : appends (open_with step port cs).
Proof. induction cs; cbn [open_with]; only_appends. Qed.
Lemma appends_open_each step fw ports : appends (open_each o step fw ports).
Proof. pose proof appends_open_with. induction ports; cbn [open_each]; only_appends. Qed.
Lemma appends_tune step cs : appends (tune step cs).
Proof. induction cs; cbn [tune]; only_appends. Qed.

Lemma appends_removeExisting step existing : appends (removeExisting step existing).
Proof. pose proof appends_run_all. unfold removeExisting. only_appends. Qed.
Lemma appends_ensureServiceUser step : appends (ensureServiceUser o step).
Proof. unfold ensureServiceUser. only_appends. Qed.
Lemma appends_downloadBinary step arch : appends (downloadBinary o step arch).
Proof. unfold downloadBinary. only_appends. Qed.
Lemma appends_uploadBinary step read : appends (uploadBinary o step read).
Proof. pose proof appends_WriteFile. unfold uploadBinary. only_appends. Qed.
Lemma appends_installBinary step arch : appends (installBinary o step arch).
Proof. pose proof appends_downloadBinary. pose proof appends_uploadBinary. unfold installBinary. only_appends. Qed.
Lemma appends_installConfig step : appends (installConfig o step).
Proof. pose proof appends_WriteFile. unfold installConfig. only_appends. Qed.
Lemma appends_installService step init : appends (installService o step init).
Proof. pose proof appends_WriteFile. pose proof appends_run_each. unfold installService. only_appends. Qed.
Lemma appends_openPorts step info ports : appends (openPorts o step info ports).
Proof. pose proof appends_open_each. unfold openPorts. only_appends. Qed.
Lemma appends_enableBBR step info : appends (enableBBR o step info).
Proof. pose proof appends_tune. unfold enableBBR, switch_bbr. only_appends. Qed.

Lemma appends_put_in_place info existing : appends (put_in_place o info existing).
Proof.
  pose proof appends_removeExisting. pose proof appends_ensureServiceUser. pose proof appends_installBinary.
  pose proof appends_installConfig. pose proof appends_installService. pose proof appends_openPorts. pose proof appends_enableBBR.
  unfold put_in_place. only_appends.
Qed.

Lemma appends_handshake addr token : appends (handshake addr token).
Proof.
  intros s r s'. unfold handshake. destruct (dial addr (host s)) as [c x]. intros [= _ <-].
  eexists [_]. split; [done|by constructor].
Qed.
Lemma appends_knock step tries n last : appends (knock o step tries n last).
Proof. pose proof appends_handshake. revert n last. induction tries; intros; cbn [knock]; only_appends. Qed.
Lemma appends_verify step : appends (verify o step).
Proof. pose proof appends_knock. unfold verify. only_appends. Qed.
End deploying.

(** ** Nothing changes before the server is known to be fit *)

Lemma ses_bind_ok {S A B : Type} (m : ses S A) (f : A -> ses S B) s b s' :
  (m ≫= f) s = (Ok b, s') -> exists a t, m s = (Ok a, t) /\ f a t = (Ok b, s').
Proof. intros H. by apply ses_bind_inv in H as [(e & _ & ?)|]. Qed.

(** The ports of a deployment that nothing else holds. *)
Definition ports_free (o : Options) (info : Result) : Prop :=
  Forall (fun port => OccupiedPorts info !! port = None \/ OccupiedPorts info !! port = Some (go "openfrps")) (wantedPorts o).

Lemma checkPorts_ok o info : checkPorts o info = Ok tt <-> ports_free o info.
Proof.
  unfold checkPorts, ports_free. rewrite first_err_ok. apply Forall_iff. intros port. unfold check_port, PortConflict.
  destruct (OccupiedPorts info !! port) as [holder|]; [|by split; [left|]].
  case_bool_decide as Hh; [subst; by split; [right|]|]. split; [done|]. by intros [?|[= ->]].
Qed.

Section first.
Context {S : Type} `{Remote S} (o : Options).

(** [info] was read from the server within [looked], after [before]. *)
Definition read_within (before looked : list action) (info : Result) : Prop :=
  exists s1 s2 : Session S, Detect (M := ses S) s1 = (Ok (Ok info), s2)
  /\ before `prefix_of` log s1 /\ log s1 `prefix_of` log s2 /\ log s2 `prefix_of` before ++ looked.

Lemma logs_prefix {A : Type} P (m : ses S A) s r s' : logs P m -> m s = (r, s') -> log s `prefix_of` log s'.
Proof. intros Hm E. apply Hm in E as (t & -> & _). by exists t. Qed.

Lemma inspect_ok fingerprint s info existing s' :
  inspect o fingerprint s = (Ok (info, existing), s') ->
  Root info = true /\ ports_free o info
  /\ exists s1 s2 : Session S, Detect (M := ses S) s1 = (Ok (Ok info), s2)
     /\ log s `prefix_of` log s1 /\ log s1 `prefix_of` log s2 /\ log s2 `prefix_of` log s'.
Proof.
  unfold inspect. intros E.
  apply ses_bind_ok in E as (? & t1 & E1 & E). apply ses_bind_ok in E as (? & t2 & E2 & E).
  apply ses_bind_ok in E as (info0 & t3 & E3 & E). apply ses_bind_ok in E3 as (r & t3' & E3 & Hl).
  injection Hl as -> ->. apply ses_bind_ok in E as (existing0 & t4 & E4 & E).
  apply ses_bind_ok in E as (? & t5 & E5 & E). apply ses_bind_ok in E as (? & t6 & E6 & E).
  apply ses_bind_ok in E as (? & t7 & E7 & E). apply ses_bind_ok in E as ([] & t8 & E8 & E). injection E as -> -> ->.
  destruct (Root info) eqn:Hroot; [|done]. injection E7 as _ <-. injection E8 as Hp ->.
  split; [done|]. split; [by apply checkPorts_ok|]. exists t2, t3. split; [exact E3|].
  assert (log s `prefix_of` log t2) as H1.
  { etrans; [eapply (logs_prefix (looks o)); [|exact E1]; only_looks|eapply (logs_prefix (looks o)); [|exact E2]; only_looks]. }
  assert (log t3 `prefix_of` log s') as H2.
  { etrans; [eapply (logs_prefix (looks o)); [apply looks_findExisting|exact E4]|].
    etrans; [eapply (logs_prefix (looks o)); [|exact E5]; only_looks|eapply (logs_prefix (looks o)); [|exact E6]; only_looks]. }
  split; [done|]. split; [|done]. eapply (logs_prefix (looks o)); [apply looks_Detect|exact E3].
Qed.
End first.

Section safety.
Context {S : Type} `{Remote S} `{Hr : Here} `{Sha256} `{J : JsonCodec} `{Hmac} `{SshClient}.

(** What a run did: it looked, and then, if anything, changed the server. *)
Definition looked_first (o : Options) (before after : list action) : Prop :=
  exists looked changed, after = before ++ looked ++ changed /\ Forall (looks o) looked
  /\ (changed = [] \/ (DryRun o = false /\ exists info, read_within (S := S) before looked info /\ Root info = true /\ ports_free o info)).

Lemma looked_only o before looked : Forall (looks o) looked -> looked_first o before (before ++ looked).
Proof. intros Hl. exists looked, []. rewrite app_nil_r. split; [done|]. split; [done|by left]. Qed.

Lemma run_connected_looks_first o fingerprint s r s' :
  run_connected o fingerprint s = (r, s') -> looked_first o (log s) (log s').
Proof.
  unfold run_connected. destruct (inspect o fingerprint s) as [[[info existing]|e] s1] eqn:E1.
  2: { unfold mbind at 1, ses_bind at 1. rewrite E1. intros [= _ <-]. apply (looks_inspect o) in E1 as (t & -> & Ht). by apply looked_only. }
  unfold mbind at 1, ses_bind at 1. rewrite E1. pose proof (looks_inspect o _ _ _ _ E1) as (t1 & Hl1 & Ht1).
  apply inspect_ok in E1 as (Hroot & Hports & s3 & s4 & Hd & Hp1 & Hp2 & Hp3). cbn [fst snd].
  destruct ((put_in_place o info existing ;; mret (info, existing)) s1) as [r2 s2] eqn:E2.
  destruct (DryRun o) eqn:Hdry.
  - assert (logs (looks o) (put_in_place (S := S) o info existing ;; mret (info, existing))) as Hl.
    { apply logs_bind; [by apply looks_put_in_place|intros _; apply logs_ret]. }
    apply Hl in E2 as (t2 & Hl2 & Ht2).
    destruct r2 as [[info2 existing2]|e]; intros [= _ <-]; cbn [snd log note]; rewrite Hl2, Hl1, <- ?app_assoc; apply looked_only.
    + rewrite !Forall_app. split_and!; [done|done|]. by constructor.
    + by apply Forall_app.
  - intros E. assert (exists t, log s' = log s1 ++ t) as [t2 Hs'].
    { assert (logs (fun _ => True) (put_in_place (S := S) o info existing ;; mret (info, existing))) as Hl.
      { apply logs_bind; [apply appends_put_in_place|intros _; apply logs_ret]. }
      apply Hl in E2 as (t2 & Hl2 & _). destruct r2 as [[info2 existing2]|e]; [|injection E as _ <-; by exists t2].
      destruct (verify o (go "verify") s2) as [r3 s5] eqn:E3. apply appends_verify in E3 as (t3 & Hl3 & _).
      destruct r3; injection E as _ <-; cbn [snd log note]; rewrite Hl3, Hl2, <- !app_assoc; by eexists. }
    exists t1, t2. rewrite Hs', Hl1, <- app_assoc. split; [done|]. split; [done|]. right. split; [done|].
    exists info. split; [|done]. exists s3, s4. rewrite <- Hl1. done.
Qed.
End safety.

(** C10: a deployment looks before it touches.  Whatever the server answers and
    whatever fails, what is done to it is a run of reports and probes (commands
    that only read, from a fixed list), and changes come after it only if this
    is no dry run, the host key was accepted, what was read of the server in
    that run says that the user is root, and no wanted port is held by another
    program.  A dry run therefore only looks. *)
Theorem Deploy_looks_first {S : Type} `{Remote S} `{Here} `{Sha256} `{JsonCodec} `{Hmac} `{SshClient} opts (s : Session S) r s' :
  Deploy opts s = (r, s') ->
  let o := Options_ApplyDefaults opts in
  exists looked changed, log s' = log s ++ looked ++ changed /\ Forall (looks o) looked
  /\ (changed = []
      \/ DryRun opts = false /\ (exists fingerprint, Connect (o_Credentials opts) = Ok fingerprint)
         /\ exists info, read_within (S := S) (log s) looked info /\ Root info = true /\ ports_free o info).
Proof.
  intros E o. unfold Deploy in E. fold o in E. destruct (with_token o) as [o'|] eqn:Et.
  2: { injection E as _ <-. exists [], []. rewrite app_nil_r. split; [done|]. split; [by constructor|by left]. }
  assert (exists t, o' = set_token t o) as [t ->].
  { unfold with_token in Et. case_bool_decide; [|injection Et as <-; exists (o_Token o); by destruct o].
    destruct NewRunID as [t|]; [|done]. injection Et as <-. by exists t. }
  assert (forall e, Forall (looks o) [Reported e]) as He by (intros e; by constructor).
  assert (forall e, looks o (Reported e)) as He1 by done.
  change (o_Credentials (set_token t o)) with (o_Credentials opts) in E.
  destruct (Connect (o_Credentials opts)) as [fingerprint|e] eqn:Ec.
  - cbn [snd Infof message emit_step emit] in E. apply run_connected_looks_first in E as (looked & changed & Hl & Hf & Hc).
    cbn [snd log note] in Hl. rewrite <- app_assoc in Hl.
    eexists (_ :: looked), changed. split; [exact Hl|]. split; [by constructor|].
    destruct Hc as [->|(Hd & info & (s1 & s2 & Hdet & Hp & Hp1 & Hp2) & Hroot & Hports)]; [by left|right].
    split; [exact Hd|]. split; [by exists fingerprint|]. exists info. split; [|done].
    exists s1, s2. split; [done|]. split; [by etrans; [apply prefix_app_r|exact Hp]|]. split; [done|].
    cbn [snd log note] in Hp2. by rewrite <- app_assoc in Hp2.
  - destruct e; injection E as _ <-; cbn [snd log note Infof Errorv message emit_step emit]; rewrite <- ?app_assoc;
      (eexists _, []; rewrite app_nil_r; split; [reflexivity|]; split; [by repeat constructor|by left]).
Qed.

(** ** What a success means *)

Inductive deed : Type := DRan (command : bytes) | DSftp (op : sftp_op) | DShook (addr token : bytes).

(** What worked. *)
Definition did (a : action) : option deed :=
  match a with
  | Ran c _ Exited => Some (DRan c)
  | Sftp op None => Some (DSftp op)
  | Shook addr token None => Some (DShook addr token)
  | _ => None
  end.

Definition achieves {S A : Type} (ds : list deed) (m : ses S A) : Prop :=
  forall s a s', m s = (Ok a, s') -> exists t, log s' = log s ++ t /\ ds `sublist_of` omap did t.

Section achieves.
Context {S : Type} `{Remote S}.

Lemma achieves_bind {A B : Type} ds es (m : ses S A) (f : A -> ses S B) :
  achieves ds m -> (forall a, achieves es (f a)) -> achieves (ds ++ es) (m ≫= f).
Proof.
  intros Hm Hf s b s' E. apply ses_bind_ok in E as (a & t & E1 & E2).
  apply Hm in E1 as (t1 & Hl1 & Hd1). apply Hf in E2 as (t2 & Hl2 & Hd2). exists (t1 ++ t2).
  rewrite Hl2, Hl1, <- app_assoc. split; [done|]. rewrite omap_app. by apply sublist_app.
Qed.

Lemma achieves_nothing {A : Type} (m : ses S A) : logs (fun _ => True) m -> achieves [] m.
Proof. intros Hm s a s' E. apply Hm in E as (t & -> & _). exists t. split; [done|]. apply sublist_nil_l. Qed.

Lemma achieves_skip {A B : Type} ds (m : ses S A) (f : A -> ses S B) :
  logs (fun _ => True) m -> (forall a, achieves ds (f a)) -> achieves ds (m ≫= f).
Proof. intros Hm Hf. apply (achieves_bind [] ds); [by apply achieves_nothing|done]. Qed.

Lemma achieves_then {A B : Type} ds (m : ses S A) (f : A -> ses S B) :
  achieves ds m -> (forall a, logs (fun _ => True) (f a)) -> achieves ds (m ≫= f).
Proof. intros Hm Hf. rewrite <- (app_nil_r ds). apply achieves_bind; [done|]. intros a. by apply achieves_nothing. Qed.

Lemma achieves_fails {A : Type} ds e : achieves (S := S) (A := A) ds (fails e).
Proof. intros s a s' [=]. Qed.

Lemma achieves_Run c : achieves [DRan c] (Run c).
Proof.
  intros s a s'. unfold Run, run_command. destruct (exec c (host s)) as [[out e] h]. destruct e; intros [= _ <-].
  exists [Ran c out Exited]. done.
Qed.

Lemma achieves_on_error {A : Type} ds f (m : ses S A) : achieves ds m -> achieves ds (on_error f m).
Proof. intros Hm s a s'. unfold on_error. destruct (m s) as [[b|e] t] eqn:E; intros [= <- <-]. by eapply Hm. Qed.

Lemma achieves_request op : achieves [DSftp op] (request op).
Proof.
  intros s a s'. unfold request. destruct (sftp_fails op (host s)) as [[[e n]|] x]; [done|]. destruct (sftp_effect op _); [|done].
  intros [= _ <-]. exists [Sftp op None]. done.
Qed.

Lemma achieves_or_remove tmp what path op : achieves [DSftp op] (or_remove tmp what path op).
Proof.
  intros s a s'. unfold or_remove. destruct (request op s) as [[[]|e] t] eqn:E.
  - intros [= _ <-]. by eapply achieves_request.
  - unfold attempt, mbind, ses_bind, fails. by destruct (request (Remove tmp) t).
Qed.

Lemma achieves_WriteFile path content mode :
  achieves [DSftp (WriteTo (path ++ tmp_suffix) content); DSftp (Rename (path ++ tmp_suffix) path)] (WriteFile path content mode).
Proof.
  unfold WriteFile. set (tmp := path ++ tmp_suffix). cbv zeta.
  apply (achieves_bind [DSftp (WriteTo tmp content)] [DSftp (Rename tmp path)]).
  - unfold prepare_tmp. do 3 (apply achieves_skip; [only_appends|intros _]). apply achieves_then; [|intros; only_appends].
    intros s a s'. destruct (request (WriteTo tmp content) s) as [[[]|e] t] eqn:E.
    + intros [= _ <-]. by eapply achieves_request.
    + intros E'. apply ses_bind_ok in E' as (? & ? & _ & E'). by apply ses_bind_ok in E' as (? & ? & _ & ?).
  - intros _. apply achieves_skip; [only_appends|intros _]. apply achieves_or_remove.
Qed.

Lemma achieves_run_each f cs : achieves (DRan <$> cs) (run_each f cs).
Proof.
  induction cs as [|c cs IH]; cbn [run_each fmap list_fmap]; [by apply achieves_nothing, logs_ret|].
  apply (achieves_bind [DRan c] (DRan <$> cs)); [apply achieves_on_error, achieves_Run|by intros _].
Qed.
End achieves.

Section success.
Context {S : Type} `{Remote S} `{Hr : Here} `{Sha256} `{J : JsonCodec} `{Hmac} `{SshClient}.

Lemma knock_shakes o step tries n last s s' :
  knock o step tries n last s = (Ok (inr tt), s') ->
  exists t, log s' = log s ++ t /\ [DShook (server_addr o) (o_Token o)] `sublist_of` omap did t.
Proof.
  revert n last s. induction tries as [|tries IH]; intros n last s E; cbn [knock] in E; [done|].
  destruct (if bool_decide (n = 0%nat) then None else done_before n) as [e|]; [done|].
  apply ses_bind_ok in E as (r & s1 & E1 & E). unfold attempt in E1.
  destruct (handshake (server_addr o) (o_Token o) s) as [r1 s2] eqn:Eh. injection E1 as <- <-.
  pose proof (appends_handshake _ _ _ _ _ Eh) as (t1 & Hl1 & _).
  destruct r1 as [[]|e].
  - apply ses_bind_ok in E as (? & s3 & E3 & E). injection E as <-. injection E3 as _ <-. cbn [log note].
    unfold handshake in Eh. destruct (dial _ _) as [c h]. injection Eh as Er <-. cbn [log]. rewrite Er, <- app_assoc.
    eexists. split; [reflexivity|]. by apply sublist_skip, sublist_nil_l.
  - apply IH in E as (t2 & Hl2 & Hd). exists (t1 ++ t2). rewrite Hl2, Hl1, <- app_assoc. split; [done|].
    rewrite omap_app. by apply sublist_inserts_l.
Qed.

Lemma achieves_verify o step : achieves (S := S) [DShook (server_addr o) (o_Token o)] (verify o step).
Proof.
  unfold verify. apply achieves_skip; [only_appends|intros status]. case_bool_decide.
  - intros s a s' E. apply ses_bind_ok in E as (? & ? & _ & E). apply ses_bind_ok in E as (? & ? & _ & E).
    by apply ses_bind_ok in E as (? & ? & _ & ?).
  - apply achieves_skip; [only_appends|intros _]. intros s a s' E. apply ses_bind_ok in E as (r & s1 & E1 & E).
    destruct r as [last|[]]; [by apply ses_bind_ok in E as (? & ? & _ & (? & ? & _ & ?)%ses_bind_ok)|].
    injection E as _ <-. by apply knock_shakes in E1.
Qed.

(** What [Output] has of a command. *)
Definition seen (out : bytes) (e : exit) : bytes := match e with NoSession _ => [] | _ => out end.

(** The binary of the release is in place: this machine's, uploaded or there
    already, or the download of the release. *)
Definition binary_in_place (o : Options) (arch : bytes) (t : list action) : Prop :=
  (exists content, local_stat (LocalBinary o) = There (Ok content)
   /\ ([DSftp (WriteTo (BinaryPath o ++ tmp_suffix) content); DSftp (Rename (BinaryPath o ++ tmp_suffix) (BinaryPath o))] `sublist_of` omap did t
       \/ exists out e, Ran (cmd_sum (BinaryPath o)) out e ∈ t /\ TrimSpace (seen out e) = sha256_hex content))
  \/ [DRan (fetch (BinaryPath o) (release_url (ReleaseURL o) arch)); DRan (move (BinaryPath o))] `sublist_of` omap did t.

Lemma achieves_downloadBinary o step arch :
  achieves (S := S) [DRan (fetch (BinaryPath o) (release_url (ReleaseURL o) arch)); DRan (move (BinaryPath o))] (downloadBinary o step arch).
Proof.
  unfold downloadBinary. case_bool_decide; [apply achieves_fails|]. cbv zeta.
  apply achieves_skip; [only_appends|intros _].
  apply (achieves_bind [DRan (fetch (BinaryPath o) (release_url (ReleaseURL o) arch))] [DRan (move (BinaryPath o))]);
    [apply achieves_on_error, achieves_Run|intros _].
  apply achieves_skip; [only_appends|intros _]. apply achieves_then; [apply achieves_Run|intros _; only_appends].
Qed.

Lemma achieves_upload o step content s s' :
  uploadBinary o step (Ok content) s = (Ok tt, s') ->
  exists t, log s' = log s ++ t
  /\ ([DSftp (WriteTo (BinaryPath o ++ tmp_suffix) content); DSftp (Rename (BinaryPath o ++ tmp_suffix) (BinaryPath o))] `sublist_of` omap did t
      \/ exists out e, Ran (cmd_sum (BinaryPath o)) out e ∈ t /\ TrimSpace (seen out e) = sha256_hex content).
Proof.
  unfold uploadBinary. intros E. apply ses_bind_ok in E as (existing & s1 & E1 & E).
  unfold Output in E1. destruct (run_command (cmd_sum (BinaryPath o)) s) as [[out e0] s1'] eqn:Erun. injection E1 as Hex <-.
  unfold run_command in Erun. destruct (exec (cmd_sum (BinaryPath o)) (host s)) as [[out' ex] h].
  assert (log s1' = log s ++ [Ran (cmd_sum (BinaryPath o)) out' ex]) as Hl1 by (by injection Erun as _ <-).
  case_bool_decide as Hw.
  - injection E as <-. cbn [log note]. eexists. rewrite Hl1, <- app_assoc. split; [reflexivity|]. right.
    exists out', ex. split; [apply list_elem_of_here|]. rewrite <- Hw, <- Hex. by destruct ex; injection Erun as <- _ _.
  - set (m := (Infof step _ ;; _)) in E. assert (achieves (S := S) [DSftp (WriteTo (BinaryPath o ++ tmp_suffix) content);
      DSftp (Rename (BinaryPath o ++ tmp_suffix) (BinaryPath o))] m) as Hm.
    { subst m. do 2 (apply achieves_skip; [only_appends|intros _]). apply achieves_then; [apply achieves_WriteFile|intros _; only_appends]. }
    apply Hm in E as (t & Hl2 & Hd). exists ([Ran (cmd_sum (BinaryPath o)) out' ex] ++ t). rewrite Hl2, Hl1, <- app_assoc. split; [done|].
    left. rewrite omap_app. by apply sublist_inserts_l.
Qed.

Lemma installBinary_in_place o step arch s s' :
  DryRun o = false -> installBinary (S := S) o step arch s = (Ok tt, s') ->
  exists t, log s' = log s ++ t /\ binary_in_place o arch t.
Proof.
  intros Hdry E. unfold installBinary in E. rewrite Hdry in E.
  assert (forall (m : ses S unit), achieves [DRan (fetch (BinaryPath o) (release_url (ReleaseURL o) arch)); DRan (move (BinaryPath o))] m ->
    m s = (Ok tt, s') -> exists t, log s' = log s ++ t /\ binary_in_place o arch t) as Hdown.
  { intros m Hm Em. apply Hm in Em as (t & Hl & Hd). exists t. split; [done|by right]. }
  case_bool_decide; [eapply Hdown; [apply achieves_downloadBinary|exact E]|].
  destruct (local_stat (LocalBinary o)) as [|e|[content|e]] eqn:Hs.
  - eapply Hdown; [|exact E]. apply achieves_skip; [only_appends|intros _; apply achieves_downloadBinary].
  - done.
  - destruct (binaryMatchesArch (LocalBinary o) arch) as [[|] mismatch].
    + apply achieves_upload in E as (t & Hl & Hd). exists t. split; [done|]. left. by exists content.
    + eapply Hdown; [|exact E]. apply achieves_skip; [only_appends|intros _; apply achieves_downloadBinary].
  - destruct (binaryMatchesArch (LocalBinary o) arch) as [[|] mismatch]; [done|].
    eapply Hdown; [|exact E]. apply achieves_skip; [only_appends|intros _; apply achieves_downloadBinary].
Qed.

(** The steps after the binary, in their order. *)
Definition milestones (o : Options) (config content : bytes) (unit : serviceUnit) : list deed :=
  [DSftp (WriteTo (ConfigPath o ++ tmp_suffix) (config ++ [x0a])); DSftp (Rename (ConfigPath o ++ tmp_suffix) (ConfigPath o));
   DRan (make_state o);
   DSftp (WriteTo (su_path unit ++ tmp_suffix) content); DSftp (Rename (su_path unit ++ tmp_suffix) (su_path unit))]
  ++ (DRan <$> su_enable unit) ++ (DRan <$> su_restart unit) ++ [DShook (server_addr o) (o_Token o)].

Lemma installConfig_achieves o step s s' :
  DryRun o = false -> installConfig (S := S) o step s = (Ok tt, s') ->
  exists config t, marshal_config (server_config o) = Some config /\ Server_Validate (server_config o) = Ok tt /\ log s' = log s ++ t
  /\ [DSftp (WriteTo (ConfigPath o ++ tmp_suffix) (config ++ [x0a])); DSftp (Rename (ConfigPath o ++ tmp_suffix) (ConfigPath o));
      DRan (make_state o)] `sublist_of` omap did t.
Proof.
  intros Hdry E. unfold installConfig in E. destruct (Server_Validate (server_config o)) as [[]|e] eqn:Hv; [|done].
  destruct (marshal_config (server_config o)) as [config|] eqn:Hm; [|done]. rewrite Hdry in E. exists config.
  set (m := (WriteFile _ _ _ ;; _)) in E.
  assert (achieves (S := S) ([DSftp (WriteTo (ConfigPath o ++ tmp_suffix) (config ++ [x0a])); DSftp (Rename (ConfigPath o ++ tmp_suffix) (ConfigPath o))]
    ++ [DRan (make_state o)]) m) as Hach.
  { apply achieves_bind; [apply achieves_WriteFile|intros _]. apply achieves_skip; [only_appends|intros _].
    apply achieves_then; [apply achieves_on_error, achieves_Run|intros _; only_appends]. }
  apply Hach in E as (t & Hl & Hd). by exists t.
Qed.

Lemma installService_achieves o step init s s' :
  DryRun o = false -> installService (S := S) o step init s = (Ok tt, s') ->
  exists content unit t, renderUnit init (service_params o) = Ok (content, unit) /\ log s' = log s ++ t
  /\ ([DSftp (WriteTo (su_path unit ++ tmp_suffix) content); DSftp (Rename (su_path unit ++ tmp_suffix) (su_path unit))]
      ++ (DRan <$> su_enable unit) ++ (DRan <$> su_restart unit)) `sublist_of` omap did t.
Proof.
  intros Hdry E. unfold installService in E. destruct (renderUnit init (service_params o)) as [[content unit]|e]; [|done].
  rewrite Hdry in E. exists content, unit. set (m := (WriteFile _ _ _ ;; _)) in E.
  assert (achieves (S := S) ([DSftp (WriteTo (su_path unit ++ tmp_suffix) content); DSftp (Rename (su_path unit ++ tmp_suffix) (su_path unit))]
      ++ (DRan <$> su_enable unit) ++ (DRan <$> su_restart unit)) m) as Hach.
  { apply achieves_bind; [apply achieves_WriteFile|intros _]. do 2 (apply achieves_skip; [only_appends|intros _]).
    apply achieves_bind; [apply achieves_run_each|intros _]. apply achieves_then; [apply achieves_run_each|intros _; only_appends]. }
  apply Hach in E as (t & Hl & Hd). by exists t.
Qed.

Lemma run_connected_success o fingerprint s out s' :
  DryRun o = false -> run_connected o fingerprint s = ((Some out, None), s') ->
  exists info config content unit t1 t2,
    Verified out = true /\ o_token out = o_Token o /\ Fingerprint out = fingerprint
    /\ marshal_config (server_config o) = Some config /\ Server_Validate (server_config o) = Ok tt
    /\ renderUnit (Init info) (service_params o) = Ok (content, unit)
    /\ log s' = log s ++ t1 ++ t2 /\ read_within (S := S) (log s) t1 info /\ binary_in_place o (Arch info) t1
    /\ milestones o config content unit `sublist_of` omap did t2.
Proof.
  intros Hdry E. unfold run_connected in E.
  destruct ((inspected ← inspect o fingerprint; put_in_place o inspected.1 inspected.2 ;; mret inspected) s) as [[[info existing]|e] s1] eqn:E1; [|done].
  rewrite Hdry in E. destruct (verify o (go "verify") s1) as [[[]|e] s2] eqn:E2; [|done]. injection E as <- <-.
  apply ses_bind_ok in E1 as ([info1 existing1] & s3 & E3 & E1). cbn [fst snd] in E1.
  apply ses_bind_ok in E1 as ([] & s4 & E4 & E1). injection E1 as -> -> ->.
  unfold put_in_place in E4. cbv zeta in E4. rewrite Hdry in E4.
  apply ses_bind_ok in E4 as ([] & s5 & E5 & E4). apply ses_bind_ok in E4 as ([] & s6 & E6 & E4).
  apply ses_bind_ok in E4 as ([] & s7 & E7 & E4). apply ses_bind_ok in E4 as ([] & s8 & E8 & E4).
  apply ses_bind_ok in E4 as ([] & s9 & E9 & E4).
  pose proof (inspect_ok _ _ _ _ _ _ E3) as (_ & _ & s11 & s12 & Hdet & Hp1 & Hp2 & Hp3).
  apply looks_inspect in E3 as (t3 & Hl3 & _). apply appends_removeExisting in E5 as (t5 & Hl5 & _).
  apply appends_ensureServiceUser in E6 as (t6 & Hl6 & _).
  apply installBinary_in_place in E7 as (t7 & Hl7 & Hb); [|done].
  apply installConfig_achieves in E8 as (config & t8 & Hcfg & Hval & Hl8 & Hd8); [|done].
  apply installService_achieves in E9 as (content & unit & t9 & Hunit & Hl9 & Hd9); [|done].
  apply ses_bind_ok in E4 as ([] & s10 & E10 & E11). apply appends_openPorts in E10 as (t10 & Hl10 & _).
  apply appends_enableBBR in E11 as (t11 & Hl11 & _). apply achieves_verify in E2 as (t12 & Hl12 & Hd12).
  exists info, config, content, unit, (t3 ++ t5 ++ t6 ++ t7), (t8 ++ t9 ++ t10 ++ t11 ++ t12 ++ [Reported (MkEvent (go "done") LevelSuccess (go "server is deployed and reachable on port " ++ Itoa (o_BindPort o)) None ∅)]).
  split_and!; try done.
  - cbn [snd log note Successf message emit_step emit]. rewrite Hl12, Hl11, Hl10, Hl9, Hl8, Hl7, Hl6, Hl5, Hl3, <- !app_assoc. done.
  - exists s11, s12. split_and!; [done..|]. rewrite Hl3 in Hp3. rewrite app_assoc. by apply prefix_app_r.
  - destruct Hb as [(c & Hc & [Hb|(out & e & Hin & Hb)])|Hb].
    + left. exists c. split; [done|]. left. rewrite !omap_app. by do 3 apply sublist_inserts_l.
    + left. exists c. split; [done|]. right. exists out, e. split; [|done]. rewrite !elem_of_app. tauto.
    + right. rewrite !omap_app. by do 3 apply sublist_inserts_l.
  - assert (forall en re : list deed, forall a b c d e f : deed, [a; b; c; d; e] ++ en ++ re ++ [f] = [a; b; c] ++ ([d; e] ++ en ++ re) ++ [f]) as Hsplit.
    { intros. cbn [app]. by rewrite <- app_assoc. }
    unfold milestones. rewrite Hsplit, !omap_app. apply sublist_app; [done|]. apply sublist_app; [done|].
    do 2 apply sublist_inserts_l. by apply sublist_inserts_r.
Qed.
End success.


(** ** The check at the end meets the server *)

Section meets.
Context `{J : JsonCodec} `{Hmac} `{Unicode} `{!Idna} `{X509} (protocol_text : perr -> bytes).

(** What a server in state [st] sends back on a connection that brought [sent]. *)
Definition server_reply (con sid : N) (now : Z) (generated : option bytes) (observed version : bytes) (st : State) (sent : bytes) : stream :=
  match handleConn (Stream sent EOF) with
  | (GreetsPlain (OpensSession login), _) =>
      match (let '(result, resp, _) := handleLogin protocol_text con sid login now generated observed version true st in
             match result with LoginRefused r => r | LoginStarted _ => resp end) with
      | Some resp => match encode (MLoginResp resp) with Ok frame => Stream frame EOF | Err _ => Stream [] EOF end
      | None => Stream [] EOF
      end
  | _ => Stream [] EOF
  end.

Lemma handshake_on_reply token ts answer resp :
  transmissible (MLogin (verify_login token ts)) -> transmissible (MLoginResp resp) ->
  (forall frame, encode (MLogin (verify_login token ts)) = Ok frame ->
     answer (preamble_bytes (MkPreamble Version ModePlain) ++ frame)
     = match encode (MLoginResp resp) with Ok frame => Stream frame EOF | Err _ => Stream [] EOF end) ->
  handshake_on (MkConn None (Writer [] None) answer) token ts = (if bool_decide (lr_Error resp = []) then Ok tt else Err (ErrRejected (lr_Error resp))).
Proof.
  intros Hl Hr Hans. unfold handshake_on. cbn [c_deadline c_writer c_answer]. unfold WritePreamble. cbn [Write written werr].
  destruct (WriteMessage_ok _ ([] ++ [preamble_bytes (MkPreamble Version ModePlain)]) Hl) as (frame1 & Hf1 & ->).
  assert (output (Writer (([] ++ [preamble_bytes (MkPreamble Version ModePlain)]) ++ [frame1]) None) = preamble_bytes (MkPreamble Version ModePlain) ++ frame1) as ->.
  { unfold output. cbn [written app concat]. by rewrite app_nil_r. }
  rewrite (Hans _ Hf1). destruct (WriteMessage_ok _ [] Hr) as (frame2 & Hf2 & _). rewrite Hf2.
  rewrite <- (app_nil_r frame2) at 1. rewrite (ReadMessage_frame _ frame2 [] EOF Hr Hf2). by case_bool_decide.
Qed.
End meets.

(** The check at the end of a deployment tells the right server from a wrong
    one.  On a connection to a server of this version whose clock agrees, what
    the check writes is read there as a login, and the answer is taken for a
    success if the server has the token of the deployment, and for a refused
    handshake if its token makes another key. *)
Theorem handshake_meets_server `{J : JsonCodec} `{Hmac} `{Unicode} `{!Idna} `{X509} protocol_text token ts con sid now run observed version st :
  in_i64 (ts + unixToInternal) -> Z.abs (now - time_Unix ts) <= DefaultAuthSkew ->
  transmissible (MLogin (verify_login token ts)) ->
  transmissible (MLoginResp (MkLoginResp observed Version run version [])) ->
  transmissible (MLoginResp (refusal (go "authentication failed"))) ->
  let check := handshake_on (MkConn None (Writer [] None) (server_reply protocol_text con sid now (Some run) observed version st)) token ts in
  (Config.Token (cfg st) = token -> check = Ok tt)
  /\ (Config.Token (cfg st) <> [] -> AuthKey (Config.Token (cfg st)) ts <> AuthKey token ts ->
      check = Err (ErrRejected (go "authentication failed"))).
Proof.
  intros Hts Hnear Hl Hok Hbad check.
  assert (forall frame1, encode (MLogin (verify_login token ts)) = Ok frame1 ->
    handleConn (Stream (preamble_bytes (MkPreamble Version ModePlain) ++ frame1) EOF)
    = (GreetsPlain (OpensSession (verify_login token ts)), Stream [] EOF)) as Hconn.
  { intros frame1 Hf1. rewrite <- (app_nil_r frame1) at 1. rewrite (proj1 (handleConn_plain _ frame1 [] EOF Hl Hf1)).
    unfold handlePlain. by rewrite (ReadMessage_frame _ frame1 [] EOF Hl Hf1). }
  split.
  - intros Htok. subst check. erewrite (handshake_on_reply _ _ _ _ Hl Hok); [by rewrite bool_decide_eq_true_2|].
    intros frame1 Hf1. unfold server_reply. rewrite (Hconn _ Hf1).
    assert (login_accepted (verify_login token ts) now (Some run) run st) as Hacc.
    { split; [done|]. split; [|done]. cbn [verify_login login_AuthKey login_Timestamp]. rewrite Htok. by apply VerifyAuth_own. }
    pose proof (handleLogin_started protocol_text con sid _ now (Some run) observed version true st run Hacc) as Hst.
    cbv zeta in Hst. by rewrite Hst.
  - intros Htok Hkey. subst check. erewrite (handshake_on_reply _ _ _ _ Hl Hbad); [by rewrite bool_decide_eq_false_2|].
    intros frame1 Hf1. unfold server_reply. rewrite (Hconn _ Hf1). unfold handleLogin.
    cbn [verify_login login_Version login_AuthKey login_Timestamp].
    change (CheckVersion Version) with (@Ok perr unit tt). cbv iota.
    assert (VerifyAuth (Config.Token (cfg st)) (AuthKey token ts) ts now DefaultAuthSkew = Err ErrAuthFailed) as ->; [|done].
    unfold VerifyAuth. rewrite bool_decide_eq_false_2 by done. cbv zeta.
    rewrite (bool_decide_eq_false_2 (_ = AuthKey token ts)) by done. by case_match.
Qed.

(** ** A download is installed only when its checksum is right *)

Section download.
Context {S : Type} `{Remote S}.

Lemma Output_seen c s out s' : Output c s = (Ok out, s') -> exists raw e, log s' = log s ++ [Ran c raw e] /\ out = TrimSpace (seen raw e).
Proof.
  unfold Output, run_command. destruct (exec c (host s)) as [[raw e] h]. destruct e; intros [= <- <-]; by eexists _, _.
Qed.

Context (o : Options).

(** Anything but moving the download into place. *)
Definition no_move (a : action) : Prop := match a with Ran c _ _ => c <> move (BinaryPath o) | _ => True end.
Definition checked (a : action) : Prop :=
  match a with Ran c out e => c = cmd_sum_tmp (BinaryPath o) /\ TrimSpace (seen out e) = SHA256 o | _ => False end.

(** The download is moved only in a log that shows its hash to be right. *)
Definition guarded {A : Type} (m : ses S A) : Prop :=
  forall s r s', m s = (r, s') -> exists t, log s' = log s ++ t /\ (Forall no_move t \/ List.Exists checked t).

Lemma guarded_quiet {A : Type} (m : ses S A) : logs no_move m -> guarded m.
Proof. intros Hm s r s' E. apply Hm in E as (t & Hl & Ht). exists t. by split; [|left]. Qed.

Lemma guarded_bind {A B : Type} (m : ses S A) (f : A -> ses S B) : logs no_move m -> (forall a, guarded (f a)) -> guarded (m ≫= f).
Proof.
  intros Hm Hf s r s' E. apply ses_bind_inv in E as [(e & E1 & ->)|(a & s1 & E1 & E)]; apply Hm in E1 as (t1 & Hl1 & Ht1).
  - exists t1. by split; [|left].
  - apply Hf in E as (t2 & Hl2 & Ht2). exists (t1 ++ t2). rewrite Hl2, Hl1, <- app_assoc. split; [done|].
    rewrite Forall_app, Exists_app. tauto.
Qed.

Lemma guarded_check {A B : Type} (m : ses S A) (f : A -> ses S B) :
  logs no_move m -> (forall s a s', m s = (Ok a, s') -> exists t, log s' = log s ++ t /\ List.Exists checked t) ->
  (forall a, logs (fun _ => True) (f a)) -> guarded (m ≫= f).
Proof.
  intros Hm Hc Hf s r s' E. apply ses_bind_inv in E as [(e & E1 & ->)|(a & s1 & E1 & E)].
  - apply Hm in E1 as (t1 & Hl1 & Ht1). exists t1. by split; [|left].
  - apply Hc in E1 as (t1 & Hl1 & Ht1). apply Hf in E as (t2 & Hl2 & _). exists (t1 ++ t2). rewrite Hl2, Hl1, <- app_assoc.
    split; [done|]. right. apply Exists_app. by left.
Qed.

Lemma logs_Run P c : (forall out e, P (Ran c out e)) -> logs (S := S) P (Run c).
Proof.
  intros Hc s r s'. unfold Run. destruct (run_command c s) as [[out e] s1] eqn:E. intros [= _ <-].
  apply logs_run_command in E as (out' & e' & ->). exists [Ran c out' e']. split; [done|by constructor].
Qed.

Lemma logs_Run_ P c : (forall out e, P (Ran c out e)) -> logs (S := S) P (Run_ c).
Proof.
  intros Hc s r s' [= _ <-]. destruct (run_command c s) as [x s1] eqn:E. cbn [snd].
  apply logs_run_command in E as (out & e & ->). exists [Ran c out e]. split; [done|by constructor].
Qed.

Lemma logs_on_error P {A : Type} f (m : ses S A) : logs P m -> logs P (on_error f m).
Proof. intros Hm s r s'. unfold on_error. destruct (m s) as [[a|e] t] eqn:E; intros [= _ <-]; by eapply Hm. Qed.

Lemma downloadBinary_guarded step arch : SHA256 o <> [] -> guarded (downloadBinary o step arch).
Proof.
  intros Hsha. unfold downloadBinary. case_bool_decide; [apply guarded_quiet, logs_fails|]. cbv zeta.
  rewrite (bool_decide_eq_false_2 _ Hsha). cbn [negb].
  apply guarded_bind; [by apply logs_emit|intros _].
  apply guarded_bind; [apply logs_on_error, logs_Run; intros; discriminate|intros _].
  apply guarded_check; [..|intros _; only_appends].
  - apply logs_bind; [apply logs_Output; intros; discriminate|intros got]. case_match; [|by apply logs_emit].
    apply logs_bind; [apply logs_Run_; intros; discriminate|intros _; apply logs_fails].
  - intros s a s' E. apply ses_bind_ok in E as (got & s1 & E1 & E). apply Output_seen in E1 as (raw & e & Hl & ->).
    case_bool_decide as Hg; cbn [negb] in E; [|by apply ses_bind_ok in E as (? & ? & _ & ?)].
    injection E as _ <-. cbn [log note]. eexists. rewrite Hl, <- app_assoc. split; [done|].
    apply Exists_cons. by left.
Qed.
End download.

(** A downloaded binary is installed only when its checksum is right.  With
    a checksum configured, whatever the server answers, the command that moves
    the download into place is in the log only if the server had printed the
    hash of the downloaded file and it was the one configured. *)
Theorem downloadBinary_verified {S : Type} `{Remote S} o step arch (s : Session S) r s' :
  SHA256 o <> [] -> downloadBinary o step arch s = (r, s') ->
  exists t, log s' = log s ++ t
  /\ forall out e, Ran (move (BinaryPath o)) out e ∈ t ->
     exists raw e', Ran (cmd_sum_tmp (BinaryPath o)) raw e' ∈ t /\ TrimSpace (seen raw e') = SHA256 o.
Proof.
  intros Hsha E. apply (downloadBinary_guarded o step arch Hsha) in E as (t & Hl & Ht). exists t. split; [done|].
  intros out e Hin. destruct Ht as [Ht|Ht].
  - rewrite Forall_forall in Ht. by destruct (Ht _ Hin).
  - apply Exists_exists in Ht as ([c raw e'| | |] & Hc & Hch); try done. destruct Hch as [-> Hch]. by exists raw, e'.
Qed.

(** ** The commands are read as they are meant *)

Definition sh (words : list string) : list sh_token := Word <$> (go <$> words).
Definition and_then : list sh_token := [Operator x26; Operator x26].
Definition or_else_ : list sh_token := [Operator x7c; Operator x7c].
(** [2>/dev/null]: the shell reads [2>] as the error output. *)
Definition silent : list sh_token := [Word (go "2"); Operator x3e; Word (go "/dev/null")].

(** [2>&1], [>/dev/null] and [</dev/null]. *)
Definition to_null : list sh_token := [Operator x3e; Word (go "/dev/null")].
Definition from_null : list sh_token := [Operator x3c; Word (go "/dev/null")].
Definition errors_too : list sh_token := [Word (go "2"); Operator x3e; Operator x26; Word (go "1")].
Definition piped : list sh_token := [Operator x7c].
Definition yes_or_no : list sh_token := and_then ++ sh ["echo"; "yes"]%string ++ or_else_ ++ sh ["echo"; "no"]%string.
Definition first_field : list sh_token := piped ++ [Word (go "cut"); Word (go "-d "); Word (go "-f1")].

(** The quoted blank in a text is a quoted value. *)
Lemma cut_silent : go " 2>/dev/null | cut -d' ' -f1" = go " 2>/dev/null | cut -d" ++ ShellQuote (go " ") ++ go " -f1".
Proof. reflexivity. Qed.
Lemma cut_piped : go " | cut -d' ' -f1" = go " | cut -d" ++ ShellQuote (go " ") ++ go " -f1".
Proof. reflexivity. Qed.

(** C39: the paths, the URL, the user and the names of programs reach the programs
    on the server as they are.  Whatever bytes they hold (spaces, quotes,
    semicolons, dollars), a shell reads every command that carries one (to look
    at the server, to remove what is there, to download and check the binary,
    to make the user, the configuration and the service) as the words that were
    meant, the value as a single word or a part of one, with no operator or
    expansion that comes from it. *)
Theorem commands_as_meant path url user name o unit :
  (* session.go *)
  sh_words (exists_command path) = Some (sh ["test"; "-e"]%string ++ [Word path] ++ yes_or_no)
  /\ sh_words (has_command name) = Some (sh ["command"; "-v"]%string ++ [Word name] ++ to_null ++ errors_too ++ yes_or_no)
  (* existing.go *)
  /\ sh_words (cmd_binary o)
     = Some (sh ["command"; "-v"; "openfrps"]%string ++ silent ++ or_else_ ++ sh ["ls"]%string ++ [Word (BinaryPath o)] ++ silent)
  /\ sh_words (cmd_version path)
     = Some (sh ["timeout"; "5"]%string ++ [Word path] ++ sh ["-version"]%string ++ from_null ++ silent ++ piped ++ sh ["head"; "-1"]%string)
  /\ sh_words (cmd_config o) = Some (sh ["ls"]%string ++ [Word (ConfigPath o)] ++ silent)
  /\ sh_words (drop_config path) = Some (sh ["rm"; "-f"]%string ++ [Word path])
  (* install.go *)
  /\ sh_words (cmd_sum path) = Some (sh ["sha256sum"]%string ++ [Word path] ++ silent ++ first_field)
  /\ sh_words (cmd_sum_tmp path) = Some (sh ["sha256sum"]%string ++ [Word (path ++ go ".tmp")] ++ first_field)
  /\ sh_words (fetch path url)
     = Some (sh ["curl"; "-fsSL"; "-o"]%string ++ [Word (path ++ go ".tmp"); Word url] ++ or_else_
             ++ sh ["wget"; "-qO"]%string ++ [Word (path ++ go ".tmp"); Word url])
  /\ sh_words (move path)
     = Some (sh ["chmod"; "0755"]%string ++ [Word (path ++ go ".tmp")] ++ and_then
             ++ sh ["mv"]%string ++ [Word (path ++ go ".tmp"); Word path])
  /\ sh_words (drop_tmp path) = Some (sh ["rm"; "-f"]%string ++ [Word (path ++ go ".tmp")])
  /\ sh_words (own_config o)
     = Some (sh ["chown"]%string ++ [Word (ServiceUser o ++ go ":"); Word (ConfigPath o)] ++ silent ++ or_else_ ++ sh ["true"]%string)
  /\ sh_words (make_state o)
     = Some (sh ["mkdir"; "-p"]%string ++ [Word (StateDir o)] ++ and_then ++ sh ["chown"]%string
             ++ [Word (ServiceUser o ++ go ":"); Word (StateDir o)] ++ and_then ++ sh ["chmod"; "0750"]%string ++ [Word (StateDir o)])
  (* service.go *)
  /\ sh_words (cmd_user user) = Some (sh ["id"]%string ++ [Word user] ++ to_null ++ errors_too ++ yes_or_no)
  /\ sh_words (add_user user)
     = Some (sh ["useradd"; "--system"; "--no-create-home"; "--shell"; "/usr/sbin/nologin"]%string ++ [Word user] ++ silent ++ or_else_
             ++ sh ["adduser"; "-S"; "-D"; "-H"; "-s"; "/sbin/nologin"]%string ++ [Word user] ++ silent ++ or_else_ ++ sh ["true"]%string)
  /\ sh_words (chmod_unit unit) = Some (sh ["chmod"; "755"]%string ++ [Word (su_path unit)]).
Proof.
  split_and!; [unfold exists_command|unfold has_command|unfold cmd_binary|unfold cmd_version|unfold cmd_config|unfold drop_config
    |unfold cmd_sum; rewrite cut_silent|unfold cmd_sum_tmp; rewrite cut_piped|unfold fetch|unfold move|unfold drop_tmp|unfold own_config|unfold make_state
    |unfold cmd_user|unfold add_user|unfold chmod_unit]; sh_compute.
Qed.

(** ** The ports *)

(** Who holds a port by a listing: the process of its last row. *)
Definition holder_of (port : Z) (rows : list ss_row) : option bytes :=
  row_process <$> find (fun r => row_port r =? port) (reverse rows).

Lemma foldl_holder rows (m : gmap Z bytes) port :
  foldl (fun (ports : gmap Z bytes) r => <[row_port r := row_process r]> ports) m rows !! port
  = match holder_of port rows with Some h => Some h | None => m !! port end.
Proof.
  unfold holder_of. revert m. induction rows as [|r rows IH] using rev_ind; intros m; [done|].
  rewrite foldl_app, reverse_app. cbn [foldl reverse rev_append app find fmap option_fmap option_map].
  change (reverse [r] ++ reverse rows) with (r :: reverse rows). cbn [find].
  destruct (row_port r =? port) eqn:E.
  - apply Z.eqb_eq in E as ->. by rewrite lookup_insert_eq.
  - apply Z.eqb_neq in E. rewrite lookup_insert_ne by done. by rewrite IH.
Qed.

(** A deployment goes on exactly when its ports are free.  On a server whose
    [ss -lntp] prints a header and a row for each listening socket, the ports
    are accepted if and only if every row that listens on a wanted port (the
    last, if there are more) is held by a process named openfrps. *)
Theorem checkPorts_listing o info header rows :
  x0a ∉ header -> first_port (Fields header) = None -> Forall row_ok rows ->
  OccupiedPorts info = ports_of (Join (header :: (row_text <$> rows)) [x0a]) ->
  checkPorts o info = Ok tt
  <-> forall port holder, port ∈ wantedPorts o -> holder_of port rows = Some holder -> holder = go "openfrps".
Proof.
  intros Hh Hp Hr Hi. rewrite checkPorts_ok. unfold ports_free. rewrite Forall_forall, Hi, (ports_of_listing header rows Hh Hp Hr).
  setoid_rewrite (foldl_holder rows ∅). split.
  - intros H port holder Hin Hho. specialize (H port Hin). rewrite Hho in H. destruct H as [?|H]; [done|by injection H].
  - intros H port Hin. destruct (holder_of port rows) as [h|] eqn:E; [right; by rewrite (H port h Hin E)|left; apply lookup_empty].
Qed.

(** ** Two flaws *)

(** The status the shipped [sysvinit] script prints of a stopped service holds
    the word it is searched for: the service is taken for a running one. *)
Definition stopped_status : bytes := go "openfrps is not running".

Lemma stopped_status_printed : Contains template_sysvinit (go "echo " ++ [x22] ++ go "$NAME is not running" ++ [x22]) = true.
Proof. by vm_compute. Qed.

Definition stopped_server : Remote unit :=
  canned [(cmd_init_d, go "/etc/init.d/openfrps"); (cmd_init_status, stopped_status)] (fun _ => false) (Stream [] EOF).

Theorem stopped_service_taken_for_running s : (@find_service unit stopped_server s).1 = Ok (Some (go "sysvinit", true)).
Proof. by vm_compute. Qed.


(** ** Examples *)

Section example.
#[local] Existing Instance toy_hmac.

Definition known_key : bytes := go "SHA256:abc".
Definition example_creds : Credentials := MkCredentials (go "vps.example.com") 0 [] (go "secret") [] [] known_key.
Definition example_options (dry : bool) (port : Z) : Options :=
  MkOptions example_creds (go "tok") port 0 0 [] [] [] [] (go "/tmp/openfrps") [] [] false dry.

Definition example_ssh : SshClient := {|
  read_local _ := Err [];
  ParsePrivateKey _ _ := Err [];
  ssh_dial _ := Ok (Presents known_key (fun _ _ => Ok tt))
|}.
Definition example_here : Here := {|
  local_stat _ := There (Ok (go "ELF"));
  elf_machine _ := Some 62;
  marshal_config _ := Some (go "{}");
  NewRunID := None;
  done_before _ := None
|}.
Definition toy_sha : Sha256 := {| sha256_hex b := b |}.

Definition example_answer : LoginResp := MkLoginResp (go "192.0.2.1") Version (go "run") (go "1.0") [].
(** The messages of the check, by name. *)
Definition example_json : JsonCodec.
Proof.
  refine {| Marshal m := match m with
                         | MLogin _ => Some (go "login")
                         | MLoginResp r => Some (if bool_decide (lr_Error r = []) then go "yes" else go "no")
                         | _ => None
                         end;
            Unmarshal t p := if (t =? TypeLogin) && bool_decide (p = go "login") then Some (MLogin (verify_login (go "tok") 1700000000))
                             else if (t =? TypeLoginResp) && bool_decide (p = go "yes") then Some (MLoginResp example_answer)
                             else if (t =? TypeLoginResp) && bool_decide (p = go "no") then Some (MLoginResp (refusal (go "authentication failed")))
                             else None |}.
  intros t p m E. repeat case_match; simplify_eq; bool_facts; done.
Defined.
Definition example_reply : stream :=
  match @encode example_json (MLoginResp example_answer) with Ok f => Stream f EOF | Err _ => Stream [] EOF end.
Definition example_remote : Remote unit :=
  canned [(cmd_arch, go "x86_64"); (cmd_root, go "0"); (exists_command (go "/run/systemd/system"), go "yes")] (fun _ => false) example_reply.

Abbreviation example_run dry :=
  (@Deploy unit example_remote example_here toy_sha example_json toy_hmac example_ssh (example_options dry 7000) (fresh (MkHost ∅ tt))).

(** The probes, the report of each step and, unless dry, the changes. *)
Example deploy_runs :
  (Verified <$> (example_run false).1.1, bool_decide (is_Some (example_run false).1.2), length (log (example_run false).2)) = (Some true, false, 62%nat)
  /\ (Verified <$> (example_run true).1.1, bool_decide (is_Some (example_run true).1.2), length (log (example_run true).2)) = (Some false, false, 25%nat).
Proof. by vm_compute. Qed.

Lemma Deploy_looks_first_witness :
  exists looked, log (example_run true).2 = looked /\ Forall (looks (Options_ApplyDefaults (example_options true 7000))) looked.
Proof.
  destruct (example_run true) as [r s'] eqn:E.
  destruct (Deploy_looks_first _ _ _ _ E) as (looked & changed & Hl & Hf & Hc).
  exists looked. split; [|exact Hf]. cbn [snd]. rewrite Hl. destruct Hc as [->|[Hd _]]; [apply app_nil_r|discriminate Hd].
Defined.


(** A release whose hash is right, and one whose is not. *)
Definition download_options (sum : bytes) : Options :=
  MkOptions example_creds (go "tok") 7000 0 0 (go "/usr/local/bin/openfrps") [] [] [] [] (go "https://e.org/{os}-{arch}.gz") sum false false.
Definition download_remote : Remote unit :=
  canned [(cmd_sum_tmp (go "/usr/local/bin/openfrps"), go "abc")] (fun _ => false) (Stream [] EOF).

Example download_cases :
  is_ok (@downloadBinary unit download_remote (download_options (go "abc")) [] (go "amd64") (fresh no_host)).1 = true
  /\ is_ok (@downloadBinary unit download_remote (download_options (go "abd")) [] (go "amd64") (fresh no_host)).1 = false
  /\ release_url (go "https://e.org/{os}-{arch}.gz") (go "amd64") = go "https://e.org/linux-amd64.gz".
Proof. by vm_compute. Qed.

Lemma downloadBinary_verified_witness :
  let o := download_options (go "abd") in
  SHA256 o <> [] /\ exists t, log (@downloadBinary unit download_remote o [] (go "amd64") (fresh no_host)).2 = t
  /\ forall out e, Ran (move (BinaryPath o)) out e ∈ t ->
     exists raw e', Ran (cmd_sum_tmp (BinaryPath o)) raw e' ∈ t /\ TrimSpace (seen raw e') = SHA256 o.
Proof.
  intros o. assert (SHA256 o <> []) as Hs by discriminate. split; [exact Hs|].
  destruct (@downloadBinary unit download_remote o [] (go "amd64") (fresh no_host)) as [r s'] eqn:E.
  exact (downloadBinary_verified o [] (go "amd64") (fresh no_host) r s' Hs E).
Defined.

Definition ss_header : bytes := go "State  Recv-Q Send-Q Local Address:Port Peer Address:Port Process".
Definition nginx_row : ss_row :=
  MkRow [(go "LISTEN", 2%nat); (go "0", 3%nat); (go "511", 0%nat)] (go "[::]") 80 4 (go "[::]:*", 1%nat) (go "nginx") (go ",pid=7,fd=6))").
Definition listed : Result :=
  MkResult [] [] [] [] [] [] false false false (ports_of (Join (ss_header :: (row_text <$> [nginx_row])) [x0a])) true.
Definition vhost_options (port : Z) : Options :=
  Options_ApplyDefaults (MkOptions example_creds [] 0 port 0 [] [] [] [] [] [] [] false false).

Lemma nginx_row_ok : row_ok nginx_row.
Proof.
  constructor; try (apply (bool_decide_unpack _); by vm_compute); cbn; lia.
Qed.

Lemma checkPorts_listing_witness :
  checkPorts (vhost_options 80) listed <> Ok tt /\ checkPorts (vhost_options 8080) listed = Ok tt.
Proof.
  assert (x0a ∉ ss_header) as Hh by (apply (bool_decide_unpack _); vm_compute; exact I).
  assert (Forall row_ok [nginx_row]) as Hr by (constructor; [exact nginx_row_ok|constructor]).
  split.
  - intros Hok. assert (go "nginx" = go "openfrps") as Heq; [|by vm_compute in Heq].
    apply (proj1 (checkPorts_listing (vhost_options 80) listed ss_header [nginx_row] Hh eq_refl Hr eq_refl) Hok 80);
      [apply (bool_decide_unpack _); vm_compute; exact I|reflexivity].
  - apply (checkPorts_listing (vhost_options 8080) listed ss_header [nginx_row] Hh eq_refl Hr eq_refl).
    intros port holder Hin Hho. change (row_process <$> (if 80 =? port then Some nginx_row else None) = Some holder) in Hho.
    destruct (80 =? port) eqn:Ep; [|discriminate Hho].
    apply Z.eqb_eq in Ep as <-. exfalso. revert Hin. apply (bool_decide_unpack _). vm_compute. exact I.
Defined.

#[local] Existing Instance no_unicode.
#[local] Existing Instance ascii_idna.
#[local] Existing Instance no_x509.
#[local] Existing Instance example_json.

Definition deployed_server (token : string) : State := Server.New (Config.MkServer (go "0.0.0.0") 7000 (go token) 0 0 8 1).

Lemma transmissible_by_name m name : Marshal m = Some name -> Z.of_nat (length name) <= MaxMessageSize -> Unmarshal (Type_ m) name = Some m -> transmissible m.
Proof. intros H1 H2 H3. by exists name. Qed.

Lemma handshake_meets_server_witness :
  let check := fun token => handshake_on (MkConn None (Writer [] None)
    (server_reply no_text 7 7 (time_Unix 1700000060) (Some (go "run")) (go "192.0.2.1") (go "1.0") (deployed_server token))) (go "tok") 1700000000 in
  check "tok"%string = Ok tt /\ check "other"%string = Err (ErrRejected (go "authentication failed")).
Proof.
  intros check.
  assert (transmissible (MLogin (verify_login (go "tok") 1700000000))) as Hl
    by (apply (transmissible_by_name _ (go "login")); [reflexivity|vm_compute; congruence|reflexivity]).
  assert (transmissible (MLoginResp (MkLoginResp (go "192.0.2.1") Version (go "run") (go "1.0") []))) as Hok
    by (apply (transmissible_by_name _ (go "yes")); [reflexivity|vm_compute; congruence|reflexivity]).
  assert (transmissible (MLoginResp (refusal (go "authentication failed")))) as Hno
    by (apply (transmissible_by_name _ (go "no")); [reflexivity|vm_compute; congruence|reflexivity]).
  split.
  - apply (handshake_meets_server no_text (go "tok") 1700000000 7 7 (time_Unix 1700000060) (go "run") (go "192.0.2.1") (go "1.0") (deployed_server "tok"));
      [vm_compute; split; congruence|vm_compute; congruence|exact Hl|exact Hok|exact Hno|reflexivity].
  - apply (handshake_meets_server no_text (go "tok") 1700000000 7 7 (time_Unix 1700000060) (go "run") (go "192.0.2.1") (go "1.0") (deployed_server "other"));
      [vm_compute; split; congruence|vm_compute; congruence|exact Hl|exact Hok|exact Hno|vm_compute; congruence|vm_compute; congruence].
Defined.
End example.
