(* ===== verification/CfTunnel.v ===== *)
(** Publishing through a Cloudflare tunnel: [internal/cloudflare] (config.go,
    credential.go, zone.go, withdraw.go, cli.go, install.go) and the [apply]
    of [cmd/openfrpc/cmd/cftunnel.go].

    The [cloudflared] program is a parameter: what a run of it prints, and
    whether it works.  PEM and base64 are the class [CertFile]; Cloudflare's
    API is behind [Http.Service].  Texts are UTF-8: what the code does rune by
    rune is written on bytes. *)
From S2P Require Import Pattern Update Config Prelude GoStrings Url Http Client.

Inductive cferr : Type :=
  | ErrText (text : bytes)
  | ErrDisk (e : perr).

(** ** The rules (config.go) *)

Record Rule := MkRule { Hostname : bytes; rule_Service : bytes }.

#[export] Instance Rule_eq_dec : EqDecision Rule.
Proof. solve_decision. Defined.

Definition serviceURL (t : Tunnel) : bytes :=
  go "http://" ++ JoinHostPort (default_bytes (LocalIP t) (go "127.0.0.1")) (Itoa (LocalPort t)).

(** [strings.Count(hostname, ".") + 1], and whether it is a wildcard. *)
Definition labels (hostname : bytes) : Z := Z.of_nat (count_occ byte_eq_dec hostname x2e) + 1.
Definition is_wildcard (hostname : bytes) : bool := HasPrefix hostname (go "*.").
Definition specificity (hostname : bytes) : Z := if is_wildcard hostname then labels hostname else labels hostname + 1000.

(** [sort.SliceStable], the most specific first: by insertion, a rule before
    those of its specificity that came after it. *)
Fixpoint insert_rule (r : Rule) (l : list Rule) : list Rule :=
  match l with
  | [] => [r]
  | x :: l' => if specificity (Hostname x) <=? specificity (Hostname r) then r :: l else x :: insert_rule r l'
  end.
Definition sort_rules (l : list Rule) : list Rule := foldr insert_rule [] l.

Definition publishable (t : Tunnel) : bool := bool_decide (tn_Type t = TunnelHTTP) || bool_decide (tn_Type t = TunnelHTTPS).

Definition rules_of (t : Tunnel) : list Rule :=
  if Enabled t && publishable t then (fun d => MkRule d (serviceURL t)) <$> tn_Domains t else [].

(** What is said of an enabled tunnel that gives no rule. *)
Definition skipped_of (t : Tunnel) : list bytes :=
  if negb (Enabled t) then []
  else if negb (publishable t) then [tn_Name t ++ go " (" ++ tn_Type t ++ go ")"]
  else if bool_decide (tn_Domains t = []) then [tn_Name t ++ go " (no domain)"]
  else [].

Definition RulesFor (tunnels : list Tunnel) : list Rule * list bytes :=
  (sort_rules (tunnels ≫= rules_of), tunnels ≫= skipped_of).

(** ** The configuration of [cloudflared] *)

Definition quote_char (c : byte) : bytes :=
  if bool_decide (c = x22) then [x5c; x22]
  else if bool_decide (c = x5c) then [x5c; x5c]
  else if bool_decide (c = x0a) then [x5c; x6e]
  else [c].
Definition quote (value : bytes) : bytes := [x22] ++ concat (quote_char <$> value) ++ [x22].

Definition rule_lines (r : Rule) : bytes :=
  go "  - hostname: " ++ quote (Hostname r) ++ [x0a] ++ go "    service: " ++ quote (rule_Service r) ++ [x0a].

Definition RenderConfig (tunnelID credentialsPath : bytes) (rules : list Rule) : bytes :=
  go "# Generated by openfrp. Edits are overwritten." ++ [x0a]
  ++ go "tunnel: " ++ quote tunnelID ++ [x0a]
  ++ go "credentials-file: " ++ quote credentialsPath ++ [x0a]
  ++ go "loglevel: info" ++ [x0a] ++ go "no-autoupdate: true" ++ [x0a] ++ go "ingress:" ++ [x0a]
  ++ concat (rule_lines <$> rules)
  ++ go "  - service: http_status:404" ++ [x0a].

(** ** The credential of a login (credential.go) *)

Class CertFile := {
  pem_Decode : bytes -> option (bytes * bytes) * bytes;   (* the type and the bytes of a block, and the rest *)
  base64_Decode : bytes -> option bytes
}.

Record Credential := MkCredential { ZoneID : bytes; AccountID : bytes; APIToken : bytes }.

Definition tokenBlock : bytes := go "ARGO TUNNEL TOKEN".

Definition decode_credential `{JsonText} (b : bytes) : option Credential :=
  j ← json_parse b;
  as_struct (fun fields =>
    zone ← field "zoneID" as_string fields;
    account ← field "accountID" as_string fields;
    token ← field "apiToken" as_string fields;
    Some (MkCredential zone account token)) j.

(** One block after the other; [fuel] is more than there can be. *)
Fixpoint credential_in `{CertFile} `{JsonText} (fuel : nat) (rest : bytes) : res cferr Credential :=
  match fuel with
  | O => Err (ErrText (go "cloudflare: the login credential carries no " ++ tokenBlock ++ go " block"))
  | S fuel =>
      match pem_Decode rest with
      | (None, _) => Err (ErrText (go "cloudflare: the login credential carries no " ++ tokenBlock ++ go " block"))
      | (Some (kind, body), rest) =>
          if negb (bool_decide (kind = tokenBlock)) then credential_in fuel rest
          else
            match (match decode_credential body with
                   | Some c => Some c
                   | None => base64_Decode (TrimSpace body) ≫= decode_credential
                   end) with
            | None => Err (ErrText (go "cloudflare: the login credential holds a token this cannot read"))
            | Some c =>
                if bool_decide (ZoneID c = []) || bool_decide (APIToken c = [])
                then Err (ErrText (go "cloudflare: the login credential names no zone; authorise again and pick a domain rather than the whole account"))
                else Ok c
            end
      end
  end.
Definition parseCredential `{CertFile} `{JsonText} (raw : bytes) : res cferr Credential := credential_in (S (length raw)) raw.

(** ** The zone (zone.go) *)

Definition api : bytes := go "https://api.cloudflare.com/client/v4".
Definition EdgeSuffix : bytes := go ".cfargotunnel.com".

Record envelope := MkEnvelope { Success : bool; Errors : list (Z * bytes) }.

Definition envelope_err (e : envelope) : res cferr unit :=
  if Success e then Ok tt
  else match Errors e with
       | [] => Err (ErrText (go "cloudflare: the request was refused with no reason given"))
       | errors => Err (ErrText (go "cloudflare: " ++ Join ((fun item => Itoa item.1 ++ go ": " ++ item.2) <$> errors) (go "; ")))
       end.

Definition decode_envelope : json -> option envelope :=
  as_struct (fun fields =>
    success ← field "success" as_bool fields;
    errors ← field "errors" (as_list (as_struct (fun item =>
      code ← field "code" as_int item; message ← field "message" as_string item; Some (code, message)))) fields;
    Some (MkEnvelope success errors)).

Definition with_result {A} (decode : json -> option A) (j : json) : option A :=
  _ ← decode_envelope j; as_struct (field "result" decode) j.

(** A record as a listing shows it: its id, type and content. *)
Definition decode_records : json -> option (list (bytes * bytes * bytes)) :=
  as_list (as_struct (fun fields =>
    id ← field "id" as_string fields; kind ← field "type" as_string fields; content ← field "content" as_string fields;
    Some (id, kind, content))).

Definition zone_url (c : Credential) : bytes := api ++ go "/zones/" ++ PathEscape (ZoneID c).
Definition list_url (c : Credential) (name : bytes) : bytes := zone_url c ++ go "/dns_records?name=" ++ QueryEscape name.
Definition record_url (c : Credential) (id : bytes) : bytes := zone_url c ++ go "/dns_records/" ++ PathEscape id.

(** The request [call] makes. *)
Definition call_wire (c : Credential) (method url : bytes) : wire :=
  MkWire method url (Header_Set ∅ (go "Authorization") (go "Bearer " ++ APIToken c)) [].

Section zone.
Context `{U : Unicode} `{JT : JsonText} {S : Type} `{Sv : Service S}.

(** A call up to its checked answer. *)
Definition call_payload (c : Credential) (method url : bytes) (s : S) : res cferr json * S :=
  if bool_decide (Parse url = None) then (Err (ErrText (go "parse " ++ url)), s)
  else
    match exchange (call_wire c method url) s with
    | (Err text, s) => (Err (ErrText (go "cloudflare: " ++ method ++ go ": " ++ text)), s)
    | (Ok resp, s) =>
        match a_Read resp with
        | Err text => (Err (ErrText text), s)
        | Ok _ =>
            match (j ← json_parse (limited 1048576 (a_Body resp)); e ← decode_envelope j; Some (j, e)) with
            | None => (Err (ErrText (go "cloudflare: " ++ method ++ go " returned " ++ Itoa (StatusCode resp))), s)
            | Some (j, e) => (match envelope_err e with Err e => Err e | Ok _ => Ok j end, s)
            end
        end
    end.

Definition call_nil (c : Credential) (method url : bytes) (s : S) : res cferr unit * S :=
  let '(r, s) := call_payload c method url s in (match r with Ok _ => Ok tt | Err e => Err e end, s).

Definition call {A} (c : Credential) (method url : bytes) (decode : json -> option A) (s : S) : res cferr A * S :=
  let '(r, s) := call_payload c method url s in
  (match r with
   | Ok j => match with_result decode j with Some a => Ok a | None => Err (ErrText (go "json: cannot unmarshal")) end
   | Err e => Err e
   end, s).

Definition ZoneName (c : Credential) (s : S) : res cferr bytes * S :=
  let '(r, s) := call c (go "GET") (zone_url c) (as_struct (field "name" as_string)) s in
  (name ← r; if bool_decide (name = []) then Err (ErrText (go "cloudflare: zone " ++ ZoneID c ++ go " has no name")) else Ok name, s).

(** A record that points into a tunnel of Cloudflare, whichever it is. *)
Definition tunnel_record (kind content : bytes) : bool := bool_decide (kind = go "CNAME") && HasSuffix content EdgeSuffix.

Definition record_name (hostname : bytes) : bytes := TrimSuffix (ToLower hostname) (go ".").

(** Whether a record was deleted: the first that points into a tunnel. *)
Definition DeleteRecord (c : Credential) (hostname : bytes) (s : S) : res cferr bool * S :=
  match call c (go "GET") (list_url c (record_name hostname)) decode_records s with
  | (Err e, s) => (Err e, s)
  | (Ok listed, s) =>
      match find (fun r => tunnel_record r.1.2 r.2) listed with
      | None => (Ok false, s)
      | Some (id, _, _) =>
          let '(r, s) := call_nil c (go "DELETE") (record_url c id) s in
          (match r with Ok _ => Ok true | Err e => Err e end, s)
      end
  end.
End zone.

(** ** Withdrawing (withdraw.go) *)

(** The file of what was published, by server. *)
Inductive routed_file : Type :=
  | Absent
  | Unreadable (e : bytes)
  | Holds (raw : bytes).

(** A nil map, which cannot be written to, or a map. *)
Inductive routed : Type := NilMap | Routed (m : gmap bytes (list bytes)).

Definition lookup_routed (server : bytes) (r : routed) : list bytes :=
  match r with NilMap => [] | Routed m => m !!! server end.

Section routed.
Context `{JT : JsonText}.

(** [json.Unmarshal] into a [map[string][]string]; a later key of the same name
    replaces the value of an earlier one. *)
Definition decode_routed (raw : bytes) : option routed :=
  j ← json_parse raw;
  match j with
  | JNull => Some NilMap
  | JObject fields =>
      m ← foldl (fun acc f => acc ← acc; names ← as_list as_string f.2; Some (<[f.1 := names]> acc)) (Some ∅) fields;
      Some (Routed m)
  | _ => None
  end.

Definition readRouted (f : routed_file) : res bytes routed :=
  match f with
  | Absent => Ok (Routed ∅)
  | Unreadable e => Err e
  | Holds raw => Ok (default (Routed ∅) (decode_routed raw))
  end.

Definition routed_json (m : gmap bytes (list bytes)) : json := map_json ((fun names => JArray (JString <$> names)) <$> m).
End routed.

(** The directory of [cloudflared] and what is behind the API: [saves] says
    whether the file can be written. *)
Record Place (S : Type) := MkPlace { service : S; cert_pem : res bytes bytes; routes : routed_file; saves : bool }.
Arguments MkPlace {S} _ _ _ _.
Arguments service {S} _.
Arguments cert_pem {S} _.
Arguments routes {S} _.
Arguments saves {S} _.

Section withdraw.
Context `{U : Unicode} `{JT : JsonText} `{CertFile} {S : Type} `{Sv : Service S}.

Definition ReadCredential (p : Place S) : res cferr Credential :=
  match cert_pem p with Err e => Err (ErrText (go "cloudflare: " ++ e)) | Ok raw => parseCredential raw end.

Definition stale_names (previous : list bytes) (current : list Rule) : list bytes :=
  filter (fun h => h ∉ Hostname <$> current) previous.

(** The names withdrawn, in their order. *)
Fixpoint withdraw_all (c : Credential) (stale : list bytes) (s : S) : list bytes * S :=
  match stale with
  | [] => ([], s)
  | h :: stale =>
      let '(r, s) := DeleteRecord c h s in
      let '(rest, s) := withdraw_all c stale s in
      (match r with Ok _ => h :: rest | Err _ => rest end, s)
  end.

(** [Withdraw]: [None] is a panic. *)
Definition Withdraw (server : bytes) (current : list Rule) (p : Place S) : option (list bytes) * Place S :=
  match readRouted (routes p) with
  | Err _ => (Some [], p)
  | Ok previous =>
      let stale := stale_names (lookup_routed server previous) current in
      let '(withdrawn, s) :=
        match stale, ReadCredential p with
        | [], _ => ([], service p)
        | _, Err _ => ([], service p)
        | _, Ok c => withdraw_all c stale (service p)
        end in
      match previous with
      | NilMap => (None, MkPlace s (cert_pem p) (routes p) (saves p))
      | Routed m =>
          let m := <[server := SortStrings (Hostname <$> current)]> m in
          (Some withdrawn,
           MkPlace s (cert_pem p) (if saves p then Holds (json_text (routed_json m)) else routes p) (saves p))
      end
  end.
End withdraw.

(** ** The command line of [cloudflared] (cli.go) *)

Record CLI := MkCLI { Binary : bytes; cli_Dir : bytes }.

Definition configDir (c : CLI) : bytes := Join2 (cli_Dir c) (go ".cloudflared").
Definition CertPath (c : CLI) : bytes := Join2 (configDir c) (go "cert.pem").
Definition CredentialsPath (c : CLI) (tunnelID : bytes) : bytes := Join2 (configDir c) (tunnelID ++ go ".json").
Definition cf_ConfigPath (c : CLI) (server : bytes) : bytes := Join2 (cli_Dir c) (go "config-" ++ server ++ go ".yml").

Definition section_char (c : byte) : bool := is_alnum c || bool_decide (c = x5f).
Definition validSection (name : bytes) : bool := negb (bool_decide (name = [])) && forallb section_char name.

Definition lastLines (message : bytes) (n : nat) : bytes :=
  let lines := Split (TrimSpace message) x0a in
  if (length lines <=? n)%nat then Join lines (go "; ") else Join (drop (length lines - n) lines) (go "; ").

(** What a run of the program prints, and its error. *)
Class Cloudflared := { combined_output : list bytes -> bytes * option bytes }.

(** [filepath.Base] of the path of a program. *)
Definition Base (path : bytes) : bytes := default path (last (Split path x2f)).

Section cli.
Context `{Cloudflared}.

Definition run (c : CLI) (args : list bytes) : res cferr bytes :=
  match combined_output args with
  | (out, None) => Ok out
  | (out, Some e) =>
      let message := let m := TrimSpace out in if bool_decide (m = []) then e else m in
      Err (ErrText (go "cloudflare: " ++ Base (Binary c) ++ go " " ++ Join args (go " ") ++ go ": " ++ lastLines message 4))
  end.

Definition cf_Route (c : CLI) (id hostname : bytes) : res cferr unit :=
  match run c [go "tunnel"; go "route"; go "dns"; go "--overwrite-dns"; id; hostname] with
  | Ok _ => Ok tt
  | Err (ErrText e) =>
      if HasPrefix hostname (go "*.") then
        Err (ErrText (e ++ go " " ++ [xe2; x80; x94] ++ go " a proxied wildcard record is not available on every Cloudflare plan, so "
                      ++ hostname ++ go " may have to be listed as individual names instead"))
      else Err (ErrText e)
  | Err e => Err e
  end.

Definition NamedTunnel : Type := bytes * bytes.

Definition List `{JsonText} (c : CLI) : res cferr (list NamedTunnel) :=
  out ← run c [go "tunnel"; go "--output"; go "json"; go "list"];
  match (json_parse out ≫= as_list (as_struct (fun f => id ← field "id" as_string f; name ← field "name" as_string f; Some (id, name)))) with
  | Some l => Ok l
  | None => Err (ErrText (go "cloudflare: could not read the tunnel list"))
  end.

Definition Find `{JsonText} (c : CLI) (name : bytes) : res cferr (option NamedTunnel) :=
  l ← List c; Ok (find (fun t => bool_decide (t.2 = name)) l).

(** [\S+]: the bytes that are not white space to a regular expression. *)
Definition regexp_space (c : byte) : bool := ContainsByte [x09; x0a; x0c; x0d; x20] c.
Fixpoint span_word (s : bytes) : bytes * bytes :=
  match s with
  | c :: r => if regexp_space c then ([], s) else let '(w, k) := span_word r in (c :: w, k)
  | [] => ([], [])
  end.

(** [Created tunnel \S+ with id (\S+)] at the start of a text, and anywhere. *)
Definition created_here (s : bytes) : option bytes :=
  match CutPrefix s (go "Created tunnel ") with
  | (r, true) =>
      match span_word r with
      | (_ :: _, r) => match CutPrefix r (go " with id ") with
                       | (r, true) => match span_word r with ([], _) => None | (id, _) => Some id end
                       | _ => None
                       end
      | _ => None
      end
  | _ => None
  end.
Fixpoint createdTunnel (s : bytes) : option bytes :=
  match created_here s, s with
  | Some id, _ => Some id
  | None, _ :: r => createdTunnel r
  | None, [] => None
  end.

Definition Create (c : CLI) (name : bytes) : res cferr (NamedTunnel * bytes) :=
  out ← run c [go "tunnel"; go "create"; name];
  match createdTunnel out with
  | None => Err (ErrText (go "cloudflare: the tunnel was created but its id could not be read from: " ++ TrimSpace out))
  | Some id => Ok ((id, name), CredentialsPath c id)
  end.

Definition cf_Delete (c : CLI) (id : bytes) : res cferr unit := _ ← run c [go "tunnel"; go "delete"; go "--force"; id]; Ok tt.
End cli.

(** The link a line of [tunnel login] shows. *)
Fixpoint loginURL (s : bytes) : option bytes :=
  match CutPrefix s (go "https://dash.cloudflare.com/argotunnel"), s with
  | (r, true), _ => Some (go "https://dash.cloudflare.com/argotunnel" ++ (span_word r).1)
  | _, _ :: r => loginURL r
  | _, [] => None
  end.

(** The link shown, once, and the lines passed on. *)
Fixpoint login_lines (lines : list bytes) (url : option bytes) : option bytes * list bytes :=
  match lines with
  | [] => (url, [])
  | line :: lines =>
      match loginURL line with
      | Some u => login_lines lines (match url with None => Some u | _ => url end)
      | None =>
          let '(url, said) := login_lines lines url in
          (url, if bool_decide (TrimSpace line = []) then said else line :: said)
      end
  end.

(** [WriteConfig] on a directory given by its files. *)
Definition WriteConfig (c : CLI) (server tunnelID credentialsPath : bytes) (rules : list Rule) (writes : bool) (files : gmap bytes bytes)
  : res cferr bytes * gmap bytes bytes :=
  if negb (validSection server) then (Err (ErrText (go "cloudflare: not a usable server name")), files)
  else
    let path := cf_ConfigPath c server in
    if writes then (Ok path, <[path := RenderConfig tunnelID credentialsPath rules]> files)
    else (Err (ErrText (go "cloudflare: " ++ path)), files).

(** ** Applying a configuration ([cfApply] of cftunnel.go) *)

Section apply.
Context `{U : Unicode} `{NetText : ProxyProto.NetText} `{JT : JsonText} `{CertFile} `{Cloudflared} {S : Type} `{Sv : Service S}.

(** [LoggedIn]: the credential is there and not empty. *)
Definition LoggedIn (p : Place S) : bool := match cert_pem p with Ok (_ :: _) => true | _ => false end.

(** The names that could not be routed, with their errors. *)
Fixpoint route_all (c : CLI) (id : bytes) (rules : list Rule) : list cferr :=
  match rules with
  | [] => []
  | r :: rules => match cf_Route c id (Hostname r) with Ok _ => route_all c id rules | Err e => e :: route_all c id rules end
  end.

Record applied := MkApplied { ap_config : bytes; ap_hostnames : nat; ap_withdrawn : list bytes; ap_failures : list cferr }.

(** [client] is the configuration as [LoadClient] read it; a result with
    failures is the error that lists them. *)
Definition cfApply (c : CLI) (client : res cfgerr Config.Client) (server : bytes) (writes : bool)
  (files : gmap bytes bytes) (p : Place S) : res cferr (option applied) * gmap bytes bytes * Place S :=
  if negb (LoggedIn p) then (Err (ErrText (go "cftunnel: this router is not authorised with Cloudflare yet")), files, p)
  else
    match client with
    | Err _ => (Err (ErrText (go "cftunnel: the configuration does not load")), files, p)
    | Ok client =>
        match Upstream_named server client with
        | None => (Err (ErrText (go "cftunnel: no server of that name")), files, p)
        | Some u =>
            if bool_decide (TunnelID u = []) then (Err (ErrText (go "cftunnel: the server has no Cloudflare tunnel yet")), files, p)
            else
              let rules := (RulesFor (TunnelsFor (u_Name u) client)).1 in
              match WriteConfig c (u_Name u) (TunnelID u) (CredentialsPath c (TunnelID u)) rules writes files with
              | (Err e, files) => (Err e, files, p)
              | (Ok path, files) =>
                  let failures := route_all c (TunnelID u) rules in
                  match Withdraw (u_Name u) rules p with
                  | (None, p) => (Ok None, files, p)
                  | (Some withdrawn, p) => (Ok (Some (MkApplied path (length rules) withdrawn failures)), files, p)
                  end
              end
        end
    end.
End apply.

(** ** Installing [cloudflared] (install.go) *)

Definition release_url : bytes := go "https://github.com/cloudflare/cloudflared/releases/latest/download/cloudflared-linux-{arch}".

(** [string] of a byte is the character of that number. *)
Definition string_of_byte (c : byte) : bytes :=
  if b2z c <? 128 then [c] else [z2b (192 + b2z c / 64); z2b (128 + b2z c mod 64)].

Fixpoint replaceArch_from (skip : nat) (template arch : bytes) : bytes :=
  match template with
  | [] => []
  | c :: r =>
      match skip with
      | Datatypes.S k => replaceArch_from k r arch
      | O => if HasPrefix template (go "{arch}") then arch ++ replaceArch_from 5 r arch else string_of_byte c ++ replaceArch_from 0 r arch
      end
  end.
Definition replaceArch (template arch : bytes) : bytes := replaceArch_from 0 template arch.
Definition DownloadURL (arch : bytes) : bytes := replaceArch release_url arch.
Definition Supported (arch : bytes) : bool := bool_decide (arch ∈ [go "amd64"; go "arm64"; go "arm"; go "386"]).

(** [os.MkdirAll]. *)
Definition cf_MkdirAll (dir : bytes) : fs unit := Update.call "mkdir" dir (fun d => foldl make_missing d (chain dir)).

(** [download]: [body] is what the release answers, [None] when it answers
    nothing useful; [cut] when the body ends before its time. *)
Definition download (body : option (bytes * bool)) (path : bytes) : fs unit :=
  match body with
  | None => raise ErrDownload
  | Some (body, cut) =>
      _ ← cf_MkdirAll (Dir path);
      let temporary := path ++ go ".new" in
      _ ← OpenFile temporary ExecMode;
      _ ← or_else (_ ← Copy temporary body; if cut : bool then raise (ErrIO (go "read") path) else mret tt)
            (fun e => _ ← (fun d => (Ok tt, (Close temporary d).2)); _ ← Update.Remove temporary; raise e);
      _ ← or_else (Close temporary) (fun e => _ ← Update.Remove temporary; raise e);
      Update.Rename temporary path
  end.

(** [usable]: the file is there, is not empty, and runs, as it is at that
    moment. *)
Definition usable (runs : file -> bool) (path : bytes) (d : Disk) : bool :=
  match files d !! path with Some f => negb (bool_decide (content f = [])) && runs f | None => false end.

(** [runs n] is what the [n]th run of a file with [--version] comes to. *)
Definition Install (runs : nat -> file -> bool) (body : option (bytes * bool)) (path : bytes) : fs unit := fun d =>
  if usable (runs 0%nat) path d then (Ok tt, d)
  else match download body path d with
       | (Err e, d) => (Err e, d)
       | (Ok _, d) => if usable (runs 1%nat) path d then (Ok tt, d) else (Err ErrDoesNotRun, d)
       end.

Example urls :
  DownloadURL (go "arm64") = go "https://github.com/cloudflare/cloudflared/releases/latest/download/cloudflared-linux-arm64"
  /\ createdTunnel (go "x Created tunnel home with id 6ff42ae2-765d and more") = Some (go "6ff42ae2-765d")
  /\ login_lines [go "open https://dash.cloudflare.com/argotunnel?x=1 now"; []; go "done"] None
     = (Some (go "https://dash.cloudflare.com/argotunnel?x=1"), [go "done"]).
Proof. by vm_compute. Qed.

(** ** Setting up ([cfSetup] and [cfStatus] of cftunnel.go, [Login] of cli.go) *)

(** A run of [cloudflared tunnel login]: an error to start it, or the lines it
    prints and its error; whether its time ran out; and the credential it leaves. *)
Record login_run := MkLoginRun {
  lr_MkdirAll : option bytes;
  lr_output : res bytes (list bytes * option bytes);
  lr_late : bool;
  lr_cert : res bytes bytes
}.

Section setup.
Context `{U : Unicode} `{JT : JsonText} `{CertFile} `{Cloudflared} {S : Type} `{Sv : Service S}.

(** The link that was shown, and the error. *)
Definition Login (c : CLI) (l : login_run) (p : Place S) : res cferr unit * option bytes * Place S :=
  match lr_MkdirAll l with
  | Some e => (Err (ErrText (go "cloudflare: " ++ cli_Dir c ++ go ": " ++ e)), None, p)
  | None =>
      match lr_output l with
      | Err e => (Err (ErrText (go "cloudflare: running " ++ Binary c ++ go ": " ++ e)), None, p)
      | Ok (lines, ended) =>
          let '(url, _) := login_lines lines None in
          let p := MkPlace (service p) (lr_cert l) (routes p) (saves p) in
          match ended with
          | Some e =>
              (Err (ErrText (if lr_late l then go "cloudflare: nobody completed the authorisation within 10m0s"
                             else go "cloudflare: authorisation failed: " ++ e)), url, p)
          | None =>
              if LoggedIn p then (Ok tt, url, p)
              else (Err (ErrText (go "cloudflare: the authorisation finished without leaving a credential at " ++ CertPath c)), url, p)
          end
      end
  end.

Record setup_result := MkSetup { tunnel_id : bytes; tunnel_name : bytes; setup_zone : bytes; setup_binary : bytes; setup_dir : bytes }.

Definition FindOrCreate (c : CLI) (name : bytes) : res cferr NamedTunnel :=
  found ← Find c name;
  match found with
  | Some t => Ok t
  | None => '(t, _) ← Create c name; Ok t
  end.

(** The zone is empty when it cannot be read. *)
Definition authorised_zone (p : Place S) : bytes * Place S :=
  match ReadCredential p with
  | Err _ => ([], p)
  | Ok credential =>
      let '(r, s) := ZoneName credential (service p) in
      (match r with Ok name => name | Err _ => [] end, MkPlace s (cert_pem p) (routes p) (saves p))
  end.

Definition cfSetup (c : CLI) (arch name : bytes) (runs : nat -> file -> bool) (body : option (bytes * bool)) (l : login_run)
  (d : Disk) (p : Place S) : res cferr setup_result * Disk * Place S :=
  if bool_decide (TrimSpace name = []) then (Err (ErrText (go "cftunnel: setup needs -name")), d, p)
  else if negb (Supported arch) then
    (Err (ErrText (go "cftunnel: Cloudflare publishes no cloudflared build for " ++ arch ++ go ", so this router cannot run a tunnel of theirs")), d, p)
  else
    match Install runs body (Binary c) d with
    | (Err e, d) => (Err (ErrDisk e), d, p)
    | (Ok _, d) =>
        match (if LoggedIn p then (Ok tt, p) else let '(r, _, p) := Login c l p in (r, p)) with
        | (Err e, p) => (Err e, d, p)
        | (Ok _, p) =>
            match FindOrCreate c name with
            | Err e => (Err e, d, p)
            | Ok (id, tunnel) =>
                let '(zone, p) := authorised_zone p in
                (Ok (MkSetup id tunnel zone (Binary c) (cli_Dir c)), d, p)
            end
        end
    end.

(** Whether the program is there and the login done, and the tunnels there are. *)
Definition cfStatus (c : CLI) (d : Disk) (p : Place S) : bool * bool * option (list NamedTunnel) :=
  (match files d !! Binary c with Some f => negb (bool_decide (content f = [])) | None => false end,
   LoggedIn p,
   if LoggedIn p then match List c with Ok l => Some l | Err _ => None end else None).

(** After a setup that succeeds the status is all there, and [apply] gets past
    its first guard. *)
Lemma cfSetup_ready c arch name runs body l d p r d' p' :
  cfSetup c arch name runs body l d p = (Ok r, d', p') ->
  (exists n, usable (runs n) (Binary c) d' = true) /\ LoggedIn p' = true /\ routes p' = routes p /\ tunnel_name r = name
  /\ (exists listed, List c = Ok listed /\ ((tunnel_id r, name) ∈ listed \/ name ∉ listed.*2)).
Proof.
  unfold cfSetup. case_bool_decide; [done|]. destruct (Supported arch); [|done]. cbn [negb].
  destruct (Install runs body (Binary c) d) as [[[]|e] d1] eqn:Ei; [|done].
  assert (exists n, usable (runs n) (Binary c) d1 = true) as Hu.
  { revert Ei. unfold Install. destruct (usable (runs 0%nat) (Binary c) d) eqn:E; [intros [= <-]; by exists 0%nat|].
    destruct (download body (Binary c) d) as [[[]|e] d2]; [|done].
    destruct (usable (runs 1%nat) (Binary c) d2) eqn:E2; [intros [= <-]; by exists 1%nat|done]. }
  set (login := if LoggedIn p then _ else _). assert (forall p1, login = (Ok tt, p1) -> LoggedIn p1 = true /\ routes p1 = routes p) as Hl.
  { subst login. intros p1. destruct (LoggedIn p) eqn:E; [by intros [= <-]|]. unfold Login.
    destruct (lr_MkdirAll l); [done|]. destruct (lr_output l) as [[lines ended]|]; [|done].
    destruct (login_lines lines None) as [url said]. destruct ended; [done|].
    destruct (LoggedIn (MkPlace _ _ _ _)) eqn:E2; [|done]. by intros [= <-]. }
  destruct login as [[[]|e] p1]; [|done]. destruct (Hl p1 eq_refl) as [Hlog Hr].
  unfold FindOrCreate, Find. destruct (List c) as [listed|e] eqn:El; [|done]. cbn [mbind res_bind].
  destruct (authorised_zone p1) as [zone p2] eqn:Ez.
  assert (LoggedIn p2 = true /\ routes p2 = routes p) as [Hlog2 Hr2].
  { revert Ez. unfold authorised_zone. destruct (ReadCredential p1); [|by intros [= _ <-]].
    destruct (ZoneName _ _) as [rz s]. intros [= _ <-]. done. }
  match goal with |- context [find ?f listed] => destruct (find f listed) as [[i n]|] eqn:Ef end.
  - intros [= <- <- <-]. apply find_some in Ef as [Hin Hn%bool_decide_eq_true_1]. cbn in Hn. subst n.
    split_and!; [done..|]. exists listed. split; [done|]. left. by apply list_elem_of_In.
  - unfold Create. destruct (run c _) as [out|e]; [|done]. cbn [mbind res_bind].
    destruct (createdTunnel out) as [i|]; [|done]. cbn [mbind res_bind]. intros [= <- <- <-]. split_and!; [done..|].
    exists listed. split; [done|]. right. intros (t & -> & Hin)%list_elem_of_fmap. apply list_elem_of_In in Hin.
    pose proof (find_none _ _ Ef t Hin) as Hn. by apply bool_decide_eq_false_1 in Hn.
Qed.
End setup.

(** ** The order of the rules *)

(** Whether a rule takes the requests for a host, as [cloudflared] documents
    it: a wildcard takes every name below it. *)
Definition rule_matches (host : bytes) (r : Rule) : bool :=
  if HasPrefix (Hostname r) (go "*.") then HasSuffix host (drop 1 (Hostname r)) else bool_decide (Hostname r = host).

(** The first rule that matches serves the request. *)
Definition ingress (host : bytes) (rules : list Rule) : option Rule := find (rule_matches host) rules.

Definition spec (r : Rule) : Z := specificity (Hostname r).
Definition before_or_equal (a b : Rule) : Prop := spec b <= spec a.

Lemma insert_rule_perm r l : insert_rule r l ≡ₚ r :: l.
Proof. induction l as [|x l IH]; cbn [insert_rule]; [done|]. case_match; [done|]. rewrite IH. apply Permutation_swap. Qed.

Lemma sort_rules_perm l : sort_rules l ≡ₚ l.
Proof. induction l as [|r l IH]; [done|]. cbn. by rewrite insert_rule_perm, IH. Qed.

Lemma insert_rule_sorted r l : StronglySorted before_or_equal l -> StronglySorted before_or_equal (insert_rule r l).
Proof.
  induction 1 as [|x l Hl IH Hx]; cbn [insert_rule]; [by repeat constructor|]. case_match eqn:E.
  - apply Z.leb_le in E. constructor; [by constructor|]. constructor; [exact E|].
    eapply Forall_impl; [exact Hx|]. intros y Hy. unfold before_or_equal, spec in *. lia.
  - apply Z.leb_gt in E. constructor; [done|]. rewrite insert_rule_perm. constructor; [|done]. unfold before_or_equal, spec. lia.
Qed.

Lemma sort_rules_sorted l : StronglySorted before_or_equal (sort_rules l).
Proof. induction l as [|r l IH]; [constructor|]. by apply insert_rule_sorted. Qed.

(** Rules of one specificity keep their order. *)
Lemma insert_rule_stable k r l : StronglySorted before_or_equal l ->
  filter (fun x => spec x = k) (insert_rule r l) = filter (fun x => spec x = k) (r :: l).
Proof.
  induction 1 as [|x l Hl IH Hx]; cbn [insert_rule]; [done|]. case_match eqn:E; [done|]. apply Z.leb_gt in E.
  rewrite filter_cons, IH, !filter_cons. unfold spec in *. destruct (decide (specificity (Hostname x) = k)), (decide (specificity (Hostname r) = k)); try done. lia.
Qed.

Lemma sort_rules_stable k l : filter (fun x => spec x = k) (sort_rules l) = filter (fun x => spec x = k) l.
Proof.
  induction l as [|r l IH]; [done|]. cbn [sort_rules foldr]. rewrite insert_rule_stable by apply sort_rules_sorted.
  rewrite !filter_cons. fold (sort_rules l). by rewrite IH.
Qed.

Lemma find_filter {A : Type} (f : A -> bool) (P : A -> Prop) `{!forall x, Decision (P x)} (l : list A) :
  (forall x, f x = true -> P x) -> find f (filter P l) = find f l.
Proof.
  intros Hf. induction l as [|x l IH]; [done|]. rewrite filter_cons. cbn [find]. case_decide as Hx; cbn [find]; [by rewrite IH|].
  destruct (f x) eqn:E; [|done]. by destruct Hx; apply Hf.
Qed.

Lemma find_split {A : Type} (f : A -> bool) l x : find f l = Some x -> exists l1 l2, l = l1 ++ x :: l2 /\ f x = true /\ Forall (fun y => f y = false) l1.
Proof.
  induction l as [|y l IH]; [done|]. cbn [find]. destruct (f y) eqn:E.
  - intros [= <-]. by exists [], l.
  - intros (l1 & l2 & -> & Hx & H1)%IH. exists (y :: l1), l2. split; [done|]. split; [done|]. by constructor.
Qed.

Lemma find_here {A : Type} (f : A -> bool) l1 x l2 : f x = true -> Forall (fun y => f y = false) l1 -> find f (l1 ++ x :: l2) = Some x.
Proof. intros Hx. induction 1 as [|y l1 Hy _ IH]; cbn [app find]; [by rewrite Hx|by rewrite Hy]. Qed.

(** The dots of a text and of its end. *)
Lemma labels_suffix a b : b `suffix_of` a -> labels b <= labels a.
Proof. intros [k ->]. unfold labels. rewrite count_occ_app. lia. Qed.

Lemma wildcard_tail h : HasPrefix h (go "*.") = true -> exists k, h = x2a :: x2e :: k /\ drop 1 h = x2e :: k /\ labels (drop 1 h) = labels h.
Proof. intros Hp. unfold HasPrefix in Hp. apply bool_decide_eq_true in Hp as [k ->]. by exists k. Qed.

(** Of two wildcards that take a host, the one with fewer labels is the end of
    the other. *)
Lemma wider_wildcard host h h' :
  HasPrefix h (go "*.") = true -> HasPrefix h' (go "*.") = true ->
  HasSuffix host (drop 1 h) = true -> HasSuffix host (drop 1 h') = true -> labels h' <= labels h ->
  HasSuffix (drop 1 h) (drop 1 h') = true.
Proof.
  intros (k & _ & Hd & Hl)%wildcard_tail (k' & _ & Hd' & Hl')%wildcard_tail. unfold HasSuffix. rewrite !bool_decide_eq_true.
  intros Hs Hs' Hle. destruct (suffix_weak_total (drop 1 h) (drop 1 h') host Hs Hs') as [[x Hx]|H]; [|done].
  destruct x as [|c x]; [by rewrite Hx|]. exfalso.
  rewrite <- Hl, <- Hl', Hx in Hle. rewrite Hd' in Hx. injection Hx as <- _.
  change ((x2e :: x) ++ drop 1 h) with ([x2e] ++ (x ++ drop 1 h)) in Hle. unfold labels in Hle. rewrite !count_occ_app in Hle. cbn in Hle. lia.
Qed.

(** C18: the host names of a tunnel go to the rule that names them best.  Whatever
    tunnels a server has, a request for a host is served by a rule of theirs
    if and only if one takes it.  A wildcard serves only where no rule names
    the host itself, and then it is the deepest that takes it: every other
    that does is for an end of its domain.  Of the rules for one host name the
    first in the configuration serves. *)
Theorem RulesFor_most_specific tunnels host :
  let listed := tunnels ≫= rules_of in
  match ingress host (RulesFor tunnels).1 with
  | Some r =>
      r ∈ listed /\ rule_matches host r = true
      /\ (HasPrefix (Hostname r) (go "*.") = true -> forall r', r' ∈ listed -> rule_matches host r' = true ->
            HasPrefix (Hostname r') (go "*.") = true /\ HasSuffix (drop 1 (Hostname r)) (drop 1 (Hostname r')) = true)
      /\ find (fun x => bool_decide (Hostname x = Hostname r)) listed = Some r
  | None => forall r, r ∈ listed -> rule_matches host r = false
  end.
Proof.
  intros listed. cbn [RulesFor fst]. fold listed. unfold ingress.
  destruct (find (rule_matches host) (sort_rules listed)) as [r|] eqn:E.
  2: { intros r Hin. rewrite <- (sort_rules_perm listed) in Hin. apply (find_none _ _ E). by apply list_elem_of_In. }
  pose proof (find_split _ _ _ E) as (l1 & l2 & Hl & Hr & Hl1).
  assert (r ∈ listed) as Hin by (rewrite <- (sort_rules_perm listed), Hl; set_solver).
  assert (forall r', r' ∈ listed -> rule_matches host r' = true -> specificity (Hostname r') <= specificity (Hostname r)) as Hmax.
  { intros r' Hin' Hr'. rewrite <- (sort_rules_perm listed), Hl in Hin'. pose proof (sort_rules_sorted listed) as Hs. rewrite Hl in Hs.
    apply StronglySorted_app in Hs as (_ & _ & Hs). apply StronglySorted_cons in Hs as [Hs _]. rewrite Forall_forall in Hs, Hl1.
    apply elem_of_app in Hin' as [Hin'|[->|Hin']%elem_of_cons]; [by rewrite (Hl1 _ Hin') in Hr'|lia|by apply Hs]. }
  split_and!; [done|done| |].
  - intros Hw r' Hin' Hr'. specialize (Hmax r' Hin' Hr'). unfold specificity, is_wildcard in Hmax. rewrite Hw in Hmax.
    pose proof Hr as Hm. pose proof Hr' as Hm'. unfold rule_matches in Hm, Hm'. rewrite Hw in Hm.
    destruct (HasPrefix (Hostname r') (go "*.")) eqn:Hw'; [split; [done|by eapply wider_wildcard]|].
    exfalso. apply bool_decide_eq_true in Hm'. rewrite Hm' in Hmax. destruct (wildcard_tail _ Hw) as (_ & _ & _ & Hlab).
    unfold HasSuffix in Hm. apply bool_decide_eq_true in Hm. apply labels_suffix in Hm. lia.
  - assert (forall l : list Rule, find (fun x => bool_decide (Hostname x = Hostname r)) (filter (fun x => spec x = spec r) l)
      = find (fun x => bool_decide (Hostname x = Hostname r)) l) as Hf.
    { intros l. apply find_filter. intros x Hx%bool_decide_eq_true_1. unfold spec. by rewrite Hx. }
    rewrite <- Hf, <- sort_rules_stable, Hf, Hl. apply find_here; [by apply bool_decide_eq_true_2|].
    eapply Forall_impl; [exact Hl1|]. intros y Hy. apply bool_decide_eq_false_2. intros Hh. unfold rule_matches in Hr, Hy.
    rewrite Hh in Hy. congruence.
Qed.

(** ** Reading the configuration back

    As YAML reads it: a double quoted scalar ends at a quote that is not
    escaped, and holds no bare control character. *)

Fixpoint yaml_scalar (s : bytes) : option (bytes * bytes) :=
  match s with
  | [] => None
  | c :: r =>
      if bool_decide (c = x22) then Some ([], r)
      else if bool_decide (c = x5c) then
        match r with
        | d :: r => v ← (if bool_decide (d = x6e) then Some x0a else if bool_decide (d = x22) || bool_decide (d = x5c) then Some d else None);
                    '(t, k) ← yaml_scalar r; Some (v :: t, k)
        | [] => None
        end
      else if b2z c <? 32 then None
      else '(t, k) ← yaml_scalar r; Some (c :: t, k)
  end.

Definition expect (l s : bytes) : option bytes := match CutPrefix s l with (r, true) => Some r | _ => None end.

(** A key, its quoted value, and the end of the line. *)
Definition yaml_line (key s : bytes) : option (bytes * bytes) :=
  r ← expect (key ++ [x22]) s; '(v, r) ← yaml_scalar r; r ← expect [x0a] r; Some (v, r).

Fixpoint yaml_rules (fuel : nat) (s : bytes) : option (list Rule) :=
  match fuel with
  | O => None
  | Datatypes.S fuel =>
      match yaml_line (go "  - hostname: ") s with
      | Some (h, r) => '(v, r) ← yaml_line (go "    service: ") r; rules ← yaml_rules fuel r; Some (MkRule h v :: rules)
      | None => if bool_decide (s = go "  - service: http_status:404" ++ [x0a]) then Some [] else None
      end
  end.

Definition read_config (s : bytes) : option (bytes * bytes * list Rule) :=
  s ← expect (go "# Generated by openfrp. Edits are overwritten." ++ [x0a]) s;
  '(id, s) ← yaml_line (go "tunnel: ") s;
  '(credentials, s) ← yaml_line (go "credentials-file: ") s;
  s ← expect (go "loglevel: info" ++ [x0a] ++ go "no-autoupdate: true" ++ [x0a] ++ go "ingress:" ++ [x0a]) s;
  rules ← yaml_rules (length s) s;
  Some (id, credentials, rules).

(** No control character but the newline. *)
Definition printable (v : bytes) : Prop := Forall (fun c => 32 <= b2z c \/ c = x0a) v.

Lemma yaml_scalar_quoted v k : printable v -> yaml_scalar (concat (quote_char <$> v) ++ x22 :: k) = Some (v, k).
Proof.
  induction 1 as [|c v Hc _ IH]; [done|]. cbn [fmap list_fmap concat]. rewrite <- app_assoc. unfold quote_char at 1.
  case_bool_decide as H1; [subst; cbn [app yaml_scalar]; fold quote_char; cbn; by rewrite IH|].
  case_bool_decide as H2; [subst; cbn [app yaml_scalar]; fold quote_char; cbn; by rewrite IH|].
  case_bool_decide as H3; [subst; cbn [app yaml_scalar]; fold quote_char; cbn; by rewrite IH|].
  cbn [app yaml_scalar]. rewrite !bool_decide_eq_false_2 by done. destruct Hc as [Hc|?]; [|done].
  rewrite (proj2 (Z.ltb_ge _ _)) by done. by rewrite IH.
Qed.

Lemma expect_app l s : expect l (l ++ s) = Some s.
Proof. unfold expect, CutPrefix. rewrite HasPrefix_app, drop_app_length. done. Qed.

Lemma yaml_line_quoted key v k : printable v -> yaml_line key (key ++ quote v ++ [x0a] ++ k) = Some (v, k).
Proof.
  intros Hv. unfold yaml_line, quote. rewrite <- !app_assoc, (app_assoc key [x22]), expect_app. cbn [mbind option_bind].
  change ([x22] ++ [x0a] ++ k) with (x22 :: [x0a] ++ k). rewrite yaml_scalar_quoted by done. cbn [mbind option_bind].
  by rewrite expect_app.
Qed.

Lemma yaml_rules_text fuel rules :
  Forall (fun r => printable (Hostname r) /\ printable (rule_Service r)) rules -> (length rules < fuel)%nat ->
  yaml_rules fuel (concat (rule_lines <$> rules) ++ go "  - service: http_status:404" ++ [x0a]) = Some rules.
Proof.
  intros Hr. revert fuel. induction Hr as [|[h v] rules [Hh Hv] _ IH]; intros fuel Hf; (destruct fuel as [|fuel]; [cbn in Hf; lia|]); [done|].
  cbn [fmap list_fmap concat yaml_rules]. unfold rule_lines at 1. cbn [Hostname rule_Service] in *. rewrite <- !app_assoc.
  rewrite yaml_line_quoted by done. cbn [mbind option_bind]. rewrite yaml_line_quoted by done. cbn [mbind option_bind].
  rewrite IH by (cbn in Hf; lia). done.
Qed.

Lemma length_rules rules : (length rules <= length (concat (rule_lines <$> rules)))%nat.
Proof.
  induction rules as [|r rules IH]; [done|]. cbn [fmap list_fmap concat length]. rewrite length_app.
  unfold rule_lines at 1. rewrite !length_app. cbn. lia.
Qed.

(** Whatever the values hold, the file says what was meant. *)
Lemma RenderConfig_reads_back id credentials rules :
  printable id -> printable credentials -> Forall (fun r => printable (Hostname r) /\ printable (rule_Service r)) rules ->
  read_config (RenderConfig id credentials rules) = Some (id, credentials, rules).
Proof.
  intros Hi Hc Hr. unfold read_config, RenderConfig. rewrite (app_assoc (go "# Generated by openfrp. Edits are overwritten.")), expect_app.
  cbn [mbind option_bind].
  rewrite yaml_line_quoted by done. cbn [mbind option_bind]. rewrite yaml_line_quoted by done. cbn [mbind option_bind].
  set (tail := concat (rule_lines <$> rules) ++ go "  - service: http_status:404" ++ [x0a]).
  assert (expect (go "loglevel: info" ++ [x0a] ++ go "no-autoupdate: true" ++ [x0a] ++ go "ingress:" ++ [x0a])
    (go "loglevel: info" ++ [x0a] ++ go "no-autoupdate: true" ++ [x0a] ++ go "ingress:" ++ [x0a] ++ tail) = Some tail) as He.
  { exact (expect_app (go "loglevel: info" ++ [x0a] ++ go "no-autoupdate: true" ++ [x0a] ++ go "ingress:" ++ [x0a]) tail). }
  subst tail. rewrite He. cbn [mbind option_bind]. rewrite yaml_rules_text; [done|done|].
  rewrite length_app. pose proof (length_rules rules). cbn. lia.
Qed.

(** ** What Cloudflare documents *)

(** The document of an answer that says it succeeded. *)
Definition answered `{JsonText} (a : res bytes answer) : option json :=
  match a with
  | Ok resp =>
      match a_Read resp with
      | Ok _ =>
          j ← json_parse (limited 1048576 (a_Body resp));
          e ← decode_envelope j;
          if Success e then Some j else None
      | Err _ => None
      end
  | Err _ => None
  end.

(** The records of a zone: for an id, a name, a type and a content.  A listing
    of a name shows the records of that name, and only those; a deletion that
    is refused may have been done all the same. *)
Class TunnelDocs (zone : bytes) (S : Type) `{U : Unicode} `{JT : JsonText} `{Sv : Service S} := {
  zone_records : S -> gmap bytes (bytes * bytes * bytes);
  list_doc : forall c name s, ZoneID c = zone ->
    let '(a, s') := exchange (call_wire c (go "GET") (list_url c name)) s in
    zone_records s' = zone_records s
    /\ forall j l, answered a = Some j -> with_result decode_records j = Some l ->
         forall id kind content, (id, kind, content) ∈ l <-> zone_records s !! id = Some (name, kind, content);
  delete_doc : forall c id s, ZoneID c = zone ->
    let '(a, s') := exchange (call_wire c (go "DELETE") (record_url c id)) s in
    (zone_records s' = zone_records s /\ answered a = None) \/ zone_records s' = delete id (zone_records s)
}.

Section tunnel_docs.
Context `{U : Unicode} `{JT : JsonText} `{Cf : CertFile} {S : Type} `{Sv : Service S}.

Lemma call_payload_step c method url s r s' : call_payload c method url s = (r, s') ->
  (s' = s /\ exists e, r = Err e)
  \/ exists a, exchange (call_wire c method url) s = (a, s') /\ forall j, r = Ok j -> answered a = Some j.
Proof.
  unfold call_payload. case_bool_decide; [intros [= <- <-]; left; by eauto|]. destruct (exchange _ s) as [a s1] eqn:Ex.
  intros H1. right. exists a. destruct a as [resp|text]; [|by injection H1 as <- <-].
  unfold answered. destruct (a_Read resp) as [?|text]; [|by injection H1 as <- <-].
  destruct (json_parse _) as [j|]; cbn [mbind option_bind] in *; [|by injection H1 as <- <-].
  destruct (decode_envelope j) as [e|]; cbn [mbind option_bind]; [|by injection H1 as <- <-]. injection H1 as <- <-. split; [done|].
  intros j'. unfold envelope_err. destruct (Success e); [by intros [= <-]|]. by destruct (Errors e).
Qed.

Context (c : Credential) `{Docs : !TunnelDocs (ZoneID c) S}.

(** A record of a name that points into a tunnel, this one or another. *)
Definition into_tunnel (name : bytes) (r : bytes * bytes * bytes) : Prop := r.1.1 = name /\ r.1.2 = go "CNAME" /\ HasSuffix r.2 EdgeSuffix = true.

Lemma tunnel_record_into kind content : tunnel_record kind content = true <-> kind = go "CNAME" /\ HasSuffix content EdgeSuffix = true.
Proof. unfold tunnel_record. rewrite andb_true_iff. by rewrite bool_decide_eq_true. Qed.

(** What a withdrawal of one name does. *)
Lemma DeleteRecord_step h s r s' : DeleteRecord c h s = (r, s') ->
  match r with
  | Ok true => exists id rec, zone_records s !! id = Some rec /\ into_tunnel (record_name h) rec
                             /\ zone_records s' = delete id (zone_records s)
  | Ok false => zone_records s' = zone_records s /\ forall id rec, zone_records s !! id = Some rec -> ~ into_tunnel (record_name h) rec
  | Err _ => zone_records s' = zone_records s
             \/ exists id rec, zone_records s !! id = Some rec /\ into_tunnel (record_name h) rec
                              /\ zone_records s' = delete id (zone_records s)
  end.
Proof.
  unfold DeleteRecord, call. destruct (call_payload c (go "GET") _ s) as [r1 s1] eqn:E1.
  pose proof (list_doc c (record_name h) s eq_refl) as Hl.
  assert (zone_records s1 = zone_records s) as Hs1.
  { apply call_payload_step in E1 as [[-> _]|(a & Hx & _)]; [done|]. rewrite Hx in Hl. exact (proj1 Hl). }
  destruct r1 as [j|e]; [|intros [= <- <-]; by left].
  destruct (with_result decode_records j) as [l|] eqn:El; [|intros [= <- <-]; by left].
  assert (forall id kind content, (id, kind, content) ∈ l <-> zone_records s !! id = Some (record_name h, kind, content)) as Hlist.
  { apply call_payload_step in E1 as [[_ [? ?]]|(a & Hx & Ha)]; [done|]. rewrite Hx in Hl. by apply (proj2 Hl j l (Ha j eq_refl)). }
  destruct (find _ l) as [[[id kind] content]|] eqn:Ef.
  - apply find_some in Ef as [Hin Ht]. apply list_elem_of_In, Hlist in Hin. cbn [fst snd] in Ht. apply tunnel_record_into in Ht.
    unfold call_nil. destruct (call_payload c (go "DELETE") _ s1) as [r2 s2] eqn:E2. intros [= <- <-].
    assert (zone_records s2 = delete id (zone_records s) \/ zone_records s2 = zone_records s /\ exists e, r2 = Err e) as Hd.
    { pose proof (delete_doc c id s1 eq_refl) as Hd. apply call_payload_step in E2 as [[-> He]|(a & Hx & Ha)]; [by right|].
      rewrite Hx, Hs1 in Hd. destruct Hd as [[Hd Hn]|Hd]; [|by left]. right. split; [done|].
      destruct r2 as [j2|e]; [|by exists e]. by rewrite (Ha j2 eq_refl) in Hn. }
    destruct Hd as [Hd|[Hd [e ->]]]; [|by left].
    assert (exists id0 rec, zone_records s !! id0 = Some rec /\ into_tunnel (record_name h) rec /\ zone_records s2 = delete id0 (zone_records s)) as Hdone
      by (exists id, (record_name h, kind, content); by split_and!).
    destruct r2; [exact Hdone|by right].
  - intros [= <- <-]. split; [done|]. intros id [[name kind] content] Hr [Hn Ht%tunnel_record_into]. cbn [fst snd] in *. subst name.
    apply Hlist, list_elem_of_In in Hr. pose proof (find_none _ _ Ef _ Hr) as Hf. cbn [fst snd] in Hf. congruence.
Qed.

(** Nothing is added, and what goes pointed one of the names into a tunnel. *)
Definition only_withdrawn (names : list bytes) (before after : gmap bytes (bytes * bytes * bytes)) : Prop :=
  after ⊆ before
  /\ forall id rec, before !! id = Some rec -> after !! id = None -> exists h, h ∈ names /\ into_tunnel (record_name h) rec.

Lemma only_withdrawn_refl names m : only_withdrawn names m m.
Proof. split; [done|]. intros id rec H1 H2. congruence. Qed.

Lemma only_withdrawn_delete h names m id rec :
  m !! id = Some rec -> into_tunnel (record_name h) rec -> h ∈ names -> only_withdrawn names m (delete id m).
Proof.
  intros Hid Hm Hh. split; [apply delete_subseteq|]. intros id' rec' H1 H2.
  destruct (decide (id' = id)) as [->|Hne]; [|by rewrite lookup_delete_ne in H2; congruence].
  exists h. split; [done|]. congruence.
Qed.

Lemma only_withdrawn_trans names m1 m2 m3 : only_withdrawn names m1 m2 -> only_withdrawn names m2 m3 -> only_withdrawn names m1 m3.
Proof.
  intros [H1 H1'] [H2 H2']. split; [by transitivity m2|]. intros id rec Hid Hn.
  destruct (m2 !! id) as [rec'|] eqn:E; [|by apply (H1' id)]. assert (m1 !! id = Some rec') by (by eapply lookup_weaken).
  apply (H2' id); congruence.
Qed.

Lemma only_withdrawn_weaken names names' m m' : names ⊆ names' -> only_withdrawn names m m' -> only_withdrawn names' m m'.
Proof. intros Hs [H1 H2]. split; [done|]. intros id rec Hid Hn. destruct (H2 id rec Hid Hn) as (h & Hh & Hm). exists h. split; [by apply Hs|done]. Qed.

(** A name has one record of its kind at most, as the DNS has it of CNAMEs. *)
Definition one_each (m : gmap bytes (bytes * bytes * bytes)) : Prop :=
  forall id id' rec rec' name, m !! id = Some rec -> m !! id' = Some rec' -> into_tunnel name rec -> into_tunnel name rec' -> id = id'.

Lemma one_each_weaken m m' : m' ⊆ m -> one_each m -> one_each m'.
Proof. intros Hs Ho id id' rec rec' name H1 H2. eapply Ho; by eapply lookup_weaken. Qed.

Definition gone (name : bytes) (m : gmap bytes (bytes * bytes * bytes)) : Prop := forall id rec, m !! id = Some rec -> ~ into_tunnel name rec.

Lemma gone_weaken name m m' : m' ⊆ m -> gone name m -> gone name m'.
Proof. intros Hs Hg id rec Hid. apply (Hg id). by eapply lookup_weaken. Qed.

Lemma withdraw_all_step stale s names s' : withdraw_all c stale s = (names, s') ->
  only_withdrawn stale (zone_records s) (zone_records s')
  /\ names ⊆ stale
  /\ (one_each (zone_records s) -> forall h, h ∈ names -> gone (record_name h) (zone_records s')).
Proof.
  revert s names s'. induction stale as [|h stale IH]; intros s names s'; cbn [withdraw_all].
  - intros [= <- <-]. split_and!; [apply only_withdrawn_refl|done|]. intros _ h Hh. by apply elem_of_nil in Hh.
  - destruct (DeleteRecord c h s) as [r s1] eqn:Ed. destruct (withdraw_all c stale s1) as [rest s2] eqn:Ew. intros [= <- <-].
    apply DeleteRecord_step in Ed. destruct (IH _ _ _ Ew) as (Hw & Hr & Hg).
    assert (only_withdrawn (h :: stale) (zone_records s) (zone_records s1)) as H1.
    { assert (h ∈ h :: stale) as Hh by apply list_elem_of_here.
      destruct r as [[]|e]; [destruct Ed as (id & rec & Hid & Hm & ->); by eapply only_withdrawn_delete
                            |destruct Ed as [-> _]; apply only_withdrawn_refl|].
      destruct Ed as [->|(id & rec & Hid & Hm & ->)]; [apply only_withdrawn_refl|by eapply only_withdrawn_delete]. }
    split_and!.
    + eapply only_withdrawn_trans; [exact H1|]. eapply only_withdrawn_weaken; [|exact Hw]. intros x Hx. by apply list_elem_of_further.
    + destruct r; [|set_solver]. intros x [->|Hx]%elem_of_cons; [apply list_elem_of_here|apply list_elem_of_further; by apply Hr].
    + intros Ho. specialize (Hg (one_each_weaken _ _ (proj1 H1) Ho)). destruct r as [b|e]; [|exact Hg].
      intros x [->|Hx]%elem_of_cons; [|by apply Hg]. apply (gone_weaken _ _ _ (proj1 Hw)).
      destruct b; [|destruct Ed as [-> Hn]; exact Hn].
      destruct Ed as (id & rec & Hid & Hm & ->). intros id' rec' [Hne Hid']%lookup_delete_Some Hm'. apply Hne. by eapply Ho.
Qed.

Lemma stale_names_spec previous current h : h ∈ stale_names previous current <-> h ∈ previous /\ h ∉ Hostname <$> current.
Proof. unfold stale_names. rewrite list_elem_of_filter. tauto. Qed.

(** C16: withdrawing the names a server no longer publishes, with a credential
    that reads.  Whatever the file of published names holds and whatever the API
    answers, a record goes only if it is a CNAME into a tunnel of Cloudflare
    (this one or any other) for the lower-case form of a name that this server
    published before and does not publish now in the same letters.  Every other
    record stays as it is, and nothing is added.  And a name reported withdrawn
    has no record into a tunnel left, where the zone had one for a name at most,
    as the DNS wants it of CNAMEs. *)
Theorem Withdraw_only_stale server current p raw out p' :
  cert_pem p = Ok raw -> parseCredential raw = Ok c -> Withdraw server current p = (out, p') ->
  zone_records (service p') ⊆ zone_records (service p)
  /\ (forall id rec, zone_records (service p) !! id = Some rec -> zone_records (service p') !! id = None ->
        exists previous h, readRouted (routes p) = Ok previous /\ h ∈ lookup_routed server previous
        /\ h ∉ Hostname <$> current /\ into_tunnel (record_name h) rec)
  /\ (one_each (zone_records (service p)) -> forall names h, out = Some names -> h ∈ names ->
        gone (record_name h) (zone_records (service p'))).
Proof.
  intros Hc Hp. unfold Withdraw. destruct (readRouted (routes p)) as [previous|e].
  2: { intros [= <- <-]. split_and!; [done|intros; congruence|]. intros _ names h [= <-] Hh. by apply elem_of_nil in Hh. }
  set (stale := stale_names (lookup_routed server previous) current). unfold ReadCredential. rewrite Hc, Hp.
  set (step := match stale with [] => _ | _ => _ end).
  assert (exists names s, step = (names, s) /\ withdraw_all c stale (service p) = (names, s)) as (names & s & Hstep & Hw).
  { subst step. destruct stale; [by exists [], (service p)|]. by destruct (withdraw_all c _ (service p)) as [names s]; exists names, s. }
  rewrite Hstep. apply withdraw_all_step in Hw as ([Hsub Hgone] & _ & Hleft). intros Hout.
  assert (service p' = s /\ (out = Some names \/ out = None)) as [-> Hnames].
  { destruct previous; injection Hout as <- <-; cbn [service]; auto. }
  split_and!; [exact Hsub| |].
  - intros id rec Hid Hn. destruct (Hgone id rec Hid Hn) as (h & Hh & Hm). apply stale_names_spec in Hh as [H1 H2].
    by exists previous, h.
  - intros Ho names' h -> Hh. destruct Hnames as [[= ->]|]; [|done]. by apply Hleft.
Qed.
End tunnel_docs.

(** ** A withdrawal that failed *)

Lemma as_list_strings (l : list bytes) : as_list as_string (JArray (JString <$> l)) = Some l.
Proof. unfold as_list. apply mapM_Some. induction l as [|x l IH]; [constructor|]. by constructor. Qed.

(** What reading the texts [names] puts into a map. *)
Lemma decode_routed_fold (m : gmap bytes (list bytes)) keys m0 :
  (forall k, k ∈ keys -> is_Some (m !! k)) ->
  foldl (fun (acc : option (gmap bytes (list bytes))) f => acc ← acc; names ← as_list as_string f.2; Some (<[f.1 := names]> acc)) (Some m0)
    ((fun k => (k, ((fun names => JArray (JString <$> names)) <$> m) !!! k)) <$> keys)
  = Some (foldl (fun (acc : gmap bytes (list bytes)) k => <[k := m !!! k]> acc) m0 keys).
Proof.
  revert m0. induction keys as [|k keys IH]; intros m0 Hk; [done|]. cbn [fmap list_fmap foldl fst snd].
  destruct (Hk k (list_elem_of_here _ _)) as [names Hn]. 
  rewrite (lookup_total_correct _ k (JArray (JString <$> names))) by (by rewrite lookup_fmap, Hn).
  cbn [mbind option_bind]. rewrite as_list_strings. cbn [mbind option_bind].
  rewrite IH by (intros k' Hk'; apply Hk; by apply list_elem_of_further). do 2 f_equal.
  by rewrite (lookup_total_correct _ _ _ Hn).
Qed.

Lemma insert_all_lookup (m : gmap bytes (list bytes)) keys m0 k :
  foldl (fun (acc : gmap bytes (list bytes)) k => <[k := m !!! k]> acc) m0 keys !! k = if decide (k ∈ keys) then Some (m !!! k) else m0 !! k.
Proof.
  revert m0. induction keys as [|x keys IH]; intros m0; [done|]. cbn [foldl]. rewrite IH.
  destruct (decide (k = x)) as [->|Hne].
  - rewrite (decide_True (P := x ∈ x :: keys)) by apply list_elem_of_here. case_decide; [done|apply lookup_insert_eq].
  - rewrite lookup_insert_ne by done. destruct (decide (k ∈ keys)) as [Hk|Hk].
    + rewrite decide_True; [done|]. by apply list_elem_of_further.
    + rewrite decide_False; [done|]. by intros [?|?]%elem_of_cons.
Qed.

(** The file of what is published says, when it is read, what was written. *)
Lemma routed_round_trip `{JT : JsonText} `{!JsonTextLaws} m : readRouted (Holds (json_text (routed_json m))) = Ok (Routed m).
Proof.
  cbn [readRouted]. assert (decode_routed (json_text (routed_json m)) = Some (Routed m)) as ->; [|done].
  unfold decode_routed. rewrite json_parse_text. unfold routed_json, map_json. cbn [mbind option_bind].
  rewrite decode_routed_fold.
  - cbn [mbind option_bind]. do 2 f_equal. apply map_eq. intros k. rewrite insert_all_lookup. case_decide as Hk.
    + rewrite sorted_keys_elem in Hk. rewrite lookup_fmap, fmap_is_Some in Hk. destruct Hk as [names Hk]. rewrite Hk.
      by rewrite (lookup_total_correct _ _ _ Hk).
    + rewrite sorted_keys_elem, lookup_fmap, fmap_is_Some in Hk. symmetry. by apply eq_None_not_Some.
  - intros k Hk. rewrite sorted_keys_elem, lookup_fmap, fmap_is_Some in Hk. exact Hk.
Qed.

(** A withdrawal is tried once.  The file of published names is brought up
    to date whether or not the names could be withdrawn: after one
    [Withdraw], done or refused, another for the same rules sends no request
    and reports nothing, so a record of a name whose deletion failed stays
    in the zone, and nothing will take it away. *)
Theorem failed_withdrawal_forgotten `{Unicode} `{JT : JsonText} `{!JsonTextLaws} `{CertFile} {S : Type} `{Service S}
  (server : bytes) (current : list Rule) (p p1 p2 : Place S) names :
  saves p = true -> (forall e, routes p <> Unreadable e) ->
  Withdraw server current p = (Some names, p1) -> routes p2 = routes p1 ->
  (Withdraw server current p2).1 = Some [] /\ service (Withdraw server current p2).2 = service p2.
Proof.
  intros Hs Hu Hw Hr. assert (exists m, routes p1 = Holds (json_text (routed_json (<[server := SortStrings (Hostname <$> current)]> m)))) as [m Hm].
  { revert Hw. unfold Withdraw. destruct (readRouted (routes p)) as [previous|e] eqn:E.
    2: { destruct (routes p) as [| |]; cbn in E; [done|by edestruct Hu|done]. }
    destruct (match stale_names _ _ with [] => _ | _ => _ end) as [withdrawn s]. destruct previous as [|m]; [done|].
    rewrite Hs. intros [= <- <-]. by exists m. }
  unfold Withdraw. rewrite Hr, Hm, routed_round_trip. cbn [lookup_routed].
  rewrite lookup_total_insert_eq.
  assert (stale_names (SortStrings (Hostname <$> current)) current = []) as ->.
  { destruct (stale_names _ current) as [|h l] eqn:E; [done|]. assert (h ∈ h :: l) as Hh by apply list_elem_of_here.
    rewrite <- E, stale_names_spec, SortStrings_perm in Hh. by destruct Hh. }
  done.
Qed.

(** ** What applying a configuration leaves *)

Lemma route_all_done `{Cloudflared} c id rules : route_all c id rules = [] -> Forall (fun r => cf_Route c id (Hostname r) = Ok tt) rules.
Proof.
  induction rules as [|r rules IH]; [constructor|]. cbn [route_all]. destruct (cf_Route c id (Hostname r)) as [[]|e] eqn:E; [|done].
  intros Hr. constructor; [exact E|by apply IH].
Qed.

Lemma Withdraw_records `{Unicode} `{JT : JsonText} `{!JsonTextLaws} `{CertFile} {S : Type} `{Service S}
  (server : bytes) (current : list Rule) (p p' : Place S) names :
  saves p = true -> (forall e, routes p <> Unreadable e) -> Withdraw server current p = (Some names, p') ->
  exists m, readRouted (routes p') = Ok (Routed m) /\ m !! server = Some (SortStrings (Hostname <$> current)).
Proof.
  intros Hs Hu. unfold Withdraw. destruct (readRouted (routes p)) as [previous|e] eqn:E.
  2: { destruct (routes p); cbn in E; [done|by edestruct Hu|done]. }
  destruct (match stale_names _ _ with [] => _ | _ => _ end) as [withdrawn s]. destruct previous as [|m]; [done|].
  rewrite Hs. intros [= <- <-]. cbn [routes]. rewrite routed_round_trip.
  eexists. split; [done|]. by rewrite lookup_insert_eq.
Qed.

Definition printable_server (c : CLI) (u : Upstream) (rules : list Rule) : Prop :=
  printable (TunnelID u) /\ printable (CredentialsPath c (TunnelID u))
  /\ Forall (fun r => printable (Hostname r) /\ printable (rule_Service r)) rules.


(** ** Installing *)

Definition temporary (path : bytes) : bytes := path ++ go ".new".

(** All of [download] but its last step. *)
Definition fetched (body : bytes) (cut : bool) (path : bytes) : fs unit :=
  _ ← cf_MkdirAll (Dir path);
  _ ← OpenFile (temporary path) ExecMode;
  _ ← or_else (_ ← Copy (temporary path) body; if cut then raise (ErrIO (go "read") path) else mret tt)
        (fun e => _ ← (fun d => (Ok tt, (Close (temporary path) d).2)); _ ← Update.Remove (temporary path); raise e);
  or_else (Close (temporary path)) (fun e => _ ← Update.Remove (temporary path); raise e).

Lemma fs_bind_assoc {A B C} (m : fs A) (f : A -> fs B) (g : B -> fs C) d : (a ← m; b ← f a; g b) d = (b ← (a ← m; f a); g b) d.
Proof. unfold mbind, fs_bind. by destruct (m d) as [[a|e] d1]. Qed.

Lemma download_fetched body cut path d :
  download (Some (body, cut)) path d = (_ ← fetched body cut path; Update.Rename (temporary path) path) d.
Proof.
  unfold download, fetched. fold (temporary path). cbv [mbind fs_bind]. cbv zeta.
  destruct (cf_MkdirAll _ d) as [[[]|e] d1]; [|done]. destruct (OpenFile _ _ d1) as [[[]|e] d2]; [|done].
  by destruct (or_else _ _ d2) as [[[]|e] d3].
Qed.

Lemma only_cf_MkdirAll P dir : only P (cf_MkdirAll dir).
Proof. apply only_call. intros d. destruct (make_missing_files (chain dir) d) as [-> ->]. done. Qed.

Lemma only_close P p : only P (fun d => (Ok tt, (Close p d).2)).
Proof.
  intros d r d' [= <- <-]. destruct (Close p d) as [r1 d1] eqn:E. exact (only_Close P p _ _ _ E).
Qed.

Lemma only_fetched body cut path : only (fun q => q = temporary path) (fetched body cut path).
Proof.
  unfold fetched. apply only_bind; [apply only_cf_MkdirAll|intros []]. apply only_bind; [by apply only_OpenFile|intros []].
  assert (forall e, only (fun q => q = temporary path) (A:=unit) (_ ← Update.Remove (temporary path); raise e)) as Hclean
    by (intros e; apply only_bind; [by apply only_Remove|intros []; apply only_raise]).
  apply only_bind; [|intros []; apply only_or_else; [apply only_Close|apply Hclean]].
  apply only_or_else; [|intros e; apply only_bind; [apply only_close|intros []; apply Hclean]].
  apply only_bind; [by apply only_Copy|intros []]. destruct cut; [apply only_raise|apply only_mret].
Qed.

Lemma fetched_whole body cut path d d' : fetched body cut path d = (Ok tt, d') ->
  cut = false /\ content <$> files d' !! temporary path = Some body.
Proof.
  unfold fetched. intros ([] & d1 & _ & ([] & d2 & [Ho _]%OpenFile_ok & ([] & d3 & Hc & Hz)%fs_bind_ok)%fs_bind_ok)%fs_bind_ok.
  apply or_else_ok in Hz; [|done]. apply call_id_files in Hz as [-> _].
  apply or_else_ok in Hc; [|done]. apply fs_bind_ok in Hc as ([] & d4 & [Hcopy _]%Copy_ok & Hcut).
  destruct cut; [done|]. apply (f_equal snd) in Hcut. cbn in Hcut. subst d3.
  split; [done|]. rewrite Hcopy, Ho, lookup_alter_eq, lookup_insert_eq. done.
Qed.

Lemma Rename_failed a b e d d' : Update.Rename a b d = (Err e, d') -> files d' = files d.
Proof.
  unfold Update.Rename. destruct (files d !! a); [|by intros [= _ <-]]. unfold Update.call.
  pose proof (answer_disk d) as (Hf & _). destruct (Update.answer d) as [[| |n] d1]; intros [=]; by subst.
Qed.

Lemma temporary_other path : temporary path <> path.
Proof. intros E. apply (f_equal (@length _)) in E. unfold temporary in E. rewrite length_app in E. cbn in E. lia. Qed.

Lemma usable_runs runs path d : usable runs path d = true <-> exists f, files d !! path = Some f /\ content f <> [] /\ runs f = true.
Proof.
  unfold usable. destruct (files d !! path) as [f|]; [|split; [done|by intros (? & ? & _)]].
  rewrite andb_true_iff, negb_true_iff, bool_decide_eq_false. naive_solver.
Qed.

(** What a download leaves at the path. *)
Lemma download_leaves body path d r d' : download body path d = (r, d') ->
  match r with
  | Ok _ => exists b f, body = Some (b, false) /\ files d' !! path = Some f /\ content f = b
  | Err _ => files d' !! path = files d !! path
  end
  /\ (forall q, q <> path -> q <> temporary path -> files d' !! q = files d !! q).
Proof.
  intros Ed. destruct body as [[b cut]|]; [|by injection Ed as <- <-].
  rewrite download_fetched in Ed. unfold mbind, fs_bind in Ed.
  destruct (fetched b cut path d) as [r2 d2] eqn:Ef. pose proof (only_fetched b cut path _ _ _ Ef) as [_ Hof].
  assert (files d2 !! path = files d !! path) as Hpath by (apply Hof; intros E; by apply (temporary_other path)).
  destruct r2 as [[]|e]; [|injection Ed as <- <-; by split; [|intros q _ Hq; apply Hof]]. split.
  - apply fetched_whole in Ef as [-> Hb]. destruct r as [[]|e].
    + apply Rename_ok in Ed as (f & Hf & -> & _). exists b, f. rewrite lookup_insert_eq. rewrite Hf in Hb. by injection Hb.
    + by rewrite <- Hpath, (Rename_failed _ _ _ _ _ Ed).
  - intros q Hq Ht. rewrite <- (Hof q Ht).
    apply (only_Rename (fun x => x = path \/ x = temporary path)) in Ed as [_ ->]; [done|first [by intros [?|?]|by right|by left]..].
Qed.

(** C40: a [cloudflared] that runs is not lost to a download.  However the
    installation ends, whichever call fails and wherever the answer stops, no
    file but the path and the temporary one has changed; a program that runs is
    left alone.  Success means that it ran, or that the path now holds the whole
    of the program that was fetched, and that this one runs.  After any error
    but the one that says the fetched program does not run, the path holds
    what it held. *)
Theorem Install_all_or_nothing runs body path d r d' :
  Install runs body path d = (r, d') ->
  (forall q, q <> path -> q <> temporary path -> files d' !! q = files d !! q)
  /\ ((exists f, files d !! path = Some f /\ content f <> [] /\ runs 0%nat f = true) -> r = Ok tt /\ d' = d)
  /\ match r with
     | Ok _ =>
         (d' = d /\ exists f, files d !! path = Some f /\ content f <> [] /\ runs 0%nat f = true)
         \/ exists b f, body = Some (b, false) /\ files d' !! path = Some f /\ content f = b /\ b <> [] /\ runs 1%nat f = true
     | Err e =>
         files d' !! path = files d !! path
         \/ e = ErrDoesNotRun /\ exists b f, body = Some (b, false) /\ files d' !! path = Some f /\ content f = b
              /\ (b = [] \/ runs 1%nat f = false)
     end.
Proof.
  unfold Install. destruct (usable (runs 0%nat) path d) eqn:Eu.
  { intros [= <- <-]. split_and!; [done|done|]. left. split; [done|]. by apply usable_runs. }
  assert (~ exists f, files d !! path = Some f /\ content f <> [] /\ runs 0%nat f = true) as Hno.
  { intros Hf. apply usable_runs in Hf. congruence. }
  destruct (download body path d) as [r1 d1] eqn:Ed. apply download_leaves in Ed as [Hpath Hother].
  destruct r1 as [[]|e]; [|intros [= <- <-]; split_and!; [done|by intros ?%Hno|by left]].
  destruct Hpath as (b & f & Hb & Hf & Hc). destruct (usable (runs 1%nat) path d1) eqn:E1; intros [= <- <-].
  - split_and!; [done|by intros ?%Hno|]. right. apply usable_runs in E1 as (f' & Hf' & Hne & Hr).
    assert (f' = f) as -> by congruence. exists b, f. split_and!; try done. by rewrite <- Hc.
  - split_and!; [done|by intros ?%Hno|]. right. split; [done|]. exists b, f. split_and!; try done.
    unfold usable in E1. rewrite Hf, Hc in E1. apply andb_false_iff in E1 as [E1|E1]; [left|by right].
    by apply negb_false_iff, bool_decide_eq_true in E1.
Qed.

(** ** Witnesses *)

Section examples.
#[local] Existing Instance no_unicode.
#[local] Existing Instance binary_text.
#[local] Existing Instance binary_text_laws.

Definition example_tunnel (name kind : string) (port : Z) (domains : list bytes) : Tunnel :=
  MkTunnel (go name) true (go kind) [] port 0 domains [] [] 0 [] 0 0 0.

Definition example_tunnels : list Tunnel :=
  [example_tunnel "all" "http" 80 [go "*.example.com"]; example_tunnel "ssh" "tcp" 22 [];
   example_tunnel "app" "https" 443 [go "app.example.com"; go "*.app.example.com"]].

Example rules_in_order :
  (Hostname <$> (RulesFor example_tunnels).1) = [go "app.example.com"; go "*.app.example.com"; go "*.example.com"].
Proof. by vm_compute. Qed.

(** A zone [Z1] whose API says what it did. *)
Abbreviation zone_state := (gmap bytes (bytes * bytes * bytes)).

Definition cred : Credential := MkCredential (go "Z1") [] (go "token").

#[local] Instance example_cert : CertFile := {|
  pem_Decode raw := match raw with [] => (None, []) | _ => (Some (tokenBlock, raw), []) end;
  base64_Decode _ := None |}.

Definition cred_pem : bytes :=
  json_text (JObject [(go "zoneID", JString (go "Z1")); (go "accountID", JString []); (go "apiToken", JString (go "token"))]).

Definition record_json (r : bytes * bytes * bytes) : json :=
  JObject [(go "id", JString r.1.1); (go "type", JString r.1.2); (go "content", JString r.2)].

Definition listing (name : bytes) (s : zone_state) : list (bytes * bytes * bytes) :=
  (fun e => (e.1, e.2.1.2, e.2.2)) <$> filter (fun e => e.2.1.1 = name) (map_to_list s).

Definition says (success : bool) (result : json) : bytes := json_text (JObject [(go "success", JBool success); (go "result", result)]).

Definition answers_with (b : bytes) : res bytes answer :=
  if bool_decide (limited 1048576 b = b) then Ok (MkAnswer 200 b (Ok tt)) else Err (go "too long").

Definition list_prefix : bytes := zone_url cred ++ go "/dns_records?name=".
Definition record_prefix : bytes := zone_url cred ++ go "/dns_records/".

#[local] Instance example_service : Service zone_state := {|
  exchange w s :=
    if bool_decide (w_Method w = go "GET") then
      match QueryUnescape (drop (length list_prefix) (w_URL w)) with
      | Some name => (answers_with (says true (JArray (record_json <$> listing name s))), s)
      | None => (Err [], s)
      end
    else
      match unescape (drop (length record_prefix) (w_URL w)) encodePathSegment with
      | Some id => match s !! id with
                   | Some _ => (answers_with (says true JNull), delete id s)
                   | None => (answers_with (says false JNull), s)
                   end
      | None => (Err [], s)
      end;
  s_now _ := 0; s_random _ := Err [] |}.

Lemma answered_says success result j : answered (answers_with (says success result)) = Some j ->
  success = true /\ j = JObject [(go "success", JBool success); (go "result", result)].
Proof.
  unfold answers_with. case_bool_decide as Hl; [|done]. unfold answered. cbn [a_Read a_Body]. rewrite Hl. unfold says.
  rewrite json_parse_text. cbn [mbind option_bind].
  assert (decode_envelope (JObject [(go "success", JBool success); (go "result", result)]) = Some (MkEnvelope success [])) as -> by (by vm_compute).
  cbn [mbind option_bind Success]. destruct success; [by intros [= <-]|done].
Qed.

Lemma records_read (l : list (bytes * bytes * bytes)) :
  with_result decode_records (JObject [(go "success", JBool true); (go "result", JArray (record_json <$> l))]) = Some l.
Proof.
  unfold with_result.
  assert (decode_envelope (JObject [(go "success", JBool true); (go "result", JArray (record_json <$> l))]) = Some (MkEnvelope true [])) as -> by (by vm_compute).
  cbn [mbind option_bind as_struct]. unfold field.
  assert (lookup_field (go "result") [(go "success", JBool true); (go "result", JArray (record_json <$> l))] = Some (JArray (record_json <$> l))) as -> by (by vm_compute).
  cbn [default]. unfold decode_records, as_list. apply mapM_Some. induction l as [|[[id kind] content] l IH]; [constructor|].
  constructor; [by vm_compute|exact IH].
Qed.

#[local] Instance example_docs : TunnelDocs (go "Z1") zone_state.
Proof.
  refine {| zone_records s := s |}.
  - intros c name s Hc. unfold exchange, example_service. cbn [call_wire w_Method w_URL]. rewrite bool_decide_eq_true_2 by done.
    unfold list_url, zone_url. rewrite Hc. rewrite (app_assoc (api ++ _)).
    change (drop (length list_prefix) _) with (drop (length list_prefix) (list_prefix ++ QueryEscape name)).
    rewrite drop_app_length. unfold QueryUnescape, QueryEscape. rewrite unescape_escape by done. split; [done|]. intros j l [_ ->]%answered_says Hl.
    rewrite records_read in Hl. injection Hl as <-. intros id kind content. unfold listing. rewrite list_elem_of_fmap. split.
    + intros ([id' [[n k] ct]] & [= -> -> ->] & [Hn Hin]%list_elem_of_filter). cbn in Hn. subst n. by apply elem_of_map_to_list.
    + intros Hs. exists (id, (name, kind, content)). split; [done|]. apply list_elem_of_filter. split; [done|]. by apply elem_of_map_to_list.
  - intros c id s Hc. unfold exchange, example_service. cbn [call_wire w_Method w_URL]. rewrite bool_decide_eq_false_2 by done.
    unfold record_url, zone_url. rewrite Hc. rewrite (app_assoc (api ++ _)).
    change (drop (length record_prefix) _) with (drop (length record_prefix) (record_prefix ++ PathEscape id)).
    rewrite drop_app_length. unfold PathEscape. rewrite unescape_escape by done. destruct (s !! id); [by right|]. left. split; [done|].
    destruct (answered _) as [j|] eqn:E; [|done]. by apply answered_says in E as [? _].
Defined.

Definition example_records : zone_state :=
  {[ go "1" := (go "old.example.com", go "CNAME", go "t.cfargotunnel.com");
     go "2" := (go "old.example.com", go "TXT", go "v=spf1");
     go "3" := (go "www.example.com", go "CNAME", go "elsewhere.net") ]}.

Definition example_place (s : zone_state) (names : list bytes) : Place zone_state :=
  MkPlace s (Ok cred_pem) (Holds (json_text (routed_json {[ go "home" := names ]}))) true.

Abbreviation one_gone := (Withdraw (go "home") [] (example_place example_records [go "old.example.com"; go "www.example.com"])).

Lemma Withdraw_only_stale_witness :
  service one_gone.2 ⊆ example_records /\ service one_gone.2 = delete (go "1") example_records.
Proof.
  split; [|by apply (bool_decide_unpack _); vm_compute]. destruct one_gone as [out p'] eqn:E.
  assert (parseCredential cred_pem = Ok cred) as Hc by (by vm_compute).
  exact (proj1 (Withdraw_only_stale cred (go "home") [] (example_place example_records [go "old.example.com"; go "www.example.com"]) cred_pem out p' eq_refl Hc E)).
Defined.

(** The names are compared as they are written, and their records are not: a name
    that is still published, in other letters than before, loses the record
    that serves it. *)
Theorem respelled_name_withdrawn :
  let respelled := [MkRule (go "Old.example.com") (go "http://127.0.0.1:80")] in
  let after := Withdraw (go "home") respelled (example_place example_records [go "old.example.com"]) in
  after.1 = Some [go "old.example.com"] /\ service after.2 !! go "1" = None /\ record_name (go "Old.example.com") = go "old.example.com".
Proof. by vm_compute. Qed.

(** The login is not there when the name is given up, and is back later. *)
Definition place_logged_out : Place zone_state :=
  MkPlace example_records (Err (go "no such file")) (Holds (json_text (routed_json {[ go "home" := [go "old.example.com"] ]}))) true.
Abbreviation not_gone := (Withdraw (go "home") [] place_logged_out).
Definition place_back : Place zone_state := MkPlace (service not_gone.2) (Ok cred_pem) (routes not_gone.2) true.

Lemma failed_withdrawal_forgotten_witness :
  (Withdraw (go "home") [] place_back).1 = Some []
  /\ zone_records (service (Withdraw (go "home") [] place_back).2) !! go "1" = Some (go "old.example.com", go "CNAME", go "t.cfargotunnel.com").
Proof.
  assert (not_gone.1 = Some []) as Hb by (by vm_compute).
  destruct (failed_withdrawal_forgotten (go "home") [] place_logged_out not_gone.2 place_back []) as [H1 H2];
    [done|done|exact (eq_trans (surjective_pairing _) (f_equal (fun x => (x, not_gone.2)) Hb))|done|].
  split; [exact H1|]. rewrite H2. by vm_compute.
Defined.

#[local] Instance example_cloudflared : Cloudflared := {| combined_output _ := (go "ok", None) |}.

Definition example_cli : CLI := MkCLI (go "/usr/bin/cloudflared") (go "/etc/openfrp/cloudflared").

Definition example_upstream : Upstream :=
  MkUpstream (go "home") (go "cloudflare") (go "example.com") (go "6ff42ae2") [] 0 [] [] 0 0 (MkTransport [] false 0 0 false 0 0 0).

Definition example_client : Config.Client :=
  Config.MkClient [example_upstream] [] 0 [] [] (MkTransport [] false 0 0 false 0 0 0) 0 0 example_tunnels.

Abbreviation apply_run := (cfApply example_cli (Ok example_client) (go "home") true ∅ (example_place example_records [go "old.example.com"])).


Definition no_program (answers : list outcome) : Disk := MkDisk {[ go "/usr/bin/cloudflared" := MkFile [] 493 ]} ∅ 18 answers.

(** A broken program is replaced by one that runs; and a download that stops. *)
Definition elf_runs (n : nat) (f : file) : bool := HasPrefix (content f) (go "ELF").
Definition broken_program (answers : list outcome) : Disk := MkDisk {[ go "/usr/bin/cloudflared" := MkFile (go "junk") 493 ]} ∅ 18 answers.
Abbreviation replaced := (Install elf_runs (Some (go "ELF2", false)) (go "/usr/bin/cloudflared") (broken_program [])).
Abbreviation cut_short := (Install elf_runs (Some (go "ELF2", false)) (go "/usr/bin/cloudflared") (broken_program [Works; Works; Stops 1])).

Lemma Install_all_or_nothing_witness :
  replaced.1 = Ok tt /\ content <$> files replaced.2 !! go "/usr/bin/cloudflared" = Some (go "ELF2")
  /\ is_ok cut_short.1 = false /\ files cut_short.2 !! go "/usr/bin/cloudflared" = Some (MkFile (go "junk") 493).
Proof.
  assert (Hr : replaced.1 = Ok tt) by (vm_compute; reflexivity). assert (Hc : is_ok cut_short.1 = false) by (vm_compute; reflexivity).
  assert (He : cut_short.1 <> Err ErrDoesNotRun) by (vm_compute; intros [=]).
  split; [exact Hr|]. split; [|split; [exact Hc|]].
  - destruct replaced as [r d'] eqn:E. destruct (Install_all_or_nothing _ _ _ _ _ _ E) as (_ & _ & H). cbn [fst snd] in *. subst r.
    destruct H as [[_ (f & Hf & _ & Hn)]|(b & f & [= <-] & Hf & Hb & _)].
    + injection Hf as <-. vm_compute in Hn. discriminate Hn.
    + rewrite Hf. exact (f_equal Some Hb).
  - destruct cut_short as [r d'] eqn:E. destruct (Install_all_or_nothing _ _ _ _ _ _ E) as (_ & _ & H). cbn [fst snd] in *.
    destruct r as [?|e]; [discriminate Hc|]. destruct H as [H|[-> _]]; [rewrite H; reflexivity|]. by destruct He.
Defined.
End examples.
