(* ===== verification/Transport.v ===== *)
(** How the two ends get their connections: [internal/tunnel/transport] and the
    socket options of [pkg/netutil] (tcpopt.go, sockopt_*.go, socketgid_*.go).

    The system keeps the open sockets, each with the group it was made under,
    its options and what was written on it; the group of the thread that runs;
    and the outcomes its calls will have.  A call answers by the next outcome,
    and succeeds when none is left.  The parts of package [net] that matter are
    written out: which goroutine dials, what is closed, and the options [net]
    itself sets. *)
From S2P Require Import Prelude GoStrings Semver Update Detect Stream Messages Protocol Server Client.

Inductive nerr : Type :=
  | Errno (e : bytes)                     (* from a system call *)
  | EBADF
  | ErrResolve (e : bytes)
  | ErrNoAddress
  | ErrNotLinux (asked : Z)
  | ErrTakeGroup (gid : Z) (e : nerr)
  | ErrConfirm (e : nerr)
  | ErrStillHas (gid actual : Z)
  | ErrUnexpected (line : bytes)
  | ErrAtoi (field : bytes)
  | ErrTooLong
  | ErrNoGidLine
  | ErrJoined (es : list nerr)
  | ErrDial (addr : bytes) (e : nerr)
  | ErrTune (addr : bytes) (e : nerr)
  | ErrHandshake (addr : bytes) (e : nerr)
  | ErrWrite (e : Protocol.perr).

Inductive sockopt : Type :=
  | SO_REUSEPORT | SO_MARK | SO_KEEPALIVE | SO_SNDBUF | SO_RCVBUF
  | TCP_NODELAY | TCP_KEEPIDLE | TCP_KEEPINTVL | TCP_KEEPCNT | TCP_DEFER_ACCEPT.

#[export] Instance sockopt_eq_dec : EqDecision sockopt.
Proof. solve_decision. Defined.

Record sock := MkSock { owner : Z; sopts : sockopt -> option Z; wire : writer }.

Record os := MkOs {
  socks : gmap N sock;
  next : N;
  thread : Z;                          (* the file system group of the running thread *)
  gidProbe : option (option nerr);     (* once it was done *)
  script : list (option bytes)
}.

Definition set_socks (m : gmap N sock) (s : os) : os := MkOs m (next s) (thread s) (gidProbe s) (script s).
Definition set_thread (g : Z) (s : os) : os := MkOs (socks s) (next s) g (gidProbe s) (script s).
Definition set_probe (p : option (option nerr)) (s : os) : os := MkOs (socks s) (next s) (thread s) p (script s).
Definition set_script (l : list (option bytes)) (s : os) : os := MkOs (socks s) (next s) (thread s) (gidProbe s) l.

Definition sys (A : Type) : Type := os -> res nerr A * os.

#[export] Instance sys_ret : MRet sys := fun A a s => (Ok a, s).
#[export] Instance sys_bind : MBind sys := fun A B f m s =>
  match m s with (Ok a, s) => f a s | (Err e, s) => (Err e, s) end.

Definition raise {A} (e : nerr) : sys A := fun s => (Err e, s).
Definition sys_error {A} (f : nerr -> nerr) (m : sys A) : sys A := fun s => let '(r, s) := m s in (map_err f r, s).
(** An error nobody looks at. *)
Definition ignore (m : sys unit) : sys unit := fun s => (Ok tt, (m s).2).

Definition call : sys unit := fun s =>
  match script s with
  | Some e :: rest => (Err (Errno e), set_script rest s)
  | None :: rest => (Ok tt, set_script rest s)
  | [] => (Ok tt, s)
  end.

Definition socket : sys N := fun s =>
  match call s with
  | (Ok _, s) => (Ok (next s), MkOs (<[next s := MkSock (thread s) (fun _ => None) (Writer [] None)]> (socks s))
                                    (next s + 1)%N (thread s) (gidProbe s) (script s))
  | (Err e, s) => (Err e, s)
  end.

Definition set_opt (o : sockopt) (v : Z) (k : sock) : sock :=
  MkSock (owner k) (fun x => if decide (x = o) then Some v else sopts k x) (wire k).

Definition setsockopt (id : N) (o : sockopt) (v : Z) : sys unit :=
  call ≫= fun _ => (fun s =>
  match socks s !! id with
  | Some k => (Ok tt, set_socks (<[id := set_opt o v k]> (socks s)) s)
  | None => (Err EBADF, s)
  end) : sys unit.

Definition close (id : N) (s : os) : os := set_socks (delete id (socks s)) s.
(** [conn.Close()] before an error is returned. *)
Definition closing {A} (id : N) (m : sys A) : sys A := fun s =>
  match m s with (Err e, s) => (Err e, close id s) | ok => ok end.

(** Writing with a function of the protocol: the outcome is whether the
    connection has broken. *)
Definition write_on (id : N) (f : writer -> res Protocol.perr unit * writer) : sys unit := fun s =>
  match socks s !! id with
  | None => (Err EBADF, s)
  | Some k =>
      let '(r, s) := call s in
      let w := match r with Err (Errno e) => Writer (written (wire k)) (Some (NetErr e)) | _ => wire k end in
      let '(r, w) := f w in
      (map_err ErrWrite r, set_socks (<[id := MkSock (owner k) (sopts k) w]> (socks s)) s)
  end.

(** ** Options (tcpopt.go, sockopt_*.go) *)

Record TCPOptions := MkTCPOptions { NoDelay : bool; SendBuffer : Z; RecvBuffer : Z; KeepAlive : Z }.

Definition DefaultTCPOptions : TCPOptions := MkTCPOptions true 0 0 (30 * Second).

Definition bool_opt (b : bool) : Z := if b then 1 else 0.
(** Whole seconds, rounded up. *)
Definition seconds_up (d : Z) : Z := godiv (i64 (i64 (d + Second) - 1)) Second.

(** Calls whose errors are collected. *)
Fixpoint each_error (ms : list (sys unit)) (s : os) : list nerr * os :=
  match ms with
  | [] => ([], s)
  | m :: ms =>
      let '(r, s) := m s in let '(es, s) := each_error ms s in
      (match r with Err e => e :: es | Ok _ => es end, s)
  end.

Definition tune_calls (id : N) (o : TCPOptions) : list (sys unit) :=
  [setsockopt id TCP_NODELAY (bool_opt (NoDelay o))]
  ++ (if 0 <? SendBuffer o then [setsockopt id SO_SNDBUF (SendBuffer o)] else [])
  ++ (if 0 <? RecvBuffer o then [setsockopt id SO_RCVBUF (RecvBuffer o)] else [])
  ++ (if 0 <? KeepAlive o
      then [setsockopt id SO_KEEPALIVE 1; setsockopt id TCP_KEEPIDLE (seconds_up (KeepAlive o))]
      else [setsockopt id SO_KEEPALIVE 0]).

(** [tc] is the socket under the connection, when it is a [*net.TCPConn]. *)
Definition TuneConn (tc : option N) (o : TCPOptions) : sys unit := fun s =>
  match tc with
  | None => (Ok tt, s)
  | Some id =>
      match each_error (tune_calls id o) s with
      | ([], s) => (Ok tt, s)
      | (es, s) => (Err (ErrJoined es), s)
      end
  end.

(** The build of a platform. *)
Record platform := MkPlatform {
  linux : bool; reusePortSupported : bool; deferAcceptSupported : bool; acceptedInheritsOptions : bool
}.

#[export] Instance platform_eq_dec : EqDecision platform.
Proof. solve_decision. Defined.

Definition Linux : platform := MkPlatform true true true true.
Definition Bsd : platform := MkPlatform false true false false.
Definition OtherOs : platform := MkPlatform false false false false.

Definition ReusePortUnavailable : nerr := Errno (go "netutil: SO_REUSEPORT is unavailable on this platform").

Definition setReusePort (p : platform) (id : N) : sys unit :=
  if reusePortSupported p then setsockopt id SO_REUSEPORT 1 else raise ReusePortUnavailable.

Definition setDeferAccept (p : platform) (id : N) (seconds : Z) : sys unit :=
  if deferAcceptSupported p then setsockopt id TCP_DEFER_ACCEPT seconds else mret tt.

Definition tuneListenerFD (p : platform) (id : N) (o : TCPOptions) : sys unit :=
  if negb (acceptedInheritsOptions p) then mret tt
  else
    setsockopt id TCP_NODELAY (bool_opt (NoDelay o)) ≫= fun _ =>
    if KeepAlive o <=? 0 then setsockopt id SO_KEEPALIVE 0
    else
      setsockopt id SO_KEEPALIVE 1 ≫= fun _ =>
      setsockopt id TCP_KEEPIDLE (seconds_up (KeepAlive o)) ≫= fun _ =>
      setsockopt id TCP_KEEPINTVL (seconds_up (KeepAlive o)).

(** ** Listening (tcpopt.go) *)

Record ListenOptions := MkListenOptions { ReusePort : bool; lo_KeepAlive : Z; NoDelayOff : bool; DeferAccept : Z }.

Definition AcceptedTCPOptions (o : ListenOptions) : TCPOptions :=
  let keep := if lo_KeepAlive o =? 0 then KeepAlive DefaultTCPOptions else lo_KeepAlive o in
  MkTCPOptions (negb (NoDelayOff o)) 0 0 (if keep <? 0 then 0 else keep).

(** [net.ListenConfig]: its keep-alive and what [Control] does with a socket. *)
Record ListenConfig := MkListenConfig { cfg_KeepAlive : Z; Control : option (N -> sys unit) }.

Definition deferSecs (p : platform) (o : ListenOptions) : Z :=
  if (0 <? DeferAccept o) && deferAcceptSupported p then seconds_up (DeferAccept o) else 0.

Definition NewListenConfig (p : platform) (o : ListenOptions) : ListenConfig :=
  let tuned := AcceptedTCPOptions o in
  MkListenConfig (if acceptedInheritsOptions p then -1 else KeepAlive tuned)
    (if ReusePort o || (0 <? deferSecs p o) || acceptedInheritsOptions p
     then Some (fun id =>
       (if ReusePort o then setReusePort p id else mret tt) ≫= fun _ =>
       (if 0 <? deferSecs p o then setDeferAccept p id (deferSecs p o) else mret tt) ≫= fun _ =>
       (if acceptedInheritsOptions p then tuneListenerFD p id tuned else mret tt))
     else None).

Definition TuneAccepted (p : platform) (tc : option N) (o : ListenOptions) : sys unit :=
  if acceptedInheritsOptions p then mret tt else TuneConn tc (AcceptedTCPOptions o).

(** Package [net]: what it does with a new TCP connection; [keepAlive] is that
    of the [Dialer] or [ListenConfig], 0 for its own choice. *)
Definition newTCPConn (keepAlive : Z) (id : N) : sys unit :=
  ignore (setsockopt id TCP_NODELAY 1) ≫= fun _ =>
  if keepAlive <? 0 then mret tt
  else ignore (
    setsockopt id SO_KEEPALIVE 1 ≫= fun _ =>
    setsockopt id TCP_KEEPIDLE (if keepAlive =? 0 then 15 else seconds_up keepAlive) ≫= fun _ =>
    setsockopt id TCP_KEEPINTVL 15 ≫= fun _ =>
    setsockopt id TCP_KEEPCNT 9).

(** [ListenConfig.Listen] for one address: a socket, [Control], bind and listen. *)
Definition ListenConfig_Listen (c : ListenConfig) : sys N :=
  socket ≫= fun id =>
  closing id (
    match Control c with Some f => f id | None => mret tt end ≫= fun _ =>
    call ≫= fun _ => mret id).

(** The kernel hands a connection over: a socket of its own that has, where the
    platform does so, the options of the listener. *)
Definition accept_socket (p : platform) (ln : N) : sys N := fun s =>
  match socks s !! ln with
  | None => (Err EBADF, s)
  | Some l =>
      match socket s with
      | (Ok id, s) =>
          (Ok id, set_socks (<[id := MkSock (owner l) (if acceptedInheritsOptions p then sopts l else fun _ => None)
                                            (Writer [] None)]> (socks s)) s)
      | failed => failed
      end
  end.

Definition Accept (p : platform) (c : ListenConfig) (ln : N) : sys N :=
  accept_socket p ln ≫= fun id => newTCPConn (cfg_KeepAlive c) id ≫= fun _ => mret id.

(** ** The group of a socket (socketgid_*.go) *)

(** The machine: which groups the kernel lets the process take (it says nothing
    when it does not), the group of the process, whether a filter refuses the
    call, and what [/proc/thread-self/status] holds under a group: the bytes
    that can be read and the error that ends them, if it is not their end. *)
Class Machine := {
  may_take : Z -> bool;
  processGID : Z;
  refused : option bytes;
  proc_status : Z -> bytes * option bytes
}.

Section gid.
Context `{Machine}.

Definition Setfsgid (gid : Z) : sys unit := fun s =>
  match refused with
  | Some e => (Err (Errno e), s)
  | None => (Ok tt, if may_take gid then set_thread gid s else s)
  end.

(** The loop of [threadFSGID]; [fin] is the error the file ended with. *)
Fixpoint gid_line (fin : option bytes) (lines : list bytes) : res nerr Z :=
  match lines with
  | [] => match fin with Some e => Err (Errno e) | None => Err ErrNoGidLine end
  | line :: rest =>
      if 65536 <=? Z.of_nat (length line) then Err ErrTooLong
      else
        let line := drop_cr line in
        if negb (HasPrefix line (go "Gid:")) then gid_line fin rest
        else match Fields line !! 4%nat with
             | None => Err (ErrUnexpected line)
             | Some f => match Atoi f with Some g => Ok g | None => Err (ErrAtoi f) end
             end
  end.

Definition threadFSGID : sys Z :=
  call ≫= fun _ => (fun s =>
  let '(text, fin) := proc_status (thread s) in (gid_line fin (Split text x0a), s)) : sys Z.

(** The body of [gidProbe.Do]. *)
Definition probe (gid : Z) (s : os) : option nerr * os :=
  let '(actual, s) := threadFSGID s in
  (match actual with
   | Err e => Some (ErrConfirm e)
   | Ok a => if a =? gid then None else Some (ErrStillHas gid a)
   end, s).

Definition probe_once (gid : Z) : sys unit := fun s =>
  let '(e, s) := match gidProbe s with
                 | Some e => (e, s)
                 | None => let '(e, s) := probe gid s in (e, set_probe (Some e) s)
                 end in
  (match e with Some e => Err e | None => Ok tt end, s).

Definition DialWithSocketGID {A} (p : platform) (gid : Z) (dial : sys A) : sys A :=
  if gid <=? 0 then dial
  else if negb (linux p) then raise (ErrNotLinux gid)
  else
    sys_error (ErrTakeGroup gid) (Setfsgid gid) ≫= fun _ => (fun s =>
    let '(r, s) := (probe_once gid ≫= fun _ => dial) s in
    (r, (Setfsgid processGID s).2)) : sys A.

Definition SetSocketMark (p : platform) (id : N) (mark : Z) : sys unit :=
  if mark <=? 0 then mret tt
  else if linux p then setsockopt id SO_MARK mark else raise (ErrNotLinux mark).
End gid.

(** ** Dialling (transport/tcp.go) *)

(** Package [net] again: the addresses of a host and port, each with whether it
    is an IPv4 address, in the order they are tried; and, when a host has both
    kinds, how the race between them goes: [None] is that the first kind was
    done before the other was started, [Some first] which of the two that
    connected was first. *)
Class Network := {
  resolve : bytes -> res bytes (list (bool * bytes));
  race : option bool
}.

Record Dialer := MkDialer {
  Addr : bytes; TLSConfig : bool; d_TCPOptions : TCPOptions; SocketGID : Z; SocketMark : Z
}.

Section dial.
Context `{Machine} `{Network} `{JsonCodec}.
Variable p : platform.

(** One address: a socket of the running thread, [Control], and connecting. *)
Definition dialSingle (control : N -> sys unit) (addr : bool * bytes) : sys N :=
  socket ≫= fun id =>
  closing id (control id ≫= fun _ => call ≫= fun _ => newTCPConn 0 id ≫= fun _ => mret id).

(** The addresses in turn, and the first error when none answers. *)
Fixpoint dialSerial (control : N -> sys unit) (firstErr : option nerr) (addrs : list (bool * bytes)) : sys N :=
  match addrs with
  | [] => raise (default ErrNoAddress firstErr)
  | a :: rest => fun s =>
      match dialSingle control a s with
      | (Ok id, s) => (Ok id, s)
      | (Err e, s) => dialSerial control (Some (default e firstErr)) rest s
      end
  end.

(** In goroutines of their own: on threads of the process's group, for the
    thread that is locked runs nothing but the goroutine that locked it. *)
Definition elsewhere {A} (m : sys A) : sys A := fun s =>
  let '(r, s') := m (set_thread processGID s) in (r, set_thread (thread s) s').

(** The racers: the second starts when the first is late or has failed; of two
    connections the later one is closed; of two errors the first kind's counts. *)
Definition racers (control : N -> sys unit) (primaries fallbacks : list (bool * bytes)) : sys N := fun s =>
  match dialSerial control None primaries s with
  | (Err e, s) =>
      match dialSerial control None fallbacks s with (Ok id, s) => (Ok id, s) | (Err _, s) => (Err e, s) end
  | (Ok id, s) =>
      match race with
      | None => (Ok id, s)
      | Some first =>
          match dialSerial control None fallbacks s with
          | (Err _, s) => (Ok id, s)
          | (Ok id', s) => if first then (Ok id, close id' s) else (Ok id', close id s)
          end
      end
  end.

(** [partition]: those of the kind of the first, and the others. *)
Definition partition (addrs : list (bool * bytes)) : list (bool * bytes) * list (bool * bytes) :=
  match addrs with
  | [] => ([], [])
  | a :: _ => (filter (fun x => x.1 = a.1) addrs, filter (fun x => x.1 <> a.1) addrs)
  end.

Definition dialParallel (control : N -> sys unit) (primaries fallbacks : list (bool * bytes)) : sys N :=
  match fallbacks with
  | [] => dialSerial control None primaries
  | _ => elsewhere (racers control primaries fallbacks)
  end.

Definition DialContext (control : N -> sys unit) (addr : bytes) : sys N :=
  match resolve addr with
  | Err e => raise (ErrResolve e)
  | Ok addrs => let '(primaries, fallbacks) := partition addrs in dialParallel control primaries fallbacks
  end.

(** [Dialer.dial]; the connection is the socket it is on. *)
Definition dial (d : Dialer) : sys N :=
  let control id := if 0 <? SocketMark d then SetSocketMark p id (SocketMark d) else mret tt in
  sys_error (ErrDial (Addr d)) (DialWithSocketGID p (SocketGID d) (DialContext control (Addr d))) ≫= fun conn =>
  closing conn (sys_error (ErrTune (Addr d)) (TuneConn (Some conn) (d_TCPOptions d)) ≫= fun _ => mret conn).

Definition d_greet (conn : N) (mode : Z) : sys unit := write_on conn (greet mode).

(** The TLS handshake is one call: it succeeds or it fails. *)
Definition DialControl (d : Dialer) : sys N :=
  dial d ≫= fun conn =>
  closing conn (
    (if TLSConfig d then sys_error (ErrHandshake (Addr d)) call else mret tt) ≫= fun _ =>
    d_greet conn ModePlain ≫= fun _ => mret conn).

Definition DialWork (d : Dialer) : sys N :=
  dial d ≫= fun conn => closing conn (d_greet conn ModePlain ≫= fun _ => mret conn).

Definition d_DialWorkWith (m : Message) (d : Dialer) : sys N :=
  dial d ≫= fun conn => closing conn (write_on conn (DialWorkWith m) ≫= fun _ => mret conn).

Definition DialMux (d : Dialer) : sys N :=
  dial d ≫= fun conn => closing conn (d_greet conn ModeMux ≫= fun _ => mret conn).

(** [directSource.Open]. *)
Definition directSource_Open (d : Dialer) : sys N := DialWork d.
End dial.

(** ** Multiplexing (transport/mux.go) *)

Record MuxConfig := MkMuxConfig { StreamWindow : Z; KeepAliveInterval : Z; WriteTimeout : Z }.

Definition DefaultMuxConfig : MuxConfig := MkMuxConfig (Z.shiftl 8 20) (30 * Second) (10 * Second).
Definition CarrierMuxConfig : MuxConfig := MkMuxConfig (Z.shiftl 512 10) (10 * Second) (10 * Second).

(** The fields of [yamux.Config] that are set here. *)
Record yamuxConfig := MkYamuxConfig {
  MaxStreamWindowSize : Z; EnableKeepAlive : bool; y_KeepAliveInterval : Z; ConnectionWriteTimeout : Z; quiet : bool
}.

(** [base] is [yamux.DefaultConfig()]. *)
Definition toYamux (base : yamuxConfig) (c : MuxConfig) : yamuxConfig :=
  MkYamuxConfig
    (if 0 <? StreamWindow c then u32 (StreamWindow c) else MaxStreamWindowSize base)
    (0 <? KeepAliveInterval c)
    (if 0 <? KeepAliveInterval c then KeepAliveInterval c else y_KeepAliveInterval base)
    (if 0 <? WriteTimeout c then WriteTimeout c else ConnectionWriteTimeout base)
    true.

(** [muxSource.Open]: the goroutine that opens the stream, the caller, and the
    goroutine that is left behind when the context is done first. *)
Inductive opener_at : Type :=
  | Opening
  | Sent (r : res bytes N).          (* [r] is in the channel, which has room for it *)
Inductive caller_at : Type :=
  | Waiting
  | Returned (r : res bytes N)       (* [None] of the code's pair is the error *)
  | Cancelled.                       (* returned [ctx.Err()] *)
Inductive reaper_at : Type :=
  | NoReaper | Reaping | Reaped.

Record mux_open := MkMuxOpen {
  opener : opener_at; caller : caller_at; reaper : reaper_at; cancelled : bool; streams : gset N
}.

Inductive open_step : mux_open -> mux_open -> Prop :=
  | open_done id c r k ss :
      id ∉ ss ->
      open_step (MkMuxOpen Opening c r k ss) (MkMuxOpen (Sent (Ok id)) c r k ({[id]} ∪ ss))
  | open_failed e c r k ss :
      open_step (MkMuxOpen Opening c r k ss) (MkMuxOpen (Sent (Err e)) c r k ss)
  | open_cancel o c r ss :
      open_step (MkMuxOpen o c r false ss) (MkMuxOpen o c r true ss)
  | open_take res k ss :
      open_step (MkMuxOpen (Sent res) Waiting NoReaper k ss) (MkMuxOpen (Sent res) (Returned res) NoReaper k ss)
  | open_give_up o ss :
      open_step (MkMuxOpen o Waiting NoReaper true ss) (MkMuxOpen o Cancelled Reaping true ss)
  | open_reap res c k ss :
      open_step (MkMuxOpen (Sent res) c Reaping k ss)
        (MkMuxOpen (Sent res) c Reaped k (match res with Ok id => ss ∖ {[id]} | Err _ => ss end)).

(** [res.stream, nil], or an error that names what failed. *)
Definition mux_Open_start (ss : gset N) : mux_open := MkMuxOpen Opening Waiting NoReaper false ss.

(** ** What a computation does to one socket *)

(** Nothing but the socket [id] has changed, into [k]. *)
Definition becomes (id : N) (k : sock) (s s' : os) : Prop :=
  socks s' = <[id := k]> (socks s) /\ thread s' = thread s /\ next s' = next s.

(** A triple for a socket, with a postcondition for each way to end. *)
Definition triple {A} (id : N) (P : sock -> Prop) (m : sys A) (Q E : sock -> Prop) : Prop :=
  forall s k r s', socks s !! id = Some k -> P k -> m s = (r, s') ->
  exists k', becomes id k' s s' /\ match r with Ok _ => Q k' | Err _ => E k' end.

Lemma becomes_refl id k s : socks s !! id = Some k -> becomes id k s s.
Proof. intros H. split_and!; [by rewrite insert_id|done..]. Qed.

Lemma becomes_trans id k k' s s1 s2 : becomes id k s s1 -> becomes id k' s1 s2 -> becomes id k' s s2.
Proof. intros (A & B & C) (A' & B' & C'). split_and!; [by rewrite A', A, insert_insert_eq|congruence..]. Qed.

Lemma becomes_lookup id k s s' : becomes id k s s' -> socks s' !! id = Some k.
Proof. intros (-> & _). by rewrite lookup_insert_eq. Qed.

Lemma call_same s r s' : call s = (r, s') -> socks s' = socks s /\ thread s' = thread s /\ next s' = next s /\ gidProbe s' = gidProbe s.
Proof. unfold call. destruct (script s) as [|[e|] rest]; by intros [= <- <-]. Qed.

Section triples.
Context (id : N).

Lemma triple_ret {A} (a : A) P E : triple id P (mret a) P E.
Proof. intros s k r s' Hk HP [= <- <-]. exists k. by split; [apply becomes_refl|]. Qed.

Lemma triple_raise {A} e (P Q : sock -> Prop) : triple id P (raise e : sys A) Q P.
Proof. intros s k r s' Hk HP [= <- <-]. exists k. by split; [apply becomes_refl|]. Qed.

Lemma triple_call P : triple id P call P P.
Proof.
  intros s k r s' Hk HP (A & B & C & _)%call_same. exists k. split; [|by destruct r].
  split_and!; [by rewrite A, insert_id|done..].
Qed.

Lemma triple_bind {A B} P R Q E (m : sys A) (f : A -> sys B) :
  triple id P m R E -> (forall a, triple id R (f a) Q E) -> triple id P (m ≫= f) Q E.
Proof.
  intros Hm Hf s k r s' Hk HP. cbn. unfold mbind, sys_bind. destruct (m s) as [[a|e] s1] eqn:Em; intros H.
  - destruct (Hm _ _ _ _ Hk HP Em) as (k1 & B1 & HR).
    destruct (Hf a _ _ _ _ (becomes_lookup _ _ _ _ B1) HR H) as (k2 & B2 & HQ).
    exists k2. split; [by eapply becomes_trans|done].
  - injection H as <- <-. exact (Hm _ _ _ _ Hk HP Em).
Qed.

Lemma triple_weaken {A} P P' Q Q' E E' (m : sys A) :
  (forall k, P' k -> P k) -> (forall k, Q k -> Q' k) -> (forall k, E k -> E' k) -> triple id P m Q E -> triple id P' m Q' E'.
Proof.
  intros HP HQ HE Hm s k r s' Hk Hk' H. destruct (Hm _ _ _ _ Hk (HP _ Hk') H) as (k' & B & Hr).
  exists k'. split; [done|]. destruct r; auto.
Qed.

Lemma triple_setsockopt o v (Q E : sock -> Prop) :
  triple id (fun k => Q (set_opt o v k) /\ E k) (setsockopt id o v) Q E.
Proof.
  unfold setsockopt. apply triple_bind with (fun k => Q (set_opt o v k) /\ E k).
  - apply triple_weaken with (fun k => Q (set_opt o v k) /\ E k) (fun k => Q (set_opt o v k) /\ E k) (fun k => Q (set_opt o v k) /\ E k);
      [done|done|by intros k []|apply triple_call].
  - intros _ s k r s' Hk [HQ _]. rewrite Hk. intros [= <- <-]. by exists (set_opt o v k).
Qed.

Lemma triple_error {A} f P Q E (m : sys A) : triple id P m Q E -> triple id P (sys_error f m) Q E.
Proof.
  intros Hm s k r s' Hk HP. unfold sys_error. destruct (m s) as [r0 s0] eqn:Em. intros [= <- <-].
  destruct (Hm _ _ _ _ Hk HP Em) as (k' & B & Hr). exists k'. split; [done|]. by destruct r0.
Qed.

Lemma triple_ignore P Q E m : triple id P m Q Q -> triple id P (ignore m) Q E.
Proof.
  intros Hm s k r s' Hk HP. unfold ignore. destruct (m s) as [r0 s0] eqn:Em. intros [= <- <-].
  destruct (Hm _ _ _ _ Hk HP Em) as (k' & B & Hr). exists k'. split; [done|]. by destruct r0.
Qed.

(** An invariant no option of [L] matters to. *)
Definition stable (L : list sockopt) (P : sock -> Prop) : Prop := forall o v k, o ∈ L -> P k -> P (set_opt o v k).

Lemma triple_set_stable L o v P : stable L P -> o ∈ L -> triple id P (setsockopt id o v) P P.
Proof.
  intros HP Ho. eapply triple_weaken; [..|apply (triple_setsockopt o v P P)]; [|done|done].
  intros k Hk. split; [by apply HP|done].
Qed.

Definition net_opts : list sockopt := [TCP_NODELAY; SO_KEEPALIVE; TCP_KEEPIDLE; TCP_KEEPINTVL; TCP_KEEPCNT].

Lemma newTCPConn_stable ka P E : stable net_opts P -> triple id P (newTCPConn ka id) P E.
Proof.
  intros HP. unfold newTCPConn. apply triple_bind with P.
  - apply triple_ignore, (triple_set_stable net_opts); [done|set_solver].
  - intros _. destruct (ka <? 0); [apply triple_ret|]. apply triple_ignore.
    repeat (apply triple_bind with P; [apply (triple_set_stable net_opts); [done|set_solver]|intros _]).
    apply (triple_set_stable net_opts); [done|set_solver].
Qed.

(** Options set one after the other, errors or not. *)
Lemma each_error_options l s k es s' :
  socks s !! id = Some k -> each_error ((fun ov => setsockopt id ov.1 ov.2) <$> l) s = (es, s') ->
  exists k', becomes id k' s s' /\ owner k' = owner k /\ wire k' = wire k
  /\ (forall o, o ∉ l.*1 -> sopts k' o = sopts k o)
  /\ (es = [] -> NoDup l.*1 -> forall o v, (o, v) ∈ l -> sopts k' o = Some v).
Proof.
  revert s k es. induction l as [|[o v] l IH]; intros s k es Hk H.
  { injection H as <- <-. exists k. split; [by apply becomes_refl|]. split_and!; try done. intros _ _ o v Hin. by apply elem_of_nil in Hin. }
  cbn [fmap list_fmap each_error fst snd] in H. destruct (setsockopt id o v s) as [r s1] eqn:E1.
  destruct (each_error _ s1) as [es1 s2] eqn:E2. injection H as H <-.
  destruct (triple_setsockopt o v (fun k' => k' = set_opt o v k) (fun k' => k' = k) s k r s1 Hk (conj eq_refl eq_refl) E1)
    as (k1 & B1 & Hr).
  destruct (IH _ _ _ (becomes_lookup _ _ _ _ B1) E2) as (k2 & B2 & Ho & Hw & Hother & Hall).
  exists k2. split; [by eapply becomes_trans|].
  assert (owner k1 = owner k /\ wire k1 = wire k /\ forall x, x <> o -> sopts k1 x = sopts k x) as (O1 & W1 & X1).
  { destruct r; subst k1; [|done]. split_and!; [done|done|]. intros x Hx. cbn. by rewrite decide_False. }
  split; [congruence|]. split; [congruence|]. split.
  - intros x Hx. cbn in Hx. apply not_elem_of_cons in Hx as [Hxo Hx]. rewrite Hother by done. by apply X1.
  - intros -> Hnd x y Hin. destruct r; [|done]. cbn in Hnd. apply NoDup_cons in Hnd as [Hn Hnd].
    apply elem_of_cons in Hin as [[= -> ->]|Hin]; [|by apply Hall].
    rewrite Hother by done. subst k1. cbn. by rewrite decide_True.
Qed.
End triples.

(** *** Tuning *)

Definition tune_list (o : TCPOptions) : list (sockopt * Z) :=
  [(TCP_NODELAY, bool_opt (NoDelay o))]
  ++ (if 0 <? SendBuffer o then [(SO_SNDBUF, SendBuffer o)] else [])
  ++ (if 0 <? RecvBuffer o then [(SO_RCVBUF, RecvBuffer o)] else [])
  ++ (if 0 <? KeepAlive o then [(SO_KEEPALIVE, 1); (TCP_KEEPIDLE, seconds_up (KeepAlive o))] else [(SO_KEEPALIVE, 0)]).

Lemma tune_calls_list id o : tune_calls id o = (fun ov => setsockopt id ov.1 ov.2) <$> tune_list o.
Proof. unfold tune_calls, tune_list. by destruct (0 <? SendBuffer o), (0 <? RecvBuffer o), (0 <? KeepAlive o). Qed.

Lemma tune_list_distinct o : NoDup (tune_list o).*1.
Proof. apply (bool_decide_unpack _). unfold tune_list. by destruct (0 <? SendBuffer o), (0 <? RecvBuffer o), (0 <? KeepAlive o). Qed.

Lemma tune_list_unmarked o : SO_MARK ∉ (tune_list o).*1.
Proof. apply (bool_decide_unpack _). unfold tune_list. by destruct (0 <? SendBuffer o), (0 <? RecvBuffer o), (0 <? KeepAlive o). Qed.

(** A socket has the options that were asked for. *)
Definition tuned (o : TCPOptions) (k : sock) : Prop :=
  sopts k TCP_NODELAY = Some (bool_opt (NoDelay o))
  /\ (0 < SendBuffer o -> sopts k SO_SNDBUF = Some (SendBuffer o))
  /\ (0 < RecvBuffer o -> sopts k SO_RCVBUF = Some (RecvBuffer o))
  /\ (if 0 <? KeepAlive o then sopts k SO_KEEPALIVE = Some 1 /\ sopts k TCP_KEEPIDLE = Some (seconds_up (KeepAlive o))
      else sopts k SO_KEEPALIVE = Some 0).

Lemma tune_list_tuned o k : (forall x v, (x, v) ∈ tune_list o -> sopts k x = Some v) -> tuned o k.
Proof.
  intros H. unfold tune_list in H. split; [apply H; set_solver|]. split; [|split].
  - intros Hs. apply H. rewrite (proj2 (Z.ltb_lt _ _) Hs). set_solver.
  - intros Hs. apply H. rewrite (proj2 (Z.ltb_lt _ _) Hs). set_solver.
  - destruct (0 <? KeepAlive o); [split|]; apply H; set_solver.
Qed.

(** What tuning leaves alone. *)
Definition like (k k' : sock) : Prop := owner k' = owner k /\ wire k' = wire k /\ sopts k' SO_MARK = sopts k SO_MARK.

Lemma TuneConn_spec id o k0 :
  triple id (fun k => k = k0) (TuneConn (Some id) o) (fun k => like k0 k /\ tuned o k) (like k0).
Proof.
  intros s k r s' Hk -> H. unfold TuneConn in H. rewrite tune_calls_list in H.
  destruct (each_error _ s) as [es s1] eqn:E.
  destruct (each_error_options id _ _ _ _ _ Hk E) as (k' & B & Ho & Hw & Hother & Hall).
  exists k'. assert (like k0 k') as Hl by (split_and!; [done|done|apply Hother, tune_list_unmarked]).
  destruct es; injection H as <- <-; (split; [done|]); [|done]. split; [done|].
  apply tune_list_tuned. by apply Hall, tune_list_distinct.
Qed.

(** ** A socket is added, or nothing *)

Definition fresh (s : os) : Prop := forall id, (next s <= id)%N -> socks s !! id = None.

Definition adds (P : sock -> Prop) (r : res nerr N) (s s' : os) : Prop :=
  thread s' = thread s /\ fresh s' /\ (next s <= next s')%N
  /\ match r with
     | Ok id => exists k, socks s !! id = None /\ socks s' = <[id := k]> (socks s) /\ P k
     | Err _ => socks s' = socks s
     end.

Lemma fresh_becomes id k s s' : fresh s -> is_Some (socks s !! id) -> becomes id k s s' -> fresh s'.
Proof.
  intros Hf [k0 Hk] (A & _ & C) x Hx. rewrite A, C in *. rewrite lookup_insert_ne; [by apply Hf|].
  intros ->. rewrite Hf in Hk by done. done.
Qed.

Lemma fresh_close id s : fresh s -> fresh (close id s).
Proof. intros Hf x Hx. cbn. apply lookup_delete_None. right. by apply Hf. Qed.

Lemma adds_weaken (P Q : sock -> Prop) r s s' : (forall k, P k -> Q k) -> adds P r s s' -> adds Q r s s'.
Proof.
  intros H (A & B & C & D). split_and!; [done..|]. destruct r; [|done]. destruct D as (k & ? & ? & ?). eauto.
Qed.

(** What follows on the new socket, which is closed when it fails. *)
Lemma adds_closing {A} P Q id s s1 (m : sys A) r s' :
  adds P (Ok id) s s1 -> triple id P m Q (fun _ => True) ->
  closing id (m ≫= fun _ => mret id) s1 = (r, s') -> adds Q r s s'.
Proof.
  intros (T & F & N & k & Hn & Hs & HP) Hm. unfold closing, mbind, sys_bind.
  assert (socks s1 !! id = Some k) as Hk by (by rewrite Hs, lookup_insert_eq).
  destruct (m s1) as [[a|e] s2] eqn:Em; cbn; intros [= <- <-];
    destruct (Hm _ _ _ _ Hk HP Em) as (k' & B & HQ);
    pose proof (fresh_becomes _ _ _ _ F ltac:(eauto) B) as F'; destruct B as (B1 & B2 & B3).
  - split_and!; [congruence|done|lia|]. exists k'. split; [done|]. split; [|done]. by rewrite B1, Hs, insert_insert_eq.
  - split_and!; [cbn; congruence|by apply fresh_close|cbn; lia|]. cbn. rewrite B1, Hs, insert_insert_eq. by apply delete_insert_id.
Qed.

Lemma socket_adds s r s' :
  fresh s -> socket s = (r, s') -> adds (fun k => k = MkSock (thread s) (fun _ => None) (Writer [] None)) r s s'.
Proof.
  intros Hf. unfold socket. destruct (call s) as [[[]|e] s1] eqn:Ec; intros [= <- <-];
    apply call_same in Ec as (A & B & C & _).
  - split_and!; cbn; [done| |lia|].
    + intros x Hx. cbn in *. rewrite lookup_insert_ne by lia. rewrite A. apply Hf. lia.
    + eexists. split; [|by rewrite A, B]. rewrite C. apply Hf. lia.
  - split_and!; [done| |lia|done]. intros x Hx. rewrite A, C in *. by apply Hf.
Qed.

Lemma sys_bind_assoc {A B C} (m : sys A) (f : A -> sys B) (g : B -> sys C) s :
  ((m ≫= f) ≫= g) s = (m ≫= fun a => f a ≫= g) s.
Proof. unfold mbind, sys_bind. by destruct (m s) as [[]]. Qed.

Lemma closing_ext {A} id (m m' : sys A) s : (forall x, m x = m' x) -> closing id m s = closing id m' s.
Proof. intros H. unfold closing. by rewrite H. Qed.

(** ** Dialling *)

Section dialling.
Context `{Machine} `{Network}.

(** The socket as [Control] may have left it, whatever [net] sets. *)
Definition dialled (g mark : Z) (k : sock) : Prop :=
  owner k = g /\ wire k = Writer [] None /\ (0 < mark -> sopts k SO_MARK = Some mark).

Definition control_of (p : platform) (mark : Z) (id : N) : sys unit :=
  if 0 <? mark then SetSocketMark p id mark else mret tt.

Lemma control_spec p mark g id :
  triple id (fun k => k = MkSock g (fun _ => None) (Writer [] None)) (control_of p mark id) (dialled g mark) (fun _ => True).
Proof.
  unfold control_of, SetSocketMark. destruct (0 <? mark) eqn:Em; bool_facts.
  - rewrite (proj2 (Z.leb_gt _ _)) by lia. destruct (linux p).
    + eapply triple_weaken; [..|apply (triple_setsockopt id SO_MARK mark (dialled g mark) (fun _ => True))]; [|done|done].
      intros k ->. unfold dialled. cbn. done.
    + eapply triple_weaken; [..|apply (triple_raise id _ (fun _ => True) (dialled g mark))]; done.
  - eapply triple_weaken; [..|apply (triple_ret id tt (dialled g mark) (fun _ => True))]; [|done|done].
    intros k ->. unfold dialled. cbn. split_and!; [done..|lia].
Qed.

Lemma dialled_stable g mark : stable net_opts (dialled g mark).
Proof.
  intros o v k Ho (A & B & C). split_and!; [done|done|]. intros Hm. cbn. rewrite decide_False; [by apply C|].
  intros <-. unfold net_opts in Ho. set_solver.
Qed.

Lemma dialSingle_adds p mark a s r s' :
  fresh s -> dialSingle (control_of p mark) a s = (r, s') -> adds (dialled (thread s) mark) r s s'.
Proof.
  intros Hf. unfold dialSingle, mbind at 1, sys_bind at 1. destruct (socket s) as [[id|e] s1] eqn:Es;
    pose proof (socket_adds _ _ _ Hf Es) as Ha; [|intros [= <- <-]; exact Ha].
  rewrite (closing_ext id _ ((control_of p mark id ≫= fun _ => call ≫= fun _ => newTCPConn 0 id) ≫= fun _ => mret id))
    by (intros x; rewrite !sys_bind_assoc; unfold mbind, sys_bind;
        destruct (control_of p mark id x) as [[]]; [|done]; by destruct (call o) as [[]]).
  apply (adds_closing _ _ _ _ _ _ _ _ Ha).
  apply triple_bind with (dialled (thread s) mark); [apply control_spec|]. intros _.
  apply triple_bind with (dialled (thread s) mark);
    [eapply triple_weaken; [..|apply (triple_call id (dialled (thread s) mark))]; done|]. intros _.
  apply newTCPConn_stable, dialled_stable.
Qed.

Lemma adds_after P r s s1 s' :
  socks s1 = socks s -> thread s1 = thread s -> (next s <= next s1)%N -> adds P r s1 s' -> adds P r s s'.
Proof. intros A B C (T & F & N & R). rewrite A, B in *. split_and!; [done|done|lia|done]. Qed.

Lemma dialSerial_adds p mark first addrs s r s' :
  fresh s -> dialSerial (control_of p mark) first addrs s = (r, s') -> adds (dialled (thread s) mark) r s s'.
Proof.
  revert first s. induction addrs as [|a addrs IH]; intros first s Hf; cbn [dialSerial].
  - intros [= <- <-]. split_and!; [done|done|lia|done].
  - destruct (dialSingle _ a s) as [[id|e] s1] eqn:E; pose proof (dialSingle_adds _ _ _ _ _ _ Hf E) as Ha.
    + intros [= <- <-]. exact Ha.
    + destruct Ha as (T & F & N & R). intros Hr. apply (adds_after _ _ _ s1); [done..|]. rewrite <- T. by apply (IH _ _ F Hr).
Qed.

(** Of two sockets that were added one is closed again. *)
Lemma adds_two P id id' s s1 s2 (first : bool) :
  adds P (Ok id) s s1 -> adds P (Ok id') s1 s2 ->
  adds P (Ok (if first then id else id')) s (close (if first then id' else id) s2).
Proof.
  intros (T1 & F1 & N1 & k & Hn & Hs & HP) (T2 & F2 & N2 & k' & Hn' & Hs' & HP').
  assert (id' <> id) as Hne by (intros ->; by rewrite Hs, lookup_insert_eq in Hn').
  assert (socks s !! id' = None) as Hn'' by (by rewrite Hs, lookup_insert_ne in Hn').
  split_and!; [cbn; congruence|by apply fresh_close|cbn; lia|]. cbn. rewrite Hs', Hs. destruct first.
  - exists k. split; [done|]. split; [|done]. apply delete_insert_id. by rewrite lookup_insert_ne.
  - exists k'. split; [done|]. split; [|done]. rewrite delete_insert_ne by done. by rewrite delete_insert_id.
Qed.

Lemma racers_adds p mark prim fall s r s' :
  fresh s -> racers (control_of p mark) prim fall s = (r, s') -> adds (dialled (thread s) mark) r s s'.
Proof.
  intros Hf. unfold racers. destruct (dialSerial _ None prim s) as [[id|e] s1] eqn:E1;
    pose proof (dialSerial_adds _ _ _ _ _ _ _ Hf E1) as H1; pose proof H1 as (T & F & N & R).
  - destruct race as [first|]; [|intros [= <- <-]; exact H1].
    destruct (dialSerial _ None fall s1) as [[id'|e'] s2] eqn:E2;
      pose proof (dialSerial_adds _ _ _ _ _ _ _ F E2) as H2; rewrite T in H2.
    + pose proof (adds_two _ _ _ _ _ _ first H1 H2) as H3. destruct first; intros [= <- <-]; exact H3.
    + destruct H2 as (T2 & F2 & N2 & R2). intros [= <- <-]. split_and!; [congruence|done|lia|].
      destruct R as (k & A & B & C). exists k. split; [done|]. split; [|done]. by rewrite R2, B.
  - destruct (dialSerial _ None fall s1) as [[id'|e'] s2] eqn:E2;
      pose proof (dialSerial_adds _ _ _ _ _ _ _ F E2) as H2; rewrite T in H2; intros [= <- <-].
    + by apply (adds_after _ _ _ s1).
    + by apply (adds_after _ _ _ s1).
Qed.
(** Whether a name has addresses of both kinds. *)
Definition both_kinds (addr : bytes) : bool :=
  match resolve addr with
  | Ok addrs => negb (bool_decide ((partition addrs).2 = []))
  | Err _ => false
  end.

Lemma DialContext_adds p mark addr s r s' :
  fresh s -> DialContext (control_of p mark) addr s = (r, s') ->
  adds (dialled (if both_kinds addr then processGID else thread s) mark) r s s'.
Proof.
  intros Hf. unfold DialContext, both_kinds. destruct (resolve addr) as [addrs|e].
  - destruct (partition addrs) as [prim fall]. cbn [snd]. unfold dialParallel. destruct fall as [|b fall].
    + apply (dialSerial_adds _ _ _ _ _ _ _ Hf).
    + unfold elsewhere. rewrite bool_decide_eq_false_2 by done. cbn [negb].
      destruct (racers _ _ _ _) as [r0 s0] eqn:E. intros [= <- <-].
      destruct (racers_adds _ _ _ _ (set_thread processGID s) _ _ Hf E) as (T & F & N & R). by split_and!.
  - intros [= <- <-]. split_and!; [done|done|lia|done].
Qed.

Lemma threadFSGID_same s r s' : threadFSGID s = (r, s') -> socks s' = socks s /\ thread s' = thread s /\ next s' = next s.
Proof.
  unfold threadFSGID, mbind, sys_bind. destruct (call s) as [[[]|e] s1] eqn:E; apply call_same in E as (A & B & C & _).
  - rewrite B. destruct (proc_status (thread s)). by intros [= <- <-].
  - by intros [= <- <-].
Qed.

Lemma probe_once_same gid s r s' : probe_once gid s = (r, s') -> socks s' = socks s /\ thread s' = thread s /\ next s' = next s.
Proof.
  unfold probe_once, probe. destruct (gidProbe s) as [e|].
  - by intros [= <- <-].
  - destruct (threadFSGID s) as [a s1] eqn:E. apply threadFSGID_same in E as (A & B & C). by intros [= <- <-].
Qed.

(** The group a thread that asked for [gid] dials under. *)
Definition taken (gid : Z) : Z := if (0 <? gid) && may_take gid then gid else processGID.

Lemma Setfsgid_same g s r s' :
  Setfsgid g s = (r, s') ->
  socks s' = socks s /\ next s' = next s /\ gidProbe s' = gidProbe s
  /\ match r with Ok _ => refused = None /\ thread s' = (if may_take g then g else thread s) | Err _ => s' = s /\ refused <> None end.
Proof. unfold Setfsgid. destruct refused; [by intros [= <- <-]|]. by destruct (may_take g); intros [= <- <-]. Qed.

(** A dial under a group: the thread is given back with the group of the
    process, and the socket is of the group the kernel gave, unless the dial
    left the thread. *)
Lemma DialWithSocketGID_adds p gid mark addr s r s' :
  fresh s -> thread s = processGID -> may_take processGID = true ->
  DialWithSocketGID p gid (DialContext (control_of p mark) addr) s = (r, s') ->
  adds (dialled (if both_kinds addr then processGID else taken gid) mark) r s s'.
Proof.
  intros Hf Ht Hm. unfold DialWithSocketGID, taken. destruct (gid <=? 0) eqn:Eg; bool_facts.
  { intros Hd. rewrite (proj2 (Z.ltb_ge _ _)) by lia. rewrite <- Ht. cbn [andb].
    pose proof (DialContext_adds _ _ _ _ _ _ Hf Hd) as Ha. by rewrite Ht in Ha |- *. }
  rewrite (proj2 (Z.ltb_lt _ _)) by lia. cbn [andb].
  destruct (linux p); cbn [negb]; [|intros [= <- <-]; split_and!; [done|done|lia|done]].
  unfold mbind at 1, sys_bind at 1, sys_error. destruct (Setfsgid gid s) as [r0 s0] eqn:E0.
  apply Setfsgid_same in E0 as (A0 & C0 & _ & R0). destruct r0 as [u|e]; cbn [map_err];
    [|destruct R0 as [-> _]; intros [= <- <-]; split_and!; [done|done|lia|done]].
  destruct R0 as [Href R0]. unfold mbind, sys_bind. destruct (probe_once gid s0) as [r1 s1] eqn:E1.
  apply probe_once_same in E1 as (A1 & B1 & C1).
  assert (fresh s1) as F1 by (intros x Hx; rewrite A1, A0; apply Hf; lia).
  assert (forall r2 s2, adds (dialled (if both_kinds addr then processGID else thread s1) mark) r2 s1 s2 ->
    adds (dialled (if both_kinds addr then processGID else if may_take gid then gid else processGID) mark) r2 s (Setfsgid processGID s2).2) as Hback.
  { intros r2 s2 Ha. assert (thread s1 = if may_take gid then gid else processGID) as Hg by (rewrite B1, R0, Ht; done).
    rewrite Hg in Ha. destruct (Setfsgid processGID s2) as [r3 s3] eqn:E3. apply Setfsgid_same in E3 as (A3 & C3 & _ & R3).
    destruct r3 as [v|e]; [|by destruct R3 as [_ R3]]. destruct R3 as [_ R3]. rewrite Hm in R3.
    destruct Ha as (T & F & N & R). split_and!; cbn [snd]; [congruence| |lia|].
    - intros x Hx. rewrite A3. apply F. lia.
    - destruct r2; [destruct R as (k & ? & ? & ?); exists k|]; rewrite A3; by rewrite A1, A0 in *. }
  destruct r1 as [[]|e].
  - destruct (DialContext _ _ s1) as [r2 s2] eqn:E2. intros [= <- <-]. apply Hback. exact (DialContext_adds _ _ _ _ _ _ F1 E2).
  - intros [= <- <-]. apply Hback. split_and!; [done|done|lia|done].
Qed.

Section opened.
Context `{JsonCodec}.
Variable p : platform.

(** The four ways to open a connection to a server. *)
Inductive opening : Type :=
  | ForControl | ForWork | ForWorkWith (m : Message) | ForMux.

Definition open_with (o : opening) (d : Dialer) : sys N :=
  match o with
  | ForControl => DialControl p d
  | ForWork => DialWork p d
  | ForWorkWith m => d_DialWorkWith p m d
  | ForMux => DialMux p d
  end.

(** The first bytes on each. *)
Definition greeting (o : opening) : option bytes :=
  match o with
  | ForControl | ForWork => Some (preamble_bytes (MkPreamble Version ModePlain))
  | ForMux => Some (preamble_bytes (MkPreamble Version ModeMux))
  | ForWorkWith m =>
      match encode m with
      | Ok frame => Some (preamble_bytes (MkPreamble Version ModePlain) ++ frame)
      | Err _ => None
      end
  end.

(** A socket that is dialled and tuned, with [sent] written on it. *)
Definition opened (d : Dialer) (g : Z) (sent : list bytes) (k : sock) : Prop :=
  owner k = g /\ wire k = Writer sent None /\ (0 < SocketMark d -> sopts k SO_MARK = Some (SocketMark d)) /\ tuned (d_TCPOptions d) k.

Lemma dial_adds d s r s' :
  fresh s -> thread s = processGID -> may_take processGID = true -> dial p d s = (r, s') ->
  adds (opened d (if both_kinds (Addr d) then processGID else taken (SocketGID d)) []) r s s'.
Proof.
  intros Hf Ht Hm. unfold dial, mbind at 1, sys_bind at 1. unfold sys_error at 1.
  destruct (DialWithSocketGID _ _ _ s) as [r0 s0] eqn:E. apply (DialWithSocketGID_adds _ _ _ _ _ _ _ Hf Ht Hm) in E.
  destruct r0 as [id|e]; cbn [map_err]; [|intros [= <- <-]; exact E].
  apply (adds_closing _ _ _ _ _ _ _ _ E). apply triple_error.
  intros s1 k r1 s2 Hk (Ho & Hw & Hmk) Hr. destruct (TuneConn_spec _ _ _ _ _ _ _ Hk eq_refl Hr) as (k' & B & R).
  exists k'. split; [exact B|]. destruct r1; [|done]. destruct R as ((R1 & R2 & R3) & R4).
  split_and!; [congruence|congruence|by rewrite R3|done].
Qed.

(** A write that succeeds wrote [bs], all of it; one on a broken connection
    fails. *)
Lemma write_spec d g id f bs :
  (forall w, f (Writer [] None) = (Ok tt, w) -> w = Writer [bs] None) ->
  (forall e, exists er w, f (Writer [] (Some e)) = (Err er, w)) ->
  triple id (opened d g []) (write_on id f)
    (fun k => f (Writer [] None) = (Ok tt, Writer [bs] None) /\ opened d g [bs] k) (fun _ => True).
Proof.
  intros Hok Hbad s k r s' Hk (Ho & Hw & Hm & Ht). unfold write_on. rewrite Hk.
  destruct (call s) as [r0 s0] eqn:Ec. apply call_same in Ec as (A & B & C & _). rewrite Hw. cbn [written].
  assert (forall w, becomes id (MkSock (owner k) (sopts k) w) s
    (set_socks (<[id := MkSock (owner k) (sopts k) w]> (socks s0)) s0)) as Hb by (intros w; split_and!; cbn; congruence).
  set (w0 := match r0 with Err (Errno e) => Writer [] (Some (NetErr e)) | _ => Writer [] None end).
  assert ((exists e, w0 = Writer [] (Some e)) \/ w0 = Writer [] None) as Hc
    by (unfold w0; destruct r0 as [|[]]; first [by right|left; eauto]).
  destruct (f w0) as [r1 w] eqn:Ef. intros [= <- <-]. exists (MkSock (owner k) (sopts k) w). split; [done|].
  destruct Hc as [[e He]|He].
  - destruct (Hbad e) as (er & w' & Hx). rewrite He, Hx in Ef. by injection Ef as <- <-.
  - destruct r1 as [[]|]; [|done]. rewrite He in Ef. pose proof (Hok _ Ef) as ->. by split_and!.
Qed.

Lemma greet_writes mode :
  (forall w, greet mode (Writer [] None) = (Ok tt, w) -> w = Writer [preamble_bytes (MkPreamble Version mode)] None)
  /\ (forall e, exists er w, greet mode (Writer [] (Some e)) = (Err er, w)).
Proof. split; [by intros w [= <-]|]. intros e. by do 2 eexists. Qed.

(** Every way to open a connection adds one socket, or none. *)
Lemma open_with_adds o d s r s' :
  fresh s -> thread s = processGID -> may_take processGID = true -> open_with o d s = (r, s') ->
  adds (fun k => exists bs, greeting o = Some bs
    /\ opened d (if both_kinds (Addr d) then processGID else taken (SocketGID d)) [bs] k) r s s'.
Proof.
  intros Hf Ht Hm. set (g := if both_kinds (Addr d) then _ else _).
  assert (forall (m : N -> sys unit) (Q : sock -> Prop),
    (forall id, triple id (opened d g []) (m id) Q (fun _ => True)) ->
    (dial p d ≫= fun conn => closing conn (m conn ≫= fun _ => mret conn)) s = (r, s') -> adds Q r s s') as Hgo.
  { intros m Q Hq. unfold mbind at 1, sys_bind at 1. destruct (dial p d s) as [[id|e] s1] eqn:Ed;
      apply (dial_adds _ _ _ _ Hf Ht Hm) in Ed; [|intros [= <- <-]; exact Ed].
    apply (adds_closing _ _ _ _ _ _ _ _ Ed), Hq. }
  destruct o as [| |m|]; cbn [open_with greeting].
  - unfold DialControl. intros Hr. apply (Hgo (fun conn => (if TLSConfig d then sys_error (ErrHandshake (Addr d)) call else mret tt) ≫= fun _ => d_greet conn ModePlain)).
    + intros id. apply triple_bind with (opened d g []).
      * destruct (TLSConfig d); [apply triple_error|apply triple_ret].
        apply triple_weaken with (opened d g []) (opened d g []) (opened d g []); [done..|]. apply triple_call.
      * intros _. (eapply triple_weaken; [done| |done|apply write_spec; apply greet_writes]). intros k []. eauto.
    + rewrite <- Hr. unfold mbind at 1 4, sys_bind at 1 4. destruct (dial p d s) as [[id|e] s1]; [|done].
      apply closing_ext. intros x. by rewrite sys_bind_assoc.
  - apply (Hgo (fun conn => d_greet conn ModePlain)). intros id.
    (eapply triple_weaken; [done| |done|apply write_spec; apply greet_writes]). intros k []. eauto.
  - apply (Hgo (fun conn => write_on conn (DialWorkWith m))). intros id. destruct (encode m) as [frame|e] eqn:Em.
    + eapply triple_weaken; [done| |done|apply (write_spec d g id (DialWorkWith m) (preamble_bytes (MkPreamble Version ModePlain) ++ frame))];
        unfold DialWorkWith, WriteGreeting; rewrite ?Em; [intros k []; eauto|by intros w [= <-]|by do 2 eexists].
    + eapply triple_weaken; [done| |done|apply (write_spec d g id (DialWorkWith m) [])];
        unfold DialWorkWith, WriteGreeting; rewrite Em; [by intros k []|done|by do 2 eexists].
  - apply (Hgo (fun conn => d_greet conn ModeMux)). intros id.
    (eapply triple_weaken; [done| |done|apply write_spec; apply greet_writes]). intros k []. eauto.
Qed.

(** What the server makes of a greeting. *)
Lemma greeting_read o bs more e :
  greeting o = Some bs ->
  match o with
  | ForMux => handleConn (Stream (bs ++ more) e) = (GreetsMux, Stream more e)
  | ForControl | ForWork =>
      handleConn (Stream (bs ++ more) e) = (GreetsPlain (handlePlain (Stream more e)).1, (handlePlain (Stream more e)).2)
  | ForWorkWith m =>
      transmissible m -> exists frame, bs = preamble_bytes (MkPreamble Version ModePlain) ++ frame
      /\ ReadMessage (Stream (frame ++ more) e) = (Ok m, Stream more e)
      /\ handleConn (Stream (bs ++ more) e) = (GreetsPlain (handlePlain (Stream (frame ++ more) e)).1, Stream more e)
  end.
Proof.
  assert (forall mode rest, mode = ModePlain \/ mode = ModeMux ->
    ReadPreamble (Stream (preamble_bytes (MkPreamble Version mode) ++ rest) e) = (Ok (MkPreamble Version mode), Stream rest e)) as Hp
    by (intros mode rest Hm; by apply ReadPreamble_spec).
  destruct o as [| |m|]; cbn [greeting]; intros Hb.
  - injection Hb as <-. unfold handleConn. rewrite Hp by (by left). cbn [p_Mode]. rewrite Z.eqb_refl. by destruct (handlePlain _).
  - injection Hb as <-. unfold handleConn. rewrite Hp by (by left). cbn [p_Mode]. rewrite Z.eqb_refl. by destruct (handlePlain _).
  - destruct (encode m) as [frame|] eqn:Em; [|done]. injection Hb as <-. intros Ht. exists frame.
    split; [done|]. split; [by apply ReadMessage_frame|]. exact (proj1 (handleConn_plain m frame more e Ht Em)).
  - injection Hb as <-. unfold handleConn. rewrite Hp by (by right). done.
Qed.

(** C36: a dial gives a connection that is ready, or nothing.  However its system
    calls fail, a connection that cannot be finished is closed: no socket is
    left behind and none is touched; and the thread is given back with the
    group of the process.  A connection that is returned is one new socket, of
    the mark and with the options that were asked for, on which exactly the
    greeting of its kind was written; and the server reads it as that. *)
Theorem open_all_or_nothing o d s r s' :
  fresh s -> thread s = processGID -> may_take processGID = true -> open_with o d s = (r, s') ->
  thread s' = processGID /\ fresh s'
  /\ match r with
     | Err _ => socks s' = socks s
     | Ok id => exists k bs, socks s !! id = None /\ socks s' = <[id := k]> (socks s)
         /\ greeting o = Some bs /\ wire k = Writer [bs] None /\ tuned (d_TCPOptions d) k
         /\ (0 < SocketMark d -> sopts k SO_MARK = Some (SocketMark d))
         /\ forall more e, match o with
            | ForMux => handleConn (Stream (bs ++ more) e) = (GreetsMux, Stream more e)
            | ForControl | ForWork =>
                handleConn (Stream (bs ++ more) e) = (GreetsPlain (handlePlain (Stream more e)).1, (handlePlain (Stream more e)).2)
            | ForWorkWith m => transmissible m -> exists frame, bs = preamble_bytes (MkPreamble Version ModePlain) ++ frame
                /\ ReadMessage (Stream (frame ++ more) e) = (Ok m, Stream more e)
                /\ handleConn (Stream (bs ++ more) e) = (GreetsPlain (handlePlain (Stream (frame ++ more) e)).1, Stream more e)
            end
     end.
Proof.
  intros Hf Ht Hm Hr. destruct (open_with_adds _ _ _ _ _ Hf Ht Hm Hr) as (T & F & _ & R).
  split; [congruence|]. split; [done|]. destruct r as [id|]; [|done].
  destruct R as (k & Hn & Hs & bs & Hb & _ & Hw & Hmk & Htu). exists k, bs. split_and!; [done..|].
  intros more e. by apply greeting_read.
Qed.
End opened.
End dialling.

(** ** Which group a connection is of *)

Lemma leading_space_tab s : leading_space (x09 :: s) = Some [x09].
Proof.
  unfold leading_space, space_runes. cbn [find]. unfold HasPrefix. rewrite bool_decide_eq_false_2.
  - rewrite bool_decide_eq_true_2; [done|]. by exists s.
  - intros [k Hk]. discriminate Hk.
Qed.

(** Words between single tabs. *)
Lemma Fields_tabs w ws : word w -> Forall word ws -> Fields (w ++ concat ((fun x => x09 :: x) <$> ws)) = w :: ws.
Proof.
  intros Hw Hws. unfold Fields.
  assert (forall fuel, (length (w ++ concat ((fun x => x09 :: x) <$> ws)) <= fuel)%nat ->
    fields_from fuel (w ++ concat ((fun x => x09 :: x) <$> ws)) [] = w :: ws) as H; [|by apply H].
  revert w Hw. induction Hws as [|v ws Hv _ IH]; intros w [Hw1 Hw2] fuel Hlen; cbn [fmap list_fmap concat] in *;
    rewrite !length_app in Hlen; rewrite fields_word by (done || lia); rewrite app_nil_l.
  - destruct (fuel - length w)%nat; cbn; by rewrite bool_decide_eq_false_2.
  - cbn [length] in Hlen. destruct (fuel - length w)%nat as [|n] eqn:E; [lia|].
    cbn [fields_from app]. rewrite leading_space_tab, bool_decide_eq_false_2 by done. cbn [length drop app]. f_equal.
    apply IH; [done|]. rewrite !length_app. lia.
Qed.

Lemma Itoa_word z : 0 <= z -> word (Itoa z).
Proof.
  intros Hz. split.
  - intros H. pose proof (utoa_not_nil (Z.to_N z)). unfold Itoa in H. by rewrite (proj2 (Z.ltb_ge _ _)) in H.
  - eapply Forall_impl; [by apply Itoa_digits|]. intros b Hb. by apply digit_plain.
Qed.

(** The documented form of [/proc/<tid>/status] (proc_pid_status(5)): lines,
    among them one with the real, effective, saved and file system group, for a
    thread of any group it can have. *)
Class ProcDocs `{Machine} := {
  thread_group g : g = processGID \/ may_take g = true -> 0 <= g /\ in_i64 g;
  status_form g : g = processGID \/ may_take g = true -> exists before rgid egid sgid rest fin,
    proc_status g = (Join (before ++ [go "Gid:" ++ concat ((fun x => x09 :: x) <$> [Itoa rgid; Itoa egid; Itoa sgid; Itoa g])] ++ rest) [x0a], fin)
    /\ 0 <= rgid /\ 0 <= egid /\ 0 <= sgid
    /\ Forall (fun l => x0a ∉ l /\ Z.of_nat (length l) < 65536 /\ HasPrefix l (go "Gid:") = false) before
    /\ Forall (fun l => x0a ∉ l) rest
    /\ Z.of_nat (length (concat ((fun x => x09 :: x) <$> [Itoa rgid; Itoa egid; Itoa sgid; Itoa g]))) < 65000
}.

(** Computations that leave the probe alone. *)
Definition keeps_probe {A} (m : sys A) : Prop := forall s r s', m s = (r, s') -> gidProbe s' = gidProbe s.

Lemma keeps_ret {A} (a : A) : keeps_probe (mret a).
Proof. by intros s r s' [= <- <-]. Qed.
Lemma keeps_raise {A} e : keeps_probe (raise e : sys A).
Proof. by intros s r s' [= <- <-]. Qed.
Lemma keeps_call : keeps_probe call.
Proof. by intros s r s' (_ & _ & _ & ?)%call_same. Qed.
Lemma keeps_bind {A B} (m : sys A) (f : A -> sys B) : keeps_probe m -> (forall a, keeps_probe (f a)) -> keeps_probe (m ≫= f).
Proof.
  intros Hm Hf s r s'. unfold mbind, sys_bind. destruct (m s) as [[a|e] s1] eqn:E; intros Hr.
  - rewrite (Hf _ _ _ _ Hr). by eapply Hm.
  - injection Hr as <- <-. by eapply Hm.
Qed.
Lemma keeps_error {A} f (m : sys A) : keeps_probe m -> keeps_probe (sys_error f m).
Proof. intros Hm s r s'. unfold sys_error. destruct (m s) as [r0 s0] eqn:E. intros [= <- <-]. by eapply Hm. Qed.
Lemma keeps_ignore m : keeps_probe m -> keeps_probe (ignore m).
Proof. intros Hm s r s'. unfold ignore. destruct (m s) as [r0 s0] eqn:E. intros [= <- <-]. by eapply Hm. Qed.
Lemma keeps_closing {A} id (m : sys A) : keeps_probe m -> keeps_probe (closing id m).
Proof. intros Hm s r s'. unfold closing. destruct (m s) as [[]] eqn:E; intros [= <- <-]; by apply Hm in E. Qed.
Lemma keeps_setsockopt id o v : keeps_probe (setsockopt id o v).
Proof. apply keeps_bind; [apply keeps_call|]. intros _ s r s'. by destruct (socks s !! id); intros [= <- <-]. Qed.
Lemma keeps_socket : keeps_probe socket.
Proof. intros s r s'. unfold socket. destruct (call s) as [[]] eqn:E; intros [= <- <-]; by apply keeps_call in E. Qed.
Lemma keeps_write id f : keeps_probe (write_on id f).
Proof.
  intros s r s'. unfold write_on. destruct (socks s !! id); [|by intros [= <- <-]].
  destruct (call s) as [r1 s1] eqn:E. apply keeps_call in E. destruct (f _). by intros [= <- <-].
Qed.
Lemma keeps_TuneConn tc o : keeps_probe (TuneConn tc o).
Proof.
  destruct tc as [id|]; [|apply keeps_ret]. intros s r s'. unfold TuneConn. rewrite tune_calls_list. generalize (tune_list o). intros l.
  assert (gidProbe (each_error ((fun ov => setsockopt id ov.1 ov.2) <$> l) s).2 = gidProbe s) as Hl.
  { revert s. induction l as [|ov l IH]; intros s; [done|]. cbn [fmap list_fmap each_error].
    destruct (setsockopt _ _ _ s) as [r1 s1] eqn:E. apply keeps_setsockopt in E.
    specialize (IH s1). destruct (each_error _ s1). cbn in *. congruence. }
  destruct (each_error _ s) as [[|e es] s1]; by intros [= <- <-].
Qed.
Create HintDb probe.
#[export] Hint Resolve keeps_ret keeps_raise keeps_call keeps_bind keeps_error keeps_ignore keeps_closing keeps_setsockopt
  keeps_socket keeps_write keeps_TuneConn : probe.

Section group.
Context `{Docs : ProcDocs} `{Network} `{JsonCodec}.

Lemma drop_cr_prefix l p : HasPrefix l p = false -> HasPrefix (drop_cr l) p = false.
Proof.
  intros Hl. destruct (HasPrefix (drop_cr l) p) eqn:E; [|done]. apply HasPrefix_true in E as [k Hk].
  rewrite <- Hl. symmetry. apply HasPrefix_true. unfold drop_cr, TrimSuffix in Hk. destruct (HasSuffix l [x0d]); [|by exists k].
  exists (k ++ drop (length l - length [x0d]) l). rewrite app_assoc, <- Hk. by rewrite take_drop.
Qed.

Lemma gid_line_reads g before ids rest fin :
  length ids = 4%nat -> ids !! 3%nat = Some (Itoa g) -> Forall word ids -> in_i64 g ->
  Z.of_nat (length (concat ((fun x => x09 :: x) <$> ids))) < 65000 ->
  Forall (fun l => x0a ∉ l /\ Z.of_nat (length l) < 65536 /\ HasPrefix l (go "Gid:") = false) before ->
  gid_line fin (before ++ [go "Gid:" ++ concat ((fun x => x09 :: x) <$> ids)] ++ rest) = Ok g.
Proof.
  intros H4 Hg Hids Hin Hlen Hb. induction Hb as [|l before (_ & Hl & Hp) _ IH]; cbn [app gid_line].
  - set (line := go "Gid:" ++ _). assert (drop_cr line = line) as ->.
    { unfold drop_cr, TrimSuffix. destruct (HasSuffix line [x0d]) eqn:E; [|done]. exfalso.
      assert (exists l c, line = l ++ [c] /\ no_space c) as (l & c & El & Hc).
      { destruct ids as [|a [|b [|d [|e [|]]]]]; try done. injection Hg as ->. unfold line.
        rewrite !Forall_cons in Hids. destruct Hids as (_ & _ & _ & [Hn Hs] & _).
        destruct (exists_last Hn) as (l & c & Eg). rewrite Eg in Hs |- *. exists (go "Gid:" ++ x09 :: a ++ x09 :: b ++ x09 :: d ++ x09 :: l), c.
        split; [cbn [fmap list_fmap concat]; rewrite app_nil_r; repeat (rewrite <- app_assoc; cbn [app]); done|]. apply Forall_app in Hs as [_ Hs]. by inversion Hs. }
      apply HasSuffix_true in E as [k Hk]. rewrite El in Hk. apply app_inj_2 in Hk as [_ [= ->]]; [|done].
      revert Hc. apply (bool_decide_unpack (~ no_space x0d)). by vm_compute. }
    rewrite (proj2 (Z.leb_gt _ _)) by (unfold line; rewrite length_app; change (length (go "Gid:")) with 4%nat; lia).
    assert (HasPrefix line (go "Gid:") = true) as -> by apply HasPrefix_app. cbn [negb]. unfold line. rewrite Fields_tabs; [|by apply (bool_decide_unpack _); vm_compute|done].
    change ((go "Gid:" :: ids) !! 4%nat) with (ids !! 3%nat). rewrite Hg. by rewrite Atoi_Itoa.
  - rewrite (proj2 (Z.leb_gt _ _)) by lia. rewrite drop_cr_prefix by done. exact IH.
Qed.

(** The probe reads the group of the thread. *)
Lemma threadFSGID_reads s g s' :
  thread s = processGID \/ may_take (thread s) = true -> threadFSGID s = (Ok g, s') -> g = thread s.
Proof.
  intros Hg. destruct (thread_group _ Hg) as [Hz Hi]. unfold threadFSGID, mbind, sys_bind. destruct (call s) as [[[]|e] s1] eqn:Ec; [|done].
  apply call_same in Ec as (_ & -> & _).
  destruct (status_form (thread s) Hg) as (before & r & e & sg & rest & fin & -> & Hr & He & Hs & Hb & Hrest & Hlen).
  rewrite Split_Join.
  - rewrite (gid_line_reads (thread s)); [by intros [= <- _]|done|done| |done|done|done].
    repeat (apply Forall_cons; split); try by apply Itoa_word. by apply Forall_nil.
  - by destruct before.
  - apply Forall_app. split; [eapply Forall_impl; [exact Hb|]; by intros l [? _]|]. apply Forall_app. split; [|exact Hrest].
    apply Forall_cons. split; [|by apply Forall_nil]. rewrite not_elem_of_app. split; [by apply (bool_decide_unpack _); vm_compute|].
    cbn [fmap list_fmap concat]. rewrite app_nil_r, !not_elem_of_app, !not_elem_of_cons.
    split_and!; try done; apply no_newline; apply Itoa_word; done.
Qed.

Lemma keeps_control p mark id : keeps_probe (control_of p mark id).
Proof. unfold control_of, SetSocketMark. repeat case_match; auto with probe. Qed.

Lemma keeps_dialSingle p mark a : keeps_probe (dialSingle (control_of p mark) a).
Proof.
  apply keeps_bind; [auto with probe|]. intros id. apply keeps_closing, keeps_bind; [apply keeps_control|]. intros _.
  apply keeps_bind; [auto with probe|]. intros _. apply keeps_bind; [|auto with probe].
  unfold newTCPConn. apply keeps_bind; [auto with probe|]. intros _. case_match; auto 10 with probe.
Qed.

Lemma keeps_dialSerial p mark first addrs : keeps_probe (dialSerial (control_of p mark) first addrs).
Proof.
  revert first. induction addrs as [|a addrs IH]; intros first; cbn [dialSerial]; [auto with probe|].
  intros s r s'. destruct (dialSingle _ a s) as [[id|e] s1] eqn:E; apply keeps_dialSingle in E; [by intros [= <- <-]|].
  intros Hr. apply IH in Hr. congruence.
Qed.

Lemma keeps_DialContext p mark addr : keeps_probe (DialContext (control_of p mark) addr).
Proof.
  unfold DialContext. destruct (resolve addr); [|auto with probe]. destruct (partition _) as [prim fall].
  unfold dialParallel. destruct fall as [|b fall]; [apply keeps_dialSerial|]. intros s r s'. unfold elsewhere, racers.
  destruct (dialSerial _ None prim _) as [[id|e] s1] eqn:E1; apply keeps_dialSerial in E1.
  - destruct race as [first|]; [|by intros [= <- <-]].
    destruct (dialSerial _ None (b :: fall) s1) as [[id'|e'] s2] eqn:E2; apply keeps_dialSerial in E2; [destruct first|];
      intros [= <- <-]; cbn in *; congruence.
  - destruct (dialSerial _ None (b :: fall) s1) as [[id'|e'] s2] eqn:E2; apply keeps_dialSerial in E2;
      intros [= <- <-]; cbn in *; congruence.
Qed.

(** What a probe that went well says of the group. *)
Definition honest (gid : Z) (s : os) : Prop := gidProbe s = Some None -> taken gid = gid.

Lemma probe_honest gid s r s' :
  honest gid s -> thread s = processGID \/ may_take (thread s) = true -> thread s = taken gid -> probe_once gid s = (r, s') ->
  honest gid s' /\ (r = Ok tt -> taken gid = gid).
Proof.
  intros Hh Hg Ht. unfold probe_once, probe, honest in *. destruct (gidProbe s) as [e|] eqn:Ep.
  - intros [= <- <-]. rewrite Ep. destruct e; (split; [done || by intros; apply Hh|]); done || by intros; apply Hh.
  - destruct (threadFSGID s) as [[a|e] s1] eqn:E; [|by intros [= <- <-]].
    apply threadFSGID_reads in E; [|done]. destruct (a =? gid) eqn:Ea; bool_facts; intros [= <- <-]; cbn; [|done].
    split; congruence.
Qed.

Lemma DialWithSocketGID_honest p gid mark addr s r s' :
  linux p = true -> 0 < gid -> thread s = processGID -> honest gid s ->
  DialWithSocketGID p gid (DialContext (control_of p mark) addr) s = (r, s') ->
  honest gid s' /\ (is_ok r = true -> taken gid = gid).
Proof.
  intros Hl Hg Ht Hh. unfold DialWithSocketGID. rewrite (proj2 (Z.leb_gt _ _)) by lia. rewrite Hl. cbn [negb].
  unfold mbind at 1, sys_bind at 1, sys_error. destruct (Setfsgid gid s) as [r0 s0] eqn:E0.
  apply Setfsgid_same in E0 as (_ & _ & P0 & R0). destruct r0 as [u|e]; cbn [map_err];
    [|destruct R0 as [-> _]; by intros [= <- <-]].
  destruct R0 as [_ R0].
  assert (thread s0 = taken gid) as Ht0 by (unfold taken; rewrite (proj2 (Z.ltb_lt _ _)) by done; rewrite R0, Ht; done).
  assert (thread s0 = processGID \/ may_take (thread s0) = true) as Hth
    by (rewrite Ht0; unfold taken; rewrite (proj2 (Z.ltb_lt _ _)) by done; cbn [andb]; destruct (may_take gid) eqn:Em; eauto).
  unfold mbind, sys_bind. destruct (probe_once gid s0) as [r1 s1] eqn:E1.
  apply probe_honest in E1 as [Hh1 Hok]; [|unfold honest in *; by rewrite P0|done..].
  assert (forall s2, gidProbe s2 = gidProbe s1 -> honest gid (Setfsgid processGID s2).2) as Hend.
  { intros s2 E2. destruct (Setfsgid processGID s2) as [r3 s3] eqn:E3. apply Setfsgid_same in E3 as (_ & _ & P3 & _).
    unfold honest in *. cbn. by rewrite P3, E2. }
  destruct r1 as [[]|e]; [|intros [= <- <-]; split; [by apply Hend|done]].
  destruct (DialContext _ _ s1) as [r2 s2] eqn:E2. intros [= <- <-]. split; [|by intros _; apply Hok].
  apply Hend. exact (keeps_DialContext _ _ _ _ _ _ E2).
Qed.

(** C37: the group a connection is opened under.  A client that asks for a group,
    as it does to have its own connections pass by a local proxy, gets it or an
    error: after a probe that went well every connection is of that group.  But
    not when the name of the server has addresses of both kinds: package [net]
    then dials in other goroutines, none of which runs on the thread that took
    the group, and the connection is of the process's own group without an
    error. *)
Theorem open_group p o d s r s' :
  linux p = true -> 0 < SocketGID d ->
  fresh s -> thread s = processGID -> may_take processGID = true -> honest (SocketGID d) s ->
  open_with p o d s = (r, s') ->
  honest (SocketGID d) s'
  /\ forall id, r = Ok id -> exists k, socks s' !! id = Some k
     /\ owner k = if both_kinds (Addr d) then processGID else SocketGID d.
Proof.
  intros Hl Hg Hf Ht Hm Hh Hr. pose proof (open_with_adds p o d s r s' Hf Ht Hm Hr) as (_ & _ & _ & R).
  assert (exists rest : N -> sys N, (forall conn, keeps_probe (rest conn)) /\ open_with p o d s = (dial p d ≫= rest) s) as (rest & Hk & Hd).
  { destruct o; eexists (fun conn => _); (split; [|reflexivity]); intros conn; cbn beta;
      apply keeps_closing; repeat (apply keeps_bind; [|intros _]); try (destruct (TLSConfig d)); unfold d_greet; auto with probe. }
  assert (honest (SocketGID d) s' /\ (is_ok r = true -> taken (SocketGID d) = SocketGID d)) as [Hhon Hok].
  { rewrite Hd in Hr. unfold dial, mbind, sys_bind, sys_error at 1 in Hr.
    destruct (DialWithSocketGID _ _ _ s) as [r0 s0] eqn:E. apply DialWithSocketGID_honest in E as [H0h H0k]; try done.
    destruct r0 as [id|e]; cbn [map_err] in Hr; [|by injection Hr as <- <-].
    specialize (H0k eq_refl). split; [|done].
    assert (gidProbe s' = gidProbe s0) as E'; [|unfold honest in *; by rewrite E'].
    destruct (closing id _ s0) as [r1 s1] eqn:E1. apply (keeps_closing id) in E1.
    - destruct r1; [apply Hk in Hr; congruence|]. by injection Hr as <- <-.
    - intros x y z. destruct (sys_error _ _ x) as [[]] eqn:Ex; apply keeps_error in Ex; try apply keeps_TuneConn; by intros [= <- <-]. }
  split; [done|]. intros id ->. destruct R as (k & _ & Hs & bs & _ & Ho & _). exists k.
  split; [by rewrite Hs, lookup_insert_eq|]. by rewrite Ho, (Hok eq_refl).
Qed.
End group.

(** ** What an accepted connection has *)

Definition keeps_alive (o : TCPOptions) (k : sock) : Prop :=
  if 0 <? KeepAlive o then sopts k SO_KEEPALIVE = Some 1 /\ sopts k TCP_KEEPIDLE = Some (seconds_up (KeepAlive o))
  else sopts k SO_KEEPALIVE = Some 0.

(** The options a listener is left with, where they are inherited. *)
Lemma tuneListenerFD_spec id o P :
  triple id P (tuneListenerFD Linux id o) (fun k => keeps_alive o k /\ sopts k TCP_NODELAY = Some (bool_opt (NoDelay o))) (fun _ => True).
Proof.
  unfold tuneListenerFD, keeps_alive. cbn [acceptedInheritsOptions Linux negb].
  apply triple_bind with (fun k => sopts k TCP_NODELAY = Some (bool_opt (NoDelay o))).
  { eapply triple_weaken; [| |done|apply (triple_setsockopt id TCP_NODELAY _ (fun k => sopts k TCP_NODELAY = Some (bool_opt (NoDelay o))) (fun _ => True))]; done. }
  intros _. destruct (KeepAlive o <=? 0) eqn:E; bool_facts.
  - rewrite (proj2 (Z.ltb_ge _ _)) by done. eapply triple_weaken; [| |done|apply (triple_setsockopt id SO_KEEPALIVE 0
      (fun k => sopts k SO_KEEPALIVE = Some 0 /\ sopts k TCP_NODELAY = Some (bool_opt (NoDelay o))) (fun _ => True))]; [|done].
    intros k Hk. by split.
  - rewrite (proj2 (Z.ltb_lt _ _)) by done.
    apply triple_bind with (fun k => sopts k SO_KEEPALIVE = Some 1 /\ sopts k TCP_NODELAY = Some (bool_opt (NoDelay o))).
    { eapply triple_weaken; [| |done|apply (triple_setsockopt id SO_KEEPALIVE 1 (fun k => sopts k SO_KEEPALIVE = Some 1 /\ sopts k TCP_NODELAY = Some (bool_opt (NoDelay o))) (fun _ => True))]; [|done].
      intros k Hk. by split. }
    intros _. set (Q := fun k => (sopts k SO_KEEPALIVE = Some 1 /\ sopts k TCP_KEEPIDLE = Some (seconds_up (KeepAlive o)))
                                /\ sopts k TCP_NODELAY = Some (bool_opt (NoDelay o))).
    apply triple_bind with Q.
    { eapply triple_weaken; [| |done|apply (triple_setsockopt id TCP_KEEPIDLE (seconds_up (KeepAlive o)) Q (fun _ => True))]; [|done].
      intros k [A B]. by split_and!. }
    intros _. eapply triple_weaken; [| |done|apply (triple_setsockopt id TCP_KEEPINTVL (seconds_up (KeepAlive o)) Q (fun _ => True))]; [|done].
    intros k ([A B] & C). by split_and!.
Qed.

(** A listener is the new socket, as [Control] has left it. *)
Lemma Listen_adds c (Q : sock -> Prop) s ln s' :
  (forall id, triple id (fun _ => True) (match Control c with Some f => f id | None => mret tt end) Q (fun _ => True)) ->
  fresh s -> ListenConfig_Listen c s = (Ok ln, s') -> adds Q (Ok ln) s s'.
Proof.
  intros Hc Hf. unfold ListenConfig_Listen, mbind at 1, sys_bind at 1. destruct (socket s) as [[id|e] s1] eqn:Es; [|done].
  pose proof (socket_adds _ _ _ Hf Es) as Ha. specialize (Hc id).
  set (m := match Control c with Some f => f id | None => mret tt end) in *. cbv beta iota.
  rewrite (closing_ext id _ ((m ≫= fun _ => call) ≫= fun _ => mret id)) by (intros x; by rewrite sys_bind_assoc).
  intros Hr. assert (id = ln) as <- 
    by (revert Hr; unfold closing, mbind, sys_bind; destruct (m s1) as [[u|e] s2]; [|done]; destruct (call s2) as [[v|e] s3]; [|done]; by intros [= -> _]).
  refine (adds_closing _ _ _ _ _ _ _ _ Ha _ Hr).
  apply triple_bind with Q; [|intros _; eapply triple_weaken; [| |done|apply (triple_call id Q)]; done].
  eapply triple_weaken; [| | |exact Hc]; done.
Qed.

(** An option that may be set, and an error that may come. *)
Lemma triple_any id (b : bool) o v P : triple id P (if b then setsockopt id o v else mret tt) (fun _ => True) (fun _ => True).
Proof.
  destruct b; [eapply triple_weaken; [| |done|apply (triple_setsockopt id o v (fun _ => True) (fun _ => True))]; done|].
  eapply triple_weaken; [| |done|apply (triple_ret id tt P (fun _ => True))]; done.
Qed.

Lemma Listen_inherited o s ln s' :
  fresh s -> ListenConfig_Listen (NewListenConfig Linux o) s = (Ok ln, s') ->
  adds (fun k => keeps_alive (AcceptedTCPOptions o) k /\ sopts k TCP_NODELAY = Some (bool_opt (negb (NoDelayOff o)))) (Ok ln) s s'.
Proof.
  apply Listen_adds. intros id. unfold NewListenConfig. cbn [Control acceptedInheritsOptions Linux]. rewrite orb_true_r.
  eapply triple_bind; [apply (triple_any id (ReusePort o))|]. intros _.
  eapply triple_bind; [apply (triple_any id (0 <? deferSecs Linux o))|]. intros _. apply tuneListenerFD_spec.
Qed.

Lemma Listen_elsewhere p o s ln s' :
  p <> Linux -> p ∈ [Linux; Bsd; OtherOs] -> fresh s -> ListenConfig_Listen (NewListenConfig p o) s = (Ok ln, s') ->
  adds (fun _ => True) (Ok ln) s s'.
Proof.
  intros Hne Hp. apply Listen_adds. intros id.
  assert (acceptedInheritsOptions p = false /\ deferSecs p o = 0) as [Hi Hd].
  { unfold deferSecs. rewrite !elem_of_cons, elem_of_nil in Hp. destruct Hp as [->|[->|[->|[]]]]; cbn; by rewrite ?andb_false_r. }
  unfold NewListenConfig. cbn [Control]. rewrite Hi, Hd. change (0 <? 0) with false. rewrite !orb_false_r. destruct (ReusePort o).
  - apply triple_bind with (fun _ => True);
      [|intros _; apply triple_bind with (fun _ => True); intros; exact (triple_any id false SO_MARK 0 _)].
    unfold setReusePort. destruct (reusePortSupported p); [exact (triple_any id true SO_REUSEPORT 1 _)|].
    eapply triple_weaken; [| | |apply (triple_raise id _ (fun _ => True) (fun _ => True))]; done.
  - exact (triple_any id false SO_MARK 0 _).
Qed.

(** The connection that is accepted, after the options of [net]. *)
Lemma Accept_socket p c ln l s id s' :
  fresh s -> socks s !! ln = Some l -> Accept p c ln s = (Ok id, s') ->
  exists k, socks s' !! id = Some k
  /\ (acceptedInheritsOptions p = true -> cfg_KeepAlive c = -1 ->
      (forall o, o <> TCP_NODELAY -> sopts k o = sopts l o)
      /\ (sopts k TCP_NODELAY = Some 1 \/ sopts k TCP_NODELAY = sopts l TCP_NODELAY)
      /\ (script s = [] -> sopts k TCP_NODELAY = Some 1)).
Proof.
  intros Hf Hl. unfold Accept, accept_socket, mbind, sys_bind. rewrite Hl.
  destruct (socket s) as [[i|e] s1] eqn:Es; [|done]. pose proof (socket_adds _ _ _ Hf Es) as (_ & _ & _ & k0 & Hn & Hs & _).
  assert (script s = [] -> script s1 = []) as Hsc.
  { intros H. revert Es. unfold socket, call. rewrite H. by intros [= _ <-]. }
  set (kl := MkSock _ _ _). set (s2 := set_socks _ s1).
  assert (socks s2 !! i = Some kl) as H2 by apply lookup_insert_eq.
  destruct (acceptedInheritsOptions p) eqn:Ei.
  - destruct (cfg_KeepAlive c =? -1) eqn:Ec; bool_facts.
    + rewrite Ec. unfold newTCPConn, mbind, sys_bind, ignore. change (-1 <? 0) with true. cbv iota.
      destruct (setsockopt i TCP_NODELAY 1 s2) as [r3 s3] eqn:E3. cbn. intros [= <- <-].
      destruct (triple_setsockopt i TCP_NODELAY 1 (fun k => k = set_opt TCP_NODELAY 1 kl) (fun k => k = kl) _ _ _ _ H2 (conj eq_refl eq_refl) E3)
        as (k & B & Hk). exists k. split; [by eapply becomes_lookup|]. intros _ _. split; [|split].
      * intros o Ho. destruct r3; subst k; cbn; [by rewrite decide_False|done].
      * destruct r3; subst k; cbn; [by left|by right].
      * intros H. assert (r3 = Ok tt) as ->; [|by subst k].
        revert E3. unfold setsockopt, mbind, sys_bind, call. cbn [script s2 set_socks]. rewrite (Hsc H), H2. by intros [= <- _].
    + destruct (newTCPConn (cfg_KeepAlive c) i s2) as [r3 s3] eqn:E3.
      destruct (newTCPConn_stable i (cfg_KeepAlive c) (fun _ => True) (fun _ => True) ltac:(done) _ _ _ _ H2 I E3) as (k & B & _).
      destruct r3; [|done]. intros [= <- <-]. exists k. split; [by eapply becomes_lookup|done].
  - destruct (newTCPConn (cfg_KeepAlive c) i s2) as [r3 s3] eqn:E3.
    destruct (newTCPConn_stable i (cfg_KeepAlive c) (fun _ => True) (fun _ => True) ltac:(done) _ _ _ _ H2 I E3) as (k & B & _).
    destruct r3; [|done]. intros [= <- <-]. exists k. split; [by eapply becomes_lookup|done].
Qed.

(** An accepted connection has the options its listener was asked for.
    Whatever calls failed on the way: when listening, accepting and tuning
    report no error, the connection keeps alive as asked, on the platforms
    that set its options and on those where it inherits them.  Only where it
    inherits them the asked [TCP_NODELAY] may be lost, for package [net] sets it
    on every connection and nothing is done afterwards: [NoDelayOff] is then
    without effect. *)
Theorem accepted_as_asked p o s ln s1 id s2 r s3 :
  p ∈ [Linux; Bsd; OtherOs] -> fresh s ->
  ListenConfig_Listen (NewListenConfig p o) s = (Ok ln, s1) ->
  Accept p (NewListenConfig p o) ln s1 = (Ok id, s2) ->
  TuneAccepted p (Some id) o s2 = (Ok r, s3) ->
  exists k, socks s3 !! id = Some k /\ keeps_alive (AcceptedTCPOptions o) k
  /\ (sopts k TCP_NODELAY = Some (bool_opt (negb (NoDelayOff o))) \/ p = Linux /\ sopts k TCP_NODELAY = Some 1)
  /\ (p = Linux -> script s1 = [] -> sopts k TCP_NODELAY = Some 1).
Proof.
  intros Hp Hf Hl Ha Ht. destruct (decide (p = Linux)) as [->|Hne].
  - apply Listen_inherited in Hl as (_ & F & _ & l & _ & Hs & Hka & Hnd); [|done].
    injection Ht as <- <-. apply (Accept_socket _ _ _ l) in Ha as (k & Hk & Hin); [|done|by rewrite Hs, lookup_insert_eq].
    destruct (Hin eq_refl eq_refl) as (Hother & Hor & Hno). exists k. split; [done|]. split.
    { unfold keeps_alive in *. by rewrite !Hother. }
    split; [|by intros _]. destruct Hor as [Hor|Hor]; [by right|left; by rewrite Hor].
  - assert (acceptedInheritsOptions p = false) as Hi by (apply elem_of_cons in Hp as [->|Hp]; [done|]; set_solver).
    apply Listen_elsewhere in Hl as (_ & F & _ & l & _ & Hs & _); [|done..].
    assert (socks s1 !! ln = Some l) as Hk by (by rewrite Hs, lookup_insert_eq).
    apply (Accept_socket _ _ _ l) in Ha as (k & Hk2 & _); [|done|done].
    unfold TuneAccepted in Ht. rewrite Hi in Ht.
    destruct (TuneConn_spec id (AcceptedTCPOptions o) k s2 k (Ok r) s3 Hk2 eq_refl Ht) as (k' & B & _ & Hn & _ & _ & Hka).
    exists k'. split; [by eapply becomes_lookup|]. split; [done|]. split; [by left|done].
Qed.

(** ** Opening a stream while the context may be done *)

(** All three goroutines have come to their end. *)
Definition finished (st : mux_open) : Prop :=
  (exists r, opener st = Sent r) /\ caller st <> Waiting /\ reaper st <> Reaping.

#[export] Instance reaper_at_eq_dec : EqDecision reaper_at.
Proof. solve_decision. Defined.

(** What holds all along: the streams are those from before and the one that
    was opened, until it is closed again; and whoever waits for it is one. *)
Definition open_inv (before : gset N) (st : mux_open) : Prop :=
  match caller st, reaper st with
  | Waiting, NoReaper => True
  | Returned r, NoReaper => opener st = Sent r
  | Cancelled, Reaping => True
  | Cancelled, Reaped => exists r, opener st = Sent r
  | _, _ => False
  end
  /\ match opener st with
     | Opening | Sent (Err _) => streams st = before
     | Sent (Ok id) => id ∉ before /\ streams st = if decide (reaper st = Reaped) then before else {[id]} ∪ before
     end.

Lemma open_step_inv before st st' : open_step st st' -> open_inv before st -> open_inv before st'.
Proof.
  intros Hs. destruct Hs as [id c r k ss Hn|e c r k ss|o c r ss|res k ss|o ss|res c k ss]; unfold open_inv;
    cbn [opener caller reaper cancelled streams]; intros [Hc Ho].
  - subst ss. split; [destruct c as [|r0|], r; try done; by destruct Hc|]. split; [done|].
    rewrite decide_False; [done|]. intros ->. destruct c; [done|done|by destruct Hc].
  - split; [destruct c as [|r0|], r; try done; by destruct Hc|]. done.
  - done.
  - split; [done|]. exact Ho.
  - split; [done|]. by destruct o as [|[id|e]].
  - destruct c as [|r0|]; try done. split; [eauto|]. destruct res as [id|e]; [|done]. destruct Ho as [Hn ->].
    split; [done|]. cbn. set_solver.
Qed.

(** No stream is lost when a context ends while one is being opened.
    However the opening goroutine, the caller and the goroutine it leaves behind
    take turns, as long as they are not done one of them can go on; and when
    they are, either the caller has the stream, which is the only new one, or
    it has an error and every stream that was opened is closed. *)
Theorem no_stream_lost before st :
  rtc open_step (mux_Open_start before) st ->
  (~ finished st -> exists st', open_step st st' /\ (opener st', caller st', reaper st') <> (opener st, caller st, reaper st))
  /\ (finished st ->
      (exists id, caller st = Returned (Ok id) /\ id ∉ before /\ streams st = {[id]} ∪ before)
      \/ ((caller st = Cancelled \/ exists e, caller st = Returned (Err e)) /\ streams st = before)).
Proof.
  intros Hr. assert (open_inv before st) as [Hc Ho].
  { assert (open_inv before (mux_Open_start before)) as Hi by done. revert Hi.
    induction Hr as [|x y z Hs _ IH]; [done|]. intros Hi. eapply IH, open_step_inv; done. }
  destruct st as [o c r k ss]; unfold finished; cbn [opener caller reaper cancelled streams] in *. split.
  - intros Hn. destruct o as [|res].
    + destruct (exist_fresh ss) as [id Hid]. eexists. split; [by apply (open_done id)|]. done.
    + destruct c as [|r0|], r; try done.
      * eexists. split; [apply open_take|done].
      * destruct Hn. by split_and!; eauto.
      * eexists. split; [apply open_reap|done].
      * destruct Hn. by split_and!; eauto.
  - intros ([res ->] & Hw & Hp). destruct c as [|r0|], r; try done.
    + injection Hc as <-. destruct res as [id|e]; [left|right; eauto]. destruct Ho as [Hn ->]. exists id.
      by rewrite decide_False by done.
    + right. split; [by left|]. destruct res; [|done]. by destruct Ho as [_ ->].
Qed.

(** ** Examples *)

Definition status_text (g : Z) : bytes :=
  Join ([go "Name:" ++ x09 :: go "openfrpc"]
    ++ [go "Gid:" ++ concat ((fun x => x09 :: x) <$> [Itoa 0; Itoa 0; Itoa 0; Itoa g])] ++ [go "Groups:"; []]) [x0a].

(** A daemon of group 0 that may take group 65534. *)
#[local] Instance router_machine : Machine :=
  {| may_take g := bool_decide (g ∈ [0; 65534]); processGID := 0; refused := None; proc_status g := (status_text g, None) |}.

Lemma router_groups g : g = processGID \/ may_take g = true -> g ∈ [0; 65534].
Proof. cbn. intros [->|H%bool_decide_eq_true]; [set_solver|done]. Qed.

#[local] Instance router_docs : ProcDocs.
Proof.
  split; intros g Hg%router_groups.
  - rewrite !elem_of_cons, elem_of_nil in Hg. unfold in_i64, min_i64, max_i64. lia.
  - exists [go "Name:" ++ x09 :: go "openfrpc"], 0, 0, 0, [go "Groups:"; []], None.
    split; [done|]. split; [done|]. split; [done|]. split; [done|].
    split; [apply (bool_decide_unpack _); by vm_compute|]. split; [apply (bool_decide_unpack _); by vm_compute|].
    rewrite !elem_of_cons, elem_of_nil in Hg. destruct Hg as [->|[->|[]]]; by vm_compute.
Defined.

(** A server known by an IPv4 address, and one that has an IPv6 address too. *)
#[local] Instance two_names : Network :=
  {| resolve a := if bool_decide (a = go "single:7000") then Ok [(true, go "192.0.2.1:7000")]
                  else Ok [(false, go "[2001:db8::1]:7000"); (true, go "192.0.2.1:7000")];
     race := Some false |}.

Definition example_dialer (addr : bytes) : Dialer := MkDialer addr true DefaultTCPOptions 65534 8451.
Definition machine (outcomes : list (option bytes)) : os := MkOs ∅ 0 0 None outcomes.

Lemma machine_fresh outcomes : fresh (machine outcomes).
Proof. intros id _. apply lookup_empty. Qed.

Abbreviation open_example o name outcomes := (open_with (H1 := ping_json) Linux o (example_dialer (go name)) (machine outcomes)).

(** A connection for a multiplexer; one whose keep-alive cannot be set. *)
Lemma open_all_or_nothing_witness :
  (forall id s', open_example ForMux "single:7000" [] = (Ok id, s') ->
     exists k, socks s' !! id = Some k /\ wire k = Writer [go "OFRP" ++ [z2b Version; z2b ModeMux]] None)
  /\ is_ok (open_example ForMux "single:7000" []).1 = true
  /\ (forall e s', open_example ForMux "single:7000" (replicate 10 None ++ [Some (go "EINVAL")]) = (Err e, s') -> socks s' = ∅)
  /\ is_ok (open_example ForMux "single:7000" (replicate 10 None ++ [Some (go "EINVAL")])).1 = false.
Proof.
  split; [|split; [by vm_compute|split; [|by vm_compute]]].
  - intros id s' Hr. destruct (open_all_or_nothing (H := router_machine) (H0 := two_names) (H1 := ping_json) Linux ForMux (example_dialer (go "single:7000")) (machine []) (Ok id) s'
      (machine_fresh _) eq_refl eq_refl Hr) as (_ & _ & k & bs & _ & Hs & Hb & Hw & _).
    exists k. split; [by rewrite Hs, lookup_insert_eq|]. rewrite Hw. by injection Hb as <-.
  - intros e s' Hr. destruct (open_all_or_nothing (H := router_machine) (H0 := two_names) (H1 := ping_json) Linux ForMux (example_dialer (go "single:7000"))
      (machine (replicate 10 None ++ [Some (go "EINVAL")])) (Err e) s' (machine_fresh _) eq_refl eq_refl Hr) as (_ & _ & Hs). exact Hs.
Defined.

(** The same group asked for, for the two names. *)
Lemma open_group_witness :
  (forall id s', open_example ForWork "single:7000" [] = (Ok id, s') -> exists k, socks s' !! id = Some k /\ owner k = 65534)
  /\ is_ok (open_example ForWork "single:7000" []).1 = true
  /\ (forall id s', open_example ForWork "double:7000" [] = (Ok id, s') -> exists k, socks s' !! id = Some k /\ owner k = 0)
  /\ is_ok (open_example ForWork "double:7000" []).1 = true.
Proof.
  split; [|split; [by vm_compute|split; [|by vm_compute]]].
  - intros id s' Hr. exact (proj2 (open_group (H := router_machine) (H0 := two_names) (H1 := ping_json) (Docs := router_docs) Linux ForWork (example_dialer (go "single:7000")) (machine []) (Ok id) s'
      eq_refl ltac:(by vm_compute) (machine_fresh _) eq_refl eq_refl ltac:(done) Hr) id eq_refl).
  - intros id s' Hr. exact (proj2 (open_group (H := router_machine) (H0 := two_names) (H1 := ping_json) (Docs := router_docs) Linux ForWork (example_dialer (go "double:7000")) (machine []) (Ok id) s'
      eq_refl ltac:(by vm_compute) (machine_fresh _) eq_refl eq_refl ltac:(done) Hr) id eq_refl).
Defined.

(** The listener of the server, and one without [TCP_NODELAY]. *)
Definition server_listen : ListenOptions := MkListenOptions true (30 * Second) false (5 * Second).
Definition delayed : ListenOptions := MkListenOptions false (30 * Second) true 0.
Abbreviation listening o := (ListenConfig_Listen (NewListenConfig Linux o) (machine [])).
Abbreviation accepting o := (Accept Linux (NewListenConfig Linux o) 0 (listening o).2).

Lemma accepted_as_asked_witness :
  (exists k, socks (accepting server_listen).2 !! 1%N = Some k /\ sopts k TCP_KEEPIDLE = Some 30)
  /\ exists k, socks (accepting delayed).2 !! 1%N = Some k /\ sopts k TCP_NODELAY = Some 1.
Proof.
  split.
  - destruct (listening server_listen) as [r1 s1] eqn:E1. destruct (accepting server_listen) as [r2 s2] eqn:E2.
    vm_compute in E1. injection E1 as <- <-. vm_compute in E2. injection E2 as <- <-.
    destruct (accepted_as_asked Linux server_listen (machine []) 0 (listening server_listen).2 1 (accepting server_listen).2 tt (accepting server_listen).2)
      as (k & Hk & [_ Hi] & _); [by left|apply machine_fresh|reflexivity|reflexivity|reflexivity|].
    exists k. exact (conj Hk Hi).
  - destruct (accepted_as_asked Linux delayed (machine []) 0 (listening delayed).2 1 (accepting delayed).2 tt (accepting delayed).2)
      as (k & Hk & _ & _ & Hn); [by left|apply machine_fresh|reflexivity|reflexivity|reflexivity|].
    exists k. split; [exact Hk|]. by apply Hn.
Defined.

(** The context ends first, and the stream that comes is closed. *)
Lemma no_stream_lost_witness :
  let before := ({[3%N]} : gset N) in
  let st := MkMuxOpen (Sent (Ok 5%N)) Cancelled Reaped true (({[5%N]} ∪ before) ∖ {[5%N]}) in
  rtc open_step (mux_Open_start before) st /\ streams st = before.
Proof.
  cbv zeta. set (before := ({[3%N]} : gset N)). set (st := MkMuxOpen _ _ _ _ _).
  assert (rtc open_step (mux_Open_start before) st) as Hr.
  { eapply rtc_l; [apply (open_cancel Opening Waiting NoReaper)|]. eapply rtc_l; [apply open_give_up|].
    eapply rtc_l; [apply (open_done 5%N); apply (bool_decide_unpack _); by vm_compute|]. apply rtc_once, open_reap. }
  split; [exact Hr|]. destruct (no_stream_lost before st Hr) as [_ Hf].
  destruct Hf as [(id & Hc & _)|[_ Hs]]; [split_and!; [by eexists|discriminate|discriminate]|discriminate Hc|exact Hs].
Defined.
