(* ===== verification/Commands.v ===== *)
(** The commands of the client program: [cmd/openfrpc/cmd].  root.go finds the
    command, cert.go works on the orders ([Orders]), deploy.go reads the
    settings of a deployment ([Deploy]), update.go reports what was found
    ([Semver]) and run.go decides what the daemon runs.  The [dns] command is
    in [Records], [cftunnel] in [CfTunnel].

    Flags have been parsed: package [flag] is left out. *)
From S2P Require Import Prelude GoStrings Semver Config Schema Dns Storage Accounts Cert Http01 Orders Ssh Deploy.

(** ** The registry of commands (root.go) *)

Record Command (R : Type) := MkCommand { c_Summary : bytes; c_Run : list bytes -> R }.
Arguments MkCommand {_} _ _.
Arguments c_Summary {_} _.
Arguments c_Run {_} _ _.

Section root.
Context {R : Type}.

(** [None] is the panic. *)
Definition register (name : bytes) (c : Command R) (commands : gmap bytes (Command R)) : option (gmap bytes (Command R)) :=
  match commands !! name with
  | Some _ => None
  | None => Some (<[name := c]> commands)
  end.

(** [%-*s]: [pad] spaces at least up to [width]. *)
Definition pad (width : nat) (s : bytes) : bytes := s ++ replicate (width - length s) x20.

Definition Usage (commands : gmap bytes (Command R)) : bytes :=
  let names := SortStrings ((map_to_list commands).*1) in
  let width := foldl (fun w n => Nat.max w (length n)) O names in
  go "openfrpc — OpenFrp client" ++ [x0a; x0a] ++ go "Usage:" ++ [x0a] ++ go "  openfrpc <command> [flags]" ++ [x0a; x0a]
  ++ go "Commands:" ++ [x0a]
  ++ concat ((fun n => go "  " ++ pad width n ++ go "  " ++ default [] (c_Summary <$> commands !! n) ++ [x0a]) <$> names)
  ++ [x0a] ++ go "Run 'openfrpc <command> -h' for command flags." ++ [x0a].

Inductive execution : Type :=
  | Helped (text : bytes)
  | NoCommand (usage : bytes)
  | UnknownCommand (usage name : bytes)
  | Ran (r : R).

Definition Execute (argv : list bytes) (commands : gmap bytes (Command R)) : execution :=
  match argv with
  | [] => NoCommand (Usage commands)
  | name :: args =>
      if bool_decide (name ∈ [go "-h"; go "--help"; go "help"]) then Helped (Usage commands)
      else match commands !! name with
           | None => UnknownCommand (Usage commands) name
           | Some c => Ran (c_Run c args)
           end
  end.
End root.

(** ** A request on the input (manage.go) *)

Inductive cmderr : Type :=
  | ErrReadStdin (e : bytes)
  | ErrNoRequest
  | ErrParseRequest (e : bytes)
  | ErrNoDatabase (e : bytes)
  | ErrOrder (e : ordererr)
  | ErrEvents (e : dberr)
  | ErrAction (action : bytes).

(** [decode] is [encoding/json], which refuses unknown fields here. *)
Definition readStdinJSON {A} (decode : bytes -> res bytes A) (stdin : res bytes bytes) : res cmderr A :=
  match stdin with
  | Err e => Err (ErrReadStdin e)
  | Ok [] => Err ErrNoRequest
  | Ok payload => map_err ErrParseRequest (decode (TrimSpace payload))
  end.

(** ** The [cert] command (cert.go) *)

Record EABInput := MkEABInput { in_CA : bytes; in_Email : bytes; in_KeyID : bytes; in_HMAC : bytes }.

Inductive cert_data : Type :=
  | CNothing
  | CAuthorities (l : list CA)
  | CKeyTypes (l : list (bytes * bytes))
  | COrders (l : list OrderView)
  | COrder (o : OrderView)
  | CEvents (l : list Storage.Event)
  | CText (key value : bytes)
  | CBinding (s : EABState).

Record cert_flags := MkCertFlags { cf_id : Z; cf_ca : bytes; cf_email : bytes; cf_limit : Z }.

Record creply := MkCReply { crp_OK : bool; crp_Data : cert_data; crp_Error : option cmderr }.

(** The document on the output, and whether the command exits well. *)
Definition emit (r : res cmderr cert_data) : creply * bool :=
  match r with
  | Ok data => (MkCReply true data None, true)
  | Err e => (MkCReply false CNothing (Some e), false)
  end.

Section cert.
Context {I P Key W : Type} `{U : Unicode} `{Rx : Regexp} `{X : CertText} `{Res : Resolver}
  `{Lego : Acme Key (I * Solver) httpSolver W} `{Out : Outside I P W}.
Variable reg : gmap bytes (Dns.registration (I:=I)).
Variable http : option httpSolver.
Variable decode_order : bytes -> res bytes OrderInput.
Variable decode_eab : bytes -> res bytes EABInput.

Definition as_data {A} (to : A -> cert_data) (r : res cmderr A) : res cmderr cert_data := to <$> r.
Definition of_orders {A} (to : A -> cert_data) (r : res ordererr A * DB) (w : W) : res cmderr cert_data * DB * W :=
  let '(r, d) := r in (as_data to (map_err ErrOrder r), d, w).

Definition service_KeyTypes : list (bytes * bytes) := (fun k => (k, KeyLabel k)) <$> Cert.KeyTypes.

(** The environment of an action: the clock, when the context ends, the input. *)
Definition cert_action (now : Z) (cancelled : nat -> bool) (stdin : res bytes bytes) (action : bytes) (fl : cert_flags)
  (d : DB) (w : W) : res cmderr cert_data * DB * W :=
  if bool_decide (action = go "cas") then (Ok (CAuthorities Cert.CAs), d, w)
  else if bool_decide (action = go "keytypes") then (Ok (CKeyTypes service_KeyTypes), d, w)
  else if bool_decide (action = go "orders") then of_orders COrders (ListOrders now d) w
  else if bool_decide (action = go "order-add") then
    match readStdinJSON decode_order stdin with
    | Err e => (Err e, d, w)
    | Ok inp => of_orders COrder (CreateOrder http now inp d w) w
    end
  else if bool_decide (action = go "order-delete") then of_orders (fun _ => CNothing) (DeleteOrder (cf_id fl) d) w
  else if bool_decide (action = go "events") then
    let '(r, d) := Events (cf_id fl) (cf_limit fl) d in (as_data CEvents (map_err ErrEvents r), d, w)
  else if bool_decide (action = go "export") then of_orders (CText (go "fullchain_pem")) (Material (cf_id fl) d) w
  else if bool_decide (action = go "issue") then
    let '(r, d, w) := Issue reg http cancelled (cf_id fl) d w in
    (as_data (fun _ => CText (go "result") (go "the certificate was issued")) (map_err ErrOrder r), d, w)
  else if bool_decide (action = go "eab-status") then
    of_orders CBinding
      (if bool_decide (cf_ca fl = []) then EABStatus (cf_id fl) d else EABStatusFor (cf_ca fl) (cf_email fl) d) w
  else if bool_decide (action = go "eab") then
    match readStdinJSON decode_eab stdin with
    | Err e => (Err e, d, w)
    | Ok inp => of_orders (fun _ => CNothing) (SetEAB (in_CA inp) (in_Email inp) (in_KeyID inp) (in_HMAC inp) d w) w
    end
  else (Err (ErrAction action), d, w).

(** [opened] is the error of opening the database, if any. *)
Definition runCert (opened : option bytes) (now : Z) (cancelled : nat -> bool) (stdin : res bytes bytes) (action : bytes)
  (fl : cert_flags) (d : DB) (w : W) : (creply * bool) * DB * W :=
  match opened with
  | Some e => (emit (Err (ErrNoDatabase e)), d, w)
  | None => let '(r, d, w) := cert_action now cancelled stdin action fl d w in (emit r, d, w)
  end.

(** *** What a [cert] command touches *)

Lemma ListOrders_same now d r d' : ListOrders now d = (r, d') -> same_tables d d'.
Proof.
  unfold ListOrders. destruct (Orders_List d) as [[l|e] d1] eqn:E; apply read_same in E; [|by intros [= _ <-]].
  destruct (Accounts_List d1) as [a d2] eqn:E2. apply read_same in E2. intros [= _ <-]. by etrans.
Qed.

Lemma EABStatusFor_same ca email d r d' : EABStatusFor ca email d = (r, d') -> same_tables d d'.
Proof.
  unfold EABStatusFor. destruct (LookupCA ca) as [c|]; [|by intros [= _ <-]]. destruct (RequiresEAB c); [|by intros [= _ <-]].
  cbn [negb]. destruct (FindEAB _ d) as [x d1] eqn:E. apply FindEAB_same in E. by intros [= _ <-].
Qed.

Lemma EABStatus_same id d r d' : EABStatus id d = (r, d') -> same_tables d d'.
Proof.
  unfold EABStatus. destruct (Orders_Get id d) as [[o|e] d1] eqn:E; apply Orders_Get_spec in E as [Hs _]; [|by intros [= _ <-]].
  intros H%EABStatusFor_same. by etrans.
Qed.

Lemma Material_same id d r d' : Material id d = (r, d') -> same_tables d d'.
Proof. unfold Material. destruct (Orders_Get id d) as [[o|e] d1] eqn:E; apply Orders_Get_spec in E as [Hs _]; by intros [= _ <-]. Qed.

Definition cert_changes : list bytes := [go "order-add"; go "order-delete"; go "issue"; go "eab"].

(** The database is in order after, and only an action that changes it did. *)
Definition cert_touches (action : bytes) (d : DB) (w : W) (d' : DB) (w' : W) : Prop :=
  (db_ok d -> db_ok d') /\ (action ∈ cert_changes \/ same_tables d d') /\ (w' = w \/ action = go "issue").

Lemma cert_reads action d w d' : same_tables d d' -> cert_touches action d w d' w.
Proof. intros Hs. split; [by apply same_tables_db_ok|]. split; [by right|by left]. Qed.

Lemma cert_changed action d w d' w' :
  action ∈ cert_changes -> (db_ok d -> db_ok d') -> w' = w \/ action = go "issue" -> cert_touches action d w d' w'.
Proof. intros Ha Hd Hw. split; [done|]. split; [by left|done]. Qed.

Lemma of_orders_inv {A} (to : A -> cert_data) x (w : W) out d' w' : of_orders to x w = (out, d', w') -> w' = w /\ exists r, x = (r, d').
Proof. destruct x as [r d1]. unfold of_orders. intros [= _ <- <-]. split; [done|by exists r]. Qed.

Ltac in_changes := apply (bool_decide_unpack _); by vm_compute.

Lemma cert_action_touches now cancelled stdin action fl d w out d' w' :
  pem_Decode [] = None ->
  cert_action now cancelled stdin action fl d w = (out, d', w') -> cert_touches action d w d' w'.
Proof.
  intros Hpem. pose proof (fun o Hok => run_op_ok reg http o d w Hpem Hok) as Hop. unfold cert_action.
  case_bool_decide as A1; [intros [= _ <- <-]; by apply cert_reads|].
  case_bool_decide as A2; [intros [= _ <- <-]; by apply cert_reads|].
  case_bool_decide as A3; [intros [-> [r E]]%of_orders_inv; by apply cert_reads; eapply ListOrders_same|].
  case_bool_decide as A4.
  { destruct (readStdinJSON _ _) as [inp|e]; [|intros [= _ <- <-]; by apply cert_reads].
    intros [-> [r E]]%of_orders_inv. subst action. apply cert_changed; [in_changes| |by left].
    intros Hok. specialize (Hop (OpCreateOrder now inp) Hok). cbn [run_op] in Hop. by rewrite E in Hop. }
  case_bool_decide as A5.
  { intros [-> [r E]]%of_orders_inv. subst action. apply cert_changed; [in_changes| |by left].
    intros Hok. specialize (Hop (OpDeleteOrder (cf_id fl)) Hok). cbn [run_op] in Hop. by rewrite E in Hop. }
  case_bool_decide as A6.
  { destruct (Events _ _ d) as [r d1] eqn:E. unfold Events in E. cbv zeta in E. apply read_same in E. intros [= _ <- <-]. by apply cert_reads. }
  case_bool_decide as A7; [intros [-> [r E]]%of_orders_inv; by apply cert_reads; eapply Material_same|].
  case_bool_decide as A8.
  { destruct (Issue _ _ _ _ d w) as [[r d1] w1] eqn:E. intros [= _ <- <-]. subst action.
    apply cert_changed; [in_changes| |by right].
    intros Hok. specialize (Hop (OpIssue cancelled (cf_id fl)) Hok). cbn [run_op] in Hop. by rewrite E in Hop. }
  case_bool_decide as A9.
  { intros [-> [r E]]%of_orders_inv. apply cert_reads. case_bool_decide; [by eapply EABStatus_same|by eapply EABStatusFor_same]. }
  case_bool_decide as A10; [|intros [= _ <- <-]; by apply cert_reads].
  destruct (readStdinJSON _ _) as [inp|e]; [|intros [= _ <- <-]; by apply cert_reads].
  intros [-> [r E]]%of_orders_inv. subst action. apply cert_changed; [in_changes| |by left].
  intros Hok. specialize (Hop (OpSetEAB (in_CA inp) (in_Email inp) (in_KeyID inp) (in_HMAC inp)) Hok). cbn [run_op] in Hop. by rewrite E in Hop.
Qed.

(** What a [cert] command can do.  Whatever the action, its flags, the input
    and the statements that fail, the database stays in order; only the four
    actions that say so change its tables, and only [issue] works on anything
    else; and the document on the output says it is well exactly when the
    command exits well. *)
Theorem runCert_touches opened now cancelled stdin action fl d w rp ok d' w' :
  pem_Decode [] = None -> db_ok d ->
  runCert opened now cancelled stdin action fl d w = (rp, ok, d', w') ->
  db_ok d' /\ (action ∈ cert_changes \/ same_tables d d') /\ (w' = w \/ action = go "issue")
  /\ crp_OK rp = ok /\ (ok = true <-> crp_Error rp = None).
Proof.
  intros Hpem Hok. unfold runCert. destruct opened as [e|].
  { intros [= <- <- <- <-]. split_and!; [done|by right|by left|done|by split]. }
  destruct (cert_action now cancelled stdin action fl d w) as [[r d1] w1] eqn:E.
  apply cert_action_touches in E as (H1 & H2 & H3); [|done]. intros Hr.
  assert (emit r = (rp, ok) /\ d1 = d' /\ w1 = w') as (He & <- & <-) by (destruct (emit r); by injection Hr as <- <- <- <-).
  split_and!; [by apply H1|done|done|..]; destruct r; by injection He as <- <-.
Qed.
End cert.

(** ** The [deploy] command (deploy.go) *)

Record deploy_flags := MkDeployFlags {
  df_json : bool; df_dryRun : bool; df_host : bytes; df_port : Z; df_user : bytes; df_key : bytes; df_binary : bytes;
  df_release : bytes; df_bindPort : Z; df_httpPort : Z; df_httpsPort : Z; df_token : bytes; df_bbr : bool; df_stdin : bool
}.

(** The values of the flags that are not given. *)
Definition default_deploy_flags : deploy_flags :=
  MkDeployFlags false false [] 22 (go "root") [] [] [] 7000 80 443 [] true false.

Record stdinArgs := MkStdinArgs {
  sa_Credentials : Credentials;
  sa_Token : bytes; sa_BindPort : Z; sa_VhostHTTPPort : Z; sa_VhostHTTPSPort : Z;
  sa_LocalBinary : bytes; sa_ReleaseURL : bytes; sa_SHA256 : bytes; sa_EnableBBR : option bool;
  sa_Server : bytes
}.

Inductive deploy_err : Type :=
  | DeployStdin (e : bytes)
  | DeployParse (e : bytes)
  | DeployNoHost
  | DeployFailed (e : derr).

(** What is given on the input replaces what the flags say. *)
Definition or_flag (given flag : bytes) : bytes := if bool_decide (given = []) then flag else given.
Definition or_flagZ (given flag : Z) : Z := if given =? 0 then flag else given.

Definition over_credentials (c o : Credentials) : Credentials :=
  MkCredentials (or_flag (cr_Host c) (cr_Host o)) (or_flagZ (cr_Port c) (cr_Port o)) (or_flag (cr_User c) (cr_User o))
    (or_flag (cr_Password c) (cr_Password o)) (or_flag (KeyPath c) (KeyPath o)) (or_flag (KeyPassphrase c) (KeyPassphrase o))
    (or_flag (KnownFingerprint c) (KnownFingerprint o)).

Definition applyStdin (decode : bytes -> res bytes stdinArgs) (opts : Options) (payload : bytes) : res deploy_err Options :=
  match TrimSpace payload with
  | [] => Ok opts
  | text =>
      match decode text with
      | Err e => Err (DeployParse e)
      | Ok a =>
          Ok (MkOptions (over_credentials (sa_Credentials a) (o_Credentials opts)) (or_flag (sa_Token a) (o_Token opts))
                (or_flagZ (sa_BindPort a) (o_BindPort opts)) (or_flagZ (sa_VhostHTTPPort a) (o_VhostHTTPPort opts))
                (or_flagZ (sa_VhostHTTPSPort a) (o_VhostHTTPSPort opts)) (BinaryPath opts) (ConfigPath opts) (StateDir opts)
                (ServiceUser opts) (or_flag (sa_LocalBinary a) (LocalBinary opts)) (or_flag (sa_ReleaseURL a) (ReleaseURL opts))
                (or_flag (sa_SHA256 a) (SHA256 opts)) (default (EnableBBR opts) (sa_EnableBBR a)) (DryRun opts))
      end
  end.

Definition flag_options (f : deploy_flags) : Options :=
  MkOptions (MkCredentials (df_host f) (df_port f) (df_user f) [] (df_key f) [] []) (df_token f) (df_bindPort f)
    (df_httpPort f) (df_httpsPort f) [] [] [] [] (df_binary f) (df_release f) [] (df_bbr f) (df_dryRun f).

Definition deploy_options (decode : bytes -> res bytes stdinArgs) (f : deploy_flags) (stdin : res bytes bytes) : res deploy_err Options :=
  opts ← (if df_stdin f then
            match stdin with
            | Err e => Err (DeployStdin e)
            | Ok payload => applyStdin decode (flag_options f) payload
            end
          else Ok (flag_options f));
  if bool_decide (cr_Host (o_Credentials opts) = []) then Err DeployNoHost else Ok opts.

(** The command: its options, the deployment, and what it reports at the end. *)
Definition runDeploy {S : Type} `{Remote S} `{Here} `{Update.Sha256} `{Protocol.JsonCodec} `{Protocol.Hmac} `{SshClient}
  (decode : bytes -> res bytes stdinArgs) (f : deploy_flags) (stdin : res bytes bytes) (s : Session S)
  : res deploy_err (option Outcome) * Session S :=
  match deploy_options decode f stdin with
  | Err e => (Err e, s)
  | Ok opts =>
      match Deploy opts s with
      | ((_, Some e), s) => (Err (DeployFailed e), s)
      | ((result, None), s) => (Ok result, s)
      end
  end.

(** A dry run stays one: nothing on the input can turn it into a deployment,
    and no password, passphrase or fingerprint comes from a flag. *)
Lemma deploy_options_flags decode f stdin o :
  deploy_options decode f stdin = Ok o ->
  DryRun o = df_dryRun f /\ cr_Host (o_Credentials o) <> []
  /\ (df_stdin f = false -> cr_Password (o_Credentials o) = [] /\ KeyPassphrase (o_Credentials o) = []
                            /\ KnownFingerprint (o_Credentials o) = [] /\ SHA256 o = []).
Proof.
  unfold deploy_options. destruct (df_stdin f).
  - destruct stdin as [payload|e]; [|done]. destruct (applyStdin decode (flag_options f) payload) as [opts|e] eqn:E; cbn; [|done].
    case_bool_decide as Hh; [done|]. intros [= <-]. split; [|done]. unfold applyStdin in E.
    destruct (TrimSpace payload); [by injection E as <-|]. destruct (decode _) as [a|e]; [by injection E as <-|done].
  - cbn. case_bool_decide as Hh; [done|]. intros [= <-]. done.
Qed.

(** A port cannot be switched off on the input: 0 is the value that is not given. *)
Example stdin_cannot_disable_port :
  let args := MkStdinArgs (MkCredentials (go "192.0.2.7") 0 [] (go "pw") [] [] []) [] 0 0 0 [] [] [] None [] in
  let flags := MkDeployFlags true false [] 22 (go "root") [] [] [] 7000 80 443 [] true true in
  match deploy_options (fun _ => Ok args) flags (Ok (go "{}")) with
  | Ok o => o_VhostHTTPPort o = 80 /\ o_VhostHTTPSPort o = 443
  | Err _ => False
  end.
Proof. by vm_compute. Qed.

(** ** The [update] command (update.go) *)

Inductive update_report : Type :=
  | Available (latest current : bytes)
  | Newest (latest current : bytes)
  | NoReleases (current : bytes)
  | CheckFailed (e : status_error).

(** What [-check] prints without [-json]; the last one is an error. *)
Definition report_status (s : Status) : update_report :=
  match st_Error s with
  | NoStatusError =>
      if st_Available s then Available (st_Latest s) (st_Current s)
      else if bool_decide (st_Latest s = []) then NoReleases (st_Current s) else Newest (st_Latest s) (st_Current s)
  | e => CheckFailed e
  end.

(** ** The daemon (run.go) *)

Definition boundCertificates (c : Config.Client) : Z :=
  foldl (fun n t => if CertID t =? 0 then n else n + 1) 0 (EnabledTunnels c).

(** Whether certificates are pushed, and whether the history is kept. *)
Definition daemon_parts (opened : bool) (c : Config.Client) : bool * bool :=
  (opened && (0 <? boundCertificates c), opened).

(** ** Examples *)

Definition example_cert (action : string) (stdin : bytes) (d : DB) : (creply * bool) * DB * (nat * nat) :=
  runCert (U:=no_unicode) (Rx:=any_regexp) (X:=example_text) (Res:=example_resolver) (Lego:=counting_acme)
    (Out:=example_outside) example_registry None
    (fun _ => Ok (MkOrderInput [go "example.com"; go "*.example.com"] [] [] (go "me@example.com") 1 None))
    (fun _ => Err (go "unexpected field")) None 6 (fun _ => false) (Ok stdin) (go action) (MkCertFlags 1 [] [] 50) d (0, 0)%nat.

(** An order is placed, an empty request refused, a list changes nothing. *)
Lemma runCert_touches_witness :
  (example_cert "order-add" (go "{}") service_db).1.1.2 = true /\ db_ok (example_cert "order-add" (go "{}") service_db).1.2
  /\ (example_cert "eab" [] service_db).1.1.2 = false
  /\ same_tables service_db (example_cert "orders" [] service_db).1.2.
Proof.
  assert (forall action stdin, db_ok (example_cert action stdin service_db).1.2
    /\ (go action ∈ cert_changes \/ same_tables service_db (example_cert action stdin service_db).1.2)) as H.
  { intros action stdin. destruct (example_cert action stdin service_db) as [[[rp ok] d'] w'] eqn:E.
    unfold example_cert in E. apply runCert_touches in E as (H1 & H2 & _); [split; [exact H1|exact H2]|reflexivity|apply service_db_ok]. }
  split; [by vm_compute|]. split; [apply H|]. split; [by vm_compute|].
  destruct (H "orders" []) as [_ [Hin|Hs]]; [|exact Hs]. exfalso. revert Hin. apply (bool_decide_unpack (~ _)). by vm_compute.
Defined.
